(* ===== verification/_CoqProject ===== *)
-Q . S2P
Prelude.v
Bytes.v
Word32.v
Params.v
Machine.v
BlockCache.v
Bio.v
BioSpec.v
Journal.v
Log.v
LogSpec.v
LogTx.v
Crash.v
CString.v
Ulib.v
Fs.v
FsRep.v
FsBlocks.v
FsInodes.v
FsContent.v
FsData.v
FsDir.v
FsPath.v
FsTrunc.v
FsExample.v
FsTheorems.v
Console.v
ConsoleSpec.v
Printf.v
Umalloc.v
Clock.v
Grep.v
Sh.v
ShPrint.v
ShRun.v
Pipe.v
Kalloc.v
Vm.v
VmRep.v
VmSpace.v
VmCopy.v
VmTheorems.v
Kern.v
FileC.v
Proc.v
ProcSpec.v
Fork.v
ProcTheorems.v
Wait.v
Sched.v
PipeSpec.v
Family.v
Ide.v
IdeSpec.v
Mp.v
Mkfs.v
MkfsRep.v
MkfsSpec.v
MkfsTheorems.v
Bootmain.v
Lapic.v
Uprogs.v
Examples.v
Syscall.v
SyscallSpec.v
Sysfile.v
Exec.v
Trap.v
