(* ===== verification/Prelude.v ===== *)
(** * xv6 and its discussion examples: a verification development

    The repository holds xv6, a small Unix kernel for the x86 with its user
    programs ([src/xv6]), and the example programs of a course on operating
    systems ([src/w1] to [src/w13]).  This library models the kernel from the
    boot loader and the disk up to the system calls, most of the user programs,
    the program that builds the disk image and some of the examples as Rocq
    functions, and proves what each part promises to the next one.  This file
    is the root: the monad that the models are written in, its weakest
    preconditions, the tactics on them, and a few lemmas that all files share.

    ** How the code is modelled

    A C function becomes a function in the monad [M S A], a state transformer
    that returns ([Ok]), stops the machine ([Panic]), waits ([Blocked]: it
    sleeps, or spins on a lock that another processor holds) or does what C
    leaves undefined ([Fault]: an index outside an array, a null pointer).
    Guards, early returns and the order of calls are those of the source.  [wp
    m Q s] is total correctness: [m] returns from [s], and [Q] holds.  A
    function that sleeps ends there with the state of that moment; the loop
    around the sleep starts again from the top when the process runs again, so
    that several processes on one object are a step relation whose steps are
    these functions ([Pipe]).  Integers are [Z] with their conversions to 32,
    16 or 8 bits written out ([u32], [s32], ...); memory that is accessed
    through casts is bytes ([Bytes]); pointers are addresses, offsets or
    indices, as the code uses them.  A function that works on one part of the
    kernel is written against a class that gives it this part ([HasMachine],
    [HasMem], [HasCons], ...), and runs on the state of the whole ([Kern]).

    ** The parts of the kernel

    - [Params]: the constants and on-disk structures of [param.h], [fs.h],
      [buf.h], [stat.h], [fcntl.h], [mmu.h], [memlayout.h].
    - [Machine]: [struct cpu], [struct proc], spin locks ([spinlock.c]),
      sleep locks ([sleeplock.c]), [sleep], [wakeup], [sched].
    - [Bio], [BioSpec]: the buffer cache ([bio.c]) over the disk of
      [memide.c], with its doubly linked list.  It implements the interface of
      [BlockCache], which is all that its clients use.
    - [Log], [LogSpec], [LogTx], [Crash]: the log ([log.c]) over that
      interface.  It implements the interface of [Journal].  The disk keeps
      the sequence of its writes, so that a crash is a prefix of it.
    - [Fs] and the files [FsRep] to [FsTheorems]: the file system ([fs.c])
      over the interface of the log: the free map, inodes, the content of
      files, directories, paths.
    - [Console], [ConsoleSpec]: [console.c], [kbd.c], [uart.c].
    - [Pipe]: the ring buffer of [pipe.c] and the processes on it.
    - [Kalloc]: [kalloc.c], with the free list threaded through the pages.
    - [Vm], [VmRep], [VmSpace], [VmCopy], [VmTheorems]: [vm.c], with the page
      tables as words in those pages.
    - [Kern]: the state of the whole kernel.  [FileC]: [file.c] and the calls
      of [pipe.c] on it.  [PipeSpec]: these calls are steps of [Pipe].
    - [Proc], [ProcSpec], [Fork], [ProcTheorems]: [proc.c].  [Wait]: the loop
      of [wait].  [Family]: parents, children and the first process as a step
      relation.  [Sched]: the choice of the scheduler.
    - [Ide], [IdeSpec]: [ide.c].  The controller is a parameter ([Ata]), with
      what its documentation says as laws ([AtaLaws]).
    - [Mp]: the firmware's tables as [mp.c] reads them.
    - [Bootmain]: [bootmain.c], over the same ports, with physical memory as a
      function from addresses to bytes.
    - [Lapic]: [lapic.c] with the clock, [ioapic.c] and [picirq.c]; the devices
      are a parameter ([Board], [RtcLaws], [IoapicLaws]).
    - [Mkfs], [MkfsRep], [MkfsSpec], [MkfsTheorems]: [mkfs.c], which runs on
      another machine: the order of its bytes, the room on its disk and the
      files it opens are arguments.
    - [Syscall], [SyscallSpec]: the arguments of system calls ([syscall.c])
      and [sysproc.c].  [Sysfile]: [sysfile.c].  [Exec]: [exec.c].  [Trap]:
      the dispatch of system calls and [trap.c].

    ** The user programs and the examples

    - [CString], [Ulib], [Printf]: [string.c] of the kernel, and [ulib.c] and
      [printf.c] of the user library.
    - [Umalloc]: [umalloc.c].
    - [Grep]: [grep.c].  [Sh], [ShPrint], [ShRun]: [sh.c].
    - [Uprogs]: [cat.c], [wc.c], [echo.c], [ls.c], [kill.c], [ln.c],
      [mkdir.c], [rm.c], as functions of what their system calls deliver.
    - [Clock]: [w11/clock-example.c].  [Examples]: [w1/simple-cat.c] and
      [w4/simplesh.c].

    ** What the theorems show

    - Storage ([Crash]): a crash at any write of a commit leaves a disk from
      which recovery finds all of the transaction or nothing; recovery can
      itself crash; a transaction survives a reboot.
    - Files ([FsTheorems]): reading, writing, truncating, linking and path
      lookup act on the disk as on a tree of files with bytes, with exact
      reference counts, and leave other files alone; allocation and the inode
      cache keep their invariants.
    - Memory ([Kalloc], [VmTheorems]): a page has one owner at most; growing,
      shrinking and copying an address space change what the hardware finds
      in the page tables as they should, and give back what they took when
      they fail; an address space grows exactly when the free list has the
      pages for it.
    - Processes ([ProcTheorems], [Wait], [Family], [Sched], [SyscallSpec]):
      [fork], [wait] and [kill] on every path; every process but the first has
      a living parent; the scheduler gets to every process that can run; the
      checks on system call arguments keep the kernel inside the process.
    - Devices: the queue of the IDE driver serves its requests in order, as
      reads and writes of a disk, with the errors of the drive and the sleeping
      and waking of the callers ([IdeSpec]); the search for the firmware's
      tables stays in its bounds and counts the processors ([Mp]); the time of
      day is that of one moment, and an interrupt goes where it is routed
      ([Lapic]).
    - Start: the boot loader leaves every segment of the kernel in memory
      ([Bootmain]); the image that [mkfs] writes is, to the kernel's reading of
      it, the tree of the files that were given ([MkfsTheorems]).
    - Pipes ([Pipe]): under every interleaving readers get the bytes of the
      writers' buffers, first in, first out and without a gap, and no wakeup is
      lost without kills; the calls of the kernel do what a step of this
      system does ([PipeSpec]).
    - Console ([ConsoleSpec]): the ring buffer is a line editor; the cursor
      stays on the screen.
    - User programs: [malloc] and [free] keep the blocks of a process apart
      and terminate, for requests below 2^31 - 32 bytes in a process that does
      not shrink ([Umalloc]); [grep] decides the language of its patterns
      ([Grep]); the parser of the shell ends on every line and reads back what
      is printed ([Sh], [ShPrint]); pipelines get the right descriptors
      ([ShRun]); [atoi] on what [printf] prints for each [int]
      ([Printf]); [cat] and [wc]
      give the same result however the input is cut into reads, [echo] joins
      its arguments, and [ls] stays inside its arrays ([Uprogs]).
    - Examples: the clock queue implements second-chance replacement, and the
      pages present are those of the ring ([Clock]); the first line of a file is repeated, and the small shell
      handles its lines in order ([Examples]).

    Where the code does not do what it means to, a theorem says what it does
    instead: the killed writer of a pipe ([Pipe.pipe_killed_writer]), the sizes
    that [malloc] rounds to nothing ([Umalloc.malloc_wraps]), the reads that
    [grep] throws away ([Grep.grep_short_read]), the table entries on
    which [mpinit] loops for ever ([Mp.mpinit_unknown_entry]), the block that the root
    directory of a new image may lack ([MkfsTheorems.mkfs_root_hole]), images
    built on a machine with the other byte order
    ([MkfsTheorems.mkfs_big_endian]), read errors of the disk
    ([IdeSpec.ide_read_error]), lines that are cut or begin with a NUL byte
    ([Examples.first_line_cut], [Examples.first_line_nul]), and the message
    that is lost with its buffer ([Examples.exec_message_lost]).

    ** Bounds and fuel

    A loop with a counter runs on it ([for_loop], [for_find]).  Other loops
    take fuel and end in [Fault] or [None] without it, and the theorems show
    that the fuel given in the model is enough: the number of headers for the
    list of [umalloc.c] (twice around for [malloc]), the bytes left for the
    loops of [readi], [writei] and [grep], the elements of the path for
    [namex], one turn of the hand and a step for the clock, four calls for
    each character of the line for the grammar of the shell, the number of
    pages for [kinit], the bytes left for [iappend], the sectors of the segment
    for [readseg], three turns more than fit into an update of the clock for
    [cmostime].  Loops that wait for a device
    ([idewait], [waitdisk], the delivery of [lapicinit]) take as fuel how often
    the status is read, and the laws bound how long the device is busy.  The
    parameters that the linker sets (the end of the
    kernel, its data section) and the drivers in the device switch are
    arguments, with what the code relies on as hypotheses.

    ** Not modelled

    - The entry code ([bootasm.S], [entry.S], [entryother.S], [main.c],
      [initcode.S]), the context switch and the trap entries in assembly
      ([swtch.S], [trapasm.S], [vectors.pl], [usys.S]), and [uartinit],
      [seginit] and [tvinit]: register writes without a state of their own
      that the rest of the kernel reads back.
    - Parallel execution inside a critical section: the model runs one
      processor, and other processors and processes act where a function
      gives up a lock.
    - The messages of [allocuvm] and [iinit] on the console: the parts of the
      state that these functions work on have no console.
    - The file system runs on the disk of [memide.c]; [IdeSpec] relates the
      driver of [ide.c] to a disk of the same kind, but the two are not
      composed, and [ideinit] does not call [ioapicenable].
    - The processor that [lapicstartap] starts: the model has the register
      writes that start it.
    - [usertests.c], [forktest.c], [stressfs.c], [init.c], [zombie.c],
      [testpidplusone.c] and the example programs of the other weeks, which
      are sequences of system calls and calls of the C library; the command
      line of [simple-cat.c]. *)

From stdpp Require Export base tactics list gmap sets strings numbers option fin_maps.

(** ** Machine integers

    C integers are kept as [Z]; the width of a value is written out where the
    code converts or where arithmetic can wrap. *)

Declare Scope c_scope.
Delimit Scope c_scope with c.

Definition u32 (x : Z) : Z := x mod 2 ^ 32.
Definition u16 (x : Z) : Z := x mod 2 ^ 16.
Definition u8 (x : Z) : Z := x mod 2 ^ 8.
Definition s32 (x : Z) : Z :=
  let y := u32 x in if bool_decide (y < 2 ^ 31)%Z then y else (y - 2 ^ 32)%Z.
Definition s16 (x : Z) : Z :=
  let y := u16 x in if bool_decide (y < 2 ^ 15)%Z then y else (y - 2 ^ 16)%Z.

(** Truth value of a C expression. *)
Definition c_bool (z : Z) : bool := negb (bool_decide (z = 0%Z)).

Lemma c_bool_0 : c_bool 0 = false.
Proof. done. Qed.
Lemma c_bool_nz z : z <> 0%Z -> c_bool z = true.
Proof. intros. unfold c_bool. by rewrite bool_decide_eq_false_2. Qed.

Lemma c_bool_false z : c_bool z = false <-> z = 0%Z.
Proof. unfold c_bool. case_bool_decide; naive_solver. Qed.

Notation "x +u y" := (u32 (x + y)) (at level 50, left associativity) : c_scope.
Notation "x -u y" := (u32 (x - y)) (at level 50, left associativity) : c_scope.
Notation "x *u y" := (u32 (x * y)) (at level 40, left associativity) : c_scope.
Notation "x =z y" := (bool_decide (x = y%Z)) (at level 70) : c_scope.
Notation "x <z y" := (bool_decide (x < y)%Z) (at level 70) : c_scope.
Notation "x <=z y" := (bool_decide (x <= y)%Z) (at level 70) : c_scope.
Open Scope c_scope.

(** ** The kernel monad

    A function of the kernel is a state transformer that returns, stops the
    machine in [panic], gives the processor up in [sleep] (or spins on a lock
    that another processor holds), or does something C leaves undefined (an
    index outside an array, a null pointer). *)

Inductive outcome (S A : Type) : Type :=
| Ok (a : A) (s : S)
| Panic (msg : string)
| Blocked (s : S)
| Fault (what : string).
Arguments Ok {S A} a s.
Arguments Panic {S A} msg.
Arguments Blocked {S A} s.
Arguments Fault {S A} what.

Definition M (S : Type) (A : Type) : Type := S -> outcome S A.

#[export] Instance M_ret {S} : MRet (M S) := fun A a s => Ok a s.
#[export] Instance M_bind {S} : MBind (M S) := fun A B f m s =>
  match m s with
  | Ok a s' => f a s'
  | Panic msg => Panic msg
  | Blocked s' => Blocked s'
  | Fault w => Fault w
  end.

Definition panic {S A} (msg : string) : M S A := fun _ => Panic msg.
Definition fault {S A} (what : string) : M S A := fun _ => Fault what.
Definition block {S A} : M S A := fun s => Blocked s.
Definition get {S} : M S S := fun s => Ok s s.
Definition gets {S A} (f : S -> A) : M S A := fun s => Ok (f s) s.
Definition modify {S} (f : S -> S) : M S unit := fun s => Ok tt (f s).
Definition when {S} (b : bool) (m : M S unit) : M S unit :=
  if b then m else mret tt.
Definition of_option {S A} (what : string) (o : option A) : M S A :=
  match o with Some a => mret a | None => fault what end.

(** [for (i = lo; i < lo + n; i++) body i], the body without [break]. *)
Fixpoint for_loop {S} (n : nat) (i : Z) (body : Z -> M S unit) : M S unit :=
  match n with
  | O => mret tt
  | Datatypes.S n' => body i ;; for_loop n' (i + 1)%Z body
  end.

(** The same loop with an early exit: the body returns [Some r] to leave it. *)
Fixpoint for_find {S A} (n : nat) (i : Z) (body : Z -> M S (option A)) : M S (option A) :=
  match n with
  | O => mret None
  | Datatypes.S n' =>
      r ← body i;
      match r with
      | Some a => mret (Some a)
      | None => for_find n' (i + 1)%Z body
      end
  end.

(** Run a computation on a component of a larger state. *)
Definition zoom {S T A} (proj : S -> T) (inj : T -> S -> S) (m : M T A) : M S A :=
  fun s =>
    match m (proj s) with
    | Ok a t => Ok a (inj t s)
    | Panic msg => Panic msg
    | Blocked t => Blocked (inj t s)
    | Fault w => Fault w
    end.

(** ** Weakest preconditions

    [wp m Q s]: from [s] the computation [m] returns (no panic, no sleep, no
    undefined behaviour), and [Q] holds of what it returns and of the state it
    leaves. *)

Definition wp {S A} (m : M S A) (Q : A -> S -> Prop) (s : S) : Prop :=
  match m s with
  | Ok a s' => Q a s'
  | _ => False
  end.

(** The state a computation leaves when it returns. *)
Definition after {S A} (m : M S A) (s : S) : S :=
  match m s with Ok _ s' => s' | _ => s end.

Section wp.
Context {S : Type}.
Implicit Types s : S.

Lemma wp_after {A} (m : M S A) (Q : A -> S -> Prop) s :
  wp m Q s -> exists a, Q a (after m s).
Proof. unfold wp, after. destruct (m s); [eauto|done..]. Qed.

Lemma wp_ret {A} (a : A) (Q : A -> S -> Prop) s : Q a s -> wp (mret a) Q s.
Proof. done. Qed.

Lemma wp_bind {A B} (m : M S A) (f : A -> M S B) (Q : B -> S -> Prop) s :
  wp m (fun a s' => wp (f a) Q s') s -> wp (m ≫= f) Q s.
Proof. unfold wp, mbind, M_bind. by destruct (m s). Qed.

Lemma wp_mono {A} (m : M S A) (P Q : A -> S -> Prop) s :
  wp m P s -> (forall a s', P a s' -> Q a s') -> wp m Q s.
Proof. unfold wp. destruct (m s); naive_solver. Qed.

Lemma wp_gets {A} (f : S -> A) (Q : A -> S -> Prop) s :
  Q (f s) s -> wp (gets f) Q s.
Proof. done. Qed.

Lemma wp_get (Q : S -> S -> Prop) s : Q s s -> wp get Q s.
Proof. done. Qed.

Lemma wp_modify (f : S -> S) (Q : unit -> S -> Prop) s :
  Q tt (f s) -> wp (modify f) Q s.
Proof. done. Qed.

Lemma wp_of_option {A} (w : string) (o : option A) (Q : A -> S -> Prop) a s :
  o = Some a -> Q a s -> wp (of_option w o) Q s.
Proof. by intros ->. Qed.

Lemma wp_ok {A} (m : M S A) (Q : A -> S -> Prop) s :
  wp m Q s <-> exists a s', m s = Ok a s' /\ Q a s'.
Proof.
  unfold wp. split.
  - destruct (m s); naive_solver.
  - by intros (a & s' & -> & ?).
Qed.

Lemma wp_when (b : bool) (m : M S unit) (Q : unit -> S -> Prop) s :
  (b = true -> wp m Q s) -> (b = false -> Q tt s) -> wp (when b m) Q s.
Proof. destruct b; naive_solver. Qed.

(** Invariant rule of [for_loop]: [I i] holds before iteration [i]. *)
Lemma wp_for_loop (I : Z -> S -> Prop) n i body s :
  I i s ->
  (forall j s', (i <= j < i + Z.of_nat n)%Z -> I j s' ->
     wp (body j) (fun _ => I (j + 1)%Z) s') ->
  wp (for_loop n i body) (fun _ => I (i + Z.of_nat n)%Z) s.
Proof.
  revert i s. induction n as [|n IH]; intros i s HI Hstep; simpl.
  - by rewrite Z.add_0_r.
  - apply wp_bind. eapply wp_mono; [apply Hstep; [lia|done]|].
    intros [] s' HI'. cbn beta in HI'.
    replace (i + Z.of_nat (Datatypes.S n))%Z with ((i + 1) + Z.of_nat n)%Z by lia.
    apply IH; [done|]. intros j s'' Hj. apply Hstep. lia.
Qed.

(** Rule of [for_find]: [I i] before iteration [i] if no exit was taken. *)
Lemma wp_for_find {A} (I : Z -> S -> Prop) (Q : option A -> S -> Prop) n i body s :
  I i s ->
  (forall j s', (i <= j < i + Z.of_nat n)%Z -> I j s' ->
     wp (body j) (fun r s'' => match r with
                               | Some a => Q (Some a) s''
                               | None => I (j + 1)%Z s''
                               end) s') ->
  (forall s', I (i + Z.of_nat n)%Z s' -> Q None s') ->
  wp (for_find n i body) Q s.
Proof.
  revert i s. induction n as [|n IH]; intros i s HI Hstep Hend; simpl.
  - apply wp_ret, Hend. by rewrite Z.add_0_r.
  - apply wp_bind. eapply wp_mono; [apply Hstep; [lia|done]|].
    intros [a|] s' HI'; simpl; [done|].
    apply IH; [done| |].
    + intros j s'' Hj. apply Hstep. lia.
    + intros s'' ?. apply Hend.
      by replace (i + Z.of_nat (Datatypes.S n))%Z with ((i + 1) + Z.of_nat n)%Z by lia.
Qed.

Lemma wp_zoom {T A} (proj : S -> T) (inj : T -> S -> S) (m : M T A)
    (Q : A -> S -> Prop) s :
  wp m (fun a t => Q a (inj t s)) (proj s) -> wp (zoom proj inj m) Q s.
Proof. unfold wp, zoom. by destruct (m (proj s)). Qed.
End wp.

(** One step of a [wp] proof on the structure of the code. *)
Ltac wp_step :=
  lazymatch goal with
  | |- wp (mbind _ _) _ _ => apply wp_bind
  | |- wp (mret _) _ _ => apply wp_ret
  | |- wp (gets _) _ _ => apply wp_gets
  | |- wp get _ _ => apply wp_get
  | |- wp (modify _) _ _ => apply wp_modify
  | |- wp (zoom _ _ _) _ _ => apply wp_zoom
  end; cbn beta.
Ltac wp_steps := repeat wp_step.
(** Use a specification lemma for the first call of the goal. *)
Tactic Notation "wp_apply" uconstr(lem) := eapply wp_mono; [eapply lem|].

(** ** Sizes of finite sets *)

Section sizes.
Implicit Types X Y : gset Z.

Lemma size_union_le X Y : size (X ∪ Y) <= size X + size Y.
Proof.
  rewrite size_union_alt.
  pose proof (subseteq_size (Y ∖ X) Y ltac:(set_solver)). lia.
Qed.

Lemma size_list_to_set_le (l : list Z) : size (list_to_set l : gset Z) <= length l.
Proof.
  induction l as [|x l IH]; cbn; [by rewrite size_empty|].
  pose proof (size_union_le {[x]} (list_to_set l)). rewrite size_singleton in *. lia.
Qed.

Lemma size_map_img_le (m : gmap nat Z) : size (map_img m : gset Z) <= size m.
Proof.
  rewrite map_img_alt_L. etrans; [apply size_list_to_set_le|].
  by rewrite length_fmap, length_map_to_list.
Qed.
End sizes.
