(* ===== verification/Bytes.v ===== *)
(** * Byte arrays

    The contents of memory areas that the code accesses through casts: a disk
    block, an on-disk inode, a directory entry, the log header.  A byte array
    is a list of integers in [0, 256); C integers are stored little-endian, as
    on the x86 that xv6 runs on. *)

From S2P Require Import Prelude.

(** ** Little-endian integers *)

Fixpoint le_bytes (n : nat) (v : Z) : list Z :=
  match n with
  | O => []
  | S n' => v mod 256 :: le_bytes n' (v / 256)
  end%Z.

Fixpoint le_val (l : list Z) : Z :=
  match l with
  | [] => 0
  | b :: l' => b + 256 * le_val l'
  end%Z.

Definition byte_ok (b : Z) : Prop := (0 <= b < 256)%Z.
Definition bytes_ok (l : list Z) : Prop := Forall byte_ok l.

(** ** Slices *)

Definition slice (off n : nat) (l : list Z) : list Z := take n (drop off l).

(** [memmove(dst + off, src, length src)] on disjoint areas. *)
Definition splice (off : nat) (src dst : list Z) : list Z :=
  take off dst ++ src ++ drop (off + length src) dst.

Definition get32 (l : list Z) (off : nat) : Z := le_val (slice off 4 l).
Definition set32 (l : list Z) (off : nat) (v : Z) : list Z := splice off (le_bytes 4 v) l.
Definition get16 (l : list Z) (off : nat) : Z := le_val (slice off 2 l).
Definition set16 (l : list Z) (off : nat) (v : Z) : list Z := splice off (le_bytes 2 v) l.

Lemma length_le_bytes n v : length (le_bytes n v) = n.
Proof. revert v. induction n; intros; simpl; auto. Qed.

Lemma le_bytes_ok n v : bytes_ok (le_bytes n v).
Proof.
  revert v. induction n; intros v; constructor; [|apply IHn].
  apply Z.mod_pos_bound. lia.
Qed.

Lemma le_val_bytes n v : le_val (le_bytes n v) = (v mod 2 ^ (8 * Z.of_nat n))%Z.
Proof.
  revert v. induction n as [|n IH]; intros v; cbn [le_bytes le_val].
  - by rewrite Z.mod_1_r.
  - rewrite IH.
    replace (8 * Z.of_nat (S n))%Z with (8 + 8 * Z.of_nat n)%Z by lia.
    rewrite Z.pow_add_r by lia.
    rewrite Z.rem_mul_r by (apply Z.pow_nonzero || apply Z.pow_pos_nonneg; lia).
    reflexivity.
Qed.

Lemma le_val_range l :
  bytes_ok l -> (0 <= le_val l < 2 ^ (8 * Z.of_nat (length l)))%Z.
Proof.
  induction 1 as [|b l Hb _ IH]; cbn [le_val length]; [done|].
  replace (8 * Z.of_nat (S (length l)))%Z with (8 + 8 * Z.of_nat (length l))%Z by lia.
  rewrite Z.pow_add_r by lia. change (2 ^ 8)%Z with 256%Z. unfold byte_ok in Hb. nia.
Qed.

Lemma le_bytes_val l : bytes_ok l -> le_bytes (length l) (le_val l) = l.
Proof.
  induction 1 as [|b l Hb _ IH]; cbn [le_val length le_bytes]; [done|].
  unfold byte_ok in Hb.
  rewrite (Z.mul_comm 256), Z.mod_add, Z.div_add, Z.mod_small, Z.div_small by lia.
  by rewrite Z.add_0_l, IH.
Qed.

(** ** Slices and splices *)

Section splice.
Local Open Scope nat_scope.
Implicit Types l src dst : list Z.

Lemma length_splice off src dst :
  off + length src <= length dst -> length (splice off src dst) = length dst.
Proof.
  intros. unfold splice. rewrite !length_app, length_take, length_drop. lia.
Qed.

Lemma length_slice off n l : off + n <= length l -> length (slice off n l) = n.
Proof. intros. unfold slice. rewrite length_take, length_drop. lia. Qed.

Lemma slice_splice_same off src dst n :
  n = length src -> off <= length dst -> slice off n (splice off src dst) = src.
Proof.
  intros -> Hoff. unfold slice, splice.
  rewrite drop_app_length' by (rewrite length_take; lia).
  by rewrite take_app_length.
Qed.

Lemma lookup_splice_in off src dst i :
  off <= length dst -> off <= i < off + length src ->
  splice off src dst !! i = src !! (i - off).
Proof.
  intros Hoff Hi. unfold splice.
  rewrite lookup_app_r, length_take by (rewrite length_take; lia).
  rewrite lookup_app_l by lia. f_equal. lia.
Qed.

Lemma lookup_splice_out off src dst i :
  off + length src <= length dst -> i < off \/ off + length src <= i ->
  splice off src dst !! i = dst !! i.
Proof.
  intros Hoff Hi. unfold splice. destruct Hi as [Hi|Hi].
  - rewrite lookup_app_l by (rewrite length_take; lia).
    by rewrite lookup_take_lt by lia.
  - rewrite lookup_app_r, length_take by (rewrite length_take; lia).
    rewrite lookup_app_r, lookup_drop by lia. f_equal. lia.
Qed.

Lemma lookup_slice off n l i :
  slice off n l !! i = if decide (i < n) then l !! (off + i) else None.
Proof.
  unfold slice. case_decide.
  - by rewrite lookup_take_lt, lookup_drop by done.
  - rewrite lookup_ge_None_2; [done|]. rewrite length_take. lia.
Qed.

Lemma slice_splice_other off n off' src dst :
  off' + length src <= length dst ->
  off + n <= off' \/ off' + length src <= off ->
  slice off n (splice off' src dst) = slice off n dst.
Proof.
  intros Hin Hdis. apply list_eq. intros i. rewrite !lookup_slice.
  case_decide; [|done]. apply lookup_splice_out; lia.
Qed.

Lemma bytes_ok_splice off src dst :
  bytes_ok src -> bytes_ok dst -> bytes_ok (splice off src dst).
Proof.
  intros. unfold splice, bytes_ok. rewrite !Forall_app.
  split_and!; [by apply Forall_take|done|by apply Forall_drop].
Qed.

Lemma bytes_ok_slice off n l : bytes_ok l -> bytes_ok (slice off n l).
Proof. intros. by apply Forall_take, Forall_drop. Qed.

Lemma splice_slice off n l :
  off + n <= length l -> splice off (slice off n l) l = l.
Proof.
  intros. unfold splice. rewrite length_slice by done. unfold slice.
  rewrite <- drop_drop, !take_drop. done.
Qed.
End splice.

(** ** Integers stored in a byte array *)

Section ints.
Local Open Scope nat_scope.
Implicit Types l : list Z.

Lemma length_set32 l off v : off + 4 <= length l -> length (set32 l off v) = length l.
Proof. intros. unfold set32. by apply length_splice; rewrite length_le_bytes. Qed.

Lemma length_set16 l off v : off + 2 <= length l -> length (set16 l off v) = length l.
Proof. intros. unfold set16. by apply length_splice; rewrite length_le_bytes. Qed.

Lemma get_set32 l off v : off + 4 <= length l -> get32 (set32 l off v) off = u32 v.
Proof.
  intros. unfold get32, set32.
  rewrite slice_splice_same by (rewrite ?length_le_bytes; lia).
  by rewrite le_val_bytes.
Qed.

Lemma get_set16 l off v : off + 2 <= length l -> get16 (set16 l off v) off = u16 v.
Proof.
  intros. unfold get16, set16.
  rewrite slice_splice_same by (rewrite ?length_le_bytes; lia).
  by rewrite le_val_bytes.
Qed.

Lemma get_set32_ne l off off' v :
  off' + 4 <= length l -> off + 4 <= off' \/ off' + 4 <= off ->
  get32 (set32 l off' v) off = get32 l off.
Proof.
  intros. unfold get32, set32.
  by rewrite slice_splice_other by (rewrite ?length_le_bytes; lia).
Qed.

Lemma get32_range l off :
  bytes_ok l -> off + 4 <= length l -> (0 <= get32 l off < 2 ^ 32)%Z.
Proof.
  intros Hok Hlen. pose proof (le_val_range _ (bytes_ok_slice off 4 l Hok)) as H.
  rewrite length_slice in H by done. exact H.
Qed.

Lemma bytes_ok_set32 l off v : bytes_ok l -> bytes_ok (set32 l off v).
Proof. intros. apply bytes_ok_splice; [apply le_bytes_ok|done]. Qed.
End ints.

Lemma u32_small x : (0 <= x < 2 ^ 32)%Z -> u32 x = x.
Proof. intros. by apply Z.mod_small. Qed.

Lemma u32_range x : (0 <= u32 x < 2 ^ 32)%Z.
Proof. apply Z.mod_pos_bound. lia. Qed.

Lemma s32_small x : (0 <= x < 2 ^ 31)%Z -> s32 x = x.
Proof.
  intros. unfold s32. rewrite u32_small by lia.
  by rewrite bool_decide_eq_true_2 by lia.
Qed.

Create HintDb bytes.
#[export] Hint Resolve le_bytes_ok bytes_ok_splice bytes_ok_slice bytes_ok_set32 : bytes.
#[export] Hint Rewrite length_le_bytes : bytes.
#[export] Hint Rewrite length_splice length_set32 length_set16 length_slice
  using (autorewrite with bytes; lia) : bytes.

(** Bytes, decided. *)
Definition bytes_okb (l : list Z) : bool := forallb (fun b => (0 <=? b)%Z && (b <? 256)%Z) l.
Lemma bytes_okb_ok l : bytes_okb l = true -> bytes_ok l.
Proof.
  unfold bytes_okb. rewrite forallb_forall. intros H. apply Forall_forall. intros b Hb.
  apply list_elem_of_In in Hb. apply H, andb_true_iff in Hb. unfold byte_ok. lia.
Qed.
