(* ===== verification/Word32.v ===== *)
(** * Arithmetic of 32-bit counters

    Lemmas on [u32] that the ring buffers and the decimal conversions share:
    wrapped counters behave like unbounded ones as long as they are compared
    over distances below 2^32. *)

From S2P Require Import Prelude Bytes.
Local Open Scope Z_scope.

Lemma u32_eq x y : u32 x = u32 y <-> u32 (x - y) = 0.
Proof.
  unfold u32. rewrite Zminus_mod. split; [intros ->; by rewrite Z.sub_diag|].
  pose proof (Z.mod_pos_bound x (2 ^ 32) ltac:(lia)). pose proof (Z.mod_pos_bound y (2 ^ 32) ltac:(lia)).
  destruct (decide (y mod 2 ^ 32 <= x mod 2 ^ 32)).
  - rewrite Z.mod_small by lia. lia.
  - replace (x mod 2 ^ 32 - y mod 2 ^ 32) with (x mod 2 ^ 32 - y mod 2 ^ 32 + 2 ^ 32 + (-1) * 2 ^ 32) by lia.
    rewrite Z.mod_add, Z.mod_small by lia. lia.
Qed.

Lemma u32_add_l x y : u32 (u32 x + y) = u32 (x + y).
Proof. unfold u32. by rewrite Z.add_mod_idemp_l by lia. Qed.
Lemma u32_sub_l x y : u32 (u32 x - y) = u32 (x - y).
Proof. unfold u32. by rewrite Zminus_mod_idemp_l. Qed.
Lemma u32_sub_r x y : u32 (x - u32 y) = u32 (x - y).
Proof. unfold u32. by rewrite Zminus_mod_idemp_r. Qed.

(** An index modulo a divisor of 2^32 survives the wrap. *)
Lemma u32_mod_divides n x : 0 < n -> (n | 2 ^ 32) -> u32 x mod n = x mod n.
Proof.
  intros Hn [k Hk]. unfold u32. rewrite Hk. assert (0 < k) by nia.
  rewrite (Z.mul_comm k n), Z.rem_mul_r, (Z.mul_comm n (_ mod _)), Z.mod_add by lia. apply Z.mod_mod. lia.
Qed.

(** Counters less than 2^32 apart. *)
Lemma u32_near x y : - 2 ^ 32 < x - y < 2 ^ 32 -> u32 x = u32 y -> x = y.
Proof.
  intros Hd [k Hk]%u32_eq%Z.mod_divide; [|done]. assert (k = 0) as -> by nia. lia.
Qed.
Lemma u32_dist x y : 0 <= x - y < 2 ^ 32 -> u32 (u32 x - u32 y) = x - y.
Proof. intros Hd. rewrite u32_sub_l, u32_sub_r. by apply u32_small. Qed.
