(* ===== verification/Machine.v ===== *)
(** * Processors, processes and locks

    The state every part of the kernel shares, and the primitives on it:
    - [struct cpu], [struct proc] ([proc.h]), the spin locks and sleep locks
      of the whole kernel, named by the object they are a field of;
    - [spinlock.c]: [pushcli], [popcli], [holding], [acquire], [release];
    - [proc.c]: [mycpu], [myproc], [sched], [sleep], [wakeup1], [wakeup];
    - [sleeplock.c]: [acquiresleep], [releasesleep], [holdingsleep].

    The model executes one processor: a function that has to wait, because it
    sleeps or because the lock is held by another processor, ends in [Blocked]
    with the state it leaves to the others.  The debugging fields of a lock
    ([name], [pcs]) are not modelled. *)

From S2P Require Import Prelude Params.
Local Open Scope Z_scope.

(** ** Data *)

(** A sleep lock is a field of a buffer or of an inode. *)
Inductive slockid := SBuf (i : nat) | SInode (i : nat).

Inductive lockid :=
| LPtable | LBcache | LIcache | LLog | LFtable | LKmem | LCons | LTicks | LIde
| LPipe (p : Z)
| LSleep (l : slockid).

(** Wait channels: the address a process sleeps on. *)
Inductive chan :=
| ChSleep (l : slockid) | ChLog | ChPipeR (p : Z) | ChPipeW (p : Z)
| ChTicks | ChInput | ChProc (i : nat) | ChBuf (i : nat).

#[export] Instance slockid_eq : EqDecision slockid.
Proof. solve_decision. Defined.
#[export] Instance lockid_eq : EqDecision lockid.
Proof. solve_decision. Defined.
#[export] Instance chan_eq : EqDecision chan.
Proof. solve_decision. Defined.

Definition slockid_code (l : slockid) : nat + nat :=
  match l with SBuf i => inl i | SInode i => inr i end.
#[export] Instance slockid_countable : Countable slockid.
Proof.
  refine (inj_countable' slockid_code
            (fun c => match c with inl i => SBuf i | inr i => SInode i end) _).
  by intros [].
Defined.

Definition lockid_code (l : lockid) : nat + (Z + slockid) :=
  match l with
  | LPtable => inl 0 | LBcache => inl 1 | LIcache => inl 2 | LLog => inl 3
  | LFtable => inl 4 | LKmem => inl 5 | LCons => inl 6 | LTicks => inl 7
  | LIde => inl 8 | LPipe p => inr (inl p) | LSleep l => inr (inr l)
  end%nat.
#[export] Instance lockid_countable : Countable lockid.
Proof.
  refine (inj_countable' lockid_code
    (fun c => match c with
              | inl 0 => LPtable | inl 1 => LBcache | inl 2 => LIcache | inl 3 => LLog
              | inl 4 => LFtable | inl 5 => LKmem | inl 6 => LCons | inl 7 => LTicks
              | inl _ => LIde | inr (inl p) => LPipe p | inr (inr l) => LSleep l
              end%nat) _).
  by intros [].
Defined.

(** [struct spinlock]: [lk->locked] and [lk->cpu]. *)
Record spinlock := Spinlock { locked : Z; lcpu : option nat }.
(** [struct sleeplock]: [lk->locked] and [lk->pid]. *)
Record sleeplock := Sleeplock { slocked : Z; spid : Z }.

(** [struct cpu]: the fields the kernel's C code reads. *)
Record cpu := Cpu {
  apicid : Z;
  ncli : Z;
  intena : bool;
  cproc : option nat   (** index in [ptable.proc], or null *)
}.

Record context := Context { c_edi : Z; c_esi : Z; c_ebx : Z; c_ebp : Z; c_eip : Z }.

Record trapframe := Trapframe {
  tf_edi : Z; tf_esi : Z; tf_ebp : Z; tf_oesp : Z; tf_ebx : Z; tf_edx : Z; tf_ecx : Z;
  tf_eax : Z; tf_gs : Z; tf_fs : Z; tf_es : Z; tf_ds : Z; tf_trapno : Z; tf_err : Z;
  tf_eip : Z; tf_cs : Z; tf_eflags : Z; tf_esp : Z; tf_ss : Z
}.

Inductive procstate := UNUSED | EMBRYO | SLEEPING | RUNNABLE | RUNNING | ZOMBIE.
#[export] Instance procstate_eq : EqDecision procstate.
Proof. solve_decision. Defined.

(** [struct proc]; pointers into tables are indices, null pointers [None]. *)
Record proc := Proc {
  p_sz : Z;
  p_pgdir : Z;
  p_kstack : Z;
  p_state : procstate;
  p_pid : Z;
  p_parent : option nat;
  p_tf : trapframe;
  p_context : context;
  p_chan : option chan;
  p_killed : Z;
  p_ofile : list (option nat);
  p_cwd : option nat;
  p_name : list Z
}.

Definition set_p_state (st : procstate) (p : proc) : proc :=
  Proc (p_sz p) (p_pgdir p) (p_kstack p) st (p_pid p) (p_parent p) (p_tf p)
       (p_context p) (p_chan p) (p_killed p) (p_ofile p) (p_cwd p) (p_name p).
Definition set_p_chan (c : option chan) (p : proc) : proc :=
  Proc (p_sz p) (p_pgdir p) (p_kstack p) (p_state p) (p_pid p) (p_parent p) (p_tf p)
       (p_context p) c (p_killed p) (p_ofile p) (p_cwd p) (p_name p).

(** The machine: the executing processor's interrupt flag and APIC id, the
    kernel's processor table, its locks, and the process table. *)
Record machine := Machine {
  hw_if : bool;
  hw_apicid : Z;
  cpus : list cpu;
  locks : gmap lockid spinlock;
  slocks : gmap slockid sleeplock;
  procs : list proc
}.

Definition set_if (b : bool) (m : machine) : machine :=
  Machine b (hw_apicid m) (cpus m) (locks m) (slocks m) (procs m).
Definition set_cpus (c : list cpu) (m : machine) : machine :=
  Machine (hw_if m) (hw_apicid m) c (locks m) (slocks m) (procs m).
Definition set_lock (l : lockid) (k : spinlock) (m : machine) : machine :=
  Machine (hw_if m) (hw_apicid m) (cpus m) (<[l := k]> (locks m)) (slocks m) (procs m).
Definition set_slock (l : slockid) (k : sleeplock) (m : machine) : machine :=
  Machine (hw_if m) (hw_apicid m) (cpus m) (locks m) (<[l := k]> (slocks m)) (procs m).
Definition set_procs (p : list proc) (m : machine) : machine :=
  Machine (hw_if m) (hw_apicid m) (cpus m) (locks m) (slocks m) p.

(** [initlock] and [initsleeplock] leave a lock in these states. *)
Definition initlock : spinlock := Spinlock 0 None.
Definition initsleeplock : sleeplock := Sleeplock 0 0.
Definition lock_of (m : machine) (l : lockid) : spinlock := default initlock (locks m !! l).
Definition slock_of (m : machine) (l : slockid) : sleeplock := default initsleeplock (slocks m !! l).

(** ** spinlock.c and the processor part of proc.c *)

Definition cli : M machine unit := modify (set_if false).
Definition sti : M machine unit := modify (set_if true).

Definition cpu_index (m : machine) : option nat :=
  fst <$> list_find (fun c => apicid c = hw_apicid m) (cpus m).

Definition mycpu : M machine nat :=
  m ← get;
  if hw_if m then panic "mycpu called with interrupts enabled"
  else match cpu_index m with
       | Some c => mret c
       | None => panic "unknown apicid"
       end.

Definition get_cpu : M machine (nat * cpu) :=
  c ← mycpu;
  m ← get;
  cp ← of_option "cpus index" (cpus m !! c);
  mret (c, cp).
Definition put_cpu (c : nat) (cp : cpu) : M machine unit :=
  modify (fun m => set_cpus (<[c := cp]> (cpus m)) m).

Definition pushcli : M machine unit :=
  eflags ← gets hw_if;
  cli ;;
  '(c, cp) ← get_cpu;
  let cp := if ncli cp =z 0 then Cpu (apicid cp) (ncli cp) eflags (cproc cp) else cp in
  put_cpu c (Cpu (apicid cp) (ncli cp + 1) (intena cp) (cproc cp)).

Definition popcli : M machine unit :=
  eflags ← gets hw_if;
  if (eflags : bool) then panic "popcli - interruptible" else
  '(c, cp) ← get_cpu;
  put_cpu c (Cpu (apicid cp) (ncli cp - 1) (intena cp) (cproc cp)) ;;
  if ncli cp - 1 <z 0 then panic "popcli" else
  when ((ncli cp - 1 =z 0) && intena cp) sti.

Definition holding (l : lockid) : M machine bool :=
  pushcli ;;
  c ← mycpu;
  k ← gets (fun m => lock_of m l);
  let r := c_bool (locked k) && bool_decide (lcpu k = Some c) in
  popcli ;;
  mret r.

(** [xchg] on a lock that another processor holds spins: [Blocked]. *)
Definition acquire (l : lockid) : M machine unit :=
  pushcli ;;
  h ← holding l;
  if (h : bool) then panic "acquire" else
  k ← gets (fun m => lock_of m l);
  modify (set_lock l (Spinlock 1 (lcpu k))) ;;
  if c_bool (locked k) then block else
  c ← mycpu;
  modify (set_lock l (Spinlock 1 (Some c))).

Definition release (l : lockid) : M machine unit :=
  h ← holding l;
  if negb h then panic "release" else
  modify (set_lock l (Spinlock 0 None)) ;;
  popcli.

Definition myproc : M machine (option nat) :=
  pushcli ;;
  '(c, cp) ← get_cpu;
  popcli ;;
  mret (cproc cp).

Definition get_proc (i : nat) : M machine proc :=
  m ← get; of_option "ptable index" (procs m !! i).
Definition upd_proc (i : nat) (f : proc -> proc) : M machine unit :=
  modify (fun m => set_procs (alter f i (procs m)) m).

(** [myproc()->pid]. *)
Definition mypid : M machine Z :=
  p ← myproc;
  i ← of_option "null proc" p;
  pr ← get_proc i;
  mret (p_pid pr).

(** ** sleep and wakeup *)

(** [sched] up to the context switch. *)
Definition sched : M machine unit :=
  p ← myproc;
  i ← of_option "null proc" p;
  h ← holding LPtable;
  if negb h then panic "sched ptable.lock" else
  '(_, cp) ← get_cpu;
  if negb (ncli cp =z 1) then panic "sched locks" else
  pr ← get_proc i;
  if bool_decide (p_state pr = RUNNING) then panic "sched running" else
  f ← gets hw_if;
  if (f : bool) then panic "sched interruptible" else
  block.

Definition sleep (c : chan) (lk : option lockid) : M machine unit :=
  p ← myproc;
  match p, lk with
  | None, _ => panic "sleep"
  | _, None => panic "sleep without lk"
  | Some i, Some l =>
      when (negb (bool_decide (l = LPtable))) (acquire LPtable ;; release l) ;;
      upd_proc i (set_p_chan (Some c)) ;;
      upd_proc i (set_p_state SLEEPING) ;;
      sched
  end.

(** The part of [sleep] after the process is scheduled again. *)
Definition sleep_resumed (i : nat) (l : lockid) : M machine unit :=
  upd_proc i (set_p_chan None) ;;
  when (negb (bool_decide (l = LPtable))) (release LPtable ;; acquire l).

Definition wakeup1_proc (c : chan) (p : proc) : proc :=
  if bool_decide (p_state p = SLEEPING) && bool_decide (p_chan p = Some c)
  then set_p_state RUNNABLE p else p.
Definition wakeup1 (c : chan) : M machine unit :=
  modify (fun m => set_procs (wakeup1_proc c <$> procs m) m).

Definition wakeup (c : chan) : M machine unit :=
  acquire LPtable ;; wakeup1 c ;; release LPtable.

(** ** sleeplock.c *)

(** [sleep] does not return here, so the test of the [while] is made once: a
    process that is woken runs the loop again. *)
Definition acquiresleep (l : slockid) : M machine unit :=
  acquire (LSleep l) ;;
  k ← gets (fun m => slock_of m l);
  when (c_bool (slocked k)) (sleep (ChSleep l) (Some (LSleep l))) ;;
  pid ← mypid;
  modify (set_slock l (Sleeplock 1 pid)) ;;
  release (LSleep l).

Definition releasesleep (l : slockid) : M machine unit :=
  acquire (LSleep l) ;;
  modify (set_slock l (Sleeplock 0 0)) ;;
  wakeup (ChSleep l) ;;
  release (LSleep l).

Definition holdingsleep (l : slockid) : M machine bool :=
  acquire (LSleep l) ;;
  k ← gets (fun m => slock_of m l);
  r ← (if c_bool (slocked k) then pid ← mypid; mret (bool_decide (spid k = pid))
       else mret false);
  release (LSleep l) ;;
  mret r.

(** ** Specifications

    [mach_ok]: the executing processor is in the table, its [pushcli] depth
    is not negative, and interrupts are off while the depth is positive. *)

Definition cur_cpu (m : machine) : option cpu := c ← cpu_index m; cpus m !! c.
Definition depth (m : machine) : Z := from_option ncli (-1) (cur_cpu m).
Definition curp (m : machine) : option nat := cp ← cur_cpu m; cproc cp.
Definition curpid (m : machine) : option Z := i ← curp m; p_pid <$> procs m !! i.

Definition mach_ok (m : machine) : Prop :=
  0 <= depth m /\ (0 < depth m -> hw_if m = false).

Definition lock_free (m : machine) (l : lockid) : Prop := locked (lock_of m l) = 0.
Definition lock_mine (m : machine) (l : lockid) : Prop :=
  locked (lock_of m l) = 1 /\ lcpu (lock_of m l) = cpu_index m.

(** What no lock operation changes: which processor executes, and what; a
    [wakeup] changes the state of processes and nothing else of them. *)
Record mrel (m m' : machine) : Prop := {
  mr_apic : hw_apicid m' = hw_apicid m;
  mr_ids : apicid <$> cpus m' = apicid <$> cpus m;
  mr_cproc : cproc <$> cpus m' = cproc <$> cpus m;
  mr_procs : set_p_state UNUSED <$> procs m' = set_p_state UNUSED <$> procs m
}.
#[export] Instance mrel_preorder : PreOrder mrel.
Proof.
  split; [by intros m; split|].
  intros m1 m2 m3 [] []. split; congruence.
Qed.

Section specs.
Implicit Types m : machine.

Lemma cpu_index_ids m :
  cpu_index m = fst <$> list_find (fun a => a = hw_apicid m) (apicid <$> cpus m).
Proof.
  unfold cpu_index. rewrite list_find_fmap. unfold compose.
  destruct (list_find _ (cpus m)) as [[]|] eqn:E; by rewrite ?E.
Qed.

Lemma mrel_index m m' : mrel m m' -> cpu_index m' = cpu_index m.
Proof. intros [Ha Hb _ _]. by rewrite !cpu_index_ids, Ha, Hb. Qed.

Lemma mrel_curp m m' : mrel m m' -> curp m' = curp m.
Proof.
  intros H. pose proof (mrel_index _ _ H) as Hi. destruct H as [_ _ Hc _].
  unfold curp, cur_cpu. rewrite Hi. destruct (cpu_index m) as [c|]; [|done]. simpl.
  assert ((cproc <$> cpus m') !! c = (cproc <$> cpus m) !! c) as E by congruence.
  rewrite !list_lookup_fmap in E.
  destruct (cpus m' !! c), (cpus m !! c); simpl in *; congruence.
Qed.

Lemma mrel_proc {A} (f : proc -> A) m m' i :
  (forall st p, f (set_p_state st p) = f p) -> mrel m m' ->
  f <$> procs m' !! i = f <$> procs m !! i.
Proof.
  intros Hf [_ _ _ Hp]. assert ((f <$> procs m') !! i = (f <$> procs m) !! i) as E.
  { replace (f <$> procs m') with (f <$> (set_p_state UNUSED <$> procs m'));
      [replace (f <$> procs m) with (f <$> (set_p_state UNUSED <$> procs m)); [by rewrite Hp|]|];
      rewrite <- list_fmap_compose; apply list_fmap_ext; intros; apply Hf. }
  by rewrite !list_lookup_fmap in E.
Qed.

Lemma mrel_curpid m m' : mrel m m' -> curpid m' = curpid m.
Proof.
  intros H. unfold curpid. rewrite (mrel_curp _ _ H).
  destruct (curp m) as [i|]; [|done]. cbn. by apply mrel_proc.
Qed.

Lemma mach_ok_cur m : mach_ok m ->
  exists c cp, cpu_index m = Some c /\ cpus m !! c = Some cp /\ depth m = ncli cp /\
               cur_cpu m = Some cp.
Proof.
  intros [H _]. unfold depth, cur_cpu in *.
  destruct (cpu_index m) as [c|] eqn:E; simpl in *; [|lia].
  destruct (cpus m !! c) as [cp|] eqn:E'; simpl in *; [|lia]. eauto 10.
Qed.

(** Writing back the current processor with the same identity. *)
Lemma put_cpu_rel m c cp cp' f :
  cpu_index m = Some c -> cpus m !! c = Some cp ->
  apicid cp' = apicid cp -> cproc cp' = cproc cp ->
  let m' := set_if f (set_cpus (<[c := cp']> (cpus m)) m) in
  mrel m m' /\ cpu_index m' = Some c /\ cpus m' !! c = Some cp' /\ depth m' = ncli cp'.
Proof.
  intros Hi Hc Ha Hp m'.
  assert (mrel m m') as Hrel.
  { split; cbn; [done| | |done]; rewrite list_fmap_insert, ?Ha, ?Hp;
      apply list_insert_id; by rewrite list_lookup_fmap, Hc. }
  pose proof (mrel_index _ _ Hrel) as Hi'. rewrite Hi in Hi'.
  assert (cpus m' !! c = Some cp') as Hc'.
  { apply list_lookup_insert_eq. by eapply lookup_lt_Some. }
  split_and!; [done..|]. unfold depth, cur_cpu. rewrite Hi'. simpl. cbn in Hc'. by rewrite Hc'.
Qed.

Lemma set_if_id m : set_if (hw_if m) m = m.
Proof. by destruct m. Qed.

(** Interrupt-only changes: everything but [ncli], [intena] and the flag. *)
Definition irq_only m m' : Prop :=
  mrel m m' /\ locks m' = locks m /\ slocks m' = slocks m /\ procs m' = procs m.

Lemma wp_mycpu m c (Q : nat -> machine -> Prop) :
  hw_if m = false -> cpu_index m = Some c -> Q c m -> wp mycpu Q m.
Proof. intros Hf Hi HQ. unfold mycpu. wp_step. wp_step. by rewrite Hf, Hi. Qed.

Lemma wp_get_cpu m c cp (Q : nat * cpu -> machine -> Prop) :
  hw_if m = false -> cpu_index m = Some c -> cpus m !! c = Some cp ->
  Q (c, cp) m -> wp get_cpu Q m.
Proof.
  intros Hf Hi Hc HQ. unfold get_cpu. wp_step. eapply wp_mycpu; [done..|].
  wp_steps. eapply wp_of_option; [done|]. by wp_steps.
Qed.

Lemma pushcli_spec m : mach_ok m ->
  wp pushcli (fun _ m' => irq_only m m' /\ mach_ok m' /\ depth m' = depth m + 1) m.
Proof.
  intros Hok. destruct (mach_ok_cur m Hok) as (c & cp & Hi & Hc & Hd & _).
  destruct Hok as [Hge Hif]. unfold pushcli, cli, put_cpu. wp_steps.
  eapply (wp_get_cpu _ c cp); [done..|]. cbv beta iota. wp_steps.
  match goal with |- context [set_cpus (<[c:=?x]> _) _] => set (cp' := x) end.
  destruct (put_cpu_rel m c cp cp' false Hi Hc) as (Hr & _ & _ & Hd');
    [subst cp'; by case_bool_decide..|].
  assert (ncli cp' = ncli cp + 1) as Hn by (subst cp'; by case_bool_decide).
  change (set_cpus (<[c:=cp']> (cpus (set_if false m))) (set_if false m))
    with (set_if false (set_cpus (<[c:=cp']> (cpus m)) m)).
  split_and!; [by split_and!| |lia]. split; [lia|done].
Qed.

Lemma popcli_spec m : mach_ok m -> 1 <= depth m ->
  wp popcli (fun _ m' => irq_only m m' /\ mach_ok m' /\ depth m' = depth m - 1) m.
Proof.
  intros Hok Hge. destruct (mach_ok_cur m Hok) as (c & cp & Hi & Hc & Hd & _).
  destruct Hok as [_ Hif]. specialize (Hif ltac:(lia)).
  unfold popcli, put_cpu, sti. wp_steps. rewrite Hif. wp_step.
  eapply (wp_get_cpu _ c cp); [done..|]. cbv beta iota. wp_steps.
  rewrite (bool_decide_eq_false_2 (ncli cp - 1 < 0)) by lia.
  set (cp' := Cpu (apicid cp) (ncli cp - 1) (intena cp) (cproc cp)).
  replace (set_cpus (<[c:=cp']> (cpus m)) m)
    with (set_if false (set_cpus (<[c:=cp']> (cpus m)) m))
    by (unfold set_if, set_cpus; cbn; by rewrite Hif).
  assert (forall f, (f = true -> ncli cp - 1 = 0) ->
    let m' := set_if f (set_cpus (<[c := cp']> (cpus m)) m) in
    irq_only m m' /\ mach_ok m' /\ depth m' = depth m - 1) as Hput.
  { intros f Hf m'. destruct (put_cpu_rel m c cp cp' f Hi Hc) as (Hr & _ & _ & Hd'); [done..|].
    fold m' in Hr, Hd'. change (ncli cp') with (ncli cp - 1) in Hd'.
    split_and!; [by split_and!| |lia]. split; [lia|].
    intros Hlt. destruct f; [specialize (Hf eq_refl); lia|done]. }
  apply wp_when; intros Hb; [|by apply Hput].
  wp_step. apply (Hput true). intros _.
  apply andb_true_iff in Hb as [Hb%bool_decide_eq_true _]. done.
Qed.

#[local] Instance irq_only_preorder : PreOrder irq_only.
Proof.
  split; [intros m; split_and!; done|].
  intros m1 m2 m3 (? & ? & ? & ?) (? & ? & ? & ?).
  split_and!; [by etrans|congruence..].
Qed.

Lemma irq_lock m m' l : irq_only m m' -> lock_of m' l = lock_of m l.
Proof. intros (_ & H & _). unfold lock_of. by rewrite H. Qed.

Lemma mach_ok_if m : mach_ok m -> 1 <= depth m -> hw_if m = false.
Proof. intros [_ H] ?. apply H. lia. Qed.

Lemma holding_spec m l : mach_ok m ->
  wp (holding l) (fun r m' =>
    irq_only m m' /\ mach_ok m' /\ depth m' = depth m /\
    r = c_bool (locked (lock_of m l)) && bool_decide (lcpu (lock_of m l) = cpu_index m)) m.
Proof.
  intros Hok. unfold holding. wp_step. wp_apply (pushcli_spec m Hok).
  intros _ m1 (Hi1 & Hok1 & Hd1). destruct (mach_ok_cur m Hok) as (c & cp & Hi & _).
  pose proof (proj1 Hok) as Hge. wp_step.
  eapply (wp_mycpu _ c); [apply mach_ok_if; [done|lia]| |].
  { rewrite (mrel_index _ _ (proj1 Hi1)). done. }
  wp_steps. wp_apply (popcli_spec m1 Hok1); [lia|].
  intros _ m2 (Hi2 & Hok2 & Hd2). wp_steps.
  split_and!; [by etrans|done|lia|]. by rewrite (irq_lock _ _ _ Hi1), Hi.
Qed.

Lemma holding_free m l : mach_ok m -> lock_free m l ->
  wp (holding l) (fun r m' =>
    irq_only m m' /\ mach_ok m' /\ depth m' = depth m /\ r = false) m.
Proof.
  intros Hok Hf. wp_apply (holding_spec m l Hok).
  intros r m' (? & ? & ? & ->). split_and!; [done..|]. by rewrite Hf.
Qed.

Lemma holding_mine m l : mach_ok m -> lock_mine m l ->
  wp (holding l) (fun r m' =>
    irq_only m m' /\ mach_ok m' /\ depth m' = depth m /\ r = true) m.
Proof.
  intros Hok [H1 H2]. wp_apply (holding_spec m l Hok).
  intros r m' (? & ? & ? & ->). split_and!; [done..|].
  rewrite H1, H2. cbn. by apply bool_decide_eq_true.
Qed.

Lemma lock_of_set m l k l' :
  lock_of (set_lock l k m) l' = if decide (l = l') then k else lock_of m l'.
Proof. unfold lock_of. cbn. rewrite lookup_insert. by case_decide. Qed.

(** [acquire] of a free lock: the lock is ours, one more level of [cli]. *)
Lemma acquire_spec m l : mach_ok m -> lock_free m l ->
  wp (acquire l) (fun _ m' =>
    mrel m m' /\ mach_ok m' /\ depth m' = depth m + 1 /\ lock_mine m' l /\
    (forall l', l' <> l -> lock_of m' l' = lock_of m l') /\
    slocks m' = slocks m /\ procs m' = procs m) m.
Proof.
  intros Hok Hf. unfold acquire. wp_step. wp_apply (pushcli_spec m Hok).
  intros _ m1 (Hi1 & Hok1 & Hd1). pose proof (proj1 Hok) as Hge. wp_step.
  assert (lock_free m1 l) as Hf1 by (unfold lock_free; by rewrite (irq_lock _ _ _ Hi1)).
  wp_apply (holding_free m1 l Hok1 Hf1). intros r m2 (Hi2 & Hok2 & Hd2 & ->).
  wp_steps. rewrite (irq_lock _ _ _ Hi2), Hf1, c_bool_0. wp_step.
  destruct (mach_ok_cur m2 Hok2) as (c & cp & Hi & _ & _ & _).
  set (m3 := set_lock _ _ m2). apply (wp_mycpu _ c).
  { apply (mach_ok_if m2); [done|lia]. } { done. }
  wp_steps. set (m4 := set_lock _ _ m3).
  assert (irq_only m m2) as (Hr & Hl & Hs & Hp) by (by etrans).
  assert (mrel m m4) as Hr4 by (etrans; [exact Hr|by split]).
  assert (depth m4 = depth m2) as Hd4 by done.
  split_and!; [done| |lia| | |done|done].
  - split; [lia|]. intros _. apply (mach_ok_if m2); [done|lia].
  - unfold lock_mine, m4. rewrite lock_of_set, decide_True by done. by cbn.
  - intros l' Hne. unfold m4, m3. rewrite !lock_of_set, !decide_False by done.
    unfold lock_of. by rewrite Hl.
Qed.

(** [release] of a lock we hold. *)
Lemma release_spec m l : mach_ok m -> lock_mine m l -> 1 <= depth m ->
  wp (release l) (fun _ m' =>
    mrel m m' /\ mach_ok m' /\ depth m' = depth m - 1 /\
    lock_of m' l = initlock /\
    (forall l', l' <> l -> lock_of m' l' = lock_of m l') /\
    slocks m' = slocks m /\ procs m' = procs m) m.
Proof.
  intros Hok Hm Hd. unfold release. wp_step.
  wp_apply (holding_mine m l Hok Hm). intros r m1 ((Hr1 & Hl1 & Hs1 & Hp1) & Hok1 & Hd1 & ->).
  cbn [negb]. wp_steps. set (m2 := set_lock _ _ m1).
  assert (mach_ok m2) as Hok2 by done.
  wp_apply (popcli_spec m2 Hok2); [change (depth m2) with (depth m1); lia|].
  intros _ m3 ((Hr3 & Hl3 & Hs3 & Hp3) & Hok3 & Hd3).
  change (depth m2) with (depth m1) in Hd3.
  assert (mrel m m2) as Hr2 by (etrans; [exact Hr1|by split]).
  assert (forall l', lock_of m3 l' = lock_of m2 l') as Hlk.
  { intros l'. unfold lock_of. by rewrite Hl3. }
  split_and!; [by etrans|done|lia| | | |].
  - rewrite Hlk. unfold m2. by rewrite lock_of_set, decide_True.
  - intros l' Hne. rewrite Hlk. unfold m2. rewrite lock_of_set, decide_False by done.
    unfold lock_of. by rewrite Hl1.
  - rewrite Hs3. done.
  - rewrite Hp3. done.
Qed.

Lemma myproc_spec m : mach_ok m ->
  wp myproc (fun r m' => irq_only m m' /\ mach_ok m' /\ depth m' = depth m /\ r = curp m) m.
Proof.
  intros Hok. unfold myproc. wp_step. wp_apply (pushcli_spec m Hok).
  intros _ m1 (Hi1 & Hok1 & Hd1). pose proof (proj1 Hok) as Hge.
  destruct (mach_ok_cur m1 Hok1) as (c & cp & Hi & Hc & _ & Hcur). wp_step.
  eapply (wp_get_cpu _ c cp); [apply mach_ok_if; [done|lia]|done|done|]. cbv beta iota. wp_step.
  wp_apply (popcli_spec m1 Hok1); [lia|]. intros _ m2 (Hi2 & Hok2 & Hd2). wp_steps.
  split_and!; [by etrans|done|lia|]. rewrite <- (mrel_curp _ _ (proj1 Hi1)).
  unfold curp. by rewrite Hcur.
Qed.

Lemma mypid_spec m pid : mach_ok m -> curpid m = Some pid ->
  wp mypid (fun r m' => irq_only m m' /\ mach_ok m' /\ depth m' = depth m /\ r = pid) m.
Proof.
  intros Hok Hpid. unfold mypid. wp_step. wp_apply (myproc_spec m Hok).
  intros r m1 (Hi1 & Hok1 & Hd1 & ->). unfold curpid in Hpid.
  destruct (curp m) as [i|]; [|done]. simpl in Hpid.
  apply fmap_Some in Hpid as (pr & Hpr & ->).
  wp_step. eapply wp_of_option; [done|]. wp_step. unfold get_proc. wp_steps.
  eapply wp_of_option. { destruct Hi1 as (_ & _ & _ & ->). exact Hpr. }
  by wp_steps.
Qed.

Lemma wakeup_spec m c : mach_ok m -> lock_free m LPtable ->
  wp (wakeup c) (fun _ m' =>
    mrel m m' /\ mach_ok m' /\ depth m' = depth m /\ lock_free m' LPtable /\
    (forall l', l' <> LPtable -> lock_of m' l' = lock_of m l') /\
    slocks m' = slocks m /\ procs m' = wakeup1_proc c <$> procs m) m.
Proof.
  intros Hok Hf. unfold wakeup. wp_step. wp_apply (acquire_spec m LPtable Hok Hf).
  intros _ m1 (Hr1 & Hok1 & Hd1 & Hm1 & Hl1 & Hs1 & Hp1).
  pose proof (proj1 Hok) as Hge. unfold wakeup1. wp_steps.
  set (m2 := set_procs _ m1).
  assert (mrel m1 m2) as Hr2.
  { split; [done..|]. cbn. rewrite <- list_fmap_compose. apply list_fmap_ext.
    intros i p _. cbn. unfold wakeup1_proc. by destruct (_ && _). }
  wp_apply (release_spec m2 LPtable); [done|done|change (depth m2) with (depth m1); lia|].
  intros _ m3 (Hr3 & Hok3 & Hd3 & Hl3 & Hl3' & Hs3 & Hp3).
  change (depth m2) with (depth m1) in Hd3.
  split_and!; [by etrans; [exact Hr1|etrans]|done|lia| | | |].
  - unfold lock_free. by rewrite Hl3.
  - intros l' Hne. rewrite Hl3' by done. by apply Hl1.
  - rewrite Hs3. done.
  - rewrite Hp3. cbn. by rewrite Hp1.
Qed.

(** Between critical sections: no spin lock is held. *)
Definition quiet m : Prop := mach_ok m /\ forall l, lock_free m l.

(** Nothing but sleep locks and the scheduling state of processes changed. *)
Definition mquiet m m' : Prop := quiet m' /\ mrel m m'.

Lemma mquiet_trans m1 m2 m3 : mquiet m1 m2 -> mquiet m2 m3 -> mquiet m1 m3.
Proof. intros [_ ?] [? ?]. split; [done|by etrans]. Qed.

(** Inside a critical section: [l] is ours and every other lock is free. *)
Definition holds l m : Prop :=
  mach_ok m /\ 1 <= depth m /\ lock_mine m l /\ forall l', l' <> l -> lock_free m l'.

Lemma wp_acquire l m (Q : unit -> machine -> Prop) : quiet m ->
  (forall m', holds l m' -> mrel m m' -> slocks m' = slocks m -> procs m' = procs m ->
     Q tt m') ->
  wp (acquire l) Q m.
Proof.
  intros [Hok Hf] HQ. wp_apply (acquire_spec m l Hok (Hf l)).
  intros [] m' (Hr & Hok' & Hd & Hm & Hl & Hs & Hp). apply HQ; [|done..].
  pose proof (proj1 Hok). split_and!; [done|lia|done|].
  intros l' Hne. unfold lock_free. rewrite Hl by done. apply Hf.
Qed.

Lemma wp_release l m (Q : unit -> machine -> Prop) : holds l m ->
  (forall m', mquiet m m' -> slocks m' = slocks m -> procs m' = procs m -> Q tt m') ->
  wp (release l) Q m.
Proof.
  intros (Hok & Hd & Hm & Hf) HQ. wp_apply (release_spec m l Hok Hm Hd).
  intros [] m' (Hr & Hok' & Hd' & Hl & Hl' & Hs & Hp). apply HQ; [|done..].
  split; [split; [done|]|done]. intros l'. unfold lock_free.
  destruct (decide (l' = l)) as [->|]; [by rewrite Hl|]. rewrite Hl' by done. by apply Hf.
Qed.

(** A change of the machine that leaves processors and spin locks alone. *)
Lemma holds_irq l m m' : holds l m -> irq_only m m' -> mach_ok m' -> depth m' = depth m ->
  holds l m'.
Proof.
  intros (_ & Hd & [Hm1 Hm2] & Hf) Hi Hok Hd'. split_and!; [done|lia| |].
  - unfold lock_mine. rewrite (irq_lock _ _ _ Hi), (mrel_index _ _ (proj1 Hi)). done.
  - intros l' Hne. unfold lock_free. rewrite (irq_lock _ _ _ Hi). by apply Hf.
Qed.

Lemma wp_wakeup_holding l c m (Q : unit -> machine -> Prop) : holds l m -> l <> LPtable ->
  (forall m', holds l m' -> mrel m m' -> slocks m' = slocks m ->
     procs m' = wakeup1_proc c <$> procs m -> Q tt m') ->
  wp (wakeup c) Q m.
Proof.
  intros (Hok & Hd & [Hm1 Hm2] & Hf) Hne HQ. wp_apply (wakeup_spec m c Hok (Hf _ (not_eq_sym Hne))).
  intros [] m' (Hr & Hok' & Hd' & Hp & Hl & Hs & Hpr). apply HQ; [|done..].
  split_and!; [done|lia| |].
  - unfold lock_mine. rewrite Hl, (mrel_index _ _ Hr) by done. done.
  - intros l' Hne'. unfold lock_free.
    destruct (decide (l' = LPtable)) as [->|]; [done|]. rewrite Hl by done. by apply Hf.
Qed.

Lemma wp_mypid m l pid (Q : Z -> machine -> Prop) : holds l m -> curpid m = Some pid ->
  (forall m', holds l m' -> mrel m m' -> slocks m' = slocks m -> procs m' = procs m ->
     Q pid m') ->
  wp mypid Q m.
Proof.
  intros Hh Hpid HQ. wp_apply (mypid_spec m pid (proj1 Hh) Hpid).
  intros p m' (Hi & Hok & Hd & ->). apply HQ; [by eapply holds_irq|apply Hi..].
Qed.

(** *** Sleep locks of an uncontended object *)

Lemma wp_acquiresleep l m pid (Q : unit -> machine -> Prop) :
  quiet m -> curpid m = Some pid -> slocked (slock_of m l) = 0 ->
  (forall m', mquiet m m' -> slocks m' = <[l := Sleeplock 1 pid]> (slocks m) ->
     procs m' = procs m -> Q tt m') ->
  wp (acquiresleep l) Q m.
Proof.
  intros Hq Hpid Hfree HQ. unfold acquiresleep. wp_step. apply wp_acquire; [done|].
  intros m1 Hh1 Hr1 Hs1 Hp1. wp_steps.
  assert (slock_of m1 l = slock_of m l) as -> by (unfold slock_of; by rewrite Hs1).
  rewrite Hfree, c_bool_0. unfold when. wp_steps.
  eapply wp_mypid; [done|by rewrite (mrel_curpid _ _ Hr1)|].
  intros m2 Hh2 Hr2 Hs2 Hp2. wp_steps. set (m3 := set_slock _ _ m2).
  assert (mrel m m3) as Hr3 by (etrans; [exact Hr1|etrans; [exact Hr2|by split]]).
  apply wp_release; [done|]. intros m4 [Hq4 Hr4] Hs4 Hp4. apply HQ.
  - split; [done|by etrans].
  - rewrite Hs4. cbn. by rewrite Hs2, Hs1.
  - rewrite Hp4. cbn. by rewrite Hp2, Hp1.
Qed.

Lemma wp_releasesleep l m (Q : unit -> machine -> Prop) : quiet m ->
  (forall m', mquiet m m' -> slocks m' = <[l := initsleeplock]> (slocks m) -> Q tt m') ->
  wp (releasesleep l) Q m.
Proof.
  intros Hq HQ. unfold releasesleep. wp_step. apply wp_acquire; [done|].
  intros m1 Hh1 Hr1 Hs1 Hp1. wp_steps. set (m2 := set_slock _ _ m1).
  assert (mrel m m2) as Hr2 by (etrans; [exact Hr1|by split]).
  eapply (wp_wakeup_holding (LSleep l)); [done..|]. intros m3 Hh3 Hr3 Hs3 Hp3. 
  apply wp_release; [done|]. intros m4 [Hq4 Hr4] Hs4 Hp4. apply HQ.
  - split; [done|by etrans; [exact Hr2|etrans]].
  - rewrite Hs4, Hs3. cbn. by rewrite Hs1.
Qed.

Lemma wp_holdingsleep l m pid (Q : bool -> machine -> Prop) :
  quiet m -> curpid m = Some pid -> slock_of m l = Sleeplock 1 pid ->
  (forall m', mquiet m m' -> slocks m' = slocks m -> procs m' = procs m -> Q true m') ->
  wp (holdingsleep l) Q m.
Proof.
  intros Hq Hpid Hown HQ. unfold holdingsleep. wp_step. apply wp_acquire; [done|].
  intros m1 Hh1 Hr1 Hs1 Hp1. wp_steps.
  assert (slock_of m1 l = slock_of m l) as -> by (unfold slock_of; by rewrite Hs1).
  rewrite Hown. cbn [slocked spid]. rewrite c_bool_nz by done. wp_step.
  eapply wp_mypid; [done|by rewrite (mrel_curpid _ _ Hr1)|].
  intros m2 Hh2 Hr2 Hs2 Hp2. wp_steps.
  apply wp_release; [done|]. intros m3 [Hq3 Hr3] Hs3 Hp3. wp_steps.
  rewrite bool_decide_eq_true_2 by done. apply HQ; [split; [done|]| |].
  - etrans; [exact Hr1|by etrans].
  - by rewrite Hs3, Hs2.
  - by rewrite Hp3, Hp2.
Qed.
End specs.
