(* ===== verification/BlockCache.v ===== *)
(** * The disk and the interface of the buffer cache

    The disk is its initial image and the sequence of block writes it has
    received since, so that the states a crash can leave are its earlier
    prefixes.  [BlockCache] is what [bio.c] offers to its clients ([log.c],
    [fs.c]): [bread], [bwrite], [brelse] and access to the fields of a buffer
    the caller has locked.  [BlockCacheSpec] is what it promises; [Bio]
    proves the promise for the code, [Log] and [Fs] rely only on it. *)

From S2P Require Import Prelude Bytes Params Machine.
Local Open Scope Z_scope.

(** A disk block: 512 bytes. *)
Definition block_ok (d : list Z) : Prop := length d = BSIZE /\ bytes_ok d.
Definition zero_block : list Z := replicate BSIZE 0.

Lemma zero_block_ok : block_ok zero_block.
Proof.
  split; [apply length_replicate|]. apply Forall_replicate. unfold byte_ok. lia.
Qed.

(** ** The disk *)

Record disk := Disk {
  disksize : Z;
  image : Z -> list Z;
  writes : list (Z * list Z)   (** newest first *)
}.

Fixpoint find_write (b : Z) (ws : list (Z * list Z)) : option (list Z) :=
  match ws with
  | [] => None
  | (b', d) :: ws' => if decide (b' = b) then Some d else find_write b ws'
  end.

Definition dread (dk : disk) (b : Z) : list Z :=
  default (image dk b) (find_write b (writes dk)).
Definition dwrite (dk : disk) (b : Z) (d : list Z) : disk :=
  Disk (disksize dk) (image dk) ((b, d) :: writes dk).

(** All blocks of the disk, and all that were ever written to it, are blocks. *)
Definition disk_ok (dk : disk) : Prop :=
  (forall b, block_ok (image dk b)) /\ Forall (fun w => block_ok w.2) (writes dk).

Lemma disk_ok_dread dk b : disk_ok dk -> block_ok (dread dk b).
Proof.
  intros [Hi Hw]. unfold dread. induction Hw as [|[b' d] ws Hd _ IH]; cbn; [done|].
  by case_decide.
Qed.

Lemma dread_dwrite dk b d b' :
  dread (dwrite dk b d) b' = if decide (b = b') then d else dread dk b'.
Proof. unfold dread. cbn. by case_decide. Qed.

Lemma disk_ok_dwrite dk b d : disk_ok dk -> block_ok d -> disk_ok (dwrite dk b d).
Proof. intros [Hi Hw] Hd. split; [done|]. by constructor. Qed.

(** ** State with a machine in it *)

Class HasMachine (S : Type) := {
  mach : S -> machine;
  set_mach : machine -> S -> S;
  mach_set : forall m s, mach (set_mach m s) = m;
  set_mach_set : forall m m' s, set_mach m (set_mach m' s) = set_mach m s;
  set_mach_id : forall s, set_mach (mach s) s = s
}.
Definition onm {S} `{HasMachine S} {A} (m : M machine A) : M S A := zoom mach set_mach m.

(** ** The interface *)

Class BlockCache (S : Type) `{HasMachine S} := {
  bread : Z -> Z -> M S nat;
  bwrite : nat -> M S unit;
  brelse : nat -> M S unit;
  bdata : S -> nat -> list Z;
  bblockno : S -> nat -> Z;
  (** store into [b->data] *)
  bset : nat -> list Z -> M S unit;
  (** [b->flags |= B_DIRTY] *)
  bpin : nat -> M S unit
}.

(** The view a client has of the cache: the disk below it, the current
    content of every block, the blocks pinned in memory, and the buffers the
    client has locked. *)
Record cache_view (S : Type) := CacheView {
  cv_inv : S -> Prop;
  cv_disk : S -> disk;
  cv_val : S -> Z -> list Z;
  cv_pinned : S -> gset Z;
  cv_held : S -> gmap nat Z
}.
Arguments cv_inv {S}. Arguments cv_disk {S}. Arguments cv_val {S}.
Arguments cv_pinned {S}. Arguments cv_held {S}.

(** The machine after an operation of the cache: the sleep locks of inodes
    are not touched. *)
Definition kmrel (m m' : machine) : Prop :=
  mrel m m' /\ forall i, slock_of m' (SInode i) = slock_of m (SInode i).
#[export] Instance kmrel_preorder : PreOrder kmrel.
Proof.
  split; [by intros m; split|]. intros m1 m2 m3 [H1 H2] [H3 H4].
  split; [by etrans|]. intros i. by rewrite H4.
Qed.

(** Blocks that occupy a buffer: pinned or locked. *)
Definition cv_busy {S} (V : cache_view S) (s : S) : gset Z :=
  cv_pinned V s ∪ map_img (cv_held V s).

(** What every operation keeps, and the components it may change. *)
Record cv_same {S} `{HasMachine S} (V : cache_view S) (s s' : S) : Prop := {
  cs_inv : cv_inv V s';
  cs_mach : kmrel (mach s) (mach s');
  cs_val : forall b, cv_val V s' b = cv_val V s b
}.

Class BlockCacheSpec (S : Type) `{BlockCache S} := {
  bc : cache_view S;
  bc_quiet s : cv_inv bc s -> quiet (mach s) /\ is_Some (curpid (mach s));
  bc_disk_ok s : cv_inv bc s -> disk_ok (cv_disk bc s);
  bc_val_ok s b : cv_inv bc s -> block_ok (cv_val bc s b);
  (** A block that is neither locked nor pinned is as on disk. *)
  bc_clean s b : cv_inv bc s -> b ∉ cv_busy bc s -> cv_val bc s b = dread (cv_disk bc s) b;
  (** Clients may use the rest of the machine. *)
  bc_mach s m : cv_inv bc s -> mquiet (mach s) m ->
    (forall i, slock_of m (SBuf i) = slock_of (mach s) (SBuf i)) -> cv_inv bc (set_mach m s);
  bc_view_mach s m : cv_disk bc (set_mach m s) = cv_disk bc s /\
    cv_val bc (set_mach m s) = cv_val bc s /\
    cv_pinned bc (set_mach m s) = cv_pinned bc s /\
    cv_held bc (set_mach m s) = cv_held bc s /\
    bdata (set_mach m s) = bdata s /\ bblockno (set_mach m s) = bblockno s;
  (** A locked buffer holds the current content of its block. *)
  bc_held s i b : cv_inv bc s -> cv_held bc s !! i = Some b ->
    bdata s i = cv_val bc s b /\ bblockno s i = b;

  bread_spec s b : cv_inv bc s -> 0 <= b < disksize (cv_disk bc s) ->
    b ∉@{gset Z} map_img (cv_held bc s) ->
    (size ({[b]} ∪ cv_busy bc s) <= NBUF)%nat ->
    wp (bread ROOTDEV b) (fun i s' =>
      cv_same bc s s' /\ cv_disk bc s' = cv_disk bc s /\
      cv_pinned bc s' = cv_pinned bc s /\
      cv_held bc s !! i = None /\ cv_held bc s' = <[i := b]> (cv_held bc s)) s;
  bwrite_spec s i b : cv_inv bc s -> cv_held bc s !! i = Some b ->
    wp (bwrite i) (fun _ s' =>
      cv_same bc s s' /\ cv_disk bc s' = dwrite (cv_disk bc s) b (cv_val bc s b) /\
      cv_pinned bc s' = cv_pinned bc s ∖ {[b]} /\ cv_held bc s' = cv_held bc s) s;
  brelse_spec s i b : cv_inv bc s -> cv_held bc s !! i = Some b ->
    b ∈ cv_pinned bc s \/ cv_val bc s b = dread (cv_disk bc s) b ->
    wp (brelse i) (fun _ s' =>
      cv_same bc s s' /\ cv_disk bc s' = cv_disk bc s /\
      cv_pinned bc s' = cv_pinned bc s /\ cv_held bc s' = delete i (cv_held bc s)) s;
  bset_spec s i b d : cv_inv bc s -> cv_held bc s !! i = Some b -> block_ok d ->
    wp (bset i d) (fun _ s' =>
      cv_inv bc s' /\ mach s' = mach s /\
      (forall b', cv_val bc s' b' = if decide (b' = b) then d else cv_val bc s b') /\
      cv_disk bc s' = cv_disk bc s /\
      cv_pinned bc s' = cv_pinned bc s /\ cv_held bc s' = cv_held bc s) s;
  bpin_spec s i b : cv_inv bc s -> cv_held bc s !! i = Some b ->
    wp (bpin i) (fun _ s' =>
      cv_same bc s s' /\ mach s' = mach s /\ cv_disk bc s' = cv_disk bc s /\
      cv_pinned bc s' = {[b]} ∪ cv_pinned bc s /\ cv_held bc s' = cv_held bc s) s;
  (** It only touches the buffer, also while the caller holds a spin lock. *)
  bpin_mach s m i (Q : S -> Prop) :
    wp (bpin i) (fun _ s' => Q (set_mach m s')) s -> wp (bpin i) (fun _ s' => Q s') (set_mach m s)
}.
