(* ===== verification/Bio.v ===== *)
(** * The buffer cache

    [bio.c]: a fixed array of buffers on a doubly linked list in order of
    last use ([binit], [bget], [bread], [bwrite], [brelse]), over the disk
    driver of [memide.c] ([iderw]).  The list is modelled with its pointers
    and shown to be a list again after every operation; the cache is shown to
    implement the interface of [BlockCache]. *)

From S2P Require Import Prelude Bytes Params Machine BlockCache.
Local Open Scope Z_scope.

(** ** Data *)

(** A pointer to a buffer of the array, or to [bcache.head] ([None]). *)
Abbreviation bptr := (option nat).

(** [struct buf]; its sleep lock is [SBuf i] of the machine. *)
Record buf := Buf {
  b_flags : Z;
  b_dev : Z;
  b_blockno : Z;
  b_refcnt : Z;
  b_prev : bptr;
  b_next : bptr;
  b_data : list Z
}.

Record bcache := Bcache { bufs : list buf; head_prev : bptr; head_next : bptr }.

Record bstate := Bstate { b_mach : machine; b_cache : bcache; b_disk : disk }.

Lemma bstate_mach_id s : Bstate (b_mach s) (b_cache s) (b_disk s) = s.
Proof. by destruct s. Qed.

#[export] Instance bstate_machine : HasMachine bstate := {|
  mach := b_mach;
  set_mach m s := Bstate m (b_cache s) (b_disk s);
  mach_set _ _ := eq_refl;
  set_mach_set _ _ _ := eq_refl;
  set_mach_id := bstate_mach_id
|}.

Definition set_cache (c : bcache) (s : bstate) : bstate := Bstate (b_mach s) c (b_disk s).
Definition set_disk (d : disk) (s : bstate) : bstate := Bstate (b_mach s) (b_cache s) d.

Definition set_flags (f : Z) (b : buf) : buf :=
  Buf f (b_dev b) (b_blockno b) (b_refcnt b) (b_prev b) (b_next b) (b_data b).
Definition set_refcnt (r : Z) (b : buf) : buf :=
  Buf (b_flags b) (b_dev b) (b_blockno b) r (b_prev b) (b_next b) (b_data b).
Definition set_prev (p : bptr) (b : buf) : buf :=
  Buf (b_flags b) (b_dev b) (b_blockno b) (b_refcnt b) p (b_next b) (b_data b).
Definition set_next (p : bptr) (b : buf) : buf :=
  Buf (b_flags b) (b_dev b) (b_blockno b) (b_refcnt b) (b_prev b) p (b_data b).
Definition set_data (d : list Z) (b : buf) : buf :=
  Buf (b_flags b) (b_dev b) (b_blockno b) (b_refcnt b) (b_prev b) (b_next b) d.

Definition upd (i : nat) (f : buf -> buf) (c : bcache) : bcache :=
  Bcache (alter f i (bufs c)) (head_prev c) (head_next c).

(** [p->next], [p->prev] and the assignments to them, [p] possibly the head. *)
Definition nxt (c : bcache) (p : bptr) : bptr :=
  match p with
  | None => head_next c
  | Some i => from_option b_next None (bufs c !! i)
  end.
Definition prv (c : bcache) (p : bptr) : bptr :=
  match p with
  | None => head_prev c
  | Some i => from_option b_prev None (bufs c !! i)
  end.
Definition set_nxt (p q : bptr) (c : bcache) : bcache :=
  match p with
  | None => Bcache (bufs c) (head_prev c) q
  | Some i => upd i (set_next q) c
  end.
Definition set_prv (p q : bptr) (c : bcache) : bcache :=
  match p with
  | None => Bcache (bufs c) q (head_next c)
  | Some i => upd i (set_prev q) c
  end.

(** ** binit *)

Definition binit_step (c : bcache) (i : nat) : bcache :=
  let c := set_nxt (Some i) (head_next c) c in
  let c := set_prv (Some i) None c in
  let c := set_prv (head_next c) (Some i) c in
  set_nxt None (Some i) c.

(** From the zeroed [bcache] of the kernel's bss. *)
Definition bss_buf : buf := Buf 0 0 0 0 None None zero_block.
Definition binit : bcache :=
  foldl binit_step (Bcache (replicate NBUF bss_buf) None None) (seq 0 NBUF).

(** ** memide.c *)

Definition get_buf (i : nat) : M bstate buf :=
  s ← get; of_option "buffer index" (bufs (b_cache s) !! i).
Definition upd_buf (i : nat) (f : buf -> buf) : M bstate unit :=
  modify (fun s => set_cache (upd i f (b_cache s)) s).

Definition iderw (i : nat) : M bstate unit :=
  h ← onm (holdingsleep (SBuf i));
  if negb h then panic "iderw: buf not locked" else
  b ← get_buf i;
  if Z.land (b_flags b) (Z.lor B_VALID B_DIRTY) =z B_VALID
  then panic "iderw: nothing to do" else
  if negb (b_dev b =z 1) then panic "iderw: request not for disk 1" else
  dk ← gets b_disk;
  if disksize dk <=z b_blockno b then panic "iderw: block out of range" else
  (if c_bool (Z.land (b_flags b) B_DIRTY) then
     upd_buf i (set_flags (Z.land (b_flags b) (Z.lnot B_DIRTY))) ;;
     modify (set_disk (dwrite dk (b_blockno b) (b_data b)))
   else
     upd_buf i (set_data (dread dk (b_blockno b)))) ;;
  b ← get_buf i;
  upd_buf i (set_flags (Z.lor (b_flags b) B_VALID)).

(** ** bget, bread, bwrite, brelse *)

(** Follow [next] (or [prev]) from [p] to the head, looking for a buffer; the
    fuel bounds the length of the list. *)
Fixpoint walk (step : bcache -> bptr -> bptr) (test : buf -> bool)
    (fuel : nat) (p : bptr) : M bstate (option nat) :=
  match p with
  | None => mret None
  | Some i =>
      match fuel with
      | O => fault "buffer list"
      | S fuel =>
          b ← get_buf i;
          if test b then mret (Some i) else
          c ← gets b_cache;
          walk step test fuel (step c (Some i))
      end
  end.

Definition bget (dev blockno : Z) : M bstate nat :=
  onm (acquire LBcache) ;;
  c ← gets b_cache;
  r ← walk nxt (fun b => (b_dev b =z dev) && (b_blockno b =z blockno)) NBUF (nxt c None);
  match r with
  | Some i =>
      b ← get_buf i;
      upd_buf i (set_refcnt (u32 (b_refcnt b + 1))) ;;
      onm (release LBcache) ;;
      onm (acquiresleep (SBuf i)) ;;
      mret i
  | None =>
      r ← walk prv (fun b => (b_refcnt b =z 0) && (Z.land (b_flags b) B_DIRTY =z 0))
            NBUF (prv c None);
      match r with
      | Some i =>
          upd_buf i (fun b => Buf 0 dev blockno 1 (b_prev b) (b_next b) (b_data b)) ;;
          onm (release LBcache) ;;
          onm (acquiresleep (SBuf i)) ;;
          mret i
      | None => panic "bget: no buffers"
      end
  end.

Definition bio_bread (dev blockno : Z) : M bstate nat :=
  i ← bget dev blockno;
  b ← get_buf i;
  when (Z.land (b_flags b) B_VALID =z 0) (iderw i) ;;
  mret i.

Definition bio_bwrite (i : nat) : M bstate unit :=
  h ← onm (holdingsleep (SBuf i));
  if negb h then panic "bwrite" else
  b ← get_buf i;
  upd_buf i (set_flags (Z.lor (b_flags b) B_DIRTY)) ;;
  iderw i.

(** Unlink a buffer and put it at the front of the list. *)
Definition move_front (i : nat) (c : bcache) : bcache :=
  let c := set_prv (nxt c (Some i)) (prv c (Some i)) c in
  let c := set_nxt (prv c (Some i)) (nxt c (Some i)) c in
  let c := set_nxt (Some i) (head_next c) c in
  let c := set_prv (Some i) None c in
  let c := set_prv (head_next c) (Some i) c in
  set_nxt None (Some i) c.

Definition bio_brelse (i : nat) : M bstate unit :=
  h ← onm (holdingsleep (SBuf i));
  if negb h then panic "brelse" else
  onm (releasesleep (SBuf i)) ;;
  onm (acquire LBcache) ;;
  b ← get_buf i;
  upd_buf i (set_refcnt (u32 (b_refcnt b - 1))) ;;
  when (u32 (b_refcnt b - 1) =z 0)
    (modify (fun s => set_cache (move_front i (b_cache s)) s)) ;;
  onm (release LBcache).

#[export] Instance bio_cache : BlockCache bstate := {|
  bread := bio_bread;
  bwrite := bio_bwrite;
  brelse := bio_brelse;
  bdata s i := from_option b_data zero_block (bufs (b_cache s) !! i);
  bblockno s i := from_option b_blockno 0 (bufs (b_cache s) !! i);
  bset i d := upd_buf i (set_data d);
  bpin i := b ← get_buf i; upd_buf i (set_flags (Z.lor (b_flags b) B_DIRTY))
|}.

(** ** The linked list

    [path c a l b]: from [a], following [next], the nodes [l] and then [b];
    [prev] leads back. *)

Fixpoint path (c : bcache) (a : bptr) (l : list nat) (b : bptr) : Prop :=
  match l with
  | [] => nxt c a = b /\ prv c b = a
  | i :: l' => nxt c a = Some i /\ prv c (Some i) = a /\ path c (Some i) l' b
  end.

(** The list of [bcache] is [l], most recently used first: every buffer of
    the array is on it, once. *)
Record dll (c : bcache) (l : list nat) : Prop := {
  dll_path : path c None l None;
  dll_perm : l ≡ₚ seq 0 NBUF;
  dll_len : length (bufs c) = NBUF
}.

Section links.
Local Open Scope nat_scope.
Implicit Types c : bcache.

Definition in_array c (p : bptr) : Prop :=
  match p with None => True | Some i => i < length (bufs c) end.

Lemma nxt_set_nxt c p q r :
  in_array c p -> nxt (set_nxt p q c) r = if decide (r = p) then q else nxt c r.
Proof.
  intros Hp. case_decide as Hd.
  - subst. destruct p as [i|]; cbn in *; [|done].
    rewrite list_lookup_alter_eq. destruct (lookup_lt_is_Some_2 _ _ Hp) as [b ->]. done.
  - destruct p as [i|], r as [j|]; cbn in *; try done.
    by rewrite list_lookup_alter_ne by congruence.
Qed.

Lemma prv_set_prv c p q r :
  in_array c p -> prv (set_prv p q c) r = if decide (r = p) then q else prv c r.
Proof.
  intros Hp. case_decide as Hd.
  - subst. destruct p as [i|]; cbn in *; [|done].
    rewrite list_lookup_alter_eq. destruct (lookup_lt_is_Some_2 _ _ Hp) as [b ->]. done.
  - destruct p as [i|], r as [j|]; cbn in *; try done.
    by rewrite list_lookup_alter_ne by congruence.
Qed.

Lemma nxt_set_prv c p q r : nxt (set_prv p q c) r = nxt c r.
Proof.
  destruct p as [i|], r as [j|]; cbn; try done.
  destruct (decide (i = j)) as [->|]; [|by rewrite list_lookup_alter_ne].
  rewrite list_lookup_alter_eq. by destruct (bufs c !! j).
Qed.

Lemma prv_set_nxt c p q r : prv (set_nxt p q c) r = prv c r.
Proof.
  destruct p as [i|], r as [j|]; cbn; try done.
  destruct (decide (i = j)) as [->|]; [|by rewrite list_lookup_alter_ne].
  rewrite list_lookup_alter_eq. by destruct (bufs c !! j).
Qed.

Lemma length_set_nxt c p q : length (bufs (set_nxt p q c)) = length (bufs c).
Proof. destruct p; cbn; [apply length_alter|done]. Qed.
Lemma length_set_prv c p q : length (bufs (set_prv p q c)) = length (bufs c).
Proof. destruct p; cbn; [apply length_alter|done]. Qed.

(** [r] points to a buffer of [l]. *)
Definition ptr_in (r : bptr) (l : list nat) : Prop :=
  match r with Some i => i ∈ l | None => False end.

Lemma ptr_in_cons r i l : ptr_in r (i :: l) <-> r = Some i \/ ptr_in r l.
Proof.
  destruct r as [j|]; cbn; [|naive_solver]. rewrite elem_of_cons. naive_solver.
Qed.

Lemma path_frame c c' a l b :
  (forall r, r = a \/ ptr_in r l -> nxt c' r = nxt c r) ->
  (forall r, r = b \/ ptr_in r l -> prv c' r = prv c r) ->
  path c a l b -> path c' a l b.
Proof.
  revert a. induction l as [|i l IH]; intros a Hn Hp; cbn [path].
  - by rewrite Hn, Hp by auto.
  - rewrite Hn, Hp by (rewrite ptr_in_cons; auto).
    intros (? & ? & ?). split_and!; [done..|].
    apply IH; [intros r Hr; apply Hn|intros r Hr; apply Hp|done]; rewrite ptr_in_cons; tauto.
Qed.

Lemma path_app c a l1 i l2 b :
  path c a (l1 ++ i :: l2) b <-> path c a l1 (Some i) /\ path c (Some i) l2 b.
Proof. revert a. induction l1 as [|j l1 IH]; intros a; cbn [app path]; rewrite ?IH; tauto. Qed.

(** The node before [b] on a path from [a] through [l]. *)
Definition last_ptr (a : bptr) (l : list nat) : bptr :=
  match last l with Some j => Some j | None => a end.

Lemma last_ptr_cons a i l : last_ptr a (i :: l) = last_ptr (Some i) l.
Proof. unfold last_ptr. rewrite last_cons. by destruct (last l). Qed.

Lemma last_ptr_in a l : last_ptr a l = a \/ ptr_in (last_ptr a l) l.
Proof.
  unfold last_ptr. destruct (last l) as [j|] eqn:E; [right|by left].
  by apply last_Some_elem_of.
Qed.

Lemma path_last c a l b : path c a l b -> prv c b = last_ptr a l.
Proof.
  revert a. induction l as [|i l IH]; intros a; cbn [path]; [by intros [_ ->]|].
  intros (_ & _ & H). rewrite last_ptr_cons. by apply IH.
Qed.

Lemma path_first c a l b : path c a l b -> nxt c a = b \/ ptr_in (nxt c a) l.
Proof.
  destruct l as [|i l]; cbn [path]; [by intros [-> _]; left|].
  intros (-> & _). right. apply ptr_in_cons. by left.
Qed.

(** Redirect the last link of a path. *)
Lemma path_redirect c c' a l b b' :
  ~ ptr_in a l -> NoDup l -> ~ ptr_in b' l ->
  (forall r, r <> last_ptr a l -> nxt c' r = nxt c r) ->
  (forall r, r <> b' -> prv c' r = prv c r) ->
  nxt c' (last_ptr a l) = b' -> prv c' b' = last_ptr a l ->
  path c a l b -> path c' a l b'.
Proof.
  revert a. induction l as [|i l IH]; intros a Ha Hnd Hb Hn Hp Hn' Hp'; cbn [path]; [done|].
  rewrite last_ptr_cons in *. intros (Hai & Hi & Hpath).
  apply NoDup_cons in Hnd as [Hil Hnd]. rewrite ptr_in_cons in Ha, Hb.
  split_and!.
  - rewrite Hn; [done|]. intros E.
    destruct (last_ptr_in (Some i) l) as [Hl|Hl]; rewrite <- E in Hl; tauto.
  - rewrite Hp; [done|]. intros <-. tauto.
  - apply IH; [done|done|tauto|done..].
Qed.

(** [b->next->prev = b->prev; b->prev->next = b->next;] *)
Definition unlink (i : nat) (c : bcache) : bcache :=
  let c := set_prv (nxt c (Some i)) (prv c (Some i)) c in
  set_nxt (prv c (Some i)) (nxt c (Some i)) c.

Lemma move_front_unlink i c : move_front i c = binit_step (unlink i c) i.
Proof. done. Qed.

Lemma in_array_ptr c p l :
  Forall (fun j => j < length (bufs c)) l -> p = None \/ ptr_in p l -> in_array c p.
Proof.
  intros Hall [->|Hin]; [done|]. destruct p as [j|]; [|done].
  rewrite Forall_forall in Hall. by apply Hall.
Qed.

Lemma unlink_path c l1 i l2 :
  NoDup (l1 ++ i :: l2) -> Forall (fun j => j < length (bufs c)) (l1 ++ i :: l2) ->
  path c None (l1 ++ i :: l2) None -> path (unlink i c) None (l1 ++ l2) None.
Proof.
  intros (Hnd1 & Hd & [Hi2 Hnd2]%NoDup_cons)%NoDup_app [Hin1 [_ Hin2]%Forall_cons]%Forall_app.
  rewrite path_app. intros [H1 H2].
  pose proof (path_last _ _ _ _ H1) as Hprv.
  pose proof (last_ptr_in None l1) as Hpl. pose proof (path_first _ _ _ _ H2) as Hnl.
  set (p := last_ptr None l1) in *. set (n := nxt c (Some i)) in *.
  assert (Hp : in_array c p) by (by apply (in_array_ptr c p l1)).
  assert (Hn : in_array c n) by (by apply (in_array_ptr c n l2)).
  assert (Hni : n <> Some i) by (intros E; rewrite E in Hnl; naive_solver).
  assert (forall r, nxt (unlink i c) r = if decide (r = p) then n else nxt c r) as Hnxt.
  { intros r. unfold unlink. rewrite prv_set_prv, !nxt_set_prv by done.
    fold n. rewrite decide_False, Hprv by done. rewrite nxt_set_nxt, nxt_set_prv; [done|].
    unfold in_array in *. by destruct p; rewrite ?length_set_prv. }
  assert (forall r, prv (unlink i c) r = if decide (r = n) then p else prv c r) as Hprv'.
  { intros r. unfold unlink. rewrite prv_set_nxt, prv_set_prv by done. by rewrite Hprv. }
  assert (path (unlink i c) None l1 n) as Hl1.
  { apply (path_redirect c _ _ _ (Some i)); [by intros []|done| |..|done].
    - destruct Hnl as [Hnl|Hnl]; [rewrite Hnl; by intros []|].
      destruct n as [j|]; [|done]. intros Hj. apply (Hd j Hj). by right.
    - intros r Hr. by rewrite Hnxt, decide_False.
    - intros r Hr. by rewrite Hprv', decide_False.
    - by rewrite Hnxt, decide_True.
    - by rewrite Hprv', decide_True. }
  destruct l2 as [|j l2].
  - rewrite app_nil_r. destruct H2 as [E _]. change (n = None) in E. by rewrite <- E at 2.
  - destruct H2 as (Hn' & _ & H2). change (n = Some j) in Hn'. apply path_app.
    rewrite Hn' in *. split; [done|]. apply NoDup_cons in Hnd2 as [Hj _].
    eapply path_frame; [| |exact H2]; intros r Hr; rewrite ?Hnxt, ?Hprv', decide_False;
      [done| |done|].
    + intros ->. destruct Hpl as [E|Hpl]; [rewrite E in Hr; naive_solver|].
      destruct p as [k|]; [|done]. apply (Hd k Hpl).
      destruct Hr as [[= ->]|Hr]; [by right; left|by right; right].
    + intros ->. naive_solver.
Qed.

(** [b->next = head.next; b->prev = &head; head.next->prev = b; head.next = b;] *)
Lemma push_path c i l :
  NoDup (i :: l) -> Forall (fun j => j < length (bufs c)) (i :: l) ->
  path c None l None -> path (binit_step c i) None (i :: l) None.
Proof.
  intros [Hil Hnd]%NoDup_cons [Hi Hin]%Forall_cons H.
  pose proof (path_first _ _ _ _ H) as Hhl. cbn [nxt] in Hhl. set (h := head_next c) in *.
  assert (Hh : in_array c h) by (by apply (in_array_ptr c h l)).
  assert (Hhi : h <> Some i) by (intros E; rewrite E in Hhl; naive_solver).
  assert (forall r, nxt (binit_step c i) r =
     if decide (r = None) then Some i else if decide (r = Some i) then h else nxt c r) as Hnxt.
  { intros r. unfold binit_step. rewrite nxt_set_nxt, !nxt_set_prv by done.
    rewrite nxt_set_nxt by done. by repeat case_decide. }
  assert (forall r, prv (binit_step c i) r =
     if decide (r = h) then Some i else if decide (r = Some i) then None else prv c r) as Hprv.
  { intros r. unfold binit_step. rewrite prv_set_nxt.
    set (c3 := set_prv (Some i) None (set_nxt (Some i) (head_next c) c)).
    assert (head_next c3 = h) as Eh.
    { change (nxt c3 None = h). unfold c3. by rewrite nxt_set_prv, nxt_set_nxt, decide_False. }
    rewrite Eh, prv_set_prv.
    - destruct (decide (r = h)); [done|]. unfold c3. rewrite prv_set_prv, prv_set_nxt; [done|].
      cbn. by rewrite length_alter.
    - unfold in_array in *. destruct h; [|done]. unfold c3.
      by rewrite length_set_prv, length_set_nxt. }
  cbn [path]. split_and!.
  - by rewrite Hnxt.
  - rewrite Hprv, decide_False, decide_True by done. done.
  - destruct l as [|j l]; cbn [path] in *.
    + destruct H as [E _]. change (h = None) in E. rewrite Hnxt, Hprv, E. by repeat case_decide.
    + destruct H as (E & _ & H). change (h = Some j) in E.
      rewrite Hnxt, Hprv, E. split_and!; [by repeat case_decide..|].
      apply NoDup_cons in Hnd as [Hj _]. rewrite elem_of_cons in Hil.
      assert (i <> j /\ i ∉ l) as [? ?] by tauto. rewrite E in Hprv.
      eapply path_frame; [| |exact H]; intros [k|] Hr; rewrite ?Hnxt, ?Hprv;
        cbn [ptr_in] in Hr; repeat case_decide; naive_solver.
Qed.
End links.
