(* ===== verification/BioSpec.v ===== *)
(** * The buffer cache implements its interface

    The operations of [bio.c] as modelled in [Bio] keep the cache well formed
    and act on the block contents as [BlockCacheSpec] says: the refinement of
    the cache by an abstract map from block numbers to contents. *)

From S2P Require Import Prelude Bytes Params Machine BlockCache Bio.
Local Open Scope Z_scope.

(** The fields of a buffer other than its links. *)
Record cbuf := Cbuf {
  k_flags : Z; k_dev : Z; k_blockno : Z; k_refcnt : Z; k_data : list Z
}.
Definition core (b : buf) : cbuf :=
  Cbuf (b_flags b) (b_dev b) (b_blockno b) (b_refcnt b) (b_data b).

(** ** The list under the operations *)

Section lists.
Local Open Scope nat_scope.
Implicit Types c : bcache.

Definition cores c := core <$> bufs c.

Lemma cores_alter (f : buf -> buf) i (l : list buf) :
  (forall b, core (f b) = core b) -> core <$> alter f i l = core <$> l.
Proof.
  intros Hf. apply list_eq. intros j. rewrite !list_lookup_fmap, list_lookup_alter.
  case_decide as E; [|done]. subst. destruct (l !! j); cbn; [by rewrite Hf|done].
Qed.
Lemma cores_set_nxt p q c : cores (set_nxt p q c) = cores c.
Proof. destruct p as [i|]; [|done]. by apply cores_alter. Qed.
Lemma cores_set_prv p q c : cores (set_prv p q c) = cores c.
Proof. destruct p as [i|]; [|done]. by apply cores_alter. Qed.
Lemma cores_move_front i c : cores (move_front i c) = cores c.
Proof. unfold move_front. by repeat first [rewrite cores_set_nxt|rewrite cores_set_prv]. Qed.

Lemma dll_range c l : dll c l -> Forall (fun j => j < length (bufs c)) l.
Proof.
  intros [_ Hp Hl]. rewrite Hp, Hl. apply Forall_forall. intros j.
  rewrite elem_of_seq. lia.
Qed.

Lemma dll_nodup c l : dll c l -> NoDup l.
Proof. intros [_ Hp _]. rewrite Hp. apply NoDup_seq. Qed.

Lemma dll_in c l i : dll c l -> i < NBUF <-> i ∈ l.
Proof. intros [_ Hp _]. rewrite Hp, elem_of_seq. lia. Qed.

Lemma dll_move_front c l1 i l2 :
  dll c (l1 ++ i :: l2) -> dll (move_front i c) (i :: l1 ++ l2).
Proof.
  intros H. pose proof (dll_range _ _ H) as Hr. pose proof (dll_nodup _ _ H) as Hnd.
  destruct H as [H Hp Hl]. rewrite move_front_unlink.
  assert (length (bufs (unlink i c)) = length (bufs c)) as Hlen.
  { unfold unlink. by rewrite length_set_nxt, length_set_prv. }
  split.
  - apply push_path; [by rewrite <- Permutation_middle in Hnd| |by apply unlink_path].
    rewrite Hlen. by rewrite <- Permutation_middle in Hr.
  - by rewrite Permutation_middle.
  - unfold binit_step. repeat first [rewrite length_set_nxt|rewrite length_set_prv]. by rewrite Hlen.
Qed.

Lemma dll_upd c l i f :
  (forall b, b_next (f b) = b_next b) -> (forall b, b_prev (f b) = b_prev b) ->
  dll c l -> dll (upd i f c) l.
Proof.
  intros Hn Hp [H Hperm Hl]. split; [|done|by cbn; rewrite length_alter].
  assert (forall r, nxt (upd i f c) r = nxt c r /\ prv (upd i f c) r = prv c r) as E.
  { intros [j|]; [|done]. cbn. rewrite list_lookup_alter. case_decide as E; [|done].
    subst. destruct (bufs c !! j); cbn; [by rewrite Hn, Hp|done]. }
  eapply path_frame; [| |exact H]; intros; apply E.
Qed.

(** [binit] links all buffers. *)
Lemma binit_dll : dll binit (reverse (seq 0 NBUF)).
Proof.
  split; [vm_compute; repeat split|by rewrite reverse_Permutation|by vm_compute].
Qed.

(** *** Walking the list *)

(** The first buffer of [l] that passes the test. *)
Definition first_buf (test : buf -> bool) c (l : list nat) : option nat :=
  head (filter (fun i => from_option test false (bufs c !! i) = true) l).

Lemma first_buf_Some test c l i :
  first_buf test c l = Some i -> i ∈ l /\ exists b, bufs c !! i = Some b /\ test b = true.
Proof.
  unfold first_buf. intros H.
  assert (i ∈ filter (fun i => from_option test false (bufs c !! i) = true) l) as Hin.
  { destruct (filter _ l); [done|]. injection H as ->. by left. }
  apply list_elem_of_filter in Hin as [Ht Hin]. split; [done|].
  destruct (bufs c !! i) as [b|]; [by exists b|done].
Qed.

Lemma first_buf_None test c l i b :
  first_buf test c l = None -> i ∈ l -> bufs c !! i = Some b -> test b = false.
Proof.
  unfold first_buf. intros H Hi Hb. apply not_true_iff_false. intros Ht.
  assert (i ∈ filter (fun i => from_option test false (bufs c !! i) = true) l) as Hin.
  { apply list_elem_of_filter. by rewrite Hb. }
  destruct (filter _ l); [by apply not_elem_of_nil in Hin|done].
Qed.

(** Walking a segment whose links are [step]: a shape both directions have. *)
Fixpoint chain (step : bcache -> bptr -> bptr) c (p : bptr) (l : list nat) : Prop :=
  match l with
  | [] => p = None
  | i :: l' => p = Some i /\ chain step c (step c (Some i)) l'
  end.

Lemma wp_walk step test fuel s l p (Q : option nat -> bstate -> Prop) :
  chain step (b_cache s) p l -> Forall (fun j => j < length (bufs (b_cache s))) l ->
  length l <= fuel -> Q (first_buf test (b_cache s) l) s ->
  wp (walk step test fuel p) Q s.
Proof.
  revert p fuel. induction l as [|i l IH]; intros p fuel Hc Hr Hf HQ; cbn in Hc.
  - subst. by destruct fuel.
  - destruct Hc as [-> Hc]. apply Forall_cons in Hr as [Hi Hr].
    destruct fuel as [|fuel]; cbn in Hf; [lia|]. cbn [walk].
    destruct (lookup_lt_is_Some_2 _ _ Hi) as [b Hb].
    wp_step. unfold get_buf. wp_steps. eapply wp_of_option; [exact Hb|].
    unfold first_buf in HQ. rewrite filter_cons, Hb in HQ. cbn [from_option] in HQ.
    destruct (test b); cbn in HQ; [by wp_steps|]. wp_steps. apply IH; [done..|lia|done].
Qed.

Lemma path_chain_nxt c a l : path c a l None -> chain nxt c (nxt c a) l.
Proof.
  revert a. induction l as [|i l IH]; intros a; cbn [path chain]; [by intros [-> _]|].
  intros (-> & _ & H). split; [done|]. by apply IH.
Qed.

Lemma path_chain_prv c l b : path c None l b -> chain prv c (prv c b) (reverse l).
Proof.
  revert b. induction l as [|i l IH] using rev_ind; intros b.
  - cbn [path]. by intros [_ ->].
  - rewrite path_app, reverse_snoc. intros [H [Hn Hp]]. rewrite Hp. split; [done|].
    by apply IH.
Qed.
End lists.

(** ** The invariant and the view *)

Section inv.
Implicit Types (m : machine) (K : list cbuf) (dk : disk) (k : cbuf).

Definition caches k (x : Z) : Prop := k_dev k = ROOTDEV /\ k_blockno k = x.
#[local] Instance caches_dec k x : Decision (caches k x).
Proof. unfold caches. apply _. Defined.

(** One buffer: never used, or holding a block of the root disk; locked by
    the running process or free; as on disk when it is free and clean. *)
Record kbuf_inv m dk (i : nat) k : Prop := {
  kb_data : block_ok (k_data k);
  kb_lock : k_refcnt k = 0 /\ slocked (slock_of m (SBuf i)) = 0 \/
            k_refcnt k = 1 /\ k_dev k = ROOTDEV /\
            slock_of m (SBuf i) = Sleeplock 1 (default 0 (curpid m));
  kb_dev : k_dev k <> ROOTDEV /\ k_flags k = 0 \/
           k_dev k = ROOTDEV /\ (k_flags k = 2 \/ k_flags k = 6) /\
           0 <= k_blockno k < disksize dk;
  kb_clean : k_dev k = ROOTDEV -> k_refcnt k = 0 -> k_flags k = 2 ->
             k_data k = dread dk (k_blockno k)
}.

Record kinv m K dk : Prop := {
  ki_quiet : quiet m;
  ki_pid : is_Some (curpid m);
  ki_disk : disk_ok dk;
  ki_len : length K = NBUF;
  ki_buf : forall i k, K !! i = Some k -> kbuf_inv m dk i k;
  ki_uniq : forall i j k k' x, K !! i = Some k -> K !! j = Some k' ->
              caches k x -> caches k' x -> i = j
}.

Definition kheld K : gmap nat Z :=
  omap (fun k => if decide (k_refcnt k = 1) then Some (k_blockno k) else None)
       (map_seq 0 K : gmap nat cbuf).
Definition kpinned K : gset Z :=
  list_to_set (k_blockno <$> filter (fun k => k_flags k = 6) K).
Definition kval K dk (x : Z) : list Z :=
  match list_find (fun k => caches k x) K with
  | Some (_, k) => k_data k
  | None => dread dk x
  end.

Lemma lookup_kheld K i :
  kheld K !! i = k ← K !! i; if decide (k_refcnt k = 1) then Some (k_blockno k) else None.
Proof. unfold kheld. by rewrite lookup_omap, lookup_map_seq_0. Qed.

Lemma kheld_insert K i k :
  (i < length K)%nat ->
  kheld (<[i := k]> K) =
    if decide (k_refcnt k = 1) then <[i := k_blockno k]> (kheld K) else delete i (kheld K).
Proof.
  intros Hi. apply map_eq. intros j. rewrite lookup_kheld.
  destruct (decide (i = j)) as [<-|Hne].
  - rewrite list_lookup_insert_eq by done. cbn.
    case_decide; by rewrite ?lookup_insert_eq, ?lookup_delete_eq.
  - rewrite list_lookup_insert_ne by done.
    case_decide; by rewrite ?lookup_insert_ne, ?lookup_delete_ne, lookup_kheld.
Qed.

Lemma elem_kpinned K x :
  x ∈ kpinned K <-> exists i k, K !! i = Some k /\ k_flags k = 6 /\ k_blockno k = x.
Proof.
  unfold kpinned. rewrite elem_of_list_to_set, list_elem_of_fmap.
  setoid_rewrite list_elem_of_filter. setoid_rewrite list_elem_of_lookup. naive_solver.
Qed.

Lemma elem_kheld K x :
  x ∈@{gset Z} map_img (kheld K) <->
  exists i k, K !! i = Some k /\ k_refcnt k = 1 /\ k_blockno k = x.
Proof.
  rewrite elem_of_map_img. setoid_rewrite lookup_kheld. split.
  - intros [i Hi]. destruct (K !! i) as [k|] eqn:E; [|done]. cbn in Hi.
    case_decide; naive_solver.
  - intros (i & k & Hi & Hr & <-). exists i. rewrite Hi. cbn. by rewrite decide_True.
Qed.

Lemma kval_cached m K dk i k x :
  kinv m K dk -> K !! i = Some k -> caches k x -> kval K dk x = k_data k.
Proof.
  intros HI Hi Hc. unfold kval.
  destruct (list_find (fun k => caches k x) K) as [[j k']|] eqn:E.
  - apply list_find_Some in E as (Hj & Hc' & _).
    assert (i = j) as -> by (by eapply ki_uniq). congruence.
  - apply list_find_None in E. rewrite Forall_lookup in E. by destruct (E i k Hi).
Qed.

Lemma kval_uncached K dk x :
  (forall i k, K !! i = Some k -> ~ caches k x) -> kval K dk x = dread dk x.
Proof.
  intros H. unfold kval.
  destruct (list_find (fun k => caches k x) K) as [[j k']|] eqn:E; [|done].
  apply list_find_Some in E as (Hj & Hc' & _). by destruct (H j k').
Qed.

Lemma kcached_dec K x :
  (exists i k, K !! i = Some k /\ caches k x) \/ (forall i k, K !! i = Some k -> ~ caches k x).
Proof.
  destruct (list_find (fun k => caches k x) K) as [[j k']|] eqn:E.
  - apply list_find_Some in E as (Hj & Hc' & _). left. eauto.
  - apply list_find_None in E. rewrite Forall_lookup in E. right. eauto.
Qed.

(** Replacing one buffer. *)
Lemma kinv_insert m m' K dk dk' i k0 k :
  kinv m K dk -> K !! i = Some k0 -> kbuf_inv m' dk' i k ->
  (forall j k', j <> i -> K !! j = Some k' -> k_dev k' = ROOTDEV ->
     k_dev k = ROOTDEV -> k_blockno k' <> k_blockno k) ->
  mquiet m m' -> (forall j, j <> i -> slock_of m' (SBuf j) = slock_of m (SBuf j)) ->
  disk_ok dk' -> disksize dk' = disksize dk ->
  (forall j k', j <> i -> K !! j = Some k' -> k_dev k' = ROOTDEV ->
     dread dk' (k_blockno k') = dread dk (k_blockno k')) ->
  kinv m' (<[i := k]> K) dk'.
Proof.
  intros HI Hi Hk Hfresh [Hq Hrel] Hs Hok Hsz Hrd.
  assert (i < length K)%nat as Hlt by (by eapply lookup_lt_Some).
  pose proof (mrel_curpid _ _ Hrel) as Hpid.
  split; [done|by rewrite Hpid; apply HI|done|by rewrite length_insert; apply HI| |].
  - intros j k' Hj. destruct (decide (i = j)) as [<-|Hne].
    { rewrite list_lookup_insert_eq in Hj by done. by injection Hj as <-. }
    rewrite list_lookup_insert_ne in Hj by done.
    destruct (ki_buf _ _ _ HI j k' Hj) as [Hd Hl Hv Hc].
    split; [done|rewrite Hs, Hpid by done; done|by rewrite Hsz|].
    intros. rewrite (Hrd j k') by done. by apply Hc.
  - intros j j' k1 k2 x Hj Hj' [Hd1 Hb1] [Hd2 Hb2].
    destruct (decide (i = j)) as [<-|Hne], (decide (i = j')) as [<-|Hne']; [done|..].
    + rewrite list_lookup_insert_eq in Hj by done. rewrite list_lookup_insert_ne in Hj' by done.
      injection Hj as <-. destruct (Hfresh j' k2); congruence.
    + rewrite list_lookup_insert_eq in Hj' by done. rewrite list_lookup_insert_ne in Hj by done.
      injection Hj' as <-. destruct (Hfresh j k1); congruence.
    + rewrite list_lookup_insert_ne in Hj, Hj' by done. by eapply ki_uniq.
Qed.

(** The content of blocks after replacing one buffer. *)
Lemma kval_insert m K dk i k0 k dk' x :
  kinv m K dk -> K !! i = Some k0 -> kinv m (<[i := k]> K) dk' ->
  k_dev k = ROOTDEV -> (k_dev k0 = ROOTDEV -> k_blockno k0 = k_blockno k) ->
  (forall y, y <> k_blockno k -> dread dk' y = dread dk y) ->
  kval (<[i := k]> K) dk' x = if decide (x = k_blockno k) then k_data k else kval K dk x.
Proof.
  intros HI Hi HI' Hd Hb Hrd.
  assert (i < length K)%nat as Hlt by (by eapply lookup_lt_Some).
  assert ((<[i:=k]> K) !! i = Some k) as Hik by (by apply list_lookup_insert_eq).
  case_decide as Hx.
  - subst. by eapply (kval_cached _ _ _ i).
  - destruct (kcached_dec K x) as [(j & kj & Hj & Hc)|Hno].
    + rewrite (kval_cached _ _ _ _ _ _ HI Hj Hc).
      destruct (decide (i = j)) as [<-|Hne].
      { exfalso. destruct Hc as [Hcd Hcb]. rewrite Hi in Hj. injection Hj as ->.
        rewrite Hb in Hcb by done. congruence. }
      eapply (kval_cached _ _ _ j); [done| |done]. by rewrite list_lookup_insert_ne.
    + rewrite (kval_uncached K) by done. rewrite <- Hrd by done. apply kval_uncached.
      intros j kj Hj [Hcd Hcb]. destruct (decide (i = j)) as [<-|Hne].
      * rewrite Hik in Hj. injection Hj as <-. congruence.
      * rewrite list_lookup_insert_ne in Hj by done. by apply (Hno j kj).
Qed.

(** A buffer can be recycled unless all hold pinned or locked blocks. *)
Lemma kroom m K dk x :
  kinv m K dk -> (forall i k, K !! i = Some k -> ~ caches k x) ->
  (size ({[x]} ∪ (kpinned K ∪ map_img (kheld K)) : gset Z) <= NBUF)%nat ->
  exists i k, K !! i = Some k /\ k_refcnt k = 0 /\ k_flags k <> 6.
Proof.
  intros HI Hno Hsz.
  destruct (decide (Exists (fun k => k_refcnt k = 0 /\ k_flags k <> 6) K)) as [Hex|Hnex].
  { apply Exists_exists in Hex as (k & Hk & Hr). apply list_elem_of_lookup in Hk as [i Hi].
    eauto. }
  exfalso. rewrite <- Forall_Exists_neg, Forall_lookup in Hnex.
  assert (forall i k, K !! i = Some k -> k_dev k = ROOTDEV /\
            k_blockno k ∈ kpinned K ∪ map_img (kheld K)) as Hbusy.
  { intros i k Hi. specialize (Hnex i k Hi).
    destruct (ki_buf _ _ _ HI i k Hi) as [_ Hl Hv _].
    destruct Hl as [[Hr _]|(Hr & Hd & _)].
    - destruct Hv as [[_ Hf]|(Hd & Hf & _)]; [destruct Hnex; split; [done|lia]|].
      split; [done|]. apply elem_of_union_l, elem_kpinned. exists i, k. split_and!; [done| |done].
      destruct Hf as [Hf|Hf]; [|done]. destruct Hnex. split; [done|lia].
    - split; [done|]. apply elem_of_union_r, elem_kheld. eauto. }
  assert (NoDup (x :: (k_blockno <$> K))) as Hnd.
  { apply NoDup_cons. split.
    - intros (k & -> & Hk)%list_elem_of_fmap. apply list_elem_of_lookup in Hk as [i Hi].
      destruct (Hno i k Hi). split; [by apply (Hbusy i)|done].
    - apply NoDup_alt. intros i j y Hi Hj. rewrite list_lookup_fmap in Hi, Hj.
      apply fmap_Some in Hi as (k & Hi & ->). apply fmap_Some in Hj as (k' & Hj & E).
      eapply (ki_uniq _ _ _ HI i j k k' (k_blockno k)); [done..| |]; split; try done;
        by eapply Hbusy. }
  assert (list_to_set (x :: (k_blockno <$> K)) ⊆@{gset Z}
            {[x]} ∪ (kpinned K ∪ map_img (kheld K))) as Hsub.
  { intros y. rewrite elem_of_list_to_set, elem_of_cons, list_elem_of_fmap.
    intros [->|(k & -> & Hk)]; [by apply elem_of_union_l, elem_of_singleton|].
    apply list_elem_of_lookup in Hk as [i Hi]. apply elem_of_union_r. by eapply Hbusy. }
  apply subseteq_size in Hsub. rewrite size_list_to_set in Hsub by done. cbn in Hsub.
  rewrite length_fmap, (ki_len _ _ _ HI) in Hsub. unfold NBUF in *. lia.
Qed.
End inv.

(** ** The operations on the buffers *)

(** Effect of a field assignment on the core of a buffer. *)
Ltac core_eq :=
  let b := fresh "b" in let H := fresh "H" in
  intros b H; destruct b; unfold core in *; cbn in *; simplify_eq; reflexivity.

Section ops.
Implicit Types (s : bstate) (m : machine) (K : list cbuf) (dk : disk) (k : cbuf).

Record rep s m K dk : Prop := {
  rp_mach : b_mach s = m;
  rp_cores : cores (b_cache s) = K;
  rp_disk : b_disk s = dk;
  rp_list : exists l, dll (b_cache s) l
}.

Lemma wp_onm {A} (f : M machine A) s (Q : A -> bstate -> Prop) :
  wp f (fun a m' => Q a (set_mach m' s)) (b_mach s) -> wp (onm f) Q s.
Proof. apply (wp_zoom (S := bstate)). Qed.

Lemma rep_mach s m m' K dk : rep s m K dk -> rep (set_mach m' s) m' K dk.
Proof. by intros []. Qed.

Lemma wp_get_buf s m K dk i k (Q : buf -> bstate -> Prop) :
  rep s m K dk -> K !! i = Some k -> (forall b, core b = k -> Q b s) -> wp (get_buf i) Q s.
Proof.
  intros [_ HK _ _] Hi HQ. unfold get_buf. wp_steps.
  rewrite <- HK in Hi. unfold cores in Hi. rewrite list_lookup_fmap in Hi.
  apply fmap_Some in Hi as (b & Hb & ->). eapply wp_of_option; [done|]. by apply HQ.
Qed.

Lemma wp_upd_buf s m K dk i k f k' (Q : unit -> bstate -> Prop) :
  rep s m K dk -> K !! i = Some k -> (forall b, core b = k -> core (f b) = k') ->
  (forall b, b_next (f b) = b_next b) -> (forall b, b_prev (f b) = b_prev b) ->
  (forall s', rep s' m (<[i := k']> K) dk -> Q tt s') -> wp (upd_buf i f) Q s.
Proof.
  intros [Hm HK Hd [l Hl]] Hi Hf Hn Hp HQ. unfold upd_buf. wp_step. apply HQ.
  split; cbn; [done| |done|exists l; by apply dll_upd].
  rewrite <- HK in *. unfold cores in *. cbn. rewrite list_lookup_fmap in Hi.
  apply fmap_Some in Hi as (b & Hb & ->).
  rewrite <- (Hf b), <- list_fmap_insert by done. f_equal.
  apply list_eq. intros j. rewrite list_lookup_alter.
  destruct (decide (i = j)) as [<-|].
  - rewrite Hb, list_lookup_insert_eq by (by eapply lookup_lt_Some). done.
  - by rewrite list_lookup_insert_ne.
Qed.

Definition mine m i : Prop := slock_of m (SBuf i) = Sleeplock 1 (default 0 (curpid m)).

Lemma wp_holding s m K dk i (Q : bool -> bstate -> Prop) :
  rep s m K dk -> quiet m -> is_Some (curpid m) -> mine m i ->
  (forall s' m', rep s' m' K dk -> mquiet m m' -> slocks m' = slocks m -> Q true s') ->
  wp (onm (holdingsleep (SBuf i))) Q s.
Proof.
  intros Hr Hq [pid Hpid] Hmine HQ. apply wp_onm. rewrite (rp_mach _ _ _ _ Hr).
  unfold mine in Hmine. rewrite Hpid in Hmine. eapply wp_holdingsleep; [done..|].
  intros m' Hm' Hs' _. eapply HQ; [|done..]. by eapply rep_mach.
Qed.

Lemma wp_iderw_read s m K dk i x r d (Q : unit -> bstate -> Prop) :
  rep s m K dk -> quiet m -> is_Some (curpid m) -> mine m i ->
  K !! i = Some (Cbuf 0 ROOTDEV x r d) -> 0 <= x < disksize dk ->
  (forall s' m', rep s' m' (<[i := Cbuf 2 ROOTDEV x r (dread dk x)]> K) dk ->
     mquiet m m' -> slocks m' = slocks m -> Q tt s') ->
  wp (iderw i) Q s.
Proof.
  intros Hr Hq Hpid Hmine Hi Hx HQ. unfold iderw. wp_step.
  eapply wp_holding; [done..|]. intros s1 m1 Hr1 Hq1 Hs1. cbn [negb]. wp_step.
  eapply wp_get_buf; [done..|]. intros b Hb. unfold core in Hb. injection Hb as Hf Hd Hn Hc Hdt.
  rewrite Hf, Hd. rewrite bool_decide_eq_false_2 by done.
  rewrite (bool_decide_eq_true_2 (ROOTDEV = 1)) by done. cbn [negb]. wp_steps. rewrite (rp_disk _ _ _ _ Hr1), Hn.
  rewrite bool_decide_eq_false_2 by lia.
  change (c_bool (Z.land 0 B_DIRTY)) with false. cbv iota. wp_step.
  eapply wp_upd_buf; [done..| |done|done|].
  { core_eq. }
  intros s2 Hr2. wp_step.
  assert (i < length K)%nat by (by eapply lookup_lt_Some).
  eapply wp_get_buf; [done|by apply list_lookup_insert_eq|].
  intros b2 Hb2. injection Hb2 as Hf2 _ _ _ _. rewrite Hf2.
  eapply wp_upd_buf; [done|by apply list_lookup_insert_eq| |done|done|].
  { core_eq. }
  intros s3 Hr3. rewrite list_insert_insert_eq, ?Hn, ?Hc, ?Hdt in Hr3. eapply HQ; [exact Hr3|done..].
Qed.

Lemma wp_iderw_write s m K dk i x r d (Q : unit -> bstate -> Prop) :
  rep s m K dk -> quiet m -> is_Some (curpid m) -> mine m i ->
  K !! i = Some (Cbuf 6 ROOTDEV x r d) -> 0 <= x < disksize dk ->
  (forall s' m', rep s' m' (<[i := Cbuf 2 ROOTDEV x r d]> K) (dwrite dk x d) ->
     mquiet m m' -> slocks m' = slocks m -> Q tt s') ->
  wp (iderw i) Q s.
Proof.
  intros Hr Hq Hpid Hmine Hi Hx HQ. unfold iderw. wp_step.
  eapply wp_holding; [done..|]. intros s1 m1 Hr1 Hq1 Hs1. cbn [negb]. wp_step.
  eapply wp_get_buf; [done..|]. intros b Hb. unfold core in Hb. injection Hb as Hf Hd Hn Hc Hdt.
  rewrite Hf, Hd. rewrite bool_decide_eq_false_2 by done.
  rewrite (bool_decide_eq_true_2 (ROOTDEV = 1)) by done. cbn [negb]. wp_steps. rewrite (rp_disk _ _ _ _ Hr1), Hn.
  rewrite bool_decide_eq_false_2 by lia.
  change (c_bool (Z.land 6 B_DIRTY)) with true. cbv iota. wp_step. wp_step.
  eapply wp_upd_buf; [done..| |done|done|].
  { core_eq. }
  intros s2 Hr2. rewrite ?Hn, ?Hc, ?Hdt in Hr2. wp_steps. rewrite Hdt.
  assert (i < length K)%nat by (by eapply lookup_lt_Some).
  assert (rep (set_disk (dwrite dk x d) s2) m1 (<[i := Cbuf 2 ROOTDEV x r d]> K) (dwrite dk x d))
    as Hr2' by (by destruct Hr2).
  eapply wp_get_buf; [done|by apply list_lookup_insert_eq|].
  intros b2 Hb2. injection Hb2 as Hf2 _ _ _ _. rewrite Hf2.
  eapply wp_upd_buf; [done|by apply list_lookup_insert_eq| |done|done|].
  { core_eq. }
  intros s3 Hr3. rewrite list_insert_insert_eq, ?Hn, ?Hc, ?Hdt in Hr3. eapply HQ; [exact Hr3|done..].
Qed.
End ops.

(** ** bget and bread *)

Section bget.
Implicit Types (s : bstate) (m : machine) (K : list cbuf) (dk : disk) (k : cbuf).

Lemma slock_of_insert m m' l v l' :
  slocks m' = <[l := v]> (slocks m) ->
  slock_of m' l' = if decide (l = l') then v else slock_of m l'.
Proof. intros H. unfold slock_of. rewrite H, lookup_insert. by case_decide. Qed.

Lemma slock_of_same m m' l : slocks m' = slocks m -> slock_of m' l = slock_of m l.
Proof. intros H. unfold slock_of. by rewrite H. Qed.

Lemma kmrel_buf m m' i v :
  mrel m m' -> slocks m' = <[SBuf i := v]> (slocks m) -> kmrel m m'.
Proof. intros Hr Hs. split; [done|]. intros j. by rewrite (slock_of_insert _ _ _ _ _ Hs). Qed.

Lemma kmrel_same m m' : mrel m m' -> slocks m' = slocks m -> kmrel m m'.
Proof. intros Hr Hs. split; [done|]. intros j. by apply slock_of_same. Qed.

Lemma core_lookup (c : bcache) i b :
  bufs c !! i = Some b -> cores c !! i = Some (core b).
Proof. intros H. unfold cores. by rewrite list_lookup_fmap, H. Qed.

(** The lookup of a block of the root disk in the list. *)
Lemma first_cached c l x :
  dll c l ->
  match first_buf (fun b => (b_dev b =z ROOTDEV) && (b_blockno b =z x)) c l with
  | Some i => exists k, cores c !! i = Some k /\ caches k x
  | None => forall i k, cores c !! i = Some k -> ~ caches k x
  end.
Proof.
  intros Hl. destruct (first_buf _ c l) as [i|] eqn:E.
  - apply first_buf_Some in E as (_ & b & Hb & Ht). exists (core b).
    split; [by apply core_lookup|]. apply andb_true_iff in Ht as [Hd Hn].
    apply bool_decide_eq_true in Hd, Hn. done.
  - intros i k Hi [Hd Hn]. unfold cores in Hi. rewrite list_lookup_fmap in Hi.
    apply fmap_Some in Hi as (b & Hb & ->). cbn in Hd, Hn.
    assert (i ∈ l) as Hil.
    { apply (dll_in _ _ _ Hl). rewrite <- (dll_len _ _ Hl). by eapply lookup_lt_Some. }
    pose proof (first_buf_None _ _ _ _ _ E Hil Hb) as Ht. cbn in Ht.
    rewrite Hd, Hn, !bool_decide_eq_true_2 in Ht; done.
Qed.

(** The choice of a buffer to recycle. *)
Lemma first_free m c l dk :
  dll c l -> kinv m (cores c) dk ->
  match first_buf (fun b => (b_refcnt b =z 0) && (Z.land (b_flags b) B_DIRTY =z 0)) c
          (reverse l) with
  | Some i => exists k, cores c !! i = Some k /\ k_refcnt k = 0 /\ k_flags k <> 6
  | None => forall i k, cores c !! i = Some k -> k_refcnt k = 0 -> k_flags k = 6
  end.
Proof.
  intros Hl HI. destruct (first_buf _ c (reverse l)) as [i|] eqn:E.
  - apply first_buf_Some in E as (_ & b & Hb & Ht). exists (core b).
    split; [by apply core_lookup|]. apply andb_true_iff in Ht as [Hd Hn].
    apply bool_decide_eq_true in Hd, Hn. split; [done|]. intros E. cbn in E. by rewrite E in Hn.
  - intros i k Hi Hr. pose proof (kb_dev _ _ _ _ (ki_buf _ _ _ HI _ _ Hi)) as Hdev.
    unfold cores in Hi. rewrite list_lookup_fmap in Hi.
    apply fmap_Some in Hi as (b & Hb & ->). cbn in *.
    assert (i ∈ reverse l) as Hil.
    { apply elem_of_reverse, (dll_in _ _ _ Hl). rewrite <- (dll_len _ _ Hl).
      by eapply lookup_lt_Some. }
    pose proof (first_buf_None _ _ _ _ _ E Hil Hb) as Ht. cbn in Ht.
    rewrite Hr in Ht. cbn in Ht. apply bool_decide_eq_false in Ht.
    destruct Hdev as [[_ Hf]|(_ & [Hf|Hf] & _)]; [| |done]; by rewrite Hf in Ht.
Qed.

(** The end of [bget]: release the cache lock, lock the buffer. *)
Lemma wp_take_buf s m m1 K dk i pid (Q : nat -> bstate -> Prop) :
  rep s m1 K dk -> holds LBcache m1 -> mrel m m1 -> slocks m1 = slocks m ->
  curpid m = Some pid -> slocked (slock_of m (SBuf i)) = 0 ->
  (forall s' m', rep s' m' K dk -> mquiet m m' ->
     slocks m' = <[SBuf i := Sleeplock 1 pid]> (slocks m) -> Q i s') ->
  wp (onm (release LBcache) ;; onm (acquiresleep (SBuf i)) ;; mret i) Q s.
Proof.
  intros Hr Hh Hrel Hs1 Hpid Hfree HQ. wp_step. apply wp_onm. rewrite (rp_mach _ _ _ _ Hr).
  apply wp_release; [done|]. intros m3 Hq3 Hs3 _. wp_step. apply wp_onm.
  change (b_mach (set_mach m3 s)) with m3.
  assert (mquiet m m3) as Hmq by (split; [apply Hq3|etrans; [exact Hrel|apply Hq3]]).
  apply (wp_acquiresleep (SBuf i) _ pid); [apply Hq3|by rewrite (mrel_curpid _ _ (proj2 Hmq))| |].
  - by rewrite (slock_of_same m m3) by congruence.
  - intros m4 Hq4 Hs4 _. wp_step. eapply HQ; [by eapply rep_mach, rep_mach| |].
    + by eapply mquiet_trans.
    + by rewrite Hs4, Hs3, Hs1.
Qed.

Lemma wp_bget s m K dk x (Q : nat -> bstate -> Prop) :
  rep s m K dk -> kinv m K dk -> x ∉@{gset Z} map_img (kheld K) ->
  (size ({[x]} ∪ (kpinned K ∪ map_img (kheld K)) : gset Z) <= NBUF)%nat ->
  (forall i k0 k s' m',
     K !! i = Some k0 -> k_refcnt k0 = 0 ->
     caches k0 x /\ k = Cbuf (k_flags k0) ROOTDEV x 1 (k_data k0) \/
     (forall j k', K !! j = Some k' -> ~ caches k' x) /\ k_flags k0 <> 6 /\
     k = Cbuf 0 ROOTDEV x 1 (k_data k0) ->
     rep s' m' (<[i := k]> K) dk -> mquiet m m' ->
     slocks m' = <[SBuf i := Sleeplock 1 (default 0 (curpid m))]> (slocks m) ->
     Q i s') ->
  wp (bget ROOTDEV x) Q s.
Proof.
  intros Hr HI Hheld Hroom HQ. destruct (ki_pid _ _ _ HI) as [pid Hpid]. rewrite Hpid in HQ.
  unfold bget. wp_step. apply wp_onm. rewrite (rp_mach _ _ _ _ Hr).
  apply wp_acquire; [apply HI|]. intros m1 Hh1 Hr1 Hs1 _.
  pose proof (rep_mach _ _ m1 _ _ Hr) as Hrep1. set (s1 := set_mach m1 s) in *.
  destruct (rp_list _ _ _ _ Hrep1) as [l Hl]. pose proof (dll_range _ _ Hl) as Hrange.
  assert (length l <= NBUF)%nat as Hlen
    by (rewrite (dll_perm _ _ Hl), length_seq; done).
  assert (forall i k0, K !! i = Some k0 -> k_refcnt k0 = 0 ->
     slocked (slock_of m (SBuf i)) = 0) as Hunl.
  { intros i k0 Hi Hr0.
    destruct (kb_lock _ _ _ _ (ki_buf _ _ _ HI _ _ Hi)) as [[_ ?]|(? & _)]; [done|congruence]. }
  wp_steps. eapply wp_walk; [apply path_chain_nxt, Hl|done|done|].
  pose proof (first_cached _ _ x Hl) as Hfirst. rewrite (rp_cores _ _ _ _ Hrep1) in Hfirst.
  destruct (first_buf _ (b_cache s1) l) as [i|].
  - destruct Hfirst as (k0 & Hi & Hc).
    assert (k_refcnt k0 = 0) as Hr0.
    { destruct (kb_lock _ _ _ _ (ki_buf _ _ _ HI _ _ Hi)) as [[? _]|(? & _)]; [done|].
      destruct Hheld. apply elem_kheld. exists i, k0. split_and!; [done..|apply Hc]. }
    destruct Hc as [Hcd Hcb]. wp_step. eapply wp_get_buf; [done..|]. intros b Hb. wp_step.
    eapply (wp_upd_buf _ _ _ _ _ _ _ (Cbuf (k_flags k0) ROOTDEV x 1 (k_data k0)));
      [done..| |done|done|].
    { intros b' Hb'. rewrite <- Hb' in *. rewrite <- Hb in Hr0.
      unfold core in *. cbn in *. by rewrite Hr0, Hcd, Hcb. }
    intros s2 Hrep2. eapply wp_take_buf; [done..|by eapply Hunl|]. intros s' m' Hrep' Hmq Hs.
    eapply HQ; [done..| |done|done|done]. by left.
  - wp_step. eapply wp_walk; [by apply path_chain_prv, Hl| | |].
    { by apply Forall_reverse. } { by rewrite length_reverse. }
    rewrite <- (rp_cores _ _ _ _ Hrep1) in HI.
    pose proof (first_free _ _ _ _ Hl HI) as Hfree. rewrite (rp_cores _ _ _ _ Hrep1) in HI, Hfree.
    destruct (first_buf _ (b_cache s1) (reverse l)) as [i|].
    + destruct Hfree as (k0 & Hi & Hr0 & Hf0). wp_step.
      eapply (wp_upd_buf _ _ _ _ _ _ _ (Cbuf 0 ROOTDEV x 1 (k_data k0))); [done..| |done|done|].
      { by intros b' <-. }
      intros s2 Hrep2. eapply wp_take_buf; [done..|by eapply Hunl|]. intros s' m' Hrep' Hmq Hs.
      eapply HQ; [done..| |done|done|done]. by right.
    + exfalso. destruct (kroom _ _ _ _ HI Hfirst Hroom) as (i & k & Hi & Hr0 & Hf0).
      by apply Hf0, (Hfree i).
Qed.
End bget.

(** ** The interface *)

Section interface.
Implicit Types (s : bstate) (m : machine) (K : list cbuf) (dk : disk) (k : cbuf).

Definition bio_view : cache_view bstate := {|
  cv_inv s := kinv (b_mach s) (cores (b_cache s)) (b_disk s) /\
              exists l, dll (b_cache s) l;
  cv_disk := b_disk;
  cv_val s := kval (cores (b_cache s)) (b_disk s);
  cv_pinned s := kpinned (cores (b_cache s));
  cv_held s := kheld (cores (b_cache s))
|}.

Lemma rep_self s : cv_inv bio_view s -> rep s (b_mach s) (cores (b_cache s)) (b_disk s).
Proof. by intros [_ ?]. Qed.

(** A held buffer, as seen in the cores. *)
Lemma held_core m K dk i x :
  kinv m K dk -> kheld K !! i = Some x ->
  exists f d, K !! i = Some (Cbuf f ROOTDEV x 1 d) /\ (f = 2 \/ f = 6) /\
    0 <= x < disksize dk /\ mine m i /\ block_ok d /\ kval K dk x = d.
Proof.
  intros HI Hi. rewrite lookup_kheld in Hi. destruct (K !! i) as [k|] eqn:E; [|done].
  cbn in Hi. case_decide as Hr; [|done]. injection Hi as <-.
  destruct (ki_buf _ _ _ HI _ _ E) as [Hd Hl Hv _].
  destruct Hl as [[? _]|(_ & Hdev & Hm)]; [congruence|].
  destruct Hv as [[? _]|(_ & Hf & Hb)]; [congruence|].
  exists (k_flags k), (k_data k). split_and!; try done; try lia.
  - destruct k; cbn in *; by subst.
  - by eapply kval_cached.
Qed.

(** Replacing a held buffer by another state of the same block. *)
Lemma kinv_held m m' K dk dk' i x f d f' r' d' :
  kinv m K dk -> K !! i = Some (Cbuf f ROOTDEV x 1 d) -> 0 <= x < disksize dk ->
  block_ok d' -> f' = 2 \/ f' = 6 -> mquiet m m' ->
  (forall j, j <> i -> slock_of m' (SBuf j) = slock_of m (SBuf j)) ->
  r' = 1 /\ mine m' i \/ r' = 0 /\ slocked (slock_of m' (SBuf i)) = 0 /\
    (f' = 2 -> d' = dread dk' x) ->
  disk_ok dk' -> disksize dk' = disksize dk ->
  (forall y, y <> x -> dread dk' y = dread dk y) ->
  kinv m' (<[i := Cbuf f' ROOTDEV x r' d']> K) dk'.
Proof.
  intros HI Hi Hx Hd' Hf' Hmq Hs Hr' Hdk' Hsz Hrd.
  assert (forall j k', j <> i -> K !! j = Some k' -> k_dev k' = ROOTDEV -> k_blockno k' <> x)
    as Hne.
  { intros j k' Hj Hk' Hdev E. apply Hj. by eapply (ki_uniq _ _ _ HI j i _ _ x). }
  eapply kinv_insert; [done..| | |done|done|done|done|].
  - split; cbn; [done| |right; split_and!; [done|done|lia..]|].
    + destruct Hr' as [[-> ?]|(-> & ? & _)]; [right|left]; done.
    + intros _ -> Hf2. destruct Hr' as [[? _]|(_ & _ & H)]; [done|by apply H].
  - cbn. intros. by eapply Hne.
  - intros j k' Hj Hk' Hdev. apply Hrd. by eapply Hne.
Qed.

Lemma kpinned_insert m K dk i x f d f' r' d' :
  kinv m K dk -> K !! i = Some (Cbuf f ROOTDEV x 1 d) ->
  kpinned (<[i := Cbuf f' ROOTDEV x r' d']> K) =
    if decide (f' = 6) then {[x]} ∪ kpinned K else kpinned K ∖ {[x]}.
Proof.
  intros HI Hi. assert (i < length K)%nat as Hlt by (by eapply lookup_lt_Some).
  apply set_eq. intros y.
  assert (forall j k', j <> i -> K !! j = Some k' -> k_flags k' = 6 -> k_blockno k' <> x) as Hne.
  { intros j k' Hj Hk' Hf6 E. apply Hj.
    destruct (kb_dev _ _ _ _ (ki_buf _ _ _ HI _ _ Hk')) as [[_ ?]|(? & _)]; [lia|].
    by eapply (ki_uniq _ _ _ HI j i _ _ x). }
  transitivity (f' = 6 /\ y = x \/
    exists j k', j <> i /\ K !! j = Some k' /\ k_flags k' = 6 /\ k_blockno k' = y).
  { rewrite elem_kpinned. split.
    - intros (j & k' & Hj & Hf6 & <-). destruct (decide (i = j)) as [<-|Hij].
      + rewrite list_lookup_insert_eq in Hj by done. injection Hj as <-. by left.
      + rewrite list_lookup_insert_ne in Hj by done. right. eauto 10.
    - intros [[-> ->]|(j & k' & Hj & Hk' & Hf6 & <-)].
      + exists i. eexists. by rewrite list_lookup_insert_eq.
      + exists j, k'. by rewrite list_lookup_insert_ne. }
  case_decide as Hf'.
  - rewrite elem_of_union, elem_of_singleton, elem_kpinned. split.
    + intros [[_ ->]|(j & k' & ? & ?)]; [by left|right; eauto].
    + intros [->|(j & k' & Hk' & Hf6 & <-)]; [by left|].
      destruct (decide (j = i)) as [->|]; [|right; eauto 10].
      left. split; [done|]. rewrite Hi in Hk'. by injection Hk' as <-.
  - rewrite elem_of_difference, elem_of_singleton, elem_kpinned. split.
    + intros [[? _]|(j & k' & Hj & Hk' & Hf6 & <-)]; [done|]. split; [eauto|by eapply Hne].
    + intros [(j & k' & Hk' & Hf6 & <-) Hyx]. right. exists j, k'. split_and!; [|done..].
      intros ->. rewrite Hi in Hk'. by injection Hk' as <-.
Qed.

Lemma kpinned_keep K i k0 k :
  K !! i = Some k0 -> k_flags k = 6 <-> k_flags k0 = 6 ->
  (k_flags k = 6 -> k_blockno k = k_blockno k0) -> kpinned (<[i := k]> K) = kpinned K.
Proof.
  intros Hi Hf Hb. assert (i < length K)%nat as Hlt by (by eapply lookup_lt_Some).
  apply set_eq. intros y. rewrite !elem_kpinned. split; intros (j & k' & Hj & Hf6 & <-).
  - destruct (decide (i = j)) as [<-|Hij].
    + rewrite list_lookup_insert_eq in Hj by done. injection Hj as <-.
      exists i, k0. split_and!; [done|tauto|]. by rewrite Hb.
    + rewrite list_lookup_insert_ne in Hj by done. eauto.
  - destruct (decide (i = j)) as [<-|Hij].
    + exists i, k. rewrite list_lookup_insert_eq by done. rewrite Hi in Hj.
      injection Hj as <-. split_and!; [done|tauto|]. apply Hb. tauto.
    + exists j, k'. by rewrite list_lookup_insert_ne.
Qed.

(** Locking a cached block. *)
Lemma kinv_hit m m' K dk i k0 x :
  kinv m K dk -> K !! i = Some k0 -> k_refcnt k0 = 0 -> caches k0 x -> mquiet m m' ->
  slocks m' = <[SBuf i := Sleeplock 1 (default 0 (curpid m))]> (slocks m) ->
  let K' := <[i := Cbuf (k_flags k0) ROOTDEV x 1 (k_data k0)]> K in
  kinv m' K' dk /\ (forall y, kval K' dk y = kval K dk y).
Proof.
  intros HI Hi Hr [Hcd Hcb] Hmq Hs K'.
  destruct (ki_buf _ _ _ HI _ _ Hi) as [Hd _ Hv _].
  destruct Hv as [[? _]|(_ & Hf & Hx)]; [congruence|]. rewrite Hcb in Hx.
  assert (kinv m' K' dk) as HI'.
  { eapply kinv_insert; [done..| | |done| |apply HI|done|done].
    - split; cbn; [done| |by right|done]. right. split_and!; [done..|].
      by rewrite (slock_of_insert _ _ _ _ _ Hs), decide_True, (mrel_curpid _ _ (proj2 Hmq)).
    - cbn. intros j k' Hj Hk' Hdev _ E. apply Hj.
      by eapply (ki_uniq _ _ _ HI j i _ _ x).
    - intros j Hj. rewrite (slock_of_insert _ _ _ _ _ Hs), decide_False; [done|congruence]. }
  split; [done|]. intros y.
  destruct (kcached_dec K y) as [(j & kj & Hj & Hc)|Hno].
  - rewrite (kval_cached _ _ _ _ _ _ HI Hj Hc). unfold K' in *.
    destruct (decide (i = j)) as [<-|Hij].
    + rewrite Hi in Hj. injection Hj as <-.
      assert (x = y) as <- by (destruct Hc; congruence).
      pose proof (list_lookup_insert_eq K i (Cbuf (k_flags k0) ROOTDEV x 1 (k_data k0))
        (lookup_lt_Some _ _ _ Hi)) as Hik.
      by rewrite (kval_cached _ _ _ _ _ x HI' Hik).
    + eapply (kval_cached _ _ _ j _ _ HI'); [|done]. by rewrite list_lookup_insert_ne.
  - rewrite (kval_uncached K) by done. apply kval_uncached. unfold K'.
    intros j kj Hj [Hd' Hb']. destruct (decide (i = j)) as [<-|Hij].
    + rewrite list_lookup_insert_eq in Hj by (by eapply lookup_lt_Some). injection Hj as <-.
      apply (Hno i k0 Hi). by split; [|cbn in Hb'; congruence].
    + rewrite list_lookup_insert_ne in Hj by done. by apply (Hno j kj).
Qed.

(** Recycling a buffer for an uncached block. *)
Lemma kinv_miss m m' K dk i k0 x :
  kinv m K dk -> K !! i = Some k0 -> k_refcnt k0 = 0 -> k_flags k0 <> 6 ->
  (forall j k', K !! j = Some k' -> ~ caches k' x) -> 0 <= x < disksize dk -> mquiet m m' ->
  slocks m' = <[SBuf i := Sleeplock 1 (default 0 (curpid m))]> (slocks m) ->
  let K' := <[i := Cbuf 2 ROOTDEV x 1 (dread dk x)]> K in
  kinv m' K' dk /\ (forall y, kval K' dk y = kval K dk y).
Proof.
  intros HI Hi Hr Hf Hno Hx Hmq Hs K'.
  assert (i < length K)%nat as Hlt by (by eapply lookup_lt_Some).
  assert (kinv m' K' dk) as HI'.
  { eapply kinv_insert; [done..| | |done| |apply HI|done|done].
    - split; cbn; [apply disk_ok_dread, HI| |right; split_and!; [done|by left|lia..]|done].
      right. split_and!; [done..|].
      by rewrite (slock_of_insert _ _ _ _ _ Hs), decide_True, (mrel_curpid _ _ (proj2 Hmq)).
    - cbn. intros j k' Hj Hk' Hdev _ E. by apply (Hno j k').
    - intros j Hj. rewrite (slock_of_insert _ _ _ _ _ Hs), decide_False; [done|congruence]. }
  split; [done|]. intros y. destruct (decide (y = x)) as [->|Hyx].
  { rewrite (kval_uncached K) by done.
    pose proof (list_lookup_insert_eq K i (Cbuf 2 ROOTDEV x 1 (dread dk x)) Hlt) as Hik.
    by rewrite (kval_cached _ _ _ _ _ x HI' Hik). }
  destruct (kcached_dec K y) as [(j & kj & Hj & Hc)|Hny].
  - destruct (decide (i = j)) as [<-|Hij].
    + rewrite Hi in Hj. injection Hj as <-. rewrite (kval_cached _ _ _ _ _ _ HI Hi Hc).
      destruct (ki_buf _ _ _ HI _ _ Hi) as [_ _ Hv Hcl]. destruct Hc as [Hcd <-].
      destruct Hv as [[? _]|(_ & Hf' & _)]; [done|].
      rewrite Hcl by (done || tauto). apply kval_uncached. unfold K'.
      intros j' k' Hj' [Hd' Hb']. destruct (decide (i = j')) as [<-|Hij'].
      * rewrite list_lookup_insert_eq in Hj' by done. injection Hj' as <-. by cbn in Hb'.
      * rewrite list_lookup_insert_ne in Hj' by done. apply Hij'.
        by eapply (ki_uniq _ _ _ HI i j' _ _ (k_blockno k0)).
    + rewrite (kval_cached _ _ _ _ _ _ HI Hj Hc).
      eapply (kval_cached _ _ _ j _ _ HI'); [|done]. unfold K'. by rewrite list_lookup_insert_ne.
  - rewrite (kval_uncached K) by done. apply kval_uncached. unfold K'.
    intros j kj Hj [Hd' Hb']. destruct (decide (i = j)) as [<-|Hij].
    + rewrite list_lookup_insert_eq in Hj by done. injection Hj as <-. by cbn in Hb'.
    + rewrite list_lookup_insert_ne in Hj by done. by apply (Hny j kj).
Qed.

Lemma inv_of_rep s m K dk : rep s m K dk -> kinv m K dk -> cv_inv bio_view s.
Proof. intros [<- <- <- ?] ?. by split. Qed.

Lemma bio_bread_spec s x : cv_inv bio_view s -> 0 <= x < disksize (cv_disk bio_view s) ->
  x ∉@{gset Z} map_img (cv_held bio_view s) ->
  (size ({[x]} ∪ cv_busy bio_view s) <= NBUF)%nat ->
  wp (bio_bread ROOTDEV x) (fun i s' =>
    cv_same bio_view s s' /\ cv_disk bio_view s' = cv_disk bio_view s /\
    cv_pinned bio_view s' = cv_pinned bio_view s /\
    cv_held bio_view s !! i = None /\ cv_held bio_view s' = <[i := x]> (cv_held bio_view s)) s.
Proof.
  intros Hinv Hx Hheld Hroom. pose proof (rep_self _ Hinv) as Hrep.
  destruct Hinv as [HI _]. cbn in Hx, Hheld.
  set (m := b_mach s) in *. set (K := cores (b_cache s)) in *. set (dk := b_disk s) in *.
  assert (forall i k0 k s' m', K !! i = Some k0 -> k_refcnt k0 = 0 -> k_refcnt k = 1 ->
    k_blockno k = x -> k_flags k = 6 <-> k_flags k0 = 6 ->
    (k_flags k = 6 -> k_blockno k = k_blockno k0) ->
    rep s' m' (<[i := k]> K) dk -> kmrel m m' ->
    kinv m' (<[i:=k]> K) dk /\ (forall y, kval (<[i:=k]> K) dk y = kval K dk y) ->
    cv_same bio_view s s' /\ cv_disk bio_view s' = cv_disk bio_view s /\
    cv_pinned bio_view s' = cv_pinned bio_view s /\
    cv_held bio_view s !! i = None /\
    cv_held bio_view s' = <[i := x]> (cv_held bio_view s)) as Hpost.
  { intros i k0 k s' m' Hi Hr0 Hr1 Hb Hf Hfb Hrep' Hmq [HI' Hval].
    pose proof (inv_of_rep _ _ _ _ Hrep' HI'). destruct Hrep' as [Hm' HK' Hd' _]. cbn.
    fold m K dk. rewrite HK', Hd'. split_and!.
    - split; [done|cbn; by rewrite Hm'|]. intros y. cbn. by rewrite HK', Hd', Hval.
    - done.
    - by eapply kpinned_keep.
    - rewrite lookup_kheld, Hi. cbn. rewrite decide_False; [done|lia].
    - rewrite kheld_insert by (by eapply lookup_lt_Some). by rewrite decide_True, Hb. }
  unfold bio_bread. wp_step. eapply wp_bget; [done..|].
  intros i k0 k s1 m1 Hi Hr0 Hcase Hrep1 Hmq Hs1. pose proof (kmrel_buf _ _ _ _ (proj2 Hmq) Hs1) as Hkm.
  assert (i < length K)%nat as Hlt by (by eapply lookup_lt_Some).
  wp_step. eapply wp_get_buf; [done|by apply list_lookup_insert_eq|]. intros b Hb.
  destruct Hcase as [[Hc ->]|(Hno & Hf0 & ->)]; injection Hb as Hf _ _ _ _; rewrite Hf.
  - destruct (kb_dev _ _ _ _ (ki_buf _ _ _ HI _ _ Hi)) as [[? _]|(_ & Hfl & _)];
      [by destruct Hc|].
    rewrite bool_decide_eq_false_2 by (destruct Hfl as [-> | ->]; done). unfold when. wp_steps.
    refine (Hpost i k0 _ _ _ Hi Hr0 _ _ _ _ Hrep1 Hkm _); [done..|by destruct Hc|].
    by eapply kinv_hit.
  - rewrite bool_decide_eq_true_2 by done. unfold when. wp_step.
    eapply wp_iderw_read; [done|apply Hmq|rewrite (mrel_curpid _ _ (proj2 Hmq)); apply HI| |
      by apply list_lookup_insert_eq|done|].
    { unfold mine. by rewrite (slock_of_insert _ _ _ _ _ Hs1), decide_True,
        (mrel_curpid _ _ (proj2 Hmq)). }
    intros s2 m2 Hrep2 Hmq2 Hs2. wp_steps. rewrite list_insert_insert_eq in Hrep2.
    assert (kmrel m m2) as Hkm2 by (etrans; [done|by apply kmrel_same; [apply Hmq2|]]).
    refine (Hpost i k0 _ _ _ Hi Hr0 _ _ _ _ Hrep2 Hkm2 _);
      [done|done|by cbn; split|done|].
    eapply kinv_miss; [done..|by eapply mquiet_trans|by rewrite Hs2].
Qed.

(** What the client sees after an operation on a buffer it holds. *)
Lemma held_post s s' i x f d f' r' d' m' dk' :
  cv_inv bio_view s -> cores (b_cache s) !! i = Some (Cbuf f ROOTDEV x 1 d) ->
  rep s' m' (<[i := Cbuf f' ROOTDEV x r' d']> (cores (b_cache s))) dk' ->
  kinv m' (<[i := Cbuf f' ROOTDEV x r' d']> (cores (b_cache s))) dk' ->
  (forall y, y <> x -> dread dk' y = dread (b_disk s) y) ->
  cv_inv bio_view s' /\ mach s' = m' /\ cv_disk bio_view s' = dk' /\
  (forall y, cv_val bio_view s' y = if decide (y = x) then d' else cv_val bio_view s y) /\
  cv_pinned bio_view s' =
    (if decide (f' = 6) then {[x]} ∪ cv_pinned bio_view s else cv_pinned bio_view s ∖ {[x]}) /\
  cv_held bio_view s' =
    (if decide (r' = 1) then cv_held bio_view s else delete i (cv_held bio_view s)).
Proof.
  intros [HI Hl] Hi Hrep HI' Hrd. pose proof (inv_of_rep _ _ _ _ Hrep HI') as Hinv.
  assert (i < length (cores (b_cache s)))%nat as Hlt by (by eapply lookup_lt_Some).
  destruct Hrep as [Hm HK Hd _]. split; [done|]. cbn. rewrite HK, Hd.
  split_and!; [done|done| | |].
  - intros y. destruct (decide (y = x)) as [->|Hne].
    + by rewrite (kval_cached _ _ _ _ _ x HI' (list_lookup_insert_eq _ _ _ Hlt)).
    + destruct (kcached_dec (cores (b_cache s)) y) as [(j & kj & Hj & Hc)|Hno].
      * rewrite (kval_cached _ _ _ _ _ _ HI Hj Hc).
        eapply (kval_cached _ _ _ j _ _ HI'); [|done]. rewrite list_lookup_insert_ne; [done|].
        intros <-. rewrite Hi in Hj. injection Hj as <-. by destruct Hc.
      * rewrite (kval_uncached (cores (b_cache s))), <- Hrd by done. apply kval_uncached.
        intros j kj Hj [Hd' Hb']. destruct (decide (i = j)) as [<-|Hij].
        -- rewrite list_lookup_insert_eq in Hj by done. injection Hj as <-. by cbn in Hb'.
        -- rewrite list_lookup_insert_ne in Hj by done. by apply (Hno j kj).
  - by eapply kpinned_insert.
  - rewrite kheld_insert by done. cbn. case_decide; [|done]. apply insert_id.
    by rewrite lookup_kheld, Hi.
Qed.

Lemma bio_bwrite_spec s i x : cv_inv bio_view s -> cv_held bio_view s !! i = Some x ->
  wp (bio_bwrite i) (fun _ s' =>
    cv_same bio_view s s' /\
    cv_disk bio_view s' = dwrite (cv_disk bio_view s) x (cv_val bio_view s x) /\
    cv_pinned bio_view s' = cv_pinned bio_view s ∖ {[x]} /\
    cv_held bio_view s' = cv_held bio_view s) s.
Proof.
  intros Hinv Hh. pose proof (rep_self _ Hinv) as Hrep. pose proof (proj1 Hinv) as HI.
  destruct (held_core _ _ _ _ _ HI Hh) as (f & d & Hi & Hf & Hx & Hm & Hd & Hv).
  assert (i < length (cores (b_cache s)))%nat as Hlt by (by eapply lookup_lt_Some).
  unfold bio_bwrite. wp_step. eapply wp_holding; [done|apply HI|apply HI|done|].
  intros s1 m1 Hrep1 Hmq1 Hs1. cbn [negb]. wp_step. eapply wp_get_buf; [done..|].
  intros b Hb. injection Hb as Hbf _ _ _ _. rewrite Hbf. wp_step.
  eapply (wp_upd_buf _ _ _ _ _ _ _ (Cbuf 6 ROOTDEV x 1 d)); [done..| |done|done|].
  { intros b' Hb'. unfold core in *. cbn. injection Hb' as E1 -> -> -> ->.
    by destruct Hf as [-> | ->]. }
  intros s2 Hrep2. eapply wp_iderw_write; [done|apply Hmq1| | |by apply list_lookup_insert_eq|done|].
  { rewrite (mrel_curpid _ _ (proj2 Hmq1)). apply HI. }
  { unfold mine in *. by rewrite (slock_of_same _ _ _ Hs1), (mrel_curpid _ _ (proj2 Hmq1)). }
  intros s3 m3 Hrep3 Hmq3 Hs3. rewrite list_insert_insert_eq in Hrep3.
  pose proof (mquiet_trans _ _ _ Hmq1 Hmq3) as Hmq.
  assert (slocks m3 = slocks (b_mach s)) as Hs by congruence.
  edestruct (held_post s s3) as (Hinv3 & Hm3 & Hd3 & Hval3 & Hp3 & Hh3); [done..| | |].
  - eapply kinv_held; [done..|by left|done| | |apply disk_ok_dwrite; [apply HI|done..]|done|].
    + intros j _. by apply slock_of_same.
    + left. split; [done|]. unfold mine in *.
      by rewrite (slock_of_same _ _ _ Hs), (mrel_curpid _ _ (proj2 Hmq)).
    + intros y Hy. by rewrite dread_dwrite, decide_False.
  - intros y Hy. by rewrite dread_dwrite, decide_False.
  - cbn in Hp3, Hh3. split_and!; [|by rewrite Hd3; cbn; rewrite Hv|done|done].
    split; [done|rewrite Hm3; apply kmrel_same; [apply Hmq|done]|]. intros y. rewrite Hval3.
    destruct (decide (y = x)) as [->|]; [by rewrite <- Hv|done].
Qed.

Lemma kpinned_self m K dk i f x r d :
  kinv m K dk -> K !! i = Some (Cbuf f ROOTDEV x r d) -> x ∈ kpinned K <-> f = 6.
Proof.
  intros HI Hi. rewrite elem_kpinned. split; [|intros ->; by exists i, (Cbuf 6 ROOTDEV x r d)].
  intros (j & k & Hj & Hf6 & Hb).
  assert (j = i) as ->; [|rewrite Hi in Hj; by injection Hj as <-].
  destruct (kb_dev _ _ _ _ (ki_buf _ _ _ HI _ _ Hj)) as [[_ ?]|(? & _)]; [lia|].
  by eapply (ki_uniq _ _ _ HI j i _ _ x).
Qed.

Lemma pinned_same m K dk i f x r d :
  kinv m K dk -> K !! i = Some (Cbuf f ROOTDEV x r d) -> f = 2 \/ f = 6 ->
  kpinned K = if decide (f = 6) then {[x]} ∪ kpinned K else kpinned K ∖ {[x]}.
Proof.
  intros HI Hi Hf. pose proof (kpinned_self _ _ _ _ _ _ _ _ HI Hi) as Hs.
  apply set_eq. intros y. destruct Hf as [-> | ->].
  - rewrite decide_False by done. rewrite elem_of_difference, elem_of_singleton.
    split; [|tauto]. intros Hy. split; [done|]. intros ->. by apply Hs in Hy.
  - rewrite decide_True by done. rewrite elem_of_union, elem_of_singleton.
    split; [tauto|]. intros [->|?]; [by apply Hs|done].
Qed.

Lemma bio_brelse_spec s i x : cv_inv bio_view s -> cv_held bio_view s !! i = Some x ->
  x ∈ cv_pinned bio_view s \/ cv_val bio_view s x = dread (cv_disk bio_view s) x ->
  wp (bio_brelse i) (fun _ s' =>
    cv_same bio_view s s' /\ cv_disk bio_view s' = cv_disk bio_view s /\
    cv_pinned bio_view s' = cv_pinned bio_view s /\
    cv_held bio_view s' = delete i (cv_held bio_view s)) s.
Proof.
  intros Hinv Hh Hclean. pose proof (rep_self _ Hinv) as Hrep. pose proof (proj1 Hinv) as HI.
  destruct (held_core _ _ _ _ _ HI Hh) as (f & d & Hi & Hf & Hx & Hm & Hd & Hv).
  assert (i < length (cores (b_cache s)))%nat as Hlt by (by eapply lookup_lt_Some).
  unfold bio_brelse. wp_step. eapply wp_holding; [done|apply HI|apply HI|done|].
  intros s1 m1 Hrep1 Hmq1 Hs1. cbn [negb]. wp_step. apply wp_onm.
  rewrite (rp_mach _ _ _ _ Hrep1). apply wp_releasesleep; [apply Hmq1|].
  intros m2 Hmq2 Hs2. wp_step. apply wp_onm. change (b_mach (set_mach m2 s1)) with m2.
  apply wp_acquire; [apply Hmq2|]. intros m3 Hh3 Hr3 Hs3 _.
  assert (rep (set_mach m3 (set_mach m2 s1)) m3 (cores (b_cache s)) (b_disk s)) as Hrep3
    by (by eapply rep_mach, rep_mach).
  wp_step. eapply wp_get_buf; [done..|]. intros b Hb. injection Hb as _ _ _ Hbr _.
  rewrite Hbr. change (u32 (1 - 1)) with 0. wp_step.
  eapply (wp_upd_buf _ _ _ _ _ _ _ (Cbuf f ROOTDEV x 0 d)); [done..| |done|done|].
  { core_eq. }
  intros s4 Hrep4. rewrite bool_decide_eq_true_2 by done. unfold when. wp_steps.
  set (s5 := set_cache _ s4).
  assert (rep s5 m3 (<[i := Cbuf f ROOTDEV x 0 d]> (cores (b_cache s))) (b_disk s)) as Hrep5.
  { destruct Hrep4 as [Hm4 HK4 Hd4 [l Hl]]. split; [done| |done|].
    - change (cores (move_front i (b_cache s4)) = <[i := Cbuf f ROOTDEV x 0 d]> (cores (b_cache s))).
      by rewrite cores_move_front.
    - assert (i ∈ l) as Hil.
      { apply (dll_in _ _ _ Hl). by rewrite <- (ki_len _ _ _ HI). }
      apply list_elem_of_split in Hil as (l1 & l2 & ->).
      exists (i :: l1 ++ l2). by apply dll_move_front. }
  apply wp_onm. rewrite (rp_mach _ _ _ _ Hrep5). apply wp_release; [done|].
  intros m6 Hmq6 Hs6 _. pose proof (rep_mach _ _ m6 _ _ Hrep5) as Hrep6.
  assert (mquiet (b_mach s) m6) as Hmq.
  { split; [apply Hmq6|]. etrans; [apply Hmq1|]. etrans; [apply Hmq2|].
    etrans; [exact Hr3|apply Hmq6]. }
  assert (slocks m6 = <[SBuf i := initsleeplock]> (slocks (b_mach s))) as Hs by congruence.
  edestruct (held_post s (set_mach m6 s5)) as (Hinv6 & Hm6 & Hd6 & Hval6 & Hp6 & Hh6);
    [done..| |done|].
  - eapply kinv_held; [done..| | |apply HI|done|done].
    + intros j Hj. rewrite (slock_of_insert _ _ _ _ _ Hs), decide_False; congruence.
    + right. rewrite (slock_of_insert _ _ _ _ _ Hs), decide_True by done.
      split_and!; [done..|]. intros ->. rewrite <- Hv. destruct Hclean as [Hp|?]; [|done].
      by apply (kpinned_self _ _ _ _ _ _ _ _ HI Hi) in Hp.
  - cbn in Hh6. split_and!; [|done| |done].
    + split; [done|rewrite Hm6; eapply kmrel_buf; [apply Hmq|done]|]. intros y. rewrite Hval6.
      destruct (decide (y = x)) as [->|]; [by rewrite <- Hv|done].
    + rewrite Hp6. symmetry. by eapply pinned_same.
Qed.

Lemma bio_bset_spec s i x d' : cv_inv bio_view s -> cv_held bio_view s !! i = Some x ->
  block_ok d' ->
  wp (upd_buf i (set_data d')) (fun _ s' =>
    cv_inv bio_view s' /\ mach s' = mach s /\
    (forall y, cv_val bio_view s' y = if decide (y = x) then d' else cv_val bio_view s y) /\
    cv_disk bio_view s' = cv_disk bio_view s /\
    cv_pinned bio_view s' = cv_pinned bio_view s /\
    cv_held bio_view s' = cv_held bio_view s) s.
Proof.
  intros Hinv Hh Hd'. pose proof (rep_self _ Hinv) as Hrep. pose proof (proj1 Hinv) as HI.
  destruct (held_core _ _ _ _ _ HI Hh) as (f & d & Hi & Hf & Hx & Hm & Hd & Hv).
  eapply (wp_upd_buf _ _ _ _ _ _ _ (Cbuf f ROOTDEV x 1 d')); [done..|core_eq|done|done|].
  intros s1 Hrep1.
  edestruct (held_post s s1) as (Hinv1 & Hm1 & Hd1 & Hval1 & Hp1 & Hh1); [done..| |done|].
  - eapply kinv_held; [done..|by split; [apply HI|]|done|by left|apply HI|done|done].
  - split_and!; try done. rewrite Hp1. symmetry. by eapply pinned_same.
Qed.

Lemma bio_bpin_spec s i x : cv_inv bio_view s -> cv_held bio_view s !! i = Some x ->
  wp (bpin i) (fun _ s' =>
    cv_same bio_view s s' /\ mach s' = mach s /\ cv_disk bio_view s' = cv_disk bio_view s /\
    cv_pinned bio_view s' = {[x]} ∪ cv_pinned bio_view s /\
    cv_held bio_view s' = cv_held bio_view s) s.
Proof.
  intros Hinv Hh. pose proof (rep_self _ Hinv) as Hrep. pose proof (proj1 Hinv) as HI.
  destruct (held_core _ _ _ _ _ HI Hh) as (f & d & Hi & Hf & Hx & Hm & Hd & Hv).
  unfold bpin, bio_cache. wp_step. eapply wp_get_buf; [done..|].
  intros b Hb. injection Hb as Hbf _ _ _ _. rewrite Hbf.
  assert (Z.lor f B_DIRTY = 6) as -> by (by destruct Hf as [-> | ->]).
  eapply (wp_upd_buf _ _ _ _ _ _ _ (Cbuf 6 ROOTDEV x 1 d)); [done..|core_eq|done|done|].
  intros s1 Hrep1.
  edestruct (held_post s s1) as (Hinv1 & Hm1 & Hd1 & Hval1 & Hp1 & Hh1); [done..| |done|].
  - eapply kinv_held; [done..|by right|by split; [apply HI|]|done|by left|apply HI|done|done].
  - split_and!; try done. split; [done|by rewrite Hm1|]. intros y. rewrite Hval1.
    destruct (decide (y = x)) as [->|]; [by rewrite <- Hv|done].
Qed.
End interface.

Section laws.
Implicit Types (s : bstate) (m : machine) (K : list cbuf) (dk : disk) (k : cbuf).

Lemma kval_ok m K dk x : kinv m K dk -> block_ok (kval K dk x).
Proof.
  intros HI. destruct (kcached_dec K x) as [(i & k & Hi & Hc)|Hno].
  - rewrite (kval_cached _ _ _ _ _ _ HI Hi Hc). apply (ki_buf _ _ _ HI _ _ Hi).
  - rewrite kval_uncached by done. apply disk_ok_dread, HI.
Qed.

Lemma kval_clean m K dk x :
  kinv m K dk -> x ∉ kpinned K ∪ map_img (kheld K) -> kval K dk x = dread dk x.
Proof.
  intros HI Hx. destruct (kcached_dec K x) as [(i & k & Hi & Hc)|Hno];
    [|by apply kval_uncached].
  rewrite (kval_cached _ _ _ _ _ _ HI Hi Hc). rewrite not_elem_of_union in Hx.
  destruct Hx as [Hp Hh]. destruct Hc as [Hd Hb].
  destruct (ki_buf _ _ _ HI _ _ Hi) as [_ Hl Hv Hcl]. rewrite <- Hb. apply Hcl; [done|..].
  - destruct Hl as [[? _]|(? & _)]; [done|]. destruct Hh. apply elem_kheld. eauto.
  - destruct Hv as [[? _]|(_ & [?|?] & _)]; [done..|]. destruct Hp. apply elem_kpinned. eauto.
Qed.

Lemma bio_bc_mach s m : cv_inv bio_view s -> mquiet (b_mach s) m ->
  (forall i, slock_of m (SBuf i) = slock_of (b_mach s) (SBuf i)) ->
  cv_inv bio_view (set_mach m s).
Proof.
  intros [HI Hl] [Hq Hrel] Hs. split; [|done]. cbn. pose proof (mrel_curpid _ _ Hrel) as Hp.
  destruct HI as [_ Hpid Hdk Hlen Hbuf Huniq]. split; try done; [by rewrite Hp|].
  intros i k Hi. destruct (Hbuf i k Hi) as [H1 H2 H3 H4]. split; try done.
  by rewrite Hs, Hp.
Qed.

Lemma bio_bc_held s i x : cv_inv bio_view s -> cv_held bio_view s !! i = Some x ->
  bdata s i = cv_val bio_view s x /\ bblockno s i = x.
Proof.
  intros [HI _] Hh. destruct (held_core _ _ _ _ _ HI Hh) as (f & d & Hi & _ & _ & _ & _ & Hv).
  cbn. rewrite Hv. unfold cores in Hi. rewrite list_lookup_fmap in Hi.
  apply fmap_Some in Hi as (b & -> & Hb). by injection Hb as _ _ -> _ ->.
Qed.

Lemma bio_bpin_mach s m i (Q : bstate -> Prop) :
  wp (bpin i) (fun _ s' => Q (set_mach m s')) s -> wp (bpin i) (fun _ s' => Q s') (set_mach m s).
Proof.
  unfold wp, bpin, bio_cache, mbind, M_bind, get_buf, mbind, M_bind, get. cbn.
  by destruct (bufs (b_cache s) !! i).
Qed.
End laws.

(** The buffer cache implements the interface. *)
#[export] Instance bio_spec : BlockCacheSpec bstate.
Proof.
  refine {| bc := bio_view |}.
  - intros s [HI _]. split; apply HI.
  - intros s [HI _]. apply HI.
  - intros s b [HI _]. by eapply kval_ok.
  - intros s b [HI _]. by eapply kval_clean.
  - apply bio_bc_mach.
  - done.
  - apply bio_bc_held.
  - apply bio_bread_spec.
  - apply bio_bwrite_spec.
  - apply bio_brelse_spec.
  - apply bio_bset_spec.
  - apply bio_bpin_spec.
  - apply bio_bpin_mach.
Defined.

(** ** The state after [binit] *)

Lemma cores_binit : cores binit = replicate NBUF (core bss_buf).
Proof. vm_compute. reflexivity. Qed.

Lemma binit_inv m dk :
  quiet m -> is_Some (curpid m) -> disk_ok dk ->
  (forall i, slocked (slock_of m (SBuf i)) = 0) ->
  cv_inv bio_view (Bstate m binit dk).
Proof.
  intros Hq Hp Hdk Hs. split; [|eexists; apply binit_dll]. cbn [b_mach b_cache b_disk].
  rewrite cores_binit.
  split; [done..|by rewrite length_replicate| |].
  - intros i k [-> _]%lookup_replicate. split; [|left|left|]; try done.
    apply zero_block_ok.
  - intros i j k k' x [-> _]%lookup_replicate _ [? _]. done.
Qed.
