(* ===== verification/Journal.v ===== *)
(** * The interface of the log

    What [log.c] offers to the file system: transactions ([begin_op],
    [end_op], [log_write]) on top of the buffers of the cache.  [Journal]
    lists the operations, [JournalSpec] what they promise in terms of the
    content of blocks ([jv_val]) and of the content that would survive a crash
    now ([jv_old]).  [LogSpec] proves the promise for the code; the file
    system relies only on it. *)

From S2P Require Import Prelude Bytes Params Machine BlockCache.
Local Open Scope Z_scope.

Class Journal (T : Type) `{HasMachine T} := {
  jread : Z -> Z -> M T nat;
  jrelse : nat -> M T unit;
  jdata : T -> nat -> list Z;
  jset : nat -> list Z -> M T unit;
  jbegin : M T unit;
  jend : M T unit;
  jwrite : nat -> M T unit
}.

(** Where the log is on the disk: its first block, its size, and the size of
    the disk. *)
Record geometry := Geometry { g_start : Z; g_size : Z; g_disk : Z }.

(** The blocks outside the log area. *)
Definition outside (start size dsz b : Z) : Prop :=
  0 <= b < dsz /\ ~ (start <= b < start + size).

(** The view of the file system: the place of the blocks outside the log, their content in
    memory and as committed, the blocks the current transaction has written
    and how many it may write, the number of system calls in it, and the
    buffers that are locked. *)
Record journal_view (T : Type) := JournalView {
  jv_inv : T -> Prop;
  jv_geom : T -> geometry;
  jv_val : T -> Z -> list Z;
  jv_old : T -> Z -> list Z;
  jv_logged : T -> gset Z;
  jv_cap : T -> nat;
  jv_open : T -> Z;
  jv_held : T -> gmap nat Z
}.
Arguments jv_inv {T}. Arguments jv_geom {T}. Arguments jv_val {T}. Arguments jv_old {T}.
Arguments jv_logged {T}. Arguments jv_cap {T}. Arguments jv_open {T}. Arguments jv_held {T}.

Definition jv_dom {T} (V : journal_view T) (s : T) (b : Z) : Prop :=
  outside (g_start (jv_geom V s)) (g_size (jv_geom V s)) (g_disk (jv_geom V s)) b.

(** What no operation changes. *)
Record jv_keep {T} `{HasMachine T} (V : journal_view T) (s s' : T) : Prop := {
  jk_inv : jv_inv V s';
  jk_mach : kmrel (mach s) (mach s');
  jk_geom : jv_geom V s' = jv_geom V s;
  jk_cap : jv_cap V s' = jv_cap V s
}.

Lemma jk_dom {T} `{HasMachine T} (V : journal_view T) (s s' : T) :
  jv_keep V s s' -> jv_dom V s' = jv_dom V s.
Proof. intros Hk. unfold jv_dom. by rewrite (jk_geom _ _ _ Hk). Qed.

(** An operation that only locks or releases buffers. *)
Record jv_same {T} `{HasMachine T} (V : journal_view T) (s s' : T) : Prop := {
  js_keep : jv_keep V s s';
  js_val : forall b, jv_val V s' b = jv_val V s b;
  js_old : forall b, jv_old V s' b = jv_old V s b;
  js_logged : jv_logged V s' = jv_logged V s;
  js_open : jv_open V s' = jv_open V s
}.

Class JournalSpec (T : Type) `{Journal T} := {
  jv : journal_view T;
  jv_quiet s : jv_inv jv s -> quiet (mach s) /\ is_Some (curpid (mach s));
  jv_val_ok s b : jv_inv jv s -> block_ok (jv_val jv s b);
  jv_mach s m : jv_inv jv s -> mquiet (mach s) m ->
    (forall i, slock_of m (SBuf i) = slock_of (mach s) (SBuf i)) -> jv_inv jv (set_mach m s);
  jv_view_mach s m : jv_geom jv (set_mach m s) = jv_geom jv s /\
    jv_val jv (set_mach m s) = jv_val jv s /\ jv_old jv (set_mach m s) = jv_old jv s /\
    jv_logged jv (set_mach m s) = jv_logged jv s /\ jv_cap jv (set_mach m s) = jv_cap jv s /\
    jv_open jv (set_mach m s) = jv_open jv s /\ jv_held jv (set_mach m s) = jv_held jv s /\
    jdata (set_mach m s) = jdata s;
  jv_locked s i b : jv_inv jv s -> jv_held jv s !! i = Some b -> jdata s i = jv_val jv s b;

  (** A block that is neither in the transaction nor locked is as committed. *)
  jv_clean s b : jv_inv jv s -> b ∉ jv_logged jv s -> b ∉@{gset Z} map_img (jv_held jv s) ->
    jv_val jv s b = jv_old jv s b;

  jread_spec s b : jv_inv jv s -> jv_dom jv s b ->
    b ∉@{gset Z} map_img (jv_held jv s) ->
    (size (jv_logged jv s) + size (jv_held jv s) < NBUF)%nat ->
    wp (jread ROOTDEV b) (fun i s' =>
      jv_same jv s s' /\ jv_held jv s !! i = None /\
      jv_held jv s' = <[i := b]> (jv_held jv s)) s;
  jrelse_spec s i b : jv_inv jv s -> jv_held jv s !! i = Some b ->
    b ∈ jv_logged jv s \/ jv_val jv s b = jv_old jv s b ->
    wp (jrelse i) (fun _ s' =>
      jv_same jv s s' /\ jv_held jv s' = delete i (jv_held jv s)) s;
  jset_spec s i b d : jv_inv jv s -> jv_held jv s !! i = Some b -> block_ok d ->
    wp (jset i d) (fun _ s' =>
      jv_keep jv s s' /\
      (forall b', jv_val jv s' b' = if decide (b' = b) then d else jv_val jv s b') /\
      (forall b', jv_old jv s' b' = jv_old jv s b') /\
      jv_logged jv s' = jv_logged jv s /\ jv_open jv s' = jv_open jv s /\
      jv_held jv s' = jv_held jv s) s;
  jwrite_spec s i b : jv_inv jv s -> jv_held jv s !! i = Some b -> 1 <= jv_open jv s ->
    (size (jv_logged jv s) < jv_cap jv s)%nat ->
    wp (jwrite i) (fun _ s' =>
      jv_keep jv s s' /\ (forall b', jv_val jv s' b' = jv_val jv s b') /\
      (forall b', jv_old jv s' b' = jv_old jv s b') /\
      jv_logged jv s' = {[b]} ∪ jv_logged jv s /\ jv_open jv s' = jv_open jv s /\
      jv_held jv s' = jv_held jv s) s;
  jbegin_spec s : jv_inv jv s ->
    Z.of_nat (size (jv_logged jv s)) + (jv_open jv s + 1) * MAXOPBLOCKS <= Z.of_nat LOGSIZE ->
    wp jbegin (fun _ s' =>
      jv_keep jv s s' /\ (forall b, jv_val jv s' b = jv_val jv s b) /\
      (forall b, jv_old jv s' b = jv_old jv s b) /\
      jv_logged jv s' = jv_logged jv s /\ jv_open jv s' = jv_open jv s + 1 /\
      jv_held jv s' = jv_held jv s) s;
  (** The last [end_op] commits. *)
  jend_spec s : jv_inv jv s -> jv_open jv s = 1 -> jv_held jv s = ∅ ->
    wp jend (fun _ s' =>
      jv_keep jv s s' /\
      (forall b, jv_dom jv s b -> jv_val jv s' b = jv_val jv s b) /\
      (forall b, jv_dom jv s b -> jv_old jv s' b = jv_val jv s b) /\
      jv_logged jv s' = ∅ /\ jv_open jv s' = 0 /\ jv_held jv s' = ∅) s
}.
