(* ===== verification/Log.v ===== *)
(** * The log

    [log.c]: a transaction is collected in memory by [log_write], written to
    the log area of the disk by [write_log], committed by the write of the
    header block in [write_head], copied to its place by [install_trans] and
    erased from the log by a second [write_head].  The functions are written
    against the interface [BlockCache] of the buffer cache; [readsb] of [fs.c],
    which [initlog] calls, is here too. *)

From S2P Require Import Prelude Bytes Params Machine BlockCache.
Local Open Scope Z_scope.

(** ** Data *)

Record logheader := Logheader { lh_n : Z; lh_block : list Z }.

Record log := Log {
  l_start : Z;
  l_size : Z;
  l_outstanding : Z;
  l_committing : Z;
  l_dev : Z;
  l_lh : logheader
}.

(** The kernel below the file system: the log and the layer of the cache. *)
Record lstate (S : Type) := Lstate { l_log : log; l_sub : S }.
Arguments Lstate {S}. Arguments l_log {S}. Arguments l_sub {S}.

Definition set_outstanding (o : Z) (l : log) : log :=
  Log (l_start l) (l_size l) o (l_committing l) (l_dev l) (l_lh l).
Definition set_committing (c : Z) (l : log) : log :=
  Log (l_start l) (l_size l) (l_outstanding l) c (l_dev l) (l_lh l).
Definition set_lh (h : logheader) (l : log) : log :=
  Log (l_start l) (l_size l) (l_outstanding l) (l_committing l) (l_dev l) h.
Definition set_lh_n (n : Z) (l : log) : log := set_lh (Logheader n (lh_block (l_lh l))) l.

Lemma lstate_mach_id {S} `{HasMachine S} (s : lstate S) :
  Lstate (l_log s) (set_mach (mach (l_sub s)) (l_sub s)) = s.
Proof. destruct s. cbn. by rewrite set_mach_id. Qed.
Lemma lstate_mach_set {S} `{HasMachine S} m (s : lstate S) :
  mach (set_mach m (l_sub s)) = m.
Proof. apply mach_set. Qed.
Lemma lstate_mach_set_set {S} `{HasMachine S} m m' (s : lstate S) :
  Lstate (l_log s) (set_mach m (set_mach m' (l_sub s))) =
  Lstate (l_log s) (set_mach m (l_sub s)).
Proof. by rewrite set_mach_set. Qed.

#[export] Instance lstate_machine {S} `{HasMachine S} : HasMachine (lstate S) := {|
  mach s := mach (l_sub s);
  set_mach m s := Lstate (l_log s) (set_mach m (l_sub s));
  mach_set := lstate_mach_set;
  set_mach_set := lstate_mach_set_set;
  set_mach_id := lstate_mach_id
|}.

Section log.
Context {S : Type} `{BlockCache S}.

(** A call of the cache, and an update of [log]. *)
Definition sub {A} (m : M S A) : M (lstate S) A :=
  zoom l_sub (fun t s => Lstate (l_log s) t) m.
Definition upd_log (f : log -> log) : M (lstate S) unit :=
  modify (fun s => Lstate (f (l_log s)) (l_sub s)).

(** [log.lh.block[i]] and the assignment to it; the array has [LOGSIZE]
    elements. *)
Definition get_block (i : Z) : M (lstate S) Z :=
  lg ← gets l_log;
  if i <z 0 then fault "log.lh.block" else
  of_option "log.lh.block" (lh_block (l_lh lg) !! Z.to_nat i).
Definition put_block (i v : Z) : M (lstate S) unit :=
  _ ← get_block i;
  upd_log (fun l => set_lh (Logheader (lh_n (l_lh l))
                             (<[Z.to_nat i := s32 v]> (lh_block (l_lh l)))) l).

(** The fields of a header block: [n] at offset 0, then [block[]]. *)
Definition hdr_n (d : list Z) : Z := s32 (get32 d 0).
Definition hdr_block (d : list Z) (i : Z) : Z := s32 (get32 d (Z.to_nat (4 + 4 * i))).

(** Copy committed blocks from the log to their home location. *)
Definition install_block (tail : Z) : M (lstate S) unit :=
  lg ← gets l_log;
  lbuf ← sub (bread (u32 (l_dev lg)) (u32 (l_start lg + tail + 1)));
  blk ← get_block tail;
  dbuf ← sub (bread (u32 (l_dev lg)) (u32 blk));
  d ← gets (fun s => bdata (l_sub s) lbuf);
  sub (bset dbuf d) ;;
  sub (bwrite dbuf) ;;
  sub (brelse lbuf) ;;
  sub (brelse dbuf).
Definition install_trans : M (lstate S) unit :=
  n ← gets (fun s => lh_n (l_lh (l_log s)));
  for_loop (Z.to_nat n) 0 install_block.

(** Read the log header from disk into the in-memory log header. *)
Definition read_head : M (lstate S) unit :=
  lg ← gets l_log;
  buf ← sub (bread (u32 (l_dev lg)) (u32 (l_start lg)));
  d ← gets (fun s => bdata (l_sub s) buf);
  upd_log (set_lh_n (hdr_n d)) ;;
  for_loop (Z.to_nat (hdr_n d)) 0 (fun i =>
    if Z.of_nat BSIZE <z 4 + 4 * i + 4 then fault "lh->block" else
    put_block i (hdr_block d i)) ;;
  sub (brelse buf).

(** Write the in-memory log header to disk. *)
Definition write_head_block (buf : nat) (i : Z) : M (lstate S) unit :=
  blk ← get_block i;
  d ← gets (fun s => bdata (l_sub s) buf);
  sub (bset buf (set32 d (Z.to_nat (4 + 4 * i)) blk)).
Definition write_head : M (lstate S) unit :=
  lg ← gets l_log;
  buf ← sub (bread (u32 (l_dev lg)) (u32 (l_start lg)));
  d ← gets (fun s => bdata (l_sub s) buf);
  sub (bset buf (set32 d 0 (lh_n (l_lh lg)))) ;;
  for_loop (Z.to_nat (lh_n (l_lh lg))) 0 (write_head_block buf) ;;
  sub (bwrite buf) ;;
  sub (brelse buf).

Definition recover_from_log : M (lstate S) unit :=
  read_head ;;
  install_trans ;;
  upd_log (set_lh_n 0) ;;
  write_head.

(** [readsb] of [fs.c]: the superblock is in block 1. *)
Definition sb_of (d : list Z) : superblock :=
  Superblock (get32 d 0) (get32 d 4) (get32 d 8) (get32 d 12) (get32 d 16)
             (get32 d 20) (get32 d 24).
Definition readsb (dev : Z) : M (lstate S) superblock :=
  bp ← sub (bread (u32 dev) 1);
  d ← gets (fun s => bdata (l_sub s) bp);
  sub (brelse bp) ;;
  mret (sb_of d).

Definition initlog (dev : Z) : M (lstate S) unit :=
  if Z.of_nat BSIZE <=z 4 + 4 * Z.of_nat LOGSIZE
  then panic "initlog: too big logheader" else
  onm (modify (set_lock LLog initlock)) ;;
  sb ← readsb dev;
  upd_log (fun l => Log (s32 (sb_logstart sb)) (s32 (sb_nlog sb)) (l_outstanding l)
                        (l_committing l) dev (l_lh l)) ;;
  recover_from_log.

(** Called at the start of each FS system call.  [sleep] does not return
    here: a process that is woken runs the loop again. *)
Definition begin_op : M (lstate S) unit :=
  onm (acquire LLog) ;;
  lg ← gets l_log;
  if c_bool (l_committing lg) then onm (sleep ChLog (Some LLog))
  else if Z.of_nat LOGSIZE <z lh_n (l_lh lg) + (l_outstanding lg + 1) * MAXOPBLOCKS
  then onm (sleep ChLog (Some LLog))
  else
    upd_log (set_outstanding (l_outstanding lg + 1)) ;;
    onm (release LLog).

(** Copy modified blocks from cache to log. *)
Definition write_log_block (tail : Z) : M (lstate S) unit :=
  lg ← gets l_log;
  to ← sub (bread (u32 (l_dev lg)) (u32 (l_start lg + tail + 1)));
  blk ← get_block tail;
  from ← sub (bread (u32 (l_dev lg)) (u32 blk));
  d ← gets (fun s => bdata (l_sub s) from);
  sub (bset to d) ;;
  sub (bwrite to) ;;
  sub (brelse from) ;;
  sub (brelse to).
Definition write_log : M (lstate S) unit :=
  n ← gets (fun s => lh_n (l_lh (l_log s)));
  for_loop (Z.to_nat n) 0 write_log_block.

Definition commit : M (lstate S) unit :=
  n ← gets (fun s => lh_n (l_lh (l_log s)));
  when (0 <z n)
    (write_log ;;
     write_head ;;
     install_trans ;;
     upd_log (set_lh_n 0) ;;
     write_head).

(** Called at the end of each FS system call; commits if this was the last
    outstanding operation. *)
Definition end_op : M (lstate S) unit :=
  onm (acquire LLog) ;;
  upd_log (fun l => set_outstanding (l_outstanding l - 1) l) ;;
  lg ← gets l_log;
  if c_bool (l_committing lg) then panic "log.committing" else
  let do_commit := l_outstanding lg =z 0 in
  (if do_commit then upd_log (set_committing 1) else onm (wakeup ChLog)) ;;
  onm (release LLog) ;;
  when do_commit
    (commit ;;
     onm (acquire LLog) ;;
     upd_log (set_committing 0) ;;
     onm (wakeup ChLog) ;;
     onm (release LLog)).

(** The caller has modified [b->data]: record the block number and pin the
    buffer in the cache. *)
Definition log_write (b : nat) : M (lstate S) unit :=
  lg ← gets l_log;
  let n := lh_n (l_lh lg) in
  if (Z.of_nat LOGSIZE <=z n) || (l_size lg - 1 <=z n)
  then panic "too big a transaction" else
  if l_outstanding lg <z 1 then panic "log_write outside of trans" else
  onm (acquire LLog) ;;
  blockno ← gets (fun s => bblockno (l_sub s) b);
  r ← for_find (Z.to_nat n) 0 (fun i =>
    blk ← get_block i;
    mret (if u32 blk =z blockno then Some i else None));
  let i := default (Z.max 0 n) r in
  put_block i blockno ;;
  when (i =z n) (upd_log (set_lh_n (n + 1))) ;;
  sub (bpin b) ;;
  onm (release LLog).
End log.
