(* ===== verification/LogSpec.v ===== *)
(** * Correctness of the log

    Total correctness of every function of [log.c] over the interface of the
    cache, and crash safety: at every point of the sequence of disk writes
    that a commit makes, recovery ([recover_from_log]) finds either the
    content before the transaction or the content after it. *)

From S2P Require Import Prelude Bytes Params Machine BlockCache Journal Log.
Local Open Scope Z_scope.

(** ** Crash states

    A disk is in one of the states between [dk] and [dk'] when it has
    received some of the writes that lead from [dk] to [dk'], in order. *)

Record disk_le (dk dk' : disk) : Prop := {
  le_size : disksize dk' = disksize dk;
  le_image : image dk' = image dk;
  le_writes : exists ws, writes dk' = ws ++ writes dk
}.

Definition always (P : disk -> Prop) (dk dk' : disk) : Prop :=
  forall dkc, disk_le dk dkc -> disk_le dkc dk' -> P dkc.

Section crash.
Implicit Types (dk : disk) (P : disk -> Prop).

#[global] Instance disk_le_preorder : PreOrder disk_le.
Proof.
  split; [intros dk; split; try done; by exists []|].
  intros d1 d2 d3 [H1 H2 [w1 H3]] [H4 H5 [w2 H6]]. split; [congruence..|].
  exists (w2 ++ w1). by rewrite H6, H3, app_assoc.
Qed.

Lemma disk_le_dwrite dk b d : disk_le dk (dwrite dk b d).
Proof. split; try done. by exists [(b, d)]. Qed.

Lemma disk_eq dk dk' :
  disksize dk' = disksize dk -> image dk' = image dk -> writes dk' = writes dk -> dk' = dk.
Proof. destruct dk, dk'; cbn. congruence. Qed.

Lemma disk_le_antisym dk dk' : disk_le dk dk' -> disk_le dk' dk -> dk' = dk.
Proof.
  intros [H1 H2 [w1 H3]] [_ _ [w2 H6]]. apply disk_eq; [done..|].
  assert (length w1 = 0%nat) as Hl.
  { apply (f_equal length) in H3, H6. rewrite length_app in H3, H6. lia. }
  by apply nil_length_inv in Hl as ->.
Qed.

Lemma disk_le_dwrite_inv dk dk' b d :
  disk_le dk (dwrite dk' b d) -> dk = dwrite dk' b d \/ disk_le dk dk'.
Proof.
  intros [H1 H2 [[|w ws] H3]].
  - left. by apply disk_eq.
  - right. cbn in *. injection H3 as _ H3. split; [done..|]. by exists ws.
Qed.

Lemma always_refl P dk : P dk -> always P dk dk.
Proof. intros HP dkc H1 H2. by rewrite (disk_le_antisym _ _ H1 H2). Qed.

Lemma always_dwrite P dk dk' b d :
  always P dk dk' -> P (dwrite dk' b d) -> always P dk (dwrite dk' b d).
Proof.
  intros Ha HP dkc H1 [->|H2]%disk_le_dwrite_inv; [done|by apply Ha].
Qed.

(** The states between [dk] and [dk'] and those after, when [dk'] is one of
    the former. *)
Lemma always_trans P dk dk' dk'' :
  disk_le dk dk' -> disk_le dk' dk'' ->
  always P dk dk' -> always P dk' dk'' -> always P dk dk''.
Proof.
  intros H01 H12 Ha Hb dkc H1 H2.
  assert (disk_le dkc dk' \/ disk_le dk' dkc) as [H|H]; [|by apply Ha|by apply Hb].
  destruct H1 as [Hs1 Hi1 _], H2 as [_ _ [w2 Hw2]], H12 as [_ _ [w12 Hw12]].
  destruct H01 as [Hs01 Hi01 _]. rewrite Hw12 in Hw2. symmetry in Hw2.
  apply app_eq_inv in Hw2 as [(k & -> & Hk)|(k & -> & Hk)].
  - left. split; [congruence..|]. by exists k.
  - right. split; [congruence..|]. by exists k.
Qed.
End crash.

(** ** The log on disk *)

(** The block numbers that a header block lists. *)
Definition hdr_list (d : list Z) : list Z :=
  (fun i => hdr_block d (Z.of_nat i)) <$> seq 0 (Z.to_nat (hdr_n d)).

(** The position of a block in the list of a header. *)
Definition pos (l : list Z) (b : Z) : option nat := fst <$> list_find (fun x => x = b) l.

(** The content of a block once the log found on disk is installed. *)
Definition recovered (start : Z) (dk : disk) (b : Z) : list Z :=
  match pos (hdr_list (dread dk start)) b with
  | Some i => dread dk (start + 1 + Z.of_nat i)
  | None => dread dk b
  end.

(** A log that recovery can install. *)
Record log_ok (start size dsz : Z) (l : list Z) : Prop := {
  lo_start : 0 <= start;
  lo_end : start + size <= dsz;
  lo_dsz : dsz < 2 ^ 31;
  lo_size : Z.of_nat (length l) < size;
  lo_cap : (length l <= LOGSIZE)%nat;
  lo_nodup : NoDup l;
  lo_out : Forall (outside start size dsz) l
}.

Section ondisk.
Implicit Types (l : list Z) (d : list Z).

Lemma pos_Some l b i : NoDup l -> pos l b = Some i <-> l !! i = Some b.
Proof.
  intros Hnd. unfold pos. split.
  - intros H. apply fmap_Some in H as ([j x] & Hf & ->).
    by apply list_find_Some in Hf as (Hj & -> & _).
  - intros Hi. apply fmap_Some. exists (i, b). split; [|done].
    apply list_find_Some. split_and!; [done..|]. intros j y Hj Hlt ->.
    assert (i = j) as -> by (by eapply NoDup_lookup). lia.
Qed.

Lemma pos_None l b : pos l b = None <-> b ∉ l.
Proof.
  unfold pos. rewrite fmap_None, list_find_None, Forall_forall. split.
  - intros Hf Hb. by destruct (Hf b).
  - intros Hb x Hx ->. done.
Qed.

Lemma pos_cases l b : (exists i, pos l b = Some i /\ l !! i = Some b) \/
  (pos l b = None /\ b ∉ l).
Proof.
  destruct (pos l b) as [i|] eqn:E; [left|right; by apply pos_None in E].
  exists i. split; [done|]. unfold pos in E. apply fmap_Some in E as ([j x] & Hf & ->).
  by apply list_find_Some in Hf as (Hj & -> & _).
Qed.

Lemma length_hdr_list d : length (hdr_list d) = Z.to_nat (hdr_n d).
Proof. unfold hdr_list. by rewrite length_fmap, length_seq. Qed.

(** A header is given by its fields. *)
Lemma hdr_list_eq d l :
  hdr_n d = Z.of_nat (length l) ->
  (forall i b, l !! i = Some b -> hdr_block d (Z.of_nat i) = b) -> hdr_list d = l.
Proof.
  intros Hn Hb. unfold hdr_list. rewrite Hn, Nat2Z.id. apply list_eq. intros i.
  rewrite list_lookup_fmap. destruct (l !! i) as [b|] eqn:E.
  - rewrite lookup_seq_lt by (by eapply lookup_lt_Some). cbn. by rewrite (Hb i b).
  - apply lookup_ge_None in E. by rewrite lookup_seq_ge.
Qed.

Lemma hdr_list_nil d : hdr_n d = 0 -> hdr_list d = [].
Proof. intros Hn. unfold hdr_list. by rewrite Hn. Qed.

Lemma recovered_empty start dk b : hdr_n (dread dk start) = 0 -> recovered start dk b = dread dk b.
Proof. intros Hn. unfold recovered. by rewrite (hdr_list_nil _ Hn). Qed.

Lemma outside_ne start size dsz l b :
  log_ok start size dsz l -> b ∈ l -> b <> start /\ forall i, (i < length l)%nat ->
  b <> start + 1 + Z.of_nat i.
Proof.
  intros [] Hb. rewrite Forall_forall in lo_out0. destruct (lo_out0 b Hb) as [? Hn].
  split; [lia|intros; lia].
Qed.
End ondisk.

(** ** The state of the log layer *)

Section ops.
Context {S : Type} `{BlockCacheSpec S}.
Implicit Types (s : lstate S) (lg : log) (dk : disk) (v : Z -> list Z)
  (p : gset Z) (h : gmap nat Z) (m : machine).

(** [s] seen as the log [lg] over a cache with the given disk, block
    contents, pinned blocks and locked buffers; the machine descends from [m]. *)
Record lrep s lg dk v p h m : Prop := {
  lr_log : l_log s = lg;
  lr_inv : cv_inv bc (l_sub s);
  lr_disk : cv_disk bc (l_sub s) = dk;
  lr_val : forall b, cv_val bc (l_sub s) b = v b;
  lr_pinned : cv_pinned bc (l_sub s) = p;
  lr_held : cv_held bc (l_sub s) = h;
  lr_mach : kmrel m (mach s)
}.

Definition upd_val v (b : Z) (d : list Z) : Z -> list Z :=
  fun b' => if decide (b' = b) then d else v b'.

Lemma wp_sub {A} (f : M S A) s (Q : A -> lstate S -> Prop) :
  wp f (fun a t => Q a (Lstate (l_log s) t)) (l_sub s) -> wp (sub f) Q s.
Proof. intros Hw. apply wp_zoom. exact Hw. Qed.

Lemma lrep_ext s lg dk v v' p h m :
  lrep s lg dk v p h m -> (forall b, v' b = v b) -> lrep s lg dk v' p h m.
Proof. intros [] Hv. split; try done. intros b. rewrite Hv. auto. Qed.

Lemma lrep_data s lg dk v p h m i b :
  lrep s lg dk v p h m -> h !! i = Some b -> bdata (l_sub s) i = v b.
Proof.
  intros [] Hi. rewrite <- lr_val0. apply bc_held; [done|]. by rewrite lr_held0.
Qed.

Lemma lrep_blockno s lg dk v p h m i b :
  lrep s lg dk v p h m -> h !! i = Some b -> bblockno (l_sub s) i = b.
Proof.
  intros [] Hi. eapply (bc_held (l_sub s)); [done|]. by rewrite lr_held0.
Qed.

Lemma wp_lread s lg dk v p h m b (Q : nat -> lstate S -> Prop) :
  lrep s lg dk v p h m -> 0 <= b < disksize dk -> b ∉@{gset Z} map_img h ->
  (size ({[b]} ∪ (p ∪ map_img h)) <= NBUF)%nat ->
  (forall s' i, h !! i = None -> lrep s' lg dk v p (<[i := b]> h) m -> Q i s') ->
  wp (sub (bread ROOTDEV b)) Q s.
Proof.
  intros [] Hb Hh Hroom HQ. apply wp_sub.
  wp_apply bread_spec; [done|by rewrite lr_disk0|by rewrite lr_held0| |].
  { unfold cv_busy. by rewrite lr_pinned0, lr_held0. }
  intros i t ([Hi Hm Hv] & Hd & Hp & Hn & Hh'). apply HQ; [by rewrite <- lr_held0|].
  split; cbn; try done; try congruence. by etrans.
Qed.

Lemma wp_lwrite s lg dk v p h m i b (Q : unit -> lstate S -> Prop) :
  lrep s lg dk v p h m -> h !! i = Some b ->
  (forall s', lrep s' lg (dwrite dk b (v b)) v (p ∖ {[b]}) h m -> Q tt s') ->
  wp (sub (bwrite i)) Q s.
Proof.
  intros [] Hi HQ. apply wp_sub. wp_apply bwrite_spec; [done|by rewrite lr_held0|].
  intros [] t ([Hin Hm Hv] & Hd & Hp & Hh'). apply HQ.
  split; cbn; try done; try congruence. by etrans.
Qed.

Lemma wp_lrelse s lg dk v p h m i b (Q : unit -> lstate S -> Prop) :
  lrep s lg dk v p h m -> h !! i = Some b -> b ∈ p \/ v b = dread dk b ->
  (forall s', lrep s' lg dk v p (delete i h) m -> Q tt s') ->
  wp (sub (brelse i)) Q s.
Proof.
  intros [] Hi Hc HQ. apply wp_sub.
  wp_apply brelse_spec; [done|by rewrite lr_held0|by rewrite lr_pinned0, lr_disk0, lr_val0|].
  intros [] t ([Hin Hm Hv] & Hd & Hp & Hh'). apply HQ.
  split; cbn; try done; try congruence. by etrans.
Qed.

Lemma wp_lset s lg dk v p h m i b d (Q : unit -> lstate S -> Prop) :
  lrep s lg dk v p h m -> h !! i = Some b -> block_ok d ->
  (forall s', lrep s' lg dk (upd_val v b d) p h m -> Q tt s') ->
  wp (sub (bset i d)) Q s.
Proof.
  intros [] Hi Hc HQ. apply wp_sub. wp_apply bset_spec; [done|by rewrite lr_held0|done|].
  intros [] t (Hin & Hm & Hv & Hd & Hp & Hh'). apply HQ.
  split; cbn; try done; try congruence.
  - intros b'. rewrite Hv. unfold upd_val. case_decide; [done|auto].
  - by rewrite Hm.
Qed.

Lemma wp_lpin s lg dk v p h m i b (Q : unit -> lstate S -> Prop) :
  lrep s lg dk v p h m -> h !! i = Some b ->
  (forall s', lrep s' lg dk v ({[b]} ∪ p) h m -> mach s' = mach s -> Q tt s') ->
  wp (sub (bpin i)) Q s.
Proof.
  intros [] Hi HQ. apply wp_sub. wp_apply bpin_spec; [done|by rewrite lr_held0|].
  intros [] t ([Hin Hm Hv] & Hm' & Hd & Hp & Hh'). apply HQ; [|done].
  split; cbn; try done; try congruence. by etrans.
Qed.

Lemma wp_upd_log s lg dk v p h m f (Q : unit -> lstate S -> Prop) :
  lrep s lg dk v p h m ->
  (forall s', lrep s' (f lg) dk v p h m -> mach s' = mach s -> Q tt s') ->
  wp (upd_log f) Q s.
Proof. intros [] HQ. unfold upd_log. wp_step. apply HQ; [|done]. split; cbn; try done. congruence. Qed.

Lemma wp_get_block s lg dk v p h m i b (Q : Z -> lstate S -> Prop) :
  lrep s lg dk v p h m -> 0 <= i -> lh_block (l_lh lg) !! Z.to_nat i = Some b ->
  Q b s -> wp (get_block i) Q s.
Proof.
  intros [] Hi Hb HQ. unfold get_block. wp_steps. rewrite bool_decide_eq_false_2 by lia.
  rewrite lr_log0. by eapply wp_of_option.
Qed.

Lemma wp_put_block s lg dk v p h m i b0 b (Q : unit -> lstate S -> Prop) :
  lrep s lg dk v p h m -> 0 <= i -> lh_block (l_lh lg) !! Z.to_nat i = Some b0 ->
  0 <= b < 2 ^ 31 ->
  (forall s', lrep s' (set_lh (Logheader (lh_n (l_lh lg))
                 (<[Z.to_nat i := b]> (lh_block (l_lh lg)))) lg) dk v p h m ->
     mach s' = mach s -> Q tt s') ->
  wp (put_block i b) Q s.
Proof.
  intros Hr Hi Hb Hb' HQ. unfold put_block. wp_step. eapply wp_get_block; [done..|].
  eapply wp_upd_log; [done|]. intros s' Hr'. cbn beta in Hr'. rewrite s32_small in Hr' by done.
  by apply HQ.
Qed.
End ops.

(** ** The header block *)

(** The in-memory header lists the blocks [l], on a disk of [dsz] blocks. *)
Record lg_rep (lg : log) (dsz : Z) (l : list Z) : Prop := {
  lg_dev : l_dev lg = ROOTDEV;
  lg_n : lh_n (l_lh lg) = Z.of_nat (length l);
  lg_blocks : forall i b, l !! i = Some b -> lh_block (l_lh lg) !! i = Some b;
  lg_len : length (lh_block (l_lh lg)) = LOGSIZE;
  lg_ok : log_ok (l_start lg) (l_size lg) dsz l
}.

Lemma block_ok_set32 d off v : block_ok d -> (off + 4 <= BSIZE)%nat -> block_ok (set32 d off v).
Proof.
  intros [Hl Hb] Hoff. split; [|by apply bytes_ok_set32]. rewrite length_set32; lia.
Qed.

Section header.
Context {S : Type} `{BlockCacheSpec S}.
Implicit Types (s : lstate S) (lg : log) (dk : disk) (v : Z -> list Z)
  (p : gset Z) (h : gmap nat Z) (m : machine).

Lemma hdr_n_set d i x : block_ok d -> 0 <= i < 127 ->
  hdr_n (set32 d (Z.to_nat (4 + 4 * i)) x) = hdr_n d.
Proof.
  intros [Hl _] Hi. unfold hdr_n. unfold BSIZE in Hl. by rewrite get_set32_ne by lia.
Qed.

Lemma hdr_block_set d i j x : block_ok d -> 0 <= i < 127 -> 0 <= j < 127 -> 0 <= x < 2 ^ 31 ->
  hdr_block (set32 d (Z.to_nat (4 + 4 * i)) x) j = if decide (j = i) then x else hdr_block d j.
Proof.
  intros [Hl _] Hi Hj Hx. unfold hdr_block. unfold BSIZE in Hl. case_decide as E.
  - subst. by rewrite get_set32, u32_small, s32_small by lia.
  - by rewrite get_set32_ne by lia.
Qed.

Lemma lrep_val_ok s lg dk v p h m b : lrep s lg dk v p h m -> block_ok (v b).
Proof. intros []. rewrite <- lr_val0. by apply bc_val_ok. Qed.

Lemma lrep_clean s lg dk v p m b : lrep s lg dk v p ∅ m -> b ∉ p -> v b = dread dk b.
Proof.
  intros [] Hp. rewrite <- lr_val0, bc_clean; [by rewrite lr_disk0|done|].
  unfold cv_busy. rewrite lr_pinned0, lr_held0, map_img_empty. set_solver.
Qed.

Lemma room1 (b : Z) p : (size p < NBUF)%nat ->
  (size ({[b]} ∪ (p ∪ map_img (∅ : gmap nat Z)) : gset Z) <= NBUF)%nat.
Proof.
  intros. rewrite map_img_empty_L, union_empty_r_L.
  pose proof (size_union_le {[b]} p). rewrite size_singleton in *. lia.
Qed.

(** A header block filled up to entry [j]. *)
Definition hdr_upto (l : list Z) (d : list Z) (j : Z) : Prop :=
  block_ok d /\ hdr_n d = Z.of_nat (length l) /\
  forall k b, Z.of_nat k < j -> l !! k = Some b -> hdr_block d (Z.of_nat k) = b.

Lemma wp_write_head_block s lg dk v p m l st i d j (Q : unit -> lstate S -> Prop) :
  lrep s lg dk (upd_val v st d) p (<[i := st]> ∅) m -> lg_rep lg (disksize dk) l ->
  0 <= j < Z.of_nat (length l) -> hdr_upto l d j ->
  (forall s' d', lrep s' lg dk (upd_val v st d') p (<[i := st]> ∅) m ->
     hdr_upto l d' (j + 1) -> Q tt s') ->
  wp (write_head_block i j) Q s.
Proof.
  intros Hr [Hdev Hn Hbl Hlen [Hs He Hd Hls Hlc Hnd Hout]] Hj (Hbd & Hhn & Hk) HQ.
  unfold LOGSIZE in *. unfold write_head_block. wp_step.
  destruct (lookup_lt_is_Some_2 l (Z.to_nat j) ltac:(lia)) as [b Hb].
  eapply wp_get_block; [done|lia|by apply Hbl|]. wp_steps.
  pose proof (lookup_insert_eq ∅ i st) as Hi.
  rewrite (lrep_data _ _ _ _ _ _ _ _ _ Hr Hi), Forall_lookup in *.
  destruct (Hout _ _ Hb) as [Hb' _].
  unfold upd_val at 1. rewrite decide_True by done.
  eapply wp_lset; [done..|apply block_ok_set32; [done|unfold BSIZE; lia]|].
  intros s' Hr'. eapply HQ.
  - eapply lrep_ext; [done|]. intros b'. unfold upd_val. by case_decide.
  - split_and!; [apply block_ok_set32; [done|unfold BSIZE; lia]| |].
    + rewrite hdr_n_set by (done || lia). done.
    + intros k b' Hkj Hkb. rewrite hdr_block_set by (done || lia).
      assert (k < length l)%nat by (by eapply lookup_lt_Some).
      case_decide as E; [|apply Hk; [lia|done]].
      subst j. rewrite Nat2Z.id in Hb. congruence.
Qed.

Lemma wp_write_head s lg dk v p m l (Q : unit -> lstate S -> Prop) :
  lrep s lg dk v p ∅ m -> lg_rep lg (disksize dk) l -> l_start lg ∉ p ->
  (size p < NBUF)%nat ->
  (forall s' d, block_ok d -> hdr_n d = Z.of_nat (length l) -> hdr_list d = l ->
     lrep s' lg (dwrite dk (l_start lg) d) (upd_val v (l_start lg) d) p ∅ m -> Q tt s') ->
  wp write_head Q s.
Proof.
  intros Hr Hlg Hp Hsz HQ. pose proof Hlg as [Hdev Hn Hbl Hlen Hok].
  unfold write_head. wp_steps. rewrite (lr_log _ _ _ _ _ _ _ Hr), Hdev, Hn, Nat2Z.id.
  destruct Hok as [Hs He Hd Hls Hlc Hnd Hout]. set (st := l_start lg) in *.
  unfold LOGSIZE in Hlc, Hlen.
  rewrite (u32_small ROOTDEV), (u32_small st) by (unfold ROOTDEV; lia).
  eapply wp_lread; [done|lia|by rewrite map_img_empty|by apply room1|].
  intros s1 i _ Hr1. wp_steps. pose proof (lookup_insert_eq ∅ i st) as Hi.
  rewrite (lrep_data _ _ _ _ _ _ _ _ _ Hr1 Hi).
  eapply wp_lset; [done..| |].
  { apply block_ok_set32; [by eapply lrep_val_ok|unfold BSIZE; lia]. }
  intros s2 Hr2. wp_step.
  eapply wp_mono; [apply (wp_for_loop (fun j s' => exists d,
    lrep s' lg dk (upd_val v st d) p (<[i := st]> ∅) m /\ hdr_upto l d j))|].
  - exists (set32 (v st) 0 (Z.of_nat (length l))). split; [done|].
    pose proof (lrep_val_ok _ _ _ _ _ _ _ st Hr) as Hb. split_and!; [| |lia].
    + apply block_ok_set32; [done|unfold BSIZE; lia].
    + unfold hdr_n. rewrite get_set32, u32_small, s32_small; [done|lia|lia|].
      destruct Hb as [-> _]. unfold BSIZE. lia.
  - intros j s' Hj (d & Hr' & Hd'). eapply wp_write_head_block; [done..|]. eauto.
  - intros [] s3 (d & Hr3 & Hbd & Hnd' & Hk). wp_step. eapply wp_lwrite; [done..|].
    intros s4 Hr4. unfold upd_val in Hr4 at 1. rewrite decide_True in Hr4 by done.
    replace (p ∖ {[st]}) with p in Hr4 by set_solver.
    eapply wp_lrelse; [done..| |].
    { right. rewrite dread_dwrite, decide_True by done. unfold upd_val. by rewrite decide_True. }
    intros s5 Hr5. rewrite delete_insert_id in Hr5 by done. eapply HQ; [done|done| |done].
    apply hdr_list_eq; [done|]. intros k b Hkb. apply Hk; [|done].
    apply lookup_lt_Some in Hkb. lia.
Qed.
End header.

(** ** Copying blocks *)

Section copy.
Context {S : Type} `{BlockCacheSpec S}.
Implicit Types (s : lstate S) (lg : log) (dk : disk) (v : Z -> list Z)
  (p : gset Z) (h : gmap nat Z) (m : machine) (l : list Z).

Lemma room2 (b c : Z) i p : (size p < NBUF)%nat -> b ∈ p \/ (size p < NBUF - 1)%nat ->
  (size ({[b]} ∪ (p ∪ map_img (<[i := c]> (∅ : gmap nat Z))) : gset Z) <= NBUF)%nat.
Proof.
  intros Hsz Hb. rewrite map_img_insert_notin_L, map_img_empty_L, union_empty_r_L by done.
  pose proof (size_union_le p {[c]}) as H2. rewrite size_singleton in H2.
  destruct Hb as [Hb|Hb].
  - replace ({[b]} ∪ (p ∪ {[c]})) with (p ∪ {[c]}) by set_solver. lia.
  - pose proof (size_union_le {[b]} (p ∪ {[c]})). rewrite size_singleton in *. lia.
Qed.

(** [memmove(dst->data, src->data, BSIZE); bwrite(dst); ...] *)
Lemma wp_copy {A} s lg dk v p h m i j src dst (k : M (lstate S) A) (Q : A -> lstate S -> Prop) :
  lrep s lg dk v p h m -> h !! i = Some src -> h !! j = Some dst ->
  (forall s', lrep s' lg (dwrite dk dst (v src)) (upd_val v dst (v src)) (p ∖ {[dst]}) h m ->
     wp k Q s') ->
  wp (d ← gets (fun s => bdata (l_sub s) i); sub (bset j d) ;; sub (bwrite j) ;; k) Q s.
Proof.
  intros Hr Hi Hj HQ. wp_steps. rewrite (lrep_data _ _ _ _ _ _ _ _ _ Hr Hi).
  eapply wp_lset; [done..|by eapply lrep_val_ok|]. intros s1 Hr1. wp_step.
  eapply wp_lwrite; [done..|]. intros s2 Hr2. unfold upd_val in Hr2 at 1.
  rewrite decide_True in Hr2 by done. by apply HQ.
Qed.

(** What [write_log] has done after [j] blocks. *)
Definition logged_upto (st : Z) l (v w : Z -> list Z) (j : Z) : Prop :=
  forall b, w b = if decide (st < b <= st + j)
                  then from_option v [] (l !! Z.to_nat (b - st - 1)) else v b.

Lemma logged_upto_step st l v w j b : 0 <= j -> l !! Z.to_nat j = Some b ->
  (forall i b', l !! i = Some b' -> ~ (st < b' <= st + j)) ->
  logged_upto st l v w j -> logged_upto st l v (upd_val w (st + j + 1) (w b)) (j + 1).
Proof.
  intros Hj Hb Hout Hw b'. unfold upd_val. destruct (decide (b' = st + j + 1)) as [->|Hne].
  - rewrite decide_True by lia. replace (st + j + 1 - st - 1) with j by lia.
    rewrite Hb. cbn. rewrite Hw, decide_False; [done|]. by eapply Hout.
  - rewrite Hw. repeat case_decide; try done; lia.
Qed.

Lemma wp_write_log_block s lg dk w p m l j b (Q : unit -> lstate S -> Prop) :
  lrep s lg dk w p ∅ m -> lg_rep lg (disksize dk) l -> p = list_to_set l ->
  (length l < NBUF)%nat -> 0 <= j -> l !! Z.to_nat j = Some b ->
  (forall s', lrep s' lg (dwrite dk (l_start lg + j + 1) (w b))
     (upd_val w (l_start lg + j + 1) (w b)) p ∅ m -> Q tt s') ->
  wp (write_log_block j) Q s.
Proof.
  intros Hr [Hdev Hn Hbl Hlen [Hs He Hd Hls Hlc Hnd Hout]] Hp Hsz Hj Hb HQ.
  unfold write_log_block. wp_steps. rewrite (lr_log _ _ _ _ _ _ _ Hr), Hdev.
  set (st := l_start lg) in *. rewrite Forall_lookup in Hout.
  destruct (Hout _ _ Hb) as [Hb1 Hb2]. pose proof (lookup_lt_Some _ _ _ Hb) as Hjl.
  assert (size p < NBUF)%nat as Hps by (by rewrite Hp, size_list_to_set).
  assert (b ∈ p) as Hbp by (rewrite Hp, elem_of_list_to_set; by eapply list_elem_of_lookup_2).
  rewrite (u32_small ROOTDEV), (u32_small (st + j + 1)) by (unfold ROOTDEV; lia).
  eapply wp_lread; [done|lia|by rewrite map_img_empty|by apply room1|].
  intros s1 i _ Hr1. wp_step. eapply wp_get_block; [done|lia|by apply Hbl|]. wp_step.
  rewrite (u32_small b) by lia.
  eapply wp_lread; [done|lia| |apply room2; [done|by left]|].
  { rewrite map_img_insert_notin_L, map_img_empty_L, union_empty_r_L, elem_of_singleton by done.
    intros ->. apply Hb2. lia. }
  intros s2 i' Hi' Hr2. assert (i <> i') as Hii' by (intros ->; by rewrite lookup_insert_eq in Hi').
  eapply wp_copy; [done|apply lookup_insert_eq|
    rewrite lookup_insert_ne by done; apply lookup_insert_eq|].
  intros s3 Hr3. replace (p ∖ {[st + j + 1]}) with p in Hr3; cycle 1.
  { apply set_eq. intros x. rewrite elem_of_difference, elem_of_singleton.
    split; [|tauto]. intros Hx. split; [done|]. intros ->.
    rewrite Hp, elem_of_list_to_set in Hx. apply list_elem_of_lookup in Hx as [k Hk].
    apply Hout in Hk as [_ Hk]. apply Hk. lia. }
  wp_step. eapply wp_lrelse; [done|apply lookup_insert_eq|by left|].
  intros s4 Hr4. rewrite delete_insert_id in Hr4 by done.
  eapply wp_lrelse; [done|apply lookup_insert_eq| |].
  { right. unfold upd_val. by rewrite dread_dwrite, !decide_True by done. }
  intros s5 Hr5. rewrite delete_insert_id in Hr5 by done. by apply HQ.
Qed.

Lemma wp_write_log s lg dk v p m l (P : disk -> Prop) (Q : unit -> lstate S -> Prop) :
  lrep s lg dk v p ∅ m -> lg_rep lg (disksize dk) l -> p = list_to_set l ->
  (length l < NBUF)%nat ->
  (forall dk', disksize dk' = disksize dk ->
     (forall b, ~ (l_start lg < b < l_start lg + l_size lg) -> dread dk' b = dread dk b) -> P dk') ->
  (forall s' dk' w, lrep s' lg dk' w p ∅ m -> disk_le dk dk' -> always P dk dk' ->
     logged_upto (l_start lg) l v w (Z.of_nat (length l)) ->
     (forall b, ~ (l_start lg < b <= l_start lg + Z.of_nat (length l)) ->
        dread dk' b = dread dk b) ->
     Q tt s') ->
  wp write_log Q s.
Proof.
  intros Hr Hlg Hp Hsz HP HQ. pose proof Hlg as [Hdev Hn Hbl Hlen Hok]. unfold write_log.
  wp_steps. rewrite (lr_log _ _ _ _ _ _ _ Hr), Hn, Nat2Z.id.
  destruct Hok as [Hs He Hd Hls Hlc Hnd Hout]. set (st := l_start lg) in *.
  rewrite Forall_lookup in Hout. unfold outside in Hout.
  set (I := fun (j : Z) (s' : lstate S) => exists dk' w,
    lrep s' lg dk' w p ∅ m /\ disk_le dk dk' /\ always P dk dk' /\ logged_upto st l v w j /\
    (forall b, ~ (st < b <= st + j) -> dread dk' b = dread dk b)).
  eapply wp_mono; [apply (wp_for_loop I)|].
  - exists dk, v. split_and!; [done|done|apply always_refl, HP; done| |done].
    intros b. rewrite decide_False by lia. done.
  - intros j s' Hj (dk' & w & Hr' & Hle & Hal & Hw & Hrd).
    destruct (lookup_lt_is_Some_2 l (Z.to_nat j) ltac:(lia)) as [b Hb].
    eapply wp_write_log_block; [done|by rewrite (le_size _ _ Hle)|done|done|lia|done|].
    intros s1 Hr1. do 2 eexists. split_and!; [done| | | |].
    + etrans; [done|apply disk_le_dwrite].
    + apply always_dwrite; [done|]. apply HP; [by rewrite <- (le_size _ _ Hle)|]. intros b' Hb'.
      fold st in Hb'. rewrite dread_dwrite, decide_False by lia. apply Hrd. lia.
    + apply logged_upto_step; [lia|done| |done].
      intros k b' Hk [? ?]. destruct (Hout _ _ Hk) as [_ Hx]. apply Hx. lia.
    + intros b' Hb'. rewrite dread_dwrite, decide_False by lia. apply Hrd. lia.
  - intros [] s' (dk' & w & Hr' & Hle & Hal & Hw & Hrd). by eapply HQ.
Qed.
End copy.

(** ** Installing a transaction *)

Section install.
Context {S : Type} `{BlockCacheSpec S}.
Implicit Types (s : lstate S) (lg : log) (dk : disk) (v : Z -> list Z)
  (p : gset Z) (h : gmap nat Z) (m : machine) (l : list Z).

Lemma wp_install_block s lg dk w p m l j b (Q : unit -> lstate S -> Prop) :
  lrep s lg dk w p ∅ m -> lg_rep lg (disksize dk) l -> p ⊆ list_to_set l ->
  (size p < NBUF)%nat -> b ∈ p \/ (size p < NBUF - 1)%nat ->
  0 <= j -> l !! Z.to_nat j = Some b ->
  (forall s', lrep s' lg (dwrite dk b (w (l_start lg + j + 1)))
     (upd_val w b (w (l_start lg + j + 1))) (p ∖ {[b]}) ∅ m -> Q tt s') ->
  wp (install_block j) Q s.
Proof.
  intros Hr [Hdev Hn Hbl Hlen [Hs He Hd Hls Hlc Hnd Hout]] Hp Hsz Hbp Hj Hb HQ.
  unfold install_block. wp_steps. rewrite (lr_log _ _ _ _ _ _ _ Hr), Hdev.
  set (st := l_start lg) in *. rewrite Forall_lookup in Hout.
  destruct (Hout _ _ Hb) as [Hb1 Hb2]. pose proof (lookup_lt_Some _ _ _ Hb) as Hjl.
  assert (st + j + 1 ∉ p) as Hlp.
  { intros Hx%Hp. apply elem_of_list_to_set in Hx. apply list_elem_of_lookup in Hx as [k Hk].
    apply Hout in Hk as [_ Hk]. apply Hk. lia. }
  pose proof (lrep_clean _ _ _ _ _ _ _ Hr Hlp) as Hclean.
  rewrite (u32_small ROOTDEV), (u32_small (st + j + 1)) by (unfold ROOTDEV; lia).
  eapply wp_lread; [done|lia|by rewrite map_img_empty|by apply room1|].
  intros s1 i _ Hr1. wp_step. eapply wp_get_block; [done|lia|by apply Hbl|]. wp_step.
  rewrite (u32_small b) by lia.
  assert (b <> st + j + 1) as Hne by (intros ->; apply Hb2; lia).
  eapply wp_lread; [done|lia| |by apply room2|].
  { rewrite map_img_insert_notin_L, map_img_empty_L, union_empty_r_L, elem_of_singleton by done.
    done. }
  intros s2 i' Hi' Hr2. assert (i <> i') as Hii' by (intros ->; by rewrite lookup_insert_eq in Hi').
  eapply wp_copy; [done|rewrite lookup_insert_ne by done; apply lookup_insert_eq|
    apply lookup_insert_eq|].
  intros s3 Hr3. wp_step.
  eapply wp_lrelse; [done|rewrite lookup_insert_ne by done; apply lookup_insert_eq| |].
  { right. unfold upd_val. by rewrite dread_dwrite, !decide_False by done. }
  intros s4 Hr4. rewrite delete_insert_ne, delete_insert_id in Hr4 by done.
  eapply wp_lrelse; [done|apply lookup_insert_eq| |].
  { right. unfold upd_val. by rewrite dread_dwrite, !decide_True by done. }
  intros s5 Hr5. rewrite delete_insert_id in Hr5 by done. by apply HQ.
Qed.

(** The content after the first [j] blocks of [l] are as in [u]. *)
Definition installed_upto l (u v w : Z -> list Z) (j : Z) : Prop :=
  forall b, w b = if decide (b ∈ take (Z.to_nat j) l) then u b else v b.

Lemma take_succ l j b x : 0 <= j -> l !! Z.to_nat j = Some b ->
  x ∈ take (Z.to_nat (j + 1)) l <-> x ∈ take (Z.to_nat j) l \/ x = b.
Proof.
  intros Hj Hb. replace (Z.to_nat (j + 1)) with (Datatypes.S (Z.to_nat j)) by lia.
  rewrite (take_S_r _ _ _ Hb), elem_of_app, list_elem_of_singleton. done.
Qed.

Lemma installed_step l u v w j b c : 0 <= j -> l !! Z.to_nat j = Some b ->
  c = u b -> installed_upto l u v w j -> installed_upto l u v (upd_val w b c) (j + 1).
Proof.
  intros Hj Hb -> Hw x. unfold upd_val. rewrite Hw.
  pose proof (take_succ l j b x Hj Hb). repeat case_decide; subst; tauto || done.
Qed.

Lemma install_room p l j : p = ∅ \/ p = list_to_set l /\ NoDup l /\ (length l < NBUF)%nat ->
  (size (p ∖ list_to_set (take j l)) < NBUF)%nat.
Proof.
  intros Hp. assert (size p < NBUF)%nat.
  { destruct Hp as [->|(-> & Hnd & ?)]; [rewrite size_empty; unfold NBUF; lia|].
    by rewrite size_list_to_set. }
  pose proof (subseteq_size (p ∖ list_to_set (take j l)) p ltac:(set_solver)). lia.
Qed.

Lemma install_room' p l j b : p = ∅ \/ p = list_to_set l /\ NoDup l /\ (length l < NBUF)%nat ->
  l !! j = Some b ->
  b ∈ p ∖ list_to_set (take j l) \/ (size (p ∖ list_to_set (take j l)) < NBUF - 1)%nat.
Proof.
  intros Hp Hb. destruct Hp as [->|(-> & Hnd & ?)].
  - right. replace (∅ ∖ list_to_set (take j l)) with (∅ : gset Z) by set_solver.
    rewrite size_empty. unfold NBUF. lia.
  - left. rewrite elem_of_difference, !elem_of_list_to_set.
    split; [by eapply list_elem_of_lookup_2|]. intros (k & Hk & Hlt)%elem_of_take.
    assert (k = j) by (by eapply NoDup_lookup). lia.
Qed.

(** [install_trans]: every block of the log is copied to its home. *)
Lemma wp_install_trans s lg dk v u p m l (P : disk -> Prop) (Q : unit -> lstate S -> Prop) :
  lrep s lg dk v p ∅ m -> lg_rep lg (disksize dk) l ->
  p = ∅ \/ p = list_to_set l /\ (length l < NBUF)%nat ->
  (forall i b, l !! i = Some b -> v (l_start lg + Z.of_nat i + 1) = u b) ->
  (forall dk', disksize dk' = disksize dk ->
     (forall b, dread dk' b = dread dk b \/ b ∈ l /\ dread dk' b = u b) -> P dk') ->
  (forall s' dk' w, lrep s' lg dk' w ∅ ∅ m -> disk_le dk dk' -> always P dk dk' ->
     installed_upto l u v w (Z.of_nat (length l)) ->
     installed_upto l u (dread dk) (dread dk') (Z.of_nat (length l)) -> Q tt s') ->
  wp install_trans Q s.
Proof.
  intros Hr Hlg Hp Hu HP HQ. pose proof Hlg as [Hdev Hn Hbl Hlen Hok]. unfold install_trans.
  wp_steps. rewrite (lr_log _ _ _ _ _ _ _ Hr), Hn, Nat2Z.id.
  destruct Hok as [Hs He Hd Hls Hlc Hnd Hout]. set (st := l_start lg) in *.
  set (I := fun (j : Z) (s' : lstate S) => exists dk' w,
    lrep s' lg dk' w (p ∖ list_to_set (take (Z.to_nat j) l)) ∅ m /\ disk_le dk dk' /\
    always P dk dk' /\ installed_upto l u v w j /\ installed_upto l u (dread dk) (dread dk') j).
  eapply wp_mono; [apply (wp_for_loop I)|].
  - exists dk, v. split_and!; [|done| |by intros b|by intros b].
    + by replace (p ∖ list_to_set _) with p by set_solver.
    + apply always_refl, HP; [done|auto].
  - intros j s' Hj (dk' & w & Hr' & Hle & Hal & Hw & Hrd).
    destruct (lookup_lt_is_Some_2 l (Z.to_nat j) ltac:(lia)) as [b Hb].
    eapply wp_install_block; [done|by rewrite (le_size _ _ Hle)| | | |lia|done|].
    + destruct Hp as [->|[-> _]]; set_solver.
    + apply install_room. destruct Hp as [?|[? ?]]; auto.
    + apply install_room'; [|done]. destruct Hp as [?|[? ?]]; auto.
    + fold st. assert (w (st + j + 1) = u b) as E.
      { rewrite Hw, decide_False; [rewrite <- (Hu _ _ Hb), Z2Nat.id by lia; done|].
        intros Hx. apply elem_of_take in Hx as (k & Hk & _). rewrite Forall_lookup in Hout.
        apply Hout in Hk as [_ Hk]. apply Hk. lia. }
      rewrite E. intros s1 Hr1. do 2 eexists. split_and!.
      * replace (p ∖ list_to_set (take (Z.to_nat (j + 1)) l)) with
          (p ∖ list_to_set (take (Z.to_nat j) l) ∖ {[b]}); [done|].
        apply set_eq. intros x. rewrite !elem_of_difference, !elem_of_list_to_set,
          elem_of_singleton, (take_succ _ _ _ _ (proj1 Hj) Hb). tauto.
      * etrans; [done|apply disk_le_dwrite].
      * apply always_dwrite; [done|]. apply HP; [by rewrite <- (le_size _ _ Hle)|]. intros x.
        rewrite dread_dwrite. case_decide; [right; subst; split; [|done]; by eapply list_elem_of_lookup_2|].
        rewrite Hrd. case_decide as Hx; [right; split; [|done]|by left].
        apply elem_of_take in Hx as (k & Hk & _). by eapply list_elem_of_lookup_2.
      * apply (installed_step l u v w j b (u b) (proj1 Hj) Hb eq_refl Hw).
      * intros x. rewrite dread_dwrite, Hrd. pose proof (take_succ l j b x (proj1 Hj) Hb).
        repeat case_decide; subst; naive_solver.
  - intros [] s' (dk' & w & Hr' & Hle & Hal & Hw & Hrd). eapply HQ; try done.
    rewrite Z.add_0_l, Nat2Z.id, take_ge in Hr' by done.
    replace (p ∖ list_to_set l) with (∅ : gset Z) in Hr'; [done|].
    destruct Hp as [->|[-> _]]; set_solver.
Qed.
End install.

(** ** Commit *)

(** A disk whose log recovery can install. *)
Definition recoverable (lg : log) (dk : disk) : Prop :=
  0 <= hdr_n (dread dk (l_start lg)) /\
  log_ok (l_start lg) (l_size lg) (disksize dk) (hdr_list (dread dk (l_start lg))).

(** On the blocks outside the log, recovery finds one of two contents; the
    blocks that are not in [l] keep theirs. *)
Definition atomic (lg : log) (l : list Z) (old new : Z -> list Z) (dk : disk) : Prop :=
  recoverable lg dk /\
  ((forall b, outside (l_start lg) (l_size lg) (disksize dk) b ->
     recovered (l_start lg) dk b = old b) \/
   (forall b, outside (l_start lg) (l_size lg) (disksize dk) b ->
     recovered (l_start lg) dk b = new b)) /\
  (forall b, outside (l_start lg) (l_size lg) (disksize dk) b -> b ∉ l -> dread dk b = old b).

Section commit.
Context {S : Type} `{BlockCacheSpec S}.
Implicit Types (s : lstate S) (lg : log) (dk : disk) (v : Z -> list Z)
  (p : gset Z) (h : gmap nat Z) (m : machine) (l : list Z).

Lemma recovered_logged st l dk u b : hdr_list (dread dk st) = l ->
  (forall i b', l !! i = Some b' -> dread dk (st + Z.of_nat i + 1) = u b') ->
  (b ∉ l -> dread dk b = u b) -> recovered st dk b = u b.
Proof.
  intros Hl Hi Hn. unfold recovered. rewrite Hl.
  destruct (pos_cases l b) as [(i & -> & Hb)|(-> & Hb)]; [|by apply Hn].
  replace (st + 1 + Z.of_nat i) with (st + Z.of_nat i + 1) by lia. by apply Hi.
Qed.

Lemma lg_rep_nil lg dsz l : lg_rep lg dsz l -> lg_rep (set_lh_n 0 lg) dsz [].
Proof.
  intros [Hdev Hn Hbl Hlen [Hs He Hd Hls Hlc Hnd Hout]]. split; try done.
  split; cbn; try done; try lia. constructor.
Qed.

Lemma set_lh_n_id lg dsz : lg_rep lg dsz [] -> set_lh_n 0 lg = lg.
Proof. intros [_ Hn _ _ _]. destruct lg as [? ? ? ? ? []]. cbn in *. by subst. Qed.

(** The crash points of the three phases. *)
Lemma recoverable_empty lg l dk :
  lg_rep lg (disksize dk) l -> hdr_n (dread dk (l_start lg)) = 0 -> recoverable lg dk.
Proof.
  intros Hlg Hh. split; [lia|]. rewrite (hdr_list_nil _ Hh).
  exact (lg_ok _ _ _ (lg_rep_nil _ _ _ Hlg)).
Qed.

Lemma atomic_writing lg l dk v dk' :
  lg_rep lg (disksize dk') l -> hdr_n (dread dk (l_start lg)) = 0 ->
  (forall b, ~ (l_start lg < b < l_start lg + l_size lg) -> dread dk' b = dread dk b) ->
  atomic lg l (dread dk) v dk'.
Proof.
  intros Hlg Hh Hrd. assert (hdr_n (dread dk' (l_start lg)) = 0) as Hh' by (by rewrite Hrd by lia).
  split_and!; [by eapply recoverable_empty|left|]; intros b [Hb1 Hb2];
    rewrite ?recovered_empty by done; intros; apply Hrd; lia.
Qed.

Lemma atomic_installing lg l old v dk' : lg_rep lg (disksize dk') l ->
  hdr_list (dread dk' (l_start lg)) = l -> 0 <= hdr_n (dread dk' (l_start lg)) ->
  (forall i b, l !! i = Some b -> dread dk' (l_start lg + Z.of_nat i + 1) = v b) ->
  (forall b, outside (l_start lg) (l_size lg) (disksize dk') b -> b ∉ l -> dread dk' b = v b) ->
  (forall b, outside (l_start lg) (l_size lg) (disksize dk') b -> b ∉ l -> v b = old b) ->
  atomic lg l old v dk'.
Proof.
  intros Hlg Hl Hn Hi Hb Hov. split_and!; [split; [done|]; rewrite Hl; apply Hlg| |].
  - right. intros b Ho. eapply recovered_logged; [done..|]. auto.
  - intros b Ho Hbl. rewrite Hb by done. auto.
Qed.

Lemma atomic_erased lg l v dk' : lg_rep lg (disksize dk') l ->
  hdr_n (dread dk' (l_start lg)) = 0 ->
  (forall b, outside (l_start lg) (l_size lg) (disksize dk') b -> dread dk' b = v b) ->
  atomic lg l v v dk'.
Proof.
  intros Hlg Hh Hrd. split_and!; [by eapply recoverable_empty|right|]; intros b Hb;
    rewrite ?recovered_empty by done; intros; by apply Hrd.
Qed.

(** The writes of a header and of the blocks it lists. *)
Lemma wp_install_erase s lg dk v u p m l (Q : unit -> lstate S -> Prop) :
  lrep s lg dk v p ∅ m -> lg_rep lg (disksize dk) l ->
  p = ∅ \/ p = list_to_set l /\ (length l < NBUF)%nat ->
  hdr_list (dread dk (l_start lg)) = l -> 0 <= hdr_n (dread dk (l_start lg)) ->
  (forall i b, l !! i = Some b -> dread dk (l_start lg + Z.of_nat i + 1) = u b) ->
  (forall b, b ∉ l -> outside (l_start lg) (l_size lg) (disksize dk) b ->
     v b = u b /\ dread dk b = u b) ->
  (forall s' dk' w, lrep s' (set_lh_n 0 lg) dk' w ∅ ∅ m -> disk_le dk dk' ->
     always (atomic lg l u u) dk dk' ->
     (forall b, outside (l_start lg) (l_size lg) (disksize dk) b -> w b = u b /\ dread dk' b = u b) ->
     hdr_n (dread dk' (l_start lg)) = 0 -> Q tt s') ->
  wp (install_trans ;; upd_log (set_lh_n 0) ;; write_head) Q s.
Proof.
  intros Hr Hlg Hp Hh Hhn Hu Hout HQ. pose proof (lg_ok _ _ _ Hlg) as [Hs He Hd Hls Hlc Hnd Hol].
  set (st := l_start lg) in *. rewrite Forall_lookup in Hol. unfold outside in Hol.
  assert (forall b, b ∈ l -> ~ (st <= b < st + l_size lg)) as Hnl.
  { intros b [k Hk]%list_elem_of_lookup. by apply (Hol k). }
  wp_step. eapply (wp_install_trans s lg dk v u p m l (atomic lg l u u)); [done..| | |].
  { intros i b Hi. fold st. rewrite (lrep_clean _ _ _ _ _ _ _ Hr); [by apply Hu|].
    apply lookup_lt_Some in Hi. destruct Hp as [->|[-> _]]; [set_solver|].
    rewrite elem_of_list_to_set. intros Hx%Hnl. lia. }
  { intros dk' Hsz Hrd. assert (dread dk' st = dread dk st) as Est.
    { destruct (Hrd st) as [->|[Hx%Hnl _]]; [done|lia]. }
    eapply (atomic_installing _ l); [by rewrite Hsz|..]; fold st; rewrite ?Est; try done.
    - intros i b Hi. destruct (Hrd (st + Z.of_nat i + 1)) as [->|[Hx%Hnl _]]; [by apply Hu|].
      apply lookup_lt_Some in Hi. lia.
    - rewrite Hsz. intros b Hb Hbl. destruct (Hrd b) as [->|[_ ->]]; [by apply Hout|done]. }
  intros s1 dk1 w1 Hr1 Hle1 Hal1 Hw1 Hrd1. unfold installed_upto in Hw1, Hrd1.
  rewrite Nat2Z.id, take_ge in Hw1, Hrd1 by done.
  assert (forall b, outside st (l_size lg) (disksize dk) b -> w1 b = u b /\ dread dk1 b = u b) as Hfin.
  { intros b Hb. rewrite Hw1, Hrd1. case_decide; [done|by apply Hout]. }
  wp_step. eapply wp_upd_log; [done|]. intros s2 Hr2 _. pose proof (lg_rep_nil _ _ _ Hlg) as Hlg0.
  eapply wp_write_head; [done|by rewrite (le_size _ _ Hle1)|set_solver|rewrite size_empty; unfold NBUF; lia|].
  intros s3 d Hd3 Hn3 _ Hr3. change (l_start (set_lh_n 0 lg)) with st in *.
  assert (forall b, outside st (l_size lg) (disksize dk) b ->
    upd_val w1 st d b = u b /\ dread (dwrite dk1 st d) b = u b) as Hfin3.
  { intros b Hb. destruct (Hfin b Hb) as [E1 E2]. destruct Hb as [_ Hb]. unfold upd_val.
    rewrite dread_dwrite, !decide_False by lia. done. }
  assert (hdr_n (dread (dwrite dk1 st d) st) = 0) as Hn by (by rewrite dread_dwrite, decide_True).
  eapply HQ; [done| | | |done].
  - etrans; [done|apply disk_le_dwrite].
  - apply always_dwrite; [done|]. eapply atomic_erased; cbn; rewrite ?(le_size _ _ Hle1); [done..|].
    intros b Hb. by apply Hfin3.
  - done.
Qed.
End commit.

Section recover.
Context {S : Type} `{BlockCacheSpec S}.
Implicit Types (s : lstate S) (lg : log) (dk : disk) (v : Z -> list Z)
  (p : gset Z) (h : gmap nat Z) (m : machine) (l : list Z).

Lemma always_mono (P P' : disk -> Prop) dk dk' :
  (forall d, P d -> P' d) -> always P dk dk' -> always P' dk dk'.
Proof. intros Hm Ha d ? ?. by apply Hm, Ha. Qed.

Lemma atomic_new lg l old new dk :
  (forall b, outside (l_start lg) (l_size lg) (disksize dk) b -> b ∉ l -> new b = old b) ->
  atomic lg l new new dk -> atomic lg l old new dk.
Proof.
  intros Hn (Hr & Hc & Hu). split_and!; [done|right; by destruct Hc|].
  intros b Hb Hbl. rewrite <- Hn by done. auto.
Qed.

(** After [write_log]: the log blocks hold the transaction. *)
Lemma logged_block st l v w i b dk s lg m :
  logged_upto st l v w (Z.of_nat (length l)) -> l !! i = Some b ->
  st + Z.of_nat i + 1 ∉ (list_to_set l : gset Z) ->
  lrep s lg dk w (list_to_set l) ∅ m -> dread dk (st + Z.of_nat i + 1) = v b.
Proof.
  intros Hw Hi Hn Hr. rewrite <- (lrep_clean _ _ _ _ _ _ _ Hr Hn), Hw.
  pose proof (lookup_lt_Some _ _ _ Hi). rewrite decide_True by lia.
  replace (Z.to_nat (st + Z.of_nat i + 1 - st - 1)) with i by lia. by rewrite Hi.
Qed.

(** The commit of a transaction on the blocks [l]. *)
Lemma wp_commit s lg dk v m l (Q : unit -> lstate S -> Prop) :
  lrep s lg dk v (list_to_set l) ∅ m -> lg_rep lg (disksize dk) l -> (length l < NBUF)%nat ->
  hdr_n (dread dk (l_start lg)) = 0 ->
  (forall s' dk' w, lrep s' (set_lh_n 0 lg) dk' w ∅ ∅ m -> disk_le dk dk' ->
     always (atomic lg l (dread dk) v) dk dk' ->
     (forall b, outside (l_start lg) (l_size lg) (disksize dk) b -> w b = v b /\ dread dk' b = v b) ->
     hdr_n (dread dk' (l_start lg)) = 0 -> Q tt s') ->
  wp commit Q s.
Proof.
  intros Hr Hlg Hsz Hh HQ. pose proof (lg_ok _ _ _ Hlg) as [Hs He Hd Hls Hlc Hnd Hol].
  set (st := l_start lg) in *. rewrite Forall_forall in Hol. unfold outside in Hol.
  unfold commit. wp_steps. rewrite (lr_log _ _ _ _ _ _ _ Hr), (lg_n _ _ _ Hlg).
  destruct l as [|b0 l0] eqn:El.
  { rewrite bool_decide_eq_false_2 by (cbn; lia). unfold when. wp_step.
    eapply (HQ s dk v); [by rewrite (set_lh_n_id _ _ Hlg)|done| | |done].
    - apply always_refl. by eapply atomic_writing.
    - intros b _. split; [done|]. symmetry. eapply lrep_clean; [done|]. set_solver. }
  rewrite bool_decide_eq_true_2 by (cbn; lia). rewrite <- El in *. clear El b0 l0. unfold when.
  wp_step. eapply (wp_write_log s lg dk v _ m l (atomic lg l (dread dk) v)); [done..| |].
  { intros dk' Hsz' Hrd. eapply atomic_writing; [by rewrite Hsz'|done..]. }
  intros s1 dk1 w1 Hr1 Hle1 Hal1 Hw1 Hrd1. fold st in Hw1, Hrd1. wp_step.
  assert (forall i b, l !! i = Some b -> st + Z.of_nat i + 1 ∉ (list_to_set l : gset Z)) as Hlog.
  { intros i b Hi%lookup_lt_Some. rewrite elem_of_list_to_set. intros [_ Hx]%Hol. lia. }
  eapply wp_write_head; [done|by rewrite (le_size _ _ Hle1)| |by rewrite size_list_to_set|].
  { rewrite elem_of_list_to_set. intros [_ Hx]%Hol. fold st in Hx. lia. }
  intros s2 d Hbd Hnd2 Hld Hr2. fold st in Hr2.
  assert (forall b, b ∉ l -> v b = dread dk b) as Hclean.
  { intros b Hb. eapply lrep_clean; [done|]. by rewrite elem_of_list_to_set. }
  assert (forall i b, l !! i = Some b ->
    dread (dwrite dk1 st d) (st + Z.of_nat i + 1) = v b) as Hlb.
  { intros i b Hi. rewrite dread_dwrite, decide_False by lia.
    eapply logged_block; [done..|by eapply Hlog|done]. }
  assert (forall b, b ∉ l -> outside st (l_size lg) (disksize dk1) b ->
    upd_val w1 st d b = v b /\ dread (dwrite dk1 st d) b = v b) as Hother.
  { intros b Hb [Hb1 Hb2]. unfold upd_val. rewrite dread_dwrite, !decide_False by lia.
    rewrite (Hw1 b), Hrd1, decide_False by lia. split; [done|]. symmetry. auto. }
  eapply wp_install_erase; [done|by cbn; rewrite (le_size _ _ Hle1)|by right| | |done|done|].
  { fold st. by rewrite dread_dwrite, decide_True. }
  { fold st. rewrite dread_dwrite, decide_True by done. lia. }
  intros s3 dk3 w3 Hr3 Hle3 Hal3 Hv3 Hn3. cbn in Hv3. rewrite (le_size _ _ Hle1) in Hv3.
  assert (disk_le dk (dwrite dk1 st d)) as Hle2 by (etrans; [done|apply disk_le_dwrite]).
  eapply HQ; [done|by etrans| |done|done].
  eapply always_trans; [exact Hle2|done| |
    eapply always_mono; [intros d'; apply atomic_new; auto|done]].
  apply always_dwrite; [done|].
  eapply atomic_installing; [by cbn; rewrite (le_size _ _ Hle1)| | |done| |];
    [fold st; rewrite dread_dwrite, decide_True by done; done || lia..| |].
  - intros b Hb Hbl. by apply Hother.
  - auto.
Qed.
End recover.

(** ** Recovery *)

Section boot.
Context {S : Type} `{BlockCacheSpec S}.
Implicit Types (s : lstate S) (lg : log) (dk : disk) (v : Z -> list Z)
  (p : gset Z) (h : gmap nat Z) (m : machine) (l : list Z).

Lemma wp_read_head s lg dk v m l (Q : unit -> lstate S -> Prop) :
  lrep s lg dk v ∅ ∅ m -> l_dev lg = ROOTDEV -> length (lh_block (l_lh lg)) = LOGSIZE ->
  l = hdr_list (dread dk (l_start lg)) -> 0 <= hdr_n (dread dk (l_start lg)) ->
  log_ok (l_start lg) (l_size lg) (disksize dk) l ->
  (forall s' lh, lrep s' (set_lh lh lg) dk v ∅ ∅ m ->
     lg_rep (set_lh lh lg) (disksize dk) l -> Q tt s') ->
  wp read_head Q s.
Proof.
  intros Hr Hdev Hlen Hl Hn0 Hok HQ. pose proof Hok as [Hs He Hd Hls Hlc Hnd Hout].
  pose proof (length_hdr_list (dread dk (l_start lg))) as Hnl. rewrite <- Hl in Hnl.
  unfold read_head. wp_steps. rewrite (lr_log _ _ _ _ _ _ _ Hr), Hdev.
  set (st := l_start lg) in *. unfold LOGSIZE in Hlc, Hlen.
  rewrite (u32_small ROOTDEV), (u32_small st) by (unfold ROOTDEV; lia).
  eapply wp_lread; [done|lia|by rewrite map_img_empty|
    apply room1; rewrite size_empty; unfold NBUF; lia|].
  intros s1 i _ Hr1. wp_steps. pose proof (lookup_insert_eq ∅ i st) as Hi.
  rewrite (lrep_data _ _ _ _ _ _ _ _ _ Hr1 Hi), (lrep_clean _ _ _ _ _ _ st Hr) by set_solver.
  set (d := dread dk st) in *. eapply wp_upd_log; [done|]. intros s2 Hr2 _. wp_step.
  eapply wp_mono; [apply (wp_for_loop (fun j s' => exists bl,
    lrep s' (set_lh (Logheader (hdr_n d) bl) lg) dk v ∅ (<[i := st]> ∅) m /\
    length bl = LOGSIZE /\ forall k b, Z.of_nat k < j -> l !! k = Some b -> bl !! k = Some b))|].
  - eexists. split_and!; [exact Hr2|done|lia].
  - intros j s' Hj (bl & Hr' & Hbl & Hk). unfold LOGSIZE in Hbl.
    destruct (lookup_lt_is_Some_2 l (Z.to_nat j) ltac:(lia)) as [b Hb].
    destruct (lookup_lt_is_Some_2 bl (Z.to_nat j) ltac:(lia)) as [b0 Hb0].
    assert (hdr_block d j = b) as ->.
    { rewrite Hl in Hb. unfold hdr_list in Hb. rewrite list_lookup_fmap, lookup_seq_lt in Hb by lia.
      injection Hb as <-. f_equal. lia. }
    rewrite Forall_lookup in Hout. destruct (Hout _ _ Hb) as [Hb' _].
    rewrite bool_decide_eq_false_2 by (unfold BSIZE; lia).
    eapply wp_put_block; [done|lia|done|lia|]. intros s'' Hr'' _.
    eexists. split_and!; [exact Hr''|cbn; by rewrite length_insert|].
    intros k b' Hkj Hkb. cbn. destruct (decide (k = Z.to_nat j)) as [->|].
    + rewrite list_lookup_insert_eq by lia. congruence.
    + rewrite list_lookup_insert_ne by done. apply Hk; [lia|done].
  - intros [] s3 (bl & Hr3 & Hbl & Hk). eapply wp_lrelse; [done..| |].
    { right. eapply lrep_clean; [done|set_solver]. }
    intros s4 Hr4. rewrite delete_insert_id in Hr4 by done. eapply HQ; [done|].
    split; cbn; [done|lia| |done|done]. intros k b Hkb. apply Hk; [|done].
    apply lookup_lt_Some in Hkb. lia.
Qed.

(** [recover_from_log] installs the log found on disk, and a crash during it
    leaves the same content to recover. *)
Lemma wp_recover s lg dk v m (Q : unit -> lstate S -> Prop) :
  let l := hdr_list (dread dk (l_start lg)) in
  let u := recovered (l_start lg) dk in
  lrep s lg dk v ∅ ∅ m -> l_dev lg = ROOTDEV -> length (lh_block (l_lh lg)) = LOGSIZE ->
  0 <= hdr_n (dread dk (l_start lg)) -> log_ok (l_start lg) (l_size lg) (disksize dk) l ->
  (forall s' lh dk' w, lrep s' (set_lh lh lg) dk' w ∅ ∅ m ->
     lg_rep (set_lh lh lg) (disksize dk) [] -> disk_le dk dk' ->
     always (atomic lg l u u) dk dk' ->
     (forall b, outside (l_start lg) (l_size lg) (disksize dk) b -> w b = u b /\ dread dk' b = u b) ->
     hdr_n (dread dk' (l_start lg)) = 0 -> Q tt s') ->
  wp recover_from_log Q s.
Proof.
  intros l u Hr Hdev Hlen Hn Hok HQ. unfold recover_from_log. wp_step.
  eapply wp_read_head; [done..|]. intros s1 lh Hr1 Hlg1.
  set (lg1 := set_lh lh lg) in *. change (l_start lg) with (l_start lg1) in *.
  eapply (wp_install_erase s1 lg1 dk v u ∅ m l); [done|done|by left|done|done| | |].
  - intros i b Hi. unfold u, recovered. fold l.
    rewrite (proj2 (pos_Some l b i (lo_nodup _ _ _ _ Hok)) Hi). f_equal. lia.
  - intros b Hb _. unfold u, recovered. fold l. rewrite (proj2 (pos_None l b) Hb).
    split; [|done]. eapply lrep_clean; [done|set_solver].
  - intros s2 dk' w Hr2 Hle Hal Hfin Hn2.
    eapply (HQ s2 (Logheader 0 (lh_block lh))); [exact Hr2|exact (lg_rep_nil _ _ _ Hlg1)|done..].
Qed.
End boot.
