(* ===== verification/LogTx.v ===== *)
(** * Transactions

    [begin_op], [log_write] and [end_op] over the interface of the cache; the
    log implements the interface [Journal] of the file system. *)

From S2P Require Import Prelude Bytes Params Machine BlockCache Journal Log LogSpec.
Local Open Scope Z_scope.

Section locked.
Context {S : Type} `{BlockCacheSpec S}.
Implicit Types (s : lstate S) (lg : log) (dk : disk) (v : Z -> list Z)
  (p : gset Z) (h : gmap nat Z) (m : machine) (l : list Z).

Lemma lrep_new_mach s lg dk v p h m m' :
  lrep s lg dk v p h m -> mquiet (mach s) m' ->
  (forall i, slock_of m' (SBuf i) = slock_of (mach s) (SBuf i)) ->
  lrep (set_mach m' s) lg dk v p h m'.
Proof.
  intros [] Hq Hs. destruct (bc_view_mach (l_sub s) m') as (E1 & E2 & E3 & E4 & _).
  split; cbn; rewrite ?E1, ?E2, ?E3, ?E4; try done.
  - by apply bc_mach.
  - by rewrite mach_set.
Qed.

Lemma lrep_set_mach s lg dk v p h m m' :
  lrep s lg dk v p h m -> mquiet (mach s) m' ->
  (forall k, slock_of m' k = slock_of (mach s) k) ->
  lrep (set_mach m' s) lg dk v p h m.
Proof.
  intros Hr Hq Hs. destruct (lrep_new_mach _ _ _ _ _ _ _ m' Hr Hq ltac:(done)).
  split; try done. rewrite mach_set. etrans; [apply Hr|]. by split; [apply Hq|].
Qed.

Lemma wp_lonm {A} (f : M machine A) s (Q : A -> lstate S -> Prop) :
  wp f (fun a m' => Q a (set_mach m' s)) (mach s) -> wp (onm f) Q s.
Proof. intros Hw. apply wp_zoom. exact Hw. Qed.

(** [s] while the caller holds [log.lock], on the machine [m']. *)
Definition in_log s m' : Prop :=
  holds LLog m' /\ mrel (mach s) m' /\ slocks m' = slocks (mach s).

Lemma wp_log_acquire s lg dk v p h m (Q : unit -> lstate S -> Prop) :
  lrep s lg dk v p h m -> (forall m', in_log s m' -> Q tt (set_mach m' s)) ->
  wp (onm (acquire LLog)) Q s.
Proof.
  intros [] HQ. apply wp_lonm. apply wp_acquire; [by apply (bc_quiet (l_sub s))|].
  intros m' Hh Hr Hs _. by apply HQ.
Qed.

Lemma wp_log_release s lg dk v p h m m' (Q : unit -> lstate S -> Prop) :
  lrep s lg dk v p h m -> in_log s m' ->
  (forall s', lrep s' lg dk v p h m -> Q tt s') -> wp (onm (release LLog)) Q (set_mach m' s).
Proof.
  intros Hr (Hh & Hm & Hs) HQ. apply wp_lonm. rewrite mach_set. apply wp_release; [done|].
  intros m2 Hq Hs2 _. rewrite set_mach_set. apply HQ. apply lrep_set_mach; [done| |].
  - split; [apply Hq|]. etrans; [done|apply Hq].
  - intros i. unfold slock_of. congruence.
Qed.

Lemma wp_log_wakeup s c m' (Q : unit -> lstate S -> Prop) :
  in_log s m' -> (forall m2, in_log s m2 -> Q tt (set_mach m2 s)) ->
  wp (onm (wakeup c)) Q (set_mach m' s).
Proof.
  intros (Hh & Hm & Hs) HQ. apply wp_lonm. rewrite mach_set.
  eapply wp_wakeup_holding; [done..|]. intros m2 Hh2 Hm2 Hs2 _. rewrite set_mach_set.
  apply HQ. split_and!; [done|by etrans|congruence].
Qed.

Lemma in_log_same s s' m' : mach s' = mach s -> in_log s m' -> in_log s' m'.
Proof. unfold in_log. by intros ->. Qed.

(** [begin_op] with room in the log. *)
Lemma wp_begin_op s lg dk v p h m (Q : unit -> lstate S -> Prop) :
  lrep s lg dk v p h m -> l_committing lg = 0 ->
  lh_n (l_lh lg) + (l_outstanding lg + 1) * MAXOPBLOCKS <= Z.of_nat LOGSIZE ->
  (forall s', lrep s' (set_outstanding (l_outstanding lg + 1) lg) dk v p h m -> Q tt s') ->
  wp begin_op Q s.
Proof.
  intros Hr Hc Hroom HQ. unfold begin_op. wp_step. eapply wp_log_acquire; [done|].
  intros m1 Hin. wp_steps. cbn [l_log set_mach lstate_machine].
  rewrite (lr_log _ _ _ _ _ _ _ Hr), Hc, c_bool_0, bool_decide_eq_false_2 by lia.
  unfold upd_log. wp_steps. cbn [l_log l_sub set_mach lstate_machine].
  set (s1 := Lstate (set_outstanding (l_outstanding lg + 1) lg) (l_sub s)).
  eapply (wp_log_release s1 _ _ _ _ _ _ m1); [| |done].
  - destruct Hr. split; cbn; try done.
  - by apply (in_log_same s).
Qed.

(** The index [log_write] chooses: the block's own, or the next free one. *)
Lemma wp_find_block s lg l dsz b (Q : option Z -> lstate S -> Prop) :
  l_log s = lg -> lg_rep lg dsz l -> 0 <= b < 2 ^ 31 ->
  (forall i, l !! i = Some b -> Q (Some (Z.of_nat i)) s) -> (b ∉ l -> Q None s) ->
  wp (for_find (length l) 0 (fun i =>
    blk ← get_block i; mret (if u32 blk =z b then Some i else None))) Q s.
Proof.
  intros Hlog [Hdev Hn Hbl Hlen [Hs He Hd Hls Hlc Hnd Hout]] Hb HQ1 HQ2.
  apply (wp_for_find (fun j s' => s' = s /\ forall k, Z.of_nat k < j -> l !! k <> Some b)).
  - split; [done|lia].
  - intros j s' Hj [-> Hk]. wp_step. unfold get_block. wp_steps.
    destruct (lookup_lt_is_Some_2 l (Z.to_nat j) ltac:(lia)) as [b' Hb'].
    rewrite bool_decide_eq_false_2 by lia. rewrite Hlog. eapply wp_of_option; [by apply Hbl|].
    rewrite Forall_lookup in Hout. destruct (Hout _ _ Hb') as [Hr' _].
    rewrite u32_small by lia. wp_steps. case_bool_decide as E.
    + subst b'. replace j with (Z.of_nat (Z.to_nat j)) by lia. by apply HQ1.
    + split; [done|]. intros k Hkj Hkb. destruct (decide (Z.of_nat k = j)) as [<-|].
      * rewrite Nat2Z.id in Hb'. congruence.
      * apply (Hk k); [lia|done].
  - intros s' [-> Hk]. apply HQ2. intros [k Hkb]%list_elem_of_lookup.
    apply (Hk k); [|done]. apply lookup_lt_Some in Hkb. lia.
Qed.

Lemma wp_lpin_locked s lg dk v p h m i b m' (Q : unit -> lstate S -> Prop) :
  lrep s lg dk v p h m -> h !! i = Some b ->
  (forall s', lrep s' lg dk v ({[b]} ∪ p) h m -> mach s' = mach s -> Q tt (set_mach m' s')) ->
  wp (sub (bpin i)) Q (set_mach m' s).
Proof.
  intros Hr Hi HQ. apply wp_sub. eapply wp_mono.
  - apply (bpin_mach (l_sub s) m' i (fun t => Q tt (Lstate (l_log s) t))).
    assert (wp (sub (bpin i)) (fun _ s' => Q tt (set_mach m' s') /\ l_log s' = l_log s) s) as Hw.
    { eapply wp_lpin; [done..|]. intros s' Hr' Hm'. split; [by apply HQ|].
      destruct Hr, Hr'. congruence. }
    unfold sub, zoom, wp in *. destruct (bpin i (l_sub s)); try done.
    destruct Hw as [Hw _]. exact Hw.
  - by intros [] t Ht.
Qed.

Lemma lrep_log s lg lg' dk v p h m :
  lrep s lg dk v p h m -> lrep (Lstate lg' (l_sub s)) lg' dk v p h m.
Proof. by intros []; split. Qed.

Lemma wp_put_block_locked s lg m' i b0 b (Q : unit -> lstate S -> Prop) :
  l_log s = lg -> 0 <= i -> lh_block (l_lh lg) !! Z.to_nat i = Some b0 -> 0 <= b < 2 ^ 31 ->
  Q tt (set_mach m' (Lstate (set_lh (Logheader (lh_n (l_lh lg))
     (<[Z.to_nat i := b]> (lh_block (l_lh lg)))) lg) (l_sub s))) ->
  wp (put_block i b) Q (set_mach m' s).
Proof.
  intros <- Hi Hb0 Hb HQ. unfold put_block, get_block, upd_log. wp_steps.
  rewrite bool_decide_eq_false_2 by lia. eapply wp_of_option; [done|]. wp_steps.
  by rewrite s32_small.
Qed.

(** The header after [log_write]. *)
Definition absorb l (b : Z) : list Z := if decide (b ∈ l) then l else l ++ [b].

Lemma lg_rep_same lg dsz l i b : lg_rep lg dsz l -> l !! i = Some b ->
  lg_rep (set_lh (Logheader (lh_n (l_lh lg)) (<[i := b]> (lh_block (l_lh lg)))) lg) dsz l.
Proof.
  intros [Hdev Hn Hbl Hlen Hok] Hi. rewrite list_insert_id by (by apply Hbl). by split.
Qed.

Lemma lg_rep_snoc lg dsz l b : lg_rep lg dsz l -> b ∉ l ->
  outside (l_start lg) (l_size lg) dsz b -> (length l < LOGSIZE)%nat ->
  Z.of_nat (length l) < l_size lg - 1 ->
  lg_rep (set_lh (Logheader (lh_n (l_lh lg) + 1)
    (<[length l := b]> (lh_block (l_lh lg)))) lg) dsz (l ++ [b]).
Proof.
  intros [Hdev Hn Hbl Hlen [Hs He Hd Hls Hlc Hnd Hout]] Hb Ho Hl1 Hl2.
  split; cbn; [done|rewrite length_app; cbn; lia| |by rewrite length_insert|].
  - intros k b' Hk. destruct (decide (k = length l)) as [->|Hne].
    + rewrite list_lookup_insert_eq by lia.
      rewrite lookup_app_r, Nat.sub_diag in Hk by lia. done.
    + rewrite list_lookup_insert_ne by done. apply Hbl.
      assert (k < length (l ++ [b]))%nat as Hlt by (by eapply lookup_lt_Some).
      rewrite length_app in Hlt. cbn [length] in Hlt. by rewrite lookup_app_l in Hk by lia.
  - split; cbn; try done; [rewrite length_app; cbn [length]; lia..| |].
    + apply NoDup_app. split_and!; [done| |apply NoDup_singleton].
      intros x Hx ->%list_elem_of_singleton. done.
    + apply Forall_app. split; [done|by constructor].
Qed.

Lemma wp_log_write s lg dk v p h m i b l (Q : unit -> lstate S -> Prop) :
  lrep s lg dk v p h m -> h !! i = Some b -> lg_rep lg (disksize dk) l ->
  outside (l_start lg) (l_size lg) (disksize dk) b -> 1 <= l_outstanding lg ->
  (length l < LOGSIZE)%nat -> Z.of_nat (length l) < l_size lg - 1 ->
  (forall s' lh, lrep s' (set_lh lh lg) dk v ({[b]} ∪ p) h m ->
     lg_rep (set_lh lh lg) (disksize dk) (absorb l b) -> Q tt s') ->
  wp (log_write i) Q s.
Proof.
  intros Hr Hi Hlg Ho Hout Hl1 Hl2 HQ. pose proof (lg_n _ _ _ Hlg) as Hn.
  pose proof (lo_dsz _ _ _ _ (lg_ok _ _ _ Hlg)) as Hd.
  unfold log_write. wp_steps. rewrite (lr_log _ _ _ _ _ _ _ Hr), Hn.
  rewrite !bool_decide_eq_false_2 by lia. cbn [orb]. wp_step.
  eapply wp_log_acquire; [done|]. intros m1 Hin. wp_steps.
  destruct (bc_view_mach (l_sub s) m1) as (_ & _ & _ & _ & _ & Eb).
  cbn [l_sub set_mach lstate_machine]. rewrite Eb, (lrep_blockno _ _ _ _ _ _ _ _ _ Hr Hi), Nat2Z.id.
  eapply wp_find_block; [by apply Hr|done|unfold outside in Ho; lia|..].
  - intros k Hk. pose proof (lookup_lt_Some _ _ _ Hk) as Hkl. cbn [from_option id]. wp_step.
    eapply (wp_put_block_locked s lg); [apply Hr|lia| |unfold outside in Ho; lia|].
    { rewrite Nat2Z.id. by apply (lg_blocks _ _ _ Hlg). }
    unfold when. rewrite bool_decide_eq_false_2 by lia. wp_steps. rewrite Nat2Z.id.
    eapply wp_lpin_locked; [by eapply lrep_log|done|]. intros s2 Hr2 Hm2.
    eapply wp_log_release; [done|by eapply in_log_same|]. intros s3 Hr3.
    eapply HQ; [done|]. unfold absorb. rewrite decide_True by (by eapply list_elem_of_lookup_2).
    by apply lg_rep_same.
  - intros Hb. cbn [from_option id]. rewrite Z.max_r by lia. wp_step.
    destruct (lookup_lt_is_Some_2 (lh_block (l_lh lg)) (length l)) as [b0 Hb0];
      [by rewrite (lg_len _ _ _ Hlg)|].
    eapply (wp_put_block_locked s lg _ _ b0); [apply Hr|lia|by rewrite Nat2Z.id|
      unfold outside in Ho; lia|].
    unfold when. rewrite bool_decide_eq_true_2 by lia. unfold upd_log. wp_steps. rewrite Nat2Z.id, <- Hn.
    set (lg' := set_lh (Logheader (lh_n (l_lh lg) + 1)
      (<[length l := b]> (lh_block (l_lh lg)))) lg).
    eapply (wp_lpin_locked (Lstate lg' (l_sub s)) lg' _ _ _ _ _ _ _ m1);
      [by eapply lrep_log|done|]. intros s2 Hr2 Hm2.
    eapply wp_log_release; [done|by eapply in_log_same|]. intros s3 Hr3.
    eapply HQ; [done|]. unfold absorb. rewrite decide_False by done. by apply lg_rep_snoc.
Qed.
End locked.

(** ** end_op *)

Section end_op.
Context {S : Type} `{BlockCacheSpec S}.
Implicit Types (s : lstate S) (lg : log) (dk : disk) (v : Z -> list Z)
  (p : gset Z) (h : gmap nat Z) (m : machine) (l : list Z).

Lemma wp_upd_log_locked s lg f m' (Q : unit -> lstate S -> Prop) :
  l_log s = lg -> Q tt (set_mach m' (Lstate (f lg) (l_sub s))) ->
  wp (upd_log f) Q (set_mach m' s).
Proof. intros <- HQ. exact HQ. Qed.

Lemma lg_rep_fields lg lg' dsz l : lg_rep lg dsz l ->
  l_start lg' = l_start lg -> l_size lg' = l_size lg -> l_dev lg' = l_dev lg ->
  l_lh lg' = l_lh lg -> lg_rep lg' dsz l.
Proof. intros [] E1 E2 E3 E4. split; rewrite ?E1, ?E2, ?E3, ?E4; done. Qed.

(** The last [end_op] of a transaction. *)
Lemma wp_end_op_last s lg dk v m l (Q : unit -> lstate S -> Prop) :
  lrep s lg dk v (list_to_set l) ∅ m -> lg_rep lg (disksize dk) l -> (length l < NBUF)%nat ->
  hdr_n (dread dk (l_start lg)) = 0 -> l_committing lg = 0 -> l_outstanding lg = 1 ->
  (forall s' lg' dk' w, lrep s' lg' dk' w ∅ ∅ m -> lg_rep lg' (disksize dk) [] ->
     l_start lg' = l_start lg -> l_size lg' = l_size lg -> l_outstanding lg' = 0 ->
     l_committing lg' = 0 -> disk_le dk dk' -> always (atomic lg l (dread dk) v) dk dk' ->
     (forall b, outside (l_start lg) (l_size lg) (disksize dk) b -> w b = v b /\ dread dk' b = v b) ->
     hdr_n (dread dk' (l_start lg)) = 0 -> Q tt s') ->
  wp end_op Q s.
Proof.
  intros Hr Hlg Hsz Hh Hc Ho HQ. unfold end_op. wp_step. eapply wp_log_acquire; [done|].
  intros m1 Hin. wp_step. eapply (wp_upd_log_locked s); [apply Hr|]. wp_steps.
  set (lg1 := set_outstanding (l_outstanding lg - 1) lg).
  change (l_log (set_mach m1 (Lstate lg1 (l_sub s)))) with lg1.
  change (l_committing lg1) with (l_committing lg).
  change (l_outstanding lg1) with (l_outstanding lg - 1). rewrite Hc, Ho, c_bool_0.
  rewrite bool_decide_eq_true_2 by lia. wp_step.
  eapply (wp_upd_log_locked (Lstate lg1 (l_sub s))); [done|]. wp_step.
  set (lg2 := set_committing 1 lg1).
  eapply wp_log_release; [by eapply (lrep_log s _ lg2)|by eapply in_log_same|].
  intros s3 Hr3. unfold when. wp_step.
  assert (lg_rep lg2 (disksize dk) l) as Hlg2 by (by eapply lg_rep_fields).
  eapply (wp_commit _ lg2); [done..|]. intros s4 dk' w Hr4 Hle Hal Hfin Hn4. wp_step.
  eapply wp_log_acquire; [done|]. intros m5 Hin5. wp_step.
  eapply (wp_upd_log_locked s4); [apply Hr4|]. wp_step.
  set (lg5 := set_committing 0 (set_lh_n 0 lg2)).
  eapply (wp_log_wakeup (Lstate lg5 (l_sub s4))); [by eapply in_log_same|].
  intros m6 Hin6. eapply wp_log_release; [by eapply (lrep_log s4 _ lg5)|done|].
  intros s7 Hr7. eapply (HQ s7 lg5); try done.
  - apply (lg_rep_fields (set_lh_n 0 lg2)); try done. by eapply lg_rep_nil.
  - cbn. lia.
Qed.

(** An earlier one only gives back its reservation. *)
Lemma wp_end_op_more s lg dk v p h m (Q : unit -> lstate S -> Prop) :
  lrep s lg dk v p h m -> l_committing lg = 0 -> 1 < l_outstanding lg ->
  (forall s', lrep s' (set_outstanding (l_outstanding lg - 1) lg) dk v p h m -> Q tt s') ->
  wp end_op Q s.
Proof.
  intros Hr Hc Ho HQ. unfold end_op. wp_step. eapply wp_log_acquire; [done|].
  intros m1 Hin. wp_step. eapply (wp_upd_log_locked s); [apply Hr|]. wp_steps.
  set (lg1 := set_outstanding (l_outstanding lg - 1) lg).
  change (l_log (set_mach m1 (Lstate lg1 (l_sub s)))) with lg1.
  change (l_committing lg1) with (l_committing lg).
  change (l_outstanding lg1) with (l_outstanding lg - 1). rewrite Hc, c_bool_0.
  rewrite bool_decide_eq_false_2 by lia. wp_step.
  eapply (wp_log_wakeup (Lstate lg1 (l_sub s))); [by eapply in_log_same|]. intros m2 Hin2. wp_step.
  eapply wp_log_release; [by eapply (lrep_log s _ lg1)|done|].
  intros s3 Hr3. unfold when. wp_step. by apply HQ.
Qed.
End end_op.

(** ** The interface *)

Section journal.
Context {S : Type} `{BlockCacheSpec S}.
Implicit Types (s : lstate S) (lg : log) (dk : disk) (v : Z -> list Z)
  (p : gset Z) (h : gmap nat Z) (m : machine) (l : list Z).

Definition ldisk s : disk := cv_disk bc (l_sub s).

(** Between two operations: the transaction so far is on the blocks [l], and
    the log on disk is empty. *)
Record log_inv s l : Prop := {
  li_cache : cv_inv bc (l_sub s);
  li_lg : lg_rep (l_log s) (disksize (ldisk s)) l;
  li_committing : l_committing (l_log s) = 0;
  li_outstanding : 0 <= l_outstanding (l_log s);
  li_pinned : cv_pinned bc (l_sub s) = list_to_set l;
  li_room : (length l < NBUF)%nat;
  li_hdr : hdr_n (dread (ldisk s) (l_start (l_log s))) = 0;
  li_held : forall i b, cv_held bc (l_sub s) !! i = Some b ->
              outside (l_start (l_log s)) (l_size (l_log s)) (disksize (ldisk s)) b
}.

Definition log_view : journal_view (lstate S) := {|
  jv_inv s := exists l, log_inv s l;
  jv_geom s := Geometry (l_start (l_log s)) (l_size (l_log s)) (disksize (ldisk s));
  jv_val s := cv_val bc (l_sub s);
  jv_old s := dread (ldisk s);
  jv_logged s := cv_pinned bc (l_sub s);
  jv_cap s := Nat.min (NBUF - 1) (Z.to_nat (l_size (l_log s) - 1));
  jv_open s := l_outstanding (l_log s);
  jv_held s := cv_held bc (l_sub s)
|}.

Lemma lrep_self s l : log_inv s l ->
  lrep s (l_log s) (ldisk s) (cv_val bc (l_sub s)) (list_to_set l) (cv_held bc (l_sub s)) (mach s).
Proof. by intros []. Qed.

Lemma log_inv_rep s l s' lg' dk' w l' h' m :
  log_inv s l -> lrep s' lg' dk' w (list_to_set l') h' m ->
  l_start lg' = l_start (l_log s) -> l_size lg' = l_size (l_log s) ->
  l_committing lg' = 0 -> 0 <= l_outstanding lg' ->
  disksize dk' = disksize (ldisk s) -> lg_rep lg' (disksize (ldisk s)) l' ->
  (length l' < NBUF)%nat ->
  hdr_n (dread dk' (l_start lg')) = 0 ->
  (forall i b, h' !! i = Some b ->
     outside (l_start lg') (l_size lg') (disksize dk') b) -> log_inv s' l'.
Proof.
  intros [] [Hlog Hinv Hdk Hval Hpin Hheld Hm] Hst Hsz Hc Ho Hd Hlg Hroom Hn Hh.
  unfold ldisk in *. split; unfold ldisk; rewrite ?Hlog, ?Hdk, ?Hpin, ?Hheld, ?Hd; try done.
  intros i b Hi. rewrite <- Hd. by eapply Hh.
Qed.

(** What the operations that do not touch the log or the disk keep. *)
Lemma log_keep s l s' w l' h' lh o :
  log_inv s l ->
  lrep s' (set_outstanding o (set_lh lh (l_log s))) (ldisk s) w (list_to_set l') h' (mach s) ->
  0 <= o -> lg_rep (set_lh lh (l_log s)) (disksize (ldisk s)) l' -> (length l' < NBUF)%nat ->
  (forall i b, h' !! i = Some b ->
     outside (l_start (l_log s)) (l_size (l_log s)) (disksize (ldisk s)) b) ->
  jv_keep log_view s s' /\ (forall b, jv_val log_view s' b = w b) /\
  (forall b, jv_old log_view s' b = jv_old log_view s b) /\
  jv_logged log_view s' = list_to_set l' /\ jv_open log_view s' = o /\
  jv_held log_view s' = h'.
Proof.
  intros HI Hr Ho Hlg Hroom Hh.
  assert (log_inv s' l') as HI'.
  { eapply log_inv_rep; [exact HI|exact Hr|done|done|apply HI|done|done| |done|apply HI|done].
    by eapply lg_rep_fields. }
  destruct Hr as [Hlog Hinv Hdk Hval Hpin Hheld Hm]. cbn. unfold ldisk in *.
  rewrite Hdk, Hpin, Hheld, Hlog. split_and!; try done.
  split; cbn; unfold ldisk; rewrite ?Hlog, ?Hdk; try done. by exists l'.
Qed.

Lemma set_outstanding_id lg : set_outstanding (l_outstanding lg) lg = lg.
Proof. by destruct lg. Qed.
Lemma set_lh_id lg : set_lh (l_lh lg) lg = lg.
Proof. by destruct lg. Qed.

Lemma log_keep_same s l s' w h' :
  log_inv s l -> lrep s' (l_log s) (ldisk s) w (list_to_set l) h' (mach s) ->
  (forall i b, h' !! i = Some b ->
     outside (l_start (l_log s)) (l_size (l_log s)) (disksize (ldisk s)) b) ->
  jv_keep log_view s s' /\ (forall b, jv_val log_view s' b = w b) /\
  (forall b, jv_old log_view s' b = jv_old log_view s b) /\
  jv_logged log_view s' = jv_logged log_view s /\ jv_open log_view s' = jv_open log_view s /\
  jv_held log_view s' = h'.
Proof.
  intros HI Hr Hh. replace (jv_logged log_view s) with (list_to_set l : gset Z)
    by (symmetry; apply HI).
  eapply (log_keep s l s' w l h' (l_lh (l_log s))); [done| |apply HI| |apply HI|done].
  - rewrite set_lh_id. cbn [jv_open log_view]. by rewrite set_outstanding_id.
  - rewrite set_lh_id. apply HI.
Qed.
End journal.

#[export] Instance log_journal {S} `{BlockCache S} : Journal (lstate S) := {|
  jread dev b := sub (bread dev b);
  jrelse i := sub (brelse i);
  jdata s := bdata (l_sub s);
  jset i d := sub (bset i d);
  jbegin := begin_op;
  jend := end_op;
  jwrite := log_write
|}.

Section specs.
Context {S : Type} `{BlockCacheSpec S}.
Implicit Types (s : lstate S) (l : list Z).

Lemma log_logged s l : log_inv s l -> size (jv_logged log_view s) = length l.
Proof.
  intros []. cbn. rewrite li_pinned0. apply size_list_to_set. apply li_lg0.
Qed.

Lemma log_quiet s : jv_inv log_view s -> quiet (mach s) /\ is_Some (curpid (mach s)).
Proof. intros [l []]. by apply (bc_quiet (l_sub s)). Qed.

Lemma log_mach s m : jv_inv log_view s -> mquiet (mach s) m ->
  (forall i, slock_of m (SBuf i) = slock_of (mach s) (SBuf i)) -> jv_inv log_view (set_mach m s).
Proof.
  intros [l HI] Hq Hs. exists l.
  eapply (log_inv_rep s l); [done|eapply lrep_new_mach; [by apply lrep_self|done..]|
    done..|apply HI|apply HI|done|apply HI|apply HI|apply HI|apply HI].
Qed.

Lemma log_view_mach s m : jv_geom log_view (set_mach m s) = jv_geom log_view s /\
  jv_val log_view (set_mach m s) = jv_val log_view s /\
  jv_old log_view (set_mach m s) = jv_old log_view s /\
  jv_logged log_view (set_mach m s) = jv_logged log_view s /\
  jv_cap log_view (set_mach m s) = jv_cap log_view s /\
  jv_open log_view (set_mach m s) = jv_open log_view s /\
  jv_held log_view (set_mach m s) = jv_held log_view s /\
  jdata (set_mach m s) = jdata s.
Proof.
  destruct (bc_view_mach (l_sub s) m) as (E1 & E2 & E3 & E4 & E5 & _). cbn. unfold ldisk. cbn.
  by rewrite E1, E2, E3, E4, E5.
Qed.

Lemma log_jread s b : jv_inv log_view s -> jv_dom log_view s b ->
  b ∉@{gset Z} map_img (jv_held log_view s) ->
  (size (jv_logged log_view s) + size (jv_held log_view s) < NBUF)%nat ->
  wp (jread ROOTDEV b) (fun i s' =>
    jv_same log_view s s' /\ jv_held log_view s !! i = None /\
    jv_held log_view s' = <[i := b]> (jv_held log_view s)) s.
Proof.
  intros [l HI] Hb Hh Hroom. pose proof (lrep_self _ _ HI) as Hr.
  eapply wp_lread; [done|apply Hb|done| |].
  - rewrite <- (li_pinned _ _ HI). cbn in Hroom.
    set (x := cv_pinned bc (l_sub s)) in *. set (y := cv_held bc (l_sub s)) in *.
    pose proof (size_map_img_le y). pose proof (size_union_le x (map_img y)).
    pose proof (size_union_le {[b]} (x ∪ map_img y)). rewrite size_singleton in *. lia.
  - intros s' i Hn Hr'. destruct (log_keep_same _ _ _ _ _ HI Hr') as (Hk & Hv & Hold & Hlg & Hop & Hhe).
    { intros j b' [[_ <-]|[_ Hj]]%lookup_insert_Some; [done|by eapply HI]. }
    split_and!; [|done|done]. by split.
Qed.

Lemma log_jrelse s i b : jv_inv log_view s -> jv_held log_view s !! i = Some b ->
  b ∈ jv_logged log_view s \/ jv_val log_view s b = jv_old log_view s b ->
  wp (jrelse i) (fun _ s' =>
    jv_same log_view s s' /\ jv_held log_view s' = delete i (jv_held log_view s)) s.
Proof.
  intros [l HI] Hi Hc. pose proof (lrep_self _ _ HI) as Hr. rewrite <- (li_pinned _ _ HI) in Hr.
  eapply wp_lrelse; [done..|]. rewrite (li_pinned _ _ HI).
  intros s' Hr'. destruct (log_keep_same _ _ _ _ _ HI Hr') as (Hk & Hv & Hold & Hlg & Hop & Hhe).
  { intros j b' [_ Hj]%lookup_delete_Some. by eapply HI. }
  split; [|done]. by split.
Qed.

Lemma log_jset s i b d : jv_inv log_view s -> jv_held log_view s !! i = Some b -> block_ok d ->
  wp (jset i d) (fun _ s' =>
    jv_keep log_view s s' /\
    (forall b', jv_val log_view s' b' = if decide (b' = b) then d else jv_val log_view s b') /\
    (forall b', jv_old log_view s' b' = jv_old log_view s b') /\
    jv_logged log_view s' = jv_logged log_view s /\ jv_open log_view s' = jv_open log_view s /\
    jv_held log_view s' = jv_held log_view s) s.
Proof.
  intros [l HI] Hi Hd. pose proof (lrep_self _ _ HI) as Hr. eapply wp_lset; [done..|].
  intros s' Hr'. by destruct (log_keep_same _ _ _ _ _ HI Hr') as (Hk & Hv & ?); [apply HI|].
Qed.

Lemma log_jwrite s i b : jv_inv log_view s -> jv_held log_view s !! i = Some b ->
  1 <= jv_open log_view s -> (size (jv_logged log_view s) < jv_cap log_view s)%nat ->
  wp (jwrite i) (fun _ s' =>
    jv_keep log_view s s' /\ (forall b', jv_val log_view s' b' = jv_val log_view s b') /\
    (forall b', jv_old log_view s' b' = jv_old log_view s b') /\
    jv_logged log_view s' = {[b]} ∪ jv_logged log_view s /\
    jv_open log_view s' = jv_open log_view s /\ jv_held log_view s' = jv_held log_view s) s.
Proof.
  intros [l HI] Hi Ho Hcap. pose proof (lrep_self _ _ HI) as Hr.
  rewrite (log_logged _ _ HI) in Hcap. cbn [jv_cap log_view] in Hcap. unfold NBUF in Hcap.
  eapply wp_log_write; [done|done|apply HI|by eapply HI|done|unfold LOGSIZE; lia|lia|].
  intros s' lh Hr' Hlg.
  assert (list_to_set (absorb l b) =@{gset Z} {[b]} ∪ list_to_set l) as E.
  { unfold absorb. apply set_eq. intros x. case_decide; set_solver. }
  rewrite <- E in Hr'.
  destruct (log_keep s l s' (cv_val bc (l_sub s)) (absorb l b) (cv_held bc (l_sub s)) lh
    (jv_open log_view s)) as (Hk & Hv & Hold & Hlgd & Hop & Hhe);
    [done| |apply HI|done| |apply HI|].
  - change (jv_open log_view s) with (l_outstanding (set_lh lh (l_log s))).
    by rewrite set_outstanding_id.
  - unfold absorb, NBUF. case_decide; [|rewrite length_app; cbn [length]]; lia.
  - split_and!; try done. rewrite Hlgd, E. cbn. by rewrite (li_pinned _ _ HI).
Qed.

Lemma log_jbegin s : jv_inv log_view s ->
  Z.of_nat (size (jv_logged log_view s)) + (jv_open log_view s + 1) * MAXOPBLOCKS <= Z.of_nat LOGSIZE ->
  wp jbegin (fun _ s' =>
    jv_keep log_view s s' /\ (forall b, jv_val log_view s' b = jv_val log_view s b) /\
    (forall b, jv_old log_view s' b = jv_old log_view s b) /\
    jv_logged log_view s' = jv_logged log_view s /\
    jv_open log_view s' = jv_open log_view s + 1 /\
    jv_held log_view s' = jv_held log_view s) s.
Proof.
  intros [l HI] Hroom. pose proof (lrep_self _ _ HI) as Hr.
  rewrite (log_logged _ _ HI), <- (lg_n _ _ _ (li_lg _ _ HI)) in Hroom.
  eapply wp_begin_op; [done|apply HI|done|]. intros s' Hr'.
  destruct (log_keep s l s' (cv_val bc (l_sub s)) l (cv_held bc (l_sub s)) (l_lh (l_log s))
    (jv_open log_view s + 1)) as (Hk & Hv & Hold & Hlgd & Hop & Hhe); [done| | | |apply HI|apply HI|].
  - by rewrite set_lh_id.
  - cbn. pose proof (li_outstanding _ _ HI). lia.
  - rewrite set_lh_id. apply HI.
  - split_and!; try done. rewrite Hlgd. symmetry. apply HI.
Qed.

(** The last [end_op], with the crash points of the commit. *)
Lemma log_end_op s : jv_inv log_view s -> jv_open log_view s = 1 -> jv_held log_view s = ∅ ->
  wp end_op (fun _ s' =>
    (jv_keep log_view s s' /\
     (forall b, jv_dom log_view s b -> jv_val log_view s' b = jv_val log_view s b) /\
     (forall b, jv_dom log_view s b -> jv_old log_view s' b = jv_val log_view s b) /\
     jv_logged log_view s' = ∅ /\ jv_open log_view s' = 0 /\ jv_held log_view s' = ∅) /\
    disk_le (ldisk s) (ldisk s') /\
    always (atomic (l_log s) (elements (jv_logged log_view s)) (jv_old log_view s)
              (jv_val log_view s)) (ldisk s) (ldisk s')) s.
Proof.
  intros [l HI] Ho Hh. pose proof (lrep_self _ _ HI) as Hr. cbn in Hh. rewrite Hh in Hr.
  eapply wp_end_op_last; [done|apply HI..|done|].
  intros s' lg' dk' w Hr' Hlg' Hst Hsz Hout Hcm Hle Hal Hfin Hn.
  assert (log_inv s' []) as HI'.
  { eapply (log_inv_rep s l); [done|exact Hr'|done|done|done|lia|by apply le_size|done|
      cbn; unfold NBUF; lia|by rewrite Hst|done]. }
  destruct Hr' as [Hlog Hinv Hdk Hval Hpin Hheld Hm]. cbn. unfold ldisk in *.
  rewrite Hdk, Hpin, Hheld, Hlog. split_and!; try done.
  - split; cbn; unfold ldisk; rewrite ?Hlog, ?Hdk; [by exists []|done| |by rewrite Hsz].
    rewrite Hst, Hsz. by rewrite (le_size _ _ Hle).
  - intros b Hb. rewrite Hval. by apply Hfin.
  - intros b Hb. by apply Hfin.
  - eapply always_mono; [|done]. intros d (Hrec & Hc & Hu). split_and!; [done..|].
    intros b Hb Hbl. apply Hu; [done|]. intros Hb'. apply Hbl.
    rewrite (li_pinned _ _ HI). by apply elem_of_elements, elem_of_list_to_set.
Qed.
End specs.

#[export] Instance log_spec {S} `{BlockCacheSpec S} : JournalSpec (lstate S).
Proof.
  refine {| jv := log_view |}.
  - apply log_quiet.
  - intros s b [l HI]. apply bc_val_ok, HI.
  - apply log_mach.
  - apply log_view_mach.
  - intros s i b [l HI] Hi. by eapply lrep_data; [apply lrep_self|].
  - intros s b [l HI] Hl Hh. apply bc_clean; [apply HI|]. unfold cv_busy. by apply not_elem_of_union.
  - apply log_jread.
  - apply log_jrelse.
  - apply log_jset.
  - apply log_jwrite.
  - apply log_jbegin.
  - intros s Hi Ho Hh. eapply wp_mono; [by apply log_end_op|]. by intros [] s' [? _].
Defined.
