(* ===== verification/Crash.v ===== *)
(** * Crash safety of the storage stack

    The log over the buffer cache over the disk: [initlog] after a reboot, and
    the theorems on transactions and crashes for the whole stack. *)

From S2P Require Import Prelude Bytes Params Machine BlockCache Bio BioSpec Journal Log LogSpec LogTx.
Local Open Scope Z_scope.

(** ** initlog *)

Section initlog.
Context {S : Type} `{BlockCacheSpec S}.
Implicit Types (s : lstate S) (lg : log) (dk : disk) (v : Z -> list Z)
  (p : gset Z) (h : gmap nat Z) (m : machine) (l : list Z).

Lemma wp_readsb s lg dk v m (Q : superblock -> lstate S -> Prop) :
  lrep s lg dk v ∅ ∅ m -> 1 < disksize dk ->
  (forall s', lrep s' lg dk v ∅ ∅ m -> Q (sb_of (dread dk 1)) s') ->
  wp (readsb ROOTDEV) Q s.
Proof.
  intros Hr Hd HQ. unfold readsb. wp_step. rewrite u32_small by (unfold ROOTDEV; lia).
  eapply wp_lread; [done|lia|by rewrite map_img_empty|
    apply room1; rewrite size_empty; unfold NBUF; lia|].
  intros s1 i _ Hr1. pose proof (lookup_insert_eq ∅ i 1) as Hi. wp_steps.
  rewrite (lrep_data _ _ _ _ _ _ _ _ _ Hr1 Hi), (lrep_clean _ _ _ _ _ _ 1 Hr) by set_solver.
  eapply wp_lrelse; [done..| |].
  { right. eapply lrep_clean; [done|set_solver]. }
  intros s2 Hr2. rewrite delete_insert_id in Hr2 by done. wp_steps. by apply HQ.
Qed.

Lemma quiet_initlock m (l : lockid) : quiet m -> mquiet m (set_lock l initlock m).
Proof.
  intros [Hok Hf]. split; [|by split]. split; [done|].
  intros l'. unfold lock_free. rewrite lock_of_set. case_decide; [done|apply Hf].
Qed.

(** The log that the superblock describes. *)
Definition sb_log dk lg : log :=
  Log (sb_logstart (sb_of (dread dk 1))) (sb_nlog (sb_of (dread dk 1)))
      (l_outstanding lg) (l_committing lg) ROOTDEV (l_lh lg).

Lemma wp_initlog s lg dk v m (Q : unit -> lstate S -> Prop) :
  let u := recovered (l_start (sb_log dk lg)) dk in
  let l := hdr_list (dread dk (l_start (sb_log dk lg))) in
  lrep s lg dk v ∅ ∅ m -> 1 < disksize dk -> length (lh_block (l_lh lg)) = LOGSIZE ->
  recoverable (sb_log dk lg) dk ->
  (forall s' lh dk' w, lrep s' (set_lh lh (sb_log dk lg)) dk' w ∅ ∅ m ->
     lg_rep (set_lh lh (sb_log dk lg)) (disksize dk) [] -> disk_le dk dk' ->
     always (atomic (sb_log dk lg) l u u) dk dk' ->
     (forall b, outside (l_start (sb_log dk lg)) (l_size (sb_log dk lg)) (disksize dk) b ->
        w b = u b /\ dread dk' b = u b) ->
     hdr_n (dread dk' (l_start (sb_log dk lg))) = 0 -> Q tt s') ->
  wp (initlog ROOTDEV) Q s.
Proof.
  intros u l Hr Hd Hlen [Hn Hok] HQ. unfold initlog.
  rewrite bool_decide_eq_false_2 by (unfold BSIZE, LOGSIZE; lia). wp_step. apply wp_lonm. wp_step.
  assert (lrep (set_mach (set_lock LLog initlock (mach s)) s) lg dk v ∅ ∅ m) as Hr1.
  { apply lrep_set_mach; [done| |done]. apply quiet_initlock, (bc_quiet (l_sub s)), Hr. }
  wp_step. eapply wp_readsb; [done..|]. intros s2 Hr2. wp_step.
  eapply wp_upd_log; [done|]. intros s3 Hr3 _. pose proof Hok as [Hs He Hdz Hls _ _ _].
  rewrite (s32_small (sb_logstart _)), (s32_small (sb_nlog _)) in Hr3 by (cbn in *; lia).
  eapply (wp_recover _ (sb_log dk lg)); [exact Hr3|done|done|done|exact Hok|]. exact HQ.
Qed.
End initlog.

(** ** A transaction on one block

    The typical use of the log, as in the comment before [log_write]. *)

Section update.
Context {T : Type} `{JournalSpec T}.
Implicit Types s : T.

Definition write_block (b : Z) (d : list Z) : M T unit :=
  bp ← jread ROOTDEV b;
  jset bp d ;;
  jwrite bp ;;
  jrelse bp.

Lemma wp_write_block s b d (Q : unit -> T -> Prop) :
  jv_inv jv s -> jv_dom jv s b -> jv_held jv s = ∅ -> block_ok d -> 1 <= jv_open jv s ->
  (size (jv_logged jv s) < jv_cap jv s)%nat -> (size (jv_logged jv s) < NBUF)%nat ->
  (forall s', jv_keep jv s s' ->
     (forall b', jv_val jv s' b' = if decide (b' = b) then d else jv_val jv s b') ->
     (forall b', jv_old jv s' b' = jv_old jv s b') ->
     jv_logged jv s' = {[b]} ∪ jv_logged jv s -> jv_open jv s' = jv_open jv s ->
     jv_held jv s' = ∅ -> Q tt s') ->
  wp (write_block b d) Q s.
Proof.
  intros Hi Hb Hh Hd Ho Hc Hn HQ. unfold write_block. wp_step.
  wp_apply jread_spec; [done|done|rewrite Hh, map_img_empty; set_solver|
    rewrite Hh, map_size_empty; lia|].
  intros i s1 ([[Hi1 Hm1 Hd1 Hc1] Hv1 Ho1 Hl1 Hop1] & _ & Hh1). rewrite Hh in Hh1. wp_step.
  pose proof (lookup_insert_eq ∅ i b) as Hib.
  wp_apply jset_spec; [done|by rewrite Hh1|done|].
  intros [] s2 ([Hi2 Hm2 Hd2 Hc2] & Hv2 & Ho2 & Hl2 & Hop2 & Hh2). wp_step.
  wp_apply jwrite_spec; [done|by rewrite Hh2, Hh1|lia|by rewrite Hl2, Hl1, Hc2, Hc1|].
  intros [] s3 ([Hi3 Hm3 Hd3 Hc3] & Hv3 & Ho3 & Hl3 & Hop3 & Hh3).
  wp_apply jrelse_spec; [done|by rewrite Hh3, Hh2, Hh1|left; rewrite Hl3; set_solver|].
  intros [] s4 ([[Hi4 Hm4 Hd4 Hc4] Hv4 Ho4 Hl4 Hop4] & Hh4). apply HQ.
  - split; [done|by repeat (etrans; [eassumption|])|congruence..].
  - intros b'. rewrite Hv4, Hv3, Hv2. case_decide; [done|apply Hv1].
  - intros b'. by rewrite Ho4, Ho3, Ho2, Ho1.
  - by rewrite Hl4, Hl3, Hl2, Hl1.
  - congruence.
  - rewrite Hh4, Hh3, Hh2, Hh1. by rewrite delete_insert_id.
Qed.

Definition transaction (b : Z) (d : list Z) : M T unit :=
  jbegin ;; write_block b d ;; jend.

Lemma wp_transaction s b d (Q : unit -> T -> Prop) :
  jv_inv jv s -> jv_open jv s = 0 -> jv_held jv s = ∅ -> jv_logged jv s = ∅ ->
  (0 < jv_cap jv s)%nat -> jv_dom jv s b -> block_ok d ->
  (forall s', jv_keep jv s s' ->
     (forall b', jv_dom jv s b' -> jv_val jv s' b' = if decide (b' = b) then d else jv_val jv s b') ->
     (forall b', jv_dom jv s b' -> jv_old jv s' b' = jv_val jv s' b') ->
     jv_open jv s' = 0 -> jv_held jv s' = ∅ -> jv_logged jv s' = ∅ -> Q tt s') ->
  wp (transaction b d) Q s.
Proof.
  intros Hi Ho Hh Hl Hc Hb Hd HQ. unfold transaction. wp_step.
  wp_apply jbegin_spec; [done|rewrite Hl, Ho, size_empty; unfold LOGSIZE, MAXOPBLOCKS; lia|].
  intros [] s1 ([Hi1 Hm1 Hd1 Hc1] & Hv1 & Ho1 & Hl1 & Hop1 & Hh1). wp_step.
  apply wp_write_block; [done|by unfold jv_dom; rewrite Hd1|congruence|done|lia|..].
  { rewrite Hl1, Hl, size_empty. lia. }
  { rewrite Hl1, Hl, size_empty. unfold NBUF. lia. }
  intros s2 [Hi2 Hm2 Hd2 Hc2] Hv2 Ho2 Hl2 Hop2 Hh2. wp_apply jend_spec; [done|lia|done|].
  intros [] s3 ([Hi3 Hm3 Hd3 Hc3] & Hv3 & Ho3 & Hl3 & Hop3 & Hh3).
  unfold jv_dom in Hv3, Ho3. rewrite Hd2, Hd1 in Hv3, Ho3. apply HQ; try done.
  - split; [done|by repeat (etrans; [eassumption|])|congruence..].
  - intros b' Hb'. rewrite Hv3, Hv2 by done. by case_decide; [|apply Hv1].
  - intros b' Hb'. by rewrite Ho3, Hv3.
Qed.
End update.

(** ** The stack *)

Abbreviation kstate := (lstate bstate).

Definition kdisk (s : kstate) : disk := b_disk (l_sub s).

(** A reboot: the disk is kept, memory is the kernel's initial image. *)
Definition bss_log : log := Log 0 0 0 0 0 (Logheader 0 (replicate LOGSIZE 0)).
Definition reboot (m : machine) (dk : disk) : kstate := Lstate bss_log (Bstate m binit dk).

(** The machine when the first process calls [initlog]. *)
Definition fresh (m : machine) : Prop :=
  quiet m /\ is_Some (curpid m) /\ forall i, slocked (slock_of m (SBuf i)) = 0.

(** The superblock describes the log of [s]. *)
Definition sb_matches (s : kstate) : Prop :=
  sb_logstart (sb_of (dread (kdisk s) 1)) = l_start (l_log s) /\
  sb_nlog (sb_of (dread (kdisk s) 1)) = l_size (l_log s).

Section stack.
Implicit Types (s r : kstate) (m : machine) (dk : disk).

Lemma disk_ok_le dk dk' : disk_le dk dk' -> disk_ok dk' -> disk_ok dk.
Proof.
  intros [_ Hi [ws Hw]] [Hok1 Hok2]. rewrite Hi in Hok1. rewrite Hw, Forall_app in Hok2.
  split; [done|apply Hok2].
Qed.

Lemma wp_reboot m dk (Q : unit -> kstate -> Prop) :
  let lg := sb_log dk bss_log in
  let u := recovered (l_start lg) dk in
  fresh m -> disk_ok dk -> 1 < disksize dk -> recoverable lg dk ->
  (forall r, jv_inv jv r -> jv_open jv r = 0 -> jv_held jv r = ∅ -> jv_logged jv r = ∅ ->
     l_start (l_log r) = l_start lg -> l_size (l_log r) = l_size lg ->
     disk_le dk (kdisk r) ->
     always (atomic lg (hdr_list (dread dk (l_start lg))) u u) dk (kdisk r) ->
     (forall b, outside (l_start lg) (l_size lg) (disksize dk) b ->
        jv_val jv r b = u b /\ jv_old jv r b = u b) -> Q tt r) ->
  wp (initlog ROOTDEV) Q (reboot m dk).
Proof.
  intros lg u (Hq & Hp & Hs) Hdk Hd Hrec HQ.
  assert (cv_inv bc (Bstate m binit dk)) as Hinv by (by apply binit_inv).
  assert (lrep (reboot m dk) bss_log dk (cv_val bc (Bstate m binit dk)) ∅ ∅ m) as Hr.
  { by split. }
  eapply wp_initlog; [exact Hr|done..|].
  intros r lh dk' w Hr' Hlg Hle Hal Hfin Hn. destruct Hr' as [Hlog Hin Hdisk Hval Hpin Hheld Hm].
  cbn in Hdisk. assert (kdisk r = dk') as Ekd by done.
  eapply HQ; cbn; rewrite ?Hlog, ?Ekd; try done.
  - exists []. split; [exact Hin|..]; unfold ldisk; cbn; rewrite ?Hlog, ?Hdisk, ?Hpin, ?Hheld; try done.
    + by rewrite (le_size _ _ Hle).
    + unfold NBUF. lia.
    + intros i b Hi. cbn in Hheld. by rewrite Hheld in Hi.
  - intros b Hb. unfold ldisk. cbn in *. rewrite Hdisk in *. rewrite Hval. by apply Hfin.
Qed.

Lemma kdom s b : jv_dom jv s b <->
  outside (l_start (l_log s)) (l_size (l_log s)) (disksize (kdisk s)) b.
Proof. done. Qed.

Lemma kinv_disk_ok s : jv_inv jv s -> disk_ok (kdisk s).
Proof. intros [l HI]. exact (bc_disk_ok _ (li_cache _ _ HI)). Qed.

Lemma sb_log_match s dk : sb_matches s -> dread dk 1 = dread (kdisk s) 1 ->
  l_start (sb_log dk bss_log) = l_start (l_log s) /\ l_size (sb_log dk bss_log) = l_size (l_log s).
Proof. intros [H1 H2] E. unfold sb_log. cbn. by rewrite E. Qed.

Lemma sb_matches_keep s s' : jv_keep jv s s' -> jv_old jv s' 1 = jv_old jv s 1 ->
  sb_matches s -> sb_matches s'.
Proof.
  intros Hk E [H1 H2]. pose proof (jk_geom _ _ _ Hk) as Hg. injection Hg as E2 E3 _.
  assert (dread (kdisk s') 1 = dread (kdisk s) 1) as E1 by exact E.
  unfold sb_matches. by rewrite E1, E2, E3.
Qed.

(** C1: crash atomicity of a commit.  Let [s] be a state in which one system
    call is left in the transaction and no buffer is locked.  Then [end_op]
    returns, and if the machine crashes between any two of the disk writes
    it makes (or before the first, or after the last) and reboots, [initlog]
    returns and every block outside the log has the content it had before
    the transaction, or every block has the content the transaction gave
    it. *)
Theorem end_op_crash_atomic s m :
  jv_inv jv s -> jv_open jv s = 1 -> jv_held jv s = ∅ -> fresh m ->
  sb_matches s -> jv_dom jv s 1 -> 1 ∉ jv_logged jv s ->
  wp end_op (fun _ s' =>
    forall dkc, disk_le (kdisk s) dkc -> disk_le dkc (kdisk s') ->
    wp (initlog ROOTDEV) (fun _ r =>
      jv_inv jv r /\
      ((forall b, jv_dom jv s b -> jv_val jv r b = jv_old jv s b) \/
       (forall b, jv_dom jv s b -> jv_val jv r b = jv_val jv s b))) (reboot m dkc)) s.
Proof.
  intros Hinv Hop Hh Hm Hsb Hd1 Hl1. wp_apply log_end_op; [done..|].
  intros [] s' [[Hk _] [Hle Hal]] dkc Hc1 Hc2.
  destruct (Hal dkc Hc1 Hc2) as (Hrec & Hcase & Hun).
  pose proof (le_size _ _ Hc1) as Hsz. rewrite kdom in Hd1.
  assert (dread dkc 1 = dread (kdisk s) 1) as E1.
  { apply Hun; [by rewrite Hsz|]. by rewrite elem_of_elements. }
  destruct (sb_log_match s dkc Hsb E1) as [Es Ez].
  eapply wp_reboot; [done| | | |].
  - eapply disk_ok_le; [done|]. apply kinv_disk_ok, Hk.
  - rewrite Hsz. destruct Hd1. lia.
  - unfold recoverable. rewrite Es, Ez. exact Hrec.
  - intros r Hr _ _ _ _ _ _ _ Hfin. split; [done|]. rewrite Es, Ez in Hfin.
    destruct Hcase as [Hc|Hc]; [left|right]; intros b Hb;
      (rewrite <- Hc by (rewrite Hsz; exact Hb)); apply Hfin; rewrite Hsz; exact Hb.
Qed.

(** C2: recovery is idempotent.  If the machine crashes at any point of the
    recovery of a disk, and recovery is run again from the start, the result
    is the one the first recovery was going to have. *)
Theorem recovery_idempotent m m' dk :
  let lg := sb_log dk bss_log in
  fresh m -> fresh m' -> disk_ok dk -> outside (l_start lg) (l_size lg) (disksize dk) 1 ->
  recoverable lg dk -> 1 ∉ hdr_list (dread dk (l_start lg)) ->
  wp (initlog ROOTDEV) (fun _ r =>
    (forall b, jv_dom jv r b -> jv_val jv r b = recovered (l_start lg) dk b) /\
    forall dkc, disk_le dk dkc -> disk_le dkc (kdisk r) ->
    wp (initlog ROOTDEV) (fun _ r' =>
      forall b, jv_dom jv r b -> jv_val jv r' b = jv_val jv r b) (reboot m' dkc)) (reboot m dk).
Proof.
  intros lg Hm Hm' Hdk H1 Hrec Hn1.
  eapply wp_reboot; [done|done|by destruct H1; lia|done|].
  intros r Hinv _ _ _ Es Ez Hle Hal Hfin.
  assert (forall b, jv_dom jv r b -> outside (l_start lg) (l_size lg) (disksize dk) b) as Hdom.
  { intros b. by rewrite kdom, Es, Ez, (le_size _ _ Hle). }
  split; [intros b Hb; by apply Hfin, Hdom|]. intros dkc Hc1 Hc2.
  destruct (Hal dkc Hc1 Hc2) as (Hrec' & Hcase & Hun). pose proof (le_size _ _ Hc1) as Hsz.
  assert (dread dkc 1 = dread dk 1) as E1.
  { etrans; [apply Hun; [by rewrite Hsz|done]|].
    unfold recovered. fold lg. by rewrite (proj2 (pos_None _ _) Hn1). }
  assert (sb_log dkc bss_log = lg) as Elg by (unfold lg, sb_log; by rewrite E1).
  eapply wp_reboot; rewrite ?Elg; [done| |rewrite Hsz; by destruct H1; lia|done|].
  - eapply disk_ok_le; [done|]. by apply kinv_disk_ok.
  - intros r' Hinv' _ _ _ _ _ _ _ Hfin' b Hb%Hdom.
    destruct (Hfin b Hb) as [-> _], (Hfin' b ltac:(by rewrite Hsz)) as [-> _].
    destruct Hcase as [Hc|Hc]; apply Hc; by rewrite Hsz.
Qed.

(** An idle disk: what a reboot finds. *)
Lemma wp_reboot_idle s m (Q : unit -> kstate -> Prop) :
  jv_inv jv s -> fresh m -> sb_matches s -> jv_dom jv s 1 ->
  (forall r, jv_inv jv r -> (forall b, jv_dom jv s b -> jv_val jv r b = jv_old jv s b) -> Q tt r) ->
  wp (initlog ROOTDEV) Q (reboot m (kdisk s)).
Proof.
  intros Hinv Hm Hsb Hd1 HQ. destruct (sb_log_match s _ Hsb eq_refl) as [Es Ez].
  pose proof (kinv_disk_ok s Hinv) as Hdk. destruct Hinv as [l HI].
  assert (recoverable (sb_log (kdisk s) bss_log) (kdisk s)) as Hrec.
  { unfold recoverable. rewrite Es, Ez. eapply recoverable_empty; apply HI. }
  eapply wp_reboot; [done..| |done|].
  - rewrite kdom in Hd1. destruct Hd1. lia.
  - intros r Hr _ _ _ _ _ _ _ Hfin. apply HQ; [done|]. intros b Hb. rewrite Es, Ez in Hfin.
    destruct (Hfin b Hb) as [-> _]. apply recovered_empty. apply HI.
Qed.

(** C3: transactions are durable.  From an idle state, a transaction that
    writes [d] to block [b] returns to an idle state with [b] changed and
    all other blocks as before; and after a reboot [initlog] finds that
    content. *)
Theorem transaction_durable s b d m :
  jv_inv jv s -> jv_open jv s = 0 -> jv_held jv s = ∅ -> jv_logged jv s = ∅ ->
  (0 < jv_cap jv s)%nat -> jv_dom jv s b -> block_ok d ->
  fresh m -> sb_matches s -> jv_old jv s 1 = jv_val jv s 1 -> jv_dom jv s 1 -> b <> 1 ->
  wp (transaction b d) (fun _ s' =>
    jv_inv jv s' /\ jv_open jv s' = 0 /\ jv_held jv s' = ∅ /\ jv_logged jv s' = ∅ /\
    (forall b', jv_dom jv s b' ->
       jv_val jv s' b' = if decide (b' = b) then d else jv_val jv s b') /\
    wp (initlog ROOTDEV) (fun _ r => forall b', jv_dom jv s b' ->
       jv_val jv r b' = if decide (b' = b) then d else jv_val jv s b') (reboot m (kdisk s'))) s.
Proof.
  intros Hi Ho Hh Hl Hc Hb Hd Hm Hsb H1 Hd1 Hb1. apply wp_transaction; [done..|].
  intros s' [Hi' Hm' Hd' Hc'] Hv Hold Ho' Hh' Hl'. split_and!; try done.
  eapply wp_reboot_idle; [done|done| |by unfold jv_dom; rewrite Hd'|].
  - apply (sb_matches_keep s); [by split| |done]. by rewrite Hold, Hv, decide_False.
  - intros r Hr Hfin b' Hb'. rewrite Hfin, Hold, Hv by (done || by unfold jv_dom; rewrite Hd'). done.
Qed.
End stack.

(** ** A concrete machine *)

Section example.
Definition m0 : machine :=
  Machine true 0 [Cpu 0 0 false (Some 0%nat)] ∅ ∅
    [Proc 4096 0 0 RUNNING 1 None
       (Trapframe 0 0 0 0 0 0 0 0 0 0 0 0 0 0 0 0 0 0 0) (Context 0 0 0 0 0) None 0 [] None []].

Definition sb0_block : list Z :=
  concat (le_bytes 4 <$> [1000; 941; 200; 30; 2; 32; 58]) ++ replicate 484 0.
Definition disk0 : disk := Disk 1000 (fun b => if decide (b = 1) then sb0_block else zero_block) [].
(** The state [initlog] leaves on that disk. *)
Definition k0 : kstate :=
  Lstate (Log 2 30 0 0 1 (Logheader 0 (replicate LOGSIZE 0))) (Bstate m0 binit disk0).
Definition d0 : list Z := replicate BSIZE 7.

Lemma m0_fresh : fresh m0.
Proof. split_and!; [by split|by exists 1|done]. Qed.

Lemma disk0_ok : disk_ok disk0.
Proof.
  split; [|constructor]. intros b. cbn [image disk0]. case_decide; [|apply zero_block_ok].
  split; [by vm_compute|]. by apply bytes_okb_ok; vm_compute.
Qed.

Lemma disk0_hdr : hdr_n (dread disk0 2) = 0.
Proof. vm_compute. reflexivity. Qed.

Lemma k0_inv : jv_inv jv k0.
Proof.
  exists []. split; cbn [l_sub k0 l_log]; try done.
  - apply binit_inv; [apply m0_fresh..|apply disk0_ok|apply m0_fresh].
  - split; try done. split; try done; try lia; try (cbn; lia); constructor.
  - cbn. unfold NBUF. lia.
Qed.

Lemma k0_idle : jv_open jv k0 = 0 /\ jv_held jv k0 = ∅ /\ jv_logged jv k0 = ∅ /\
  jv_cap jv k0 = 29%nat.
Proof. split_and!; vm_compute; reflexivity. Qed.

Lemma d0_ok : block_ok d0.
Proof. split; [done|]. apply Forall_replicate. unfold byte_ok. lia. Qed.

Lemma k0_dom b : 32 <= b < 1000 \/ 0 <= b < 2 -> jv_dom jv k0 b.
Proof. intros. apply kdom. unfold outside. cbn. lia. Qed.

Lemma k0_sb : sb_matches k0.
Proof. split; vm_compute; reflexivity. Qed.

(** In the middle of a transaction that has written block 100. *)
Definition k1 : kstate := after (jbegin ;; write_block 100 d0) k0.

Lemma k1_spec : jv_keep jv k0 k1 /\ jv_open jv k1 = 1 /\ jv_held jv k1 = ∅ /\
  jv_logged jv k1 = {[100]} /\ (forall b, jv_old jv k1 b = jv_old jv k0 b) /\
  jv_val jv k1 100 = d0.
Proof.
  assert (wp (jbegin ;; write_block 100 d0) (fun _ s => jv_keep jv k0 s /\ jv_open jv s = 1 /\
    jv_held jv s = ∅ /\ jv_logged jv s = {[100]} /\ (forall b, jv_old jv s b = jv_old jv k0 b) /\
    jv_val jv s 100 = d0) k0) as Hw; [|by apply wp_after in Hw as [_ Hw]].
  destruct k0_idle as (Eo & Eh & El & Ec). wp_step.
  wp_apply jbegin_spec; [apply k0_inv|rewrite El, Eo, size_empty; unfold MAXOPBLOCKS, LOGSIZE; lia|].
  intros [] s1 (Hk1 & Hv1 & Ho1 & Hl1 & Hop1 & Hh1).
  rewrite El in Hl1. rewrite Eo in Hop1. rewrite Eh in Hh1. rewrite <- (jk_cap _ _ _ Hk1) in Ec.
  apply wp_write_block; [apply Hk1| |done|apply d0_ok|lia|..].
  { rewrite (jk_dom _ _ _ Hk1). apply k0_dom. lia. }
  { rewrite Hl1, Ec, size_empty. lia. }
  { rewrite Hl1, size_empty. unfold NBUF. lia. }
  intros s2 Hk2 Hv2 Ho2 Hl2 Hop2 Hh2. split_and!; [|lia|done|..].
  - destruct Hk1, Hk2. split; [done|by etrans|congruence..].
  - rewrite Hl2, Hl1. apply union_empty_r_L.
  - intros b. by rewrite Ho2, Ho1.
  - by rewrite Hv2, decide_True.
Qed.

Lemma end_op_crash_atomic_witness : jv_val jv k1 100 = d0 /\
  wp end_op (fun _ s' =>
    forall dkc, disk_le (kdisk k1) dkc -> disk_le dkc (kdisk s') ->
    wp (initlog ROOTDEV) (fun _ r =>
      jv_inv jv r /\
      ((forall b, jv_dom jv k1 b -> jv_val jv r b = jv_old jv k1 b) \/
       (forall b, jv_dom jv k1 b -> jv_val jv r b = jv_val jv k1 b))) (reboot m0 dkc)) k1.
Proof.
  pose proof k1_spec as (Hk & Ho & Hh & Hl & Hold & Hv). split; [exact Hv|].
  apply (end_op_crash_atomic k1 m0); [apply Hk|exact Ho|exact Hh|exact m0_fresh| | |].
  - exact (sb_matches_keep k0 k1 Hk (Hold 1) k0_sb).
  - rewrite (jk_dom _ _ _ Hk). apply k0_dom. lia.
  - rewrite Hl. apply not_elem_of_singleton. discriminate.
Defined.

Lemma transaction_durable_witness :
  wp (transaction 100 d0) (fun _ s' =>
    jv_inv jv s' /\ jv_open jv s' = 0 /\ jv_held jv s' = ∅ /\ jv_logged jv s' = ∅ /\
    (forall b', jv_dom jv k0 b' ->
       jv_val jv s' b' = if decide (b' = 100) then d0 else jv_val jv k0 b') /\
    wp (initlog ROOTDEV) (fun _ r => forall b', jv_dom jv k0 b' ->
       jv_val jv r b' = if decide (b' = 100) then d0 else jv_val jv k0 b')
      (reboot m0 (kdisk s'))) k0.
Proof.
  destruct k0_idle as (Eo & Eh & El & Ec).
  apply (transaction_durable k0 100 d0 m0); [exact k0_inv|exact Eo|exact Eh|exact El|..].
  - rewrite Ec. lia.
  - apply k0_dom. lia.
  - exact d0_ok.
  - exact m0_fresh.
  - exact k0_sb.
  - vm_compute. reflexivity.
  - apply k0_dom. lia.
  - discriminate.
Defined.

(** A crash after the header write of a transaction on block 100. *)
Definition disk1 : disk :=
  dwrite (dwrite disk0 3 d0) 2 (set32 (set32 zero_block 0 1) 4 100).

Lemma disk1_ok : disk_ok disk1.
Proof.
  unfold disk1. apply disk_ok_dwrite; [apply disk_ok_dwrite; [apply disk0_ok|apply d0_ok]|].
  repeat (apply block_ok_set32; [|unfold BSIZE; lia]). apply zero_block_ok.
Qed.

Lemma disk1_hdr : hdr_list (dread disk1 2) = [100] /\ hdr_n (dread disk1 2) = 1.
Proof. vm_compute. done. Qed.

Lemma recovery_idempotent_witness : recovered 2 disk1 100 = d0 /\
  wp (initlog ROOTDEV) (fun _ r =>
    (forall b, jv_dom jv r b -> jv_val jv r b = recovered (l_start (sb_log disk1 bss_log)) disk1 b) /\
    forall dkc, disk_le disk1 dkc -> disk_le dkc (kdisk r) ->
    wp (initlog ROOTDEV) (fun _ r' =>
      forall b, jv_dom jv r b -> jv_val jv r' b = jv_val jv r b) (reboot m0 dkc)) (reboot m0 disk1).
Proof.
  assert (l_start (sb_log disk1 bss_log) = 2 /\ l_size (sb_log disk1 bss_log) = 30) as [Es Ez]
    by (split; vm_compute; reflexivity).
  split; [by vm_compute|].
  apply (recovery_idempotent m0 m0 disk1); rewrite ?Es, ?Ez;
    [exact m0_fresh|exact m0_fresh|exact disk1_ok|unfold outside; cbn; lia| |].
  - unfold recoverable. rewrite Es, Ez. destruct disk1_hdr as [-> ->]. split; [lia|].
    split; cbn; try lia; try (unfold LOGSIZE; lia).
    + apply NoDup_singleton.
    + constructor; [unfold outside; lia|constructor].
  - destruct disk1_hdr as [-> _]. by rewrite list_elem_of_singleton.
Defined.
End example.
