(* ===== verification/CString.v ===== *)
(** * Memory and string functions

    [string.c] of the kernel.  A pointer
    that is only read is the list of the bytes from it to the end of its
    object; a pointer that is written is the array it points into (and an
    offset where two pointers may alias).  An access outside the object gives
    [None]. *)

From S2P Require Import Prelude Bytes.
Local Open Scope Z_scope.

(** ** string.c *)

Section string_c.

(** [rep stosb] and [rep stosl] of [x86.h]. *)
Fixpoint stosb (m : list Z) (data : Z) (cnt : nat) {struct cnt} : option (list Z) :=
  match cnt, m with
  | O, _ => Some m
  | S cnt', _ :: m' => cons (u8 data) <$> stosb m' data cnt'
  | S _, [] => None
  end.
Fixpoint stosl (m : list Z) (data : Z) (cnt : nat) {struct cnt} : option (list Z) :=
  match cnt, m with
  | O, _ => Some m
  | S cnt', _ :: _ :: _ :: _ :: m' => app (le_bytes 4 data) <$> stosl m' data cnt'
  | S _, _ => None
  end.

(** [dst] is the address, [m] the memory from there. *)
Definition memset (dst : Z) (m : list Z) (c n : Z) : option (list Z) :=
  if (Z.rem (s32 dst) 4 =z 0) && (n mod 4 =z 0) then
    let c := Z.land c 0xFF in
    stosl m (Z.lor (Z.lor (Z.lor (Z.shiftl c 24) (Z.shiftl c 16)) (Z.shiftl c 8)) c)
          (Z.to_nat (n / 4))
  else stosb m c (Z.to_nat n).

Fixpoint memcmp (v1 v2 : list Z) (n : nat) {struct n} : option Z :=
  match n with
  | O => Some 0
  | S n' =>
      match v1, v2 with
      | a :: v1', b :: v2' => if negb (a =z b) then Some (a - b) else memcmp v1' v2' n'
      | _, _ => None
      end
  end.

(** One byte from [s] to [d] of the array [m]. *)
Definition copy1 (m : list Z) (d s : nat) : option (list Z) :=
  x ← m !! s; if decide (d < length m)%nat then Some (<[d := x]> m) else None.

Fixpoint copy_up (m : list Z) (d s n : nat) : option (list Z) :=
  match n with
  | O => Some m
  | S n' => m' ← copy1 m d s; copy_up m' (S d) (S s) n'
  end.
(** From the end: [d] and [s] point after the last byte. *)
Fixpoint copy_down (m : list Z) (d s n : nat) : option (list Z) :=
  match n with
  | O => Some m
  | S n' => m' ← copy1 m (d - 1) (s - 1); copy_down m' (d - 1) (s - 1) n'
  end.

Definition memmove (m : list Z) (dst src n : nat) : option (list Z) :=
  if decide (src < dst /\ dst < src + n)%nat
  then copy_down m (dst + n) (src + n) n
  else copy_up m dst src n.

Fixpoint strncmp (p q : list Z) (n : nat) {struct n} : option Z :=
  match n with
  | O => Some 0
  | S n' =>
      match p, q with
      | a :: p', b :: q' => if c_bool a && (a =z b) then strncmp p' q' n' else Some (a - b)
      | a :: _, [] => None
      | [], _ => None
      end
  end.

(** The second loop of [strncpy]. *)
Fixpoint pad0 (s : list Z) (n : nat) {struct n} : option (list Z) :=
  match n, s with
  | O, _ => Some s
  | S n', _ :: s' => cons 0 <$> pad0 s' n'
  | S _, [] => None
  end.
Fixpoint strncpy (s t : list Z) (n : nat) {struct n} : option (list Z) :=
  match n with
  | O => Some s
  | S n' =>
      match s, t with
      | _ :: s', c :: t' =>
          cons c <$> (if c_bool c then strncpy s' t' n' else pad0 s' n')
      | _, _ => None
      end
  end.

(** The loop of [safestrcpy], [n] already decremented once, and [*s = 0]. *)
Fixpoint safestrcpy_loop (s t : list Z) (n : nat) : option (list Z) :=
  match s with
  | [] => None
  | _ :: s' =>
      match n with
      | O => Some (0 :: s')
      | S n' =>
          match t with
          | [] => None
          | c :: t' =>
              cons c <$> (if c_bool c then safestrcpy_loop s' t' n'
                          else match s' with [] => None | _ :: s'' => Some (0 :: s'') end)
          end
      end
  end.
Definition safestrcpy (s t : list Z) (n : Z) : option (list Z) :=
  if n <=z 0 then Some s else safestrcpy_loop s t (Z.to_nat (n - 1)).

Fixpoint strlen (s : list Z) : option Z :=
  match s with
  | [] => None
  | c :: s' => if c_bool c then Z.add 1 <$> strlen s' else Some 0
  end.
End string_c.

(** ** Specifications *)

(** The string at a pointer, as far as [n] bytes. *)
Fixpoint upto0 (l : list Z) : list Z :=
  match l with
  | [] => []
  | c :: l' => if c_bool c then c :: upto0 l' else []
  end.
Definition cname (n : nat) (l : list Z) : list Z := upto0 (take n l).

(** [n] bytes, or a string that ends before, can be read. *)
Definition readable (n : nat) (l : list Z) : Prop := (n <= length l)%nat \/ 0 ∈ l.

Section specs.
Implicit Types (l m s t p q : list Z).

Lemma stosb_spec m c n : (n <= length m)%nat ->
  stosb m c n = Some (replicate n (u8 c) ++ drop n m).
Proof.
  revert m. induction n as [|n IH]; intros [|x m] Hn; cbn in *; [done|done|lia|].
  by rewrite IH by lia.
Qed.

Lemma word_of_byte c : 0 <= c < 256 ->
  le_bytes 4 (Z.lor (Z.lor (Z.lor (Z.shiftl c 24) (Z.shiftl c 16)) (Z.shiftl c 8)) c) = [c; c; c; c].
Proof.
  intros Hc.
  set (f := fun c => bool_decide (le_bytes 4 (Z.lor (Z.lor (Z.lor (Z.shiftl c 24) (Z.shiftl c 16))
    (Z.shiftl c 8)) c) = [c; c; c; c])).
  assert (forallb f (seqZ 0 256) = true) as Hall by (vm_compute; reflexivity).
  rewrite forallb_forall in Hall. assert (f c = true) as Hf.
  { apply Hall, list_elem_of_In, elem_of_seqZ. lia. }
  unfold f in Hf. by apply bool_decide_eq_true in Hf.
Qed.

Lemma stosl_spec m c n : 0 <= c < 256 -> (4 * n <= length m)%nat ->
  stosl m (Z.lor (Z.lor (Z.lor (Z.shiftl c 24) (Z.shiftl c 16)) (Z.shiftl c 8)) c) n =
  Some (replicate (4 * n) c ++ drop (4 * n) m).
Proof.
  intros Hc. revert m. induction n as [|n IH]; intros m Hn; [by destruct m|].
  destruct m as [|? [|? [|? [|? m]]]]; cbn [length] in Hn; try lia.
  cbn [stosl]. rewrite (IH m) by lia. rewrite word_of_byte by done.
  replace (4 * S n)%nat with (4 + 4 * n)%nat by lia. done.
Qed.

(** One byte of [copy1]. *)
Lemma copy1_spec m d k x : m !! k = Some x -> (d < length m)%nat -> copy1 m d k = Some (<[d := x]> m).
Proof. intros Hx Hd. unfold copy1. rewrite Hx. cbn. by rewrite decide_True. Qed.

(** Copying upwards reads bytes that are not yet overwritten. *)
Lemma copy_up_spec m d k n :
  (d + n <= length m)%nat -> (k + n <= length m)%nat -> (d <= k \/ k + n <= d)%nat ->
  copy_up m d k n = Some (splice d (slice k n m) m).
Proof.
  revert m d k. induction n as [|n IH]; intros m d k Hd Hk Hov; cbn [copy_up].
  - f_equal. unfold splice, slice. rewrite take_0. cbn. by rewrite Nat.add_0_r, take_drop.
  - destruct (lookup_lt_is_Some_2 m k ltac:(lia)) as [x Hx].
    rewrite (copy1_spec m d k x) by (done || lia). cbn.
    rewrite IH by (rewrite ?length_insert; lia). f_equal.
    apply list_eq. intros i.
    assert (length (slice (S k) n (<[d:=x]> m)) = n) as L1
      by (rewrite length_slice; rewrite ?length_insert; lia).
    assert (length (slice k (S n) m) = S n) as L2 by (rewrite length_slice; lia).
    destruct (decide (d <= i < d + S n)%nat) as [Hi|Hi].
    + rewrite (lookup_splice_in d) by (rewrite ?L2; lia). rewrite lookup_slice, decide_True by lia.
      destruct (decide (i = d)) as [->|].
      * rewrite lookup_splice_out by (rewrite ?L1, ?length_insert; lia).
        rewrite list_lookup_insert_eq by lia. rewrite <- Hx. f_equal. lia.
      * rewrite lookup_splice_in by (rewrite ?L1, ?length_insert; lia).
        rewrite lookup_slice, decide_True by lia.
        rewrite list_lookup_insert_ne by lia. f_equal. lia.
    + rewrite (lookup_splice_out d) by (rewrite ?L2; lia).
      rewrite lookup_splice_out by (rewrite ?L1, ?length_insert; lia).
      by rewrite list_lookup_insert_ne by lia.
Qed.

Lemma copy_down_spec m d k n :
  (d + n <= length m)%nat -> (k + n <= length m)%nat -> (k <= d)%nat ->
  copy_down m (d + n) (k + n) n = Some (splice d (slice k n m) m).
Proof.
  revert m. induction n as [|n IH]; intros m Hd Hk Hov; cbn [copy_down].
  - f_equal. unfold splice, slice. rewrite take_0. cbn. by rewrite Nat.add_0_r, take_drop.
  - replace (d + S n - 1)%nat with (d + n)%nat by lia.
    replace (k + S n - 1)%nat with (k + n)%nat by lia.
    destruct (lookup_lt_is_Some_2 m (k + n) ltac:(lia)) as [x Hx].
    rewrite (copy1_spec m (d + n) (k + n) x) by (done || lia). cbn.
    rewrite IH by (rewrite ?length_insert; lia). f_equal.
    apply list_eq. intros i.
    assert (length (slice k n (<[(d + n)%nat:=x]> m)) = n) as L1
      by (rewrite length_slice; rewrite ?length_insert; lia).
    assert (length (slice k (S n) m) = S n) as L2 by (rewrite length_slice; lia).
    destruct (decide (d <= i < d + S n)%nat) as [Hi|Hi].
    + rewrite (lookup_splice_in d _ m) by (rewrite ?L2; lia). rewrite lookup_slice, decide_True by lia.
      destruct (decide (i = d + n)%nat) as [->|].
      * rewrite lookup_splice_out by (rewrite ?L1, ?length_insert; lia).
        rewrite list_lookup_insert_eq by lia. rewrite <- Hx. f_equal. lia.
      * rewrite lookup_splice_in by (rewrite ?L1, ?length_insert; lia).
        rewrite lookup_slice, decide_True by lia.
        by rewrite list_lookup_insert_ne by lia.
    + rewrite (lookup_splice_out d _ m) by (rewrite ?L2; lia).
      rewrite lookup_splice_out by (rewrite ?L1, ?length_insert; lia).
      by rewrite list_lookup_insert_ne by lia.
Qed.

Lemma cname_cons n c l : cname (S n) (c :: l) = if c_bool c then c :: cname n l else [].
Proof. done. Qed.

Lemma readable_cons n c l : readable (S n) (c :: l) -> c_bool c = true -> readable n l.
Proof.
  intros [H|H] Hc; [left; cbn in H; lia|]. apply elem_of_cons in H as [<-|H]; [done|by right].
Qed.

Lemma strncmp_spec n p q : readable n p -> readable n q ->
  exists r, strncmp p q n = Some r /\ (r = 0 <-> cname n p = cname n q).
Proof.
  revert p q. induction n as [|n IH]; intros p q Hp Hq; [by exists 0|].
  destruct p as [|a p]; [destruct Hp as [Hp|Hp]; [cbn in Hp; lia|by apply elem_of_nil in Hp]|].
  destruct q as [|b q]; [destruct Hq as [Hq|Hq]; [cbn in Hq; lia|by apply elem_of_nil in Hq]|].
  cbn [strncmp]. rewrite !cname_cons. destruct (c_bool a) eqn:Ha; cbn [andb].
  - case_bool_decide as E.
    + subst b. rewrite Ha. destruct (IH p q) as (r & Hr & Hiff); [by eapply readable_cons..|].
      exists r. split; [done|]. rewrite Hiff. split; [by intros ->|congruence].
    + exists (a - b). split; [done|]. split; [lia|].
      destruct (c_bool b); [congruence|done].
  - exists (a - b). split; [done|]. apply c_bool_false in Ha as ->.
    destruct (c_bool b) eqn:Hb.
    + split; [|done]. intros E. assert (b = 0) as -> by lia. done.
    + apply c_bool_false in Hb as ->. done.
Qed.

Lemma pad0_spec s n : (n <= length s)%nat -> pad0 s n = Some (replicate n 0 ++ drop n s).
Proof.
  revert s. induction n as [|n IH]; intros [|x s] Hn; cbn in *; [done|done|lia|].
  by rewrite IH by lia.
Qed.

Lemma length_cname n l : (length (cname n l) <= n)%nat.
Proof.
  revert l. induction n as [|n IH]; intros [|c l]; [cbn; lia..|]. rewrite cname_cons.
  destruct (c_bool c); cbn; [|lia]. specialize (IH l). lia.
Qed.

(** [strncpy] writes the name, padded with NULs to [n] bytes. *)
Lemma strncpy_spec s t n : (n <= length s)%nat -> readable n t ->
  strncpy s t n = Some (cname n t ++ replicate (n - length (cname n t)) 0 ++ drop n s).
Proof.
  revert s t. induction n as [|n IH]; intros s t Hs Ht; [done|].
  destruct t as [|c t]; [destruct Ht as [Ht|Ht]; [cbn in Ht; lia|by apply elem_of_nil in Ht]|].
  destruct s as [|x s]; cbn in Hs; [lia|]. cbn [strncpy]. rewrite cname_cons.
  destruct (c_bool c) eqn:Hc.
  - rewrite IH by (lia || by eapply readable_cons). done.
  - rewrite pad0_spec by lia. by apply c_bool_false in Hc as ->.
Qed.

Lemma safestrcpy_loop_spec s t n : (n < length s)%nat -> readable n t ->
  exists rest, safestrcpy_loop s t n = Some (cname n t ++ 0 :: rest) /\
    length (cname n t ++ 0 :: rest) = length s.
Proof.
  revert s t. induction n as [|n IH]; intros s t Hs Ht; (destruct s as [|x s]; cbn in Hs; [lia|]).
  - by exists s.
  - destruct t as [|c t]; [destruct Ht as [Ht|Ht]; [cbn in Ht; lia|by apply elem_of_nil in Ht]|].
    cbn [safestrcpy_loop]. rewrite cname_cons. destruct (c_bool c) eqn:Hc.
    + destruct (IH s t) as (rest & -> & Hl); [lia|by eapply readable_cons|].
      exists rest. split; [done|]. cbn. by rewrite Hl.
    + destruct s as [|y s]; cbn in Hs; [lia|]. apply c_bool_false in Hc as ->.
      by exists (0 :: s).
Qed.

Lemma strlen_spec s : 0 ∈ s -> strlen s = Some (Z.of_nat (length (upto0 s))).
Proof.
  induction s as [|c s IH]; intros Hs; [by apply elem_of_nil in Hs|]. cbn.
  destruct (c_bool c) eqn:Hc; [|done].
  apply elem_of_cons in Hs as [<-|Hs]; [done|]. rewrite IH by done. cbn. f_equal. lia.
Qed.
End specs.
