(* ===== verification/Ulib.v ===== *)
(** * The user library

    The string and memory functions of [ulib.c], on the memory areas of
    [CString]: a function returns [None] where the C code would access a byte
    outside the area it is given. *)

From S2P Require Import Prelude Bytes CString.
Local Open Scope Z_scope.


Fixpoint strcpy (s t : list Z) : option (list Z) :=
  match s, t with
  | _ :: s', c :: t' => cons c <$> (if c_bool c then strcpy s' t' else Some s')
  | _, _ => None
  end.

Fixpoint strcmp (p q : list Z) : option Z :=
  match p, q with
  | a :: p', b :: q' => if c_bool a && (a =z b) then strcmp p' q' else Some (a - b)
  | _, _ => None
  end.

Definition memset (m : list Z) (c n : Z) : option (list Z) := stosb m c (Z.to_nat n).

(** The result points into the string: its offset, or null. *)
Fixpoint strchr (s : list Z) (c : Z) : option (option nat) :=
  match s with
  | [] => None
  | x :: s' =>
      if c_bool x then
        if x =z c then Some (Some O) else option_map S <$> strchr s' c
      else Some None
  end.

(** [n] is an [int]; the sum wraps. *)
Fixpoint atoi_loop (s : list Z) (n : Z) : option Z :=
  match s with
  | [] => None
  | c :: s' =>
      if (48 <=z c) && (c <=z 57) then atoi_loop s' (s32 (n * 10 + c - 48)) else Some n
  end.
Definition atoi (s : list Z) : option Z := atoi_loop s 0.

(** Both pointers point into [m]; [n] is an [int]. *)
Definition memmove (m : list Z) (dst src : nat) (n : Z) : option (list Z) :=
  copy_up m dst src (Z.to_nat n).

Fixpoint strlen (s : list Z) : option Z :=
  match s with
  | [] => None
  | c :: s' => if c_bool c then Z.add 1 <$> strlen s' else Some 0
  end.

(** The loop of [gets]: [input] is what [read(0, &c, 1)] will deliver, one byte
    at a time, and 0 at its end; [room] is [max - 1 - i].  The bytes stored and
    the rest of the input. *)
Fixpoint gets_loop (room : nat) (input : list Z) : list Z * list Z :=
  match room, input with
  | S room', c :: input' =>
      if (c =z 10) || (c =z 13) then ([c], input')
      else let (l, r) := gets_loop room' input' in (c :: l, r)
  | _, _ => ([], input)
  end.
(** The buffer of [max] bytes and the rest of the input; writing the NUL
    needs one byte. *)
Definition gets (buf : list Z) (max : Z) (input : list Z) : option (list Z * list Z) :=
  let (l, r) := gets_loop (Z.to_nat (max - 1)) input in
  if decide (length l < length buf)%nat then Some (splice 0 (l ++ [0]) buf, r) else None.
