(* ===== verification/Fs.v ===== *)
(** * The file system

    [fs.c]: disk blocks ([balloc], [bfree]), inodes ([ialloc] to
    [iunlockput]), their content ([bmap] to [writei]), directories
    ([dirlookup], [dirlink]) and paths ([skipelem] to [nameiparent]).  The
    functions are written against the interface [Journal] of the log.

    A pointer to an in-memory inode is its index in [icache.inode]; the
    functions that test it for null take an option.  The device switch
    [devsw] is a parameter: the drivers install themselves in it. *)

From S2P Require Import Prelude Bytes Params Machine BlockCache Journal CString.
Local Open Scope Z_scope.

(** ** Data *)

(** [struct inode] of [file.h]; its sleep lock is [SInode i]. *)
Record inode := Inode {
  i_dev : Z;
  i_inum : Z;
  i_ref : Z;
  i_valid : Z;
  i_type : Z;
  i_major : Z;
  i_minor : Z;
  i_nlink : Z;
  i_size : Z;
  i_addrs : list Z
}.

Record stat := Stat { st_type : Z; st_dev : Z; st_ino : Z; st_nlink : Z; st_size : Z }.

(** The file system over the layer of the log. *)
Record fstate (T : Type) := Fstate { f_sb : superblock; f_icache : list inode; f_sub : T }.
Arguments Fstate {T}. Arguments f_sb {T}. Arguments f_icache {T}. Arguments f_sub {T}.

Lemma fstate_mach_id {T} `{HasMachine T} (s : fstate T) :
  Fstate (f_sb s) (f_icache s) (set_mach (mach (f_sub s)) (f_sub s)) = s.
Proof. destruct s. cbn. by rewrite set_mach_id. Qed.
Lemma fstate_mach_set {T} `{HasMachine T} m (s : fstate T) : mach (set_mach m (f_sub s)) = m.
Proof. apply mach_set. Qed.
Lemma fstate_mach_set_set {T} `{HasMachine T} m m' (s : fstate T) :
  Fstate (f_sb s) (f_icache s) (set_mach m (set_mach m' (f_sub s))) =
  Fstate (f_sb s) (f_icache s) (set_mach m (f_sub s)).
Proof. by rewrite set_mach_set. Qed.

#[export] Instance fstate_machine {T} `{HasMachine T} : HasMachine (fstate T) := {|
  mach s := mach (f_sub s);
  set_mach m s := Fstate (f_sb s) (f_icache s) (set_mach m (f_sub s));
  mach_set := fstate_mach_set;
  set_mach_set := fstate_mach_set_set;
  set_mach_id := fstate_mach_id
|}.

Definition set_i_ref (r : Z) (i : inode) : inode :=
  Inode (i_dev i) (i_inum i) r (i_valid i) (i_type i) (i_major i) (i_minor i) (i_nlink i)
        (i_size i) (i_addrs i).
Definition set_i_valid (v : Z) (i : inode) : inode :=
  Inode (i_dev i) (i_inum i) (i_ref i) v (i_type i) (i_major i) (i_minor i) (i_nlink i)
        (i_size i) (i_addrs i).
Definition set_i_type (t : Z) (i : inode) : inode :=
  Inode (i_dev i) (i_inum i) (i_ref i) (i_valid i) t (i_major i) (i_minor i) (i_nlink i)
        (i_size i) (i_addrs i).
Definition set_i_nlink (n : Z) (i : inode) : inode :=
  Inode (i_dev i) (i_inum i) (i_ref i) (i_valid i) (i_type i) (i_major i) (i_minor i) n
        (i_size i) (i_addrs i).
Definition set_i_size (z : Z) (i : inode) : inode :=
  Inode (i_dev i) (i_inum i) (i_ref i) (i_valid i) (i_type i) (i_major i) (i_minor i)
        (i_nlink i) z (i_addrs i).
Definition set_i_addr (k : nat) (a : Z) (i : inode) : inode :=
  Inode (i_dev i) (i_inum i) (i_ref i) (i_valid i) (i_type i) (i_major i) (i_minor i)
        (i_nlink i) (i_size i) (<[k := a]> (i_addrs i)).

(** ** struct dinode: 64 bytes, [IPB] of them in a block *)

Definition dinode_off (inum : Z) : nat := Z.to_nat ((inum mod IPB) * 64).
Definition dip_type (d : list Z) (off : nat) : Z := s16 (get16 d off).
Definition dip_major (d : list Z) (off : nat) : Z := s16 (get16 d (off + 2)).
Definition dip_minor (d : list Z) (off : nat) : Z := s16 (get16 d (off + 4)).
Definition dip_nlink (d : list Z) (off : nat) : Z := s16 (get16 d (off + 6)).
Definition dip_size (d : list Z) (off : nat) : Z := get32 d (off + 8).
Definition dip_addrs (d : list Z) (off : nat) : list Z :=
  (fun k => get32 d (off + 12 + 4 * k)) <$> seq 0 (S NDIRECT).

(** The fields of an in-memory inode that live on disk, stored in a block. *)
Definition put_dinode (d : list Z) (off : nat) (ip : inode) : list Z :=
  let d := set16 d off (i_type ip) in
  let d := set16 d (off + 2) (i_major ip) in
  let d := set16 d (off + 4) (i_minor ip) in
  let d := set16 d (off + 6) (i_nlink ip) in
  let d := set32 d (off + 8) (i_size ip) in
  splice (off + 12) (concat (le_bytes 4 <$> i_addrs ip)) d.
(** Those fields, loaded from a block. *)
Definition get_dinode (d : list Z) (off : nat) (ip : inode) : inode :=
  Inode (i_dev ip) (i_inum ip) (i_ref ip) (i_valid ip) (dip_type d off) (dip_major d off)
        (dip_minor d off) (dip_nlink d off) (dip_size d off) (dip_addrs d off).

Section fs.
Context {T : Type} `{Journal T}.

(** The entries of [devsw]: null, or a driver function. *)
Variable devsw_read : Z -> option (nat -> Z -> M (fstate T) (Z * list Z)).
Variable devsw_write : Z -> option (nat -> list Z -> Z -> M (fstate T) Z).

Definition lower {A} (m : M T A) : M (fstate T) A :=
  zoom f_sub (fun t s => Fstate (f_sb s) (f_icache s) t) m.
Definition bp_data (bp : nat) : M (fstate T) (list Z) := gets (fun s => jdata (f_sub s) bp).
Definition get_inode (ip : nat) : M (fstate T) inode :=
  s ← get; of_option "icache.inode" (f_icache s !! ip).
Definition upd_inode (ip : nat) (f : inode -> inode) : M (fstate T) unit :=
  modify (fun s => Fstate (f_sb s) (alter f ip (f_icache s)) (f_sub s)).

(** ** Blocks *)

Definition bzero (dev bno : Z) : M (fstate T) unit :=
  bp ← lower (jread (u32 dev) (u32 bno));
  lower (jset bp zero_block) ;;
  lower (jwrite bp) ;;
  lower (jrelse bp).

(** The bit of block [bi] in a bitmap block. *)
Definition bit_mask (bi : Z) : Z := Z.shiftl 1 (Z.rem bi 8).
Definition bit_set (d : list Z) (bi : Z) : bool :=
  negb (Z.land (nth (Z.to_nat (Z.quot bi 8)) d 0) (bit_mask bi) =z 0).
Definition put_byte (d : list Z) (bi v : Z) : list Z := <[Z.to_nat (Z.quot bi 8) := u8 v]> d.
Definition mark_used (d : list Z) (bi : Z) : list Z :=
  put_byte d bi (Z.lor (nth (Z.to_nat (Z.quot bi 8)) d 0) (bit_mask bi)).
Definition mark_free (d : list Z) (bi : Z) : list Z :=
  put_byte d bi (Z.land (nth (Z.to_nat (Z.quot bi 8)) d 0) (Z.lnot (bit_mask bi))).

(** The inner loop of [balloc]: [bi] from [BPB - n]. *)
Fixpoint scan_bits (n : nat) (d : list Z) (b size : Z) : option Z :=
  match n with
  | O => None
  | S n' =>
      let bi := BPB - Z.of_nat n in
      if u32 (b + bi) <z size then
        if bit_set d bi then scan_bits n' d b size else Some bi
      else None
  end.

(** The outer loop runs while [b < sb.size], [b] a multiple of [BPB]. *)
Definition balloc (dev : Z) : M (fstate T) Z :=
  sb ← gets f_sb;
  r ← for_find (Z.to_nat ((sb_size sb + BPB - 1) / BPB)) 0 (fun k =>
    let b := k * BPB in
    bp ← lower (jread dev (u32 (BBLOCK b sb)));
    d ← bp_data bp;
    match scan_bits (Z.to_nat BPB) d b (sb_size sb) with
    | Some bi =>
        lower (jset bp (mark_used d bi)) ;;
        lower (jwrite bp) ;;
        lower (jrelse bp) ;;
        bzero dev (b + bi) ;;
        mret (Some (u32 (b + bi)))
    | None =>
        lower (jrelse bp) ;;
        mret None
    end);
  match r with
  | Some b => mret b
  | None => panic "balloc: out of blocks"
  end.

Definition bfree (dev b : Z) : M (fstate T) unit :=
  sb ← gets f_sb;
  bp ← lower (jread (u32 dev) (u32 (BBLOCK b sb)));
  d ← bp_data bp;
  let bi := b mod BPB in
  if negb (bit_set d bi) then panic "freeing free block" else
  lower (jset bp (mark_free d bi)) ;;
  lower (jwrite bp) ;;
  lower (jrelse bp).

(** ** Inodes *)

(** The message that shows the superblock is not modelled. *)
Definition iinit (dev : Z) : M (fstate T) unit :=
  onm (modify (set_lock LIcache initlock)) ;;
  for_loop NINODE 0 (fun i => onm (modify (set_slock (SInode (Z.to_nat i)) initsleeplock))) ;;
  bp ← lower (jread (u32 dev) 1);
  d ← bp_data bp;
  lower (jrelse bp) ;;
  modify (fun s => Fstate (Superblock (get32 d 0) (get32 d 4) (get32 d 8) (get32 d 12)
                             (get32 d 16) (get32 d 20) (get32 d 24)) (f_icache s) (f_sub s)).

(** The search of [iget]: the entry of the inode, or the first free entry. *)
Fixpoint iget_scan (l : list inode) (i : nat) (empty : option nat) (dev inum : Z)
    : option nat * option nat :=
  match l with
  | [] => (None, empty)
  | ip :: l' =>
      if (0 <z i_ref ip) && (i_dev ip =z dev) && (i_inum ip =z inum) then (Some i, empty)
      else iget_scan l' (S i)
             (match empty with
              | Some e => Some e
              | None => if i_ref ip =z 0 then Some i else None
              end) dev inum
  end.

Definition iget (dev inum : Z) : M (fstate T) nat :=
  onm (acquire LIcache) ;;
  ic ← gets f_icache;
  match iget_scan ic O None dev inum with
  | (Some ip, _) =>
      upd_inode ip (fun i => set_i_ref (i_ref i + 1) i) ;;
      onm (release LIcache) ;;
      mret ip
  | (None, None) => panic "iget: no inodes"
  | (None, Some ip) =>
      upd_inode ip (fun i => Inode dev inum 1 0 (i_type i) (i_major i) (i_minor i)
                               (i_nlink i) (i_size i) (i_addrs i)) ;;
      onm (release LIcache) ;;
      mret ip
  end.

Definition ialloc (dev type : Z) : M (fstate T) nat :=
  sb ← gets f_sb;
  r ← for_find (Z.to_nat (sb_ninodes sb - 1)) 1 (fun inum =>
    bp ← lower (jread dev (u32 (IBLOCK inum sb)));
    d ← bp_data bp;
    let off := dinode_off inum in
    if dip_type d off =z 0 then
      lower (jset bp (set16 (splice off (replicate 64 0) d) off type)) ;;
      lower (jwrite bp) ;;
      lower (jrelse bp) ;;
      mret (Some inum)
    else
      lower (jrelse bp) ;;
      mret None);
  match r with
  | Some inum => iget dev inum
  | None => panic "ialloc: no inodes"
  end.

Definition iupdate (ip : nat) : M (fstate T) unit :=
  i ← get_inode ip;
  sb ← gets f_sb;
  bp ← lower (jread (i_dev i) (u32 (IBLOCK (i_inum i) sb)));
  d ← bp_data bp;
  lower (jset bp (put_dinode d (dinode_off (i_inum i)) i)) ;;
  lower (jwrite bp) ;;
  lower (jrelse bp).

Definition idup (ip : nat) : M (fstate T) nat :=
  onm (acquire LIcache) ;;
  _ ← get_inode ip;
  upd_inode ip (fun i => set_i_ref (i_ref i + 1) i) ;;
  onm (release LIcache) ;;
  mret ip.

Definition ilock (p : option nat) : M (fstate T) unit :=
  match p with
  | None => panic "ilock"
  | Some ip =>
      i ← get_inode ip;
      if i_ref i <z 1 then panic "ilock" else
      onm (acquiresleep (SInode ip)) ;;
      i ← get_inode ip;
      when (i_valid i =z 0)
        (sb ← gets f_sb;
         bp ← lower (jread (i_dev i) (u32 (IBLOCK (i_inum i) sb)));
         d ← bp_data bp;
         upd_inode ip (get_dinode d (dinode_off (i_inum i))) ;;
         lower (jrelse bp) ;;
         upd_inode ip (set_i_valid 1) ;;
         i ← get_inode ip;
         if i_type i =z 0 then panic "ilock: no type" else mret tt)
  end.

Definition iunlock (p : option nat) : M (fstate T) unit :=
  match p with
  | None => panic "iunlock"
  | Some ip =>
      h ← onm (holdingsleep (SInode ip));
      if negb h then panic "iunlock" else
      i ← get_inode ip;
      if i_ref i <z 1 then panic "iunlock" else
      onm (releasesleep (SInode ip))
  end.

(** ** Inode content *)

(** The entry [bn] of the indirect block [addr]. *)
Definition bmap_entry (dev addr bn : Z) : M (fstate T) Z :=
  bp ← lower (jread dev addr);
  d ← bp_data bp;
  let addr := get32 d (4 * Z.to_nat bn) in
  addr ← (if addr =z 0 then
            addr ← balloc dev;
            d ← bp_data bp;
            lower (jset bp (set32 d (4 * Z.to_nat bn) addr)) ;;
            lower (jwrite bp) ;;
            mret addr
          else mret addr);
  lower (jrelse bp) ;;
  mret addr.

Definition bmap (ip : nat) (bn : Z) : M (fstate T) Z :=
  i ← get_inode ip;
  if bn <z Z.of_nat NDIRECT then
    addr ← of_option "ip->addrs" (i_addrs i !! Z.to_nat bn);
    if addr =z 0 then
      addr ← balloc (i_dev i);
      upd_inode ip (set_i_addr (Z.to_nat bn) addr) ;;
      mret addr
    else mret addr
  else
  let bn := bn - Z.of_nat NDIRECT in
  if bn <z Z.of_nat NINDIRECT then
    addr ← of_option "ip->addrs" (i_addrs i !! NDIRECT);
    addr ← (if addr =z 0 then
              addr ← balloc (i_dev i);
              upd_inode ip (set_i_addr NDIRECT addr) ;;
              mret addr
            else mret addr);
    bmap_entry (i_dev i) addr bn
  else panic "bmap: out of range".

Definition itrunc (ip : nat) : M (fstate T) unit :=
  for_loop NDIRECT 0 (fun k =>
    i ← get_inode ip;
    a ← of_option "ip->addrs" (i_addrs i !! Z.to_nat k);
    when (c_bool a)
      (bfree (i_dev i) a ;;
       upd_inode ip (set_i_addr (Z.to_nat k) 0))) ;;
  i ← get_inode ip;
  a ← of_option "ip->addrs" (i_addrs i !! NDIRECT);
  when (c_bool a)
    (bp ← lower (jread (i_dev i) a);
     for_loop NINDIRECT 0 (fun j =>
       d ← bp_data bp;
       let aj := get32 d (4 * Z.to_nat j) in
       when (c_bool aj) (bfree (i_dev i) aj)) ;;
     lower (jrelse bp) ;;
     bfree (i_dev i) a ;;
     upd_inode ip (set_i_addr NDIRECT 0)) ;;
  upd_inode ip (set_i_size 0) ;;
  iupdate ip.

Definition iput (ip : nat) : M (fstate T) unit :=
  onm (acquiresleep (SInode ip)) ;;
  i ← get_inode ip;
  when (c_bool (i_valid i) && (i_nlink i =z 0))
    (onm (acquire LIcache) ;;
     i ← get_inode ip;
     let r := i_ref i in
     onm (release LIcache) ;;
     when (r =z 1)
       (itrunc ip ;;
        upd_inode ip (set_i_type 0) ;;
        iupdate ip ;;
        upd_inode ip (set_i_valid 0))) ;;
  onm (releasesleep (SInode ip)) ;;
  onm (acquire LIcache) ;;
  upd_inode ip (fun i => set_i_ref (i_ref i - 1) i) ;;
  onm (release LIcache).

Definition iunlockput (ip : nat) : M (fstate T) unit :=
  iunlock (Some ip) ;; iput ip.

Definition stati (ip : nat) : M (fstate T) stat :=
  i ← get_inode ip;
  mret (Stat (i_type i) (s32 (i_dev i)) (i_inum i) (i_nlink i) (i_size i)).

(** The loop of [readi]; every iteration copies at least one byte, so that the
    fuel [n] is enough. *)
Fixpoint readi_loop (fuel : nat) (ip : nat) (dev tot off n : Z) : M (fstate T) (list Z) :=
  if tot <z n then
    match fuel with
    | O => fault "readi: fuel"
    | S fuel' =>
        b ← bmap ip (off / BSIZEz);
        bp ← lower (jread dev b);
        let m := Z.min (n - tot) (BSIZEz - off mod BSIZEz) in
        d ← bp_data bp;
        let piece := slice (Z.to_nat (off mod BSIZEz)) (Z.to_nat m) d in
        lower (jrelse bp) ;;
        rest ← readi_loop fuel' ip dev (tot + m) (off + m) n;
        mret (piece ++ rest)
    end
  else mret [].

(** The result and the bytes copied to [dst]. *)
Definition readi (ip : nat) (off n : Z) : M (fstate T) (Z * list Z) :=
  i ← get_inode ip;
  if i_type i =z T_DEV then
    if (i_major i <z 0) || (NDEV <=z i_major i) then mret (-1, [])
    else match devsw_read (i_major i) with
         | None => mret (-1, [])
         | Some rd => rd ip n
         end
  else
  if (i_size i <z off) || (u32 (off + n) <z off) then mret (-1, []) else
  let n := if i_size i <z u32 (off + n) then i_size i - off else n in
  l ← readi_loop (Z.to_nat n) ip (i_dev i) 0 off n;
  mret (s32 n, l).

(** The loop of [writei]; returns the final [off]. *)
Fixpoint writei_loop (fuel : nat) (ip : nat) (dev : Z) (src : list Z) (tot off n : Z)
    : M (fstate T) Z :=
  if tot <z n then
    match fuel with
    | O => fault "writei: fuel"
    | S fuel' =>
        b ← bmap ip (off / BSIZEz);
        bp ← lower (jread dev b);
        let m := Z.min (n - tot) (BSIZEz - off mod BSIZEz) in
        d ← bp_data bp;
        if Z.of_nat (length src) <z m then fault "writei: src" else
        lower (jset bp (splice (Z.to_nat (off mod BSIZEz)) (take (Z.to_nat m) src) d)) ;;
        lower (jwrite bp) ;;
        lower (jrelse bp) ;;
        writei_loop fuel' ip dev (drop (Z.to_nat m) src) (tot + m) (off + m) n
    end
  else mret off.

Definition writei (ip : nat) (src : list Z) (off n : Z) : M (fstate T) Z :=
  i ← get_inode ip;
  if i_type i =z T_DEV then
    if (i_major i <z 0) || (NDEV <=z i_major i) then mret (-1)
    else match devsw_write (i_major i) with
         | None => mret (-1)
         | Some wr => wr ip src n
         end
  else
  if (i_size i <z off) || (u32 (off + n) <z off) then mret (-1) else
  if MAXFILE * BSIZEz <z u32 (off + n) then mret (-1) else
  off ← writei_loop (Z.to_nat n) ip (i_dev i) src 0 off n;
  i ← get_inode ip;
  when ((0 <z n) && (i_size i <z off))
    (upd_inode ip (set_i_size off) ;;
     iupdate ip) ;;
  mret (s32 n).

(** ** Directories *)

(** [struct dirent]: a 16-bit inode number and [DIRSIZ] bytes of name. *)
Definition de_inum (de : list Z) : Z := get16 de 0.
Definition de_name (de : list Z) : list Z := slice 2 DIRSIZ de.

Definition namecmp (s t : list Z) : M (fstate T) Z := of_option "namecmp" (strncmp s t DIRSIZ).

(** One entry of a directory, at byte [off]. *)
Definition read_dirent (msg : string) (dp : nat) (off : Z) : M (fstate T) (list Z) :=
  '(r, de) ← readi dp off 16;
  if negb (r =z 16) then panic msg else mret de.

Definition dirlookup (dp : nat) (name : list Z) : M (fstate T) (option (nat * Z)) :=
  i ← get_inode dp;
  if negb (i_type i =z T_DIR) then panic "dirlookup not DIR" else
  r ← for_find (Z.to_nat ((i_size i + 15) / 16)) 0 (fun k =>
    let off := k * 16 in
    de ← read_dirent "dirlookup read" dp off;
    if de_inum de =z 0 then mret None else
    c ← namecmp name (de_name de);
    mret (if c =z 0 then Some (de_inum de, off) else None));
  match r with
  | None => mret None
  | Some (inum, off) => ip ← iget (i_dev i) inum; mret (Some (ip, off))
  end.

Definition dirlink (dp : nat) (name : list Z) (inum : Z) : M (fstate T) Z :=
  r ← dirlookup dp name;
  match r with
  | Some (ip, _) => iput ip ;; mret (-1)
  | None =>
      i ← get_inode dp;
      r ← for_find (Z.to_nat ((i_size i + 15) / 16)) 0 (fun k =>
        let off := k * 16 in
        de ← read_dirent "dirlink read" dp off;
        mret (if de_inum de =z 0 then Some off else None));
      let off := default ((i_size i + 15) / 16 * 16) r in
      nm ← of_option "strncpy" (strncpy (replicate DIRSIZ 0) name DIRSIZ);
      n ← writei dp (le_bytes 2 inum ++ nm) off 16;
      if negb (n =z 16) then panic "dirlink" else mret 0
  end.

(** ** Paths *)

Definition SLASH : Z := 47.

Fixpoint skip_slashes (path : list Z) : list Z :=
  match path with
  | c :: path' => if c =z SLASH then skip_slashes path' else path
  | [] => []
  end.
(** The element at the start of [path], and what follows it. *)
Fixpoint take_elem (path : list Z) : list Z * list Z :=
  match path with
  | c :: path' =>
      if (c =z SLASH) || (c =z 0) then ([], path)
      else let (e, r) := take_elem path' in (c :: e, r)
  | [] => ([], [])
  end.

(** [*path], the path being a string that ends with a NUL. *)
Definition first (path : list Z) : Z := hd 0 path.

(** The rest of the path and the buffer [name]; [None] is the null pointer. *)
Definition skipelem (path name : list Z) : option (list Z * list Z) :=
  let path := skip_slashes path in
  if first path =z 0 then None else
  let (s, path) := take_elem path in
  let name :=
    if decide (DIRSIZ <= length s)%nat then splice 0 (take DIRSIZ s) name
    else splice 0 (s ++ [0]) name in
  Some (skip_slashes path, name).

(** The loop of [namex]; each round shortens [path], so that its length is
    enough fuel. *)
Fixpoint namex_loop (fuel : nat) (ip : nat) (path : list Z) (nameiparent : bool) (name : list Z)
    : M (fstate T) (option nat * list Z) :=
  match skipelem path name with
  | None =>
      if nameiparent then iput ip ;; mret (None, name)
      else mret (Some ip, name)
  | Some (path, name) =>
      match fuel with
      | O => fault "namex: fuel"
      | S fuel' =>
          ilock (Some ip) ;;
          i ← get_inode ip;
          if negb (i_type i =z T_DIR) then
            iunlockput ip ;; mret (None, name)
          else if nameiparent && (first path =z 0) then
            iunlock (Some ip) ;; mret (Some ip, name)
          else
            r ← dirlookup ip name;
            match r with
            | None => iunlockput ip ;; mret (None, name)
            | Some (next, _) =>
                iunlockput ip ;;
                namex_loop fuel' next path nameiparent name
            end
      end
  end.

Definition namex (path : list Z) (nameiparent : bool) (name : list Z)
    : M (fstate T) (option nat * list Z) :=
  ip ← (if first path =z SLASH then iget ROOTDEV ROOTINO
        else
          p ← onm myproc;
          p ← of_option "null proc" p;
          pr ← onm (get_proc p);
          cwd ← of_option "null cwd" (p_cwd pr);
          idup cwd);
  namex_loop (length path) ip path nameiparent name.

(** [name] is the uninitialised buffer of [namei]'s frame. *)
Definition namei (path name : list Z) : M (fstate T) (option nat) :=
  r ← namex path false name; mret (fst r).
Definition nameiparent (path name : list Z) : M (fstate T) (option nat * list Z) :=
  namex path true name.
End fs.
