(* ===== verification/FsRep.v ===== *)
(** * The file system over the interface of the log: representation

    The rules of total correctness for the calls that the file system makes to
    the layer below, in terms of the content of blocks, the blocks written in
    the transaction, the locked buffers, and the inode cache. *)

From S2P Require Import Prelude Bytes Params Machine BlockCache Journal CString Fs.
Local Open Scope Z_scope.

(** What stays the same during a system call: the place and capacity of the
    log, the committed content, the superblock, the machine at the start. *)
Record fenv := Fenv {
  e_geom : geometry;
  e_cap : nat;
  e_old : Z -> list Z;
  e_sb : superblock;
  e_mach : machine
}.

Definition e_dom (E : fenv) (b : Z) : Prop :=
  outside (g_start (e_geom E)) (g_size (e_geom E)) (g_disk (e_geom E)) b.

Definition upd_blk (v : Z -> list Z) (b : Z) (d : list Z) : Z -> list Z :=
  fun b' => if decide (b' = b) then d else v b'.

Section rep.
Context {T : Type} `{JournalSpec T}.
Implicit Types (s : fstate T) (E : fenv) (ic : list inode) (v : Z -> list Z)
  (lg : gset Z) (h : gmap nat Z) (il : nat -> sleeplock).

(** The state [s] of the file system inside a transaction: inode cache [ic],
    content of blocks [v], blocks written so far [lg], locked buffers [h],
    sleep locks of inodes [il]. *)
Record frep E s ic v lg h il : Prop := {
  fr_inv : jv_inv jv (f_sub s);
  fr_sb : f_sb s = e_sb E;
  fr_ic : f_icache s = ic;
  fr_val : forall b, jv_val jv (f_sub s) b = v b;
  fr_old : forall b, jv_old jv (f_sub s) b = e_old E b;
  fr_logged : jv_logged jv (f_sub s) = lg;
  fr_held : jv_held jv (f_sub s) = h;
  fr_geom : jv_geom jv (f_sub s) = e_geom E;
  fr_cap : jv_cap jv (f_sub s) = e_cap E;
  fr_open : 1 <= jv_open jv (f_sub s);
  fr_mach : mrel (e_mach E) (mach s);
  fr_ilock : forall i, slock_of (mach s) (SInode i) = il i
}.

Lemma wp_lower {A} (f : M T A) s (Q : A -> fstate T -> Prop) :
  wp f (fun a t => Q a (Fstate (f_sb s) (f_icache s) t)) (f_sub s) -> wp (lower f) Q s.
Proof. intros Hw. apply wp_zoom. exact Hw. Qed.

Lemma frep_ext E s ic v v' lg h il :
  frep E s ic v lg h il -> (forall b, v' b = v b) -> frep E s ic v' lg h il.
Proof. intros [] Hv. split; try done. intros b. rewrite Hv. auto. Qed.

Lemma frep_val_ok E s ic v lg h il b : frep E s ic v lg h il -> block_ok (v b).
Proof. intros []. rewrite <- fr_val0. by apply jv_val_ok. Qed.

Lemma frep_clean E s ic v lg h il b : frep E s ic v lg h il ->
  b ∉ lg -> b ∉@{gset Z} map_img h -> v b = e_old E b.
Proof.
  intros [] Hl Hh. rewrite <- fr_val0, jv_clean; [done|done|by rewrite fr_logged0|by rewrite fr_held0].
Qed.

(** A block that was not locked can be released as it was read. *)
Lemma frep_release E s ic v lg h il b : frep E s ic v lg h il ->
  b ∉@{gset Z} map_img h -> b ∈ lg \/ v b = e_old E b.
Proof.
  intros Hr Hh. destruct (decide (b ∈ lg)); [by left|right]. by eapply frep_clean.
Qed.

(** A step of the layer below that keeps the sleep locks of inodes. *)
Lemma frep_step E s ic v lg h il t v' lg' h' :
  frep E s ic v lg h il -> jv_keep jv (f_sub s) t ->
  (forall b, jv_val jv t b = v' b) -> (forall b, jv_old jv t b = jv_old jv (f_sub s) b) ->
  jv_logged jv t = lg' -> jv_open jv t = jv_open jv (f_sub s) -> jv_held jv t = h' ->
  frep E (Fstate (f_sb s) (f_icache s) t) ic v' lg' h' il.
Proof.
  intros [] [Hi [Hm Hs] Hg Hc] Hv Ho Hl Hop Hh. split; cbn in *; try done; try congruence.
  by etrans.
Qed.

Lemma wp_fread E s ic v lg h il b (Q : nat -> fstate T -> Prop) :
  frep E s ic v lg h il -> e_dom E b -> b ∉@{gset Z} map_img h ->
  (size lg + size h < NBUF)%nat ->
  (forall s' i, h !! i = None -> frep E s' ic v lg (<[i := b]> h) il -> Q i s') ->
  wp (lower (jread ROOTDEV b)) Q s.
Proof.
  intros Hr Hb Hh Hn HQ. apply wp_lower. pose proof Hr as [].
  wp_apply jread_spec; [done| |by rewrite fr_held0|by rewrite fr_logged0, fr_held0|].
  { unfold jv_dom. by rewrite fr_geom0. }
  intros i t ([Hk Hv Ho Hl Hop] & Hi & Hh'). rewrite fr_held0 in Hi, Hh'. apply HQ; [done|].
  eapply frep_step; try done; [|congruence]. intros b'. by rewrite Hv.
Qed.

Lemma wp_fdata E s ic v lg h il i b (Q : list Z -> fstate T -> Prop) :
  frep E s ic v lg h il -> h !! i = Some b -> Q (v b) s -> wp (bp_data i) Q s.
Proof.
  intros [] Hi HQ. unfold bp_data. wp_step. by rewrite (jv_locked _ _ b), fr_val0 by congruence.
Qed.

Lemma wp_fset E s ic v lg h il i b d (Q : unit -> fstate T -> Prop) :
  frep E s ic v lg h il -> h !! i = Some b -> block_ok d ->
  (forall s', frep E s' ic (upd_blk v b d) lg h il -> Q tt s') ->
  wp (lower (jset i d)) Q s.
Proof.
  intros Hr Hi Hd HQ. apply wp_lower. pose proof Hr as [].
  wp_apply jset_spec; [done|by rewrite fr_held0|done|].
  intros [] t (Hk & Hv & Ho & Hl & Hop & Hh). apply HQ.
  eapply frep_step; try done; [|congruence..]. intros b'. rewrite Hv. unfold upd_blk.
  by case_decide.
Qed.

Lemma wp_fwrite E s ic v lg h il i b (Q : unit -> fstate T -> Prop) :
  frep E s ic v lg h il -> h !! i = Some b -> (size lg < e_cap E)%nat ->
  (forall s', frep E s' ic v ({[b]} ∪ lg) h il -> Q tt s') ->
  wp (lower (jwrite i)) Q s.
Proof.
  intros Hr Hi Hc HQ. apply wp_lower. pose proof Hr as [].
  wp_apply jwrite_spec; [done|by rewrite fr_held0|done|by rewrite fr_logged0, fr_cap0|].
  intros [] t (Hk & Hv & Ho & Hl & Hop & Hh). apply HQ.
  eapply frep_step; try done; [|congruence..]. intros b'. by rewrite Hv.
Qed.

Lemma wp_frelse E s ic v lg h il i b (Q : unit -> fstate T -> Prop) :
  frep E s ic v lg h il -> h !! i = Some b -> b ∈ lg \/ v b = e_old E b ->
  (forall s', frep E s' ic v lg (delete i h) il -> Q tt s') ->
  wp (lower (jrelse i)) Q s.
Proof.
  intros Hr Hi Hc HQ. apply wp_lower. pose proof Hr as [].
  wp_apply jrelse_spec; [done|by rewrite fr_held0|by rewrite fr_logged0, fr_val0, fr_old0|].
  intros [] t ([Hk Hv Ho Hl Hop] & Hh). apply HQ.
  eapply frep_step; try done; [|congruence..]. intros b'. by rewrite Hv.
Qed.

(** [... modify bp->data ...; log_write(bp); brelse(bp)]: the end of every
    function that changes a block. *)
Lemma wp_fedit E s ic v lg h il i b d (Q : unit -> fstate T -> Prop) :
  frep E s ic v lg h il -> h !! i = Some b -> block_ok d -> (size lg < e_cap E)%nat ->
  (forall s', frep E s' ic (upd_blk v b d) ({[b]} ∪ lg) (delete i h) il -> Q tt s') ->
  wp (lower (jset i d) ;; lower (jwrite i) ;; lower (jrelse i)) Q s.
Proof.
  intros Hr Hi Hd Hc HQ. wp_step. eapply wp_fset; [done..|]. intros s1 Hr1. wp_step.
  eapply wp_fwrite; [done..|]. intros s2 Hr2.
  eapply wp_frelse; [done|done|left; set_solver|done].
Qed.

Lemma wp_fedit_k {A} E s ic v lg h il i b d (k : M (fstate T) A) (Q : A -> fstate T -> Prop) :
  frep E s ic v lg h il -> h !! i = Some b -> block_ok d -> (size lg < e_cap E)%nat ->
  (forall s', frep E s' ic (upd_blk v b d) ({[b]} ∪ lg) (delete i h) il -> wp k Q s') ->
  wp (lower (jset i d) ;; lower (jwrite i) ;; lower (jrelse i) ;; k) Q s.
Proof.
  intros Hr Hi Hd Hc HQ. wp_step. eapply wp_fset; [done..|]. intros s1 Hr1. wp_step.
  eapply wp_fwrite; [done..|]. intros s2 Hr2. wp_step.
  eapply wp_frelse; [done|done|left; set_solver|done].
Qed.

Lemma wp_sb E s ic v lg h il (Q : superblock -> fstate T -> Prop) :
  frep E s ic v lg h il -> Q (e_sb E) s -> wp (gets f_sb) Q s.
Proof. intros [] HQ. wp_step. by rewrite fr_sb0. Qed.

Lemma wp_get_inode E s ic v lg h il ip i (Q : inode -> fstate T -> Prop) :
  frep E s ic v lg h il -> ic !! ip = Some i -> Q i s -> wp (get_inode ip) Q s.
Proof.
  intros [] Hi HQ. unfold get_inode. wp_steps. rewrite fr_ic0. by eapply wp_of_option.
Qed.

Lemma wp_upd_inode E s ic v lg h il ip i f (Q : unit -> fstate T -> Prop) :
  frep E s ic v lg h il -> ic !! ip = Some i ->
  (forall s', frep E s' (<[ip := f i]> ic) v lg h il -> Q tt s') ->
  wp (upd_inode ip f) Q s.
Proof.
  intros [] Hi HQ. unfold upd_inode. wp_step. apply HQ. split; try done. cbn. rewrite fr_ic0.
  apply list_eq. intros j. rewrite list_lookup_alter. destruct (decide (ip = j)) as [<-|].
  - rewrite Hi, list_lookup_insert_eq by (by eapply lookup_lt_Some). done.
  - by rewrite list_lookup_insert_ne.
Qed.
End rep.

(** ** Locks *)

Definition upd_il (il : nat -> sleeplock) (ip : nat) (k : sleeplock) : nat -> sleeplock :=
  fun i => if decide (i = ip) then k else il i.

Section locks.
Context {T : Type} `{JournalSpec T}.
Implicit Types (s : fstate T) (E : fenv) (ic : list inode) (v : Z -> list Z)
  (lg : gset Z) (h : gmap nat Z) (il : nat -> sleeplock) (m : machine).

Lemma wp_fonm {A} (f : M machine A) s (Q : A -> fstate T -> Prop) :
  wp f (fun a m' => Q a (set_mach m' s)) (mach s) -> wp (onm f) Q s.
Proof. intros Hw. apply wp_zoom. exact Hw. Qed.

Lemma frep_set_mach E s ic v lg h il il' m' :
  frep E s ic v lg h il -> mquiet (mach s) m' ->
  (forall i, slock_of m' (SBuf i) = slock_of (mach s) (SBuf i)) ->
  (forall i, slock_of m' (SInode i) = il' i) ->
  frep E (set_mach m' s) ic v lg h il'.
Proof.
  intros [] Hq Hs Hi.
  destruct (jv_view_mach (f_sub s) m') as (E1 & E2 & E3 & E4 & E5 & E6 & E7 & E8).
  split; cbn; rewrite ?E1, ?E2, ?E3, ?E4, ?E5, ?E6, ?E7; try done.
  - by apply jv_mach.
  - rewrite mach_set. etrans; [done|apply Hq].
  - intros i. by rewrite mach_set.
Qed.

(** [s] while the caller holds the spin lock [l], on the machine [m']. *)
Definition in_lock (l : lockid) s m' : Prop :=
  holds l m' /\ mrel (mach s) m' /\ slocks m' = slocks (mach s).

Lemma in_lock_same l s s' m' : mach s' = mach s -> in_lock l s m' -> in_lock l s' m'.
Proof. unfold in_lock. by intros ->. Qed.

Lemma wp_facquire l E s ic v lg h il (Q : unit -> fstate T -> Prop) :
  frep E s ic v lg h il -> (forall m', in_lock l s m' -> Q tt (set_mach m' s)) ->
  wp (onm (acquire l)) Q s.
Proof.
  intros Hr HQ. apply wp_fonm. apply wp_acquire; [apply (jv_quiet (f_sub s)), Hr|].
  intros m' Hh Hm Hs _. by apply HQ.
Qed.

Lemma wp_frelease l E s ic v lg h il m' (Q : unit -> fstate T -> Prop) :
  frep E s ic v lg h il -> in_lock l s m' ->
  (forall s', frep E s' ic v lg h il -> Q tt s') -> wp (onm (release l)) Q (set_mach m' s).
Proof.
  intros Hr (Hh & Hm & Hs) HQ. apply wp_fonm. rewrite mach_set. apply wp_release; [done|].
  intros m2 Hq Hs2 _. rewrite set_mach_set. apply HQ. eapply frep_set_mach; [done|..].
  - split; [apply Hq|]. etrans; [done|apply Hq].
  - intros i. unfold slock_of. congruence.
  - intros i. rewrite <- (fr_ilock _ _ _ _ _ _ _ Hr). unfold slock_of. congruence.
Qed.

Lemma frep_pid E s ic v lg h il : frep E s ic v lg h il ->
  exists pid, curpid (e_mach E) = Some pid /\ curpid (mach s) = Some pid /\ quiet (mach s).
Proof.
  intros Hr. destruct (jv_quiet (f_sub s) (fr_inv _ _ _ _ _ _ _ Hr)) as [Hq [pid Hp]].
  exists pid. split_and!; [|done|done]. rewrite <- (mrel_curpid _ _ (fr_mach _ _ _ _ _ _ _ Hr)). done.
Qed.

(** The state of an inode's lock held by the current process. *)
Definition e_lock E : sleeplock := Sleeplock 1 (default 0 (curpid (e_mach E))).

Lemma slock_inode s m' ip k il :
  slocks m' = <[SInode ip := k]> (slocks (mach s)) ->
  (forall i, slock_of (mach s) (SInode i) = il i) ->
  (forall i, slock_of m' (SBuf i) = slock_of (mach s) (SBuf i)) /\
  (forall i, slock_of m' (SInode i) = upd_il il ip k i).
Proof.
  intros Hs Hil. split; intros i; unfold slock_of at 1; rewrite Hs, lookup_insert; case_decide as E; try done.
  - injection E as <-. unfold upd_il. by rewrite decide_True.
  - unfold upd_il. rewrite decide_False by congruence. rewrite <- Hil. done.
Qed.

Lemma wp_filock E s ic v lg h il ip (Q : unit -> fstate T -> Prop) :
  frep E s ic v lg h il -> slocked (il ip) = 0 ->
  (forall s', frep E s' ic v lg h (upd_il il ip (e_lock E)) -> Q tt s') ->
  wp (onm (acquiresleep (SInode ip))) Q s.
Proof.
  intros Hr Hl HQ. destruct (frep_pid _ _ _ _ _ _ _ Hr) as (pid & Hp0 & Hp & Hq). apply wp_fonm.
  apply (wp_acquiresleep (SInode ip) _ pid); [done|done|by rewrite (fr_ilock _ _ _ _ _ _ _ Hr)|].
  intros m' Hq' Hs _. destruct (slock_inode _ _ _ _ _ Hs (fr_ilock _ _ _ _ _ _ _ Hr)) as [H1' H2'].
  apply HQ. unfold e_lock. rewrite Hp0. by eapply frep_set_mach.
Qed.

Lemma wp_fiunlock E s ic v lg h il ip (Q : unit -> fstate T -> Prop) :
  frep E s ic v lg h il ->
  (forall s', frep E s' ic v lg h (upd_il il ip initsleeplock) -> Q tt s') ->
  wp (onm (releasesleep (SInode ip))) Q s.
Proof.
  intros Hr HQ. destruct (frep_pid _ _ _ _ _ _ _ Hr) as (pid & Hp0 & Hp & Hq). apply wp_fonm.
  apply wp_releasesleep; [done|]. intros m' Hq' Hs.
  destruct (slock_inode _ _ _ _ _ Hs (fr_ilock _ _ _ _ _ _ _ Hr)) as [H1' H2'].
  apply HQ. by eapply frep_set_mach.
Qed.

Lemma wp_fholding E s ic v lg h il ip (Q : bool -> fstate T -> Prop) :
  frep E s ic v lg h il -> il ip = e_lock E ->
  (forall s', frep E s' ic v lg h il -> Q true s') ->
  wp (onm (holdingsleep (SInode ip))) Q s.
Proof.
  intros Hr Hl HQ. destruct (frep_pid _ _ _ _ _ _ _ Hr) as (pid & Hp0 & Hp & Hq). apply wp_fonm.
  unfold e_lock in Hl. rewrite Hp0 in Hl. cbn in Hl.
  eapply (wp_holdingsleep (SInode ip)); [done|done|by rewrite (fr_ilock _ _ _ _ _ _ _ Hr)|].
  intros m' Hq' Hs _. apply HQ. eapply frep_set_mach; [done|done|..]; intros i.
  - unfold slock_of. congruence.
  - rewrite <- (fr_ilock _ _ _ _ _ _ _ Hr). unfold slock_of. congruence.
Qed.
End locks.
