(* ===== verification/FsBlocks.v ===== *)
(** * Disk blocks: the free map

    [bzero], [balloc] and [bfree] of [fs.c] against the map of used blocks
    that the bitmap stands for. *)

From S2P Require Import Prelude Bytes Params Machine BlockCache Journal CString Fs FsRep.
Local Open Scope Z_scope.

(** ** Bits of a bitmap block *)

Section bits.
Implicit Types (d : list Z) (bi : Z).

Lemma land_bit x k : 0 <= k -> Z.land x (Z.shiftl 1 k) = 0 <-> Z.testbit x k = false.
Proof.
  intros Hk. rewrite Z.shiftl_1_l. split.
  - intros E. assert (Z.testbit (Z.land x (2 ^ k)) k = false) as Et by (rewrite E; apply Z.bits_0).
    by rewrite Z.land_spec, Z.pow2_bits_true, andb_true_r in Et by done.
  - intros E. apply Z.bits_inj_0. intros n. rewrite Z.land_spec.
    destruct (decide (n = k)) as [->|]; [by rewrite E|].
    by rewrite Z.pow2_bits_false, andb_false_r by lia.
Qed.

Definition in_bits bi : Prop := 0 <= bi < BPB.

Lemma bit_index bi : in_bits bi -> 0 <= Z.quot bi 8 < 512 /\ 0 <= Z.rem bi 8 < 8.
Proof.
  unfold in_bits, BPB. intros. rewrite Z.quot_div_nonneg, Z.rem_mod_nonneg by lia.
  pose proof (Z.mod_pos_bound bi 8 ltac:(lia)).
  pose proof (Z.div_le_lower_bound bi 8 0 ltac:(lia) ltac:(lia)).
  pose proof (Z.div_lt_upper_bound bi 8 512 ltac:(lia) ltac:(lia)). lia.
Qed.

Lemma bit_index_inj bi bj : in_bits bi -> in_bits bj ->
  Z.quot bi 8 = Z.quot bj 8 -> Z.rem bi 8 = Z.rem bj 8 -> bi = bj.
Proof.
  unfold in_bits. intros. rewrite (Z.quot_rem' bi 8), (Z.quot_rem' bj 8). congruence.
Qed.

Lemma bit_set_testbit d bi : in_bits bi ->
  bit_set d bi = Z.testbit (nth (Z.to_nat (Z.quot bi 8)) d 0) (Z.rem bi 8).
Proof.
  intros Hb. destruct (bit_index bi Hb) as [_ Hr]. unfold bit_set, bit_mask.
  destruct (Z.testbit _ _) eqn:E.
  - apply negb_true_iff, bool_decide_eq_false. rewrite land_bit by lia. congruence.
  - apply negb_false_iff, bool_decide_eq_true. by rewrite land_bit by lia.
Qed.

Lemma nth_put_byte d bi bj x : length d = BSIZE -> in_bits bi -> in_bits bj ->
  nth (Z.to_nat (Z.quot bj 8)) (put_byte d bi x) 0 =
  if decide (Z.quot bj 8 = Z.quot bi 8) then u8 x else nth (Z.to_nat (Z.quot bj 8)) d 0.
Proof.
  intros Hl Hi Hj. unfold put_byte.
  destruct (bit_index bi Hi) as [Hi1 _], (bit_index bj Hj) as [Hj1 _].
  rewrite !nth_lookup. case_decide as E.
  - rewrite E, list_lookup_insert_eq; [done|]. rewrite Hl. unfold BSIZE. lia.
  - by rewrite list_lookup_insert_ne by lia.
Qed.

Lemma testbit_u8 x k : 0 <= k < 8 -> Z.testbit (u8 x) k = Z.testbit x k.
Proof. intros. unfold u8. by rewrite Z.mod_pow2_bits_low by lia. Qed.

Lemma bit_set_used d bi bj : length d = BSIZE -> in_bits bi -> in_bits bj ->
  bit_set (mark_used d bi) bj = bool_decide (bj = bi) || bit_set d bj.
Proof.
  intros Hl Hi Hj. destruct (bit_index bi Hi) as [_ Hri], (bit_index bj Hj) as [_ Hrj].
  rewrite !bit_set_testbit by done. unfold mark_used. rewrite nth_put_byte by done.
  case_decide as E.
  - rewrite testbit_u8 by lia. rewrite Z.lor_spec. unfold bit_mask. rewrite Z.shiftl_1_l, E.
    rewrite orb_comm. f_equal. rewrite Z.pow2_bits_eqb by lia.
    case_bool_decide as Eb; [by subst; rewrite Z.eqb_refl|].
    apply Z.eqb_neq. intros Er. apply Eb. by apply bit_index_inj.
  - rewrite bool_decide_eq_false_2; [done|]. by intros ->.
Qed.

Lemma bit_set_freed d bi bj : length d = BSIZE -> in_bits bi -> in_bits bj ->
  bit_set (mark_free d bi) bj = negb (bool_decide (bj = bi)) && bit_set d bj.
Proof.
  intros Hl Hi Hj. destruct (bit_index bi Hi) as [_ Hri], (bit_index bj Hj) as [_ Hrj].
  rewrite !bit_set_testbit by done. unfold mark_free. rewrite nth_put_byte by done.
  case_decide as E.
  - rewrite testbit_u8 by lia. rewrite Z.land_spec, Z.lnot_spec by lia. unfold bit_mask.
    rewrite Z.shiftl_1_l, E, andb_comm. f_equal. f_equal. rewrite Z.pow2_bits_eqb by lia.
    case_bool_decide as Eb; [by subst; rewrite Z.eqb_refl|].
    apply Z.eqb_neq. intros Er. apply Eb. by apply bit_index_inj.
  - rewrite bool_decide_eq_false_2; [done|]. by intros ->.
Qed.

Lemma put_byte_ok d bi x : block_ok d -> block_ok (put_byte d bi x).
Proof.
  intros [Hl Hb]. unfold put_byte. split; [by rewrite length_insert|].
  apply Forall_insert; [done|]. apply Z.mod_pos_bound. lia.
Qed.

(** The inner loop of [balloc]: the first clear bit of the block. *)
Lemma scan_bits_spec n d b size : (n <= Z.to_nat BPB)%nat -> 0 <= b < size -> size < 2 ^ 31 ->
  match scan_bits n d b size with
  | Some bi => BPB - Z.of_nat n <= bi < BPB /\ b + bi < size /\ bit_set d bi = false /\
      forall bj, BPB - Z.of_nat n <= bj < bi -> bit_set d bj = true
  | None => forall bi, BPB - Z.of_nat n <= bi < BPB -> b + bi < size -> bit_set d bi = true
  end.
Proof.
  intros Hn Hb Hs. unfold BPB in *. induction n as [|n IH]; [cbn; lia|].
  cbn [scan_bits]. unfold BPB in *. set (k := 4096 - Z.of_nat (S n)).
  rewrite (u32_small (b + k)) by lia. case_bool_decide as E.
  - destruct (bit_set d k) eqn:Ek; [|split_and!; [lia..|done|lia]].
    specialize (IH ltac:(lia)). destruct (scan_bits n d b size) as [bi|].
    { destruct IH as (? & ? & ? & Hb'). split_and!; [lia..|done|]. intros bj Hbj.
      destruct (decide (bj = k)) as [->|]; [done|]. apply Hb'. lia. }
    intros bi Hbi Hlt. destruct (decide (bi = k)) as [->|]; [done|]. apply IH; lia.
  - intros bi Hbi Hlt. lia.
Qed.
End bits.

(** ** The free map *)

(** Block [b] is marked as used in the bitmap. *)
Definition used (sb : superblock) (v : Z -> list Z) (b : Z) : bool :=
  bit_set (v (BBLOCK b sb)) (b mod BPB).

(** The bitmap blocks of the blocks [0 .. sb.size - 1] are blocks of the file
    system, and the system is small enough for the arithmetic of the code. *)
Record bitmap_ok (E : fenv) : Prop := {
  bm_size : 0 <= sb_size (e_sb E) < 2 ^ 31;
  bm_start : 0 <= sb_bmapstart (e_sb E) < 2 ^ 31;
  bm_dom : forall b, 0 <= b < sb_size (e_sb E) -> e_dom E (BBLOCK b (e_sb E))
}.

Lemma BBLOCK_range E b : bitmap_ok E -> 0 <= b < sb_size (e_sb E) ->
  0 <= BBLOCK b (e_sb E) < 2 ^ 32.
Proof.
  intros [] Hb. unfold BBLOCK, BPB.
  pose proof (Z.div_le_upper_bound b 4096 b ltac:(lia) ltac:(lia)).
  pose proof (Z.div_pos b 4096 ltac:(lia) ltac:(lia)). lia.
Qed.

Section blocks.
Context {T : Type} `{JournalSpec T}.
Implicit Types (s : fstate T) (E : fenv) (ic : list inode) (v : Z -> list Z)
  (lg : gset Z) (h : gmap nat Z) (il : nat -> sleeplock).

Lemma wp_bzero E s ic v lg h il b (Q : unit -> fstate T -> Prop) :
  frep E s ic v lg h il -> e_dom E b -> 0 <= b < 2 ^ 32 -> b ∉@{gset Z} map_img h ->
  (size lg + size h < NBUF)%nat -> (size lg < e_cap E)%nat ->
  (forall s', frep E s' ic (upd_blk v b zero_block) ({[b]} ∪ lg) h il -> Q tt s') ->
  wp (bzero ROOTDEV b) Q s.
Proof.
  intros Hr Hb Hb' Hh Hn Hc HQ. unfold bzero. wp_step.
  rewrite (u32_small ROOTDEV), (u32_small b) by (unfold ROOTDEV; lia).
  eapply wp_fread; [done..|]. intros s1 i Hi Hr1.
  eapply wp_fedit; [done|apply lookup_insert_eq|apply zero_block_ok|done|].
  intros s2 Hr2. rewrite delete_insert_id in Hr2 by done. by apply HQ.
Qed.

(** [bfree] of a used block. *)
Lemma wp_bfree E s ic v lg h il b (Q : unit -> fstate T -> Prop) :
  frep E s ic v lg h il -> bitmap_ok E -> 0 <= b < sb_size (e_sb E) -> used (e_sb E) v b = true ->
  BBLOCK b (e_sb E) ∉@{gset Z} map_img h ->
  (size lg + size h < NBUF)%nat -> (size lg < e_cap E)%nat ->
  (forall s' d, frep E s' ic (upd_blk v (BBLOCK b (e_sb E)) d) ({[BBLOCK b (e_sb E)]} ∪ lg) h il ->
     d = mark_free (v (BBLOCK b (e_sb E))) (b mod BPB) -> Q tt s') ->
  wp (bfree ROOTDEV b) Q s.
Proof.
  intros Hr Hbm Hb Hu Hh Hn Hc HQ. unfold bfree. wp_step. eapply wp_sb; [done|]. wp_step.
  rewrite (u32_small ROOTDEV), (u32_small (BBLOCK _ _))
    by (unfold ROOTDEV; lia || by apply BBLOCK_range).
  eapply wp_fread; [done|by apply Hbm|done..|]. intros s1 i Hi Hr1. wp_step.
  eapply wp_fdata; [done|apply lookup_insert_eq|].
  unfold used in Hu. rewrite Hu. cbn [negb].
  eapply wp_fedit; [done|apply lookup_insert_eq| |done|].
  { apply put_byte_ok. by eapply frep_val_ok. }
  intros s2 Hr2. rewrite delete_insert_id in Hr2 by done. by eapply HQ.
Qed.

(** One block of the bitmap in the search of [balloc]. *)
Definition free_at (sb : superblock) (v : Z -> list Z) (b : Z) : Prop :=
  0 <= b < sb_size sb /\ used sb v b = false /\
  forall b', 0 <= b' < b -> used sb v b' = true.

Lemma used_at sb v k bi : 0 <= k -> 0 <= bi < BPB ->
  used sb v (k * BPB + bi) = bit_set (v (BBLOCK (k * BPB) sb)) bi.
Proof.
  unfold used, BBLOCK, BPB. intros Hk Hbi.
  rewrite (Z.add_comm (k * 4096)), Z.div_add, Z.mod_add by lia.
  rewrite Z.div_mul, (Z.div_small bi), (Z.mod_small bi) by lia. done.
Qed.

Lemma BBLOCK_at sb k bi : 0 <= k -> 0 <= bi < BPB ->
  BBLOCK (k * BPB + bi) sb = BBLOCK (k * BPB) sb.
Proof.
  unfold BBLOCK, BPB. intros Hk Hbi. rewrite (Z.add_comm (k * 4096)), Z.div_add by lia.
  by rewrite Z.div_mul, (Z.div_small bi) by lia.
Qed.

Lemma blocks_of k sz : 0 <= k -> k < (sz + BPB - 1) / BPB -> 0 <= k * BPB < sz.
Proof.
  unfold BPB. intros Hk Hlt. split; [lia|].
  assert (k + 1 <= (sz + 4096 - 1) / 4096) as H' by lia.
  apply (Z.mul_le_mono_nonneg_r _ _ 4096) in H'; [|lia].
  pose proof (Z.mul_div_le (sz + 4096 - 1) 4096 ltac:(lia)). lia.
Qed.

Lemma blocks_all sz : 0 <= sz -> sz <= (sz + BPB - 1) / BPB * BPB.
Proof.
  unfold BPB. intros. pose proof (Z.mod_pos_bound (sz + 4096 - 1) 4096 ltac:(lia)).
  pose proof (Z.div_mod (sz + 4096 - 1) 4096 ltac:(lia)). lia.
Qed.

(** The block the inner loop finds is the first free one. *)
Lemma scan_hit sb v k bi b : 0 <= k -> k * BPB <= b -> 0 <= bi < BPB ->
  used sb v b = false -> (forall b', 0 <= b' < b -> used sb v b' = true) ->
  bit_set (v (BBLOCK (k * BPB) sb)) bi = false ->
  (forall bj, 0 <= bj < bi -> bit_set (v (BBLOCK (k * BPB) sb)) bj = true) ->
  k * BPB + bi = b.
Proof.
  intros Hk Hkb Hbi Hfree Hleast Hclr Hfst.
  destruct (Z.lt_trichotomy (k * BPB + bi) b) as [Hlt|[?|Hgt]]; [|done|]; exfalso.
  - assert (used sb v (k * BPB + bi) = true) as Hu by (apply Hleast; unfold BPB in *; lia).
    rewrite used_at in Hu by done. congruence.
  - assert (used sb v b = true) as Hu; [|congruence].
    replace b with (k * BPB + (b - k * BPB)) by lia.
    rewrite used_at by (unfold BPB in *; lia). apply Hfst. lia.
Qed.

Lemma scan_miss sb v k b : 0 <= k -> k * BPB <= b -> used sb v b = false ->
  0 <= b < sb_size sb ->
  (forall bi, BPB - Z.of_nat (Z.to_nat BPB) <= bi < BPB -> k * BPB + bi < sb_size sb ->
     bit_set (v (BBLOCK (k * BPB) sb)) bi = true) ->
  (k + 1) * BPB <= b.
Proof.
  intros Hk Hkb Hfree Hb Hscan. destruct (Z.le_gt_cases ((k + 1) * BPB) b) as [|Hgt]; [done|].
  exfalso. assert (used sb v b = true) as Hu; [|congruence].
  replace b with (k * BPB + (b - k * BPB)) by lia.
  rewrite used_at by (unfold BPB in *; lia). apply Hscan; unfold BPB in *; lia.
Qed.

Lemma bitmap_pos sb k bi b : 0 <= k -> 0 <= bi < BPB -> k * BPB + bi = b ->
  BBLOCK (k * BPB) sb = BBLOCK b sb /\ bi = b mod BPB.
Proof.
  intros Hk Hbi <-. split; [symmetry; by apply BBLOCK_at|].
  rewrite Z.add_comm, Z.mod_add, Z.mod_small by (unfold BPB in *; lia). done.
Qed.

(** [balloc] takes the first free block, marks it and zeroes it. *)
Lemma wp_balloc E s ic v lg h il b (Q : Z -> fstate T -> Prop) :
  let BB := BBLOCK b (e_sb E) in
  frep E s ic v lg h il -> bitmap_ok E -> free_at (e_sb E) v b -> e_dom E b ->
  (forall b', 0 <= b' < sb_size (e_sb E) -> BBLOCK b' (e_sb E) ∉@{gset Z} map_img h) ->
  b ∉@{gset Z} map_img h ->
  (size lg + size h + 1 < NBUF)%nat -> (size lg + 1 < e_cap E)%nat ->
  (forall s', frep E s' ic (upd_blk (upd_blk v BB (mark_used (v BB) (b mod BPB))) b zero_block)
     ({[b]} ∪ ({[BB]} ∪ lg)) h il -> Q b s') ->
  wp (balloc ROOTDEV) Q s.
Proof.
  intros BB Hr Hbm (Hb & Hfree & Hleast) Hdom Hbb Hbh Hn Hc HQ. unfold balloc. wp_step.
  eapply wp_sb; [done|]. set (sb := e_sb E) in *. pose proof (bm_size _ Hbm) as Hsz. fold sb in Hsz.
  wp_step. apply (wp_for_find (fun k s' => frep E s' ic v lg h il /\ k * BPB <= b)).
  - split; [done|lia].
  - intros k s1 Hk [Hr1 Hkb].
    assert (0 <= k * BPB < sb_size sb) as Hkr by (apply blocks_of; unfold BPB in *; lia).
    wp_step. rewrite u32_small by (by apply BBLOCK_range).
    eapply wp_fread; [done|by apply Hbm|by apply Hbb|lia|]. intros s2 i Hi Hr2. wp_step.
    eapply wp_fdata; [done|apply lookup_insert_eq|].
    pose proof (scan_bits_spec (Z.to_nat BPB) (v (BBLOCK (k * BPB) sb)) (k * BPB) (sb_size sb)
      ltac:(lia) Hkr ltac:(lia)) as Hscan.
    destruct (scan_bits _ _ _ _) as [bi|].
    + destruct Hscan as (Hbi & Hlt & Hclr & Hfst). rewrite Z2Nat.id in Hbi, Hfst by (unfold BPB; lia).
      rewrite Z.sub_diag in Hbi, Hfst.
      assert (k * BPB + bi = b) as Eb by (apply (scan_hit sb v); done || lia).
      destruct (bitmap_pos sb k bi b) as [EBB Ebi]; [lia|done|done|]. fold BB in EBB.
      rewrite EBB in *. rewrite Eb, Ebi.
      eapply wp_fedit_k; [done|apply lookup_insert_eq| |lia|].
      { apply put_byte_ok. by eapply frep_val_ok. }
      intros s3 Hr3. rewrite delete_insert_id in Hr3 by done. wp_step.
      pose proof (size_union_le {[BB]} lg) as Hu. rewrite size_singleton in Hu.
      eapply wp_bzero; [done|done|lia|done|lia|lia|]. intros s4 Hr4. wp_steps.
      rewrite u32_small by lia. by apply HQ.
    + wp_step. eapply wp_frelse; [done|apply lookup_insert_eq| |].
      { eapply frep_release; [exact Hr1|by apply Hbb]. }
      intros s3 Hr3. rewrite delete_insert_id in Hr3 by done. wp_step. split; [done|].
      eapply scan_miss; [lia|done..|exact Hscan].
  - intros s' [_ Hk]. exfalso. pose proof (blocks_all (sb_size sb) ltac:(lia)).
    rewrite Z2Nat.id in Hk by (apply Z.div_pos; unfold BPB; lia). lia.
Qed.
End blocks.
