(* ===== verification/FsInodes.v ===== *)
(** * Inodes

    The on-disk format of an inode, and [iupdate], [iget], [idup], [ilock],
    [iunlock], [ialloc] and the plain case of [iput]. *)

From S2P Require Import Prelude Bytes Params Machine BlockCache Journal CString Fs FsRep.
Local Open Scope Z_scope.

(** ** struct dinode *)

(** The ranges of the C types of the fields. *)
Record inode_wf (i : inode) : Prop := {
  iw_type : -2 ^ 15 <= i_type i < 2 ^ 15;
  iw_major : -2 ^ 15 <= i_major i < 2 ^ 15;
  iw_minor : -2 ^ 15 <= i_minor i < 2 ^ 15;
  iw_nlink : -2 ^ 15 <= i_nlink i < 2 ^ 15;
  iw_size : 0 <= i_size i < 2 ^ 32;
  iw_addrs : length (i_addrs i) = S NDIRECT;
  iw_addr : Forall (fun a => 0 <= a < 2 ^ 32) (i_addrs i)
}.

Section dinode.
Local Open Scope nat_scope.
Implicit Types (d : list Z) (off : nat) (i : inode).

Lemma s16_range x : (-2 ^ 15 <= x < 2 ^ 15)%Z -> s16 (u16 x) = x.
Proof.
  intros Hx. unfold s16, u16. rewrite Z.mod_mod by lia.
  destruct (decide (0 <= x)%Z).
  - rewrite Z.mod_small by lia. by rewrite bool_decide_eq_true_2 by lia.
  - replace (x mod 2 ^ 16)%Z with (x + 2 ^ 16)%Z.
    + rewrite bool_decide_eq_false_2 by lia. lia.
    + rewrite <- (Z.mod_small (x + 2 ^ 16) (2 ^ 16)) by lia.
      replace (x + 2 ^ 16)%Z with (x + 1 * 2 ^ 16)%Z by lia. by rewrite Z.mod_add by lia.
Qed.

Lemma slice_splice_inner o k n src d :
  o <= length d -> k + n <= length src -> slice (o + k) n (splice o src d) = slice k n src.
Proof.
  intros Ho Hk. apply list_eq. intros j. rewrite !lookup_slice. case_decide; [|done].
  rewrite lookup_splice_in by lia. f_equal. lia.
Qed.

Lemma length_words (l : list Z) : length (concat (le_bytes 4 <$> l)) = 4 * length l.
Proof.
  induction l as [|x l IH]; [done|]. cbn [fmap list_fmap concat].
  rewrite length_app, length_le_bytes, IH. cbn [length]. lia.
Qed.

Lemma bytes_ok_words (l : list Z) : bytes_ok (concat (le_bytes 4 <$> l)).
Proof.
  induction l as [|x l IH]; cbn [fmap list_fmap concat]; [constructor|].
  apply Forall_app. split; [apply le_bytes_ok|done].
Qed.

Lemma slice_words (l : list Z) k x : l !! k = Some x ->
  slice (4 * k) 4 (concat (le_bytes 4 <$> l)) = le_bytes 4 x.
Proof.
  revert k. induction l as [|y l IH]; intros k Hk; [done|]. destruct k as [|k].
  - injection Hk as ->. done.
  - cbn [fmap list_fmap concat]. rewrite <- (IH k Hk). unfold slice.
    replace (4 * S k) with (length (le_bytes 4 y) + 4 * k) by (rewrite length_le_bytes; lia).
    by rewrite drop_app_add.
Qed.

Lemma splice_adj o (a b d : list Z) : o + length a + length b <= length d ->
  splice (o + length a) b (splice o a d) = splice o (a ++ b) d.
Proof.
  intros Hd. unfold splice.
  rewrite (app_assoc (take o d)), take_app_length' by (rewrite length_app, length_take; lia).
  rewrite <- Nat.add_assoc. rewrite (drop_app_ge (take o d ++ a)) by (rewrite length_app, length_take; lia).
  rewrite drop_drop, length_app, length_take. rewrite <- !app_assoc. do 3 f_equal.
  rewrite length_app. f_equal. lia.
Qed.

(** The 64 bytes of an inode on disk. *)
Definition dinode_bytes i : list Z :=
  le_bytes 2 (i_type i) ++ le_bytes 2 (i_major i) ++ le_bytes 2 (i_minor i) ++
  le_bytes 2 (i_nlink i) ++ le_bytes 4 (i_size i) ++ concat (le_bytes 4 <$> i_addrs i).

Lemma length_dinode_bytes i : length (i_addrs i) = S NDIRECT -> length (dinode_bytes i) = 64.
Proof.
  intros Ha. unfold dinode_bytes. rewrite !length_app, !length_le_bytes, length_words, Ha. done.
Qed.

Lemma put_dinode_splice d off i : off + 64 <= length d -> length (i_addrs i) = S NDIRECT ->
  put_dinode d off i = splice off (dinode_bytes i) d.
Proof.
  intros Hd Ha. pose proof (length_dinode_bytes i Ha) as Hl. unfold dinode_bytes in *.
  unfold put_dinode, set16, set32.
  set (t := le_bytes 2 (i_type i)) in *. set (mj := le_bytes 2 (i_major i)) in *.
  set (mn := le_bytes 2 (i_minor i)) in *. set (nl := le_bytes 2 (i_nlink i)) in *.
  set (sz := le_bytes 4 (i_size i)) in *. set (ad := concat _) in *.
  assert (length t = 2 /\ length mj = 2 /\ length mn = 2 /\ length nl = 2 /\ length sz = 4)
    as (L1 & L2 & L3 & L4 & L5) by (split_and!; apply length_le_bytes).
  rewrite !length_app in Hl.
  replace (off + 2) with (off + length t) by lia. rewrite splice_adj by lia.
  replace (off + 4) with (off + length (t ++ mj)) by (rewrite length_app; lia).
  rewrite splice_adj by (rewrite length_app; lia).
  replace (off + 6) with (off + length ((t ++ mj) ++ mn)) by (rewrite !length_app; lia).
  rewrite splice_adj by (rewrite !length_app; lia).
  replace (off + 8) with (off + length (((t ++ mj) ++ mn) ++ nl)) by (rewrite !length_app; lia).
  rewrite splice_adj by (rewrite !length_app; lia).
  replace (off + 12) with (off + length ((((t ++ mj) ++ mn) ++ nl) ++ sz)) by (rewrite !length_app; lia).
  rewrite splice_adj by (rewrite !length_app; lia). by rewrite <- !app_assoc.
Qed.

(** A field of [k] bytes at offset [o] of the inode. *)
Lemma slice_dinode d off i o n : off + 64 <= length d -> length (i_addrs i) = S NDIRECT ->
  o + n <= 64 -> slice (off + o) n (put_dinode d off i) = slice o n (dinode_bytes i).
Proof.
  intros Hd Ha Ho. rewrite put_dinode_splice by done.
  apply slice_splice_inner; [lia|]. by rewrite length_dinode_bytes.
Qed.

Lemma slice_dinode_other d off off' i n : off + 64 <= length d -> length (i_addrs i) = S NDIRECT ->
  off' + n <= off \/ off + 64 <= off' ->
  slice off' n (put_dinode d off i) = slice off' n d.
Proof.
  intros Hd Ha Ho. rewrite put_dinode_splice by done.
  apply slice_splice_other; rewrite length_dinode_bytes by done; lia.
Qed.

(** Encoding and decoding: what [iupdate] stores, [ilock] loads. *)
Lemma get_put_dinode d off i : off + 64 <= length d -> inode_wf i ->
  get_dinode (put_dinode d off i) off i = i.
Proof.
  intros Hd [Ht Hmj Hmn Hnl Hsz Hla Had]. unfold get_dinode.
  assert (forall o x, (-2 ^ 15 <= x < 2 ^ 15)%Z -> o + 2 <= 64 ->
    slice o 2 (dinode_bytes i) = le_bytes 2 x -> s16 (get16 (put_dinode d off i) (off + o)) = x) as H16.
  { intros o x Hx Ho E. unfold get16. rewrite slice_dinode, E, le_val_bytes by done.
    by apply s16_range. }
  assert (forall o x, (0 <= x < 2 ^ 32)%Z -> o + 4 <= 64 ->
    slice o 4 (dinode_bytes i) = le_bytes 4 x -> get32 (put_dinode d off i) (off + o) = x) as H32.
  { intros o x Hx Ho E. unfold get32. rewrite slice_dinode, E, le_val_bytes by done.
    by apply Z.mod_small. }
  assert (dip_addrs (put_dinode d off i) off = i_addrs i) as Ha.
  { unfold dip_addrs. apply list_eq. intros k. rewrite list_lookup_fmap.
    destruct (i_addrs i !! k) as [x|] eqn:Ek.
    - pose proof (lookup_lt_Some _ _ _ Ek). rewrite lookup_seq_lt by lia. cbn [fmap option_fmap option_map].
      f_equal. rewrite Forall_lookup in Had. replace (off + 12 + 4 * (0 + k)) with (off + (12 + 4 * k)) by lia.
      unfold NDIRECT in *. apply H32; [by apply (Had k)|lia|]. unfold dinode_bytes.
      rewrite !app_assoc. rewrite <- (slice_words _ k x Ek). unfold slice. f_equal.
    - apply lookup_ge_None in Ek. rewrite lookup_seq_ge by lia. done. }
  destruct i as [dev inum r va ty mj mn nl sz ad]. cbn [i_dev i_inum i_ref i_valid i_addrs] in *. f_equal.
  - unfold dip_type. replace off with (off + 0) at 2 by lia. by apply H16; [|lia|].
  - by apply H16; [|lia|].
  - by apply H16; [|lia|].
  - by apply H16; [|lia|].
  - by apply H32; [|lia|].
  - done.
Qed.

(** Storing one inode does not touch the others of the block. *)
Lemma get_put_dinode_other d off off' i j : off + 64 <= length d -> length (i_addrs i) = S NDIRECT ->
  off' + 64 <= off \/ off + 64 <= off' ->
  get_dinode (put_dinode d off i) off' j = get_dinode d off' j.
Proof.
  intros Hd Ha Ho. unfold get_dinode, dip_type, dip_major, dip_minor, dip_nlink, dip_size, dip_addrs.
  unfold get16, get32.
  rewrite !(slice_dinode_other d off) by (done || lia). f_equal. apply list_fmap_ext.
  intros k x Hx. apply lookup_seq in Hx as [-> Hx]. unfold NDIRECT in Hx.
  by rewrite slice_dinode_other by (done || lia).
Qed.

Lemma block_ok_put_dinode d off i : block_ok d -> off + 64 <= BSIZE -> length (i_addrs i) = S NDIRECT ->
  block_ok (put_dinode d off i).
Proof.
  intros [Hl Hb] Ho Ha. rewrite put_dinode_splice by (done || lia).
  split; [rewrite length_splice; rewrite ?length_dinode_bytes; done || lia|].
  apply bytes_ok_splice; [|done]. unfold dinode_bytes, bytes_ok. rewrite !Forall_app.
  split_and!; try apply le_bytes_ok. apply bytes_ok_words.
Qed.
End dinode.

(** ** The inode cache *)

(** An entry in use for the inode. *)
Definition holds_inode (i : inode) (dev inum : Z) : Prop :=
  0 < i_ref i /\ i_dev i = dev /\ i_inum i = inum.

Record icache_ok (ic : list inode) : Prop := {
  ic_len : length ic = NINODE;
  ic_ref : forall k i, ic !! k = Some i -> 0 <= i_ref i;
  (** one entry per inode *)
  ic_uniq : forall j k a b dev inum, ic !! j = Some a -> ic !! k = Some b ->
    holds_inode a dev inum -> holds_inode b dev inum -> j = k
}.

(** What [iget] does to the cache. *)
Definition iget_post (ic : list inode) (dev inum : Z) (ip : nat) (ic' : list inode) : Prop :=
  exists i, ic !! ip = Some i /\
    ((holds_inode i dev inum /\ ic' = <[ip := set_i_ref (i_ref i + 1) i]> ic) \/
     (i_ref i = 0 /\ (forall k j, ic !! k = Some j -> ~ holds_inode j dev inum) /\
      ic' = <[ip := Inode dev inum 1 0 (i_type i) (i_major i) (i_minor i) (i_nlink i)
                      (i_size i) (i_addrs i)]> ic)).

Section icache.
Implicit Types (ic l : list inode).

Lemma holds_inode_test i dev inum :
  (0 <z i_ref i) && (i_dev i =z dev) && (i_inum i =z inum) = true <-> holds_inode i dev inum.
Proof. unfold holds_inode. rewrite !andb_true_iff, !bool_decide_eq_true. tauto. Qed.

Lemma iget_scan_spec l n e dev inum :
  match iget_scan l n e dev inum with
  | (Some ip, _) => exists k i, ip = (n + k)%nat /\ l !! k = Some i /\ holds_inode i dev inum
  | (None, e') =>
      (forall k i, l !! k = Some i -> ~ holds_inode i dev inum) /\
      match e' with
      | Some ip => e = Some ip \/ e = None /\ exists k i, ip = (n + k)%nat /\ l !! k = Some i /\ i_ref i = 0
      | None => e = None /\ forall k i, l !! k = Some i -> i_ref i <> 0
      end
  end.
Proof.
  revert n e. induction l as [|i l IH]; intros n e; cbn [iget_scan].
  { destruct e; split; try done; by left. }
  destruct ((0 <z i_ref i) && _ && _) eqn:Ht.
  { apply holds_inode_test in Ht. exists O, i. by rewrite Nat.add_0_r. }
  assert (~ holds_inode i dev inum) as Hn by (rewrite <- holds_inode_test; congruence). clear Ht.
  specialize (IH (S n) (match e with Some x => Some x | None => if i_ref i =z 0 then Some n else None end)).
  destruct (iget_scan l (S n) _ dev inum) as [[ip|] e'].
  - destruct IH as (k & j & -> & Hk & Hj). exists (S k), j. split_and!; [lia|done|done].
  - destruct IH as [Hno He]. split.
    { intros [|k] j Hk; [injection Hk as <-; done|by eapply Hno]. }
    destruct e' as [ip|].
    + destruct He as [He|(He & k & j & -> & Hk & Hj)].
      * destruct e as [x|]; [by left|]. case_bool_decide as E; [|done]. injection He as <-.
        right. split; [done|]. exists O, i. by rewrite Nat.add_0_r.
      * destruct e as [x|]; [done|]. right. split; [done|]. exists (S k), j. split_and!; [lia|done|done].
    + destruct He as [He Hr]. destruct e as [x|]; [done|]. case_bool_decide as E; [done|].
      split; [done|]. intros [|k] j Hk; [by injection Hk as <-|by eapply Hr].
Qed.

Lemma icache_upd ic ip i i' : icache_ok ic -> ic !! ip = Some i -> 0 <= i_ref i' ->
  (forall dev inum, holds_inode i' dev inum ->
     holds_inode i dev inum \/ forall k j, ic !! k = Some j -> ~ holds_inode j dev inum) ->
  icache_ok (<[ip := i']> ic).
Proof.
  intros [Hl Hr Hu] Hi Hr' Hh. assert (ip < length ic)%nat as Hlt by (by eapply lookup_lt_Some).
  split; [by rewrite length_insert|..].
  - intros k j [(<- & <- & _)|[_ Hk]]%list_lookup_insert_Some; [done|by eapply Hr].
  - intros j k a b dev inum Hj Hk Ha Hb.
    apply list_lookup_insert_Some in Hj as [(<- & <- & _)|[Hnj Hj]];
      apply list_lookup_insert_Some in Hk as [(<- & <- & _)|[Hnk Hk]]; try done.
    + destruct (Hh _ _ Ha) as [Hi'|Hno]; [by eapply Hu|by destruct (Hno k b)].
    + destruct (Hh _ _ Hb) as [Hi'|Hno]; [by eapply Hu|by destruct (Hno j a)].
    + by eapply Hu.
Qed.

Lemma iget_post_ok ic dev inum ip ic' : icache_ok ic -> iget_post ic dev inum ip ic' -> icache_ok ic'.
Proof.
  intros Hok (i & Hi & [[Hh ->]|(Hr & Hno & ->)]).
  - eapply icache_upd; [done|done|pose proof (ic_ref _ Hok _ _ Hi); cbn; lia|].
    intros dev' inum' (_ & ? & ?). left. destruct Hh. by split_and!.
  - eapply icache_upd; [done|done|cbn; lia|]. intros dev' inum' (_ & Hd & Hm). cbn in Hd, Hm. subst.
    by right.
Qed.
End icache.

(** ** Operations *)

(** The block of an inode is a block of the file system. *)
Record inode_blk_ok (E : fenv) (inum : Z) : Prop := {
  ib_dom : e_dom E (IBLOCK inum (e_sb E));
  ib_num : 0 <= inum;
  ib_range : 0 <= IBLOCK inum (e_sb E) < 2 ^ 32
}.

Lemma dinode_off_bound inum : 0 <= inum -> (dinode_off inum + 64 <= BSIZE)%nat.
Proof.
  intros. unfold dinode_off, IPB, BSIZE. pose proof (Z.mod_pos_bound inum 8 ltac:(lia)). lia.
Qed.

Section ops.
Context {T : Type} `{JournalSpec T}.
Implicit Types (s : fstate T) (E : fenv) (ic : list inode) (v : Z -> list Z)
  (lg : gset Z) (h : gmap nat Z) (il : nat -> sleeplock).

Lemma alter_insert_icache ic ip i (f : inode -> inode) : ic !! ip = Some i ->
  alter f ip ic = <[ip := f i]> ic.
Proof.
  intros Hi. apply list_eq. intros j. rewrite list_lookup_alter.
  destruct (decide (ip = j)) as [<-|].
  - rewrite Hi, list_lookup_insert_eq by (by eapply lookup_lt_Some). done.
  - by rewrite list_lookup_insert_ne.
Qed.

(** Updating an entry while [icache.lock] is held. *)
Lemma wp_upd_locked E s ic v lg h il ip i f m' (Q : unit -> fstate T -> Prop) :
  frep E s ic v lg h il -> ic !! ip = Some i -> in_lock LIcache s m' ->
  (forall s', frep E s' (<[ip := f i]> ic) v lg h il -> in_lock LIcache s' m' ->
     Q tt (set_mach m' s')) ->
  wp (upd_inode ip f) Q (set_mach m' s).
Proof.
  intros Hr Hi Hl HQ. unfold upd_inode. wp_step.
  change (Q tt (set_mach m' (Fstate (f_sb s) (alter f ip (f_icache s)) (f_sub s)))).
  apply HQ; [|done].
  pose proof (fr_ic _ _ _ _ _ _ _ Hr) as Eic. destruct Hr. split; try done. cbn. rewrite Eic.
  by apply alter_insert_icache.
Qed.

Lemma wp_get_locked E s ic v lg h il ip i m' (Q : inode -> fstate T -> Prop) :
  frep E s ic v lg h il -> ic !! ip = Some i -> Q i (set_mach m' s) ->
  wp (get_inode ip) Q (set_mach m' s).
Proof.
  intros Hr Hi HQ. unfold get_inode. wp_steps.
  change (f_icache (set_mach m' s)) with (f_icache s). rewrite (fr_ic _ _ _ _ _ _ _ Hr).
  by eapply wp_of_option.
Qed.

Lemma wp_iget E s ic v lg h il dev inum (Q : nat -> fstate T -> Prop) :
  frep E s ic v lg h il ->
  (exists k i, ic !! k = Some i /\ (holds_inode i dev inum \/ i_ref i = 0)) ->
  (forall s' ip ic', iget_post ic dev inum ip ic' -> frep E s' ic' v lg h il -> Q ip s') ->
  wp (iget dev inum) Q s.
Proof.
  intros Hr (k0 & i0 & Hk0 & Hi0) HQ. unfold iget. wp_step. eapply wp_facquire; [done|].
  intros m' Hl. wp_steps. change (f_icache (set_mach m' s)) with (f_icache s).
  rewrite (fr_ic _ _ _ _ _ _ _ Hr).
  pose proof (iget_scan_spec ic 0 None dev inum) as Hscan.
  destruct (iget_scan ic 0 None dev inum) as [[ip|] [e|]].
  1-2: destruct Hscan as (k & i & -> & Hk & Hh); wp_step; eapply wp_upd_locked; [done..|];
    intros s1 Hr1 Hl1; wp_step; eapply wp_frelease; [done..|]; intros s2 Hr2; wp_step;
    eapply HQ; [|done]; exists i; split; [done|by left].
  - destruct Hscan as [Hno [He|(_ & k & i & -> & Hk & Hz)]]; [done|]. wp_step.
    eapply wp_upd_locked; [done..|]. intros s1 Hr1 Hl1. wp_step. eapply wp_frelease; [done..|].
    intros s2 Hr2. wp_step. eapply HQ; [|done]. exists i. split; [done|by right].
  - destruct Hscan as [Hno [_ Hz]]. exfalso.
    destruct Hi0 as [Hh|Hz0]; [by eapply Hno|by eapply Hz].
Qed.

Lemma wp_idup E s ic v lg h il ip i (Q : nat -> fstate T -> Prop) :
  frep E s ic v lg h il -> ic !! ip = Some i ->
  (forall s', frep E s' (<[ip := set_i_ref (i_ref i + 1) i]> ic) v lg h il -> Q ip s') ->
  wp (idup ip) Q s.
Proof.
  intros Hr Hi HQ. unfold idup. wp_step. eapply wp_facquire; [done|]. intros m' Hl. wp_step.
  eapply wp_get_locked; [done..|]. wp_step. eapply wp_upd_locked; [done..|]. intros s1 Hr1 Hl1. wp_step.
  eapply wp_frelease; [done..|]. intros s2 Hr2. wp_step. by apply HQ.
Qed.

(** [iupdate] stores the fields of the inode in its place on disk. *)
Lemma wp_iupdate E s ic v lg h il ip i (Q : unit -> fstate T -> Prop) :
  let IB := IBLOCK (i_inum i) (e_sb E) in
  frep E s ic v lg h il -> ic !! ip = Some i -> i_dev i = ROOTDEV ->
  length (i_addrs i) = S NDIRECT -> inode_blk_ok E (i_inum i) -> IB ∉@{gset Z} map_img h ->
  (size lg + size h < NBUF)%nat -> (size lg < e_cap E)%nat ->
  (forall s', frep E s' ic (upd_blk v IB (put_dinode (v IB) (dinode_off (i_inum i)) i))
     ({[IB]} ∪ lg) h il -> Q tt s') ->
  wp (iupdate ip) Q s.
Proof.
  intros IB Hr Hi Hd Hla [Hdom Hnum Hrange] Hh Hn Hc HQ. unfold iupdate. wp_step.
  eapply wp_get_inode; [done..|]. wp_step. eapply wp_sb; [done|]. wp_step.
  rewrite Hd, u32_small by done. eapply wp_fread; [done..|]. intros s1 k Hk Hr1. wp_step.
  eapply wp_fdata; [done|apply lookup_insert_eq|].
  eapply wp_fedit; [done|apply lookup_insert_eq| |done|].
  { apply block_ok_put_dinode; [by eapply frep_val_ok|by apply dinode_off_bound|done]. }
  intros s2 Hr2. rewrite delete_insert_id in Hr2 by done. by apply HQ.
Qed.

(** [ilock] of an entry that is already valid. *)
Lemma wp_ilock_valid E s ic v lg h il ip i (Q : unit -> fstate T -> Prop) :
  frep E s ic v lg h il -> ic !! ip = Some i -> 1 <= i_ref i -> i_valid i <> 0 ->
  slocked (il ip) = 0 ->
  (forall s', frep E s' ic v lg h (upd_il il ip (e_lock E)) -> Q tt s') ->
  wp (ilock (Some ip)) Q s.
Proof.
  intros Hr Hi Href Hv Hl HQ. unfold ilock. wp_step. eapply wp_get_inode; [done..|].
  rewrite bool_decide_eq_false_2 by lia. wp_step. eapply wp_filock; [done..|]. intros s1 Hr1. wp_step.
  eapply wp_get_inode; [done..|]. rewrite bool_decide_eq_false_2 by done. unfold when. wp_step.
  by apply HQ.
Qed.

(** [ilock] of an entry that has to be read from disk. *)
Lemma wp_ilock_load E s ic v lg h il ip i (Q : unit -> fstate T -> Prop) :
  let IB := IBLOCK (i_inum i) (e_sb E) in
  let i' := set_i_valid 1 (get_dinode (v IB) (dinode_off (i_inum i)) i) in
  frep E s ic v lg h il -> ic !! ip = Some i -> 1 <= i_ref i -> i_valid i = 0 -> i_dev i = ROOTDEV ->
  slocked (il ip) = 0 -> inode_blk_ok E (i_inum i) -> IB ∉@{gset Z} map_img h ->
  (size lg + size h < NBUF)%nat -> i_type i' <> 0 ->
  (forall s', frep E s' (<[ip := i']> ic) v lg h (upd_il il ip (e_lock E)) -> Q tt s') ->
  wp (ilock (Some ip)) Q s.
Proof.
  intros IB i' Hr Hi Href Hv Hd Hl [Hdom Hnum Hrange] Hh Hn Ht HQ. unfold ilock. wp_step.
  eapply wp_get_inode; [done..|]. rewrite bool_decide_eq_false_2 by lia. wp_step.
  eapply wp_filock; [done..|]. intros s1 Hr1. wp_step. eapply wp_get_inode; [done..|].
  rewrite bool_decide_eq_true_2 by done. unfold when. wp_step. eapply wp_sb; [done|]. wp_step.
  rewrite Hd, u32_small by done. eapply wp_fread; [done..|]. intros s2 k Hk Hr2. wp_step.
  eapply wp_fdata; [done|apply lookup_insert_eq|]. wp_step. eapply wp_upd_inode; [done..|].
  intros s3 Hr3. wp_step. eapply wp_frelse; [done|apply lookup_insert_eq| |].
  { eapply frep_release; [exact Hr1|done]. }
  intros s4 Hr4. rewrite delete_insert_id in Hr4 by done. wp_step.
  assert (ip < length ic)%nat as Hlt by (by eapply lookup_lt_Some).
  eapply wp_upd_inode; [done|by apply list_lookup_insert_eq|]. intros s5 Hr5.
  rewrite list_insert_insert_eq in Hr5. wp_step.
  eapply wp_get_inode; [done|by apply list_lookup_insert_eq|].
  rewrite bool_decide_eq_false_2 by done. wp_step. by apply HQ.
Qed.

Lemma wp_iunlock E s ic v lg h il ip i (Q : unit -> fstate T -> Prop) :
  frep E s ic v lg h il -> ic !! ip = Some i -> 1 <= i_ref i -> il ip = e_lock E ->
  (forall s', frep E s' ic v lg h (upd_il il ip initsleeplock) -> Q tt s') ->
  wp (iunlock (Some ip)) Q s.
Proof.
  intros Hr Hi Href Hl HQ. unfold iunlock. wp_step. eapply wp_fholding; [done..|]. intros s1 Hr1.
  cbn [negb]. wp_step. eapply wp_get_inode; [done..|]. rewrite bool_decide_eq_false_2 by lia.
  by eapply wp_fiunlock.
Qed.

(** The free inode with the smallest number. *)
Definition first_free_inode E v (n : Z) : Prop :=
  1 <= n < sb_ninodes (e_sb E) /\
  dip_type (v (IBLOCK n (e_sb E))) (dinode_off n) = 0 /\
  forall n', 1 <= n' < n -> dip_type (v (IBLOCK n' (e_sb E))) (dinode_off n') <> 0.

Lemma block_ok_fresh d off ty : block_ok d -> (off + 64 <= BSIZE)%nat ->
  block_ok (set16 (splice off (replicate 64 0) d) off ty).
Proof.
  intros [Hl Hb] Ho.
  assert (length (splice off (replicate 64 0) d) = length d) as El.
  { apply length_splice. rewrite length_replicate. lia. }
  split; [rewrite length_set16; lia|]. apply bytes_ok_splice; [apply le_bytes_ok|].
  apply bytes_ok_splice; [|done]. apply Forall_replicate. unfold byte_ok. lia.
Qed.

(** [ialloc] takes the first free inode, clears it and gives it a type. *)
Lemma wp_ialloc E s ic v lg h il n ty (Q : nat -> fstate T -> Prop) :
  let IB := IBLOCK n (e_sb E) in
  frep E s ic v lg h il -> first_free_inode E v n ->
  (forall n', 1 <= n' <= n -> inode_blk_ok E n' /\ IBLOCK n' (e_sb E) ∉@{gset Z} map_img h) ->
  (exists k i, ic !! k = Some i /\ (holds_inode i ROOTDEV n \/ i_ref i = 0)) ->
  (size lg + size h < NBUF)%nat -> (size lg < e_cap E)%nat ->
  (forall s' ip ic', iget_post ic ROOTDEV n ip ic' ->
     frep E s' ic' (upd_blk v IB (set16 (splice (dinode_off n) (replicate 64 0) (v IB)) (dinode_off n) ty))
       ({[IB]} ∪ lg) h il -> Q ip s') ->
  wp (ialloc ROOTDEV ty) Q s.
Proof.
  intros IB Hr (Hn & Hfree & Hleast) Hblk Hslot Hnb Hc HQ. unfold ialloc. wp_step.
  eapply wp_sb; [done|]. set (sb := e_sb E) in *. wp_step.
  apply (wp_for_find (fun k s' => frep E s' ic v lg h il /\ k <= n)); [split; [done|lia]| |].
  - intros k s1 Hk [Hr1 Hkn]. destruct (Hblk k ltac:(lia)) as [[Hdom Hnum Hrange] Hh].
    wp_step. rewrite u32_small by done. eapply wp_fread; [done..|lia|]. intros s2 i Hi Hr2. wp_step.
    eapply wp_fdata; [done|apply lookup_insert_eq|]. case_bool_decide as Et.
    + assert (k = n) as ->.
      { destruct (decide (k < n)) as [Hlt|]; [|lia]. by destruct (Hleast k ltac:(lia)). }
      eapply wp_fedit_k; [done|apply lookup_insert_eq| |done|].
      { apply block_ok_fresh; [by eapply frep_val_ok|by apply dinode_off_bound]. }
      intros s3 Hr3. rewrite delete_insert_id in Hr3 by done. wp_step.
      eapply wp_iget; [done|done|]. intros s4 ip ic' Hpost Hr4. by eapply HQ.
    + wp_step. eapply wp_frelse; [done|apply lookup_insert_eq|by eapply frep_release; [exact Hr1|]|].
      intros s3 Hr3. rewrite delete_insert_id in Hr3 by done. wp_step. split; [done|].
      destruct (decide (k = n)) as [->|]; [done|lia].
  - intros s' [_ Hk]. lia.
Qed.

(** [iput] of an inode that stays: it has links, or other references, or was
    never read. *)
Lemma wp_iput_keep E s ic v lg h il ip i (Q : unit -> fstate T -> Prop) :
  frep E s ic v lg h il -> ic !! ip = Some i -> slocked (il ip) = 0 ->
  i_valid i = 0 \/ i_nlink i <> 0 \/ i_ref i <> 1 ->
  (forall s' il', frep E s' (<[ip := set_i_ref (i_ref i - 1) i]> ic) v lg h il' ->
     slocked (il' ip) = 0 -> (forall j, j <> ip -> il' j = il j) -> Q tt s') ->
  wp (iput ip) Q s.
Proof.
  intros Hr Hi Hl Hkeep HQ. unfold iput. wp_step. eapply wp_filock; [done..|]. intros s1 Hr1. wp_step.
  eapply wp_get_inode; [done..|]. wp_step.
  set (il1 := upd_il il ip (e_lock E)) in *.
  assert (forall s2, frep E s2 ic v lg h il1 ->
    wp (onm (releasesleep (SInode ip)) ;; onm (acquire LIcache) ;;
        upd_inode ip (fun i => set_i_ref (i_ref i - 1) i) ;; onm (release LIcache)) Q s2) as Hrest.
  { intros s2 Hr2. wp_step. eapply wp_fiunlock; [done|]. intros s3 Hr3. wp_step.
    eapply wp_facquire; [done|]. intros m' Hm'. wp_step. eapply wp_upd_locked; [done..|].
    intros s4 Hr4 Hm4. eapply wp_frelease; [done..|]. intros s5 Hr5. eapply HQ; [done|..].
    - unfold upd_il. by rewrite decide_True.
    - intros j Hj. unfold il1, upd_il. by rewrite !decide_False. }
  apply wp_when; [|intros _; by apply Hrest]. intros [Hv Hz]%andb_true_iff.
  apply bool_decide_eq_true in Hz. assert (i_ref i <> 1) as Href.
  { destruct Hkeep as [Hk|[?|?]]; [by rewrite Hk in Hv|done|done]. }
  wp_step. eapply wp_facquire; [done|]. intros m' Hm'. wp_step. eapply wp_get_locked; [done..|]. wp_step.
  eapply wp_frelease; [done..|]. intros s2 Hr2. rewrite bool_decide_eq_false_2 by done. unfold when. wp_step.
  by apply Hrest.
Qed.
End ops.
