(* ===== verification/FsContent.v ===== *)
(** * The content of files: block map

    The blocks of a file ([bmap]) and what allocating one changes.  The content
    of a file is a function of the disk: [fblock v i bn] is its block [bn], a
    hole reads as zeroes. *)

From S2P Require Import Prelude Bytes Params Machine BlockCache Journal CString Fs FsRep FsBlocks FsInodes.
Local Open Scope Z_scope.

(** ** Layout of the disk *)

Definition data_start (sb : superblock) : Z := sb_bmapstart sb + sb_size sb / BPB + 1.

(** The order of the areas: inodes, bitmap, data. *)
Record fs_layout (E : fenv) : Prop := {
  fl_bm : bitmap_ok E;
  fl_inode : forall n, 0 <= n < sb_ninodes (e_sb E) ->
    inode_blk_ok E n /\ IBLOCK n (e_sb E) < sb_bmapstart (e_sb E);
  fl_data : forall b, data_start (e_sb E) <= b < sb_size (e_sb E) -> e_dom E b
}.

(** The areas in front of the data are marked as used. *)
Definition meta_used (E : fenv) (v : Z -> list Z) : Prop :=
  forall b, 0 <= b < sb_size (e_sb E) -> used (e_sb E) v b = false -> data_start (e_sb E) <= b.

Definition data_used (E : fenv) (v : Z -> list Z) (b : Z) : Prop :=
  data_start (e_sb E) <= b < sb_size (e_sb E) /\ used (e_sb E) v b = true.

(** ** The block map of a file *)

Definition iaddr (i : inode) (k : nat) : Z := nth k (i_addrs i) 0.

(** The address of block [bn], 0 if there is none. *)
Definition blkmap (v : Z -> list Z) (i : inode) (bn : Z) : Z :=
  if decide (bn < 12) then iaddr i (Z.to_nat bn)
  else if decide (iaddr i NDIRECT = 0) then 0
  else get32 (v (iaddr i NDIRECT)) (4 * Z.to_nat (bn - 12)).

Definition fblock (v : Z -> list Z) (i : inode) (bn : Z) : list Z :=
  if decide (blkmap v i bn = 0) then zero_block else v (blkmap v i bn).

(** The blocks that belong to the file. *)
Definition fblk (v : Z -> list Z) (i : inode) (b : Z) : Prop :=
  b <> 0 /\ (b = iaddr i NDIRECT \/ exists bn, 0 <= bn < MAXFILE /\ blkmap v i bn = b).

Record file_ok (E : fenv) (v : Z -> list Z) (i : inode) : Prop := {
  fo_wf : inode_wf i;
  fo_dev : i_dev i = ROOTDEV;
  fo_used : forall b, fblk v i b -> data_used E v b;
  fo_inj : forall bn bn', 0 <= bn < MAXFILE -> 0 <= bn' < MAXFILE -> blkmap v i bn <> 0 ->
    blkmap v i bn = blkmap v i bn' -> bn = bn';
  fo_root : forall bn, 0 <= bn < MAXFILE -> blkmap v i bn <> 0 -> blkmap v i bn <> iaddr i NDIRECT
}.

Section layout.
Implicit Types (E : fenv) (v : Z -> list Z) (i : inode).

Lemma bitmap_before E b b' : bitmap_ok E -> 0 <= b' < sb_size (e_sb E) ->
  data_start (e_sb E) <= b -> BBLOCK b' (e_sb E) <> b.
Proof.
  intros [Hsz Hst _] Hb' Hb. unfold data_start, BBLOCK, BPB in *.
  pose proof (Z.div_le_mono b' (sb_size (e_sb E)) 4096 ltac:(lia) ltac:(lia)). lia.
Qed.

Lemma bitmap_after E b : bitmap_ok E -> 0 <= b < sb_size (e_sb E) ->
  sb_bmapstart (e_sb E) <= BBLOCK b (e_sb E).
Proof.
  intros [Hsz Hst _] Hb. unfold BBLOCK, BPB.
  pose proof (Z.div_pos b 4096 ltac:(lia) ltac:(lia)). lia.
Qed.

Lemma data_start_pos E : bitmap_ok E -> 0 < data_start (e_sb E).
Proof.
  intros [Hsz Hst _]. unfold data_start, BPB.
  pose proof (Z.div_pos (sb_size (e_sb E)) 4096 ltac:(lia) ltac:(lia)). lia.
Qed.

Lemma inode_before E n b : fs_layout E -> 0 <= n < sb_ninodes (e_sb E) ->
  data_start (e_sb E) <= b -> IBLOCK n (e_sb E) <> b.
Proof.
  intros HL Hn Hb. destruct (fl_inode _ HL n Hn) as [_ Hlt]. unfold data_start, BPB in Hb.
  pose proof (bm_size _ (fl_bm _ HL)).
  pose proof (Z.div_pos (sb_size (e_sb E)) 4096 ltac:(lia) ltac:(lia)). lia.
Qed.

(** ** Allocation *)

(** The disk after [balloc] has returned [b]. *)
Definition allocated (sb : superblock) v (b : Z) : Z -> list Z :=
  upd_blk (upd_blk v (BBLOCK b sb) (mark_used (v (BBLOCK b sb)) (b mod BPB))) b zero_block.

(** All blocks have the size of a block. *)
Definition vol_ok v : Prop := forall b, block_ok (v b).

Lemma used_allocated E v b b' : bitmap_ok E -> vol_ok v -> data_start (e_sb E) <= b < sb_size (e_sb E) ->
  0 <= b' < sb_size (e_sb E) ->
  used (e_sb E) (allocated (e_sb E) v b) b' = bool_decide (b' = b) || used (e_sb E) v b'.
Proof.
  intros HB Hv Hb Hb'. pose proof (data_start_pos _ HB). unfold used, allocated, upd_blk.
  rewrite (decide_False (P := BBLOCK b' (e_sb E) = b)) by (apply bitmap_before; done || lia).
  case_decide as E1.
  - rewrite E1, bit_set_used; [|apply Hv|apply Z.mod_pos_bound; unfold BPB; lia..].
    f_equal. apply bool_decide_ext. split; [|by intros ->]. intros Em. unfold BBLOCK, BPB in *.
    rewrite (Z.div_mod b' 4096), (Z.div_mod b 4096) by lia. lia.
  - rewrite bool_decide_eq_false_2; [done|]. intros ->. done.
Qed.

Lemma allocated_other E v b b' : b' <> b -> (forall c, 0 <= c < sb_size (e_sb E) -> BBLOCK c (e_sb E) <> b') ->
  0 <= b < sb_size (e_sb E) -> allocated (e_sb E) v b b' = v b'.
Proof.
  intros Hne Hbm Hb. unfold allocated, upd_blk. rewrite !decide_False; [done|..]; [|done].
  intros ->. by apply (Hbm b).
Qed.

Lemma allocated_data E v b b' : bitmap_ok E -> data_start (e_sb E) <= b < sb_size (e_sb E) ->
  data_start (e_sb E) <= b' -> b' <> b -> allocated (e_sb E) v b b' = v b'.
Proof.
  intros HB Hb Hb' Hne. pose proof (data_start_pos _ HB).
  apply allocated_other; [done| |lia]. intros c Hc. by apply bitmap_before.
Qed.

Lemma allocated_new E v b : allocated (e_sb E) v b b = zero_block.
Proof. unfold allocated, upd_blk. by rewrite decide_True. Qed.

Lemma vol_ok_upd v b d : vol_ok v -> block_ok d -> vol_ok (upd_blk v b d).
Proof. intros Hv Hd b'. unfold upd_blk. by case_decide. Qed.

Lemma vol_ok_allocated sb v b : vol_ok v -> vol_ok (allocated sb v b).
Proof.
  intros Hv. apply vol_ok_upd; [|apply zero_block_ok]. apply vol_ok_upd; [done|].
  by apply put_byte_ok.
Qed.
End layout.

(** ** The map when the file grows *)

(** The inode of the block map of [i] is the only thing that changed. *)
Definition same_meta (i i' : inode) : Prop :=
  exists a, i' = Inode (i_dev i) (i_inum i) (i_ref i) (i_valid i) (i_type i) (i_major i) (i_minor i)
                       (i_nlink i) (i_size i) a.

(** From [v], [i] to [v'], [i']: the file may have got more blocks and its
    content may have changed; the inodes and the blocks of other files are what
    they were. *)
Record kept (E : fenv) (v : Z -> list Z) (i : inode) (v' : Z -> list Z) (i' : inode) : Prop := {
  kp_vol : vol_ok v';
  kp_file : file_ok E v' i';
  kp_meta : meta_used E v';
  kp_same : same_meta i i';
  kp_map : forall bn, 0 <= bn < MAXFILE -> blkmap v i bn <> 0 -> blkmap v' i' bn = blkmap v i bn;
  kp_root : iaddr i NDIRECT <> 0 -> iaddr i' NDIRECT = iaddr i NDIRECT;
  kp_used : forall b, 0 <= b < sb_size (e_sb E) -> used (e_sb E) v b = true ->
    used (e_sb E) v' b = true;
  kp_new : forall b, fblk v' i' b -> fblk v i b \/ used (e_sb E) v b = false;
  kp_data : forall b, data_used E v b -> ~ fblk v i b -> v' b = v b;
  kp_inodes : forall n, 0 <= n < sb_ninodes (e_sb E) -> v' (IBLOCK n (e_sb E)) = v (IBLOCK n (e_sb E))
}.

(** Blocks have been added to the file, its content is what it was. *)
Record grown (E : fenv) (v : Z -> list Z) (i : inode) (v' : Z -> list Z) (i' : inode) : Prop := {
  gr_kept : kept E v i v' i';
  gr_content : forall bn, 0 <= bn < MAXFILE -> fblock v' i' bn = fblock v i bn
}.

Section grow.
Implicit Types (E : fenv) (v : Z -> list Z) (i : inode).

Lemma same_meta_refl i : same_meta i i.
Proof. exists (i_addrs i). by destruct i. Qed.

Lemma same_meta_trans i1 i2 i3 : same_meta i1 i2 -> same_meta i2 i3 -> same_meta i1 i3.
Proof. intros [a ->] [a' ->]. by exists a'. Qed.

Lemma kept_refl E v i : vol_ok v -> file_ok E v i -> meta_used E v -> kept E v i v i.
Proof. intros. split; try done; [apply same_meta_refl|by left]. Qed.

Lemma kept_trans E v1 i1 v2 i2 v3 i3 :
  kept E v1 i1 v2 i2 -> kept E v2 i2 v3 i3 -> bitmap_ok E -> kept E v1 i1 v3 i3.
Proof.
  intros G1 G2 HB. pose proof (data_start_pos _ HB). split; try apply G2.
  - by eapply same_meta_trans; [apply G1|apply G2].
  - intros bn Hbn Hm. pose proof (kp_map _ _ _ _ _ G1 bn Hbn Hm) as Em.
    rewrite (kp_map _ _ _ _ _ G2); congruence.
  - intros Hr. pose proof (kp_root _ _ _ _ _ G1 Hr). rewrite (kp_root _ _ _ _ _ G2); congruence.
  - intros b Hb Hu. by apply (kp_used _ _ _ _ _ G2), (kp_used _ _ _ _ _ G1).
  - intros b Hb. apply (kp_new _ _ _ _ _ G2) in Hb as Hb'. destruct Hb' as [Hb'|Hu].
    { by apply (kp_new _ _ _ _ _ G1). }
    right. apply not_true_is_false. intros Ht. rewrite (kp_used _ _ _ _ _ G1) in Hu; try done.
    destruct (fo_used _ _ _ (kp_file _ _ _ _ _ G2) b Hb). lia.
  - intros b Hb Hn. destruct Hb as [Hb Hu]. rewrite (kp_data _ _ _ _ _ G2).
    + by apply (kp_data _ _ _ _ _ G1).
    + split; [done|]. apply (kp_used _ _ _ _ _ G1); [lia|done].
    + intros Hf. apply (kp_new _ _ _ _ _ G1) in Hf as [|]; congruence.
  - intros n Hn. by rewrite (kp_inodes _ _ _ _ _ G2), (kp_inodes _ _ _ _ _ G1) by done.
Qed.

Lemma grown_refl E v i : vol_ok v -> file_ok E v i -> meta_used E v -> grown E v i v i.
Proof. intros. split; [by apply kept_refl|done]. Qed.

Lemma grown_trans E v1 i1 v2 i2 v3 i3 :
  grown E v1 i1 v2 i2 -> grown E v2 i2 v3 i3 -> bitmap_ok E -> grown E v1 i1 v3 i3.
Proof.
  intros [K1 C1] [K2 C2] HB. split; [by eapply kept_trans|].
  intros bn Hbn. by rewrite C2, C1 by done.
Qed.

Lemma iaddr_set_eq k a i : (k < length (i_addrs i))%nat -> iaddr (set_i_addr k a i) k = a.
Proof. intros. unfold iaddr. cbn. by apply nth_lookup_Some, list_lookup_insert_eq. Qed.

Lemma iaddr_set_ne k k' a i : k <> k' -> iaddr (set_i_addr k a i) k' = iaddr i k'.
Proof. intros. unfold iaddr. cbn. by rewrite !nth_lookup, list_lookup_insert_ne. Qed.

Lemma inode_wf_addr i k a : inode_wf i -> 0 <= a < 2 ^ 32 -> inode_wf (set_i_addr k a i).
Proof.
  intros [] Ha. split; cbn; try done; [by rewrite length_insert|]. by apply Forall_insert.
Qed.

Lemma blkmap_root v i bn : 0 <= bn -> blkmap v i bn <> 0 -> 12 <= bn -> iaddr i NDIRECT <> 0.
Proof. intros Hbn Hm Hge Hz. apply Hm. unfold blkmap. by rewrite decide_False, decide_True by lia. Qed.
End grow.

(** A new block [b] enters the file: as block [bn0], or as its indirect block
    when [bn0] is -1. *)
Record added (E : fenv) (v : Z -> list Z) (i : inode) (b bn0 : Z) (v' : Z -> list Z) (i' : inode) : Prop := {
  ad_free : data_start (e_sb E) <= b < sb_size (e_sb E) /\ used (e_sb E) v b = false;
  ad_vol : vol_ok v';
  ad_wf : inode_wf i';
  ad_same : same_meta i i';
  ad_map : forall bn, 0 <= bn < MAXFILE ->
    blkmap v' i' bn = if decide (bn = bn0) then b else blkmap v i bn;
  ad_hole : 0 <= bn0 < MAXFILE -> blkmap v i bn0 = 0;
  ad_root : iaddr i' NDIRECT = if decide (bn0 = -1) then b else iaddr i NDIRECT;
  ad_noroot : bn0 = -1 -> iaddr i NDIRECT = 0;
  ad_zero : v' b = zero_block;
  ad_out : forall c, c <> b -> (iaddr i NDIRECT <> 0 -> c <> iaddr i NDIRECT) ->
    v' c = allocated (e_sb E) v b c
}.

Section added.
Context (E : fenv) (v : Z -> list Z) (i : inode) (b bn0 : Z) (v' : Z -> list Z) (i' : inode).
Context (HA : added E v i b bn0 v' i') (HL : fs_layout E) (Hv : vol_ok v) (HF : file_ok E v i)
  (HM : meta_used E v).

Lemma added_ne c : data_used E v c -> c <> b.
Proof. intros [_ Hu] ->. destruct (ad_free _ _ _ _ _ _ _ HA). congruence. Qed.

Lemma added_root : iaddr i NDIRECT <> 0 -> data_used E v (iaddr i NDIRECT).
Proof. intros. apply (fo_used _ _ _ HF). split; [done|by left]. Qed.

Lemma added_blk bn : 0 <= bn < MAXFILE -> blkmap v i bn <> 0 -> data_used E v (blkmap v i bn).
Proof. intros. apply (fo_used _ _ _ HF). split; [done|]. right. by exists bn. Qed.

Lemma added_fblk c : fblk v' i' c -> c = b \/ fblk v i c.
Proof.
  intros [Hc [->|(bn & Hbn & <-)]].
  - rewrite (ad_root _ _ _ _ _ _ _ HA) in *. case_decide; [by left|]. right. split; [done|by left].
  - rewrite (ad_map _ _ _ _ _ _ _ HA) in * by done. case_decide; [by left|]. right.
    split; [done|]. right. by exists bn.
Qed.

Lemma added_used c : 0 <= c < sb_size (e_sb E) ->
  used (e_sb E) v' c = bool_decide (c = b) || used (e_sb E) v c.
Proof.
  intros Hc. destruct (ad_free _ _ _ _ _ _ _ HA) as [Hb _]. pose proof (fl_bm _ HL) as HB.
  rewrite <- (used_allocated E) by done. unfold used. rewrite (ad_out _ _ _ _ _ _ _ HA); [done|..].
  - apply bitmap_before; [done|done|lia].
  - intros Hr. apply bitmap_before; [done|done|]. by apply added_root.
Qed.

Lemma added_file : file_ok E v' i'.
Proof.
  pose proof HA as []. pose proof HF as [].
  assert (forall bn, 0 <= bn < MAXFILE -> blkmap v i bn <> b) as Hnb.
  { intros bn Hbn Eb. pose proof (data_start_pos _ (fl_bm _ HL)).
    apply (added_ne (blkmap v i bn)); [apply added_blk; [done|]|done]. lia. }
  split; [done| | |intros bn bn' Hbn Hbn'|intros bn Hbn].
  - by destruct ad_same0 as [? ->].
  - intros c Hc. apply added_fblk in Hc as [->|Hc]; (split; [|rewrite added_used]).
    + apply ad_free0.
    + by rewrite bool_decide_eq_true_2.
    + pose proof (data_start_pos _ (fl_bm _ HL)). lia.
    + by apply fo_used0.
    + rewrite (proj2 (fo_used0 _ Hc)). apply orb_true_r.
    + pose proof (data_start_pos _ (fl_bm _ HL)). destruct (fo_used0 _ Hc) as [? _]. lia.
  - rewrite !ad_map0 by done. pose proof (Hnb bn Hbn). pose proof (Hnb bn' Hbn').
    intros Hz Heq. repeat case_decide; try congruence. all: by apply fo_inj0.
  - rewrite ad_map0, ad_root0 by done. pose proof (Hnb bn Hbn).
    repeat case_decide; subst; try lia; try done; [|by apply fo_root0].
    intros _ Eb. pose proof (data_start_pos _ (fl_bm _ HL)).
    apply (added_ne b); [|done]. rewrite Eb. apply added_root. lia.
Qed.

Lemma added_content bn : 0 <= bn < MAXFILE -> fblock v' i' bn = fblock v i bn.
Proof.
  intros Hbn. unfold fblock. rewrite (ad_map _ _ _ _ _ _ _ HA) by done.
  destruct (decide (bn = bn0)) as [->|E1].
  - rewrite (ad_hole _ _ _ _ _ _ _ HA), (decide_True (P := 0 = 0)) by done.
    rewrite (ad_zero _ _ _ _ _ _ _ HA). by case_decide.
  - case_decide as Ez; [done|]. pose proof (added_blk bn Hbn Ez) as Hu.
    rewrite (ad_out _ _ _ _ _ _ _ HA); [|by apply added_ne|intros _; by apply (fo_root _ _ _ HF)].
    apply allocated_data; [apply HL|apply HA|apply Hu|by apply added_ne].
Qed.

Lemma added_grown : grown E v i v' i'.
Proof.
  pose proof HA as []. split; [|apply added_content].
  split; [done|apply added_file| |done| | | | | |].
  - intros c Hc. rewrite added_used by done. intros [_ Hu]%orb_false_iff. by apply HM.
  - intros bn Hbn Hm. rewrite ad_map0 by done. destruct (decide (bn = bn0)) as [->|]; [|done].
    by rewrite ad_hole0 in Hm.
  - intros Hr. rewrite ad_root0. destruct (decide (bn0 = -1)) as [Ez|]; [|done]. by rewrite ad_noroot0 in Hr.
  - intros c Hc Hu. rewrite added_used, Hu by done. apply orb_true_r.
  - intros c Hc. apply added_fblk in Hc as [->|]; [by right; apply ad_free0|by left].
  - intros c Hc Hn. rewrite ad_out0; [|by apply added_ne|].
    + apply allocated_data; [apply HL|apply ad_free0|apply Hc|by apply added_ne].
    + intros Hr ->. apply Hn. split; [done|by left].
  - intros n Hn. destruct (fl_inode _ HL n Hn) as [_ Hlt].
    rewrite ad_out0; [|apply inode_before; done || apply ad_free0|].
    + apply allocated_other; [apply inode_before; done || apply ad_free0| |].
      * intros c Hc. pose proof (bitmap_after _ c (fl_bm _ HL) Hc). lia.
      * pose proof (data_start_pos _ (fl_bm _ HL)). lia.
    + intros Hr. apply inode_before; [done..|]. by apply added_root.
Qed.
End added.

(** The blocks of the bitmap. *)
Definition bitmap_set (E : fenv) : gset Z :=
  list_to_set ((fun b => BBLOCK b (e_sb E)) <$> seqZ 0 (sb_size (e_sb E))).

Lemma BBLOCK_bitmap_set E b : 0 <= b < sb_size (e_sb E) -> BBLOCK b (e_sb E) ∈ bitmap_set E.
Proof.
  intros Hb. apply elem_of_list_to_set, list_elem_of_fmap. exists b. split; [done|].
  apply elem_of_seqZ. lia.
Qed.

(** A file system of up to 4096 blocks has one block of bitmap. *)
Lemma bitmap_set_small E : sb_size (e_sb E) <= BPB -> (size (bitmap_set E) <= 1)%nat.
Proof.
  intros Hs. transitivity (size ({[sb_bmapstart (e_sb E)]} : gset Z)); [|by rewrite size_singleton].
  apply subseteq_size. intros b Hb%elem_of_list_to_set. apply list_elem_of_fmap in Hb as (c & -> & Hc).
  apply elem_of_seqZ in Hc. apply elem_of_singleton. unfold BBLOCK, BPB in *.
  rewrite Z.div_small by lia. lia.
Qed.

(** The indirect block of a file, if it has one. *)
Definition root_set (i : inode) : gset Z :=
  if decide (iaddr i NDIRECT = 0) then ∅ else {[iaddr i NDIRECT]}.

Lemma root_set_mono E v i v' i' : kept E v i v' i' -> root_set i ⊆ root_set i'.
Proof.
  intros K. unfold root_set. case_decide as Ez; [set_solver|]. by rewrite (kp_root _ _ _ _ _ K), decide_False.
Qed.

Lemma size_root_set i : (size (root_set i) <= 1)%nat.
Proof. unfold root_set. case_decide; [by rewrite size_empty; lia|by rewrite size_singleton]. Qed.

(** ** Counting free blocks *)

Definition nfree (sb : superblock) (v : Z -> list Z) : nat :=
  length (filter (fun b => used sb v b = false) (seqZ 0 (sb_size sb))).

Lemma filter_agree {A} (P Q : A -> Prop) `{!forall x, Decision (P x)} `{!forall x, Decision (Q x)}
    (l : list A) : (forall c, c ∈ l -> P c <-> Q c) -> filter P l = filter Q l.
Proof.
  induction l as [|x l IH]; intros Heq; [done|]. rewrite !filter_cons.
  rewrite IH by (intros c Hc; apply Heq; by right).
  by rewrite (decide_ext (P x) (Q x)) by (apply Heq; left).
Qed.

Lemma length_filter_remove {A} `{EqDecision A} (P Q : A -> Prop) `{!forall x, Decision (P x)} `{!forall x, Decision (Q x)}
    (l : list A) (b : A) :
  NoDup l -> b ∈ l -> P b -> (forall c, c ∈ l -> Q c <-> P c /\ c <> b) ->
  length (filter P l) = S (length (filter Q l)).
Proof.
  intros Hnd Hb HP HQ. induction l as [|x l IH]; [by apply not_elem_of_nil in Hb|].
  apply NoDup_cons in Hnd as [Hx Hnd]. rewrite !filter_cons.
  destruct (decide (x = b)) as [->|Hne].
  - rewrite decide_True by done. rewrite decide_False; [|rewrite HQ by left; tauto]. cbn. f_equal.
    f_equal. apply filter_agree. intros c Hc. rewrite HQ by (by right).
    split; [|tauto]. intros. split; [done|]. by intros ->.
  - assert (b ∈ l) as Hb' by (apply elem_of_cons in Hb as [|]; congruence).
    specialize (IH Hnd Hb' ltac:(intros c Hc; apply HQ; by right)).
    rewrite (decide_ext (Q x) (P x)) by (rewrite HQ by left; tauto).
    destruct (decide (P x)); cbn; lia.
Qed.

Lemma nfree_step E v v' b : 0 <= b < sb_size (e_sb E) -> used (e_sb E) v b = false ->
  (forall c, 0 <= c < sb_size (e_sb E) -> used (e_sb E) v' c = bool_decide (c = b) || used (e_sb E) v c) ->
  nfree (e_sb E) v = S (nfree (e_sb E) v').
Proof.
  intros Hb Hu Hu'. unfold nfree. apply (length_filter_remove _ _ _ b).
  - apply NoDup_seqZ.
  - apply elem_of_seqZ. lia.
  - done.
  - intros c Hc%elem_of_seqZ. rewrite Hu', orb_false_iff, bool_decide_eq_false by lia. tauto.
Qed.

Lemma least_Z (P : Z -> bool) b : 0 <= b -> P b = false ->
  exists b0, 0 <= b0 <= b /\ P b0 = false /\ forall c, 0 <= c < b0 -> P c = true.
Proof.
  intros Hb. revert b Hb. apply (Zlt_0_ind (fun b => P b = false -> _)). intros b IH Hb0 HP.
  destruct (decide (Forall (fun c => P c = true) (seqZ 0 b))) as [Hall|Hex].
  - exists b. split_and!; [lia..|done|]. intros c Hc. rewrite Forall_forall in Hall. apply Hall.
    apply elem_of_seqZ. lia.
  - apply not_Forall_Exists in Hex; [|intros x; solve_decision]. apply Exists_exists in Hex as (c & Hc & HPc).
    apply elem_of_seqZ in Hc. apply not_true_is_false in HPc.
    destruct (IH c ltac:(lia) HPc) as (b0 & ? & ? & ?). exists b0. split_and!; [lia..|done|done].
Qed.

Lemma free_exists E v : (0 < nfree (e_sb E) v)%nat -> exists b, free_at (e_sb E) v b.
Proof.
  unfold nfree. intros Hn. destruct (filter _ _) as [|b l] eqn:Hl; [cbn in Hn; lia|].
  assert (b ∈ filter (fun b => used (e_sb E) v b = false) (seqZ 0 (sb_size (e_sb E)))) as Hb
    by (rewrite Hl; left).
  apply list_elem_of_filter in Hb as [Hu Hb%elem_of_seqZ].
  destruct (least_Z (used (e_sb E) v) b ltac:(lia) Hu) as (b0 & ? & ? & ?).
  exists b0. split_and!; [lia..|done|done].
Qed.

(** ** The three ways a block enters a file *)

Section ways.
Context (E : fenv) (v : Z -> list Z) (i : inode) (b : Z).
Context (HL : fs_layout E) (Hv : vol_ok v) (HF : file_ok E v i)
  (Hb : data_start (e_sb E) <= b < sb_size (e_sb E)) (Hu : used (e_sb E) v b = false).

Lemma root_allocated : iaddr i NDIRECT <> 0 ->
  allocated (e_sb E) v b (iaddr i NDIRECT) = v (iaddr i NDIRECT) /\ iaddr i NDIRECT <> b.
Proof.
  intros Hr. destruct (fo_used _ _ _ HF (iaddr i NDIRECT)) as [Hd Hu'].
  { split; [done|by left]. }
  assert (iaddr i NDIRECT <> b) by congruence. split; [|done].
  apply allocated_data; [apply HL|done|lia|done].
Qed.

Lemma blk_range : 0 < b < 2 ^ 32.
Proof. pose proof (data_start_pos _ (fl_bm _ HL)). pose proof (bm_size _ (fl_bm _ HL)). lia. Qed.

Lemma added_direct bn : 0 <= bn < 12 -> iaddr i (Z.to_nat bn) = 0 ->
  added E v i b bn (allocated (e_sb E) v b) (set_i_addr (Z.to_nat bn) b i).
Proof.
  intros Hbn Hz. pose proof (iw_addrs _ (fo_wf _ _ _ HF)) as Hlen. pose proof blk_range.
  split; try done.
  - by apply vol_ok_allocated.
  - apply inode_wf_addr; [apply HF|lia].
  - by eexists.
  - intros bn' Hbn'. unfold blkmap. rewrite (iaddr_set_ne _ NDIRECT) by (unfold NDIRECT; lia).
    destruct (decide (bn' = bn)) as [->|Hne].
    { rewrite decide_True by lia. apply iaddr_set_eq. unfold NDIRECT in *. lia. }
    destruct (decide (bn' < 12)); [apply iaddr_set_ne; lia|].
    destruct (decide (iaddr i NDIRECT = 0)) as [|Hr]; [done|].
    by rewrite (proj1 (root_allocated Hr)).
  - intros _. unfold blkmap. by rewrite decide_True by lia.
  - rewrite decide_False by lia. apply iaddr_set_ne. unfold NDIRECT. lia.
  - lia.
  - apply allocated_new.
Qed.

Lemma added_indirect : iaddr i NDIRECT = 0 ->
  added E v i b (-1) (allocated (e_sb E) v b) (set_i_addr NDIRECT b i).
Proof.
  intros Hz. pose proof (iw_addrs _ (fo_wf _ _ _ HF)) as Hlen. pose proof blk_range.
  assert (iaddr (set_i_addr NDIRECT b i) NDIRECT = b) as Hroot
    by (apply iaddr_set_eq; unfold NDIRECT in *; lia).
  split; try done.
  - by apply vol_ok_allocated.
  - apply inode_wf_addr; [apply HF|lia].
  - by eexists.
  - intros bn' Hbn'. unfold blkmap. rewrite Hroot, (decide_False (P := bn' = -1)) by lia.
    rewrite (decide_True (P := iaddr i NDIRECT = 0)), (decide_False (P := b = 0)) by lia.
    destruct (decide (bn' < 12)); [apply iaddr_set_ne; unfold NDIRECT; lia|].
    rewrite allocated_new. unfold zero_block, get32, slice. rewrite drop_replicate, take_replicate.
    unfold MAXFILE in *. rewrite Nat.min_l by (unfold BSIZE; lia). done.
  - intros. lia.
  - apply allocated_new.
Qed.

Lemma added_entry bn : 12 <= bn < MAXFILE -> iaddr i NDIRECT <> 0 -> blkmap v i bn = 0 ->
  added E v i b bn
    (upd_blk (allocated (e_sb E) v b) (iaddr i NDIRECT)
       (set32 (v (iaddr i NDIRECT)) (4 * Z.to_nat (bn - 12)) b)) i.
Proof.
  intros Hbn Hr Hz. pose proof blk_range. destruct (root_allocated Hr) as [Hsame Hne].
  destruct (Hv (iaddr i NDIRECT)) as [Hlen Hok]. unfold MAXFILE in *.
  assert (4 * Z.to_nat (bn - 12) + 4 <= length (v (iaddr i NDIRECT)))%nat as Hin
    by (rewrite Hlen; unfold BSIZE; lia).
  split; try done.
  - apply vol_ok_upd; [by apply vol_ok_allocated|]. split.
    + by rewrite length_set32.
    + by apply bytes_ok_set32.
  - apply HF.
  - apply same_meta_refl.
  - intros bn' Hbn'. unfold blkmap in *. rewrite (decide_False (P := bn < 12)) in Hz by lia.
    rewrite (decide_False (P := iaddr i NDIRECT = 0)) in * by done.
    unfold upd_blk. rewrite (decide_True (P := iaddr i NDIRECT = iaddr i NDIRECT)) by done.
    destruct (decide (bn' = bn)) as [->|Hnb].
    { rewrite decide_False by lia. rewrite get_set32, u32_small by (done || lia). done. }
    destruct (decide (bn' < 12)); [done|]. rewrite decide_False by done.
    apply get_set32_ne; [done|lia].
  - by rewrite decide_False by lia.
  - lia.
  - unfold upd_blk. rewrite decide_False by congruence. apply allocated_new.
  - intros c Hc Hcr. unfold upd_blk. by rewrite decide_False by auto.
Qed.
End ways.

(** ** bmap *)

Section bmap.
Context {T : Type} `{JournalSpec T}.
Implicit Types (E : fenv) (s : fstate T) (v : Z -> list Z) (h : gmap nat Z) (lg : gset Z)
  (ic : list inode) (il : nat -> sleeplock) (i : inode).

(** [balloc] while every block that is held is in use. *)
Lemma wp_alloc E s ic v lg h il (Q : Z -> fstate T -> Prop) :
  frep E s ic v lg h il -> fs_layout E -> meta_used E v -> (0 < nfree (e_sb E) v)%nat ->
  (forall b, b ∈@{gset Z} map_img h -> data_used E v b) ->
  (size lg + size h + 1 < NBUF)%nat -> (size lg + 1 < e_cap E)%nat ->
  (forall s' b lg', data_start (e_sb E) <= b < sb_size (e_sb E) -> used (e_sb E) v b = false ->
     frep E s' ic (allocated (e_sb E) v b) lg' h il -> lg' ⊆ lg ∪ bitmap_set E ∪ {[b]} -> Q b s') ->
  wp (balloc ROOTDEV) Q s.
Proof.
  intros Hr HL HM Hfree Hh Hn Hc HQ. destruct (free_exists _ _ Hfree) as [b Hb].
  destruct Hb as (Hb & Hu & Hleast). pose proof (HM b Hb Hu) as Hst.
  eapply (wp_balloc _ _ _ _ _ _ _ b); [done|apply HL|done|apply (fl_data _ HL); lia| | |done|done|].
  - intros b' Hb' Hin%Hh. destruct Hin as [Hin _]. eapply bitmap_before; [apply HL|done|apply Hin|done].
  - intros Hin%Hh. destruct Hin. congruence.
  - intros s' Hr'. eapply HQ; [lia|done|done|]. pose proof (BBLOCK_bitmap_set E b Hb). set_solver.
Qed.

Lemma vol_ok_frep E s ic v lg h il : frep E s ic v lg h il -> vol_ok v.
Proof. intros Hr b. by eapply frep_val_ok. Qed.

Lemma iaddr_lookup i k : inode_wf i -> (k < 13)%nat -> i_addrs i !! k = Some (iaddr i k).
Proof.
  intros Hwf Hk. unfold iaddr. rewrite nth_lookup. pose proof (iw_addrs _ Hwf).
  destruct (lookup_lt_is_Some_2 (i_addrs i) k) as [x Hx]; [unfold NDIRECT in *; lia|]. by rewrite Hx.
Qed.

Lemma root_dom E v i : fs_layout E -> file_ok E v i -> iaddr i NDIRECT <> 0 -> e_dom E (iaddr i NDIRECT).
Proof.
  intros HL HF Hr. apply (fl_data _ HL), (fo_used _ _ _ HF). split; [done|by left].
Qed.

(** A block that the file has. *)
Lemma wp_bmap_mapped E s ic v lg il ip i bn (Q : Z -> fstate T -> Prop) :
  frep E s ic v lg ∅ il -> ic !! ip = Some i -> fs_layout E -> file_ok E v i ->
  0 <= bn < MAXFILE -> blkmap v i bn <> 0 -> (size lg < NBUF)%nat ->
  (forall s', frep E s' ic v lg ∅ il -> Q (blkmap v i bn) s') ->
  wp (bmap ip bn) Q s.
Proof.
  intros Hr Hi HL HF Hbn Hm Hn HQ. pose proof (fo_wf _ _ _ HF) as Hwf. unfold bmap. wp_step.
  eapply wp_get_inode; [done..|]. unfold blkmap in *. change (Z.of_nat NDIRECT) with 12.
  change (Z.of_nat NINDIRECT) with 128. unfold MAXFILE in *.
  destruct (decide (bn < 12)) as [Hd|Hd].
  - rewrite bool_decide_eq_true_2 by done. wp_step.
    eapply wp_of_option; [apply iaddr_lookup; [done|unfold NDIRECT; lia]|].
    rewrite bool_decide_eq_false_2 by done. wp_step. by apply HQ.
  - rewrite bool_decide_eq_false_2, bool_decide_eq_true_2 by lia. wp_step.
    destruct (decide (iaddr i NDIRECT = 0)) as [|Hz]; [done|].
    eapply wp_of_option; [apply iaddr_lookup; [done|unfold NDIRECT; lia]|].
    rewrite bool_decide_eq_false_2 by done. wp_steps. rewrite (fo_dev _ _ _ HF). unfold bmap_entry. wp_step.
    eapply wp_fread; [done|by eapply root_dom|set_solver|rewrite map_size_empty; lia|].
    intros s1 k Hk Hr1. wp_step. eapply wp_fdata; [done|apply lookup_insert_eq|].
    rewrite bool_decide_eq_false_2 by done. wp_steps.
    eapply wp_frelse; [done|apply lookup_insert_eq|eapply frep_release; [exact Hr|set_solver]|].
    intros s2 Hr2. rewrite delete_insert_id in Hr2 by done. wp_step. by apply HQ.
Qed.

(** What [bmap] leaves for its caller: which blocks the transaction wrote, and
    that it took [f] free blocks at most. *)
Definition bmap_post E ic lg il ip (f : nat) v i bn (Q : Z -> fstate T -> Prop) : Prop :=
  forall s' v' i' lg', frep E s' (<[ip := i']> ic) v' lg' ∅ il -> grown E v i v' i' ->
    blkmap v' i' bn <> 0 -> (blkmap v i bn <> 0 -> i' = i) ->
    lg' ⊆ lg ∪ bitmap_set E ∪ root_set i' ∪ {[blkmap v' i' bn]} ->
    (nfree (e_sb E) v <= nfree (e_sb E) v' + f)%nat -> Q (blkmap v' i' bn) s'.

(** A set of written blocks grows by [k] blocks at most. *)
Lemma size_grow (lg lg' X Y : gset Z) k : lg' ⊆ lg ∪ X ∪ Y -> (size Y <= k)%nat ->
  (size lg' <= size (lg ∪ X) + k)%nat.
Proof.
  intros Hsub Hk. apply subseteq_size in Hsub. pose proof (size_union_le (lg ∪ X) Y). lia.
Qed.

Lemma added_nfree E v i b bn v' i' : added E v i b bn v' i' -> fs_layout E -> vol_ok v -> file_ok E v i ->
  nfree (e_sb E) v = S (nfree (e_sb E) v').
Proof.
  intros HA HL Hv HF. destruct (ad_free _ _ _ _ _ _ _ HA) as [Hb Hu].
  pose proof (data_start_pos _ (fl_bm _ HL)).
  eapply nfree_step; [|done|]; [lia|]. intros c Hc. by eapply added_used.
Qed.

(** The entry of a file that has an indirect block. *)
Lemma wp_bmap_entry E s ic v lg il ip i bn (Q : Z -> fstate T -> Prop) :
  frep E s ic v lg ∅ il -> ic !! ip = Some i -> fs_layout E -> meta_used E v -> file_ok E v i ->
  12 <= bn < MAXFILE -> iaddr i NDIRECT <> 0 -> (0 < nfree (e_sb E) v)%nat ->
  (size (lg ∪ bitmap_set E) + 2 < NBUF)%nat -> (size (lg ∪ bitmap_set E) + 1 < e_cap E)%nat ->
  bmap_post E ic lg il ip 1 v i bn Q ->
  wp (bmap_entry ROOTDEV (iaddr i NDIRECT) (bn - 12)) Q s.
Proof.
  intros Hr Hi HL HM HF Hbn Hroot Hfree Hn Hc HQ. unfold bmap_entry. wp_step.
  pose proof (vol_ok_frep _ _ _ _ _ _ _ Hr) as Hv.
  pose proof (subseteq_size lg (lg ∪ bitmap_set E) ltac:(set_solver)).
  assert (blkmap v i bn = get32 (v (iaddr i NDIRECT)) (4 * Z.to_nat (bn - 12))) as Hm
    by (unfold blkmap; by rewrite !decide_False by lia).
  eapply wp_fread; [done|by eapply root_dom|set_solver|rewrite map_size_empty; lia|].
  intros s1 k Hk Hr1. wp_step. eapply wp_fdata; [done|apply lookup_insert_eq|]. rewrite <- Hm.
  case_bool_decide as Ez.
  - wp_steps. eapply wp_alloc; [done|done|done|done| | |lia|].
    { intros b Hb. rewrite map_img_insert_notin_L, map_img_empty_L in Hb by done.
      replace b with (iaddr i NDIRECT) by set_solver. apply (fo_used _ _ _ HF).
      split; [done|by left]. }
    { rewrite map_size_insert_None, map_size_empty by done. lia. }
    intros s2 b lg2 Hb Hu Hr2 Hlg2. wp_step. eapply wp_fdata; [done|apply lookup_insert_eq|].
    rewrite (proj1 (root_allocated E v i b HL HF Hb Hu Hroot)). wp_step.
    pose proof (added_entry E v i b HL Hv HF Hb Hu bn Hbn Hroot Ez) as HA.
    pose proof (size_grow _ _ _ _ 1 Hlg2 ltac:(by rewrite size_singleton)).
    eapply wp_fset; [done|apply lookup_insert_eq| |].
    { pose proof (ad_vol _ _ _ _ _ _ _ HA (iaddr i NDIRECT)) as Hok. unfold upd_blk in Hok.
      by rewrite decide_True in Hok. }
    intros s3 Hr3. wp_step. eapply wp_fwrite; [done|apply lookup_insert_eq|lia|].
    intros s4 Hr4. wp_steps. eapply wp_frelse; [done|apply lookup_insert_eq|left; set_solver|].
    intros s5 Hr5. rewrite delete_insert_id in Hr5 by done. wp_step.
    pose proof (ad_map _ _ _ _ _ _ _ HA bn ltac:(lia)) as Hb'. rewrite decide_True in Hb' by done.
    pose proof (blk_range E b HL Hb). rewrite <- Hb'.
    eapply HQ; [by rewrite list_insert_id by done|by eapply added_grown|rewrite Hb'; lia|done| |].
    + rewrite Hb'. unfold root_set. rewrite decide_False by done. set_solver.
    + erewrite added_nfree by done. lia.
  - wp_steps.
    eapply wp_frelse; [done|apply lookup_insert_eq|eapply frep_release; [exact Hr|set_solver]|].
    intros s2 Hr2. rewrite delete_insert_id in Hr2 by done. wp_step.
    eapply HQ; [by rewrite list_insert_id by done|by apply grown_refl|done|done|set_solver|lia].
Qed.

Lemma wp_bmap E s ic v lg il ip i bn (Q : Z -> fstate T -> Prop) :
  frep E s ic v lg ∅ il -> ic !! ip = Some i -> fs_layout E -> meta_used E v -> file_ok E v i ->
  0 <= bn < MAXFILE -> (1 < nfree (e_sb E) v)%nat ->
  (size (lg ∪ bitmap_set E) + 3 < NBUF)%nat -> (size (lg ∪ bitmap_set E) + 2 < e_cap E)%nat ->
  bmap_post E ic lg il ip 2 v i bn Q -> wp (bmap ip bn) Q s.
Proof.
  intros Hr Hi HL HM HF Hbn Hfree Hn Hc HQ. pose proof (fo_wf _ _ _ HF) as Hwf.
  pose proof (vol_ok_frep _ _ _ _ _ _ _ Hr) as Hv.
  pose proof (subseteq_size lg (lg ∪ bitmap_set E) ltac:(set_solver)).
  unfold bmap. wp_step. eapply wp_get_inode; [done..|].
  change (Z.of_nat NDIRECT) with 12. change (Z.of_nat NINDIRECT) with 128. unfold MAXFILE in *.
  case_bool_decide as Hd.
  - wp_step. eapply wp_of_option; [apply iaddr_lookup; [done|unfold NDIRECT; lia]|].
    assert (blkmap v i bn = iaddr i (Z.to_nat bn)) as Hm by (unfold blkmap; by rewrite decide_True).
    case_bool_decide as Ez.
    + wp_step. rewrite (fo_dev _ _ _ HF).
      eapply wp_alloc; [done|done|done|lia|set_solver|rewrite map_size_empty; lia|lia|].
      intros s1 b lg1 Hb Hu Hr1 Hlg1. wp_step. eapply wp_upd_inode; [done..|].
      intros s2 Hr2. wp_step.
      pose proof (added_direct E v i b HL Hv HF Hb Hu bn ltac:(lia) Ez) as HA.
      pose proof (ad_map _ _ _ _ _ _ _ HA bn Hbn) as Hb'. rewrite decide_True in Hb' by done.
      pose proof (blk_range E b HL Hb). rewrite <- Hb'.
      eapply HQ; [done|by eapply added_grown|rewrite Hb'; lia|congruence|rewrite Hb'; set_solver|].
      erewrite added_nfree by done. lia.
    + wp_step. rewrite <- Hm in *.
      eapply HQ; [by rewrite list_insert_id by done|by apply grown_refl|done|done|set_solver|lia].
  - rewrite bool_decide_eq_true_2 by lia. wp_step.
    eapply wp_of_option; [apply iaddr_lookup; [done|unfold NDIRECT; lia]|]. rewrite (fo_dev _ _ _ HF).
    case_bool_decide as Ez.
    + wp_steps. eapply wp_alloc; [done|done|done|lia|set_solver|rewrite map_size_empty; lia|lia|].
      intros s1 b lg1 Hb Hu Hr1 Hlg1. wp_step. eapply wp_upd_inode; [done..|].
      intros s2 Hr2. wp_steps.
      pose proof (added_indirect E v i b HL Hv HF Hb Hu Ez) as HA.
      pose proof (added_grown _ _ _ _ _ _ _ HA HL Hv HF HM) as HG. pose proof (gr_kept _ _ _ _ _ HG) as HK.
      pose proof (added_nfree _ _ _ _ _ _ _ HA HL Hv HF) as Hf.
      pose proof (ad_root _ _ _ _ _ _ _ HA) as Hb'. rewrite decide_True in Hb' by done.
      pose proof (blk_range E b HL Hb).
      assert (size (lg1 ∪ bitmap_set E) <= size (lg ∪ bitmap_set E) + 1)%nat
        by (eapply (size_grow _ _ _ {[b]}); [set_solver|by rewrite size_singleton]).
      rewrite <- Hb' at 1.
      eapply wp_bmap_entry; [done|apply list_lookup_insert_eq; by eapply lookup_lt_Some|done|apply HK|
        apply HK|unfold MAXFILE; lia|lia|lia|lia|lia|].
      intros s3 v3 i3 lg3 Hr3 HG3 Hm3 Hi3 Hlg3 Hf3. rewrite list_insert_insert_eq in Hr3.
      eapply HQ; [done|by eapply grown_trans; [..|apply HL]|done| | |lia].
      * intros Hm. destruct Hm. unfold blkmap. by rewrite decide_False, decide_True by lia.
      * pose proof (root_set_mono _ _ _ _ _ (gr_kept _ _ _ _ _ HG3)) as Hsub. unfold root_set in Hsub at 1.
        rewrite Hb', decide_False in Hsub by lia. set_solver.
    + wp_steps. eapply wp_bmap_entry; [done|done|done|done|done|unfold MAXFILE; lia|done|lia|lia|lia|].
      intros s1 v1 i1 lg1 Hr1 HG Hm Hi1 Hlg1 Hf. eapply HQ; [done|done|done|done|done|lia].
Qed.
End bmap.
