(* ===== verification/FsData.v ===== *)
(** * Reading and writing files

    [readi] and [writei] against the content of a file as a function from
    offsets to bytes. *)

From S2P Require Import Prelude Bytes Params Machine BlockCache Journal CString Fs FsRep FsBlocks FsInodes FsContent.
Local Open Scope Z_scope.

(** The byte at offset [o]; a hole reads as 0. *)
Definition fbyte (v : Z -> list Z) (i : inode) (o : Z) : Z :=
  nth (Z.to_nat (o mod BSIZEz)) (fblock v i (o / BSIZEz)) 0.
Definition fbytes (v : Z -> list Z) (i : inode) (off n : Z) : list Z := fbyte v i <$> seqZ off n.

Definition MAXBYTES : Z := MAXFILE * BSIZEz.

(** The file has the blocks of the bytes [off .. off + n - 1]. *)
Definition has_blocks (v : Z -> list Z) (i : inode) (off n : Z) : Prop :=
  forall o, off <= o < off + n -> blkmap v i (o / BSIZEz) <> 0.

Section bytes.
Implicit Types (E : fenv) (v : Z -> list Z) (i : inode).

Lemma block_index o : 0 <= o < MAXBYTES -> 0 <= o / BSIZEz < MAXFILE.
Proof.
  unfold MAXBYTES, MAXFILE, BSIZEz, BSIZE. intros Ho. split; [apply Z.div_pos; lia|].
  apply Z.div_lt_upper_bound; lia.
Qed.

(** Offsets inside one block. *)
Lemma in_block off j : 0 <= off -> 0 <= j < BSIZEz - off mod BSIZEz ->
  (off + j) / BSIZEz = off / BSIZEz /\ (off + j) mod BSIZEz = off mod BSIZEz + j.
Proof.
  intros Hoff Hj. pose proof (Z.mod_pos_bound off BSIZEz ltac:(unfold BSIZEz, BSIZE; lia)).
  apply (Z.div_mod_unique BSIZEz); [left|left|]; try (apply Z.mod_pos_bound; unfold BSIZEz, BSIZE; lia).
  - lia.
  - rewrite <- Z.div_mod by (unfold BSIZEz, BSIZE; lia).
    rewrite (Z.div_mod off BSIZEz) at 1 by (unfold BSIZEz, BSIZE; lia). lia.
Qed.

Lemma length_fblock v i bn : vol_ok v -> length (fblock v i bn) = BSIZE.
Proof. intros Hv. unfold fblock. case_decide; [done|]. apply Hv. Qed.

Lemma fbytes_slice v i off m : vol_ok v -> 0 <= off -> 0 <= m <= BSIZEz - off mod BSIZEz ->
  slice (Z.to_nat (off mod BSIZEz)) (Z.to_nat m) (fblock v i (off / BSIZEz)) = fbytes v i off m.
Proof.
  intros Hv Hoff Hm. pose proof (length_fblock v i (off / BSIZEz) Hv) as Hlen.
  pose proof (Z.mod_pos_bound off BSIZEz ltac:(unfold BSIZEz, BSIZE; lia)).
  apply list_eq. intros j. rewrite lookup_slice. unfold fbytes. rewrite list_lookup_fmap.
  case_decide as Hj.
  - rewrite lookup_seqZ_lt by lia. cbn. unfold fbyte.
    destruct (in_block off (Z.of_nat j)) as [-> ->]; [done|lia|].
    rewrite nth_lookup. replace (Z.to_nat (off mod BSIZEz + Z.of_nat j)) with (Z.to_nat (off mod BSIZEz) + j)%nat by lia.
    destruct (lookup_lt_is_Some_2 (fblock v i (off / BSIZEz)) (Z.to_nat (off mod BSIZEz) + j)%nat) as [x Hx].
    { rewrite Hlen. unfold BSIZEz, BSIZE in *. lia. }
    by rewrite Hx.
  - by rewrite lookup_seqZ_ge by lia.
Qed.

Lemma fbytes_app v i off m n : 0 <= m -> 0 <= n ->
  fbytes v i off m ++ fbytes v i (off + m) n = fbytes v i off (m + n).
Proof. intros. unfold fbytes. by rewrite seqZ_app, fmap_app by lia. Qed.

Lemma grown_fbyte E v i v' i' o : grown E v i v' i' -> 0 <= o < MAXBYTES -> fbyte v' i' o = fbyte v i o.
Proof. intros [_ Hc] Ho. unfold fbyte. rewrite Hc; [done|]. by apply block_index. Qed.
End bytes.

Section readi.
Context {T : Type} `{JournalSpec T}.
Implicit Types (E : fenv) (s : fstate T) (v : Z -> list Z) (h : gmap nat Z) (lg : gset Z)
  (ic : list inode) (il : nat -> sleeplock) (i : inode).

Lemma wp_readi_loop E ic v lg il ip i fuel n : forall s tot off (Q : list Z -> fstate T -> Prop),
  frep E s ic v lg ∅ il -> ic !! ip = Some i -> fs_layout E -> file_ok E v i -> (size lg < NBUF)%nat ->
  0 <= tot <= n -> n - tot <= Z.of_nat fuel -> 0 <= off -> off + (n - tot) <= MAXBYTES ->
  has_blocks v i off (n - tot) ->
  (forall s', frep E s' ic v lg ∅ il -> Q (fbytes v i off (n - tot)) s') ->
  wp (readi_loop fuel ip ROOTDEV tot off n) Q s.
Proof.
  induction fuel as [|fuel IH]; intros s tot off Q Hr Hi HL HF Hn Htot Hfuel Hoff Hmax Hblk HQ;
    cbn [readi_loop]; case_bool_decide as Ht; try lia.
  1, 3: replace (n - tot) with 0 in HQ by lia; wp_step; by apply HQ.
  pose proof (Z.mod_pos_bound off BSIZEz ltac:(unfold BSIZEz, BSIZE; lia)) as Hmod.
  set (m := Z.min (n - tot) (BSIZEz - off mod BSIZEz)). assert (0 < m <= n - tot) as Hm by lia.
  pose proof (block_index off ltac:(lia)) as Hbn. pose proof (Hblk off ltac:(lia)) as Hb.
  pose proof (vol_ok_frep _ _ _ _ _ _ _ Hr) as Hv.
  wp_step. eapply wp_bmap_mapped; [done..|]. intros s1 Hr1. wp_step.
  eapply wp_fread; [done| |set_solver|rewrite map_size_empty; lia|].
  { apply (fl_data _ HL), (fo_used _ _ _ HF). split; [done|]. right. by eexists. }
  intros s2 k Hk Hr2. wp_step. eapply wp_fdata; [done|apply lookup_insert_eq|]. wp_step.
  eapply wp_frelse; [done|apply lookup_insert_eq|eapply frep_release; [exact Hr1|set_solver]|].
  intros s3 Hr3. rewrite delete_insert_id in Hr3 by done. wp_step.
  replace (v (blkmap v i (off / BSIZEz))) with (fblock v i (off / BSIZEz))
    by (unfold fblock; by rewrite decide_False).
  rewrite fbytes_slice by (done || lia).
  apply IH; [done|done|done|done|done|lia|lia|lia|lia|intros o Ho; apply Hblk; lia|].
  intros s4 Hr4. wp_step. rewrite fbytes_app by lia.
  replace (m + (n - (tot + m))) with (n - tot) by lia. by apply HQ.
Qed.

(** What [readi] returns for a file that has all its blocks. *)
Definition readi_result v i off n : Z * list Z :=
  if decide (i_size i < off \/ 2 ^ 32 <= off + n) then (-1, [])
  else let m := Z.min n (i_size i - off) in (m, fbytes v i off m).

Definition file_dense v i : Prop := i_size i <= MAXBYTES /\ has_blocks v i 0 (i_size i).

Lemma u32_wraps off n : 0 <= off < 2 ^ 32 -> 0 <= n < 2 ^ 32 ->
  bool_decide (u32 (off + n) < off) = bool_decide (2 ^ 32 <= off + n).
Proof.
  intros Ho Hn. apply bool_decide_ext. unfold u32. destruct (decide (2 ^ 32 <= off + n)).
  - replace (off + n) with ((off + n - 2 ^ 32) + 1 * 2 ^ 32) at 1 by lia.
    rewrite Z.mod_add, Z.mod_small by lia. lia.
  - rewrite Z.mod_small by lia. lia.
Qed.

Lemma wp_readi rd E s ic v lg il ip i off n (Q : Z * list Z -> fstate T -> Prop) :
  frep E s ic v lg ∅ il -> ic !! ip = Some i -> fs_layout E -> file_ok E v i -> (size lg < NBUF)%nat ->
  i_type i <> T_DEV -> file_dense v i -> 0 <= off < 2 ^ 32 -> 0 <= n < 2 ^ 32 ->
  (forall s', frep E s' ic v lg ∅ il -> Q (readi_result v i off n) s') ->
  wp (readi rd ip off n) Q s.
Proof.
  intros Hr Hi HL HF Hn Hty [Hmax Hblk] Hoff Hnn HQ. unfold readi. wp_step.
  eapply wp_get_inode; [done..|]. rewrite (bool_decide_eq_false_2 (i_type i = _)) by done.
  rewrite u32_wraps by done. unfold readi_result in HQ.
  destruct (decide (i_size i < off \/ 2 ^ 32 <= off + n)) as [Hbad|Hok].
  - replace (_ || _) with true; [wp_step; by apply HQ|].
    symmetry. apply orb_true_iff. by rewrite !bool_decide_eq_true.
  - rewrite !bool_decide_eq_false_2 by lia. cbn [orb]. rewrite u32_small by lia.
    replace (if bool_decide (i_size i < off + n) then i_size i - off else n) with (Z.min n (i_size i - off))
      by (case_bool_decide; lia).
    set (m := Z.min n (i_size i - off)) in *. wp_step. rewrite (fo_dev _ _ _ HF).
    eapply wp_readi_loop; [done|done|done|done|done|lia|lia|lia|lia| |].
    { intros o Ho. apply Hblk. lia. }
    intros s' Hr'. wp_step. rewrite Z.sub_0_r, s32_small; [by apply HQ|].
    unfold MAXBYTES, MAXFILE, BSIZEz, BSIZE in *. lia.
Qed.
End readi.

(** ** Writing *)

(** The bytes [src] at [off], the others from [f]. *)
Definition patch (off : Z) (src : list Z) (f : Z -> Z) (o : Z) : Z :=
  if decide (off <= o < off + Z.of_nat (length src)) then nth (Z.to_nat (o - off)) src 0 else f o.

(** The number of blocks that the bytes [off .. off + k - 1] touch. *)
Definition nblocks (off k : Z) : nat :=
  if decide (0 < k) then Z.to_nat ((off + k - 1) / BSIZEz - off / BSIZEz + 1) else 0%nat.

(** A block changes that is neither of the bitmap nor the indirect block. *)
Section touch.
Context (E : fenv) (v : Z -> list Z) (i : inode) (c : Z) (d : list Z).
Context (HL : fs_layout E) (Hv : vol_ok v) (HF : file_ok E v i) (HM : meta_used E v) (Hd : block_ok d).
Context (Hroot : iaddr i NDIRECT <> 0 -> iaddr i NDIRECT <> c)
  (Hbm : forall b, 0 <= b < sb_size (e_sb E) -> BBLOCK b (e_sb E) <> c).
Let v' := upd_blk v c d.

Lemma touch_other b : b <> c -> v' b = v b.
Proof using. intros. unfold v', upd_blk. by rewrite decide_False. Qed.

Lemma touch_blkmap bn : blkmap v' i bn = blkmap v i bn.
Proof using Hroot. unfold blkmap. repeat case_decide; try done. by rewrite touch_other by auto. Qed.

Lemma touch_used b : 0 <= b < sb_size (e_sb E) -> used (e_sb E) v' b = used (e_sb E) v b.
Proof using Hbm. intros Hlt. unfold used. by rewrite touch_other by auto. Qed.

Lemma touch_fblk b : fblk v' i b <-> fblk v i b.
Proof using Hroot. unfold fblk. by setoid_rewrite touch_blkmap. Qed.

Lemma touch_file : file_ok E v' i.
Proof using HL HF Hroot Hbm.
  pose proof (data_start_pos _ (fl_bm _ HL)). split; [apply HF..| | |].
  - intros b Hb'%touch_fblk. destruct (fo_used _ _ _ HF b Hb'). split; [done|]. by rewrite touch_used by lia.
  - intros bn1 bn2. rewrite !touch_blkmap. apply (fo_inj _ _ _ HF).
  - intros bn1. rewrite touch_blkmap. apply (fo_root _ _ _ HF).
Qed.

Lemma touch_meta : meta_used E v'.
Proof using HM Hbm. intros b Hlt. rewrite touch_used by done. by apply HM. Qed.

Lemma touch_nfree : nfree (e_sb E) v' = nfree (e_sb E) v.
Proof using Hbm.
  unfold nfree. f_equal. apply filter_agree. intros b Hb'%elem_of_seqZ. by rewrite touch_used by lia.
Qed.

Lemma touch_content bn : blkmap v i bn <> c -> fblock v' i bn = fblock v i bn.
Proof using Hroot.
  intros Hne. unfold fblock. rewrite touch_blkmap. case_decide; [done|]. by apply touch_other.
Qed.
End touch.

(** Block [bn] of the file changes. *)
Section edit.
Context (E : fenv) (v : Z -> list Z) (i : inode) (bn : Z) (d : list Z).
Context (HL : fs_layout E) (Hv : vol_ok v) (HF : file_ok E v i) (HM : meta_used E v).
Context (Hbn : 0 <= bn < MAXFILE) (Hb : blkmap v i bn <> 0) (Hd : block_ok d).
Let v' := upd_blk v (blkmap v i bn) d.

Lemma edit_blk : data_used E v (blkmap v i bn) /\ fblk v i (blkmap v i bn).
Proof using HF Hbn Hb.
  assert (fblk v i (blkmap v i bn)) by (split; [done|]; right; by exists bn).
  split; [|done]. by apply (fo_used _ _ _ HF).
Qed.

Lemma edit_root : iaddr i NDIRECT <> 0 -> iaddr i NDIRECT <> blkmap v i bn.
Proof using HF Hbn Hb. intros _ Er. by apply (fo_root _ _ _ HF bn). Qed.

Lemma edit_bitmap b : 0 <= b < sb_size (e_sb E) -> BBLOCK b (e_sb E) <> blkmap v i bn.
Proof using HL HF Hbn Hb. intros Hlt. apply bitmap_before; [apply HL|done|]. apply edit_blk. Qed.

Lemma edit_kept : kept E v i v' i.
Proof using HL Hv HF HM Hbn Hb Hd.
  destruct edit_blk as [Hu Hf]. pose proof edit_root as Hr. pose proof edit_bitmap as Hm. split.
  - by apply vol_ok_upd.
  - by apply touch_file.
  - by apply touch_meta.
  - apply same_meta_refl.
  - intros. by apply touch_blkmap.
  - done.
  - intros b Hlt. unfold v'. by rewrite touch_used.
  - intros b Hb'. apply touch_fblk in Hb'; [by left|done].
  - intros b Hb' Hn. apply touch_other. by intros ->.
  - intros n Hn. apply touch_other. apply inode_before; [done..|]. apply Hu.
Qed.

Lemma edit_content bn' : 0 <= bn' < MAXFILE ->
  fblock v' i bn' = if decide (bn' = bn) then d else fblock v i bn'.
Proof using HL HF Hbn Hb.
  intros Hbn'. pose proof edit_root as Hr. destruct (decide (bn' = bn)) as [->|Hne].
  - unfold fblock. unfold v'. rewrite touch_blkmap, decide_False by done. unfold upd_blk.
    by rewrite decide_True.
  - apply touch_content; [done|]. intros Er. apply Hne. symmetry. by apply (fo_inj _ _ _ HF).
Qed.
End edit.

Section writing.
Implicit Types (E : fenv) (v : Z -> list Z) (i : inode).

Lemma edit_fbyte E v i off src o : fs_layout E -> vol_ok v -> file_ok E v i ->
  0 <= off < MAXBYTES -> blkmap v i (off / BSIZEz) <> 0 -> 0 <= o < MAXBYTES ->
  Z.of_nat (length src) <= BSIZEz - off mod BSIZEz ->
  let d := splice (Z.to_nat (off mod BSIZEz)) src (v (blkmap v i (off / BSIZEz))) in
  fbyte (upd_blk v (blkmap v i (off / BSIZEz)) d) i o = patch off src (fbyte v i) o.
Proof.
  intros HL Hv HF Hoff Hb Ho Hlen d. unfold fbyte at 1.
  pose proof (block_index _ Hoff) as Hbn. pose proof (block_index _ Ho) as Hbo.
  pose proof (Z.mod_pos_bound off BSIZEz ltac:(unfold BSIZEz, BSIZE; lia)) as Hmod.
  pose proof (Z.mod_pos_bound o BSIZEz ltac:(unfold BSIZEz, BSIZE; lia)) as Hmodo.
  pose proof (proj1 (Hv (blkmap v i (off / BSIZEz)))) as Hl. fold BSIZE in Hl.
  assert (Z.of_nat BSIZE = BSIZEz) as HBS by done.
  rewrite (edit_content E) by done. unfold patch. rewrite nth_lookup.
  destruct (decide (o / BSIZEz = off / BSIZEz)) as [Eb|Eb].
  - assert (o - off = o mod BSIZEz - off mod BSIZEz) as Hdiff.
    { rewrite (Z.div_mod o BSIZEz), (Z.div_mod off BSIZEz) at 1 by (unfold BSIZEz; lia). rewrite Eb. lia. }
    unfold d. case_decide as Hin.
    + rewrite lookup_splice_in by lia. rewrite nth_lookup. f_equal. f_equal. lia.
    + rewrite lookup_splice_out by lia. unfold fbyte, fblock. rewrite Eb, decide_False by done.
      by rewrite nth_lookup.
  - rewrite decide_False; [unfold fbyte; by rewrite nth_lookup|]. intros Hin. apply Eb.
    replace o with (off + (o - off)) by lia. apply in_block; lia.
Qed.

Lemma patch_app off src1 src2 f g o : g o = patch off src1 f o ->
  patch (off + Z.of_nat (length src1)) src2 g o = patch off (src1 ++ src2) f o.
Proof.
  intros Hg. unfold patch at 1. rewrite Hg. unfold patch. rewrite length_app.
  destruct (decide (off + Z.of_nat (length src1) <= o < _)) as [H2|H2].
  - rewrite decide_True by lia. rewrite app_nth2 by lia. f_equal. lia.
  - destruct (decide (off <= o < off + Z.of_nat (length src1))).
    + rewrite decide_True by lia. by rewrite app_nth1 by lia.
    + by rewrite decide_False by lia.
Qed.

Lemma nblocks_step off k : 0 <= off -> 0 < k ->
  let m := Z.min k (BSIZEz - off mod BSIZEz) in nblocks off k = S (nblocks (off + m) (k - m)).
Proof.
  intros Hoff Hk m. pose proof (Z.mod_pos_bound off BSIZEz ltac:(unfold BSIZEz; lia)) as Hmod.
  unfold nblocks. rewrite decide_True by done.
  destruct (in_block off (m - 1)) as [E1 _]; [done|lia|].
  replace (off + (m - 1)) with (off + m - 1) in E1 by lia. case_decide as Hr.
  - assert (m = BSIZEz - off mod BSIZEz) as Em by lia.
    replace (off + m + (k - m) - 1) with (off + k - 1) by lia.
    replace ((off + m) / BSIZEz) with (off / BSIZEz + 1).
    + assert (off / BSIZEz + 1 <= (off + k - 1) / BSIZEz); [|lia].
      apply Z.div_le_lower_bound; [unfold BSIZEz; lia|].
      pose proof (Z.div_mod off BSIZEz ltac:(unfold BSIZEz; lia)). lia.
    + pose proof (Z.div_mod off BSIZEz ltac:(unfold BSIZEz; lia)).
      replace (off + m) with ((off / BSIZEz + 1) * BSIZEz) by lia. by rewrite Z.div_mul by (unfold BSIZEz; lia).
  - replace k with m by lia. replace (off + m - 1) with (off + (m - 1)) by lia.
    replace (off + (m - 1)) with (off + m - 1) by lia. rewrite E1. lia.
Qed.
End writing.

(** ** The inode on disk *)

(** The fields of inode [n] on disk, in an in-memory inode [j]. *)
Definition disk_inode (E : fenv) (v : Z -> list Z) (n : Z) (j : inode) : inode :=
  get_dinode (v (IBLOCK n (e_sb E))) (dinode_off n) j.

(** The in-memory inode agrees with the disk. *)
Definition synced (E : fenv) (v : Z -> list Z) (i : inode) : Prop := disk_inode E v (i_inum i) i = i.

Definition stored (E : fenv) (v : Z -> list Z) (i : inode) : Z -> list Z :=
  let IB := IBLOCK (i_inum i) (e_sb E) in
  upd_blk v IB (put_dinode (v IB) (dinode_off (i_inum i)) i).

Section stored.
Context (E : fenv) (v : Z -> list Z) (i : inode).
Context (HL : fs_layout E) (Hv : vol_ok v) (Hi : inode_wf i) (Hn : 0 <= i_inum i < sb_ninodes (e_sb E)).

Lemma stored_synced : synced E (stored E v i) i.
Proof using Hv Hi Hn.
  unfold synced, disk_inode, stored, upd_blk. rewrite decide_True by done.
  apply get_put_dinode; [|done]. rewrite (proj1 (Hv _)). apply dinode_off_bound; lia.
Qed.

Lemma stored_ok : block_ok (put_dinode (v (IBLOCK (i_inum i) (e_sb E))) (dinode_off (i_inum i)) i).
Proof using Hv Hi Hn.
  apply block_ok_put_dinode; [apply Hv|apply dinode_off_bound; lia|apply Hi].
Qed.

Lemma stored_inode n j : 0 <= n -> n <> i_inum i -> disk_inode E (stored E v i) n j = disk_inode E v n j.
Proof using Hv Hi Hn.
  intros Hn0 Hne. unfold disk_inode, stored, upd_blk. case_decide as Eb; [|done].
  rewrite Eb. apply get_put_dinode_other.
  - rewrite (proj1 (Hv _)). apply dinode_off_bound; lia.
  - apply Hi.
  - unfold IBLOCK, dinode_off, IPB in *.
    pose proof (Z.mod_pos_bound n 8 ltac:(lia)). pose proof (Z.mod_pos_bound (i_inum i) 8 ltac:(lia)).
    assert (n mod 8 <> i_inum i mod 8); [|lia]. intros Em. apply Hne.
    rewrite (Z.div_mod n 8), (Z.div_mod (i_inum i) 8) by lia. lia.
Qed.

Lemma stored_root j : file_ok E v j -> iaddr j NDIRECT <> 0 -> iaddr j NDIRECT <> IBLOCK (i_inum i) (e_sb E).
Proof using HL Hn.
  intros HF Hr Eq. symmetry in Eq. revert Eq. apply inode_before; [done..|].
  apply (fo_used _ _ _ HF). split; [done|by left].
Qed.

Lemma stored_bitmap b : 0 <= b < sb_size (e_sb E) -> BBLOCK b (e_sb E) <> IBLOCK (i_inum i) (e_sb E).
Proof using HL Hn.
  intros Hb. pose proof (bitmap_after _ _ (fl_bm _ HL) Hb). destruct (fl_inode _ HL _ Hn). lia.
Qed.

Lemma stored_data b : data_start (e_sb E) <= b -> stored E v i b = v b.
Proof using HL Hn. intros Hb. apply touch_other. symmetry. by apply inode_before. Qed.

Lemma stored_blkmap j bn : file_ok E v j -> blkmap (stored E v i) j bn = blkmap v j bn.
Proof using HL Hn. intros HF. apply touch_blkmap. by apply stored_root. Qed.

Lemma stored_fbyte j o : file_ok E v j -> 0 <= o < MAXBYTES -> fbyte (stored E v i) j o = fbyte v j o.
Proof using HL Hn.
  intros HF Ho. unfold fbyte, fblock. rewrite stored_blkmap by done. case_decide as Ez; [done|].
  rewrite stored_data; [done|]. apply (fo_used _ _ _ HF). split; [done|]. right.
  exists (o / BSIZEz). split; [by apply block_index|done].
Qed.
End stored.

Section writei.
Context {T : Type} `{JournalSpec T}.
Implicit Types (E : fenv) (s : fstate T) (v : Z -> list Z) (h : gmap nat Z) (lg B D : gset Z)
  (ic : list inode) (il : nat -> sleeplock) (i : inode).

(** Room for a write that touches [K] blocks besides [B], its indirect block
    and blocks of the bitmap. *)
Record room E v i lg B D (K : nat) : Prop := {
  rm_bm : bitmap_set E ⊆ B;
  rm_lg : lg ⊆ B ∪ root_set i ∪ D;
  rm_buf : (size B + K + 3 < NBUF)%nat;
  rm_cap : (size B + K + 2 < e_cap E)%nat
}.

Lemma room_size E v i lg B D K : room E v i lg B D K ->
  (size (lg ∪ bitmap_set E) <= size B + 1 + size D)%nat.
Proof.
  intros [Hbm Hlg _ _]. transitivity (size (B ∪ root_set i ∪ D)); [apply subseteq_size; set_solver|].
  pose proof (size_union_le (B ∪ root_set i) D). pose proof (size_union_le B (root_set i)).
  pose proof (size_root_set i). lia.
Qed.

(** The file [v'], [i'] is [v], [i] with [src] written at [off]. *)
Record wrote E v i off (src : list Z) v' i' : Prop := {
  wt_kept : kept E v i v' i';
  wt_byte : forall o, 0 <= o < MAXBYTES -> fbyte v' i' o = patch off src (fbyte v i) o;
  wt_has : has_blocks v' i' off (Z.of_nat (length src));
  wt_inode : has_blocks v i off (Z.of_nat (length src)) -> i' = i
}.

Lemma wrote_nil E v i off : vol_ok v -> file_ok E v i -> meta_used E v -> wrote E v i off [] v i.
Proof.
  intros. split; [by apply kept_refl| | |done].
  - intros o Ho. unfold patch. by rewrite decide_False by (cbn; lia).
  - intros o Ho. cbn in Ho. lia.
Qed.

(** One round: a block of the file is found or added, then edited. *)
Lemma wrote_block E v i v1 i1 off src : fs_layout E -> bitmap_ok E -> 0 <= off < MAXBYTES ->
  0 < Z.of_nat (length src) <= BSIZEz - off mod BSIZEz -> bytes_ok src ->
  grown E v i v1 i1 -> blkmap v1 i1 (off / BSIZEz) <> 0 ->
  (blkmap v i (off / BSIZEz) <> 0 -> i1 = i) ->
  let b := blkmap v1 i1 (off / BSIZEz) in
  wrote E v i off src (upd_blk v1 b (splice (Z.to_nat (off mod BSIZEz)) src (v1 b))) i1.
Proof.
  intros HL HB Hoff Hlen Hsrc HG Hm Hi b. pose proof (gr_kept _ _ _ _ _ HG) as HK.
  pose proof (block_index _ Hoff) as Hbn. pose proof HK as [Hv HF HM _ _ _ _ _ _ _].
  assert (block_ok (splice (Z.to_nat (off mod BSIZEz)) src (v1 b))) as Hd.
  { destruct (Hv b) as [Hl Hok]. split; [|by apply bytes_ok_splice].
    pose proof (Z.mod_pos_bound off BSIZEz ltac:(unfold BSIZEz; lia)).
    rewrite length_splice; [done|]. rewrite Hl. unfold BSIZEz, BSIZE in *. lia. }
  split.
  - eapply kept_trans; [done|by apply edit_kept|done].
  - intros o Ho. unfold b. rewrite (edit_fbyte E) by (done || lia). unfold patch.
    case_decide; [done|]. by eapply grown_fbyte.
  - intros o Ho. replace o with (off + (o - off)) by lia.
    rewrite (proj1 (in_block off (o - off) ltac:(lia) ltac:(lia))). unfold b.
    rewrite touch_blkmap; [done|]. by eapply edit_root.
  - intros Hhas. apply Hi, Hhas. lia.
Qed.

Lemma wrote_app E v i off src1 v1 i1 src2 v2 i2 : bitmap_ok E -> 0 <= off ->
  off + Z.of_nat (length src1 + length src2) <= MAXBYTES ->
  wrote E v i off src1 v1 i1 -> wrote E v1 i1 (off + Z.of_nat (length src1)) src2 v2 i2 ->
  wrote E v i off (src1 ++ src2) v2 i2.
Proof.
  intros HB Hoff Hmax [K1 B1 P1 I1] [K2 B2 P2 I2].
  assert (forall o, off <= o < off + Z.of_nat (length src1 + length src2) -> 0 <= o / BSIZEz < MAXFILE) as Hbn
    by (intros o Ho; apply block_index; lia).
  split.
  - by eapply kept_trans.
  - intros o Ho. rewrite B2 by done. apply patch_app. by apply B1.
  - intros o Ho. rewrite length_app in Ho.
    destruct (decide (o < off + Z.of_nat (length src1))) as [Hlt|]; [|apply P2; lia].
    rewrite (kp_map _ _ _ _ _ K2); [apply P1; lia|apply Hbn; lia|apply P1; lia].
  - intros Hhas. rewrite length_app in Hhas. assert (i1 = i) as <- by (apply I1; intros o Ho; apply Hhas; lia).
    apply I2. intros o Ho. rewrite (kp_map _ _ _ _ _ K1); [apply Hhas; lia|apply Hbn; lia|apply Hhas; lia].
Qed.

Lemma wp_writei_loop E il ip B K fuel n : forall ic s v i lg D src tot off (Q : Z -> fstate T -> Prop),
  frep E s ic v lg ∅ il -> ic !! ip = Some i -> fs_layout E -> meta_used E v -> file_ok E v i ->
  room E v i lg B D K -> bytes_ok src -> Z.of_nat (length src) = n - tot ->
  0 <= tot <= n -> n - tot <= Z.of_nat fuel -> 0 <= off -> off + (n - tot) <= MAXBYTES ->
  (size D + nblocks off (n - tot) <= K)%nat -> (2 * nblocks off (n - tot) <= nfree (e_sb E) v)%nat ->
  (forall s' v' i' lg' D', frep E s' (<[ip := i']> ic) v' lg' ∅ il -> wrote E v i off src v' i' ->
     room E v' i' lg' B D' K -> (size D' <= K)%nat -> Q (off + (n - tot)) s') ->
  wp (writei_loop fuel ip ROOTDEV src tot off n) Q s.
Proof.
  induction fuel as [|fuel IH]; intros ic s v i lg D src tot off Q Hr Hi HL HM HF HR Hok Hsrc Htot Hfuel
    Hoff Hmax HK Hfree HQ; cbn [writei_loop]; case_bool_decide as Ht; try lia;
    pose proof (vol_ok_frep _ _ _ _ _ _ _ Hr) as Hv.
  1, 3: replace (n - tot) with 0 in * by lia; destruct src as [|? ?]; [|cbn in Hsrc; lia]; wp_step;
    replace off with (off + 0) at 1 by lia;
    eapply HQ; [rewrite list_insert_id by done; done|by apply wrote_nil|done|lia].
  pose proof (Z.mod_pos_bound off BSIZEz ltac:(unfold BSIZEz; lia)) as Hmod.
  pose proof (nblocks_step off (n - tot) Hoff ltac:(lia)) as Hnb. cbv zeta in Hnb.
  set (m := Z.min (n - tot) (BSIZEz - off mod BSIZEz)) in *. assert (0 < m <= n - tot) as Hm by lia.
  pose proof (block_index off ltac:(lia)) as Hbn. pose proof (room_size _ _ _ _ _ _ _ HR) as Hsz.
  pose proof HR as [Hbm Hlg Hbuf Hcap].
  wp_step. eapply wp_bmap; [done|done|done|done|done|done|lia|lia|lia|].
  intros s1 v1 i1 lg1 Hr1 HG Hb Hi1 Hlg1 Hf1. wp_step. pose proof (gr_kept _ _ _ _ _ HG) as HK1.
  set (b := blkmap v1 i1 (off / BSIZEz)) in *.
  assert (room E v1 i1 lg1 B (D ∪ {[b]}) K) as HR1.
  { pose proof (root_set_mono _ _ _ _ _ HK1). split; try done. set_solver. }
  pose proof (size_union_le D {[b]}) as HD. rewrite size_singleton in HD.
  pose proof (room_size _ _ _ _ _ _ _ HR1) as Hsz1.
  pose proof (subseteq_size lg1 (lg1 ∪ bitmap_set E) ltac:(set_solver)).
  destruct (edit_blk E v1 i1 (off / BSIZEz) (kp_file _ _ _ _ _ HK1) Hbn Hb) as [Hbu Hbf].
  eapply wp_fread; [done|apply (fl_data _ HL), Hbu|set_solver|rewrite map_size_empty; lia|].
  intros s2 k Hk Hr2. wp_step. eapply wp_fdata; [done|apply lookup_insert_eq|].
  rewrite bool_decide_eq_false_2 by lia. set (src1 := take (Z.to_nat m) src).
  assert (Z.of_nat (length src1) = m) as Hl1 by (unfold src1; rewrite length_take; lia).
  pose proof (wrote_block E v i v1 i1 off src1 HL (fl_bm _ HL) ltac:(lia) ltac:(lia)
    ltac:(by apply Forall_take) HG Hb Hi1) as HW. fold b in HW. cbv zeta in HW.
  eapply wp_fedit_k; [done|apply lookup_insert_eq| |lia|].
  { pose proof (kp_vol _ _ _ _ _ (wt_kept _ _ _ _ _ _ _ HW) b) as Hbok. unfold upd_blk in Hbok.
    by rewrite decide_True in Hbok. }
  intros s3 Hr3. rewrite delete_insert_id in Hr3 by done.
  pose proof (wt_kept _ _ _ _ _ _ _ HW) as HK3.
  eapply (IH _ _ _ i1 _ (D ∪ {[b]})); [done|apply list_lookup_insert_eq; by eapply lookup_lt_Some|done|apply HK3|
    apply HK3| |by apply Forall_drop|rewrite length_drop; lia|lia|lia|lia|lia| | |].
  - destruct HR1. split; try done. set_solver.
  - replace (n - (tot + m)) with (n - tot - m) by lia. lia.
  - replace (n - (tot + m)) with (n - tot - m) by lia. unfold b.
    rewrite touch_nfree; [lia|]. intros. eapply edit_bitmap; try done. apply HK1.
  - intros s4 v4 i4 lg4 D4 Hr4 HW4 HR4 HD4. rewrite list_insert_insert_eq in Hr4.
    replace (off + m + (n - (tot + m))) with (off + (n - tot)) by lia.
    eapply HQ; [done| |done|done]. rewrite <- (take_drop (Z.to_nat m) src). fold src1.
    eapply wrote_app; [apply HL|done| |done|by rewrite Hl1]. rewrite length_drop. lia.
Qed.

(** The file after [writei]: its bytes, its size, its inode on disk, and what
    is left alone. *)
Record written E v i off (src : list Z) v' i' : Prop := {
  wr_vol : vol_ok v';
  wr_file : file_ok E v' i';
  wr_meta : meta_used E v';
  wr_size : i_size i' = Z.max (i_size i) (off + Z.of_nat (length src));
  wr_same : exists z, same_meta i (set_i_size z i');
  wr_byte : forall o, 0 <= o < MAXBYTES -> fbyte v' i' o = patch off src (fbyte v i) o;
  wr_dense : file_dense v' i';
  wr_synced : synced E v i -> synced E v' i';
  wr_new : forall b, fblk v' i' b -> fblk v i b \/ used (e_sb E) v b = false;
  wr_used : forall b, 0 <= b < sb_size (e_sb E) -> used (e_sb E) v b = true -> used (e_sb E) v' b = true;
  wr_data : forall b, data_used E v b -> ~ fblk v i b -> v' b = v b;
  wr_inodes : forall n j, 0 <= n < sb_ninodes (e_sb E) -> n <> i_inum i ->
    disk_inode E v' n j = disk_inode E v n j
}.

(** A file and its size: bytes that were written or there before. *)
Lemma wrote_dense E v i off src v' i' : wrote E v i off src v' i' -> file_dense v i ->
  0 <= off <= i_size i -> off + Z.of_nat (length src) <= MAXBYTES ->
  has_blocks v' i' 0 (Z.max (i_size i) (off + Z.of_nat (length src))).
Proof.
  intros HW [Hmax Hd] Hoff Hlen o Ho. destruct (decide (o < i_size i)) as [Hlt|Hge].
  - rewrite (kp_map _ _ _ _ _ (wt_kept _ _ _ _ _ _ _ HW)); [apply Hd; lia|apply block_index; lia|apply Hd; lia].
  - apply (wt_has _ _ _ _ _ _ _ HW). lia.
Qed.

(** No block is added when the write ends inside the file. *)
Lemma wrote_inside E v i off src v' i' : wrote E v i off src v' i' -> fs_layout E -> file_dense v i ->
  0 <= i_inum i < sb_ninodes (e_sb E) ->
  0 <= off -> off + Z.of_nat (length src) <= i_size i -> written E v i off src v' i'.
Proof.
  intros HW HL [Hmax Hd] Hin Hoff Hend. pose proof (wt_kept _ _ _ _ _ _ _ HW) as HK.
  assert (i' = i) as -> by (apply (wt_inode _ _ _ _ _ _ _ HW); intros o Ho; apply Hd; lia).
  pose proof HK as [].
  split; try done.
  - lia.
  - exists (i_size i). destruct i. apply same_meta_refl.
  - apply (wt_byte _ _ _ _ _ _ _ HW).
  - split; [done|]. intros o Ho. rewrite kp_map; [apply Hd; lia|apply block_index; lia|apply Hd; lia].
  - intros Hs. unfold synced, disk_inode. by rewrite kp_inodes.
  - intros n j Hn Hne. unfold disk_inode. by rewrite kp_inodes.
Qed.

(** The write grows the file: the inode is stored with the new size. *)
Lemma wrote_grows E v i off src v1 i1 : wrote E v i off src v1 i1 -> fs_layout E -> file_dense v i ->
  0 <= i_inum i < sb_ninodes (e_sb E) -> 0 <= off <= i_size i ->
  i_size i < off + Z.of_nat (length src) -> off + Z.of_nat (length src) <= MAXBYTES ->
  let i' := set_i_size (off + Z.of_nat (length src)) i1 in
  written E v i off src (stored E v1 i') i'.
Proof.
  intros HW HL Hd Hin Hoff Hgrow Hmax i'. pose proof (wt_kept _ _ _ _ _ _ _ HW) as HK.
  pose proof HK as []. set (z := off + Z.of_nat (length src)) in *.
  assert (file_ok E v1 i') as HF'.
  { destruct kp_file. split; try done. destruct fo_wf. split; try done. cbn.
    unfold MAXBYTES, MAXFILE, BSIZEz in *. lia. }
  assert (0 <= i_inum i' < sb_ninodes (e_sb E)) as Hin' by (destruct kp_same as [? ->]; done).
  pose proof (fo_wf _ _ _ HF') as Hwf. pose proof (stored_root E v1 i' HL Hin' i' HF') as Hr.
  pose proof (stored_bitmap E i' HL Hin') as Hbm. split.
  - apply vol_ok_upd; [done|]. by apply stored_ok.
  - by apply touch_file.
  - by apply touch_meta.
  - cbn. lia.
  - exists (i_size i1). by destruct i1.
  - intros o Ho. rewrite stored_fbyte by done. apply (wt_byte _ _ _ _ _ _ _ HW o Ho).
  - split; [done|]. intros o Ho. rewrite stored_blkmap by done.
    apply (wrote_dense _ _ _ _ _ _ _ HW); [done|lia|done|]. cbn in Ho. lia.
  - intros _. by apply stored_synced.
  - intros b Hb. apply kp_new. eapply touch_fblk; [|exact Hb]. done.
  - intros b Hb Hu. unfold stored. rewrite touch_used by done. by apply kp_used.
  - intros b Hb Hn. rewrite stored_data; [by apply kp_data|done|done|apply Hb].
  - intros n j Hn Hne. rewrite stored_inode; [|done|done|done|lia|].
    + unfold disk_inode. by rewrite kp_inodes.
    + destruct kp_same as [? Es]. subst i'. by rewrite Es.
Qed.

Lemma room_start E v i lg K : (size (lg ∪ bitmap_set E) + K + 3 < NBUF)%nat ->
  (size (lg ∪ bitmap_set E) + K + 2 < e_cap E)%nat -> room E v i lg (lg ∪ bitmap_set E) ∅ K.
Proof. intros. split; try done; set_solver. Qed.

Lemma room_end E v i lg B D K : room E v i lg B D K -> (size D <= K)%nat -> (size lg <= size B + K + 1)%nat.
Proof.
  intros HR HD. pose proof (room_size _ _ _ _ _ _ _ HR).
  pose proof (subseteq_size lg (lg ∪ bitmap_set E) ltac:(set_solver)). lia.
Qed.

(** The conditions under which [writei] returns -1. *)
Definition writei_bad i off n : Prop :=
  i_size i < off \/ 2 ^ 32 <= off + n \/ MAXBYTES < off + n.

Lemma wp_writei_bad wr E s ic v lg il ip i src off n (Q : Z -> fstate T -> Prop) :
  frep E s ic v lg ∅ il -> ic !! ip = Some i -> i_type i <> T_DEV ->
  0 <= off < 2 ^ 32 -> 0 <= n < 2 ^ 32 -> writei_bad i off n ->
  Q (-1) s -> wp (writei wr ip src off n) Q s.
Proof.
  intros Hr Hi Hty Hoff Hnn Hbad HQ. unfold writei. wp_step. eapply wp_get_inode; [done..|].
  rewrite (bool_decide_eq_false_2 (i_type i = _)) by done. rewrite u32_wraps by done.
  destruct (_ || _) eqn:Hor; [by wp_step|].
  apply orb_false_iff in Hor as [Hs%bool_decide_eq_false Hw%bool_decide_eq_false].
  rewrite u32_small, bool_decide_eq_true_2; [by wp_step| |lia].
  unfold writei_bad, MAXBYTES in *. lia.
Qed.

(** [n] bytes are written when they fit. *)
Lemma wp_writei wr E s ic v lg il ip i src off n (Q : Z -> fstate T -> Prop) :
  frep E s ic v lg ∅ il -> ic !! ip = Some i -> fs_layout E -> meta_used E v -> file_ok E v i ->
  i_type i <> T_DEV -> file_dense v i -> 0 <= i_inum i < sb_ninodes (e_sb E) ->
  0 <= off < 2 ^ 32 -> 0 <= n < 2 ^ 32 -> ~ writei_bad i off n -> Z.of_nat (length src) = n -> bytes_ok src ->
  (2 * nblocks off n <= nfree (e_sb E) v)%nat ->
  (size (lg ∪ bitmap_set E) + nblocks off n + 3 < NBUF)%nat ->
  (size (lg ∪ bitmap_set E) + nblocks off n + 2 < e_cap E)%nat ->
  (forall s' v' i' lg', frep E s' (<[ip := i']> ic) v' lg' ∅ il -> written E v i off src v' i' ->
     (size lg' <= size (lg ∪ bitmap_set E) + nblocks off n + 2)%nat -> Q n s') ->
  wp (writei wr ip src off n) Q s.
Proof.
  intros Hr Hi HL HM HF Hty Hdense Hin Hoff Hnn Hok Hsrc Hb Hfree Hbuf Hcap HQ. unfold writei. wp_step.
  eapply wp_get_inode; [done..|]. rewrite (bool_decide_eq_false_2 (i_type i = _)) by done.
  unfold writei_bad in Hok. rewrite u32_wraps, !bool_decide_eq_false_2 by (done || lia). cbn [orb].
  rewrite u32_small by lia. assert (~ MAXBYTES < off + n) as Hmax by lia. fold MAXBYTES.
  rewrite bool_decide_eq_false_2 by done. wp_step. rewrite (fo_dev _ _ _ HF).
  eapply wp_writei_loop; [done|done|done|done|done|by apply room_start|done|lia|lia|lia|lia|lia| |
    by rewrite Z.sub_0_r|].
  { by rewrite size_empty, Z.sub_0_r. }
  intros s1 v1 i1 lg1 D1 Hr1 HW HR HD. rewrite Z.sub_0_r. wp_step.
  pose proof (kp_same _ _ _ _ _ (wt_kept _ _ _ _ _ _ _ HW)) as [a1 Ei1].
  assert (<[ip := i1]> ic !! ip = Some i1) as Hi1 by (apply list_lookup_insert_eq; by eapply lookup_lt_Some).
  eapply wp_get_inode; [done|done|]. pose proof (room_end _ _ _ _ _ _ _ HR HD) as Hsz.
  replace (i_size i1) with (i_size i) by (by rewrite Ei1). unfold when. rewrite s32_small
    by (unfold MAXBYTES, MAXFILE, BSIZEz in *; lia).
  destruct (decide (i_size i < off + n)) as [Hg|Hg].
  - rewrite !bool_decide_eq_true_2 by lia. cbn [andb]. wp_steps.
    eapply wp_upd_inode; [done|done|]. intros s2 Hr2. rewrite list_insert_insert_eq in Hr2.
    subst n. pose proof (wrote_grows _ _ _ _ _ _ _ HW HL Hdense Hin ltac:(lia) ltac:(lia) ltac:(lia)) as HWr.
    eapply wp_iupdate; [done|apply list_lookup_insert_eq; by eapply lookup_lt_Some|
      apply (wr_file _ _ _ _ _ _ _ HWr)|apply (wr_file _ _ _ _ _ _ _ HWr)| |set_solver|
      rewrite map_size_empty; lia|lia|].
    { apply (fl_inode _ HL). by rewrite Ei1. }
    intros s3 Hr3. wp_step. eapply HQ; [exact Hr3|done|].
    pose proof (size_union_le {[IBLOCK (i_inum i1) (e_sb E)]} lg1). rewrite size_singleton in *. cbn. lia.
  - rewrite (bool_decide_eq_false_2 (i_size i < _)), andb_false_r by done. wp_step.
    eapply HQ; [done|by apply wrote_inside; try done; lia|lia].
Qed.
End writei.
