(* ===== verification/FsDir.v ===== *)
(** * Directories

    [dirlookup] and [dirlink] against a directory as a list of entries.  A
    name is compared and stored as its first [DIRSIZ] bytes, up to a NUL
    ([cname DIRSIZ]). *)

From S2P Require Import Prelude Bytes Params Machine BlockCache Journal CString Fs FsRep FsBlocks FsInodes FsContent FsData.
Local Open Scope Z_scope.

(** Entry [k] of a directory. *)
Definition dent (v : Z -> list Z) (i : inode) (k : Z) : list Z := fbytes v i (k * 16) 16.

(** The number of entries. *)
Definition ndent (i : inode) : Z := i_size i / 16.

Definition dmatch (v : Z -> list Z) (i : inode) (name : list Z) (k : Z) : Prop :=
  de_inum (dent v i k) <> 0 /\ cname DIRSIZ name = cname DIRSIZ (de_name (dent v i k)).
#[export] Instance dmatch_dec v i name k : Decision (dmatch v i name k).
Proof. unfold dmatch. apply _. Defined.

(** The first entry from [k] on that satisfies a predicate. *)
Fixpoint find_from (f : Z -> bool) (n : nat) (k : Z) : option Z :=
  match n with
  | O => None
  | S n' => if f k then Some k else find_from f n' (k + 1)
  end.

(** The entry with this name. *)
Definition dir_find (v : Z -> list Z) (i : inode) (name : list Z) : option Z :=
  find_from (fun k => bool_decide (dmatch v i name k)) (Z.to_nat (ndent i)) 0.

(** The entry that [dirlink] fills: the first free one, or one at the end. *)
Definition dir_slot (v : Z -> list Z) (i : inode) : Z :=
  default (ndent i) (find_from (fun k => bool_decide (de_inum (dent v i k) = 0)) (Z.to_nat (ndent i)) 0).

Record dir_ok (v : Z -> list Z) (i : inode) : Prop := {
  do_type : i_type i = T_DIR;
  do_size : i_size i = 16 * ndent i;
  do_dense : file_dense v i
}.

Section find.
Implicit Types (f g : Z -> bool).

Lemma find_from_spec f n k :
  match find_from f n k with
  | Some j => k <= j < k + Z.of_nat n /\ f j = true /\ forall j', k <= j' < j -> f j' = false
  | None => forall j, k <= j < k + Z.of_nat n -> f j = false
  end.
Proof.
  revert k. induction n as [|n IH]; intros k; cbn [find_from]; [lia|].
  destruct (f k) eqn:Hk; [split_and!; [lia|lia|done|lia]|].
  specialize (IH (k + 1)). destruct (find_from f n (k + 1)) as [j|].
  - destruct IH as (Hj & Hf & Hl). split_and!; [lia|lia|done|]. intros j' Hj'.
    destruct (decide (j' = k)) as [->|]; [done|]. apply Hl. lia.
  - intros j Hj. destruct (decide (j = k)) as [->|]; [done|]. apply IH. lia.
Qed.

Lemma find_from_first f n k j : k <= j < k + Z.of_nat n -> f j = true ->
  (forall j', k <= j' < j -> f j' = false) -> find_from f n k = Some j.
Proof.
  intros Hj Hf Hl. pose proof (find_from_spec f n k) as Hs. destruct (find_from f n k) as [j'|].
  - destruct Hs as (Hj' & Hf' & Hl'). f_equal. destruct (Z.lt_trichotomy j j') as [Hlt|[->|Hgt]]; [|done|].
    + rewrite Hl' in Hf; [done|lia].
    + rewrite Hl in Hf'; [done|lia].
  - rewrite Hs in Hf; done.
Qed.

Lemma find_from_ext f g n k : (forall j, k <= j < k + Z.of_nat n -> f j = g j) ->
  find_from f n k = find_from g n k.
Proof.
  revert k. induction n as [|n IH]; intros k Hfg; [done|]. cbn [find_from].
  rewrite Hfg by lia. rewrite IH; [done|]. intros. apply Hfg. lia.
Qed.

Lemma find_from_app f m n k : find_from f (m + n) k =
  match find_from f m k with Some j => Some j | None => find_from f n (k + Z.of_nat m) end.
Proof.
  revert k. induction m as [|m IH]; intros k; cbn [find_from Nat.add]; [f_equal; lia|].
  destruct (f k); [done|]. rewrite IH. replace (k + Z.of_nat (S m)) with (k + 1 + Z.of_nat m) by lia. done.
Qed.
End find.

Section dirlookup.
Context {T : Type} `{JournalSpec T}.
Variable rd : Z -> option (nat -> Z -> M (fstate T) (Z * list Z)).
Implicit Types (E : fenv) (s : fstate T) (v : Z -> list Z) (lg : gset Z)
  (ic : list inode) (il : nat -> sleeplock) (i : inode).

Lemma dent_in i k : i_size i = 16 * ndent i -> 0 <= k < ndent i -> 0 <= k * 16 /\ k * 16 + 16 <= i_size i.
Proof. lia. Qed.

Lemma length_dent v i k : length (dent v i k) = 16%nat.
Proof. unfold dent, fbytes. by rewrite length_fmap, length_seqZ. Qed.

Lemma wp_read_dirent msg E s ic v lg il dp i k (Q : list Z -> fstate T -> Prop) :
  frep E s ic v lg ∅ il -> ic !! dp = Some i -> fs_layout E -> file_ok E v i -> (size lg < NBUF)%nat ->
  dir_ok v i -> 0 <= k < ndent i ->
  (forall s', frep E s' ic v lg ∅ il -> Q (dent v i k) s') ->
  wp (read_dirent rd msg dp (k * 16)) Q s.
Proof.
  intros Hr Hi HL HF Hn [Hty Hsz Hd] Hk HQ. unfold read_dirent. wp_step.
  destruct (dent_in i k Hsz Hk) as [Hlo Hhi]. pose proof (proj1 Hd) as Hmax.
  assert (i_size i < 2 ^ 31) as Hsmall by (unfold MAXBYTES, MAXFILE, BSIZEz in Hmax; lia).
  eapply wp_readi; [done|done|done|done|done| |done|lia|lia|].
  { by rewrite Hty. }
  intros s1 Hr1. unfold readi_result. rewrite decide_False by lia. cbv zeta.
  rewrite Z.min_l by lia. rewrite bool_decide_eq_true_2 by done. cbn [negb]. wp_step. by apply HQ.
Qed.

Lemma dir_count i : 0 <= i_size i -> i_size i = 16 * ndent i ->
  Z.to_nat ((i_size i + 15) / 16) = Z.to_nat (ndent i).
Proof.
  intros H0' Hs. f_equal. rewrite Hs at 1. unfold ndent at 1.
  replace (16 * (i_size i / 16) + 15) with (15 + (i_size i / 16) * 16) by lia.
  by rewrite Z.div_add by lia.
Qed.

Lemma readable_de_name v i k : readable DIRSIZ (de_name (dent v i k)).
Proof. left. unfold de_name. rewrite length_slice; [done|]. by rewrite length_dent. Qed.

(** The body of the loop of [dirlookup]. *)
Lemma wp_namecmp s p q (Q : Z -> fstate T -> Prop) : readable DIRSIZ p -> readable DIRSIZ q ->
  (forall r, r = 0 <-> cname DIRSIZ p = cname DIRSIZ q -> Q r s) -> wp (namecmp p q) Q s.
Proof.
  intros Hp Hq HQ. destruct (strncmp_spec DIRSIZ p q Hp Hq) as (r & Hr & Hiff). unfold namecmp.
  eapply wp_of_option; [exact Hr|]. by apply HQ.
Qed.

Definition dirlookup_post E ic v lg il i name (Q : option (nat * Z) -> fstate T -> Prop) : Prop :=
  match dir_find v i name with
  | Some k => forall s' ip ic', iget_post ic ROOTDEV (de_inum (dent v i k)) ip ic' ->
      frep E s' ic' v lg ∅ il -> Q (Some (ip, k * 16)) s'
  | None => forall s', frep E s' ic v lg ∅ il -> Q None s'
  end.

Lemma wp_dirlookup E s ic v lg il dp i name (Q : option (nat * Z) -> fstate T -> Prop) :
  frep E s ic v lg ∅ il -> ic !! dp = Some i -> fs_layout E -> file_ok E v i -> (size lg < NBUF)%nat ->
  dir_ok v i -> readable DIRSIZ name ->
  (exists k j, ic !! k = Some j /\ i_ref j = 0) ->
  dirlookup_post E ic v lg il i name Q -> wp (dirlookup rd dp name) Q s.
Proof.
  intros Hr Hi HL HF Hn Hdir Hname Hslot HQ. pose proof Hdir as [Hty Hsz Hd]. unfold dirlookup. wp_step.
  eapply wp_get_inode; [done..|]. rewrite bool_decide_eq_true_2 by done. cbn [negb]. wp_step.
  rewrite dir_count by (done || apply (iw_size _ (fo_wf _ _ _ HF))).
  assert (0 <= ndent i) as Hnd by (apply Z.div_pos; [apply (iw_size _ (fo_wf _ _ _ HF))|lia]).
  pose proof (find_from_spec (fun k => bool_decide (dmatch v i name k)) (Z.to_nat (ndent i)) 0) as Hfind.
  fold (dir_find v i name) in Hfind. rewrite Z2Nat.id, Z.add_0_l in Hfind by done.
  apply (wp_for_find (fun k s' => frep E s' ic v lg ∅ il /\ forall j, 0 <= j < k -> ~ dmatch v i name j)).
  - split; [done|lia].
  - intros k s1 Hk [Hr1 Hno]. rewrite Z2Nat.id in Hk by done. wp_step.
    eapply wp_read_dirent; [done|done|done|done|done|done|lia|]. intros s2 Hr2.
    assert (~ dmatch v i name k -> forall j, 0 <= j < k + 1 -> ~ dmatch v i name j) as Hnext.
    { intros Hnk j Hj. destruct (decide (j = k)) as [->|]; [done|]. apply Hno. lia. }
    case_bool_decide as Ez; [wp_step; split; [done|]; apply Hnext; by intros [? _]|]. wp_step.
    apply wp_namecmp; [done|apply readable_de_name|]. intros r Hiff. wp_step. case_bool_decide as Er.
    + assert (dmatch v i name k) as Hm by (split; [done|by apply Hiff]).
      unfold dirlookup_post, dir_find in HQ. rewrite (find_from_first _ _ 0 k) in HQ.
      * wp_step. rewrite (fo_dev _ _ _ HF). eapply wp_iget; [done| |].
        { destruct Hslot as (k' & j & Hj & Hz). exists k', j. auto. }
        intros s3 ip ic' Hpost Hr3. wp_step. by eapply HQ.
      * lia.
      * by apply bool_decide_eq_true_2.
      * intros j Hj. apply bool_decide_eq_false_2. apply Hno. lia.
    + split; [done|]. apply Hnext. intros [_ Hc]. tauto.
  - intros s1 [Hr1 Hno]. rewrite Z2Nat.id in Hno by done. wp_step.
    unfold dirlookup_post in HQ. destruct (dir_find v i name) as [k|]; [|by apply HQ].
    destruct Hfind as (Hk & Hm%bool_decide_eq_true & _). exfalso. eapply Hno; [|done]. lia.
Qed.
End dirlookup.

(** ** Adding an entry *)

Definition new_dirent (name : list Z) (inum : Z) : list Z :=
  le_bytes 2 inum ++ cname DIRSIZ name ++ replicate (DIRSIZ - length (cname DIRSIZ name)) 0.

Section dirent.
Implicit Types (v : Z -> list Z) (i : inode) (name l : list Z).

Lemma length_new_dirent name inum : length (new_dirent name inum) = 16%nat.
Proof.
  unfold new_dirent. rewrite !length_app, length_le_bytes, length_replicate.
  pose proof (length_cname DIRSIZ name). unfold DIRSIZ in *. lia.
Qed.

Lemma upto0_app_zeros l n : upto0 (upto0 l ++ replicate n 0) = upto0 l.
Proof.
  induction l as [|c l IH]; cbn; [by destruct n|]. destruct (c_bool c) eqn:Hc; cbn.
  - by rewrite Hc, IH.
  - by destruct n.
Qed.

Lemma Forall_upto0 (P : Z -> Prop) l : Forall P l -> Forall P (upto0 l).
Proof. induction 1; cbn; [done|]. destruct (c_bool x); by constructor. Qed.

Lemma bytes_ok_new_dirent name inum : bytes_ok name -> bytes_ok (new_dirent name inum).
Proof.
  intros Hn. unfold new_dirent, bytes_ok. rewrite !Forall_app. split_and!.
  - apply le_bytes_ok.
  - apply Forall_upto0. by apply Forall_take.
  - apply Forall_replicate. unfold byte_ok. lia.
Qed.

Lemma de_inum_new name inum : de_inum (new_dirent name inum) = u16 inum.
Proof.
  unfold de_inum, new_dirent, get16, slice. rewrite drop_0, take_app_length' by (by rewrite length_le_bytes).
  by rewrite le_val_bytes.
Qed.

Lemma de_name_new name inum : cname DIRSIZ (de_name (new_dirent name inum)) = cname DIRSIZ name.
Proof.
  unfold de_name, slice, cname at 1. rewrite take_take, Nat.min_id. unfold new_dirent.
  rewrite drop_app_length' by (by rewrite length_le_bytes).
  rewrite take_ge; [apply upto0_app_zeros|].
  rewrite length_app, length_replicate. pose proof (length_cname DIRSIZ name). unfold DIRSIZ in *. lia.
Qed.
End dirent.

(** Directory [v'], [i'] is [v], [i] with an entry for [name] in slot [k]. *)
Section linked.
Context (E : fenv) (v : Z -> list Z) (i : inode) (k : Z) (name : list Z) (inum : Z)
  (v' : Z -> list Z) (i' : inode).
Context (HW : written E v i (k * 16) (new_dirent name inum) v' i') (HF : file_ok E v i).
Context (Hdir : dir_ok v i) (Hk : 0 <= k <= ndent i) (Hmax : k * 16 + 16 <= MAXBYTES).

Lemma linked_ndent : ndent i' = Z.max (ndent i) (k + 1).
Proof using HW Hdir.
  pose proof (do_size _ _ Hdir). unfold ndent at 1. rewrite (wr_size _ _ _ _ _ _ _ HW), length_new_dirent.
  replace (Z.max (i_size i) (k * 16 + Z.of_nat 16)) with (Z.max (ndent i) (k + 1) * 16) by lia.
  by rewrite Z.div_mul by lia.
Qed.

Lemma linked_dir_ok : dir_ok v' i'.
Proof using HW Hdir.
  pose proof Hdir as [Hty Hsz _]. split.
  - destruct (wr_same _ _ _ _ _ _ _ HW) as [z [a Ha]]. apply (f_equal i_type) in Ha. cbn in Ha. congruence.
  - rewrite linked_ndent, (wr_size _ _ _ _ _ _ _ HW), length_new_dirent. lia.
  - apply (wr_dense _ _ _ _ _ _ _ HW).
Qed.

Lemma linked_dent j : 0 <= j -> j * 16 + 16 <= MAXBYTES ->
  dent v' i' j = if decide (j = k) then new_dirent name inum else dent v i j.
Proof using HW.
  intros Hj Hm. apply list_eq. intros o. unfold dent at 1, fbytes. rewrite list_lookup_fmap.
  destruct (decide (o < 16)%nat) as [Ho|Ho].
  - rewrite lookup_seqZ_lt by lia. cbn [fmap option_fmap option_map]. rewrite (wr_byte _ _ _ _ _ _ _ HW) by lia. unfold patch.
    rewrite length_new_dirent. destruct (decide (j = k)) as [->|Hne].
    + rewrite decide_True by lia. rewrite nth_lookup.
      replace (Z.to_nat _) with o by lia.
      destruct (lookup_lt_is_Some_2 (new_dirent name inum) o) as [x ->]; [by rewrite length_new_dirent|done].
    + rewrite decide_False by lia. unfold dent, fbytes. rewrite list_lookup_fmap, lookup_seqZ_lt by lia. done.
  - rewrite lookup_seqZ_ge by lia. symmetry. cbn [fmap option_fmap option_map]. apply lookup_ge_None_2.
    case_decide; rewrite ?length_new_dirent, ?length_dent; lia.
Qed.

Lemma in_dir j : 0 <= j < ndent i -> j * 16 + 16 <= MAXBYTES.
Proof using Hdir. intros Hj. pose proof Hdir as [_ Hs [Hm _]]. lia. Qed.

Lemma linked_dmatch nm j : 0 <= j < ndent i -> j <> k -> dmatch v' i' nm j <-> dmatch v i nm j.
Proof using HW Hdir.
  intros Hj Hne. unfold dmatch. rewrite linked_dent, decide_False by (done || lia || by apply in_dir). done.
Qed.

Lemma linked_dmatch_new nm : dmatch v' i' nm k <-> u16 inum <> 0 /\ cname DIRSIZ nm = cname DIRSIZ name.
Proof using HW Hk Hmax.
  unfold dmatch. rewrite linked_dent, decide_True by (done || lia). by rewrite de_inum_new, de_name_new.
Qed.

(** The new name is found; the entry was not there before. *)
Lemma linked_find : dir_find v i name = None -> u16 inum <> 0 -> dir_find v' i' name = Some k.
Proof using HW HF Hdir Hk Hmax.
  intros Hnone Hnz. pose proof (find_from_spec (fun k => bool_decide (dmatch v i name k)) (Z.to_nat (ndent i)) 0) as Hs.
  fold (dir_find v i name) in Hs. rewrite Hnone in Hs. apply find_from_first.
  - rewrite linked_ndent. lia.
  - apply bool_decide_eq_true_2, linked_dmatch_new. done.
  - intros j Hj. apply bool_decide_eq_false_2. rewrite linked_dmatch by lia.
    specialize (Hs j ltac:(lia)). by apply bool_decide_eq_false in Hs.
Qed.

(** Other names mean what they did. *)
Lemma linked_find_other nm : cname DIRSIZ nm <> cname DIRSIZ name ->
  (k < ndent i -> de_inum (dent v i k) = 0) -> dir_find v' i' nm = dir_find v i nm.
Proof using HW HF Hdir Hk Hmax.
  intros Hne Hfree. unfold dir_find.
  assert (forall j, 0 <= j < ndent i -> bool_decide (dmatch v' i' nm j) = bool_decide (dmatch v i nm j)) as Hold.
  { intros j Hj. apply bool_decide_ext. destruct (decide (j = k)) as [->|]; [|by apply linked_dmatch].
    rewrite linked_dmatch_new. split; [by intros [_ ?]|]. intros [Hz _]. by rewrite Hfree in Hz by lia. }
  rewrite linked_ndent. destruct (decide (k < ndent i)) as [Hlt|Hge].
  - rewrite Z.max_l by lia. apply find_from_ext. intros j Hj. apply Hold. lia.
  - replace k with (ndent i) by lia. rewrite Z.max_r by lia.
    replace (Z.to_nat (ndent i + 1)) with (Z.to_nat (ndent i) + 1)%nat by lia. rewrite find_from_app.
    rewrite (find_from_ext _ (fun k => bool_decide (dmatch v i nm k))) by (intros j Hj; apply Hold; lia).
    destruct (find_from _ _ _); [done|]. cbn [find_from]. rewrite bool_decide_eq_false_2; [done|].
    replace (0 + Z.of_nat (Z.to_nat (ndent i))) with k by lia. rewrite linked_dmatch_new. by intros [_ ?].
Qed.
End linked.

Section dirlink.
Context {T : Type} `{JournalSpec T}.
Variable rd : Z -> option (nat -> Z -> M (fstate T) (Z * list Z)).
Variable wr : Z -> option (nat -> list Z -> Z -> M (fstate T) Z).
Implicit Types (E : fenv) (s : fstate T) (v : Z -> list Z) (lg : gset Z)
  (ic : list inode) (il : nat -> sleeplock) (i : inode).

Lemma dir_slot_spec v i : 0 <= ndent i -> 0 <= dir_slot v i <= ndent i /\
  (dir_slot v i < ndent i -> de_inum (dent v i (dir_slot v i)) = 0).
Proof.
  intros Hn. unfold dir_slot.
  pose proof (find_from_spec (fun k => bool_decide (de_inum (dent v i k) = 0)) (Z.to_nat (ndent i)) 0) as Hs.
  destruct (find_from _ _ _) as [k|]; cbn [default from_option id].
  - destruct Hs as (Hk & Hz%bool_decide_eq_true & _). split; [lia|done].
  - lia.
Qed.

(** The search for a free entry. *)
Lemma wp_find_slot E s ic v lg il dp i (Q : option Z -> fstate T -> Prop) :
  frep E s ic v lg ∅ il -> ic !! dp = Some i -> fs_layout E -> file_ok E v i -> (size lg < NBUF)%nat ->
  dir_ok v i ->
  (forall s' r, default (ndent i * 16) r = dir_slot v i * 16 -> frep E s' ic v lg ∅ il -> Q r s') ->
  wp (for_find (Z.to_nat (ndent i)) 0 (fun k =>
        de ← read_dirent rd "dirlink read" dp (k * 16);
        mret (if de_inum de =z 0 then Some (k * 16) else None))) Q s.
Proof.
  intros Hr Hi HL HF Hn Hdir HQ.
  assert (0 <= ndent i) as Hnd by (apply Z.div_pos; [apply (iw_size _ (fo_wf _ _ _ HF))|lia]).
  set (free k := bool_decide (de_inum (dent v i k) = 0)).
  apply (wp_for_find (fun k s' => frep E s' ic v lg ∅ il /\ forall j, 0 <= j < k -> free j = false)).
  - split; [done|lia].
  - intros k s1 Hk [Hr1 Hno]. rewrite Z2Nat.id in Hk by done. wp_step.
    eapply wp_read_dirent; [done|done|done|done|done|done|lia|]. intros s2 Hr2. wp_step.
    case_bool_decide as Ez.
    + apply HQ; [|done]. unfold dir_slot. erewrite (find_from_first _ _ 0 k); [done|lia| |].
      * by apply bool_decide_eq_true_2.
      * intros j Hj. apply Hno. lia.
    + split; [done|]. intros j Hj. destruct (decide (j = k)) as [->|]; [|apply Hno; lia].
      by apply bool_decide_eq_false_2.
  - intros s1 [Hr1 Hno]. apply HQ; [|done]. unfold dir_slot.
    pose proof (find_from_spec free (Z.to_nat (ndent i)) 0) as Hs. fold free.
    destruct (find_from free _ _) as [k|]; [|done]. destruct Hs as (Hk & Hf & _).
    rewrite Hno in Hf; [done|lia].
Qed.

Lemma nblocks_dirent k : 0 <= k -> nblocks (k * 16) 16 = 1%nat.
Proof.
  intros Hk. unfold nblocks. rewrite decide_True by lia.
  assert ((k * 16 + 16 - 1) / BSIZEz = k * 16 / BSIZEz) as ->; [|lia].
  unfold BSIZEz. change 512 with (32 * 16). rewrite Z.div_mul_cancel_r by lia.
  rewrite (Z.mul_comm 32), <- !Z.div_div by lia.
  replace (k * 16 + 16 - 1) with (15 + k * 16) by lia. by rewrite Z.div_add by lia.
Qed.

(** A name that the directory does not have. *)
Lemma wp_dirlink E s ic v lg il dp i name inum (Q : Z -> fstate T -> Prop) :
  frep E s ic v lg ∅ il -> ic !! dp = Some i -> fs_layout E -> meta_used E v -> file_ok E v i ->
  dir_ok v i -> 0 <= i_inum i < sb_ninodes (e_sb E) -> readable DIRSIZ name -> bytes_ok name ->
  (exists k j, ic !! k = Some j /\ i_ref j = 0) ->
  dir_find v i name = None -> dir_slot v i * 16 + 16 <= MAXBYTES ->
  (2 <= nfree (e_sb E) v)%nat ->
  (size (lg ∪ bitmap_set E) + 4 < NBUF)%nat -> (size (lg ∪ bitmap_set E) + 3 < e_cap E)%nat ->
  (forall s' v' i' lg', frep E s' (<[dp := i']> ic) v' lg' ∅ il ->
     written E v i (dir_slot v i * 16) (new_dirent name inum) v' i' ->
     (size lg' <= size (lg ∪ bitmap_set E) + 3)%nat -> Q 0 s') ->
  wp (dirlink rd wr dp name inum) Q s.
Proof.
  intros Hr Hi HL HM HF Hdir Hin Hname Hbytes Hslot Hnone Hmax Hfree Hbuf Hcap HQ. unfold dirlink. wp_step.
  pose proof (subseteq_size lg (lg ∪ bitmap_set E) ltac:(set_solver)). pose proof Hdir as [Hty Hsz Hd].
  assert (0 <= ndent i) as Hnd by (apply Z.div_pos; [apply (iw_size _ (fo_wf _ _ _ HF))|lia]).
  destruct (dir_slot_spec v i Hnd) as [Hk _].
  eapply wp_dirlookup; [done|done|done|done|lia|done|done|done|]. unfold dirlookup_post. rewrite Hnone.
  intros s1 Hr1. wp_step. eapply wp_get_inode; [done..|]. wp_step.
  rewrite dir_count by (done || apply (iw_size _ (fo_wf _ _ _ HF))).
  eapply wp_find_slot; [done|done|done|done|lia|done|]. intros s2 r Er Hr2. wp_step.
  eapply wp_of_option; [apply strncpy_spec; [by rewrite length_replicate|done]|].
  replace ((i_size i + 15) / 16 * 16) with (ndent i * 16).
  2: { rewrite Hsz at 1. replace (16 * ndent i + 15) with (15 + ndent i * 16) by lia.
       by rewrite Z.div_add by lia. }
  rewrite Er, drop_ge, app_nil_r by (by rewrite length_replicate). wp_step.
  fold (new_dirent name inum).
  pose proof (length_new_dirent name inum) as Hlen.
  assert (MAXBYTES < 2 ^ 31) as Hmb by (vm_compute; reflexivity).
  eapply wp_writei; [done|done|done|done|done|by rewrite Hty|done|done|lia|lia|unfold writei_bad; lia|
    by rewrite Hlen|by apply bytes_ok_new_dirent|rewrite nblocks_dirent; lia..|].
  intros s3 v' i' lg' Hr3 HW Hlg. rewrite nblocks_dirent in Hlg by lia.
  rewrite bool_decide_eq_true_2 by done. cbn [negb]. wp_step. eapply HQ; [done|done|lia].
Qed.
End dirlink.
