(* ===== verification/FsPath.v ===== *)
(** * Path names

    [skipelem] against splitting a string at its slashes, and [namex] against
    walking the directory tree on disk. *)

From S2P Require Import Prelude Bytes Params Machine BlockCache Journal CString Fs FsRep FsBlocks FsInodes FsContent FsData FsDir.
Local Open Scope Z_scope.

(** ** Path elements *)

Fixpoint split_on (c : Z) (l : list Z) : list (list Z) :=
  match l with
  | [] => [[]]
  | x :: l' =>
      if decide (x = c) then [] :: split_on c l'
      else match split_on c l' with
           | [] => [[x]]
           | h :: t => (x :: h) :: t
           end
  end.

(** The elements of a path: the parts between slashes that are not empty. *)
Definition elems (path : list Z) : list (list Z) :=
  filter (fun e => e <> []) (split_on SLASH (upto0 path)).

Section elems.
Implicit Types (path e r l : list Z).

Lemma elems_slash path : elems (SLASH :: path) = elems path.
Proof. done. Qed.

Lemma elems_end path : first path = 0 -> elems path = [].
Proof. destruct path as [|c path]; cbn; [done|]. by intros ->. Qed.

Lemma skip_slashes_spec path : 0 ∈ path ->
  elems (skip_slashes path) = elems path /\ 0 ∈ skip_slashes path /\ first (skip_slashes path) <> SLASH /\
  (length (skip_slashes path) <= length path)%nat.
Proof.
  induction path as [|c path IH]; intros Hp; cbn [skip_slashes]; [by apply elem_of_nil in Hp|].
  case_bool_decide as Hc.
  - subst c. apply elem_of_cons in Hp as [Hp|Hp]; [done|]. rewrite elems_slash.
    destruct (IH Hp) as (? & ? & ? & ?). cbn. split_and!; [done..|lia].
  - done.
Qed.

(** An element: neither empty nor with a slash or a NUL. *)
Definition elem_ok e : Prop := e <> [] /\ Forall (fun c => c <> SLASH /\ c <> 0) e.

Lemma elem_upto0 e r : Forall (fun c => c <> SLASH /\ c <> 0) e -> upto0 (e ++ r) = e ++ upto0 r.
Proof.
  induction 1 as [|c e [_ Hc] _ IH]; cbn; [done|]. rewrite IH. unfold c_bool.
  by rewrite bool_decide_eq_false_2.
Qed.

Lemma split_on_prefix e l : Forall (fun c => c <> SLASH /\ c <> 0) e ->
  exists h t, split_on SLASH l = h :: t /\ split_on SLASH (e ++ l) = (e ++ h) :: t.
Proof.
  induction 1 as [|c e [Hc _] _ (h & t & Hl & He)]; cbn [app].
  - destruct l as [|x l]; cbn; [by eexists _, _|]. case_decide; [by eexists _, _|].
    destruct (split_on SLASH l); by eexists _, _.
  - exists h, t. split; [done|]. cbn [split_on]. by rewrite decide_False, He by done.
Qed.

Lemma elems_cons e r : elem_ok e -> 0 ∈ r -> first r = SLASH \/ first r = 0 ->
  elems (e ++ r) = e :: elems r.
Proof.
  intros [Hne He] H0 Hr. unfold elems. rewrite elem_upto0 by done.
  destruct (split_on_prefix e (upto0 r) He) as (h & t & Hl & ->). rewrite Hl.
  assert (h = []) as ->.
  { destruct r as [|c r]; [by injection Hl|]. cbn in Hr. destruct Hr as [->| ->]; by injection Hl. }
  rewrite app_nil_r, !filter_cons. rewrite decide_True by done. by rewrite decide_False by (by intros []).
Qed.

Lemma take_elem_spec path : 0 ∈ path ->
  exists e r, take_elem path = (e, r) /\ path = e ++ r /\ 0 ∈ r /\ (first r = SLASH \/ first r = 0) /\
    Forall (fun c => c <> SLASH /\ c <> 0) e.
Proof.
  induction path as [|c path IH]; intros Hp; [by apply elem_of_nil in Hp|]. cbn [take_elem].
  destruct (bool_decide (c = SLASH) || bool_decide (c = 0)) eqn:Hc.
  - apply orb_true_iff in Hc. rewrite !bool_decide_eq_true in Hc. exists [], (c :: path).
    split_and!; try done.
  - apply orb_false_iff in Hc. rewrite !bool_decide_eq_false in Hc.
    apply elem_of_cons in Hp as [Hp|Hp]; [naive_solver|].
    destruct (IH Hp) as (e & r & -> & -> & ? & ? & ?). exists (c :: e), r. split_and!; try done. by constructor.
Qed.

Lemma cname_elem e n : Forall (fun c => c <> SLASH /\ c <> 0) e -> cname n e = take n e.
Proof.
  intros He. unfold cname. rewrite <- (app_nil_r (take n e)) at 1. rewrite elem_upto0 by (by apply Forall_take).
  apply app_nil_r.
Qed.

(** The name buffer after [skipelem]. *)
Lemma elem_name e name : elem_ok e -> length name = DIRSIZ ->
  let name' := if decide (DIRSIZ <= length e)%nat then splice 0 (take DIRSIZ e) name
               else splice 0 (e ++ [0]) name in
  length name' = DIRSIZ /\ cname DIRSIZ name' = cname DIRSIZ e.
Proof.
  intros [_ He] Hl. cbv zeta. rewrite (cname_elem e) by done. case_decide as Hlong.
  - assert (length (take DIRSIZ e) = DIRSIZ) as Ht by (rewrite length_take; lia).
    unfold splice. rewrite take_0, Ht, (drop_ge name), app_nil_r by lia. split; [done|].
    cbn [app]. rewrite cname_elem by (by apply Forall_take). by rewrite take_take, Nat.min_id.
  - split; [rewrite length_splice; [done|]; rewrite length_app, Hl; cbn [length]; lia|].
    unfold splice, cname. rewrite take_0. cbn [app]. rewrite <- app_assoc.
    rewrite take_app_ge by lia. destruct (DIRSIZ - length e)%nat as [|n] eqn:Hn; [lia|].
    cbn [app take]. rewrite elem_upto0 by done.
    change (upto0 (0 :: ?[l])) with (@nil Z). by rewrite app_nil_r, take_ge by lia.
Qed.

(** [skipelem] takes the first element off a path. *)
Lemma skipelem_spec path name : 0 ∈ path -> length name = DIRSIZ ->
  match elems path with
  | [] => skipelem path name = None
  | e :: es => exists path' name', skipelem path name = Some (path', name') /\ elems path' = es /\
      0 ∈ path' /\ (length path' < length path)%nat /\ (first path' = 0 <-> es = []) /\
      length name' = DIRSIZ /\ cname DIRSIZ name' = cname DIRSIZ e
  end.
Proof.
  intros Hp Hl. destruct (skip_slashes_spec path Hp) as (<- & Hp1 & Hns & Hlen). unfold skipelem.
  set (p := skip_slashes path) in *. destruct (decide (first p = 0)) as [Hz|Hz].
  { rewrite elems_end by done. by rewrite bool_decide_eq_true_2. }
  rewrite bool_decide_eq_false_2 by done. destruct (take_elem_spec p Hp1) as (e & r & -> & Ep & H0r & Hr & He).
  assert (elem_ok e) as Hok.
  { split; [|done]. intros ->. cbn in Ep. rewrite Ep in Hns, Hz. by destruct Hr. }
  rewrite Ep, elems_cons by done. destruct (skip_slashes_spec r H0r) as (Er & H0' & Hns' & Hlen').
  destruct (elem_name e name Hok Hl) as [Hl' Hc]. do 2 eexists. split; [done|].
  split_and!; [done|done| | |done|done].
  - rewrite Ep, length_app in Hlen. destruct Hok as [Hne _]. destruct e; [done|]. cbn in Hlen. lia.
  - split; [intros Hf; rewrite <- Er; by apply elems_end|]. intros Hes. rewrite <- Er in Hes. destruct (decide (first (skip_slashes r) = 0)) as [|Hnz]; [done|].
    destruct (take_elem_spec _ H0') as (e' & r' & _ & Ep' & H0r' & Hr' & He').
    rewrite Ep', elems_cons in Hes; try done. split; [|done]. intros ->. cbn in Ep'.
    rewrite Ep' in Hns', Hnz. by destruct Hr'.
Qed.
End elems.

(** ** The directory tree *)

(** Inode [n] as [ilock] loads it. *)
Definition dino (E : fenv) (v : Z -> list Z) (n : Z) : inode :=
  disk_inode E v n (Inode ROOTDEV n 1 1 0 0 0 0 0 []).

Definition inum_ok (E : fenv) (n : Z) : Prop := 0 <= n < sb_ninodes (e_sb E).

(** Allocated inodes are well formed and linked; a directory names allocated
    inodes. *)
Record tree_ok (E : fenv) (v : Z -> list Z) : Prop := {
  to_file : forall n, inum_ok E n -> i_type (dino E v n) <> 0 -> file_ok E v (dino E v n);
  to_link : forall n, inum_ok E n -> i_type (dino E v n) <> 0 -> i_nlink (dino E v n) <> 0;
  to_dir : forall n, inum_ok E n -> i_type (dino E v n) = T_DIR -> dir_ok v (dino E v n);
  to_ent : forall n k, inum_ok E n -> i_type (dino E v n) = T_DIR -> 0 <= k < ndent (dino E v n) ->
    let m := de_inum (dent v (dino E v n) k) in m <> 0 -> inum_ok E m /\ i_type (dino E v m) <> 0
}.

(** Where a walk from inode [n] along [es] ends; at the directory of the last
    element if [parent]. *)
Fixpoint walk (E : fenv) (v : Z -> list Z) (parent : bool) (n : Z) (es : list (list Z)) : option Z :=
  match es with
  | [] => if parent then None else Some n
  | e :: es' =>
      if decide (i_type (dino E v n) = T_DIR) then
        if parent && bool_decide (es' = []) then Some n
        else match dir_find v (dino E v n) e with
             | Some k => walk E v parent (de_inum (dent v (dino E v n) k)) es'
             | None => None
             end
      else None
  end.

(** The parent of a path is the directory that the path without its last
    element leads to. *)
Lemma walk_parent E v n es e :
  walk E v true n (es ++ [e]) =
  match walk E v false n es with
  | Some m => if decide (i_type (dino E v m) = T_DIR) then Some m else None
  | None => None
  end.
Proof.
  revert n. induction es as [|e' es IH]; intros n; cbn [app walk].
  - by case_decide.
  - case_decide; [|done]. rewrite bool_decide_eq_false_2 by (by destruct es). cbn [andb].
    destruct (dir_find _ _ _); [apply IH|done].
Qed.

(** Entries of the inode cache in use are inodes of the disk. *)
Definition icache_synced (E : fenv) (v : Z -> list Z) (ic : list inode) : Prop :=
  forall k i, ic !! k = Some i -> 0 < i_ref i -> i_dev i = ROOTDEV /\ inum_ok E (i_inum i) /\
    i_type (dino E v (i_inum i)) <> 0 /\
    (i_valid i = 0 \/ i_valid i = 1 /\ synced E v i).

(** The cache [ic] is [ic0] with the change [f] to the reference counts; the
    entries in use are what they were. *)
Record icache_refs (f : list Z -> list Z) (ic0 ic : list inode) : Prop := {
  cr_refs : i_ref <$> ic = f (i_ref <$> ic0);
  cr_same : forall k i, ic0 !! k = Some i -> 0 < i_ref i ->
    exists j, ic !! k = Some j /\ i_dev j = i_dev i /\ i_inum j = i_inum i
}.

Definition incr (ip : nat) (r : list Z) : list Z := alter (Z.add 1) ip r.

(** The state of a walk that stands at inode [n], in entry [ip]. *)
Record at_inode (E : fenv) (v : Z -> list Z) (ic0 ic : list inode) (ip : nat) (n : Z) : Prop := {
  ai_ok : icache_ok ic;
  ai_synced : icache_synced E v ic;
  ai_refs : icache_refs (incr ip) ic0 ic;
  ai_cur : exists i, ic !! ip = Some i /\ holds_inode i ROOTDEV n
}.

(** The state after a walk that failed. *)
Record at_none (E : fenv) (v : Z -> list Z) (ic0 ic : list inode) : Prop := {
  an_ok : icache_ok ic;
  an_synced : icache_synced E v ic;
  an_refs : icache_refs id ic0 ic
}.

Section cache.
Implicit Types (E : fenv) (v : Z -> list Z) (ic : list inode) (i : inode).

Lemma refs_insert ic ip i i' : ic !! ip = Some i ->
  i_ref <$> <[ip := i']> ic = <[ip := i_ref i']> (i_ref <$> ic).
Proof. intros _. apply list_fmap_insert. Qed.

Lemma insert_alter (l : list Z) k (f : Z -> Z) x : l !! k = Some x -> <[k := f x]> l = alter f k l.
Proof.
  intros Hk. apply list_eq. intros j. rewrite list_lookup_alter. destruct (decide (k = j)) as [<-|].
  - rewrite Hk, list_lookup_insert_eq by (by eapply lookup_lt_Some). done.
  - by rewrite list_lookup_insert_ne.
Qed.

Lemma refs_upd ic ip i i' f : ic !! ip = Some i -> i_ref i' = f (i_ref i) ->
  i_ref <$> <[ip := i']> ic = alter f ip (i_ref <$> ic).
Proof.
  intros Hi Hf. rewrite list_fmap_insert, Hf. apply insert_alter. by rewrite list_lookup_fmap, Hi.
Qed.

(** A reference more in an entry that is in use or taken over. *)
Lemma incr_free ic0 ic ip k1 k2 : icache_refs (incr ip) ic0 ic -> k1 <> k2 ->
  (exists i, ic0 !! k1 = Some i /\ i_ref i = 0) -> (exists i, ic0 !! k2 = Some i /\ i_ref i = 0) ->
  exists k j, ic !! k = Some j /\ i_ref j = 0.
Proof.
  intros [Hr _] Hne (i1 & H1 & Hz1) (i2 & H2 & Hz2).
  assert (forall k i, k <> ip -> ic0 !! k = Some i -> i_ref i = 0 -> exists j, ic !! k = Some j /\ i_ref j = 0) as Haux.
  { intros k i Hk Hi Hz. apply (f_equal (.!! k)) in Hr. unfold incr in Hr.
    rewrite list_lookup_alter_ne, !list_lookup_fmap, Hi in Hr by done.
    destruct (ic !! k) as [j|]; [|done]. exists j. split; [done|]. cbn in Hr. congruence. }
  destruct (decide (k1 = ip)) as [->|]; [|by exists k1; eapply Haux].
  exists k2. by eapply Haux; [intros ->|..].
Qed.

(** An entry changes but for the inode that it holds. *)
Lemma icache_refs_upd f g ic0 ic ip i i' : icache_refs f ic0 ic -> ic !! ip = Some i ->
  i_dev i' = i_dev i -> i_inum i' = i_inum i -> i_ref i' = g (i_ref i) ->
  icache_refs (fun r => alter g ip (f r)) ic0 (<[ip := i']> ic).
Proof.
  intros [Hr Hs] Hi Hd Hn Hg. split; [by rewrite (refs_upd _ _ i _ g), Hr|].
  intros k j Hj Hz. destruct (Hs k j Hj Hz) as (j' & Hj' & ? & ?).
  destruct (decide (ip = k)) as [->|Hne]; [|exists j'; by rewrite list_lookup_insert_ne].
  exists i'. rewrite list_lookup_insert_eq by (by eapply lookup_lt_Some). split; [done|].
  simplify_eq. split; congruence.
Qed.

Lemma icache_refs_ext f g ic0 ic : (forall r, f r = g r) -> icache_refs f ic0 ic -> icache_refs g ic0 ic.
Proof. intros Hfg [Hr Hs]. split; [by rewrite Hr, Hfg|done]. Qed.

Lemma icache_refs_iget ic0 ic ip n np ic' : icache_refs (incr ip) ic0 ic -> iget_post ic ROOTDEV n np ic' ->
  icache_refs (fun r => incr np (incr ip r)) ic0 ic'.
Proof.
  intros Hr (i & Hi & [[Hh ->]|(Hz & _ & ->)]).
  - eapply (icache_refs_upd _ (Z.add 1)); [done..|cbn; lia].
  - destruct Hr as [Hr Hs]. split; [rewrite (refs_upd _ _ i _ (Z.add 1)), Hr by (done || cbn; lia); done|].
    intros k j Hj Hjz. destruct (Hs k j Hj Hjz) as (j' & Hj' & ? & ?).
    destruct (decide (np = k)) as [->|Hne]; [|exists j'; by rewrite list_lookup_insert_ne].
    exfalso. apply (f_equal (.!! k)) in Hr. unfold incr in Hr. rewrite list_lookup_alter in Hr.
    destruct (decide (ip = k)) as [->|]; rewrite !list_lookup_fmap, Hi, Hj in Hr;
      cbn [fmap option_fmap option_map] in Hr; apply (inj Some) in Hr; lia.
Qed.

Lemma icache_synced_upd E v ic ip i i' : icache_synced E v ic -> ic !! ip = Some i ->
  (0 < i_ref i' -> i_dev i' = ROOTDEV /\ inum_ok E (i_inum i') /\ i_type (dino E v (i_inum i')) <> 0 /\
     (i_valid i' = 0 \/ i_valid i' = 1 /\ synced E v i')) ->
  icache_synced E v (<[ip := i']> ic).
Proof.
  intros Hs Hi Hi' k j Hj. apply list_lookup_insert_Some in Hj as [(-> & -> & _)|(_ & Hj)]; [done|].
  by apply (Hs k).
Qed.

Lemma synced_ref E v i r : synced E v i -> synced E v (set_i_ref r i).
Proof. intros Hs. apply (f_equal (set_i_ref r)) in Hs. exact Hs. Qed.

Lemma icache_synced_iget E v ic n np ic' : icache_synced E v ic -> iget_post ic ROOTDEV n np ic' ->
  inum_ok E n -> i_type (dino E v n) <> 0 -> icache_synced E v ic'.
Proof.
  intros Hs (i & Hi & [[Hh ->]|(Hz & _ & ->)]) Hn Hty; eapply icache_synced_upd; try done; intros _.
  - destruct Hh as (Hpos & Hd & Hin). destruct (Hs np i Hi Hpos) as (? & ? & ? & Hv). split_and!; try done.
    destruct Hv as [|[? ?]]; [by left|right]. split; [done|by apply synced_ref].
  - split_and!; try done. by left.
Qed.

(** A locked entry is the inode on disk. *)
Lemma synced_dino E v i : i_dev i = ROOTDEV -> i_valid i = 1 -> synced E v i ->
  i = set_i_ref (i_ref i) (dino E v (i_inum i)).
Proof. intros Hd Hv Hs. rewrite <- Hs at 1. unfold dino, disk_inode, get_dinode, set_i_ref. cbn. by rewrite Hd, Hv. Qed.

Lemma dino_synced E v n r : synced E v (set_i_ref r (dino E v n)).
Proof. done. Qed.

Lemma file_ok_ref E v i r : file_ok E v i -> file_ok E v (set_i_ref r i).
Proof. intros [[] ? ? ? ?]. split; [by split|done..]. Qed.

Lemma dir_ok_ref v i r : dir_ok v i -> dir_ok v (set_i_ref r i).
Proof. intros []. by split. Qed.

Lemma dir_find_cname v i nm nm' : cname DIRSIZ nm = cname DIRSIZ nm' -> dir_find v i nm = dir_find v i nm'.
Proof.
  intros Hc. apply find_from_ext. intros k _. apply bool_decide_ext. unfold dmatch. by rewrite Hc.
Qed.

Lemma list_alter_id' (l : list Z) ip : alter id ip l = l.
Proof.
  apply list_eq. intros k. destruct (decide (ip = k)) as [->|]; [|by rewrite list_lookup_alter_ne].
  rewrite list_lookup_alter_eq. by destruct (l !! k).
Qed.

Lemma alter_incr_decr ip np r : alter (fun x => x - 1) ip (incr np (incr ip r)) = incr np r.
Proof.
  apply list_eq. intros k. unfold incr. rewrite !list_lookup_alter.
  repeat case_decide; subst; destruct (r !! k) as [x|];
    cbn [fmap option_fmap option_map]; try done; f_equal; lia.
Qed.

Lemma alter_incr ip r : alter (fun x => x - 1) ip (incr ip r) = r.
Proof.
  apply list_eq. intros k. unfold incr.
  destruct (decide (ip = k)) as [->|]; [rewrite !list_lookup_alter_eq|by rewrite !list_lookup_alter_ne].
  destruct (r !! k); cbn [fmap option_fmap option_map]; [|done]. f_equal. lia.
Qed.
End cache.

Section namex.
Context {T : Type} `{JournalSpec T}.
Variable rd : Z -> option (nat -> Z -> M (fstate T) (Z * list Z)).
Implicit Types (E : fenv) (s : fstate T) (v : Z -> list Z) (lg : gset Z)
  (ic : list inode) (il : nat -> sleeplock) (i : inode).

Definition unlocked il : Prop := forall k, slocked (il k) = 0.

Lemma unlocked_upd il ip : unlocked il -> unlocked (upd_il il ip initsleeplock).
Proof. intros Hu k. unfold upd_il. by case_decide. Qed.

Lemma upd_il_upd il ip k k' j : upd_il (upd_il il ip k) ip k' j = upd_il il ip k' j.
Proof. unfold upd_il. by case_decide. Qed.

(** [ilock] on the inode where the walk stands. *)
Lemma wp_walk_lock E s ic v lg il ip n ic0 (Q : unit -> fstate T -> Prop) :
  frep E s ic v lg ∅ il -> at_inode E v ic0 ic ip n -> unlocked il -> fs_layout E -> (size lg < NBUF)%nat ->
  (forall s' r, let ic' := <[ip := set_i_ref r (dino E v n)]> ic in 0 < r ->
     inum_ok E n -> i_type (dino E v n) <> 0 ->
     frep E s' ic' v lg ∅ (upd_il il ip (e_lock E)) -> at_inode E v ic0 ic' ip n -> Q tt s') ->
  wp (ilock (Some ip)) Q s.
Proof.
  intros Hr [Hok Hsy Hrefs (i & Hi & Hpos & Hd & Hin)] Hu HL Hn HQ.
  destruct (Hsy ip i Hi Hpos) as (_ & Hnum & Hty & Hval). rewrite Hin in *.
  assert (at_inode E v ic0 (<[ip := set_i_ref (i_ref i) (dino E v n)]> ic) ip n) as Hat.
  { split.
    - eapply icache_upd; [done|done|cbn; lia|]. intros dev m (? & ? & ?). left. cbn in *. split_and!; [lia|congruence..].
    - eapply icache_synced_upd; [done|done|]. intros _. cbn. split_and!; try done. right. done.
    - eapply icache_refs_ext; [|eapply (icache_refs_upd _ id); [done|done|cbn; congruence|cbn; congruence|done]].
      intros l. apply list_alter_id'.
    - eexists. split; [apply list_lookup_insert_eq; by eapply lookup_lt_Some|done]. }
  destruct Hval as [Hv|[Hv Hs]].
  - eapply wp_ilock_load; [done|done|lia|done|done|apply Hu|rewrite Hin; apply (fl_inode _ HL); done|set_solver|
      rewrite map_size_empty; lia| |].
    { rewrite Hin. exact Hty. }
    intros s1 Hr1. eapply (HQ _ (i_ref i)); [done|done|done| |done].
    replace (set_i_ref (i_ref i) (dino E v n)) with
      (set_i_valid 1 (get_dinode (v (IBLOCK (i_inum i) (e_sb E))) (dinode_off (i_inum i)) i)); [done|].
    unfold dino, disk_inode, get_dinode, set_i_valid, set_i_ref. cbn. by rewrite Hd, Hin.
  - eapply wp_ilock_valid; [done|done|lia|by rewrite Hv|apply Hu|]. intros s1 Hr1.
    pose proof (synced_dino E v i Hd Hv Hs) as Ei. rewrite Hin in Ei.
    eapply (HQ _ (i_ref i)); [done|done|done| |done]. rewrite <- Ei. by rewrite list_insert_id.
Qed.

(** [iunlockput] of an inode with links. *)
Lemma wp_walk_put E s ic v lg il ip i (Q : unit -> fstate T -> Prop) :
  frep E s ic v lg ∅ (upd_il il ip (e_lock E)) -> ic !! ip = Some i -> unlocked il -> 0 < i_ref i ->
  i_nlink i <> 0 ->
  (forall s' il', unlocked il' -> frep E s' (<[ip := set_i_ref (i_ref i - 1) i]> ic) v lg ∅ il' -> Q tt s') ->
  wp (iunlockput ip) Q s.
Proof.
  intros Hr Hi Hu Hpos Hnl HQ. unfold iunlockput. wp_step.
  eapply wp_iunlock; [done|done|lia|unfold upd_il; by rewrite decide_True|]. intros s1 Hr1.
  eapply wp_iput_keep; [done|done|unfold upd_il; by rewrite decide_True|auto|].
  intros s2 il' Hr2 Hz Hoth. eapply HQ; [|done]. intros k. destruct (decide (k = ip)) as [->|]; [done|].
  rewrite Hoth by done. unfold upd_il. by rewrite !decide_False.
Qed.

Lemma readable_name (name : list Z) : length name = DIRSIZ -> readable DIRSIZ name.
Proof. intros Hl. left. lia. Qed.

(** Giving up a reference to an entry. *)
Lemma put_none E v ic0 ic ip n i : at_inode E v ic0 ic ip n -> ic !! ip = Some i ->
  at_none E v ic0 (<[ip := set_i_ref (i_ref i - 1) i]> ic).
Proof.
  intros [Hok Hsy Hrefs (j & Hj & Hpos & Hd & Hin)] Hi. assert (j = i) as -> by congruence. split.
  - eapply icache_upd; [done|done|cbn; lia|]. intros dev m (? & ? & ?). left. cbn in *. split_and!; [lia|congruence..].
  - eapply icache_synced_upd; [done|done|]. intros _. cbn. destruct (Hsy ip i Hi Hpos) as (? & ? & ? & Hv).
    split_and!; try done. destruct Hv as [|[? ?]]; [by left|right]. split; [done|by apply synced_ref].
  - eapply icache_refs_ext; [|eapply (icache_refs_upd _ (fun x => x - 1)); [done..|done]].
    intros r. apply alter_incr.
Qed.

(** The step to the next element. *)
Lemma put_next E v ic0 ic ip n ic1 np m i : at_inode E v ic0 ic ip n -> iget_post ic ROOTDEV m np ic1 ->
  (forall k j, ic0 !! k = Some j -> 0 <= i_ref j) -> inum_ok E m -> i_type (dino E v m) <> 0 ->
  ic1 !! ip = Some i -> at_inode E v ic0 (<[ip := set_i_ref (i_ref i - 1) i]> ic1) np m.
Proof.
  intros [Hok Hsy Hrefs (j & Hj & Hpos & Hd & Hin)] Hpost Hnn Hm Hty Hi.
  pose proof (iget_post_ok _ _ _ _ _ Hok Hpost) as Hok1.
  pose proof (icache_synced_iget _ _ _ _ _ _ Hsy Hpost Hm Hty) as Hsy1.
  pose proof (icache_refs_iget _ _ _ _ _ _ Hrefs Hpost) as Hrefs1.
  assert (icache_refs (incr np) ic0 (<[ip := set_i_ref (i_ref i - 1) i]> ic1)) as Hrefs2.
  { eapply icache_refs_ext; [|eapply (icache_refs_upd _ (fun x => x - 1)); [done..|done]].
    intros r. apply alter_incr_decr. }
  assert (0 < i_ref i) as Hpi.
  { destruct Hpost as (a & Ha & [[? ->]|(Hz & _ & ->)]);
      (destruct (decide (np = ip)) as [->|Hne];
       [rewrite list_lookup_insert_eq in Hi by (by eapply lookup_lt_Some); injection Hi as <-; simplify_eq; cbn; lia|
        rewrite list_lookup_insert_ne in Hi by done; simplify_eq; lia]). }
  split; [| |done|].
  - eapply icache_upd; [done|done|cbn; lia|]. intros dev z (? & ? & ?). left. cbn in *. split_and!; [lia|congruence..].
  - eapply icache_synced_upd; [done|done|]. intros _. cbn. destruct (Hsy1 ip i Hi Hpi) as (? & ? & ? & Hv).
    split_and!; try done. destruct Hv as [|[? ?]]; [by left|right]. split; [done|by apply synced_ref].
  - assert (exists a, ic1 !! np = Some a /\ i_dev a = ROOTDEV /\ i_inum a = m) as (a & Ha & Had & Ham).
    { destruct Hpost as (a & Ha & [[(? & ? & ?) ->]|(? & _ & ->)]); eexists;
        (split; [apply list_lookup_insert_eq; by eapply lookup_lt_Some|done]). }
    assert (exists a', <[ip := set_i_ref (i_ref i - 1) i]> ic1 !! np = Some a' /\ i_dev a' = ROOTDEV /\ i_inum a' = m)
      as (a' & Ha' & ? & ?).
    { destruct (decide (ip = np)) as [->|]; [|exists a; by rewrite list_lookup_insert_ne].
      eexists. split; [apply list_lookup_insert_eq; by eapply lookup_lt_Some|]. simplify_eq. done. }
    exists a'. split; [done|]. split_and!; [|done|done].
    pose proof (cr_refs _ _ _ Hrefs2) as Hr. apply (f_equal (.!! np)) in Hr. unfold incr in Hr.
    rewrite list_lookup_alter_eq, !list_lookup_fmap, Ha' in Hr. destruct (ic0 !! np) as [z|] eqn:Hz; [|done].
    cbn [fmap option_fmap option_map] in Hr. apply (inj Some) in Hr. specialize (Hnn np z Hz). lia.
Qed.

(** The cache before the walk: two entries are free. *)
Record cache_room ic0 : Prop := {
  cm_nonneg : forall k j, ic0 !! k = Some j -> 0 <= i_ref j;
  cm_free : exists k1 k2, k1 <> k2 /\ (exists i, ic0 !! k1 = Some i /\ i_ref i = 0) /\
    (exists i, ic0 !! k2 = Some i /\ i_ref i = 0)
}.

(** What [namex] leaves for its caller. *)
Definition namex_post E ic0 v lg parent n (es : list (list Z)) (Q : option nat * list Z -> fstate T -> Prop) : Prop :=
  forall s' ic' il' name', unlocked il' -> frep E s' ic' v lg ∅ il' ->
  match walk E v parent n es with
  | Some m => forall ip', at_inode E v ic0 ic' ip' m ->
      (parent = true -> exists e, last es = Some e /\ cname DIRSIZ name' = cname DIRSIZ e) ->
      Q (Some ip', name') s'
  | None => at_none E v ic0 ic' -> Q (None, name') s'
  end.

Lemma namex_post_next E ic0 v lg parent n e es k Q : namex_post E ic0 v lg parent n (e :: es) Q ->
  i_type (dino E v n) = T_DIR -> parent && bool_decide (es = []) = false ->
  dir_find v (dino E v n) e = Some k ->
  namex_post E ic0 v lg parent (de_inum (dent v (dino E v n) k)) es Q.
Proof.
  intros HP Hty Hp Hf s' ic' il' name' Hu Hr. specialize (HP s' ic' il' name' Hu Hr). cbn [walk] in HP.
  rewrite decide_True, Hp, Hf in HP by done. destruct (walk _ _ _ _ es); [|done].
  intros ip' Ha Hl. apply HP; [done|]. intros Hpar. destruct (Hl Hpar) as (e' & He' & Hc). exists e'.
  split; [|done]. by apply last_cons_Some_2 || (rewrite last_cons, He'; done).
Qed.

(** The end of the path. *)
Lemma wp_walk_end E s ic0 ic il v lg ip n (parent : bool) name (Q : option nat * list Z -> fstate T -> Prop) :
  frep E s ic v lg ∅ il -> at_inode E v ic0 ic ip n -> unlocked il -> tree_ok E v ->
  namex_post E ic0 v lg parent n [] Q ->
  wp (if parent then iput ip ;; mret (None, name) else mret (Some ip, name)) Q s.
Proof.
  intros Hr Hat Hu HT HQ. destruct parent; [|wp_step; by eapply HQ].
  pose proof Hat as [_ Hsy _ (i & Hi & Hpos & Hd & Hin)]. wp_step.
  destruct (Hsy ip i Hi Hpos) as (_ & Hnum & Hty & Hval). eapply wp_iput_keep; [done|done|apply Hu| |].
  { destruct Hval as [|[Hv Hs]]; [by left|]. right. left.
    rewrite (synced_dino E v i Hd Hv Hs). by apply (to_link _ _ HT). }
  intros s1 il1 Hr1 Hz Hoth. wp_step. eapply HQ; [|done|by eapply put_none].
  intros k. destruct (decide (k = ip)) as [->|]; [done|]. rewrite Hoth by done. apply Hu.
Qed.

(** The walk fails at a locked inode. *)
Lemma wp_walk_fail E s ic0 ic il v lg ip n i parent es name (Q : option nat * list Z -> fstate T -> Prop) :
  frep E s ic v lg ∅ (upd_il il ip (e_lock E)) -> at_inode E v ic0 ic ip n -> unlocked il ->
  ic !! ip = Some i -> i_nlink i <> 0 -> walk E v parent n es = None ->
  namex_post E ic0 v lg parent n es Q ->
  wp (iunlockput ip ;; mret (None, name)) Q s.
Proof.
  intros Hr Hat Hu Hi Hnl Hw HQ. pose proof Hat as [_ _ _ (j & Hj & Hpos & _)].
  assert (j = i) as -> by congruence. wp_step. eapply wp_walk_put; [done..|].
  intros s1 il1 Hu1 Hr1. wp_step. specialize (HQ s1 _ il1 name Hu1 Hr1). rewrite Hw in HQ.
  apply HQ. by eapply put_none.
Qed.

(** [iget] of the next inode leaves the current one in its entry. *)
Lemma iget_keeps ic n np ic1 ip i : iget_post ic ROOTDEV n np ic1 -> ic !! ip = Some i -> 0 < i_ref i ->
  exists j, ic1 !! ip = Some j /\ 0 < i_ref j /\ i_nlink j = i_nlink i.
Proof.
  intros (a & Ha & [[_ ->]|(Hz & _ & ->)]) Hi Hpos; (destruct (decide (np = ip)) as [->|];
    [eexists; rewrite list_lookup_insert_eq by (by eapply lookup_lt_Some);
     split; [done|]; simplify_eq; cbn in *; split; [lia|done]|
     exists i; by rewrite list_lookup_insert_ne by done]).
Qed.

Lemma dir_find_entry v i name k : dir_find v i name = Some k -> 0 <= k < ndent i /\ dmatch v i name k.
Proof.
  intros Hf. pose proof (find_from_spec (fun k => bool_decide (dmatch v i name k)) (Z.to_nat (ndent i)) 0) as Hs.
  fold (dir_find v i name) in Hs. rewrite Hf in Hs. destruct Hs as (Hk & Hm%bool_decide_eq_true & _).
  split; [lia|done].
Qed.

Lemma wp_namex_loop E ic0 v lg parent fuel : forall s ic il ip n path name (Q : option nat * list Z -> fstate T -> Prop),
  frep E s ic v lg ∅ il -> at_inode E v ic0 ic ip n -> unlocked il -> fs_layout E -> tree_ok E v ->
  (size lg < NBUF)%nat -> cache_room ic0 -> 0 ∈ path -> length name = DIRSIZ -> (length path <= fuel)%nat ->
  namex_post E ic0 v lg parent n (elems path) Q ->
  wp (namex_loop rd fuel ip path parent name) Q s.
Proof.
  induction fuel as [|fuel IH]; intros s ic il ip n path name Q Hr Hat Hu HL HT Hn Hroom Hpath Hlen Hfuel HQ.
  { destruct path; [by apply elem_of_nil in Hpath|]. cbn in Hfuel. lia. }
  cbn [namex_loop]. pose proof (skipelem_spec path name Hpath Hlen) as Hskip.
  destruct (elems path) as [|e es] eqn:Hes; [rewrite Hskip; by eapply wp_walk_end|].
  destruct Hskip as (path' & name' & -> & Hes' & Hpath' & Hshort & Hlast & Hlen' & Hc). wp_step.
  eapply wp_walk_lock; [done..|]. intros s1 r ic1 Hpos Hnum Hty Hr1 Hat1. wp_step.
  set (d := set_i_ref r (dino E v n)) in *.
  assert (ic1 !! ip = Some d) as Hd.
  { destruct Hat as [_ _ _ (i & Hi & _)]. apply list_lookup_insert_eq. by eapply lookup_lt_Some. }
  pose proof (to_link _ _ HT n Hnum Hty) as Hnl. pose proof (to_file _ _ HT n Hnum Hty) as HF.
  eapply wp_get_inode; [done|done|]. change (i_type d) with (i_type (dino E v n)).
  case_bool_decide as Hdir; cbn [negb].
  2: { eapply wp_walk_fail; [done..| |done]. cbn [walk]. by rewrite decide_False. }
  assert (bool_decide (first path' = 0) = bool_decide (es = [])) as -> by (by apply bool_decide_ext).
  destruct (parent && bool_decide (es = [])) eqn:Hp.
  { wp_step. eapply wp_iunlock; [done|done|cbn; lia|unfold upd_il; by rewrite decide_True|].
    intros s2 Hr2. wp_step. apply andb_true_iff in Hp as [-> ->%bool_decide_eq_true].
    pose proof (unlocked_upd il ip Hu) as Hu2.
    specialize (HQ s2 ic1 (upd_il il ip initsleeplock) name' Hu2). cbn [walk] in HQ.
    rewrite decide_True in HQ by done. eapply HQ; [|done|by exists e].
    destruct Hr2. split; try done. intros k. rewrite <- (upd_il_upd il ip (e_lock E)). auto. }
  pose proof (to_dir _ _ HT n Hnum Hdir) as Hdok. wp_step.
  eapply wp_dirlookup; [done|done|done|by apply file_ok_ref|done|by apply dir_ok_ref|by apply readable_name| |].
  { destruct (cm_free _ Hroom) as (k1 & k2 & Hne & Hf1 & Hf2). eapply incr_free; [apply Hat1|done..]. }
  unfold dirlookup_post. change (dir_find v d name') with (dir_find v (dino E v n) name').
  rewrite (dir_find_cname v _ name' e) by done.
  destruct (dir_find v (dino E v n) e) as [k|] eqn:Hfind.
  - intros s2 np ic2 Hpost Hr2. change (dent v d k) with (dent v (dino E v n) k) in Hpost.
    destruct (dir_find_entry _ _ _ _ Hfind) as [Hk [Hnz _]].
    destruct (to_ent _ _ HT n k Hnum Hdir Hk Hnz) as [Hm Hmt].
    destruct (iget_keeps _ _ _ _ _ _ Hpost Hd Hpos) as (j & Hj & Hjp & Hjn).
    wp_step. eapply wp_walk_put; [done|done|done|done|by rewrite Hjn|]. intros s3 il3 Hu3 Hr3.
    eapply IH; [done|eapply put_next; [exact Hat1|exact Hpost|apply Hroom|done..]|done|done|done|done|done|done|done|lia|].
    rewrite Hes'. by eapply namex_post_next.
  - intros s2 Hr2. eapply wp_walk_fail; [done..| |done]. cbn [walk]. by rewrite decide_True, Hp, Hfind.
Qed.

(** ** Where a walk starts *)

(** The current directory of the process. *)
Definition mycwd (m : machine) : option nat := i ← curp m; pr ← procs m !! i; p_cwd pr.

Lemma wp_fmyproc E s ic v lg il (Q : option nat -> fstate T -> Prop) :
  frep E s ic v lg ∅ il ->
  (forall s', frep E s' ic v lg ∅ il -> procs (mach s') = procs (mach s) -> Q (curp (mach s)) s') ->
  wp (onm myproc) Q s.
Proof.
  intros Hr HQ. destruct (frep_pid _ _ _ _ _ _ _ Hr) as (pid & Hp0 & Hp & Hq). apply wp_fonm.
  wp_apply (myproc_spec (mach s) (proj1 Hq)). intros p m' (Hi & Hok & Hd & ->). apply HQ.
  - eapply frep_set_mach; [done| | |].
    + split; [split; [done|]|apply Hi]. intros l. unfold lock_free. rewrite (irq_lock _ _ _ Hi). apply Hq.
    + intros k. unfold slock_of. by rewrite (proj1 (proj2 (proj2 Hi))).
    + intros k. unfold slock_of. rewrite (proj1 (proj2 (proj2 Hi))). apply (fr_ilock _ _ _ _ _ _ _ Hr).
  - rewrite mach_set. apply Hi.
Qed.

Lemma icache_refs_start ic np n ic' : iget_post ic ROOTDEV n np ic' -> icache_refs (incr np) ic ic'.
Proof.
  intros Hpost. assert (icache_refs id ic ic) as H0' by (split; [done|by eauto]).
  destruct Hpost as (i & Hi & [[_ ->]|(Hz & _ & ->)]).
  - eapply (icache_refs_upd id (Z.add 1)); [done..|cbn; lia].
  - split; [by apply (refs_upd _ _ i _ (Z.add 1)); [|cbn; lia]|]. intros k j Hj Hjz.
    exists j. rewrite list_lookup_insert_ne; [done|]. intros <-. simplify_eq. lia.
Qed.

Lemma at_start E v ic np n ic' : icache_ok ic -> icache_synced E v ic -> iget_post ic ROOTDEV n np ic' ->
  inum_ok E n -> i_type (dino E v n) <> 0 -> at_inode E v ic ic' np n.
Proof.
  intros Hok Hsy Hpost Hn Hty. split.
  - by eapply iget_post_ok.
  - by eapply icache_synced_iget.
  - by eapply icache_refs_start.
  - destruct Hpost as (i & Hi & [[(? & ? & ?) ->]|(? & _ & ->)]); eexists;
      (split; [apply list_lookup_insert_eq; by eapply lookup_lt_Some|]); split_and!; done || cbn; lia.
Qed.

(** The conditions of a walk: the cache and the tree are in order, there are
    two free entries. *)
Record walk_ready E s ic v lg il : Prop := {
  wr_rep : frep E s ic v lg ∅ il;
  wr_unlocked : unlocked il;
  wr_layout : fs_layout E;
  wr_tree : tree_ok E v;
  wr_ok : icache_ok ic;
  wr_sync : icache_synced E v ic;
  wr_room : cache_room ic;
  wr_buf : (size lg < NBUF)%nat
}.

(** The inode a path starts from: the root, or the current directory. *)
Definition path_start s ic (path : list Z) (n : Z) : Prop :=
  if decide (first path = SLASH) then n = ROOTINO
  else exists k i, mycwd (mach s) = Some k /\ ic !! k = Some i /\ holds_inode i ROOTDEV n.

Lemma wp_namex E s ic v lg il path parent name n (Q : option nat * list Z -> fstate T -> Prop) :
  walk_ready E s ic v lg il -> path_start s ic path n -> 0 ∈ path -> length name = DIRSIZ ->
  inum_ok E n -> i_type (dino E v n) <> 0 ->
  namex_post E ic v lg parent n (elems path) Q ->
  wp (namex rd path parent name) Q s.
Proof.
  intros [Hr Hu HL HT Hok Hsy Hroom Hn] Hstart Hpath Hlen Hnum Hty HQ. unfold namex. wp_step.
  assert (forall s1 ip ic1, frep E s1 ic1 v lg ∅ il -> iget_post ic ROOTDEV n ip ic1 ->
    wp (namex_loop rd (length path) ip path parent name) Q s1) as Hloop.
  { intros s1 ip ic1 Hr1 Hpost. eapply wp_namex_loop; [done|by apply at_start|done..]. }
  unfold path_start in Hstart. case_decide as Hs.
  - subst n. rewrite bool_decide_eq_true_2 by done. eapply wp_iget; [done| |].
    { destruct (cm_free _ Hroom) as (k & _ & _ & (i & ? & ?) & _). exists k, i. auto. }
    intros s1 ip ic1 Hpost Hr1. by eapply Hloop.
  - rewrite bool_decide_eq_false_2 by done. destruct Hstart as (k & i & Hcwd & Hi & Hh).
    unfold mycwd in Hcwd. apply bind_Some in Hcwd as (p & Hp & (pr & Hpr & Hcwd)%bind_Some).
    wp_step. eapply wp_fmyproc; [done|]. intros s1 Hr1 Hprocs. rewrite Hp. wp_step.
    eapply wp_of_option; [done|]. wp_step. apply wp_fonm. unfold get_proc. wp_steps. rewrite Hprocs.
    eapply wp_of_option; [exact Hpr|]. rewrite set_mach_id. wp_step. eapply wp_of_option; [exact Hcwd|].
    eapply wp_idup; [done..|]. intros s2 Hr2. eapply Hloop; [done|]. exists i. auto.
Qed.
End namex.
