(* ===== verification/FsTrunc.v ===== *)
(** * Freeing a file

    [itrunc] frees every block of a file, and [iput] of the last reference to
    an inode without links frees the inode. *)

From S2P Require Import Prelude Bytes Params Machine BlockCache Journal CString Fs FsRep FsBlocks FsInodes FsContent FsData FsPath.
Local Open Scope Z_scope.

(** The bitmap of [v'] is that of [v] without the blocks [F]; no other block
    changed. *)
Record freed (E : fenv) (v v' : Z -> list Z) (F : gset Z) : Prop := {
  fd_vol : vol_ok v';
  fd_used : forall c, 0 <= c < sb_size (e_sb E) ->
    used (e_sb E) v' c = used (e_sb E) v c && bool_decide (c ∉ F);
  fd_same : forall b, (forall c, 0 <= c < sb_size (e_sb E) -> BBLOCK c (e_sb E) <> b) -> v' b = v b
}.

Section freed.
Implicit Types (E : fenv) (v : Z -> list Z) (i : inode) (F : gset Z).

Lemma freed_refl E v : vol_ok v -> freed E v v ∅.
Proof.
  intros Hv. split; [done| |done]. intros c Hc. rewrite bool_decide_eq_true_2 by set_solver. by rewrite andb_true_r.
Qed.

Lemma freed_trans E v1 v2 v3 F1 F2 : freed E v1 v2 F1 -> freed E v2 v3 F2 -> freed E v1 v3 (F1 ∪ F2).
Proof.
  intros [_ U1 S1] [V2 U2 S2]. split; [done| |].
  - intros c Hc. rewrite U2, U1 by done. rewrite <- andb_assoc. f_equal. repeat case_bool_decide; set_solver.
  - intros b Hb. by rewrite S2, S1.
Qed.

Lemma freed_ext E v v' F F' : freed E v v' F -> F = F' -> freed E v v' F'.
Proof. by intros ? <-. Qed.

Lemma freed_one E v b : bitmap_ok E -> vol_ok v -> 0 <= b < sb_size (e_sb E) ->
  freed E v (upd_blk v (BBLOCK b (e_sb E)) (mark_free (v (BBLOCK b (e_sb E))) (b mod BPB))) {[b]}.
Proof.
  intros HB Hv Hb. split.
  - apply vol_ok_upd; [done|]. by apply put_byte_ok.
  - intros c Hc. unfold used, upd_blk. case_decide as E1.
    + rewrite E1, bit_set_freed; [|apply Hv|apply Z.mod_pos_bound; unfold BPB; lia..].
      rewrite andb_comm. f_equal. rewrite <- bool_decide_not. apply bool_decide_ext. rewrite not_elem_of_singleton.
      split; [congruence|]. intros Hne Em. apply Hne. unfold BBLOCK, BPB in *.
      rewrite (Z.div_mod c 4096), (Z.div_mod b 4096) by lia. lia.
    + rewrite bool_decide_eq_true_2, andb_true_r; [done|]. intros ->%elem_of_singleton. done.
  - intros c Hc. unfold upd_blk. rewrite decide_False; [done|]. intros ->. by apply (Hc b).
Qed.

Lemma freed_data E v v' F b : freed E v v' F -> bitmap_ok E -> data_start (e_sb E) <= b -> v' b = v b.
Proof. intros HF HB Hb. apply (fd_same _ _ _ _ HF). intros c Hc. by apply bitmap_before. Qed.

Lemma freed_meta E v v' F : freed E v v' F -> meta_used E v ->
  (forall b, b ∈ F -> data_start (e_sb E) <= b) -> meta_used E v'.
Proof.
  intros HF HM HD b Hb. rewrite (fd_used _ _ _ _ HF) by done. intros [Hu|Hn]%andb_false_iff; [by apply HM|].
  apply bool_decide_eq_false in Hn. apply HD. by apply dec_stable.
Qed.

(** Blocks [lo .. lo + n - 1] of a file. *)
Definition blk_range_set v i (lo n : Z) : gset Z :=
  list_to_set (filter (fun a => a <> 0) (blkmap v i <$> seqZ lo n)).

Lemma elem_of_blk_range v i lo n b : b ∈ blk_range_set v i lo n <->
  b <> 0 /\ exists bn, lo <= bn < lo + n /\ blkmap v i bn = b.
Proof.
  unfold blk_range_set. rewrite elem_of_list_to_set, list_elem_of_filter, list_elem_of_fmap.
  setoid_rewrite elem_of_seqZ. naive_solver.
Qed.

Lemma blk_range_snoc v i lo n : 0 <= n ->
  blk_range_set v i lo (n + 1) =
  blk_range_set v i lo n ∪ (if decide (blkmap v i (lo + n) = 0) then ∅ else {[blkmap v i (lo + n)]}).
Proof.
  intros Hn. apply set_eq. intros b. rewrite elem_of_union, !elem_of_blk_range. split.
  - intros (Hb & bn & Hbn & Eb). destruct (decide (bn = lo + n)) as [->|].
    + right. rewrite Eb, decide_False by done. set_solver.
    + left. split; [done|]. exists bn. split; [lia|done].
  - intros [(Hb & bn & Hbn & Eb)|Hin].
    + split; [done|]. exists bn. split; [lia|done].
    + case_decide as Ez; [set_solver|]. apply elem_of_singleton in Hin as ->. split; [done|].
      exists (lo + n). split; [lia|done].
Qed.

Lemma fblk_sets v i b : fblk v i b <->
  b ∈ blk_range_set v i 0 12 ∪ blk_range_set v i 12 128 ∪ root_set i.
Proof.
  rewrite !elem_of_union, !elem_of_blk_range. unfold fblk, root_set, MAXFILE. split.
  - intros [Hb [->|(bn & Hbn & <-)]].
    + right. rewrite decide_False by done. set_solver.
    + left. destruct (decide (bn < 12)); [left|right]; (split; [done|]; exists bn; split; [lia|done]).
  - intros [[(Hb & bn & Hbn & Eb)|(Hb & bn & Hbn & Eb)]|Hin].
    + split; [done|]. right. exists bn. split; [lia|done].
    + split; [done|]. right. exists bn. split; [lia|done].
    + case_decide as Ez; [set_solver|]. apply elem_of_singleton in Hin as ->. auto.
Qed.
End freed.

Section itrunc.
Context {T : Type} `{JournalSpec T}.
Implicit Types (E : fenv) (s : fstate T) (v : Z -> list Z) (h : gmap nat Z) (lg F : gset Z)
  (ic : list inode) (il : nat -> sleeplock) (i : inode).

(** [bfree] of a block of the data area. *)
Lemma wp_free E s ic v lg h il b lg0 (Q : unit -> fstate T -> Prop) :
  frep E s ic v lg h il -> fs_layout E -> data_used E v b -> lg ⊆ lg0 ∪ bitmap_set E ->
  (forall c, c ∈@{gset Z} map_img h -> data_start (e_sb E) <= c) ->
  (size (lg0 ∪ bitmap_set E) + size h < NBUF)%nat -> (size (lg0 ∪ bitmap_set E) < e_cap E)%nat ->
  (forall s' v' lg', frep E s' ic v' lg' h il -> freed E v v' {[b]} -> lg' ⊆ lg0 ∪ bitmap_set E ->
     lg ⊆ lg' -> Q tt s') ->
  wp (bfree ROOTDEV b) Q s.
Proof.
  intros Hr HL [Hb Hu] Hlg Hh Hn Hc HQ. pose proof (data_start_pos _ (fl_bm _ HL)).
  pose proof (subseteq_size _ _ Hlg). assert (0 <= b < sb_size (e_sb E)) as Hb' by lia.
  eapply wp_bfree; [done|apply HL|done|done| |lia|lia|].
  { intros Hin%Hh. eapply bitmap_before; [apply HL|exact Hb'|exact Hin|done]. }
  intros s' d Hr' ->. eapply HQ; [done| | |set_solver].
  - apply freed_one; [apply HL|by eapply vol_ok_frep|done].
  - pose proof (BBLOCK_bitmap_set E b Hb'). set_solver.
Qed.

Definition with_addrs (a : list Z) i : inode :=
  Inode (i_dev i) (i_inum i) (i_ref i) (i_valid i) (i_type i) (i_major i) (i_minor i) (i_nlink i) (i_size i) a.

Definition cut (k : nat) i : inode := with_addrs (replicate k 0 ++ drop k (i_addrs i)) i.

Lemma cut_zero i : cut 0 i = i.
Proof. by destruct i. Qed.

Lemma cut_lookup k i : inode_wf i -> (k <= NDIRECT)%nat -> i_addrs (cut k i) !! k = Some (iaddr i k).
Proof.
  intros Hwf Hk. cbn. rewrite lookup_app_r, length_replicate, Nat.sub_diag by (by rewrite length_replicate).
  rewrite lookup_drop, Nat.add_0_r. apply iaddr_lookup; [done|unfold NDIRECT in *; lia].
Qed.

Lemma cut_next k i : inode_wf i -> (k <= NDIRECT)%nat -> set_i_addr k 0 (cut k i) = cut (S k) i.
Proof.
  intros Hwf Hk. unfold cut, set_i_addr, with_addrs. cbn [i_dev i_inum i_ref i_valid i_type i_major i_minor i_nlink i_size i_addrs].
  f_equal. rewrite insert_app_r_alt, length_replicate, Nat.sub_diag by (by rewrite length_replicate).
  rewrite (drop_S _ _ _ (iaddr_lookup i k Hwf ltac:(unfold NDIRECT in *; lia))). cbn [insert list_insert].
  by rewrite replicate_S_end, <- app_assoc.
Qed.

Lemma cut_skip k i : inode_wf i -> (k <= NDIRECT)%nat -> iaddr i k = 0 -> cut k i = cut (S k) i.
Proof.
  intros Hwf Hk Hz. rewrite <- cut_next by done. unfold set_i_addr, with_addrs.
  rewrite list_insert_id; [by destruct i|]. by rewrite cut_lookup, Hz.
Qed.

Lemma data_used_freed E v v' F b : freed E v v' F -> fs_layout E -> data_used E v b -> b ∉ F -> data_used E v' b.
Proof.
  intros HF HL [Hb Hu] Hn. split; [done|]. pose proof (data_start_pos _ (fl_bm _ HL)).
  by rewrite (fd_used _ _ _ _ HF), Hu, bool_decide_eq_true_2 by (done || lia).
Qed.

(** The direct blocks. *)
Lemma wp_itrunc_direct E s ic v lg il ip i (Q : unit -> fstate T -> Prop) :
  frep E s ic v lg ∅ il -> ic !! ip = Some i -> fs_layout E -> file_ok E v i ->
  (size (lg ∪ bitmap_set E) < NBUF)%nat -> (size (lg ∪ bitmap_set E) < e_cap E)%nat ->
  (forall s' v' lg', frep E s' (<[ip := cut NDIRECT i]> ic) v' lg' ∅ il ->
     freed E v v' (blk_range_set v i 0 12) -> lg' ⊆ lg ∪ bitmap_set E -> Q tt s') ->
  wp (for_loop NDIRECT 0 (fun k =>
    i ← get_inode ip;
    a ← of_option "ip->addrs" (i_addrs i !! Z.to_nat k);
    when (c_bool a) (bfree (i_dev i) a ;; upd_inode ip (set_i_addr (Z.to_nat k) 0)))) Q s.
Proof.
  intros Hr Hi HL HF Hn Hc HQ. pose proof (fo_wf _ _ _ HF) as Hwf.
  assert (ip < length ic)%nat as Hlt by (by eapply lookup_lt_Some).
  eapply wp_mono; [apply (wp_for_loop (fun k s' => exists v' lg',
    frep E s' (<[ip := cut (Z.to_nat k) i]> ic) v' lg' ∅ il /\
    freed E v v' (blk_range_set v i 0 k) /\ lg' ⊆ lg ∪ bitmap_set E))|].
  - exists v, lg. rewrite cut_zero, list_insert_id by done. split_and!; [done| |set_solver].
    eapply freed_ext; [apply freed_refl; by eapply vol_ok_frep|]. done.
  - intros k s1 Hk (v1 & lg1 & Hr1 & HF1 & Hlg1). change (Z.of_nat NDIRECT) with 12 in Hk. wp_step.
    eapply wp_get_inode; [done|by apply list_lookup_insert_eq|]. wp_step.
    eapply wp_of_option; [apply cut_lookup; [done|unfold NDIRECT; lia]|].
    replace (Z.to_nat (k + 1)) with (S (Z.to_nat k)) by lia. rewrite blk_range_snoc by lia.
    assert (blkmap v i (0 + k) = iaddr i (Z.to_nat k)) as -> by (unfold blkmap; by rewrite decide_True by lia).
    change (i_dev (cut (Z.to_nat k) i)) with (i_dev i). rewrite (fo_dev _ _ _ HF).
    destruct (decide (iaddr i (Z.to_nat k) = 0)) as [Hz|Hz].
    + rewrite Hz, c_bool_0. unfold when. wp_step. exists v1, lg1.
      rewrite <- cut_skip, union_empty_r_L by (done || unfold NDIRECT; lia). done.
    + rewrite c_bool_nz by done. unfold when. wp_step.
      assert (blkmap v i k = iaddr i (Z.to_nat k)) as Hm by (unfold blkmap; by rewrite decide_True by lia).
      eapply wp_free; [done|done| |done|set_solver|rewrite map_size_empty; lia|lia|].
      { rewrite <- Hm. eapply data_used_freed; [done|done|..].
        - apply (fo_used _ _ _ HF). split; [by rewrite Hm|]. right. exists k. split; [unfold MAXFILE; lia|done].
        - intros (_ & bn & Hbn & Eb)%elem_of_blk_range. assert (k = bn); [|lia].
          apply (fo_inj _ _ _ HF); [unfold MAXFILE; lia..|by rewrite Hm|done]. }
      intros s2 v2 lg2 Hr2 HF2 Hlg2 _. eapply wp_upd_inode; [done|by apply list_lookup_insert_eq|].
      intros s3 Hr3. rewrite cut_next, list_insert_insert_eq in Hr3 by (done || unfold NDIRECT; lia).
      exists v2, lg2. split_and!; [done|by eapply freed_trans|done].
  - intros [] s1 (v1 & lg1 & Hr1 & HF1 & Hlg1). by eapply HQ.
Qed.

(** The blocks that the indirect block names, while it is held. *)
Lemma wp_itrunc_entries E s ic v v0 lg lg0 il i bp (Q : unit -> fstate T -> Prop) :
  frep E s ic v lg {[bp := iaddr i NDIRECT]} il -> fs_layout E -> file_ok E v0 i -> iaddr i NDIRECT <> 0 ->
  freed E v0 v (blk_range_set v0 i 0 12) -> lg ⊆ lg0 ∪ bitmap_set E ->
  (size (lg0 ∪ bitmap_set E) + 1 < NBUF)%nat -> (size (lg0 ∪ bitmap_set E) < e_cap E)%nat ->
  (forall s' v' lg', frep E s' ic v' lg' {[bp := iaddr i NDIRECT]} il ->
     freed E v0 v' (blk_range_set v0 i 0 12 ∪ blk_range_set v0 i 12 128) ->
     lg ⊆ lg' -> lg' ⊆ lg0 ∪ bitmap_set E -> Q tt s') ->
  wp (for_loop NINDIRECT 0 (fun j =>
       d ← bp_data bp;
       let aj := get32 d (4 * Z.to_nat j) in
       when (c_bool aj) (bfree ROOTDEV aj))) Q s.
Proof.
  intros Hr HL HF Hroot HFr Hlg Hn Hc HQ. set (D := blk_range_set v0 i 0 12) in *.
  assert (data_used E v0 (iaddr i NDIRECT)) as [Hrd _] by (apply (fo_used _ _ _ HF); split; [done|by left]).
  eapply wp_mono; [apply (wp_for_loop (fun j s' => exists v' lg',
    frep E s' ic v' lg' {[bp := iaddr i NDIRECT]} il /\ freed E v0 v' (D ∪ blk_range_set v0 i 12 j) /\
    lg ⊆ lg' /\ lg' ⊆ lg0 ∪ bitmap_set E))|].
  - exists v, lg. split_and!; [done| |done|done]. eapply freed_ext; [done|].
    apply set_eq. intros b. rewrite elem_of_union, elem_of_blk_range. split; [by left|].
    intros [?|(_ & bn & ? & _)]; [done|lia].
  - intros j s1 Hj (v1 & lg1 & Hr1 & HF1 & Hsub & Hlg1). change (Z.of_nat NINDIRECT) with 128 in Hj. wp_step.
    eapply wp_fdata; [done|apply lookup_singleton_eq|]. rewrite blk_range_snoc by lia.
    rewrite (freed_data _ _ _ _ _ HF1) by (apply HL || lia).
    assert (get32 (v0 (iaddr i NDIRECT)) (4 * Z.to_nat j) = blkmap v0 i (12 + j)) as ->.
    { unfold blkmap. rewrite !decide_False by (done || lia). f_equal. lia. }
    cbv zeta.
    destruct (decide (blkmap v0 i (12 + j) = 0)) as [Hz|Hz].
    + rewrite Hz, c_bool_0. unfold when. wp_step. exists v1, lg1. by rewrite union_empty_r_L.
    + rewrite c_bool_nz by done. unfold when.
      eapply wp_free; [done|done| |done| |rewrite map_size_singleton; lia|lia|].
      { eapply data_used_freed; [done|done|..].
        - apply (fo_used _ _ _ HF). split; [done|]. right. exists (12 + j). split; [unfold MAXFILE; lia|done].
        - unfold D. rewrite elem_of_union, !elem_of_blk_range. intros [(_ & bn & Hbn & Eb)|(_ & bn & Hbn & Eb)];
            (assert (12 + j = bn); [|lia]; apply (fo_inj _ _ _ HF); [unfold MAXFILE; lia..|done|done]). }
      { intros c Hin. rewrite map_img_singleton_L in Hin. apply elem_of_singleton in Hin as ->. lia. }
      intros s2 v2 lg2 Hr2 HF2 Hlg2 Hsub2. exists v2, lg2. split_and!; [done| |set_solver|done].
      rewrite union_assoc_L. by eapply freed_trans.
  - intros [] s1 (v1 & lg1 & Hr1 & HF1 & Hsub & Hlg1). by eapply HQ.
Qed.

(** The blocks of a file. *)
Definition file_set v i : gset Z := blk_range_set v i 0 12 ∪ blk_range_set v i 12 128 ∪ root_set i.

Definition emptied i : inode := set_i_size 0 (with_addrs (replicate (S NDIRECT) 0) i).

Lemma cut_all i : inode_wf i -> cut (S NDIRECT) i = with_addrs (replicate (S NDIRECT) 0) i.
Proof. intros Hwf. unfold cut. rewrite drop_ge, app_nil_r; [done|]. by rewrite (iw_addrs _ Hwf). Qed.

Lemma emptied_wf i : inode_wf i -> inode_wf (emptied i).
Proof.
  intros []. split; try done. cbn [emptied set_i_size with_addrs i_addrs]. apply Forall_replicate. lia.
Qed.

(** The root block is neither a direct block nor named by itself. *)
Lemma root_not_freed E v i : file_ok E v i -> iaddr i NDIRECT <> 0 ->
  iaddr i NDIRECT ∉ blk_range_set v i 0 12 ∪ blk_range_set v i 12 128.
Proof.
  intros HF Hr. rewrite elem_of_union, !elem_of_blk_range.
  intros [(_ & bn & Hbn & Eb)|(_ & bn & Hbn & Eb)]; (apply (fo_root _ _ _ HF bn); [unfold MAXFILE; lia|congruence|done]).
Qed.

(** The indirect block, when there is one. *)
Lemma wp_itrunc_indirect E s ic v v0 lg lg0 il ip i (Q : unit -> fstate T -> Prop) :
  frep E s (<[ip := cut NDIRECT i]> ic) v lg ∅ il -> ic !! ip = Some i -> fs_layout E -> file_ok E v0 i ->
  freed E v0 v (blk_range_set v0 i 0 12) -> lg ⊆ lg0 ∪ bitmap_set E ->
  (size (lg0 ∪ bitmap_set E) + 1 < NBUF)%nat -> (size (lg0 ∪ bitmap_set E) < e_cap E)%nat ->
  (forall s' v' lg', frep E s' (<[ip := cut (S NDIRECT) i]> ic) v' lg' ∅ il ->
     freed E v0 v' (file_set v0 i) -> lg' ⊆ lg0 ∪ bitmap_set E -> Q tt s') ->
  wp (when (c_bool (iaddr i NDIRECT))
    (bp ← lower (jread ROOTDEV (iaddr i NDIRECT));
     for_loop NINDIRECT 0 (fun j =>
       d ← bp_data bp;
       let aj := get32 d (4 * Z.to_nat j) in
       when (c_bool aj) (bfree ROOTDEV aj)) ;;
     lower (jrelse bp) ;;
     bfree ROOTDEV (iaddr i NDIRECT) ;;
     upd_inode ip (set_i_addr NDIRECT 0))) Q s.
Proof.
  intros Hr Hi HL HF HFr Hlg Hn Hc HQ. pose proof (fo_wf _ _ _ HF) as Hwf.
  assert (ip < length ic)%nat as Hlt by (by eapply lookup_lt_Some). pose proof (subseteq_size _ _ Hlg).
  unfold when at 1. unfold file_set, root_set in HQ. destruct (decide (iaddr i NDIRECT = 0)) as [Hz|Hz].
  - rewrite Hz, c_bool_0. wp_step. eapply HQ; [by rewrite <- cut_skip| |done]. eapply freed_ext; [done|].
    apply set_eq. intros b. rewrite !elem_of_union, !elem_of_blk_range. split; [auto|].
    intros [[?|(Hb & bn & Hbn & Eb)]|?]; [done| |set_solver]. exfalso. apply Hb. rewrite <- Eb.
    unfold blkmap. by rewrite decide_False, decide_True by (done || lia).
  - rewrite c_bool_nz by done. wp_step.
    eapply wp_fread; [done|by eapply root_dom|set_solver|rewrite map_size_empty; lia|].
    intros s1 bp Hbp Hr1. rewrite insert_empty in Hr1. wp_step.
    eapply wp_itrunc_entries; [done..|]. intros s2 v2 lg2 Hr2 HF2 Hsub2 Hlg2. wp_step.
    pose proof (root_not_freed _ _ _ HF Hz) as Hnr.
    assert (data_used E v0 (iaddr i NDIRECT)) as Hrd by (apply (fo_used _ _ _ HF); split; [done|by left]).
    eapply wp_frelse; [done|apply lookup_singleton_eq| |].
    { destruct (frep_release _ _ _ _ _ _ _ (iaddr i NDIRECT) Hr ltac:(set_solver)) as [?|Hold]; [left; set_solver|].
      right. rewrite <- Hold, (freed_data _ _ _ _ _ HF2), (freed_data _ _ _ _ _ HFr); [done|apply HL|apply Hrd|apply HL|apply Hrd]. }
    intros s3 Hr3. rewrite delete_singleton_eq in Hr3. wp_step.
    eapply wp_free; [done|done|by eapply data_used_freed|done|set_solver|rewrite map_size_empty; lia|lia|].
    intros s4 v4 lg4 Hr4 HF4 Hlg4 _. eapply wp_upd_inode; [done|by apply list_lookup_insert_eq|].
    intros s5 Hr5. rewrite cut_next, list_insert_insert_eq in Hr5 by done.
    eapply HQ; [done|by eapply freed_trans|done].
Qed.

(** The disk after the file [i] has been freed and its inode stored as [i']. *)
Record truncated E v i i' v' : Prop := {
  tr_vol : vol_ok v';
  tr_used : forall c, 0 <= c < sb_size (e_sb E) ->
    used (e_sb E) v' c = used (e_sb E) v c && bool_decide (c ∉ file_set v i);
  tr_data : forall b, data_start (e_sb E) <= b -> v' b = v b;
  tr_synced : synced E v' i';
  tr_inodes : forall n j, 0 <= n < sb_ninodes (e_sb E) -> n <> i_inum i ->
    disk_inode E v' n j = disk_inode E v n j
}.

Lemma stored_truncated E v i v2 i' : freed E v v2 (file_set v i) -> fs_layout E -> inode_wf i' ->
  i_inum i' = i_inum i -> 0 <= i_inum i < sb_ninodes (e_sb E) -> truncated E v i i' (stored E v2 i').
Proof.
  intros HF HL Hwf Hin Hn. rewrite <- Hin in Hn. pose proof (fd_vol _ _ _ _ HF) as Hv. split.
  - apply vol_ok_upd; [done|]. by apply stored_ok.
  - intros c Hc. unfold stored. rewrite touch_used; [by apply (fd_used _ _ _ _ HF)| |done].
    by apply stored_bitmap.
  - intros b Hb. rewrite stored_data by done. by eapply freed_data; [|apply HL|].
  - by apply stored_synced.
  - intros n j Hnn Hne. rewrite stored_inode by (done || lia || congruence). unfold disk_inode.
    rewrite (fd_same _ _ _ _ HF); [done|]. intros c Hc. pose proof (bitmap_after _ _ (fl_bm _ HL) Hc).
    destruct (fl_inode _ HL n Hnn). lia.
Qed.

Lemma wp_itrunc E s ic v lg il ip i (Q : unit -> fstate T -> Prop) :
  frep E s ic v lg ∅ il -> ic !! ip = Some i -> fs_layout E -> file_ok E v i ->
  0 <= i_inum i < sb_ninodes (e_sb E) ->
  (size (lg ∪ bitmap_set E) + 1 < NBUF)%nat -> (size (lg ∪ bitmap_set E) < e_cap E)%nat ->
  (forall s' v2 lg', frep E s' (<[ip := emptied i]> ic) (stored E v2 (emptied i)) lg' ∅ il ->
     freed E v v2 (file_set v i) ->
     lg' ⊆ lg ∪ bitmap_set E ∪ {[IBLOCK (i_inum i) (e_sb E)]} -> Q tt s') ->
  wp (itrunc ip) Q s.
Proof.
  intros Hr Hi HL HF Hin Hn Hc HQ. pose proof (fo_wf _ _ _ HF) as Hwf.
  assert (ip < length ic)%nat as Hlt by (by eapply lookup_lt_Some). unfold itrunc. wp_step.
  eapply wp_itrunc_direct; [done|done|done|done|lia|lia|]. intros s1 v1 lg1 Hr1 HF1 Hlg1. wp_step.
  eapply wp_get_inode; [done|by apply list_lookup_insert_eq|]. wp_step.
  eapply wp_of_option; [by apply cut_lookup|]. wp_step.
  change (i_dev (cut NDIRECT i)) with (i_dev i). rewrite (fo_dev _ _ _ HF).
  eapply wp_itrunc_indirect; [done..|]. intros s2 v2 lg2 Hr2 HF2 Hlg2. wp_step.
  eapply wp_upd_inode; [done|by apply list_lookup_insert_eq|]. intros s3 Hr3.
  rewrite list_insert_insert_eq, cut_all in Hr3 by done. pose proof (subseteq_size _ _ Hlg2).
  pose proof (emptied_wf i Hwf) as Hwf'.
  eapply wp_iupdate; [done|by apply list_lookup_insert_eq|apply (fo_dev _ _ _ HF)|apply Hwf'|
    by apply (fl_inode _ HL)|set_solver|rewrite map_size_empty; lia|lia|].
  intros s4 Hr4. eapply HQ; [exact Hr4|done|]. cbn. set_solver.
Qed.

(** The entry and the disk after [iput] has freed the inode. *)
Definition freed_inode i : inode := set_i_type 0 (emptied i).

Lemma truncated_stored E v i j w i' : truncated E v i j w -> fs_layout E -> inode_wf i' ->
  i_inum i' = i_inum i -> 0 <= i_inum i < sb_ninodes (e_sb E) -> truncated E v i i' (stored E w i').
Proof.
  intros HT HL Hwf Hin Hn. rewrite <- Hin in Hn. pose proof (tr_vol _ _ _ _ _ HT) as Hv. split.
  - apply vol_ok_upd; [done|]. by apply stored_ok.
  - intros c Hc. unfold stored. rewrite touch_used; [by apply (tr_used _ _ _ _ _ HT)| |done].
    by apply stored_bitmap.
  - intros b Hb. rewrite stored_data by done. by apply (tr_data _ _ _ _ _ HT).
  - by apply stored_synced.
  - intros n j' Hnn Hne. rewrite stored_inode by (done || lia || congruence).
    by apply (tr_inodes _ _ _ _ _ HT).
Qed.

(** The last reference to an inode without links. *)
Lemma wp_iput_free E s ic v lg il ip i (Q : unit -> fstate T -> Prop) :
  frep E s ic v lg ∅ il -> ic !! ip = Some i -> fs_layout E -> file_ok E v i ->
  0 <= i_inum i < sb_ninodes (e_sb E) -> i_valid i = 1 -> i_nlink i = 0 -> i_ref i = 1 ->
  slocked (il ip) = 0 ->
  (size (lg ∪ bitmap_set E) + 2 < NBUF)%nat -> (size (lg ∪ bitmap_set E) + 1 < e_cap E)%nat ->
  (forall s' v' lg' il', frep E s' (<[ip := set_i_ref 0 (set_i_valid 0 (freed_inode i))]> ic) v' lg' ∅ il' ->
     truncated E v i (freed_inode i) v' -> slocked (il' ip) = 0 -> (forall j, j <> ip -> il' j = il j) ->
     lg' ⊆ lg ∪ bitmap_set E ∪ {[IBLOCK (i_inum i) (e_sb E)]} -> Q tt s') ->
  wp (iput ip) Q s.
Proof.
  intros Hr Hi HL HF Hin Hv Hnl Href Hl Hn Hc HQ. unfold iput. wp_step. eapply wp_filock; [done..|].
  intros s1 Hr1. wp_step. eapply wp_get_inode; [done..|]. rewrite Hv, Hnl. unfold when at 1.
  assert (ip < length ic)%nat as Hlt by (by eapply lookup_lt_Some).
  rewrite c_bool_nz, bool_decide_eq_true_2 by done. cbn [andb]. wp_steps.
  eapply wp_facquire; [done|]. intros m' Hm'. wp_step. eapply wp_get_locked; [done..|]. wp_step.
  eapply wp_frelease; [done..|]. intros s2 Hr2. rewrite Href, bool_decide_eq_true_2 by done. unfold when. wp_steps.
  eapply wp_itrunc; [done|done|done|done|done|lia|lia|]. intros s3 v3 lg3 Hr3 HF3 Hlg3. wp_step.
  pose proof (emptied_wf i (fo_wf _ _ _ HF)) as Hwf.
  pose proof (stored_truncated E v i v3 (emptied i) HF3 HL Hwf eq_refl Hin) as HT3.
  eapply wp_upd_inode; [done|by apply list_lookup_insert_eq|]. intros s4 Hr4.
  rewrite list_insert_insert_eq in Hr4. fold (freed_inode i) in Hr4. wp_step.
  assert (inode_wf (freed_inode i)) as Hwf' by (destruct Hwf; split; try done; cbn; lia).
  assert (size lg3 <= size (lg ∪ bitmap_set E) + 1)%nat as Hsz
    by (eapply size_grow; [exact Hlg3|by rewrite size_singleton]).
  eapply wp_iupdate; [done|by apply list_lookup_insert_eq|apply (fo_dev _ _ _ HF)|apply Hwf'|
    by apply (fl_inode _ HL)|set_solver|rewrite map_size_empty; lia|lia|].
  intros s5 Hr5. eapply wp_upd_inode; [done|by apply list_lookup_insert_eq|]. intros s6 Hr6.
  rewrite list_insert_insert_eq in Hr6. wp_step. eapply wp_fiunlock; [done|]. intros s7 Hr7. wp_step.
  eapply wp_facquire; [done|]. intros m7 Hm7. wp_step.
  eapply wp_upd_locked; [done|by apply list_lookup_insert_eq|done|]. intros s8 Hr8 Hm8.
  rewrite list_insert_insert_eq in Hr8. cbn [i_ref set_i_valid freed_inode set_i_type emptied set_i_size with_addrs] in Hr8.
  rewrite Href, Z.sub_diag in Hr8. eapply wp_frelease; [done..|]. intros s9 Hr9. eapply HQ; [exact Hr9|..].
  - by eapply truncated_stored.
  - unfold upd_il. by rewrite decide_True.
  - intros j Hj. unfold upd_il. by rewrite !decide_False.
  - cbn. set_solver.
Qed.
End itrunc.
