(* ===== verification/FsExample.v ===== *)
(** * A small file system

    A disk image of 100 blocks as [mkfs] lays it out, with a root directory
    and a file, and the state of a kernel in the middle of a system call on
    it.  The theorems on the file system are applied to it. *)

From S2P Require Import Prelude Bytes Params Machine BlockCache Bio BioSpec Journal Log LogSpec LogTx Crash CString Fs FsRep FsBlocks FsInodes FsContent FsData FsDir FsPath.
Local Open Scope Z_scope.

(** ** Files without an indirect block, decided *)

Definition small_fileb (E : fenv) (v : Z -> list Z) (i : inode) : bool :=
  bool_decide (iaddr i NDIRECT = 0) &&
  forallb (fun bn => let a := blkmap v i bn in
     bool_decide (a = 0) ||
     (bool_decide (data_start (e_sb E) <= a) && bool_decide (a < sb_size (e_sb E)) && used (e_sb E) v a &&
      forallb (fun bn' => bool_decide (bn = bn') || negb (bool_decide (blkmap v i bn' = a))) (seqZ 0 12)))
    (seqZ 0 12).

Lemma small_file_ok E v i : inode_wf i -> i_dev i = ROOTDEV -> small_fileb E v i = true -> file_ok E v i.
Proof.
  intros Hwf Hd [Hr%bool_decide_eq_true Hall]%andb_true_iff. rewrite forallb_forall in Hall.
  assert (forall bn, 0 <= bn < MAXFILE -> blkmap v i bn <> 0 -> 0 <= bn < 12 /\ data_used E v (blkmap v i bn) /\
    forall bn', 0 <= bn' < 12 -> bn <> bn' -> blkmap v i bn' <> blkmap v i bn) as Hb.
  { intros bn Hbn Hm. assert (bn < 12) as Hlt.
    { apply Z.nle_gt. intros Hge. apply Hm. unfold blkmap. by rewrite decide_False, decide_True by lia. }
    split; [lia|]. specialize (Hall bn ltac:(apply list_elem_of_In, elem_of_seqZ; lia)). cbv beta zeta in Hall.
    rewrite (bool_decide_eq_false_2 (blkmap v i bn = 0)) in Hall by done. cbn [orb] in Hall.
    rewrite !andb_true_iff, !bool_decide_eq_true, forallb_forall in Hall. destruct Hall as [[[? ?] ?] Hne].
    split; [done|]. intros bn' Hbn' Hn. specialize (Hne bn' ltac:(apply list_elem_of_In, elem_of_seqZ; lia)).
    rewrite bool_decide_eq_false_2 in Hne by done. cbn [orb] in Hne. by apply negb_true_iff, bool_decide_eq_false in Hne. }
  split; [done|done|..].
  - intros b [Hnz [->|(bn & Hbn & <-)]]; [done|]. by apply Hb.
  - intros bn bn' Hbn Hbn' Hm Em. destruct (Hb bn Hbn Hm) as (? & _ & Hne).
    destruct (Hb bn' Hbn' ltac:(congruence)) as (Hr' & _). destruct (decide (bn = bn')); [done|].
    by destruct (Hne bn' Hr').
  - intros bn Hbn Hm. by rewrite Hr.
Qed.

(** ** The image *)

Definition xsb : superblock := Superblock 100 66 8 30 2 32 33.
Definition pad (l : list Z) : list Z := l ++ replicate (BSIZE - length l) 0.
Definition xdinode (ty nlink sz : Z) (a : list Z) : list Z :=
  le_bytes 2 ty ++ le_bytes 2 0 ++ le_bytes 2 0 ++ le_bytes 2 nlink ++ le_bytes 4 sz ++
  concat (le_bytes 4 <$> a) ++ replicate (52 - 4 * length a) 0.
Definition xdirent (inum : Z) (name : list Z) : list Z := le_bytes 2 inum ++ name ++ replicate (14 - length name) 0.

(** Inode 1 is the root directory in block 34, inode 2 a file of 600 bytes in
    blocks 35 and 36; blocks 0 to 36 are used. *)
Definition ximg_list : list (Z * list Z) :=
  [(1, pad (concat (le_bytes 4 <$> [100; 66; 8; 30; 2; 32; 33])));
   (32, pad (replicate 64 0 ++ xdinode T_DIR 1 48 [34] ++ xdinode T_FILE 1 600 [35; 36]));
   (33, pad [255; 255; 255; 255; 31]);
   (34, pad (xdirent 1 [46] ++ xdirent 1 [46; 46] ++ xdirent 2 [97]));
   (35, replicate BSIZE 7);
   (36, pad (replicate 88 9))].
Fixpoint assoc (l : list (Z * list Z)) (b : Z) : list Z :=
  match l with
  | [] => zero_block
  | (k, d) :: l' => if decide (b = k) then d else assoc l' b
  end.
Definition ximg : Z -> list Z := assoc ximg_list.
Definition xdisk : disk := Disk 100 ximg [].

Lemma ximg_ok b : block_ok (ximg b).
Proof.
  unfold ximg. assert (forallb (fun p => Nat.eqb (length (snd p)) BSIZE && bytes_okb (snd p)) ximg_list = true) as Hall
    by (vm_compute; reflexivity).
  induction ximg_list as [|[k d] l IH]; [apply zero_block_ok|]. cbn [forallb assoc snd] in *.
  apply andb_true_iff in Hall as [[Hl%Nat.eqb_eq Hd]%andb_true_iff Hall]. case_decide; [|auto].
  split; [done|by apply bytes_okb_ok].
Qed.

Lemma xdisk_ok : disk_ok xdisk.
Proof. split; [apply ximg_ok|constructor]. Qed.

(** ** The kernel *)

(** One system call is in the transaction; the process's directory is the
    root, in entry 0 of the inode cache, the file is in entry 1. *)
Definition xmach : machine :=
  Machine true 0 [Cpu 0 0 false (Some 0%nat)] ∅ ∅
    [Proc 4096 0 0 RUNNING 1 None
       (Trapframe 0 0 0 0 0 0 0 0 0 0 0 0 0 0 0 0 0 0 0) (Context 0 0 0 0 0) None 0 [] (Some 0%nat) []].
Definition xk : kstate :=
  Lstate (Log 2 30 1 0 1 (Logheader 0 (replicate LOGSIZE 0))) (Bstate xmach binit xdisk).
Definition xdir : inode := Inode ROOTDEV 1 1 1 T_DIR 0 0 1 48 (34 :: replicate 12 0).
Definition xfile : inode := Inode ROOTDEV 2 1 1 T_FILE 0 0 1 600 (35 :: 36 :: replicate 11 0).
Definition xic : list inode := xdir :: xfile :: replicate 48 (Inode 0 0 0 0 0 0 0 0 0 (replicate 13 0)).
Definition xs : fstate kstate := Fstate xsb xic xk.
Definition xE : fenv := Fenv (Geometry 2 30 100) 29 ximg xsb xmach.
Definition xil : nat -> sleeplock := fun _ => initsleeplock.

Lemma xmach_fresh : fresh xmach.
Proof. split_and!; [by split|by exists 1|done]. Qed.

Lemma xk_inv : jv_inv jv xk.
Proof.
  exists []. split; cbn [l_sub xk l_log]; try done.
  - apply binit_inv; [apply xmach_fresh..|apply xdisk_ok|apply xmach_fresh].
  - split; try done. split; try done; try lia; try (cbn; lia); constructor.
  - cbn. unfold NBUF. lia.
Qed.

Lemma xk_idle : jv_held jv xk = ∅ /\ jv_logged jv xk = ∅.
Proof. split; vm_compute; reflexivity. Qed.

Lemma xs_rep : frep xE xs xic ximg ∅ ∅ xil.
Proof.
  destruct xk_idle as [Hh Hl]. split; try done.
  - exact xk_inv.
Qed.

(** ** The image is well formed *)

Lemma x_layout : fs_layout xE.
Proof.
  split.
  - split; cbn; try lia. intros b Hb. unfold e_dom, outside, BBLOCK, BPB. cbn.
    rewrite Z.div_small by lia. lia.
  - intros n Hn. change (0 <= n < 8) in Hn. assert (IBLOCK n (e_sb xE) = 32) as Eb.
    { unfold IBLOCK, IPB. rewrite Z.div_small by lia. done. }
    split; [split; rewrite ?Eb; unfold e_dom, outside; cbn; lia|]. by rewrite Eb.
  - intros b Hb. change (34 <= b < 100) in Hb. unfold e_dom, outside. cbn. lia.
Qed.

Lemma x_used b : 0 <= b < 100 -> used xsb ximg b = bool_decide (b < 37).
Proof.
  intros Hb. assert (forallb (fun b => Bool.eqb (used xsb ximg b) (bool_decide (b < 37))) (seqZ 0 100) = true) as Hall
    by (vm_compute; reflexivity).
  rewrite forallb_forall in Hall. apply eqb_prop, Hall, list_elem_of_In, elem_of_seqZ. lia.
Qed.

Lemma x_meta : meta_used xE ximg.
Proof.
  intros b Hb. cbn in Hb. change (e_sb xE) with xsb. rewrite x_used by lia.
  intros Hlt%bool_decide_eq_false. change (data_start xsb) with 34. lia.
Qed.

Lemma x_nfree : nfree xsb ximg = 63%nat.
Proof. vm_compute. reflexivity. Qed.

Lemma x_bitmap : (size (bitmap_set xE) <= 1)%nat.
Proof. apply bitmap_set_small. done. Qed.

Lemma inode_wf_dec i : bool_decide (-2 ^ 15 <= i_type i < 2 ^ 15) && bool_decide (-2 ^ 15 <= i_major i < 2 ^ 15) &&
  bool_decide (-2 ^ 15 <= i_minor i < 2 ^ 15) && bool_decide (-2 ^ 15 <= i_nlink i < 2 ^ 15) &&
  bool_decide (0 <= i_size i < 2 ^ 32) && Nat.eqb (length (i_addrs i)) (S NDIRECT) &&
  forallb (fun a => bool_decide (0 <= a < 2 ^ 32)) (i_addrs i) = true -> inode_wf i.
Proof.
  rewrite !andb_true_iff, !bool_decide_eq_true, Nat.eqb_eq, forallb_forall.
  intros [[[[[[? ?] ?] ?] ?] ?] Ha]. split; try done. apply Forall_forall. intros a Hin.
  apply list_elem_of_In in Hin. by apply Ha, bool_decide_eq_true in Hin.
Qed.

Lemma x_dir_file : file_ok xE ximg xdir.
Proof. apply small_file_ok; [apply inode_wf_dec; vm_compute; reflexivity|done|vm_compute; reflexivity]. Qed.
Lemma x_file_file : file_ok xE ximg xfile.
Proof. apply small_file_ok; [apply inode_wf_dec; vm_compute; reflexivity|done|vm_compute; reflexivity]. Qed.

(** All blocks up to the size are there. *)
Lemma dense_dec v i : i_size i <= MAXBYTES ->
  forallb (fun bn => negb (bool_decide (blkmap v i bn = 0))) (seqZ 0 ((i_size i + 511) / 512)) = true -> file_dense v i.
Proof.
  intros Hm Hall. rewrite forallb_forall in Hall. split; [done|]. intros o Ho.
  assert (0 <= o / BSIZEz < (i_size i + 511) / 512) as Hr.
  { unfold BSIZEz. split; [apply Z.div_pos; lia|]. apply Z.div_lt_upper_bound; [lia|].
    pose proof (Z.div_mod (i_size i + 511) 512 ltac:(lia)). pose proof (Z.mod_pos_bound (i_size i + 511) 512 ltac:(lia)). lia. }
  specialize (Hall (o / BSIZEz) ltac:(apply list_elem_of_In, elem_of_seqZ; lia)).
  by apply negb_true_iff, bool_decide_eq_false in Hall.
Qed.

Lemma x_dir_dense : file_dense ximg xdir.
Proof. apply dense_dec; [by vm_compute|vm_compute; reflexivity]. Qed.
Lemma x_file_dense : file_dense ximg xfile.
Proof. apply dense_dec; [by vm_compute|vm_compute; reflexivity]. Qed.

Lemma x_dir_ok : dir_ok ximg xdir.
Proof. split; [done|done|apply x_dir_dense]. Qed.

Lemma x_dino : dino xE ximg 1 = xdir /\ dino xE ximg 2 = xfile.
Proof. split; vm_compute; reflexivity. Qed.

Lemma x_types n : inum_ok xE n -> i_type (dino xE ximg n) <> 0 -> n = 1 \/ n = 2.
Proof.
  intros Hn. unfold inum_ok in Hn. cbn in Hn.
  assert (forallb (fun n => bool_decide (i_type (dino xE ximg n) = 0) || bool_decide (n = 1) || bool_decide (n = 2))
    (seqZ 0 8) = true) as Hall by (vm_compute; reflexivity).
  rewrite forallb_forall in Hall. specialize (Hall n ltac:(apply list_elem_of_In, elem_of_seqZ; lia)).
  rewrite !orb_true_iff, !bool_decide_eq_true in Hall. tauto.
Qed.

Lemma x_dents : (fun k => de_inum (dent ximg xdir k)) <$> seqZ 0 3 = [1; 1; 2].
Proof. vm_compute. reflexivity. Qed.

Lemma x_tree : tree_ok xE ximg.
Proof.
  destruct x_dino as [E1 E2]. assert (i_type xfile = T_FILE) as Ef by done. split.
  - intros n Hn Ht. destruct (x_types n Hn Ht) as [->| ->]; [rewrite E1; apply x_dir_file|rewrite E2; apply x_file_file].
  - intros n Hn Ht. by destruct (x_types n Hn Ht) as [->| ->]; rewrite ?E1, ?E2.
  - intros n Hn Ht. destruct (x_types n Hn ltac:(by rewrite Ht)) as [->| ->]; [rewrite E1; apply x_dir_ok|].
    by rewrite E2 in Ht.
  - intros n k Hn Ht. destruct (x_types n Hn ltac:(by rewrite Ht)) as [->| ->]; [|by rewrite E2 in Ht].
    rewrite E1. intros Hk m Hm. assert (0 <= k < 3) as Hk' by exact Hk.
    pose proof x_dents as Hd. apply (f_equal (.!! Z.to_nat k)) in Hd. rewrite list_lookup_fmap, lookup_seqZ_lt in Hd by lia.
    cbn [fmap option_fmap option_map] in Hd. replace (0 + Z.of_nat (Z.to_nat k)) with k in Hd by lia. fold m in Hd.
    destruct (Z.to_nat k) as [|[|[|]]] eqn:Ek; [..|lia]; cbn in Hd; injection Hd as ->;
      (split; [unfold inum_ok; cbn; lia|rewrite ?E1, ?E2; done]).
Qed.

Lemma x_entry k i : xic !! k = Some i -> 0 < i_ref i -> (k = 0%nat /\ i = xdir) \/ (k = 1%nat /\ i = xfile).
Proof.
  intros Hi Hr. destruct k as [|[|k]]; cbn in Hi; [left; by simplify_eq|right; by simplify_eq|].
  change (replicate 48 (Inode 0 0 0 0 0 0 0 0 0 (replicate 13 0)) !! k = Some i) in Hi.
  apply lookup_replicate in Hi as [-> _]. cbn in Hr. lia.
Qed.

Lemma x_icache : icache_ok xic.
Proof.
  split.
  - by vm_compute.
  - intros k i Hi. destruct (decide (0 <= i_ref i)); [done|]. exfalso.
    destruct k as [|[|k]]; cbn in Hi; [simplify_eq; cbn in *; lia..|].
    change (replicate 48 (Inode 0 0 0 0 0 0 0 0 0 (replicate 13 0)) !! k = Some i) in Hi.
    apply lookup_replicate in Hi as [-> _]. cbn in *. lia.
  - intros j k a b dev inum Hj Hk (Ha & <- & <-) (Hb & _ & Hn).
    destruct (x_entry _ _ Hj Ha) as [[-> ->]|[-> ->]], (x_entry _ _ Hk Hb) as [[-> ->]|[-> ->]]; done.
Qed.

Lemma x_synced : icache_synced xE ximg xic.
Proof.
  destruct x_dino as [E1 E2]. intros k i Hi Hr.
  destruct (x_entry _ _ Hi Hr) as [[-> ->]|[-> ->]]; cbn [xdir xfile i_dev i_inum i_valid];
    rewrite ?E1, ?E2; split_and!; try done; right; split; try done; vm_compute; reflexivity.
Qed.

Lemma x_room : cache_room xic.
Proof.
  split; [intros k j Hj; by apply (ic_ref _ x_icache k)|]. exists 2%nat, 3%nat. split_and!; [done|..]; by eexists.
Qed.

Lemma x_ready : walk_ready xE xs xic ximg ∅ xil.
Proof.
  split; [apply xs_rep|done|apply x_layout|apply x_tree|apply x_icache|apply x_synced|apply x_room|].
  rewrite size_empty. unfold NBUF. lia.
Qed.
