(* ===== verification/FsTheorems.v ===== *)
(** * Theorems on the file system

    What the functions of [fs.c] promise to the system calls, inside a
    transaction of any layer that meets the interface of the log.  Every
    statement is of total correctness: the function returns, without panic
    and without blocking. *)

From S2P Require Import Prelude Bytes Params Machine BlockCache Bio BioSpec Journal Log LogSpec LogTx Crash CString Fs FsRep FsBlocks FsInodes FsContent FsData FsDir FsPath FsTrunc FsExample.
Local Open Scope Z_scope.

Section theorems.
Context {T : Type} `{JournalSpec T}.
Variable rd : Z -> option (nat -> Z -> M (fstate T) (Z * list Z)).
Variable wr : Z -> option (nat -> list Z -> Z -> M (fstate T) Z).
Implicit Types (E : fenv) (s : fstate T) (v : Z -> list Z) (lg : gset Z)
  (ic : list inode) (il : nat -> sleeplock) (i : inode).

(** A file or directory, loaded in entry [ip] of the inode cache, in a well
    formed file system. *)
Record file_ready E s ic v lg il ip i : Prop := {
  fy_rep : frep E s ic v lg ∅ il;
  fy_entry : ic !! ip = Some i;
  fy_layout : fs_layout E;
  fy_meta : meta_used E v;
  fy_file : file_ok E v i;
  fy_type : i_type i <> T_DEV;
  fy_dense : file_dense v i;
  fy_inum : 0 <= i_inum i < sb_ninodes (e_sb E)
}.

(** Free blocks, buffers and space in the log for a change of [n] blocks. *)
Record op_room E v lg (n : nat) : Prop := {
  or_free : (2 * n <= nfree (e_sb E) v)%nat;
  or_buf : (size (lg ∪ bitmap_set E) + n + 3 < NBUF)%nat;
  or_log : (size (lg ∪ bitmap_set E) + n + 2 < e_cap E)%nat
}.

(** C5: [writei] writes.  Where [off] and the end of the bytes are in range and
    the volume has the blocks that are missing, it returns their number; the
    file has them at [off] and its old bytes elsewhere (bytes between blocks
    that had to be allocated are zero), its size has grown to include them,
    its inode is stored on disk, and the blocks of other files and the inodes
    of other files are untouched.  It adds to the transaction no more than the
    blocks written to, an indirect block, the inode and the bitmap. *)
Theorem writei_correct E s ic v lg il ip i src off :
  let n := Z.of_nat (length src) in
  file_ready E s ic v lg il ip i -> op_room E v lg (nblocks off n) ->
  bytes_ok src -> 0 <= off < 2 ^ 32 -> n < 2 ^ 32 -> ~ writei_bad i off n ->
  wp (writei wr ip src off n) (fun r s' => r = n /\ exists v' i' lg',
    frep E s' (<[ip := i']> ic) v' lg' ∅ il /\ written E v i off src v' i' /\
    (size lg' <= size (lg ∪ bitmap_set E) + nblocks off n + 2)%nat) s.
Proof.
  intros n [] [] Hb Hoff Hn Hok. eapply wp_writei; try done; [lia|]. intros s' v' i' lg' Hr HW Hlg.
  split; [done|]. by exists v', i', lg'.
Qed.

(** C6: what was written is read back, and what the file held before the write
    is read with the new bytes in their place. *)
Theorem write_read E s ic v lg il ip i src off :
  let n := Z.of_nat (length src) in
  file_ready E s ic v lg il ip i -> op_room E v lg (nblocks off n) ->
  bytes_ok src -> 0 <= off < 2 ^ 32 -> n < 2 ^ 32 -> ~ writei_bad i off n ->
  let size' := Z.max (i_size i) (off + n) in
  wp (writei wr ip src off n ;;
      a ← readi rd ip off n;
      b ← readi rd ip 0 size';
      mret (a, b))
    (fun r _ => r = ((n, src), (size', patch off src (fbyte v i) <$> seqZ 0 size'))) s.
Proof.
  intros n [] [] Hb Hoff Hn Hok size'. wp_step. unfold writei_bad in Hok.
  assert (MAXBYTES < 2 ^ 31) as Hmb by (vm_compute; reflexivity).
  eapply wp_writei; try done; [lia|]. intros s1 v1 i1 lg1 Hr1 HW Hlg1. wp_step.
  pose proof (wr_size _ _ _ _ _ _ _ HW) as Hsz. fold n size' in Hsz.
  assert (i_type i1 <> T_DEV) as Hty.
  { destruct (wr_same _ _ _ _ _ _ _ HW) as [z [a Ha]]. apply (f_equal i_type) in Ha. cbn in Ha. congruence. }
  assert (<[ip := i1]> ic !! ip = Some i1) as Hi1 by (apply list_lookup_insert_eq; by eapply lookup_lt_Some).
  pose proof (wr_dense _ _ _ _ _ _ _ HW) as Hd. pose proof (proj1 Hd) as Hmax.
  eapply wp_readi; [done|done|done|apply HW|lia|done|done|lia|lia|]. intros s2 Hr2. wp_step.
  eapply wp_readi; [done|done|done|apply HW|lia|done|done|lia|lia|]. intros s3 Hr3. wp_step.
  unfold readi_result. rewrite !decide_False by lia. cbv zeta. rewrite Hsz, Z.min_l, Z.min_l by lia.
  f_equal; f_equal.
  - unfold fbytes. apply list_eq. intros k. rewrite list_lookup_fmap.
    destruct (decide (k < length src)%nat) as [Hk|Hk].
    + rewrite lookup_seqZ_lt by lia. cbn [fmap option_fmap option_map].
      rewrite (wr_byte _ _ _ _ _ _ _ HW) by lia. unfold patch. rewrite decide_True by lia.
      replace (Z.to_nat (off + Z.of_nat k - off)) with k by lia. rewrite nth_lookup.
      by destruct (lookup_lt_is_Some_2 src k Hk) as [x ->].
    + rewrite lookup_seqZ_ge, lookup_ge_None_2 by lia. done.
  - apply list_fmap_ext. intros k o Ho. apply lookup_seqZ in Ho as [-> Ho].
    apply (wr_byte _ _ _ _ _ _ _ HW). lia.
Qed.

(** C10: [readi] returns the bytes of the file from [off], as many as were
    asked for and the file has; [-1] if [off] is behind its end or the sum
    wraps around; and changes nothing. *)
Theorem readi_correct E s ic v lg il ip i off n :
  file_ready E s ic v lg il ip i -> (size lg < NBUF)%nat -> 0 <= off < 2 ^ 32 -> 0 <= n < 2 ^ 32 ->
  wp (readi rd ip off n) (fun r s' =>
    r = (if decide (i_size i < off \/ 2 ^ 32 <= off + n) then (-1, [])
         else let m := Z.min n (i_size i - off) in (m, fbyte v i <$> seqZ off m)) /\
    frep E s' ic v lg ∅ il) s.
Proof. intros [] Hn Hoff Hnn. eapply wp_readi; try done. Qed.

(** C4: path lookup.  [namex] walks the directory tree on disk: it returns an
    entry of the inode cache that holds the inode where the walk along the
    elements of the path ends (the directory of the last element for
    [nameiparent], whose name is in the buffer), or null if the walk fails.
    All inodes are unlocked again, the reference count of the entry returned
    is one more than before and no other reference is kept or lost. *)
Theorem namex_correct E s ic v lg il path parent name n :
  walk_ready E s ic v lg il -> path_start s ic path n -> 0 ∈ path -> length name = DIRSIZ ->
  inum_ok E n -> i_type (dino E v n) <> 0 ->
  wp (namex rd path parent name) (fun r s' => exists ic' il',
    frep E s' ic' v lg ∅ il' /\ unlocked il' /\
    match walk E v parent n (elems path) with
    | Some m => exists ip, fst r = Some ip /\ at_inode E v ic ic' ip m /\
        (parent = true -> exists e, last (elems path) = Some e /\ cname DIRSIZ (snd r) = cname DIRSIZ e)
    | None => fst r = None /\ at_none E v ic ic'
    end) s.
Proof.
  intros Hw Hstart Hp Hl Hn Ht. eapply wp_namex; [done..|]. intros s' ic' il' name' Hu Hr.
  destruct (walk E v parent n (elems path)).
  - intros ip' Hat Hname. exists ic', il'. split_and!; [done|done|]. by exists ip'.
  - intros Hat. by exists ic', il'.
Qed.

(** C7: directories.  After [dirlink] of a name that the directory does not
    have, [dirlookup] finds the name, with the inode that was linked, and
    every other name means what it did before. *)
Theorem dirlink_dirlookup E s ic v lg il dp i name inum :
  file_ready E s ic v lg il dp i -> dir_ok v i -> op_room E v lg 1 ->
  readable DIRSIZ name -> bytes_ok name -> (exists k j, k <> dp /\ ic !! k = Some j /\ i_ref j = 0) ->
  dir_find v i name = None -> dir_slot v i * 16 + 16 <= MAXBYTES -> 0 < inum < 2 ^ 16 ->
  wp (r ← dirlink rd wr dp name inum; q ← dirlookup rd dp name; mret (r, q)) (fun r s' =>
    exists ip v' i' lg' ic', r = (0, Some (ip, dir_slot v i * 16)) /\
      iget_post (<[dp := i']> ic) ROOTDEV inum ip ic' /\ frep E s' ic' v' lg' ∅ il /\
      file_ok E v' i' /\ dir_ok v' i' /\
      forall nm, cname DIRSIZ nm <> cname DIRSIZ name -> dir_find v' i' nm = dir_find v i nm /\
        forall k, dir_find v i nm = Some k -> de_inum (dent v' i' k) = de_inum (dent v i k)) s.
Proof.
  intros [] Hdir [] Hname Hbytes (k0 & j0 & Hk0 & Hj0 & Hz0) Hnone Hmax Hin. wp_step.
  assert (0 <= ndent i) as Hnd by (apply Z.div_pos; [apply (iw_size _ (fo_wf _ _ _ fy_file0))|lia]).
  destruct (dir_slot_spec v i Hnd) as [Hk Hfree].
  eapply wp_dirlink; [done|done|done|done|done|done|done|done|done|by eauto|done|done|lia|lia|lia|].
  intros s1 v1 i1 lg1 Hr1 HW Hlg1. wp_step.
  assert (u16 inum = inum) as Hu by (unfold u16; by rewrite Z.mod_small by lia).
  pose proof (linked_find E v i _ name inum v1 i1 HW fy_file0 Hdir Hk Hmax Hnone ltac:(lia)) as Hfind.
  pose proof (linked_dir_ok E v i _ name inum v1 i1 HW Hdir) as Hdir1.
  eapply wp_dirlookup; [done|apply list_lookup_insert_eq; by eapply lookup_lt_Some|done|apply HW|lia|done|done| |].
  { exists k0, j0. by rewrite list_lookup_insert_ne. }
  unfold dirlookup_post. rewrite Hfind. intros s2 ip ic2 Hpost Hr2. wp_step.
  rewrite (linked_dent E v i _ name inum v1 i1 HW), decide_True, de_inum_new, Hu in Hpost by (done || lia).
  exists ip, v1, i1, lg1, ic2. split_and!; try done; [apply HW|]. intros nm Hne.
  split; [by eapply linked_find_other|]. intros k Hk'. destruct (dir_find_entry _ _ _ _ Hk') as [Hkr [Hnz _]].
  rewrite (linked_dent E v i _ name inum v1 i1 HW), decide_False; [done| |lia|exact (in_dir v i Hdir k Hkr)].
  intros ->. apply Hnz, Hfree. lia.
Qed.

(** C8: [itrunc] frees the file.  Exactly the blocks of the file become free,
    no content of a data block and no other inode changes, and the inode on
    disk is that of an empty file. *)
Theorem itrunc_correct E s ic v lg il ip i :
  file_ready E s ic v lg il ip i ->
  (size (lg ∪ bitmap_set E) + 1 < NBUF)%nat -> (size (lg ∪ bitmap_set E) < e_cap E)%nat ->
  wp (itrunc ip) (fun _ s' => exists v' lg', frep E s' (<[ip := emptied i]> ic) v' lg' ∅ il /\
    truncated E v i (emptied i) v' /\
    (forall b, b ∈ file_set v i <-> fblk v i b) /\
    lg' ⊆ lg ∪ bitmap_set E ∪ {[IBLOCK (i_inum i) (e_sb E)]}) s.
Proof.
  intros [] Hn Hc. eapply wp_itrunc; try done. intros s' v2 lg' Hr HF Hlg.
  exists (stored E v2 (emptied i)), lg'. split_and!; [done| | |done].
  - eapply stored_truncated; [done|done|apply emptied_wf, fy_file0|done|done].
  - intros b. symmetry. apply fblk_sets.
Qed.

(** C9: [iput] of the last reference to an inode without links frees its
    blocks and the inode; of any other reference, it only counts down. *)
Theorem iput_correct E s ic v lg il ip i :
  file_ready E s ic v lg il ip i -> i_valid i = 1 -> slocked (il ip) = 0 -> 0 < i_ref i ->
  (size (lg ∪ bitmap_set E) + 2 < NBUF)%nat -> (size (lg ∪ bitmap_set E) + 1 < e_cap E)%nat ->
  wp (iput ip) (fun _ s' => exists v' lg' il' i', frep E s' (<[ip := i']> ic) v' lg' ∅ il' /\
    slocked (il' ip) = 0 /\ i_ref i' = i_ref i - 1 /\
    if decide (i_nlink i = 0 /\ i_ref i = 1)
    then truncated E v i (freed_inode i) v' /\ i_valid i' = 0 /\
         dip_type (v' (IBLOCK (i_inum i) (e_sb E))) (dinode_off (i_inum i)) = 0
    else v' = v /\ lg' = lg /\ i' = set_i_ref (i_ref i - 1) i) s.
Proof.
  intros [] Hv Hl Hpos Hn Hc. destruct (decide (i_nlink i = 0 /\ i_ref i = 1)) as [[Hnl Href]|Hkeep].
  - eapply wp_iput_free; try done. intros s' v' lg' il' Hr HT Hl' _ _.
    exists v', lg', il', (set_i_ref 0 (set_i_valid 0 (freed_inode i))).
    split_and!; try done; [cbn; lia|].
    pose proof (tr_synced _ _ _ _ _ HT) as Hs. apply (f_equal i_type) in Hs. exact Hs.
  - eapply wp_iput_keep; [done|done|done| |].
    + destruct (decide (i_nlink i = 0)); [|auto]. right. right. intros ?. tauto.
    + intros s' il' Hr Hl' _. exists v, lg, il', (set_i_ref (i_ref i - 1) i). done.
Qed.

End theorems.

Section inodes.
Context {T : Type} `{JournalSpec T}.
Implicit Types (E : fenv) (s : fstate T) (v : Z -> list Z) (lg : gset Z)
  (ic : list inode) (il : nat -> sleeplock) (i : inode).

(** Block allocation.  [balloc] returns the first free block, zeroed and
    marked as used, and nothing else changes; [bfree] of that block gives back
    the free map that was there before. *)
Theorem balloc_bfree E s ic v lg il :
  frep E s ic v lg ∅ il -> fs_layout E -> meta_used E v -> (0 < nfree (e_sb E) v)%nat ->
  (size (lg ∪ bitmap_set E) + 2 < NBUF)%nat -> (size (lg ∪ bitmap_set E) + 2 < e_cap E)%nat ->
  wp (balloc ROOTDEV) (fun b s' => free_at (e_sb E) v b /\
    (exists v' lg', frep E s' ic v' lg' ∅ il /\ v' b = zero_block /\
      (forall c, 0 <= c < sb_size (e_sb E) ->
         used (e_sb E) v' c = bool_decide (c = b) || used (e_sb E) v c) /\
      forall c, data_start (e_sb E) <= c -> c <> b -> v' c = v c) /\
    wp (bfree ROOTDEV b) (fun _ s'' => exists v'' lg'', frep E s'' ic v'' lg'' ∅ il /\
      (forall c, 0 <= c < sb_size (e_sb E) -> used (e_sb E) v'' c = used (e_sb E) v c) /\
      forall c, data_start (e_sb E) <= c -> c <> b -> v'' c = v c) s') s.
Proof.
  intros Hr HL HM Hfree Hn Hc. destruct (free_exists _ _ Hfree) as [b Hb].
  pose proof Hb as (Hbr & Hu & _). pose proof (HM b Hbr Hu) as Hst. pose proof (vol_ok_frep _ _ _ _ _ _ _ Hr) as Hv.
  pose proof (subseteq_size lg (lg ∪ bitmap_set E) ltac:(set_solver)).
  eapply (wp_balloc _ _ _ _ _ _ _ b); [done|apply HL|done|apply (fl_data _ HL); lia|set_solver|set_solver|
    rewrite map_size_empty; lia|lia|].
  intros s1 Hr1. fold (allocated (e_sb E) v b) in Hr1.
  pose proof (fun c => used_allocated E v b c (fl_bm _ HL) Hv ltac:(lia)) as Hua.
  pose proof (allocated_data E v b) as Hda.
  assert ({[b]} ∪ ({[BBLOCK b (e_sb E)]} ∪ lg) ⊆ (lg ∪ {[b]}) ∪ bitmap_set E) as Hsub
    by (pose proof (BBLOCK_bitmap_set E b Hbr); set_solver).
  assert (size ((lg ∪ {[b]}) ∪ bitmap_set E) <= size (lg ∪ bitmap_set E) + 1)%nat as Hsz
    by (eapply (size_grow _ _ _ {[b]}); [set_solver|by rewrite size_singleton]).
  split_and!; [done..| |].
  - do 2 eexists. split_and!; [exact Hr1|apply allocated_new|done|]. intros c Hcd Hne. apply Hda; [apply HL|lia|done|done].
  - eapply (wp_free _ _ _ _ _ _ _ _ (lg ∪ {[b]})); [done|done| |done|set_solver|rewrite map_size_empty; lia|lia|].
    { split; [lia|]. rewrite Hua by lia. by rewrite bool_decide_eq_true_2. }
    intros s2 v2 lg2 Hr2 HF2 _ _. exists v2, lg2. split_and!; [done| |].
    + intros c Hcr. rewrite (fd_used _ _ _ _ HF2), Hua by done. destruct (decide (c = b)) as [->|Hne].
      * rewrite (bool_decide_eq_false_2 (b ∉ _)) by set_solver. by rewrite andb_false_r.
      * rewrite bool_decide_eq_false_2, bool_decide_eq_true_2 by set_solver. by rewrite andb_true_r.
    + intros c Hcd Hne. rewrite (freed_data _ _ _ _ _ HF2); [|apply HL|done]. apply Hda; [apply HL|lia|done|done].
Qed.

(** An inode survives its eviction.  What [iupdate] stores is what
    [ilock] loads when the entry has been recycled in between and is taken for
    the same inode again. *)
Theorem iupdate_ilock E s ic v lg il ip i j :
  frep E s ic v lg ∅ il -> ic !! ip = Some i -> fs_layout E -> inode_wf i -> i_dev i = ROOTDEV ->
  0 <= i_inum i < sb_ninodes (e_sb E) -> i_type i <> 0 -> slocked (il ip) = 0 ->
  i_dev j = ROOTDEV -> i_inum j = i_inum i -> 1 <= i_ref j -> i_valid j = 0 ->
  (size lg + 1 < NBUF)%nat -> (size lg < e_cap E)%nat ->
  wp (iupdate ip ;; upd_inode ip (fun _ => j) ;; ilock (Some ip)) (fun _ s' =>
    f_icache s' !! ip = Some (set_i_ref (i_ref j) (set_i_valid 1 i)) /\
    exists ic' v' lg', frep E s' ic' v' lg' ∅ (upd_il il ip (e_lock E)) /\
      forall n k, 0 <= n < sb_ninodes (e_sb E) -> n <> i_inum i ->
        disk_inode E v' n k = disk_inode E v n k) s.
Proof.
  intros Hr Hi HL Hwf Hd Hin Hty Hl Hjd Hjn Hjr Hjv Hn Hc. pose proof (vol_ok_frep _ _ _ _ _ _ _ Hr) as Hv.
  assert (ip < length ic)%nat as Hlt by (by eapply lookup_lt_Some). wp_step.
  eapply wp_iupdate; [done|done|done|apply Hwf|by apply (fl_inode _ HL)|set_solver|rewrite map_size_empty; lia|lia|].
  intros s1 Hr1. fold (stored E v i) in Hr1. wp_step. eapply wp_upd_inode; [done|done|]. intros s2 Hr2.
  pose proof (stored_synced E v i Hv Hwf Hin) as Hs.
  assert (set_i_valid 1 (get_dinode (stored E v i (IBLOCK (i_inum j) (e_sb E))) (dinode_off (i_inum j)) j) =
    set_i_ref (i_ref j) (set_i_valid 1 i)) as Eq.
  { apply (f_equal (fun a => set_i_ref (i_ref j) (set_i_valid 1 a))) in Hs. rewrite <- Hs.
    unfold disk_inode, set_i_valid, set_i_ref, get_dinode.
    cbn [i_dev i_inum i_ref i_type i_major i_minor i_nlink i_size i_addrs]. by rewrite Hjd, Hjn, Hd. }
  assert (size ({[IBLOCK (i_inum i) (e_sb E)]} ∪ lg) <= size lg + 1)%nat as Hsz
    by (pose proof (size_union_le {[IBLOCK (i_inum i) (e_sb E)]} lg); rewrite size_singleton in *; lia).
  eapply wp_ilock_load; [done|by apply list_lookup_insert_eq|done|done|done|done| |set_solver|
    rewrite map_size_empty; lia| |].
  { rewrite Hjn. by apply (fl_inode _ HL). }
  { rewrite Eq. done. }
  intros s3 Hr3. rewrite Eq, list_insert_insert_eq in Hr3. split.
  - rewrite (fr_ic _ _ _ _ _ _ _ Hr3). by apply list_lookup_insert_eq.
  - do 3 eexists. split; [exact Hr3|]. intros n k Hnr Hne. apply stored_inode; [done|done|done|lia|done].
Qed.

(** The inode cache has one entry per inode.  Two [iget]s of an inode
    return the same entry, with two more references; the entries in use keep
    their inodes, and no inode has two entries. *)
Theorem iget_iget E s ic v lg il n :
  frep E s ic v lg ∅ il -> icache_ok ic -> (exists k i, ic !! k = Some i /\ i_ref i = 0) ->
  wp (a ← iget ROOTDEV n; b ← iget ROOTDEV n; mret (a, b)) (fun r s' =>
    fst r = snd r /\ exists ic', frep E s' ic' v lg ∅ il /\ icache_ok ic' /\
      (exists i, ic' !! fst r = Some i /\ holds_inode i ROOTDEV n) /\
      icache_refs (fun l => incr (fst r) (incr (fst r) l)) ic ic') s.
Proof.
  intros Hr Hok (k0 & j0 & Hj0 & Hz0). wp_step. eapply wp_iget; [done|exists k0, j0; by auto|].
  intros s1 a ic1 Hp1 Hr1. wp_step. pose proof (iget_post_ok _ _ _ _ _ Hok Hp1) as Hok1.
  assert (exists i1, ic1 !! a = Some i1 /\ holds_inode i1 ROOTDEV n) as (i1 & Hi1 & Hh1).
  { destruct Hp1 as (i & Hi & [[(? & ? & ?) ->]|(? & _ & ->)]); eexists;
      (split; [apply list_lookup_insert_eq; by eapply lookup_lt_Some|]); split_and!; done || cbn; lia. }
  eapply wp_iget; [done|exists a, i1; split; [done|by left]|]. intros s2 b ic2 Hp2 Hr2. wp_step. cbn [fst snd].
  pose proof Hp2 as (i2 & Hi2 & Hcase).
  assert (b = a) as ->.
  { destruct Hcase as [[Hh2 _]|(_ & Hno & _)]; [by eapply (ic_uniq _ Hok1)|]. by destruct (Hno a i1 Hi1). }
  split; [done|]. exists ic2. assert (i2 = i1) as -> by congruence.
  destruct Hcase as [[_ ->]|(Hz & _)]; [|destruct Hh1; lia]. split_and!; [done| | |].
  - by eapply iget_post_ok.
  - eexists. split; [apply list_lookup_insert_eq; by eapply lookup_lt_Some|].
    destruct Hh1 as (? & ? & ?). split_and!; done || cbn; lia.
  - eapply (icache_refs_upd _ (Z.add 1)); [|done|done|done|cbn; lia].
    by apply icache_refs_start with n.
Qed.
End inodes.

(** ** Path elements *)

(** The names that the loop of [namex] sees in the buffer. *)
Fixpoint path_names (fuel : nat) (path name : list Z) : list (list Z) :=
  match fuel with
  | O => []
  | S fuel' =>
      match skipelem path name with
      | None => []
      | Some (path', name') => cname DIRSIZ name' :: path_names fuel' path' name'
      end
  end.

(** Calling [skipelem] until it returns null yields the elements of the
    path, the parts between slashes that are not empty, each cut to [DIRSIZ]
    bytes; as many calls as the path has bytes are enough. *)
Theorem skipelem_elems path name : 0 ∈ path -> length name = DIRSIZ ->
  path_names (length path) path name = cname DIRSIZ <$> elems path.
Proof.
  intros Hp Hl. assert (length path <= length path)%nat as Hf by lia. revert Hp Hl Hf.
  generalize (length path) at 2 3 as fuel. intros fuel. revert path name.
  induction fuel as [|fuel IH]; intros path name Hp Hl Hf.
  { destruct path; [by apply elem_of_nil in Hp|]. cbn in Hf. lia. }
  cbn [path_names]. pose proof (skipelem_spec path name Hp Hl) as Hs.
  destruct (elems path) as [|e es]; [by rewrite Hs|].
  destruct Hs as (path' & name' & -> & <- & Hp' & Hlt & _ & Hl' & Hc). rewrite Hc, fmap_cons. f_equal.
  apply IH; [done|done|lia].
Qed.

(** ** The theorems at work on the file system of [FsExample] *)

Section witnesses.
(** No device has a driver. *)
Definition nodev_r : Z -> option (nat -> Z -> M (fstate kstate) (Z * list Z)) := fun _ => None.
Definition nodev_w : Z -> option (nat -> list Z -> Z -> M (fstate kstate) Z) := fun _ => None.

Lemma x_dir_ready : file_ready xE xs xic ximg ∅ xil 0 xdir.
Proof. split; [apply xs_rep|done|apply x_layout|apply x_meta|apply x_dir_file|done|apply x_dir_dense|cbn; lia]. Qed.
Lemma x_file_ready : file_ready xE xs xic ximg ∅ xil 1 xfile.
Proof. split; [apply xs_rep|done|apply x_layout|apply x_meta|apply x_file_file|done|apply x_file_dense|cbn; lia]. Qed.

Lemma x_log_size : (size ((∅ : gset Z) ∪ bitmap_set xE) <= 1)%nat.
Proof. rewrite union_empty_l_L. apply x_bitmap. Qed.

Lemma x_op_room n : (n <= 20)%nat -> op_room xE ximg ∅ n.
Proof.
  intros Hn. pose proof x_log_size. split; [change (e_sb xE) with xsb; rewrite x_nfree; lia|..]; cbn; unfold NBUF; lia.
Qed.

(** The file grows over a block boundary: from 600 to 1100 bytes. *)
Definition xsrc : list Z := replicate 500 5.

Lemma writei_correct_witness :
  wp (writei nodev_w 1 xsrc 600 500) (fun r s' => r = 500 /\ exists v' i' lg',
    frep xE s' (<[1%nat := i']> xic) v' lg' ∅ xil /\ written xE ximg xfile 600 xsrc v' i' /\
    (size lg' <= size (∅ ∪ bitmap_set xE) + nblocks 600 500 + 2)%nat) xs.
Proof.
  refine (writei_correct nodev_w xE xs xic ximg ∅ xil 1 xfile xsrc 600 x_file_ready (x_op_room _ _) _ _ _ _).
  - vm_compute. lia.
  - apply Forall_replicate. unfold byte_ok. lia.
  - lia.
  - vm_compute. reflexivity.
  - unfold writei_bad. cbn. vm_compute. intuition congruence.
Defined.

Lemma write_read_witness :
  wp (writei nodev_w 1 xsrc 600 500 ;;
      a ← readi nodev_r 1 600 500;
      b ← readi nodev_r 1 0 1100;
      mret (a, b))
    (fun r _ => r = ((500, xsrc), (1100, patch 600 xsrc (fbyte ximg xfile) <$> seqZ 0 1100))) xs.
Proof.
  refine (write_read nodev_r nodev_w xE xs xic ximg ∅ xil 1 xfile xsrc 600 x_file_ready (x_op_room _ _) _ _ _ _).
  - vm_compute. lia.
  - apply Forall_replicate. unfold byte_ok. lia.
  - lia.
  - vm_compute. reflexivity.
  - unfold writei_bad. cbn. vm_compute. intuition congruence.
Defined.

Lemma readi_correct_witness :
  wp (readi nodev_r 1 510 1000) (fun r s' =>
    r = (90, 7 :: 7 :: replicate 88 9) /\ frep xE s' xic ximg ∅ ∅ xil) xs.
Proof.
  assert ((fbyte ximg xfile <$> seqZ 510 90) = 7 :: 7 :: replicate 88 9) as <- by (vm_compute; reflexivity).
  exact (readi_correct nodev_r xE xs xic ximg ∅ xil 1 xfile 510 1000 x_file_ready
    ltac:(rewrite size_empty; unfold NBUF; lia) ltac:(lia) ltac:(lia)).
Defined.

(** The path [/a] leads to the file, its parent is the root. *)
Definition xpath : list Z := [47; 97; 0].

Lemma x_walk : walk xE ximg false ROOTINO (elems xpath) = Some 2 /\ walk xE ximg true ROOTINO (elems xpath) = Some 1.
Proof. split; vm_compute; reflexivity. Qed.

Lemma namex_correct_witness :
  wp (namex nodev_r xpath false (replicate DIRSIZ 0)) (fun r s' => exists ic' il',
    frep xE s' ic' ximg ∅ ∅ il' /\ unlocked il' /\
    exists ip, fst r = Some ip /\ at_inode xE ximg xic ic' ip 2) xs.
Proof.
  eapply wp_mono; [apply (namex_correct nodev_r xE xs xic ximg ∅ xil xpath false (replicate DIRSIZ 0) ROOTINO)|].
  - exact x_ready.
  - reflexivity.
  - apply list_elem_of_In. cbn. tauto.
  - reflexivity.
  - unfold inum_ok, ROOTINO. cbn. lia.
  - vm_compute. discriminate.
  - intros r s' (ic' & il' & Hr & Hu & Hm). rewrite (proj1 x_walk) in Hm. destruct Hm as (ip & Hip & Hat & _).
    by exists ic', il'; split_and!; [..|exists ip].
Defined.

Lemma dirlink_dirlookup_witness :
  wp (r ← dirlink nodev_r nodev_w 0 [98; 0] 3; q ← dirlookup nodev_r 0 [98; 0]; mret (r, q)) (fun r s' =>
    exists ip v' i' lg' ic', r = (0, Some (ip, 48)) /\
      iget_post (<[0%nat := i']> xic) ROOTDEV 3 ip ic' /\ frep xE s' ic' v' lg' ∅ xil) xs.
Proof.
  assert (dir_slot ximg xdir = 3) as Eslot by (vm_compute; reflexivity).
  eapply wp_mono; [apply (dirlink_dirlookup nodev_r nodev_w xE xs xic ximg ∅ xil 0 xdir [98; 0] 3)|].
  - exact x_dir_ready.
  - exact x_dir_ok.
  - apply x_op_room. lia.
  - right. apply list_elem_of_In. cbn. tauto.
  - repeat constructor; unfold byte_ok; lia.
  - exists 2%nat, (Inode 0 0 0 0 0 0 0 0 0 (replicate 13 0)). split_and!; [discriminate|reflexivity|reflexivity].
  - vm_compute. reflexivity.
  - rewrite Eslot. vm_compute. discriminate.
  - lia.
  - intros r s' (ip & v' & i' & lg' & ic' & Hr & Hp & Hf & _). rewrite Eslot in Hr.
    by exists ip, v', i', lg', ic'.
Defined.

Lemma itrunc_correct_witness :
  wp (itrunc 1) (fun _ s' => exists v' lg', frep xE s' (<[1%nat := emptied xfile]> xic) v' lg' ∅ xil /\
    truncated xE ximg xfile (emptied xfile) v') xs.
Proof.
  pose proof x_log_size. eapply wp_mono; [apply (itrunc_correct xE xs xic ximg ∅ xil 1 xfile x_file_ready)|].
  - unfold NBUF. lia.
  - cbn. lia.
  - intros [] s' (v' & lg' & Hr & Ht & _). by exists v', lg'.
Defined.

(** The file after its last link is gone. *)
Definition xfile0 : inode := set_i_nlink 0 xfile.
Definition xs0 : fstate kstate := Fstate xsb (<[1%nat := xfile0]> xic) xk.

Lemma x_file0_ready : file_ready xE xs0 (<[1%nat := xfile0]> xic) ximg ∅ xil 1 xfile0.
Proof.
  split; [|done|apply x_layout|apply x_meta| |done|apply x_file_dense|cbn; lia].
  - destruct xs_rep. by split.
  - destruct x_file_file as [[] ? ? ? ?]. split; [by split|done..].
Qed.

Lemma iput_correct_witness :
  wp (iput 1) (fun _ s' => exists v' lg' il' i', frep xE s' (<[1%nat := i']> (<[1%nat := xfile0]> xic)) v' lg' ∅ il' /\
    slocked (il' 1%nat) = 0 /\ i_ref i' = 0 /\ truncated xE ximg xfile0 (freed_inode xfile0) v') xs0.
Proof.
  pose proof x_log_size.
  eapply wp_mono; [apply (iput_correct xE xs0 (<[1%nat := xfile0]> xic) ximg ∅ xil 1 xfile0 x_file0_ready)|].
  - reflexivity.
  - reflexivity.
  - cbn. lia.
  - unfold NBUF. lia.
  - cbn. lia.
  - intros [] s' (v' & lg' & il' & i' & Hr & Hl & Href & Hm). rewrite decide_True in Hm by done.
    by exists v', lg', il', i'; split_and!; [..|apply Hm].
Defined.

End witnesses.
