(* ===== verification/Console.v ===== *)
(** * The console

    [console.c], [kbd.c] and [kbd.h], and the data path of [uart.c]: output to
    the screen and the serial line, the line editor between the interrupt
    handlers and [consoleread].  The screen memory, the cursor register, the
    scan codes and serial bytes that wait in the controllers and the bytes
    sent are part of the state. *)

From S2P Require Import Prelude Bytes Params Machine BlockCache Journal CString Fs.
Local Open Scope Z_scope.

Definition BACKSPACE : Z := 0x100.
Definition INPUT_BUF : Z := 128.
Definition Ctl (x : Z) : Z := x - 64.

(** [struct input]. *)
Record input := Input { in_buf : list Z; in_r : Z; in_w : Z; in_e : Z }.

Record console := Console {
  c_locking : Z;
  c_panicked : Z;
  c_crt : list Z;
  c_pos : Z;
  c_uart : Z;
  c_serial : list Z;
  c_input : input;
  c_shift : Z;
  c_kbd : list Z;
  c_rx : list Z
}.
Definition set_c_screen (pos : Z) (crt : list Z) (c : console) : console :=
  Console (c_locking c) (c_panicked c) crt pos (c_uart c) (c_serial c) (c_input c) (c_shift c) (c_kbd c) (c_rx c).
Definition set_c_serial (l : list Z) (c : console) : console :=
  Console (c_locking c) (c_panicked c) (c_crt c) (c_pos c) (c_uart c) l (c_input c) (c_shift c) (c_kbd c) (c_rx c).
Definition set_c_input (i : input) (c : console) : console :=
  Console (c_locking c) (c_panicked c) (c_crt c) (c_pos c) (c_uart c) (c_serial c) i (c_shift c) (c_kbd c) (c_rx c).
Definition set_c_kbd (shift : Z) (l : list Z) (c : console) : console :=
  Console (c_locking c) (c_panicked c) (c_crt c) (c_pos c) (c_uart c) (c_serial c) (c_input c) shift l (c_rx c).
Definition set_c_rx (l : list Z) (c : console) : console :=
  Console (c_locking c) (c_panicked c) (c_crt c) (c_pos c) (c_uart c) (c_serial c) (c_input c) (c_shift c) (c_kbd c) l.
Definition set_c_flags (locking panicked : Z) (c : console) : console :=
  Console locking panicked (c_crt c) (c_pos c) (c_uart c) (c_serial c) (c_input c) (c_shift c) (c_kbd c) (c_rx c).

(** A state with a machine and a console. *)
Class HasCons (T : Type) `{HasMachine T} := {
  cons_of : T -> console;
  set_cons : console -> T -> T;
  cons_set : forall c s, cons_of (set_cons c s) = c;
  set_cons_set : forall c c' s, set_cons c (set_cons c' s) = set_cons c s;
  cons_mach : forall m s, cons_of (set_mach m s) = cons_of s;
  mach_cons : forall c s, mach (set_cons c s) = mach s
}.

(** ** The screen *)

(** Where the character [c] goes; [crt] holds 16-bit cells, 80 in a row. *)
Definition cga_char (c pos : Z) (crt : list Z) : Z * list Z :=
  if c =z 10 then (pos + (80 - pos mod 80), crt)
  else if c =z BACKSPACE then (if 0 <z pos then pos - 1 else pos, crt)
  else (pos + 1, <[Z.to_nat pos := Z.lor (Z.land c 0xff) 0x0700]> crt).
(** One row up when the cursor is in the last row but one. *)
Definition cga_scroll (pos : Z) (crt : list Z) : Z * list Z :=
  if 24 <=z pos / 80 then
    let crt := splice 0 (slice 80 (23 * 80) crt) crt in
    let pos := pos - 80 in
    (pos, splice (Z.to_nat pos) (replicate (Z.to_nat (24 * 80 - pos)) 0) crt)
  else (pos, crt).
(** [None] is the panic of [cgaputc]. *)
Definition cga_put (c pos : Z) (crt : list Z) : option (Z * list Z) :=
  let (pos, crt) := cga_char c pos crt in
  if (pos <z 0) || (25 * 80 <z pos) then None else
  let (pos, crt) := cga_scroll pos crt in
  Some (pos, <[Z.to_nat pos := Z.lor 32 0x0700]> crt).

(** ** Numbers *)

Definition digit_char (d : Z) : Z := nth (Z.to_nat d) [48; 49; 50; 51; 52; 53; 54; 55; 56; 57; 97; 98; 99; 100; 101; 102] 0.
(** The digits in the order in which the loop stores them, lowest first. *)
Fixpoint digits_loop (digit : Z -> Z) (fuel : nat) (x base : Z) : list Z :=
  match fuel with
  | O => []
  | S fuel' => digit (x mod base) :: (if x / base =z 0 then [] else digits_loop digit fuel' (x / base) base)
  end.
(** The characters [printint] puts out; 32 digits hold a number of 32 bits. *)
Definition printint_chars (xx base : Z) (sign : bool) : list Z :=
  let neg := sign && (xx <z 0) in
  let x := if neg then u32 (- xx) else u32 xx in
  let buf := digits_loop digit_char 32 x base ++ (if neg then [45] else []) in
  rev buf.

(** ** The line editor *)

Definition in_at (i : input) (k : Z) : Z := nth (Z.to_nat (k mod INPUT_BUF)) (in_buf i) 0.

(** The loop of [C('U')]: the number of characters erased, and the rest. *)
Fixpoint kill_line (fuel : nat) (i : input) (n : nat) : input * nat :=
  if negb (in_e i =z in_w i) && negb (in_at i (u32 (in_e i - 1)) =z 10) then
    match fuel with
    | O => (i, n)
    | S fuel' => kill_line fuel' (Input (in_buf i) (in_r i) (in_w i) (u32 (in_e i - 1))) (S n)
    end
  else (i, n).

(** One round of the loop of [consoleintr]: the characters to put out, and
    whether readers are woken. *)
Definition edit_char (c : Z) (i : input) : input * list Z * bool :=
  if c =z Ctl 80 then (i, [], false)
  else if c =z Ctl 85 then
    let (i, n) := kill_line (Z.to_nat (u32 (in_e i - in_w i))) i 0 in (i, replicate n BACKSPACE, false)
  else if (c =z Ctl 72) || (c =z 0x7f) then
    if negb (in_e i =z in_w i) then (Input (in_buf i) (in_r i) (in_w i) (u32 (in_e i - 1)), [BACKSPACE], false)
    else (i, [], false)
  else if negb (c =z 0) && (u32 (in_e i - in_r i) <z INPUT_BUF) then
    let c := if c =z 13 then 10 else c in
    let i := Input (<[Z.to_nat (in_e i mod INPUT_BUF) := u8 c]> (in_buf i)) (in_r i) (in_w i) (u32 (in_e i + 1)) in
    if (c =z 10) || (c =z Ctl 68) || (in_e i =z u32 (in_r i + INPUT_BUF))
    then (Input (in_buf i) (in_r i) (in_e i) (in_e i), [c], true)
    else (i, [c], false)
  else (i, [], false).

(** How [consoleread] goes on when there is input, or that it has to sleep. *)
Inductive cread := CSleep (l : list Z) (n : nat) | CDone (l : list Z).
(** The loop of [consoleread] for [n] more bytes; [l] is what was copied. *)
Fixpoint read_loop (n : nat) (i : input) (l : list Z) : input * cread :=
  match n with
  | O => (i, CDone l)
  | S n' =>
      if in_r i =z in_w i then (i, CSleep l n) else
      let c := in_at i (in_r i) in
      let i' := Input (in_buf i) (u32 (in_r i + 1)) (in_w i) (in_e i) in
      if c =z Ctl 68 then ((if bool_decide (l = []) then i' else i), CDone l) else
      if c =z 10 then (i', CDone (l ++ [c])) else read_loop n' i' (l ++ [c])
  end.

(** ** The keyboard *)

Definition SHIFT : Z := 1.
Definition CTL : Z := 2.
Definition ALT : Z := 4.
Definition CAPSLOCK : Z := 8.
Definition NUMLOCK : Z := 16.
Definition SCROLLLOCK : Z := 32.
Definition E0ESC : Z := 64.

(** An array with the given entries, zero elsewhere. *)
Definition table (l : list (Z * Z)) : list Z :=
  foldr (fun kv t => <[Z.to_nat (fst kv) := snd kv]> t) (replicate 256 0) l.
Definition shiftcode : list Z := table [(0x1D, CTL); (0x2A, SHIFT); (0x36, SHIFT); (0x38, ALT); (0x9D, CTL); (0xB8, ALT)].
Definition togglecode : list Z := table [(0x3A, CAPSLOCK); (0x45, NUMLOCK); (0x46, SCROLLLOCK)].
(** The three maps differ in their first part and in the keys 0x9C and 0xB5. *)
Definition keymap (l : list Z) (enter div : Z) : list Z :=
  splice 0 l (table [(0x9C, enter); (0xB5, div); (0xC8, 0xE2); (0xD0, 0xE3); (0xC9, 0xE6); (0xD1, 0xE7); (0xCB, 0xE4);
                     (0xCD, 0xE5); (0x97, 0xE0); (0xCF, 0xE1); (0xD2, 0xE8); (0xD3, 0xE9)]).
Definition normalmap : list Z :=
  keymap [0; 27; 49; 50; 51; 52; 53; 54; 55; 56; 57; 48; 45; 61; 8; 9;
    113; 119; 101; 114; 116; 121; 117; 105; 111; 112; 91; 93; 10; 0; 97; 115;
    100; 102; 103; 104; 106; 107; 108; 59; 39; 96; 0; 92; 122; 120; 99; 118;
    98; 110; 109; 44; 46; 47; 0; 42; 0; 32; 0; 0; 0; 0; 0; 0;
    0; 0; 0; 0; 0; 0; 0; 55; 56; 57; 45; 52; 53; 54; 43; 49;
    50; 51; 48; 46; 0; 0; 0; 0] 10 47.
Definition shiftmap : list Z :=
  keymap [0; 27; 33; 64; 35; 36; 37; 94; 38; 42; 40; 41; 95; 43; 8; 9;
    81; 87; 69; 82; 84; 89; 85; 73; 79; 80; 123; 125; 10; 0; 65; 83;
    68; 70; 71; 72; 74; 75; 76; 58; 34; 126; 0; 124; 90; 88; 67; 86;
    66; 78; 77; 60; 62; 63; 0; 42; 0; 32; 0; 0; 0; 0; 0; 0;
    0; 0; 0; 0; 0; 0; 0; 55; 56; 57; 45; 52; 53; 54; 43; 49;
    50; 51; 48; 46; 0; 0; 0; 0] 10 47.
Definition ctlmap : list Z :=
  keymap [0; 0; 0; 0; 0; 0; 0; 0; 0; 0; 0; 0; 0; 0; 0; 0;
    17; 23; 5; 18; 20; 25; 21; 9; 15; 16; 0; 0; 13; 0; 1; 19;
    4; 6; 7; 8; 10; 11; 12; 0; 0; 0; 0; 28; 26; 24; 3; 22;
    2; 14; 13; 0; 0; 239; 0; 0] 13 239.
Definition charcode (k : Z) : list Z :=
  if k =z 0 then normalmap else if k =z 1 then shiftmap else ctlmap.

Definition tab (t : list Z) (k : Z) : Z := nth (Z.to_nat k) t 0.

(** One scan code: the character, 0 for none, and the new state of [shift]. *)
Definition kbd_code (data shift : Z) : Z * Z :=
  if data =z 0xE0 then (0, Z.lor shift E0ESC)
  else if c_bool (Z.land data 0x80) then
    let data := if c_bool (Z.land shift E0ESC) then data else Z.land data 0x7F in
    (0, Z.land shift (u32 (Z.lnot (Z.lor (tab shiftcode data) E0ESC))))
  else
    let '(data, shift) := if c_bool (Z.land shift E0ESC) then (Z.lor data 0x80, Z.land shift (u32 (Z.lnot E0ESC)))
                          else (data, shift) in
    let shift := Z.lor shift (tab shiftcode data) in
    let shift := Z.lxor shift (tab togglecode data) in
    let c := tab (charcode (Z.land shift (Z.lor CTL SHIFT))) data in
    let c := if c_bool (Z.land shift CAPSLOCK) then
               if (97 <=z c) && (c <=z 122) then c - 32
               else if (65 <=z c) && (c <=z 90) then c + 32 else c
             else c in
    (c, shift).

(** ** The functions of the kernel *)

(** The arguments of [cprintf] after the format. *)
Inductive carg := CInt (x : Z) | CStr (s : option (list Z)).

Section console.
Context {T : Type} `{HasCons T}.

Definition upd_cons (f : console -> console) : M T unit := modify (fun s => set_cons (f (cons_of s)) s).

(** The status bit of the transmitter is waited for in a bounded loop that
    changes nothing. *)
Definition uartputc (c : Z) : M T unit :=
  k ← gets cons_of;
  if c_uart k =z 0 then mret tt else upd_cons (fun k => set_c_serial (c_serial k ++ [u8 c]) k).

Definition cgaputc (c : Z) : M T unit :=
  k ← gets cons_of;
  match cga_put c (c_pos k) (c_crt k) with
  | None => panic "pos under/overflow"
  | Some (pos, crt) => upd_cons (set_c_screen pos crt)
  end.

Definition consputc (c : Z) : M T unit :=
  k ← gets cons_of;
  if c_bool (c_panicked k) then onm cli ;; block else
  (if c =z BACKSPACE then uartputc 8 ;; uartputc 32 ;; uartputc 8 else uartputc c) ;;
  cgaputc c.
Fixpoint consputs (l : list Z) : M T unit :=
  match l with
  | [] => mret tt
  | c :: l' => consputc c ;; consputs l'
  end.

Definition printint (xx base : Z) (sign : bool) : M T unit := consputs (printint_chars xx base sign).

(** [*s] up to the null byte. *)
Definition put_string (s : list Z) : M T unit := consputs (upto0 s).

(** The loop of [cprintf] on the rest of the format; the format ends with a
    null byte. *)
Fixpoint cprintf_loop (fmt : list Z) (args : list carg) : M T unit :=
  match fmt with
  | [] => fault "cprintf: fmt"
  | c :: fmt' =>
      if c =z 0 then mret tt else
      if negb (c =z 37) then consputc c ;; cprintf_loop fmt' args else
      match fmt' with
      | [] => fault "cprintf: fmt"
      | c :: fmt'' =>
          if c =z 0 then mret tt else
          if c =z 100 then
            match args with
            | CInt x :: args' => printint (s32 x) 10 true ;; cprintf_loop fmt'' args'
            | _ => fault "cprintf: argument"
            end
          else if (c =z 120) || (c =z 112) then
            match args with
            | CInt x :: args' => printint (s32 x) 16 false ;; cprintf_loop fmt'' args'
            | _ => fault "cprintf: argument"
            end
          else if c =z 115 then
            match args with
            | CStr s :: args' =>
                put_string (default [40; 110; 117; 108; 108; 41; 0] s) ;; cprintf_loop fmt'' args'
            | _ => fault "cprintf: argument"
            end
          else if c =z 37 then consputc 37 ;; cprintf_loop fmt'' args
          else consputc 37 ;; consputc c ;; cprintf_loop fmt'' args
      end
  end.
Definition cprintf (fmt : option (list Z)) (args : list carg) : M T unit :=
  k ← gets cons_of;
  let locking := c_bool (c_locking k) in
  when locking (onm (acquire LCons)) ;;
  match fmt with
  | None => panic "null fmt"
  | Some fmt => cprintf_loop fmt args
  end ;;
  when locking (onm (release LCons)).

(** [panic]: [pcs] are the return addresses [getcallerpcs] finds; the
    processor spins at the end. *)
Definition panic_stop (s : list Z) (lapicid : Z) (pcs : list Z) : M T unit :=
  onm cli ;;
  upd_cons (fun k => set_c_flags 0 (c_panicked k) k) ;;
  cprintf (Some [108; 97; 112; 105; 99; 105; 100; 32; 37; 100; 58; 32; 112; 97; 110; 105; 99; 58; 32; 0]) [CInt lapicid] ;;
  cprintf (Some s) [] ;;
  cprintf (Some [10; 0]) [] ;;
  for_loop 10 0 (fun i => cprintf (Some [32; 37; 112; 0]) [CInt (tab pcs i)]) ;;
  upd_cons (fun k => set_c_flags (c_locking k) 1 k) ;;
  block.

(** ** Input *)

Definition kbdgetc : M T Z :=
  k ← gets cons_of;
  match c_kbd k with
  | [] => mret (-1)
  | data :: rest =>
      let (c, shift) := kbd_code data (c_shift k) in
      upd_cons (set_c_kbd shift rest) ;;
      mret c
  end.
Definition uartgetc : M T Z :=
  k ← gets cons_of;
  if c_uart k =z 0 then mret (-1) else
  match c_rx k with
  | [] => mret (-1)
  | b :: rest => upd_cons (set_c_rx rest) ;; mret b
  end.

(** The loop of [consoleintr]; the result is [doprocdump]. *)
Fixpoint consoleintr_loop (fuel : nat) (getc : M T Z) (dump : bool) : M T bool :=
  c ← getc;
  if 0 <=z c then
    match fuel with
    | O => fault "consoleintr"
    | S fuel' =>
        k ← gets cons_of;
        let '(i, out, wake) := edit_char c (c_input k) in
        upd_cons (set_c_input i) ;;
        consputs out ;;
        when wake (onm (wakeup ChInput)) ;;
        consoleintr_loop fuel' getc (dump || (c =z Ctl 80))
    end
  else mret dump.
(** [fuel] bounds the number of characters that wait; [procdump] is called
    when the result is true. *)
Definition consoleintr (fuel : nat) (getc : M T Z) : M T bool :=
  onm (acquire LCons) ;;
  dump ← consoleintr_loop fuel getc false;
  onm (release LCons) ;;
  mret dump.

Definition PROC_FMT : list Z := [37; 100; 32; 37; 115; 32; 37; 115; 0].
Definition state_name (st : procstate) : list Z :=
  match st with
  | UNUSED => [117; 110; 117; 115; 101; 100; 0]
  | EMBRYO => [101; 109; 98; 114; 121; 111; 0]
  | SLEEPING => [115; 108; 101; 101; 112; 32; 0]
  | RUNNABLE => [114; 117; 110; 98; 108; 101; 0]
  | RUNNING => [114; 117; 110; 32; 32; 32; 0]
  | ZOMBIE => [122; 111; 109; 98; 105; 101; 0]
  end.
Fixpoint put_pcs (l : list Z) : M T unit :=
  match l with
  | [] => mret tt
  | pc :: l' => if pc =z 0 then mret tt else cprintf (Some [32; 37; 112; 0]) [CInt pc] ;; put_pcs l'
  end.
(** [callerpcs i] are the ten return addresses on the stack of process [i]. *)
Definition procdump (callerpcs : nat -> list Z) : M T unit :=
  for_loop NPROC 0 (fun k =>
    p ← onm (get_proc (Z.to_nat k));
    if bool_decide (p_state p = UNUSED) then mret tt else
    cprintf (Some PROC_FMT) [CInt (p_pid p); CStr (Some (state_name (p_state p))); CStr (Some (p_name p))] ;;
    when (bool_decide (p_state p = SLEEPING)) (put_pcs (callerpcs (Z.to_nat k))) ;;
    cprintf (Some [10; 0]) []).

Definition kbdintr (callerpcs : nat -> list Z) : M T unit :=
  k ← gets cons_of;
  dump ← consoleintr (length (c_kbd k)) kbdgetc;
  when dump (procdump callerpcs).
Definition uartintr (callerpcs : nat -> list Z) : M T unit :=
  k ← gets cons_of;
  dump ← consoleintr (length (c_rx k)) uartgetc;
  when dump (procdump callerpcs).

Definition consoleinit : M T unit :=
  onm (modify (set_lock LCons initlock)) ;;
  upd_cons (fun k => set_c_flags 1 (c_panicked k) k).
End console.

(** ** The device switch *)

Section devsw.
Context {T : Type} `{HJ : Journal T} `{HC : !HasCons T}.

Definition consoleread (ip : nat) (n : Z) : M (fstate T) (Z * list Z) :=
  iunlock (Some ip) ;;
  onm (acquire LCons) ;;
  k ← lower (gets cons_of);
  let (i, r) := read_loop (Z.to_nat n) (c_input k) [] in
  lower (upd_cons (set_c_input i)) ;;
  match r with
  | CDone l =>
      onm (release LCons) ;;
      ilock (Some ip) ;;
      mret (Z.of_nat (length l), l)
  | CSleep l _ =>
      p ← onm myproc;
      p ← of_option "null proc" p;
      pr ← onm (get_proc p);
      if c_bool (p_killed pr) then
        onm (release LCons) ;;
        ilock (Some ip) ;;
        mret (-1, l)
      else
        onm (sleep ChInput (Some LCons)) ;;
        fault "sleep returned"
  end.

Definition consolewrite (ip : nat) (buf : list Z) (n : Z) : M (fstate T) Z :=
  iunlock (Some ip) ;;
  onm (acquire LCons) ;;
  if Z.of_nat (length buf) <z n then fault "consolewrite: buf" else
  lower (consputs (take (Z.to_nat n) buf)) ;;
  onm (release LCons) ;;
  ilock (Some ip) ;;
  mret n.

Definition CONSOLE : Z := 1.
(** [devsw] after [consoleinit]. *)
Definition cons_devsw_read (major : Z) : option (nat -> Z -> M (fstate T) (Z * list Z)) :=
  if major =z CONSOLE then Some consoleread else None.
Definition cons_devsw_write (major : Z) : option (nat -> list Z -> Z -> M (fstate T) Z) :=
  if major =z CONSOLE then Some consolewrite else None.
End devsw.
