(* ===== verification/ConsoleSpec.v ===== *)
(** * The line editor of the console

    The ring buffer with its three indices implements two lists: the bytes
    that are ready for [consoleread] and the line that is being typed.  The
    cursor of the screen stays on the screen. *)

From S2P Require Import Prelude Bytes Word32 Params Machine CString Console.
Local Open Scope Z_scope.

(** ** The editor on lists *)

Definition INPUT_SIZE : nat := 128.
Definition newline (c : Z) : Z := if c =z 13 then 10 else c.

(** A character arrives: [d] is ready, [l] the line being typed. *)
Definition feed (c : Z) (d l : list Z) : list Z * list Z :=
  if c =z Ctl 80 then (d, l)
  else if c =z Ctl 85 then (d, [])
  else if (c =z Ctl 72) || (c =z 0x7f) then (d, removelast l)
  else if negb (c =z 0) && bool_decide (length d + length l < INPUT_SIZE)%nat then
    let l' := l ++ [newline c] in
    if (newline c =z 10) || (newline c =z Ctl 68) || bool_decide (length d + length l' = INPUT_SIZE)%nat
    then (d ++ l', []) else (d, l')
  else (d, l).

(** A reader takes up to [n] bytes of one line; [None] when it has to wait.
    The end-of-file mark stays when something was read before it. *)
Fixpoint read_line (n : nat) (d acc : list Z) : list Z * option (list Z) :=
  match n, d with
  | O, _ => (d, Some acc)
  | S _, [] => ([], None)
  | S n', c :: d' =>
      if c =z Ctl 68 then ((if bool_decide (acc = []) then d' else d), Some acc)
      else if c =z 10 then (d', Some (acc ++ [c]))
      else read_line n' d' (acc ++ [c])
  end.

(** ** The ring buffer *)

(** [R] is the read index without the wrap. *)
Definition irep (i : input) (d l : list Z) : Prop := exists R,
  length (in_buf i) = INPUT_SIZE /\ in_r i = u32 R /\ in_w i = u32 (R + Z.of_nat (length d)) /\
  in_e i = u32 (R + Z.of_nat (length d + length l)) /\ (length d + length l <= INPUT_SIZE)%nat /\
  (forall k x, (d ++ l) !! k = Some x -> in_at i (R + Z.of_nat k) = x) /\ 10 ∉ l /\ Forall byte_ok (d ++ l).

Lemma in_at_u32 i k : in_at i (u32 k) = in_at i k.
Proof. unfold in_at. rewrite u32_mod_divides; [done|done|]. by exists (2 ^ 25). Qed.


Lemma irep_empty i d l : irep i d l -> in_e i = in_w i <-> l = [].
Proof.
  intros (R & Hb & Hr & Hw & He & Hl & _). rewrite Hw, He. split.
  - intros E. apply u32_near in E; [|unfold INPUT_SIZE in *; lia]. destruct l; [done|]. cbn in E. lia.
  - intros ->. f_equal. cbn. lia.
Qed.

Lemma irep_none i d l : irep i d l -> in_r i = in_w i <-> d = [].
Proof.
  intros (R & Hb & Hr & Hw & He & Hl & _). rewrite Hw, Hr. split.
  - intros E. apply u32_near in E; [|unfold INPUT_SIZE in *; lia]. destruct d; [done|]. cbn in E. lia.
  - intros ->. f_equal. cbn. lia.
Qed.

(** The last character of the line goes. *)
Lemma irep_back i d l c : irep i d (l ++ [c]) -> irep (Input (in_buf i) (in_r i) (in_w i) (u32 (in_e i - 1))) d l.
Proof.
  intros (R & Hb & Hr & Hw & He & Hl & Hc & Hn & Hok). rewrite length_app in *. cbn in *. exists R. cbn. split_and!; try done.
  - rewrite He, u32_sub_l. f_equal. lia.
  - lia.
  - intros k x Hk. apply Hc. rewrite app_assoc. by apply lookup_app_l_Some.
  - set_solver.
  - rewrite app_assoc in Hok. by apply Forall_app in Hok as [? _].
Qed.

Lemma irep_last i d l c : irep i d (l ++ [c]) -> in_at i (u32 (in_e i - 1)) = c.
Proof.
  intros (R & Hb & Hr & Hw & He & Hl & Hc & Hn & Hok). rewrite He, u32_sub_l, in_at_u32.
  replace (R + Z.of_nat (length d + length (l ++ [c])) - 1) with (R + Z.of_nat (length (d ++ l))) by (rewrite !length_app; cbn; lia).
  apply Hc. rewrite app_assoc. by apply list_lookup_middle.
Qed.

(** The loop of [C('U')] erases the whole line. *)
Lemma kill_line_all l : forall i d fuel n, irep i d l -> (length l <= fuel)%nat ->
  exists i', kill_line fuel i n = (i', (n + length l)%nat) /\ irep i' d [].
Proof.
  induction l as [|c l IH] using rev_ind; intros i d fuel n Hi Hf.
  - pose proof (proj2 (irep_empty _ _ _ Hi) eq_refl) as E. exists i.
    destruct fuel; cbn [kill_line]; rewrite bool_decide_eq_true_2 by done; cbn; by rewrite Nat.add_0_r.
  - rewrite length_app in *. cbn in Hf. destruct fuel as [|fuel]; [lia|]. cbn [kill_line].
    rewrite bool_decide_eq_false_2 by (intros E; apply (irep_empty _ _ _ Hi) in E; by destruct l).
    rewrite (irep_last _ _ _ _ Hi). rewrite bool_decide_eq_false_2.
    2:{ intros ->. destruct Hi as (R & _ & _ & _ & _ & _ & _ & Hn & _). apply Hn. set_solver. }
    cbn [negb andb]. destruct (IH _ d fuel (S n) (irep_back _ _ _ _ Hi)) as (i' & -> & Hi'); [lia|].
    exists i'. split; [|done]. f_equal. cbn. lia.
Qed.

(** A character is stored. *)
Lemma irep_push i d l c : irep i d l -> (length d + length l < INPUT_SIZE)%nat -> byte_ok c ->
  let i' := Input (<[Z.to_nat (in_e i mod INPUT_BUF) := c]> (in_buf i)) (in_r i) (in_w i) (u32 (in_e i + 1)) in
  (c <> 10 -> irep i' d (l ++ [c])) /\ irep (Input (in_buf i') (in_r i') (in_e i') (in_e i')) (d ++ l ++ [c]) [].
Proof.
  intros (R & Hb & Hr & Hw & He & Hl & Hc & Hn & Hok) Hlt Hcb i'.
  assert (length (in_buf i') = INPUT_SIZE) as Hb' by (unfold i'; cbn; by rewrite length_insert).
  assert (in_e i' = u32 (R + Z.of_nat (length d + length (l ++ [c])))) as He'.
  { unfold i'. cbn. rewrite He, u32_add_l, length_app. f_equal. cbn. lia. }
  assert (forall k x, (d ++ l ++ [c]) !! k = Some x -> in_at i' (R + Z.of_nat k) = x) as Hc'.
  { intros k x Hk. unfold in_at, i'. cbn [in_buf]. rewrite He, u32_mod_divides by (done || by exists (2 ^ 25)).
    set (p := (R + Z.of_nat (length d + length l)) mod INPUT_BUF). set (q := (R + Z.of_nat k) mod INPUT_BUF).
    assert (0 <= p < 128) as Hp by (apply Z.mod_pos_bound; done). assert (0 <= q < 128) as Hq by (apply Z.mod_pos_bound; done).
    rewrite app_assoc in Hk. destruct (decide (k < length (d ++ l))%nat) as [Hkl|Hkl].
    - rewrite lookup_app_l in Hk by done. rewrite <- (Hc k x Hk). unfold in_at. fold q. rewrite length_app in Hkl.
      rewrite !nth_lookup, list_lookup_insert_ne; [done|]. intros E. apply Z2Nat.inj in E; [|lia|lia].
      unfold p, q, INPUT_BUF in E. assert ((Z.of_nat (length d + length l) - Z.of_nat k) mod 128 = 0) as E0.
      { replace (_ - _) with ((R + Z.of_nat (length d + length l)) - (R + Z.of_nat k)) by lia.
        rewrite Zminus_mod, E, Z.sub_diag. done. }
      rewrite Z.mod_small in E0 by (unfold INPUT_SIZE in *; lia). lia.
    - rewrite lookup_app_r in Hk by lia. apply list_lookup_singleton_Some in Hk as [Hk0 <-].
      assert (k = length d + length l)%nat as -> by (rewrite length_app in *; lia). unfold q. fold p.
      rewrite nth_lookup, list_lookup_insert_eq; [done|]. rewrite Hb. unfold INPUT_SIZE. lia. }
  assert (Forall byte_ok (d ++ l ++ [c])) as Hok'.
  { rewrite app_assoc. apply Forall_app. split; [done|]. by apply Forall_singleton. }
  assert (length d + length (l ++ [c]) <= INPUT_SIZE)%nat as Hl' by (rewrite length_app; cbn; lia).
  split.
  - intros Hc10. exists R. split_and!; try done. set_solver.
  - exists R. cbn [in_r in_w in_e in_buf length]. rewrite Nat.add_0_r, app_nil_r, !length_app in *.
    split_and!; try done; try (rewrite He'; f_equal; lia); set_solver.
Qed.

(** ** The functions of the console *)

Lemma newline_ok c : 0 <= c < 256 -> byte_ok (newline c).
Proof. unfold newline, byte_ok. intros. case_bool_decide; lia. Qed.

(** A round of [consoleintr] does what the editor on lists does, wakes the
    readers exactly when a line is complete, and erases on the screen what it
    erases in the buffer. *)
Lemma edit_char_feed i d l c : irep i d l -> 0 <= c < 256 ->
  exists i' out (wake : bool), edit_char c i = (i', out, wake) /\ irep i' (fst (feed c d l)) (snd (feed c d l)) /\
    (wake = true <-> (fst (feed c d l)) <> d).
Proof.
  intros Hi Hc. unfold edit_char, feed. case_bool_decide as E1; [eexists _, _, _; split_and!; done|].
  case_bool_decide as E2.
  { destruct (kill_line_all l i d (Z.to_nat (u32 (in_e i - in_w i))) 0 Hi) as (i' & -> & Hi').
    - destruct Hi as (R & _ & _ & -> & -> & Hl & _). rewrite u32_dist by (unfold INPUT_SIZE in *; lia). lia.
    - eexists _, _, _. split_and!; done. }
  case_bool_decide as E3; [|case_bool_decide as E3']; cbn [orb].
  1,2: case_bool_decide as E4; cbn [negb].
  1,3: apply (irep_empty _ _ _ Hi) in E4 as ->; eexists _, _, _; split_and!; done.
  1,2: destruct l as [|x l] using rev_ind; [by destruct E4; apply (irep_empty _ _ _ Hi)|];
    clear IHl; rewrite removelast_last; eexists _, _, _; split_and!; [done|by eapply irep_back|done].
  assert (u32 (in_e i - in_r i) <z INPUT_BUF = bool_decide (length d + length l < INPUT_SIZE)%nat) as ->.
  { destruct Hi as (R & _ & -> & _ & -> & Hl & _). rewrite u32_dist by (unfold INPUT_SIZE in *; lia).
    unfold INPUT_BUF, INPUT_SIZE. apply bool_decide_ext. lia. }
  case_bool_decide as E4; cbn [negb andb]; [eexists _, _, _; split_and!; done|].
  case_bool_decide as E5; [|eexists _, _, _; split_and!; done]. change (if c =z 13 then 10 else c) with (newline c).
  assert (u8 (newline c) = newline c) as -> by (pose proof (newline_ok c Hc); apply Z.mod_small; unfold byte_ok in *; lia).
  destruct (irep_push i d l (newline c) Hi E5 (newline_ok c Hc)) as [Hp1 Hp2]. cbv zeta. cbn [in_e in_r in_w in_buf] in *.
  assert (u32 (in_e i + 1) =z u32 (in_r i + INPUT_BUF) = bool_decide (length d + length (l ++ [newline c]) = INPUT_SIZE)%nat) as ->.
  { destruct Hi as (R & _ & -> & _ & -> & Hl & _). rewrite !u32_add_l, length_app. cbn [length]. apply bool_decide_ext.
    unfold INPUT_BUF, INPUT_SIZE in *. split; [intros E%u32_near; lia|]. intros E. f_equal. lia. }
  destruct (newline c =z 10) eqn:En; cbn [orb].
  { eexists _, _, _. split_and!; [done|exact Hp2|]. split; [intros _|done]. intros E. apply (f_equal length) in E.
    cbn in E. rewrite !length_app in E. cbn in E. lia. }
  apply bool_decide_eq_false in En.
  destruct (_ || _); (eexists _, _, _; split_and!; [done|first [exact Hp2|by apply Hp1]|]); [|done].
  split; [intros _|done]. intros E. apply (f_equal length) in E. cbn in E. rewrite !length_app in E. cbn in E. lia.
Qed.

(** A byte is taken from the buffer. *)
Lemma irep_pop i c d l : irep i (c :: d) l ->
  in_at i (in_r i) = c /\ irep (Input (in_buf i) (u32 (in_r i + 1)) (in_w i) (in_e i)) d l.
Proof.
  intros (R & Hb & Hr & Hw & He & Hl & Hc & Hn & Hok). split.
  - rewrite Hr, in_at_u32, <- (Z.add_0_r R). by apply (Hc 0%nat).
  - exists (R + 1). cbn [in_r in_w in_e in_buf length] in *. split_and!; try done.
    + by rewrite Hr, u32_add_l.
    + rewrite Hw. f_equal. lia.
    + rewrite He. f_equal. lia.
    + lia.
    + intros k x Hk. replace (R + 1 + Z.of_nat k) with (R + Z.of_nat (S k)) by lia. by apply Hc.
    + by apply Forall_cons in Hok as [_ ?].
Qed.

Lemma read_loop_line n : forall i d l acc, irep i d l ->
  exists i' r, read_loop n i acc = (i', r) /\ irep i' (fst (read_line n d acc)) l /\
    match r with CDone b => (snd (read_line n d acc)) = Some b | CSleep _ _ => (snd (read_line n d acc)) = None end.
Proof.
  induction n as [|n IH]; intros i d l acc Hi; cbn [read_loop read_line]; [by eexists _, _|].
  destruct d as [|c d].
  - rewrite bool_decide_eq_true_2 by (by apply (irep_none _ _ _ Hi)). by eexists _, _.
  - rewrite bool_decide_eq_false_2 by (intros E; by apply (irep_none _ _ _ Hi) in E).
    destruct (irep_pop _ _ _ _ Hi) as [-> Hi']. case_bool_decide.
    + eexists _, _. split; [done|]. split; [|done]. by case_bool_decide.
    + case_bool_decide; [by eexists _, _|]. by apply IH.
Qed.

(** ** Typing and reading in any order *)

Inductive event := Key (c : Z) | Read (n : nat).

(** What the reads return when the ring buffer is used: [None] for a reader
    that goes to sleep. *)
Fixpoint run_ring (evs : list event) (i : input) : list (option (list Z)) :=
  match evs with
  | [] => []
  | Key c :: evs' => let '(i, _, _) := edit_char c i in run_ring evs' i
  | Read n :: evs' =>
      let (i, r) := read_loop n i [] in
      match r with CDone l => Some l | CSleep _ _ => None end :: run_ring evs' i
  end.
(** The same with the two lists. *)
Fixpoint run_lists (evs : list event) (d l : list Z) : list (option (list Z)) :=
  match evs with
  | [] => []
  | Key c :: evs' => let (d, l) := feed c d l in run_lists evs' d l
  | Read n :: evs' => let (d, r) := read_line n d [] in r :: run_lists evs' d l
  end.

Definition key_ok (e : event) : Prop := match e with Key c => 0 <= c < 256 | Read _ => True end.

Lemma run_ring_lists evs : forall i d l, irep i d l -> Forall key_ok evs -> run_ring evs i = run_lists evs d l.
Proof.
  induction evs as [|[c|n] evs IH]; intros i d l Hi Hok; [done|..]; apply Forall_cons in Hok as [Hc Hok]; cbn [run_ring run_lists].
  - destruct (edit_char_feed i d l c Hi Hc) as (i' & out & wk & -> & Hi' & _). destruct (feed c d l) as [d' l']. by apply IH.
  - destruct (read_loop_line n i d l [] Hi) as (i' & r & -> & Hi' & Hr). destruct (read_line n d []) as [d' o].
    cbn in Hr, Hi'. f_equal; [by destruct r|]. by apply IH.
Qed.

(** C28: typing and reading in any order, from an empty buffer at any value
    of the counters, give every reader what the editor on two lists gives it:
    no character is lost, duplicated or reordered by the ring buffer, also
    when it is full and when its counters wrap. *)
Theorem console_refines evs buf x : length buf = INPUT_SIZE -> 0 <= x < 2 ^ 32 -> Forall key_ok evs ->
  run_ring evs (Input buf x x x) = run_lists evs [] [].
Proof.
  intros Hb Hx Hok. apply run_ring_lists; [|done]. exists x. cbn. rewrite Z.add_0_r, u32_small by done.
  split_and!; try done; [unfold INPUT_SIZE; lia|set_solver].
Qed.

(** The user types a line with a correction, kills a line and types another;
    two reads return the lines and a third waits.  The counters wrap. *)
Lemma console_refines_witness :
  run_ring [Key 108; Key 120; Key 8; Key 115; Key 13; Key 122; Key 21; Key 97; Key 4; Read 10; Read 10; Read 10; Read 10]
    (Input (replicate 128 0) (2 ^ 32 - 3) (2 ^ 32 - 3) (2 ^ 32 - 3)) =
  [Some [108; 115; 10]; Some [97]; Some []; None].
Proof.
  etrans; [apply console_refines; [done|lia|]|vm_compute; reflexivity].
  repeat (constructor; [cbn; lia|]). constructor.
Defined.

(** ** The screen *)

(** With the cursor on one of the 24 rows that are used, [cgaputc]
    neither panics nor writes outside the screen, and leaves the cursor there;
    when the text scrolls, every cell before the cursor holds what was one row
    below it. *)
Theorem cga_safe c pos crt : 0 <= pos < 24 * 80 -> (25 * 80 <= length crt)%nat ->
  exists pos' crt', cga_put c pos crt = Some (pos', crt') /\ 0 <= pos' < 24 * 80 /\ length crt' = length crt /\
    let (p, t) := cga_char c pos crt in
    (p < 24 * 80 -> pos' = p /\ forall k, k <> Z.to_nat p -> crt' !! k = t !! k) /\
    (24 * 80 <= p -> pos' = p - 80 /\ forall k, (k < Z.to_nat pos')%nat -> crt' !! k = t !! (k + 80)%nat).
Proof.
  intros Hp Hl. unfold cga_put. destruct (cga_char c pos crt) as [p t] eqn:E.
  assert (0 <= p <= 24 * 80 /\ length t = length crt) as [Hp' Hlt].
  { unfold cga_char in E. pose proof (Z.mod_pos_bound pos 80 ltac:(lia)). pose proof (Z.div_mod pos 80 ltac:(lia)).
    repeat case_bool_decide; injection E as <- <-; rewrite ?length_insert; split; try done; try lia.
    }
  rewrite !bool_decide_eq_false_2 by lia. cbn [orb]. unfold cga_scroll. destruct (decide (p < 24 * 80)) as [Hs|Hs].
  - rewrite bool_decide_eq_false_2 by (apply Z.nle_gt, Z.div_lt_upper_bound; lia).
    eexists _, _. split_and!; [done|lia|lia|by rewrite length_insert|..]; [|lia]. intros _. split; [done|].
    intros k Hk. by rewrite list_lookup_insert_ne.
  - assert (p = 1920) as -> by lia. rewrite bool_decide_eq_true_2 by done. set (t1 := splice 0 _ t).
    assert (length t1 = length t) as Hl1 by (apply length_splice; rewrite length_slice; lia).
    eexists _, _. split_and!; [done|lia|lia| | |].
    + rewrite length_insert, length_splice, Hl1; [done|]. rewrite length_replicate. lia.
    + lia.
    + intros _. split; [done|]. intros k Hk. rewrite list_lookup_insert_ne by lia. rewrite lookup_splice_out by (rewrite ?length_replicate; lia).
      unfold t1. rewrite lookup_splice_in by (rewrite ?length_slice; lia). rewrite Nat.sub_0_r. unfold slice.
      rewrite lookup_take_lt by lia. by rewrite lookup_drop, Nat.add_comm.
Qed.
