(* ===== verification/Printf.v ===== *)
(** * printf

    [printf.c] of the user library, as the bytes it hands to [write] one by
    one, and the meaning of the numbers that it and [cprintf] print. *)

From S2P Require Import Prelude Bytes Word32 Params Machine CString Ulib Console.
Local Open Scope Z_scope.

(** The characters of a format or message. *)
Definition chars (s : string) : list Z := map (fun a => Z.of_nat (Ascii.nat_of_ascii a)) (String.list_ascii_of_string s).

(** "0123456789ABCDEF" *)
Definition udigit_char (d : Z) : Z := nth (Z.to_nat d) [48; 49; 50; 51; 52; 53; 54; 55; 56; 57; 65; 66; 67; 68; 69; 70] 0.

(** The bytes of [printint], in the order of the calls of [putc]. *)
Definition uprintint (xx base : Z) (sgn : bool) : list Z :=
  let neg := sgn && (xx <z 0) in
  let x := if neg then u32 (- xx) else u32 xx in
  let buf := digits_loop udigit_char 32 x base ++ (if neg then [45] else []) in
  rev buf.

(** [printf] from a point of the format on, in one of its two states; the
    words on the stack are [args].  [None]: an argument is missing, or is a
    number where a pointer is needed. *)
Fixpoint printf_loop (fmt : list Z) (percent : bool) (args : list carg) : option (list Z) :=
  match fmt with
  | [] => None
  | c :: fmt' =>
      if c =z 0 then Some [] else
      if negb percent then
        if c =z 37 then printf_loop fmt' true args else cons c <$> printf_loop fmt' false args
      else if c =z 100 then
        match args with
        | CInt x :: args' => app (uprintint (s32 x) 10 true) <$> printf_loop fmt' false args'
        | _ => None
        end
      else if (c =z 120) || (c =z 112) then
        match args with
        | CInt x :: args' => app (uprintint (s32 x) 16 false) <$> printf_loop fmt' false args'
        | _ => None
        end
      else if c =z 115 then
        match args with
        | CStr s :: args' =>
            app (upto0 (default [40; 110; 117; 108; 108; 41; 0] s)) <$> printf_loop fmt' false args'
        | _ => None
        end
      else if c =z 99 then
        match args with
        | CInt x :: args' => cons (u8 x) <$> printf_loop fmt' false args'
        | _ => None
        end
      else if c =z 37 then cons c <$> printf_loop fmt' false args
      else (fun l => 37 :: c :: l) <$> printf_loop fmt' false args
  end.
Definition printf (fmt : list Z) (args : list carg) : option (list Z) := printf_loop fmt false args.

(** ** What the digits mean *)

(** The number a string of digits stands for. *)
Definition number (digit : Z -> Z) (base : Z) (l : list Z) (x : Z) : Prop :=
  exists ds, l = digit <$> ds /\ Forall (fun d => 0 <= d < base) ds /\ x = foldl (fun a d => a * base + d) 0 ds.

Lemma foldl_snoc_digits base ds d : foldl (fun a d => a * base + d) 0 (ds ++ [d]) =
  foldl (fun a d => a * base + d) 0 ds * base + d.
Proof. by rewrite foldl_app. Qed.

(** The loop of [printint] has enough rounds, and stores the digits of [x]. *)
Lemma digits_loop_number digit base fuel : 2 <= base -> forall x, 0 <= x < 2 ^ Z.of_nat fuel -> (0 < fuel)%nat ->
  number digit base (rev (digits_loop digit fuel x base)) x.
Proof.
  intros Hb. induction fuel as [|fuel IH]; intros x Hx Hf; [lia|]. cbn [digits_loop rev].
  pose proof (Z.mod_pos_bound x base ltac:(lia)) as Hm. pose proof (Z.div_mod x base ltac:(lia)) as Hd.
  assert (0 <= x / base) as Hq by (apply Z.div_pos; lia). case_bool_decide as E.
  - exists [x mod base]. cbn. split_and!; [done|constructor; [done|constructor]|lia].
  - assert (x / base <= x / 2) as H2 by (apply Z.div_le_compat_l; lia).
    assert (x / 2 < 2 ^ Z.of_nat fuel) as H3.
    { apply Z.div_lt_upper_bound; [lia|]. rewrite Nat2Z.inj_succ, Z.pow_succ_r in Hx by lia. lia. }
    destruct fuel as [|fuel]; [cbn in H3; lia|].
    destruct (IH (x / base)) as (ds & -> & Hok & Hv); [lia|lia|]. exists (ds ++ [x mod base]). split_and!.
    + by rewrite fmap_app.
    + apply Forall_app. split; [done|]. constructor; [done|constructor].
    + rewrite foldl_snoc_digits, <- Hv. lia.
Qed.

Lemma number_unique digit base l x y : (forall a b, 0 <= a < base -> 0 <= b < base -> digit a = digit b -> a = b) ->
  number digit base l x -> number digit base l y -> x = y.
Proof.
  intros Hinj (ds & -> & Hd & ->) (ds' & E & Hd' & ->). f_equal. revert ds' E Hd'.
  induction Hd as [|d ds Hd0 Hd IH]; intros [|d' ds'] E Hd'; try done.
  apply Forall_cons in Hd' as [Hd0' Hd']. injection E as E1 E2. f_equal; [by apply Hinj|by apply IH].
Qed.

(** [atoi] computes the number of a string of decimal digits. *)
Lemma atoi_loop_digits ds r n : Forall (fun d => 0 <= d < 10) ds -> 0 <= n ->
  foldl (fun a d => a * 10 + d) n ds < 2 ^ 31 ->
  atoi_loop ((udigit_char <$> ds) ++ 0 :: r) n = Some (foldl (fun a d => a * 10 + d) n ds).
Proof.
  intros Hd. revert n. induction Hd as [|d ds Hd0 Hd IH]; intros n Hn Hlt; cbn [fmap list_fmap app atoi_loop foldl] in *; [done|].
  assert (udigit_char d = 48 + d) as Ec.
  { assert (d ∈ seqZ 0 10) as Hin by (apply elem_of_seqZ; lia). revert Hin. vm_compute seqZ. intros Hin.
    repeat (apply elem_of_cons in Hin as [->|Hin]; [done|]). by apply not_elem_of_nil in Hin. }
  rewrite Ec, !bool_decide_eq_true_2 by lia. cbn [andb].
  assert (n * 10 + d <= foldl (fun a d => a * 10 + d) (n * 10 + d) ds) as Hle.
  { clear -Hd Hn Hd0. assert (0 <= n * 10 + d) as Hm by lia. revert Hm. generalize (n * 10 + d).
    induction Hd as [|e ds He Hd IH]; intros m Hm; cbn; [done|]. etrans; [|apply IH; lia]. lia. }
  rewrite s32_small by lia. replace (n * 10 + (48 + d) - 48) with (n * 10 + d) by lia. apply IH; [lia|done].
Qed.

(** A number below [base ^ n] has at most [n] digits. *)
Lemma length_digits_loop digit base n : 2 <= base -> forall fuel x, 0 <= x < base ^ Z.of_nat n -> (0 < n)%nat ->
  (length (digits_loop digit fuel x base) <= n)%nat.
Proof.
  intros Hb. induction n as [|n IH]; intros fuel x Hx Hn; [lia|]. destruct fuel as [|fuel]; cbn [digits_loop length]; [lia|].
  rewrite Nat2Z.inj_succ, Z.pow_succ_r in Hx by lia. case_bool_decide as E; cbn [length]; [lia|].
  assert (0 <= x / base < base ^ Z.of_nat n) as Hq by (split; [apply Z.div_pos|apply Z.div_lt_upper_bound]; lia).
  destruct n as [|n]; [cbn in Hq; lia|]. specialize (IH fuel (x / base) Hq ltac:(lia)). lia.
Qed.

Lemma uprintint_pos x base sgn : 0 <= x < 2 ^ 32 -> uprintint x base sgn = rev (digits_loop udigit_char 32 x base).
Proof.
  intros Hx. unfold uprintint. rewrite (bool_decide_eq_false_2 (x < 0)) by lia. rewrite andb_false_r, app_nil_r.
  by rewrite u32_small by lia.
Qed.

Lemma s32_int x : - 2 ^ 31 <= x < 2 ^ 31 -> s32 x = x.
Proof.
  intros Hx. destruct (decide (0 <= x)); [apply s32_small; lia|]. unfold s32, u32. replace (x mod 2 ^ 32) with (x + 2 ^ 32).
  - cbv zeta. rewrite bool_decide_eq_false_2; lia.
  - apply (Z.mod_unique_pos x (2 ^ 32) (-1)); lia.
Qed.

(** A negative number is printed with a minus sign in front. *)
Lemma uprintint_neg x : - 2 ^ 31 <= x < 0 -> exists l, uprintint x 10 true = 45 :: l.
Proof.
  intros Hx. unfold uprintint. rewrite bool_decide_eq_true_2 by lia. cbn [andb]. rewrite rev_app_distr. cbn [rev app]. eauto.
Qed.

(** C32: [atoi] on what [printf] prints with [%d], for every [int], whatever
    follows the number: an [int] that is not negative is read back; a negative
    one is not, since [atoi] knows no sign and stops at it with 0. *)
Theorem printf_atoi x r : - 2 ^ 31 <= x < 2 ^ 31 ->
  exists l, printf [37; 100; 0] [CInt x] = Some l /\ atoi (l ++ 0 :: r) = Some (if decide (0 <= x) then x else 0).
Proof.
  intros Hx. exists (uprintint (s32 x) 10 true). split.
  { change (printf _ _) with (Some (uprintint (s32 x) 10 true ++ [])). by rewrite app_nil_r. }
  rewrite s32_int by lia. case_decide as Hs.
  - rewrite uprintint_pos by lia. destruct (digits_loop_number udigit_char 10 32 ltac:(lia) x) as (ds & -> & Hd & Hv); [cbn; lia|lia|].
    unfold atoi. rewrite atoi_loop_digits; [by rewrite <- Hv|done|lia|lia].
  - destruct (uprintint_neg x ltac:(lia)) as [l ->]. reflexivity.
Qed.

Lemma printf_atoi_witness : (printf [37; 100; 0] [CInt 537] = Some [53; 51; 55] /\ atoi [53; 51; 55; 0; 9] = Some 537) /\
  printf [37; 100; 0] [CInt (-5)] = Some [45; 53] /\ atoi [45; 53; 0; 9] = Some 0.
Proof.
  split.
  - destruct (printf_atoi 537 [9] ltac:(lia)) as (l & E & Ha). vm_compute in E. injection E as <-. split; [done|exact Ha].
  - destruct (printf_atoi (-5) [9] ltac:(lia)) as (l & E & Ha). vm_compute in E. injection E as <-. split; [done|exact Ha].
Defined.

(** For every [int] and both bases in use, the digits that the two
    functions [printint] store fit in their buffers of 16 bytes, and what they
    put out is a minus sign exactly for negative numbers printed signed,
    followed by the digits of the absolute or of the unsigned value. *)
Theorem printint_correct (kernel : bool) xx base (sgn : bool) : - 2 ^ 31 <= xx < 2 ^ 31 -> base = 10 \/ base = 16 ->
  let digit := if kernel then digit_char else udigit_char in
  let out := if kernel then printint_chars xx base sgn else uprintint xx base sgn in
  (length out <= 16)%nat /\ exists l x, number digit base l x /\ out = (if sgn && (xx <z 0) then [45] else []) ++ l /\
    x = (if sgn then Z.abs xx else u32 xx).
Proof.
  intros Hx Hb digit out. set (neg := sgn && (xx <z 0)). set (x := if neg then u32 (- xx) else u32 xx).
  assert (out = (if neg then [45] else []) ++ rev (digits_loop digit 32 x base)) as Eo.
  { unfold out, digit. destruct kernel; [unfold printint_chars|unfold uprintint]; fold neg; fold x; cbv zeta;
      rewrite rev_app_distr; by destruct neg. }
  assert (0 <= x < 2 ^ 32) as Hx32 by (unfold x; destruct neg; apply u32_range).
  pose proof (digits_loop_number digit base 32 ltac:(lia) x ltac:(cbn; lia) ltac:(lia)) as Hn. split.
  - rewrite Eo, length_app, length_rev. assert (length (digits_loop digit 32 x base) <= 10)%nat as Hl.
    { apply length_digits_loop; [lia| |lia]. destruct Hb as [->| ->]; cbn; lia. }
    destruct neg; cbn [length]; lia.
  - eexists _, x. split_and!; [exact Hn|exact Eo|]. unfold x, neg. destruct sgn; cbn [andb]; [|done].
    case_bool_decide; rewrite u32_small; lia.
Qed.
