(* ===== verification/Umalloc.v ===== *)
(** * The user-level allocator

    [umalloc.c], the allocator of Kernighan and Ritchie: a circular list of
    free blocks in the order of their addresses, threaded through the headers
    of the blocks.  A header is a pointer and a size in units of eight bytes;
    memory is seen as the headers at its addresses. *)

From stdpp Require Import sorting.
From S2P Require Import Prelude Bytes Word32 Params.
Local Open Scope Z_scope.

Definition HDR : Z := 8.

(** [u_freep] is 0 before the first call; [u_brk] is the size of the process
    and [u_max] how far the kernel has memory to let it grow. *)
Record ustate := Ustate { u_hdr : gmap Z (Z * Z); u_freep : Z; u_brk : Z; u_max : Z }.
Definition set_hdr (h : gmap Z (Z * Z)) (s : ustate) : ustate := Ustate h (u_freep s) (u_brk s) (u_max s).
Definition set_freep (p : Z) (s : ustate) : ustate := Ustate (u_hdr s) p (u_brk s) (u_max s).
Definition set_brk (b : Z) (s : ustate) : ustate := Ustate (u_hdr s) (u_freep s) b (u_max s).

(** ** The code *)

Definition hdr (p : Z) : M ustate (Z * Z) := s ← get; of_option "header" (u_hdr s !! p).
Definition hptr (p : Z) : M ustate Z := x ← hdr p; mret (fst x).
Definition hsize (p : Z) : M ustate Z := x ← hdr p; mret (snd x).
(** A store to a field makes the other one readable too: it keeps its value,
    and is 0 where nothing was stored before. *)
Definition put_ptr (p v : Z) : M ustate unit :=
  modify (fun s => set_hdr (<[p := (v, snd (default (0, 0) (u_hdr s !! p)))]> (u_hdr s)) s).
Definition put_size (p v : Z) : M ustate unit :=
  modify (fun s => set_hdr (<[p := (fst (default (0, 0) (u_hdr s !! p)), v)]> (u_hdr s)) s).
(** [p + n] for a pointer to a header. *)
Definition hplus (p n : Z) : Z := u32 (p + HDR * n).

(** The search of [free]; it goes once around the list at most. *)
Fixpoint free_find (fuel : nat) (bp p : Z) : M ustate Z :=
  n ← hptr p;
  if (p <z bp) && (bp <z n) then mret p else
  if (n <=z p) && ((p <z bp) || (bp <z n)) then mret p else
  match fuel with
  | O => fault "free: no place"
  | S fuel' => free_find fuel' bp n
  end.

Definition free (ap : Z) : M ustate unit :=
  let bp := u32 (ap - HDR) in
  s ← get;
  p ← free_find (size (u_hdr s)) bp (u_freep s);
  n ← hptr p;
  bsz ← hsize bp;
  (if hplus bp bsz =z n then
     nsz ← hsize n;
     put_size bp (u32 (bsz + nsz)) ;;
     nn ← hptr n;
     put_ptr bp nn
   else put_ptr bp n) ;;
  psz ← hsize p;
  (if hplus p psz =z bp then
     bsz ← hsize bp;
     put_size p (u32 (psz + bsz)) ;;
     bn ← hptr bp;
     put_ptr p bn
   else put_ptr p bp) ;;
  modify (set_freep p).

(** The system call on sizes: [growproc] through [allocuvm] and [deallocuvm],
    and memory up to [u_max]; the result is the old size, or -1. *)
Definition sbrk (n : Z) : M ustate Z :=
  s ← get;
  let sz := u_brk s in
  let new := u32 (sz + n) in
  if 0 <z n then
    if (KERNBASE <=z new) || (u_max s <z new) then mret (-1)
    else modify (set_brk (if new <z sz then sz else new)) ;; mret sz
  else if n <z 0 then
    let new := if sz <=z new then sz else new in
    if new =z 0 then mret (-1) else modify (set_brk new) ;; mret sz
  else mret sz.

Definition morecore (nu : Z) : M ustate Z :=
  let nu := if nu <z 4096 then 4096 else nu in
  p ← sbrk (s32 (u32 (nu * HDR)));
  if u32 p =z u32 (-1) then mret 0 else
  put_size p nu ;;
  free (u32 (p + HDR)) ;;
  s ← get;
  mret (u_freep s).

(** The block at [p] is large enough: it, or its end, is handed out. *)
Definition take_block (prevp p nunits : Z) : M ustate Z :=
  sz ← hsize p;
  q ← (if sz =z nunits then
         n ← hptr p;
         put_ptr prevp n ;; mret p
       else
         put_size p (u32 (sz - nunits)) ;;
         put_size (hplus p (u32 (sz - nunits))) nunits ;;
         mret (hplus p (u32 (sz - nunits))));
  modify (set_freep prevp) ;;
  mret (hplus q 1).

Fixpoint malloc_loop (fuel : nat) (prevp p nunits : Z) : M ustate Z :=
  sz ← hsize p;
  if nunits <=z sz then take_block prevp p nunits else
  match fuel with
  | O => fault "malloc: no end"
  | S fuel' =>
      s ← get;
      if p =z u_freep s then
        q ← morecore nunits;
        if q =z 0 then mret 0 else
        n ← hptr q;
        malloc_loop fuel' q n nunits
      else
        n ← hptr p;
        malloc_loop fuel' p n nunits
  end.

Section malloc.
(** The address of the static variable [base]. *)
Variable base : Z.

Definition nunits_of (nbytes : Z) : Z := u32 (u32 (nbytes + HDR - 1) / HDR + 1).

(** Once around the list, once more after [morecore]. *)
Definition malloc (nbytes : Z) : M ustate Z :=
  let nunits := nunits_of nbytes in
  s ← get;
  when (u_freep s =z 0) (modify (set_hdr (<[base := (base, 0)]> (u_hdr s))) ;; modify (set_freep base)) ;;
  s ← get;
  let prevp := u_freep s in
  p ← hptr prevp;
  malloc_loop (2 * (size (u_hdr s) + 1)) prevp p nunits.
End malloc.

(** The blocks a client holds: the addresses of their headers, and their sizes. *)
Notation held := (gmap Z Z).

(** ** The circular list *)

(** The blocks [l] are linked from address [a] to address [z]. *)
Fixpoint lseg (h : gmap Z (Z * Z)) (a : Z) (l : list (Z * Z)) (z : Z) : Prop :=
  match l with
  | [] => a = z
  | (b, n) :: l' => a = b /\ exists p, h !! b = Some (p, n) /\ lseg h p l' z
  end.

(** Blocks in ascending order, with something between any two. *)
Definition gap (x y : Z * Z) : Prop := fst x + HDR * snd x < fst y.

Section lists.
Implicit Types (h : gmap Z (Z * Z)) (l : list (Z * Z)).

Lemma lseg_app h l1 : forall a l2 z, lseg h a (l1 ++ l2) z <-> exists m, lseg h a l1 m /\ lseg h m l2 z.
Proof.
  induction l1 as [|[b n] l1 IH]; intros a l2 z; cbn [app lseg].
  - split; [by exists a|]. by intros (m & -> & ?).
  - split.
    + intros (-> & p & Hp & (m & H1 & H2)%IH). exists m. split; [|done]. split; [done|]. by exists p.
    + intros (m & (-> & p & Hp & H1) & H2). split; [done|]. exists p. split; [done|]. apply IH. by exists m.
Qed.

Lemma lseg_ext h h' l : forall a z, lseg h a l z -> (forall x, x ∈ l.*1 -> h' !! x = h !! x) -> lseg h' a l z.
Proof.
  induction l as [|[b n] l IH]; intros a z Hl Hx; cbn [lseg] in *; [done|]. destruct Hl as (-> & p & Hp & Hl).
  split; [done|]. exists p. split; [rewrite Hx; [done|set_solver]|]. apply IH; [done|]. intros x ?. apply Hx. set_solver.
Qed.

Lemma lseg_insert h l a z b v : lseg h a l z -> b ∉ l.*1 -> lseg (<[b := v]> h) a l z.
Proof. intros Hl Hb. eapply lseg_ext; [done|]. intros x Hx. rewrite lookup_insert_ne; [done|]. by intros ->. Qed.

(** The address of a block, counted around the list. *)
Definition nd (l : list (Z * Z)) (k : nat) : Z * Z := nth (k mod length l) l (0, 0).

Lemma lseg_hd h l a z : lseg h a l z -> l <> [] -> a = fst (nth 0 l (0, 0)).
Proof. destruct l as [|[b n] l]; [done|]. by intros [-> _]. Qed.

Lemma lseg_nth h l : forall a z i, lseg h a l z -> (i < length l)%nat ->
  h !! fst (nth i l (0, 0)) = Some (if decide (S i < length l)%nat then fst (nth (S i) l (0, 0)) else z, snd (nth i l (0, 0))).
Proof.
  induction l as [|[b n] l IH]; intros a z i Hl Hi; [cbn in Hi; lia|]. destruct Hl as (-> & p & Hp & Hl). destruct i as [|i].
  - cbn [nth fst snd length]. rewrite Hp. do 2 f_equal. destruct l as [|x l]; [done|].
    rewrite decide_True by (cbn; lia). rewrite (lseg_hd _ _ _ _ Hl) by done. done.
  - cbn in Hi. cbn [nth length]. rewrite (IH _ _ i Hl ltac:(lia)). do 2 f_equal.
    destruct (decide (S i < length l)%nat); [rewrite decide_True by lia; done|rewrite decide_False by lia; done].
Qed.

(** Going around. *)
Lemma circ_next h l k : l <> [] -> lseg h (fst (nth 0 l (0, 0))) l (fst (nth 0 l (0, 0))) ->
  h !! fst (nd l k) = Some (fst (nd l (S k)), snd (nd l k)).
Proof.
  intros Hne Hl. assert (0 < length l)%nat as H0 by (destruct l; cbn; [done|lia]).
  assert (k mod length l < length l)%nat as Hk by (apply Nat.mod_upper_bound; lia).
  unfold nd. rewrite (lseg_nth _ _ _ _ _ Hl Hk). do 2 f_equal. pose proof (Nat.div_mod k (length l) ltac:(lia)) as Hd.
  destruct (decide (S (k mod length l) < length l)%nat) as [Hlt|Hge].
  - replace (S k) with (S (k mod length l) + k / length l * length l)%nat by lia.
    by rewrite Nat.Div0.mod_add, (Nat.mod_small (S _)).
  - replace (S k) with (0 + (S (k / length l)) * length l)%nat by lia. by rewrite Nat.Div0.mod_add, Nat.Div0.mod_0_l.
Qed.
End lists.

(** ** Order *)

Definition wf_nodes (l : list (Z * Z)) : Prop := StronglySorted gap l /\ Forall (fun x => 0 <= snd x) l.

Lemma nodes_gap l i j : wf_nodes l -> (i < j < length l)%nat -> gap (nth i l (0, 0)) (nth j l (0, 0)).
Proof.
  intros [Hs _]. revert i j. induction Hs as [|x l Hs IH Hx]; intros i j Hij; [cbn in Hij; lia|].
  destruct j as [|j]; [lia|]. cbn in Hij. destruct i as [|i]; cbn [nth].
  - rewrite Forall_forall in Hx. apply Hx. apply list_elem_of_In, nth_In. lia.
  - apply IH. lia.
Qed.
Lemma nodes_lt l i j : wf_nodes l -> (i < j < length l)%nat -> fst (nth i l (0, 0)) < fst (nth j l (0, 0)).
Proof.
  intros Hw Hij. pose proof (nodes_gap l i j Hw Hij) as Hg. unfold gap, HDR in Hg. destruct Hw as [_ Hp].
  rewrite Forall_forall in Hp. specialize (Hp (nth i l (0, 0))). rewrite list_elem_of_In in Hp.
  specialize (Hp ltac:(apply nth_In; lia)). lia.
Qed.

Lemma nodes_nodup l : wf_nodes l -> NoDup l.*1.
Proof.
  intros [Hs Hp]. induction Hs as [|x l Hs IH Hx]; [constructor|]. apply Forall_cons in Hp as [Hx0 Hp]. constructor; [|by apply IH].
  intros (y & E & Hy)%list_elem_of_fmap. rewrite Forall_forall in Hx. specialize (Hx y Hy). unfold gap, HDR in Hx. lia.
Qed.

(** The place of an address that is not in the list. *)
Lemma nodes_split l bp : wf_nodes l -> bp ∉ l.*1 -> l <> [] -> fst (nth 0 l (0, 0)) < bp ->
  exists A x C, l = A ++ x :: C /\ fst x < bp /\ Forall (fun y => bp < fst y) C.
Proof.
  intros [Hs Hp] Hn. induction Hs as [|x l Hs IH Hx]; intros Hne Hlt; [done|]. cbn in Hlt. apply Forall_cons in Hp as [_ Hp].
  destruct l as [|y l]; [by exists [], x, []|]. destruct (decide (bp < fst y)) as [Hy|Hy].
  - exists [], x, (y :: l). split_and!; [done|done|]. apply StronglySorted_inv in Hs as [_ Hy']. constructor; [done|].
    apply Forall_cons in Hp as [Hy0 _]. eapply Forall_impl; [exact Hy'|]. intros z Hz. unfold gap, HDR in Hz. lia.
  - destruct IH as (A & z & C & E & Hz & HC); [done|set_solver|done|cbn; assert (bp <> fst y) by set_solver; lia|].
    exists (x :: A), z, C. by rewrite E.
Qed.

(** ** free *)

Lemma wp_hptr (Q : Z -> ustate -> Prop) s a p n : u_hdr s !! a = Some (p, n) -> Q p s -> wp (hptr a) Q s.
Proof. intros Ha HQ. unfold hptr, hdr. wp_steps. eapply wp_of_option; [done|]. by wp_step. Qed.
Lemma wp_hsize (Q : Z -> ustate -> Prop) s a p n : u_hdr s !! a = Some (p, n) -> Q n s -> wp (hsize a) Q s.
Proof. intros Ha HQ. unfold hsize, hdr. wp_steps. eapply wp_of_option; [done|]. by wp_step. Qed.
Lemma wp_put_ptr (Q : unit -> ustate -> Prop) s a p n v : u_hdr s !! a = Some (p, n) ->
  Q tt (set_hdr (<[a := (v, n)]> (u_hdr s)) s) -> wp (put_ptr a v) Q s.
Proof. intros Ha HQ. unfold put_ptr. wp_step. by rewrite Ha. Qed.
Lemma wp_put_size (Q : unit -> ustate -> Prop) s a p n v : u_hdr s !! a = Some (p, n) ->
  Q tt (set_hdr (<[a := (p, v)]> (u_hdr s)) s) -> wp (put_size a v) Q s.
Proof. intros Ha HQ. unfold put_size. wp_step. by rewrite Ha. Qed.

(** One round of the search. *)
Definition stops (bp p n : Z) : Prop := (p < bp < n) \/ (n <= p /\ (p < bp \/ bp < n)).
Lemma wp_find_stop (Q : Z -> ustate -> Prop) s fuel bp p n m : u_hdr s !! p = Some (n, m) -> stops bp p n -> Q p s ->
  wp (free_find fuel bp p) Q s.
Proof.
  intros Hp Hs HQ. destruct fuel; cbn [free_find]; wp_step; (eapply wp_hptr; [done|]).
  all: unfold stops in Hs; repeat case_bool_decide; cbn [andb orb]; first [by wp_step|lia].
Qed.
Lemma wp_find_go (Q : Z -> ustate -> Prop) s fuel bp p n m : u_hdr s !! p = Some (n, m) -> ~ stops bp p n ->
  wp (free_find fuel bp n) Q s -> wp (free_find (S fuel) bp p) Q s.
Proof.
  intros Hp Hs HQ. cbn [free_find]; wp_step; (eapply wp_hptr; [done|]).
  unfold stops in Hs. repeat case_bool_decide; cbn [andb orb]; first [done|lia].
Qed.

(** The search stops at the block [x] before the place of [bp]. *)
Lemma wp_free_find (Q : Z -> ustate -> Prop) s N A x C bp :
  lseg (u_hdr s) (fst (nth 0 N (0, 0))) N (fst (nth 0 N (0, 0))) -> wf_nodes N -> N = A ++ x :: C ->
  fst (nth 0 N (0, 0)) < bp -> fst x < bp -> Forall (fun y => bp < fst y) C -> Q (fst x) s ->
  forall d k fuel, ((k + d) mod length N = length A)%nat -> (forall d', (d' < d)%nat -> (k + d') mod length N <> length A)%nat ->
    (d <= fuel)%nat -> wp (free_find fuel bp (fst (nd N k))) Q s.
Proof.
  intros Hl Hw EN H0 Hx HC HQ. assert (N <> []) as Hne by (intros ->; by destruct A).
  assert (length N = length A + S (length C))%nat as EL by (rewrite EN, length_app; done).
  assert (nth (length A) N (0, 0) = x) as Ex by (rewrite EN, app_nth2, Nat.sub_diag by lia; done).
  assert (forall j, (length A < j < length N)%nat -> bp < fst (nth j N (0, 0))) as HC'.
  { intros j Hj. rewrite EN, app_nth2 by lia. destruct (j - length A)%nat as [|i] eqn:Ei; [lia|]. cbn [nth].
    rewrite Forall_forall in HC. apply HC, list_elem_of_In, nth_In. lia. }
  assert (forall j, (j <= length A)%nat -> fst (nth j N (0, 0)) < bp) as HA'.
  { intros j Hj. destruct (decide (j = length A)) as [->|]; [by rewrite Ex|].
    pose proof (nodes_lt N j (length A) Hw ltac:(lia)) as Hlt. rewrite Ex in Hlt. lia. }
  assert (forall k, fst (nd N (S k)) = if decide (S (k mod length N) < length N)%nat
    then fst (nth (S (k mod length N)) N (0, 0)) else fst (nth 0 N (0, 0))) as Hnext.
  { intros k. unfold nd. pose proof (Nat.div_mod k (length N) ltac:(lia)) as Hdm. case_decide.
    - replace (S k) with (S (k mod length N) + k / length N * length N)%nat by lia.
      by rewrite Nat.Div0.mod_add, (Nat.mod_small (S _)).
    - replace (S k) with (0 + S (k / length N) * length N)%nat by (pose proof (Nat.mod_upper_bound k (length N)); lia).
      by rewrite Nat.Div0.mod_add, Nat.Div0.mod_0_l. }
  induction d as [|d IH]; intros k fuel Hk Hd Hf.
  - rewrite Nat.add_0_r in Hk. assert (nd N k = x) as Ek by (unfold nd; by rewrite Hk).
    eapply wp_find_stop; [by apply circ_next| |by rewrite Ek]. rewrite Ek, Hnext, Hk. unfold stops. case_decide.
    + left. split; [done|]. apply HC'. lia.
    + right. split; [|by left]. destruct (decide (length A = 0)%nat) as [E0|]; [rewrite <- Ex, E0; done|].
      pose proof (nodes_lt N 0 (length A) Hw ltac:(lia)) as Hlt. rewrite Ex in Hlt. lia.
  - destruct fuel as [|fuel]; [lia|]. eapply wp_find_go; [by apply circ_next| |].
    + specialize (Hd 0%nat ltac:(lia)). rewrite Nat.add_0_r in Hd. rewrite Hnext. unfold nd.
      assert (k mod length N < length N)%nat as Hkl by (apply Nat.mod_upper_bound; lia).
      set (j := (k mod length N)%nat) in *. unfold stops. destruct (decide (j < length A)%nat).
      * rewrite decide_True by lia. pose proof (HA' j ltac:(lia)). pose proof (HA' (S j) ltac:(lia)).
        pose proof (nodes_lt N j (S j) Hw ltac:(lia)). lia.
      * pose proof (HC' j ltac:(lia)). case_decide; [|lia]. pose proof (nodes_lt N j (S j) Hw ltac:(lia)). lia.
    + apply IH; [rewrite <- Hk; f_equal; lia| |lia]. intros d' Hd'. specialize (Hd (S d') ltac:(lia)).
      by replace (S k + d')%nat with (k + S d')%nat by lia.
Qed.

(** From any block the search reaches every other one in one round. *)
Lemma around n k t : (t < n)%nat -> exists d, (d < n)%nat /\ ((k + d) mod n = t)%nat /\
  forall d', (d' < d)%nat -> ((k + d') mod n <> t)%nat.
Proof.
  intros Ht. pose proof (Nat.mod_upper_bound k n ltac:(lia)) as Hk. pose proof (Nat.div_mod k n ltac:(lia)) as Hd.
  assert (forall d, (d < n)%nat -> ((k + d) mod n = if decide (k mod n + d < n) then k mod n + d else k mod n + d - n)%nat) as Hm.
  { intros d Hdn. rewrite <- Nat.Div0.add_mod_idemp_l. case_decide; [by apply Nat.mod_small|].
    replace (k mod n + d)%nat with (k mod n + d - n + 1 * n)%nat at 1 by lia. rewrite Nat.Div0.mod_add. apply Nat.mod_small. lia. }
  exists (if decide (k mod n <= t) then t - k mod n else t + n - k mod n)%nat. case_decide.
  - split_and!; [lia| |].
    + rewrite Hm by lia. rewrite decide_True; lia.
    + intros d' Hd'. rewrite Hm by lia. case_decide; lia.
  - split_and!; [lia| |].
    + rewrite Hm by lia. rewrite decide_False; lia.
    + intros d' Hd'. rewrite Hm by lia. case_decide; lia.
Qed.

(** The list, as far as the free block before the new one: a block [x] takes
    in what follows it directly. *)
Definition add_right (b : Z * Z) (C : list (Z * Z)) : (Z * Z) * list (Z * Z) :=
  match C with
  | q :: C' => if fst b + HDR * snd b =z fst q then ((fst b, snd b + snd q), C') else (b, C)
  | [] => (b, [])
  end.
Definition join_left (x b : Z * Z) : list (Z * Z) :=
  if fst x + HDR * snd x =z fst b then [(fst x, snd x + snd b)] else [x; b].

(** A byte in a free block. *)
Definition cell (l : list (Z * Z)) (z : Z) : Prop := exists x, x ∈ l /\ fst x <= z < fst x + HDR * snd x.

Lemma cell_nil z : cell [] z <-> False.
Proof. split; [intros (x & Hx & _); set_solver|done]. Qed.
Lemma cell_cons x l z : cell (x :: l) z <-> fst x <= z < fst x + HDR * snd x \/ cell l z.
Proof. unfold cell. set_solver. Qed.
Lemma cell_app l1 l2 z : cell (l1 ++ l2) z <-> cell l1 z \/ cell l2 z.
Proof. unfold cell. set_solver. Qed.

Lemma add_right_spec b C : 0 < snd b -> StronglySorted gap C -> Forall (fun x => fst b + HDR * snd b <= fst x /\ 0 < snd x) C ->
  let r := add_right b C in
  fst (fst r) = fst b /\ snd b <= snd (fst r) /\ Forall (gap (fst r)) (snd r) /\ StronglySorted gap (snd r) /\
  (forall x, x ∈ snd r -> x ∈ C) /\ (forall z, cell (fst r :: snd r) z <-> fst b <= z < fst b + HDR * snd b \/ cell C z).
Proof.
  intros Hb Hs Hf. destruct C as [|q C]; cbn [add_right].
  { cbn [fst snd]. split_and!; [done|done|constructor|done|done|]. intros z. by rewrite cell_cons. }
  apply Forall_cons in Hf as [[Hq Hq0] Hf]. pose proof Hs as [Hs' Hg]%StronglySorted_inv. case_bool_decide as E; cbn [fst snd].
  - split_and!; [done|lia| |done|set_solver|].
    + eapply Forall_impl; [exact Hg|]. intros x Hx. unfold gap, HDR in *. cbn. lia.
    + intros z. rewrite !cell_cons. cbn [fst snd].
      assert (fst b <= z < fst b + HDR * (snd b + snd q) <-> fst b <= z < fst b + HDR * snd b \/ fst q <= z < fst q + HDR * snd q)
        by (unfold HDR in *; lia). tauto.
  - split_and!; try done; [|intros z; by rewrite cell_cons]. constructor; [unfold gap, HDR in *; lia|].
    rewrite Forall_forall in Hf. apply Forall_forall. intros x Hx. rewrite Forall_forall in Hg. specialize (Hg x Hx).
    unfold gap, HDR in *. lia.
Qed.

Lemma add_right_length b C r C1 : add_right b C = (r, C1) -> (length C1 <= length C)%nat.
Proof. destruct C as [|q C]; cbn [add_right]; [by intros [= _ <-]|]. case_bool_decide; intros [= _ <-]; cbn; lia. Qed.

Lemma join_left_spec A x b C : StronglySorted gap (A ++ [x]) -> StronglySorted gap C -> Forall (gap b) C ->
  (forall a c, a ∈ A -> c ∈ C -> gap a c) -> 0 <= snd x -> 0 < snd b -> fst x + HDR * snd x <= fst b ->
  StronglySorted gap (A ++ join_left x b ++ C) /\
  (forall z, cell (A ++ join_left x b ++ C) z <-> cell (A ++ [x]) z \/ cell (b :: C) z) /\
  Forall (fun y => 0 <= snd y) (join_left x b).
Proof.
  intros [HA [HsA _]]%StronglySorted_app HsC Hb HAC Hx Hb0 Hle.
  assert (Forall (gap x) C) as HxC.
  { eapply Forall_impl; [exact Hb|]. intros y Hy. unfold gap, HDR in *. lia. }
  assert (forall a y, a ∈ A -> gap a x -> fst x <= fst y -> gap a y) as Hay by (intros a y _ Hg Hf; unfold gap in *; lia).
  assert (forall a, a ∈ A -> gap a x) as HAx by (intros; apply HA; set_solver).
  unfold join_left. case_bool_decide as E.
  - split_and!.
    + apply StronglySorted_app. split_and!; [|done|].
      * intros a y Ha [->|Hy]%elem_of_cons; [by apply Hay; [|apply HAx|]|by apply HAC].
      * constructor; [done|]. eapply Forall_impl; [exact Hb|]. intros y Hy. unfold gap, HDR in *. cbn. lia.
    + intros z. rewrite !cell_app, !cell_cons. cbn [fst snd]. rewrite cell_nil. 
      assert (fst x <= z < fst x + HDR * (snd x + snd b) <-> fst x <= z < fst x + HDR * snd x \/ fst b <= z < fst b + HDR * snd b)
        by (unfold HDR in *; lia). tauto.
    + constructor; [cbn; lia|constructor].
  - split_and!.
    + apply StronglySorted_app. split_and!; [|done|].
      * intros a y Ha [->|[->|Hy]%elem_of_cons]%elem_of_cons; [by apply HAx| |by apply HAC].
        apply Hay; [done|by apply HAx|]. unfold HDR in *. lia.
      * constructor; [by constructor|]. constructor; [unfold gap, HDR in *; lia|done].
    + intros z. cbn [app]. rewrite !cell_app, !cell_cons, cell_nil. tauto.
    + constructor; [done|constructor; [lia|constructor]].
Qed.

(** ** The representation *)

Section heap.
Variable base : Z.

(** The blocks of the list: [base], which has no units, and the free blocks. *)
Definition nodes (L : list (Z * Z)) : list (Z * Z) := (base, 0) :: L.

(** [L] are the free blocks of the heap. *)
Record heap (s : ustate) (L : list (Z * Z)) : Prop := {
  hp_list : lseg (u_hdr s) base (nodes L) base;
  hp_order : wf_nodes (nodes L);
  hp_blocks : Forall (fun x => base + HDR <= fst x /\ 0 < snd x /\ fst x + HDR * snd x <= u_brk s) L;
  hp_freep : u_freep s ∈ (nodes L).*1;
  hp_base : 0 < base;
  hp_low : base + HDR <= u_brk s;
  hp_brk : u_brk s < KERNBASE
}.

(** A block at [bp] of [n] units that is not free. *)
Record taken (s : ustate) (L : list (Z * Z)) (bp n : Z) : Prop := {
  tk_hdr : exists p, u_hdr s !! bp = Some (p, n);
  tk_range : base + HDR <= bp /\ 0 < n /\ bp + HDR * n <= u_brk s;
  tk_disj : forall x, x ∈ L -> bp + HDR * n <= fst x \/ fst x + HDR * snd x <= bp
}.

Lemma heap_next s L k : heap s L -> u_hdr s !! fst (nd (nodes L) k) =
  Some (fst (nd (nodes L) (S k)), snd (nd (nodes L) k)).
Proof. intros Hh. by apply circ_next; [done|apply (hp_list _ _ Hh)]. Qed.

Lemma lseg_size h a l z : lseg h a l z -> NoDup l.*1 -> (length l <= size h)%nat.
Proof.
  intros Hl Hn. rewrite <- size_dom, <- (length_fmap fst l), <- (size_list_to_set (C := gset Z)) by done.
  apply subseteq_size. revert a Hl. clear Hn. induction l as [|[b n] l IH]; intros a Hl; [set_solver|].
  destruct Hl as (-> & p & Hp & Hl). apply elem_of_dom_2 in Hp. specialize (IH _ Hl). set_solver.
Qed.

Lemma heap_index L a : a ∈ (nodes L).*1 -> exists k, a = fst (nd (nodes L) k) /\ (k < S (length L))%nat.
Proof.
  intros (x & -> & (k & Hk)%list_elem_of_lookup)%list_elem_of_fmap. exists k. pose proof (lookup_lt_Some _ _ _ Hk) as Hlt.
  cbn in Hlt. unfold nd. rewrite Nat.mod_small by (cbn; lia). by rewrite (nth_lookup_Some _ _ _ _ Hk).
Qed.

(** The free block before a block that is not free. *)
Lemma heap_split s L bp n : heap s L -> taken s L bp n -> exists A x C, nodes L = A ++ x :: C /\
  fst x + HDR * snd x <= bp /\ Forall (fun y => bp + HDR * n <= fst y /\ 0 < snd y) C.
Proof.
  intros Hh [_ (Hb & Hn & _) Hd]. pose proof (hp_blocks _ _ Hh) as HB. rewrite Forall_forall in HB. unfold HDR in *.
  destruct (nodes_split (nodes L) bp) as (A & x & C & E & Hx & HC); [apply Hh| |done|cbn; lia|].
  - intros (y & -> & [->|Hy]%elem_of_cons)%list_elem_of_fmap; [cbn in Hb; lia|]. specialize (Hd y Hy). specialize (HB y Hy). lia.
  - exists A, x, C. split; [done|]. assert (forall y, y ∈ A ++ x :: C -> y = (base, 0) \/ y ∈ L) as Hin by (rewrite <- E; set_solver). split.
    + destruct (Hin x ltac:(set_solver)) as [->|Hx']; [cbn; lia|]. specialize (Hd x Hx'). specialize (HB x Hx'). lia.
    + rewrite Forall_forall in *. intros y Hy. specialize (HC y Hy). destruct (Hin y ltac:(set_solver)) as [->|Hy']; [cbn in HC; lia|].
      specialize (Hd y Hy'). specialize (HB y Hy'). lia.
Qed.

(** The search of [free] on the whole list. *)
Lemma wp_free_search (Q : Z -> ustate -> Prop) s L A x C bp : heap s L -> nodes L = A ++ x :: C -> base < bp -> fst x < bp ->
  Forall (fun y => bp < fst y) C -> Q (fst x) s -> wp (free_find (size (u_hdr s)) bp (u_freep s)) Q s.
Proof.
  intros Hh E Hb Hx HC HQ. destruct (heap_index L (u_freep s) (hp_freep _ _ Hh)) as (k & -> & _).
  assert (length A < length (nodes L))%nat as HA by (rewrite E, length_app; cbn; lia).
  destruct (around (length (nodes L)) k (length A) HA) as (d & Hd & Hk & Hmin).
  assert (length (nodes L) <= size (u_hdr s))%nat as Hs by (eapply lseg_size; [apply Hh|apply nodes_nodup, Hh]).
  eapply (wp_free_find _ s _ A x C); try done; [apply Hh|apply Hh|lia].
Qed.

(** The block takes in the next one when they touch. *)
Lemma wp_free_right (Q : unit -> ustate -> Prop) s C bp n j m : u_hdr s !! bp = Some (j, n) -> lseg (u_hdr s) m C base ->
  bp ∉ C.*1 -> 0 <= base < bp -> 0 < n -> bp + HDR * n < 2 ^ 32 ->
  Forall (fun y => bp + HDR * n <= fst y /\ 0 < snd y /\ fst y + HDR * snd y < 2 ^ 32) C ->
  (forall m1, let r := add_right (bp, n) C in lseg (u_hdr s) m1 (snd r) base ->
     Q tt (set_hdr (<[bp := (m1, snd (fst r))]> (u_hdr s)) s)) ->
  wp (if hplus bp n =z m then nsz ← hsize m; put_size bp (u32 (n + nsz)) ;; nn ← hptr m; put_ptr bp nn else put_ptr bp m) Q s.
Proof.
  intros Hbp Hl Hnin Hb Hn Hlt Hf HQ. unfold hplus. rewrite u32_small by (unfold HDR in *; lia).
  destruct C as [|[qa qm] C]; cbn [add_right fst snd] in HQ.
  - cbn in Hl. rewrite bool_decide_eq_false_2 by (unfold HDR in *; lia). eapply wp_put_ptr; [done|]. by apply HQ.
  - destruct Hl as (-> & m' & Hq & Hl). apply Forall_cons in Hf as [(Hqa & Hqm & Hqb) _]. cbn [fst snd] in *.
    destruct (bp + HDR * n =z qa) eqn:E; cbn [fst snd] in HQ.
    + wp_step. eapply wp_hsize; [done|]. wp_step. eapply wp_put_size; [done|]. wp_step.
      eapply wp_hptr; [cbn; rewrite lookup_insert_ne; [done|]; intros ->; set_solver|].
      eapply wp_put_ptr; [cbn; by rewrite lookup_insert_eq|]. cbn. rewrite insert_insert_eq, u32_small by (unfold HDR in *; lia).
      by apply HQ.
    + eapply wp_put_ptr; [done|]. apply HQ. split; [done|]. by exists m'.
Qed.

(** The block before it takes it in when they touch. *)
Lemma wp_free_left (Q : unit -> ustate -> Prop) s x b m p : u_hdr s !! fst x = Some (m, snd x) -> u_hdr s !! fst b = Some (p, snd b) ->
  fst x <> fst b -> 0 < fst x -> 0 <= snd x -> 0 < snd b -> fst b + HDR * snd b < 2 ^ 32 -> fst x + HDR * snd x <= fst b ->
  Q tt (set_hdr (<[fst x := if fst x + HDR * snd x =z fst b then (p, snd x + snd b) else (fst b, snd x)]> (u_hdr s)) s) ->
  wp (if hplus (fst x) (snd x) =z fst b then
        bsz ← hsize (fst b); put_size (fst x) (u32 (snd x + bsz)) ;; bn ← hptr (fst b); put_ptr (fst x) bn
      else put_ptr (fst x) (fst b)) Q s.
Proof.
  intros Hx Hb Hne Hx0 Hxs Hbs Hlt Hle HQ. unfold hplus. rewrite u32_small by (unfold HDR in *; lia).
  destruct (_ =z _) eqn:E.
  - wp_step. eapply wp_hsize; [done|]. wp_step. eapply wp_put_size; [done|]. wp_step.
    eapply wp_hptr; [cbn; by rewrite lookup_insert_ne|]. eapply wp_put_ptr; [cbn; by rewrite lookup_insert_eq|].
    cbn. rewrite insert_insert_eq, u32_small by (apply bool_decide_eq_true in E; unfold HDR in *; lia). done.
  - by eapply wp_put_ptr.
Qed.

Definition good_block (top : Z) (x : Z * Z) : Prop := base + HDR <= fst x /\ 0 < snd x /\ fst x + HDR * snd x <= top.

(** A list of blocks that starts with [base] and is linked is a heap. *)
Lemma heap_intro s N : lseg (u_hdr s) base N base -> StronglySorted gap N -> head N = Some (base, 0) ->
  Forall (fun x => x = (base, 0) \/ good_block (u_brk s) x) N -> u_freep s ∈ N.*1 -> 0 < base -> base + HDR <= u_brk s -> u_brk s < KERNBASE ->
  exists L, N = nodes L /\ heap s L.
Proof.
  intros Hl Hs Hh Hf Hp Hb Hlo Hk. destruct N as [|[b n] L]; [done|]. injection Hh as -> ->. exists L. split; [done|].
  assert (wf_nodes (nodes L)) as Hw.
  { split; [done|]. eapply Forall_impl; [exact Hf|]. intros x [->|(_ & ? & _)]; cbn; lia. }
  split; try done. apply Forall_cons in Hf as [_ Hf]. pose proof (nodes_nodup _ Hw) as [Hn _]%NoDup_cons.
  rewrite Forall_forall in *. intros x Hx. destruct (Hf x Hx) as [->|?]; [|done]. destruct Hn. apply list_elem_of_fmap. by exists (base, 0).
Qed.

Lemma heap_good s L x : heap s L -> x ∈ nodes L -> x = (base, 0) \/ good_block (u_brk s) x.
Proof.
  intros Hh [->|Hx]%elem_of_cons; [by left|]. right. pose proof (hp_blocks _ _ Hh) as HB. rewrite Forall_forall in HB. by apply HB.
Qed.

(** The list after [free]. *)
Lemma lseg_free h A x C b m1 C1 : NoDup (A ++ x :: C).*1 -> fst b ∉ (A ++ x :: C).*1 -> (forall y, y ∈ C1 -> y ∈ C) ->
  lseg h base (A ++ x :: C) base -> lseg h m1 C1 base ->
  lseg (<[fst x := if fst x + HDR * snd x =z fst b then (m1, snd x + snd b) else (fst b, snd x)]> (<[fst b := (m1, snd b)]> h))
    base (A ++ join_left x b ++ C1) base.
Proof.
  rewrite fmap_app, fmap_cons. intros (_ & HAx & [HxC _]%NoDup_cons)%NoDup_app Hb Hsub Hl Hl1.
  assert (forall y, y ∈ C1.*1 -> y ∈ C.*1) as Hsub' by (intros y (w & -> & Hw)%list_elem_of_fmap; apply list_elem_of_fmap; eauto).
  assert (fst x <> fst b) as Hne by (intros E; apply Hb; rewrite <- E; set_solver).
  apply lseg_app in Hl as (m & HA & Hm). destruct x as [xa xn]. destruct Hm as (-> & p & Hp & Hc). cbn [fst snd] in *.
  apply lseg_app. exists xa. split.
  { eapply lseg_ext; [exact HA|]. intros y Hy. rewrite !lookup_insert_ne; [done|..].
    - intros <-. apply Hb. set_solver.
    - intros <-. apply (HAx xa Hy). set_solver. }
  assert (forall v, lseg (<[xa := v]> (<[fst b := (m1, snd b)]> h)) m1 C1 base) as HC1.
  { intros v. eapply lseg_ext; [exact Hl1|]. intros y Hy%Hsub'. rewrite !lookup_insert_ne; [done|..].
    - intros <-. apply Hb. set_solver.
    - by intros <-. }
  destruct b as [ba bn]. unfold join_left. cbn [fst snd] in *. destruct (_ =z _); cbn [app lseg]; split; try done; eexists;
    (split; [by rewrite lookup_insert_eq|]); [done|]. split; [done|]. exists m1.
  split; [|done]. rewrite lookup_insert_ne by done. by rewrite lookup_insert_eq.
Qed.

Lemma cell_nodes L z : cell (nodes L) z <-> cell L z.
Proof. unfold nodes. rewrite cell_cons. cbn. unfold HDR. split; [intros [?|?]; [lia|done]|by right]. Qed.

Lemma join_left_good top x b : x = (base, 0) \/ good_block top x -> good_block top b -> fst x + HDR * snd x <= fst b ->
  (exists y, y ∈ join_left x b /\ snd b <= snd y) /\
  (head (join_left x b) = Some x \/ good_block top x) /\
  Forall (fun y => y = (base, 0) \/ good_block top y) (join_left x b).
Proof.
  unfold good_block, HDR. intros Hx (Hb1 & Hb2 & Hb3) Hle. unfold join_left, HDR. case_bool_decide as E.
  - assert (good_block top x) as Hg by (destruct Hx as [->|?]; [cbn in E; lia|done]). unfold good_block, HDR in Hg. split_and!.
    + eexists. split; [by apply list_elem_of_singleton|]. cbn. lia.
    + by right.
    + constructor; [|constructor]. right. cbn. lia.
  - split_and!; [exists b; split; [set_solver|done]|by left|]. constructor; [done|]. constructor; [by right|constructor].
Qed.

(** What [free] makes of the list is a heap again. *)
Lemma heap_joined s s' L A x C b C1 m1 : heap s L -> nodes L = A ++ x :: C ->
  u_hdr s' = <[fst x := if fst x + HDR * snd x =z fst b then (m1, snd x + snd b) else (fst b, snd x)]> (<[fst b := (m1, snd b)]> (u_hdr s)) ->
  u_brk s' = u_brk s -> u_freep s' = fst x -> fst b ∉ (A ++ x :: C).*1 -> (forall y, y ∈ C1 -> y ∈ C) -> lseg (u_hdr s) m1 C1 base ->
  Forall (gap b) C1 -> StronglySorted gap C1 -> good_block (u_brk s) b -> fst x + HDR * snd x <= fst b ->
  exists L', heap s' L' /\ (length L' <= length A + S (length C1))%nat /\ (exists y, y ∈ L' /\ snd b <= snd y) /\
    forall z, cell L' z <-> cell (A ++ [x]) z \/ cell (b :: C1) z.
Proof.
  intros Hh E Eh Eb Ef Hb Hsub Hl1 Hg1 Hs1 Hgb Hle. pose proof (hp_order _ _ Hh) as [Hs Hp]. pose proof (hp_list _ _ Hh) as Hl.
  pose proof (nodes_nodup _ (hp_order _ _ Hh)) as Hnd. rewrite E in Hs, Hp, Hl, Hnd.
  assert (forall y, y ∈ A ++ x :: C -> y = (base, 0) \/ good_block (u_brk s) y) as Hgood by (rewrite <- E; intros; by eapply heap_good).
  assert (0 <= snd x) as Hx0 by (rewrite Forall_forall in Hp; apply Hp; set_solver).
  destruct (join_left_good (u_brk s) x b (Hgood x ltac:(set_solver)) Hgb Hle) as ((y & Hy & Hyn) & Hhd & Hjg).
  destruct (join_left_spec A x b C1) as (HsN & Hc & _); [|done|done| |done|apply Hgb|done|].
  { by apply (StronglySorted_app_1_l _ _ C); rewrite <- app_assoc. }
  { intros a c Ha Hc%Hsub. eapply StronglySorted_app_1_elem_of; [exact Hs|done|set_solver]. }
  destruct (heap_intro s' (A ++ join_left x b ++ C1)) as (L' & EN & Hh'); [|done| | | |apply Hh|rewrite Eb; apply Hh|rewrite Eb; apply Hh|].
  - rewrite Eh. by eapply lseg_free.
  - destruct A as [|a A]; [|by injection E as <- _]. injection E as <- _. cbn [app]. destruct Hhd as [Hhd|Hhd].
    + by destruct (join_left (base, 0) b).
    + destruct Hhd as (Hbad & _). cbn in Hbad. unfold HDR in Hbad. lia.
  - rewrite Eb. apply Forall_app. split; [|apply Forall_app; split; [done|]]; apply Forall_forall; intros c Hin; apply Hgood; set_solver.
  - rewrite Ef. rewrite !fmap_app. apply elem_of_app. right. apply elem_of_app. left. unfold join_left. case_bool_decide; set_solver.
  - exists L'. split_and!; [done| | |].
    + apply (f_equal length) in EN. rewrite !length_app in EN. cbn in EN. unfold join_left in EN. case_bool_decide; cbn in EN; lia.
    + exists y. split; [|done]. assert (y ∈ nodes L') as [->|?]%elem_of_cons by (rewrite <- EN; set_solver); [|done].
      destruct Hgb as (_ & ? & _). cbn in Hyn. lia.
    + intros z. rewrite <- cell_nodes, <- EN. apply Hc.
Qed.

(** [free] adds the bytes of the block to the free ones, and writes to the
    headers of free blocks and of the block only. *)
Lemma wp_ufree (Q : unit -> ustate -> Prop) s L bp n : heap s L -> taken s L bp n ->
  (forall s' L', heap s' L' -> u_brk s' = u_brk s -> u_max s' = u_max s ->
     (forall a, a ∉ (nodes L).*1 -> a <> bp -> u_hdr s' !! a = u_hdr s !! a) ->
     (forall z, cell L' z <-> cell L z \/ bp <= z < bp + HDR * n) -> (exists x, x ∈ L' /\ n <= snd x) ->
     (length L' <= S (length L))%nat -> Q tt s') ->
  wp (free (bp + HDR)) Q s.
Proof.
  intros Hh Ht HQ. destruct (heap_split s L bp n Hh Ht) as (A & x & C & E & Hx & HC).
  destruct Ht as [[j Hbp] (Hb & Hn & Htop) Hd]. pose proof (hp_brk _ _ Hh) as Hbrk. pose proof (hp_base _ _ Hh) as Hb0.
  pose proof (hp_blocks _ _ Hh) as HB. pose proof (hp_order _ _ Hh) as [Hs Hp]. pose proof (hp_list _ _ Hh) as Hl.
  rewrite E in Hs, Hp, Hl. assert (NoDup (nodes L).*1) as Hnd by (apply nodes_nodup, Hh). rewrite E in Hnd.
  assert (forall y, y ∈ A ++ x :: C -> y = (base, 0) \/ good_block (u_brk s) y) as Hgood by (rewrite <- E; intros; by eapply heap_good).
  assert (bp ∉ (A ++ x :: C).*1) as Hnin.
  { rewrite <- E. intros (y & -> & [->|Hy]%elem_of_cons)%list_elem_of_fmap; [cbn in Hb; unfold HDR in *; lia|].
    rewrite Forall_forall in HB. specialize (Hd y Hy). specialize (HB y Hy). unfold HDR in *. lia. }
  assert (0 <= snd x) as Hx0 by (destruct (Hgood x ltac:(set_solver)) as [->|(_ & ? & _)]; cbn; lia).
  assert (0 < fst x) as Hxa by (destruct (Hgood x ltac:(set_solver)) as [->|(? & _ & _)]; cbn; unfold HDR in *; lia).
  unfold free. wp_step. replace (u32 (bp + HDR - HDR)) with bp by (rewrite Z.add_simpl_r, u32_small; unfold KERNBASE, HDR in *; lia).
  assert (fst x < bp) as Hxlt by (destruct (Hgood x ltac:(set_solver)) as [->|(_ & ? & _)]; cbn; unfold HDR in *; lia).
  wp_step. wp_step. eapply (wp_free_search _ s L A x C); [done|done|unfold HDR in *; lia|done| |].
  { eapply Forall_impl; [exact HC|]. cbn. unfold HDR in *. lia. }
  pose proof Hl as (m & HA & Hm)%lseg_app. destruct x as [xa xn]. destruct Hm as (-> & p & Hxh & HlC).
  wp_step. eapply wp_hptr; [done|]. wp_step. eapply wp_hsize; [done|]. wp_step.
  eapply (wp_free_right _ s C); [done|done| |unfold HDR in *; lia|done|unfold KERNBASE in *; lia| |].
  { set_solver. }
  { rewrite Forall_forall in *. intros y Hy. specialize (HC y Hy). destruct (Hgood y ltac:(set_solver)) as [->|(_ & ? & ?)].
    - cbn in HC. unfold HDR in *. lia.
    - unfold KERNBASE in *. lia. }
  cbv zeta. intros m1 Hl1. set (r := add_right (bp, n) C) in *.
  assert (StronglySorted gap C) as HsC by (apply StronglySorted_app in Hs as (_ & _ & [? _]%StronglySorted_inv); done).
  destruct (add_right_spec (bp, n) C Hn HsC HC) as (Hr1 & Hr2 & Hr3 & Hr4 & Hr5 & Hr6). fold r in Hr1, Hr2, Hr3, Hr4, Hr5, Hr6.
  cbn [fst snd] in Hr1, Hr2, Hr6. destruct r as [[ba bn] C1] eqn:Er. cbn [fst snd] in *. subst ba.
  assert (bp + HDR * bn <= u_brk s) as Hbn.
  { destruct (proj1 (Hr6 (bp + HDR * bn - 1))) as [Hc|(y & Hy & Hc)]; [apply cell_cons; left; cbn; unfold HDR in *; lia|lia|].
    destruct (Hgood y ltac:(set_solver)) as [->|(_ & _ & ?)]; [|lia]. rewrite Forall_forall in HC. specialize (HC _ Hy).
    cbn in HC. unfold HDR in *. lia. }
  wp_step. eapply wp_hsize; [cbn; by rewrite lookup_insert_ne by (intros ->; lia)|]. wp_step.
  eapply (wp_free_left _ _ (xa, xn) (bp, bn) p m1); cbn [fst snd u_hdr set_hdr];
    [by rewrite lookup_insert_ne by (intros ->; lia)|by rewrite lookup_insert_eq|lia|done|done|lia|unfold KERNBASE in *; lia|done|].
  wp_step. match goal with |- Q tt ?x => set (s' := x) end.
  destruct (heap_joined s s' L A (xa, xn) C (bp, bn) C1 m1) as (L' & Hh' & Hlen & (y & Hy & Hyn) & Hc);
    [done|exact E|reflexivity|reflexivity|reflexivity|done|done|done|done|done|unfold good_block; cbn; lia|done|].
  eapply (HQ _ L'); [exact Hh'|done|done| |..].
  - intros a Ha Hab. cbn. rewrite !lookup_insert_ne; [done|by intros <-|]. intros <-. apply Ha. rewrite E. set_solver.
  - intros z. rewrite Hc, Hr6, <- (cell_nodes L), E, !cell_app, !cell_cons, cell_nil. tauto.
  - exists y. split; [done|]. cbn in Hyn. lia.
  - apply (f_equal length) in E. rewrite length_app in E. cbn in E. etrans; [exact Hlen|].
    assert (length C1 <= length C)%nat; [|lia]. by apply add_right_length in Er.
Qed.

(** ** malloc *)

Lemma heap_addr_cell L a : Forall (fun x => 0 < snd x) L -> a ∈ (nodes L).*1 -> a = base \/ cell L a.
Proof.
  intros Hp (x & -> & [->|Hx]%elem_of_cons)%list_elem_of_fmap; [by left|]. right. exists x. split; [done|].
  rewrite Forall_forall in Hp. specialize (Hp x Hx). unfold HDR. lia.
Qed.

(** The list without the block [x], or with a shorter one. *)
Lemma lseg_take h A y x C : NoDup (A ++ y :: x :: C).*1 -> lseg h base (A ++ y :: x :: C) base ->
  exists p q, h !! fst y = Some (fst x, snd y) /\ h !! fst x = Some (p, snd x) /\ h !! fst y = Some (q, snd y) /\
    lseg (<[fst y := (p, snd y)]> h) base (A ++ y :: C) base /\
    forall n a v, a ∉ (A ++ y :: x :: C).*1 -> lseg (<[a := v]> (<[fst x := (p, n)]> h)) base (A ++ y :: (fst x, n) :: C) base.
Proof.
  destruct y as [ya yn], x as [xa xn]. rewrite fmap_app, !fmap_cons. cbn [fst snd].
  intros (HA & HAx & [Hy [Hx _]%NoDup_cons]%NoDup_cons)%NoDup_app Hl. apply lseg_app in Hl as (m & HlA & Hl).
  destruct Hl as (-> & xa' & Hya & Hl). destruct Hl as (-> & p & Hxa & HlC). exists p, xa. split_and!; try done.
  - apply lseg_app. exists ya. split; [apply lseg_insert; [done|intros Hin; apply (HAx ya Hin); set_solver]|].
    split; [done|]. exists p. split; [by rewrite lookup_insert_eq|]. apply lseg_insert; [done|set_solver].
  - intros n a v Ha. assert (xa <> ya /\ a <> xa /\ a <> ya) as (? & ? & ?) by (split_and!; intros ->; set_solver).
    apply lseg_app. exists ya. split.
    { apply lseg_insert; [apply lseg_insert; [done|intros Hin; apply (HAx xa Hin); set_solver]|set_solver]. }
    split; [done|]. exists xa. split; [by rewrite !lookup_insert_ne|]. split; [done|]. exists p.
    split; [by rewrite lookup_insert_ne, lookup_insert_eq|]. apply lseg_insert; [apply lseg_insert; [done|done]|set_solver].
Qed.

(** The free block [x] is cut to [r] units; none of it is left when [r] is 0. *)
Definition rest_of (x : Z * Z) (r : Z) : list (Z * Z) := if decide (r = 0) then [] else [(fst x, r)].

Lemma sorted_shrunk A x C r : StronglySorted gap (A ++ x :: C) -> 0 <= r <= snd x -> StronglySorted gap (A ++ rest_of x r ++ C).
Proof.
  intros (HAC & HA & [HC Hx]%StronglySorted_inv)%StronglySorted_app Hr. apply StronglySorted_app.
  unfold rest_of. case_decide; cbn [app]; split_and!; try done.
  - intros a c Ha Hc. apply HAC; [done|set_solver].
  - intros a c Ha [->|Hc]%elem_of_cons; [|apply HAC; [done|set_solver]]. specialize (HAC a x Ha ltac:(set_solver)). exact HAC.
  - constructor; [done|]. eapply Forall_impl; [exact Hx|]. intros c. unfold gap, HDR. cbn. lia.
Qed.

Lemma heap_shrunk s s' L A y x C r : heap s L -> nodes L = A ++ y :: x :: C -> 0 <= r < snd x ->
  lseg (u_hdr s') base (A ++ y :: rest_of x r ++ C) base -> u_brk s' = u_brk s -> u_freep s' = fst y ->
  (exists p, u_hdr s' !! (fst x + HDR * r) = Some (p, snd x - r)) ->
  exists L', heap s' L' /\ taken s' L' (fst x + HDR * r) (snd x - r) /\
    (forall z, cell L z <-> cell L' z \/ fst x + HDR * r <= z < fst x + HDR * r + HDR * (snd x - r)) /\
    (forall z, fst x + HDR * r <= z < fst x + HDR * r + HDR * (snd x - r) -> ~ cell L' z).
Proof.
  intros Hh E Hr Hl Eb Ef Hp. pose proof (hp_order _ _ Hh) as [Hs _]. rewrite E in Hs.
  assert (forall w, w ∈ A ++ y :: x :: C -> w = (base, 0) \/ good_block (u_brk s) w) as Hgood by (rewrite <- E; intros; by eapply heap_good).
  assert (good_block (u_brk s) x) as (Hx1 & Hx2 & Hx3) by (destruct (Hgood x ltac:(set_solver)) as [->|?]; [cbn in Hr; lia|done]).
  assert (StronglySorted gap (A ++ y :: rest_of x r ++ C)) as Hs'.
  { replace (A ++ y :: rest_of x r ++ C) with ((A ++ [y]) ++ rest_of x r ++ C) by (by rewrite <- app_assoc).
    apply sorted_shrunk; [by rewrite <- app_assoc|lia]. }
  destruct (heap_intro s' (A ++ y :: rest_of x r ++ C)) as (L' & EN & Hh'); [done|done| | | |apply Hh|rewrite Eb; apply Hh|rewrite Eb; apply Hh|].
  - destruct A as [|a A]; injection E as <- _; done.
  - rewrite Eb. apply Forall_forall. intros w Hw. assert (w ∈ rest_of x r \/ w ∈ A ++ y :: x :: C) as [Hin|Hin] by set_solver; [|by apply Hgood].
    unfold rest_of in Hin. case_decide; [set_solver|]. apply list_elem_of_singleton in Hin as ->. right. unfold good_block, HDR in *. cbn. lia.
  - rewrite Ef, fmap_app. set_solver.
  - assert (forall w, w ∈ L' -> fst x + HDR * snd x <= fst w \/ fst w + HDR * snd w <= fst x + HDR * r) as Hdis.
    { intros w Hw. assert (w ∈ A ++ y :: rest_of x r ++ C) as Hin by (rewrite EN; by apply elem_of_cons; right).
      apply StronglySorted_app in Hs as (HsA & _ & Hs). apply StronglySorted_inv in Hs as [[_ HxC]%StronglySorted_inv Hyx].
      apply Forall_cons in Hyx as [Hyx _]. rewrite Forall_forall in HxC.
      apply elem_of_app in Hin as [Hin|[->|[Hin|Hin]%elem_of_app]%elem_of_cons].
      - specialize (HsA w x Hin ltac:(set_solver)). unfold gap, HDR in *. lia.
      - unfold gap, HDR in *. lia.
      - unfold rest_of in Hin. case_decide; [set_solver|]. apply list_elem_of_singleton in Hin as ->. cbn. unfold HDR. lia.
      - specialize (HxC w Hin). unfold gap, HDR in *. lia. }
    exists L'. split_and!; [done|split; [done|rewrite Eb; unfold HDR in *; lia|]| |].
    + intros w Hw. destruct (Hdis w Hw); [left|right]; unfold HDR in *; lia.
    + intros z. rewrite <- (cell_nodes L), <- (cell_nodes L'), E, <- EN, !cell_app, !cell_cons, cell_app.
      assert (cell (rest_of x r) z <-> fst x <= z < fst x + HDR * r) as ->.
      { unfold rest_of. case_decide; [rewrite cell_nil|rewrite cell_cons, cell_nil]; cbn; unfold HDR in *; [lia|tauto]. }
      assert (fst x <= z < fst x + HDR * snd x <-> fst x <= z < fst x + HDR * r \/
        fst x + HDR * r <= z < fst x + HDR * r + HDR * (snd x - r)) as -> by (unfold HDR in *; lia). tauto.
    + intros z Hz (w & Hw & Hc). destruct (Hdis w Hw); unfold HDR in *; lia.
Qed.

(** No block starts inside another one. *)
Lemma inside_not_node A x C z : StronglySorted gap (A ++ x :: C) -> Forall (fun x => 0 <= snd x) (A ++ x :: C) ->
  fst x < z < fst x + HDR * snd x -> z ∉ (A ++ x :: C).*1.
Proof.
  intros (HA & _ & [_ HC]%StronglySorted_inv)%StronglySorted_app Hp Hz (w & -> & Hw)%list_elem_of_fmap.
  rewrite Forall_forall in HC, Hp. specialize (Hp w Hw). apply elem_of_app in Hw as [Hw|[->|Hw]%elem_of_cons]; [|lia|].
  - specialize (HA w x Hw ltac:(set_solver)). unfold gap, HDR in *. lia.
  - specialize (HC w Hw). unfold gap, HDR in *. lia.
Qed.

(** A block that is large enough gives its end; the rest stays free. *)
Lemma wp_take_block (Q : Z -> ustate -> Prop) s L A y x C nunits : heap s L -> nodes L = A ++ y :: x :: C -> 0 < nunits <= snd x ->
  (forall s' L' q, heap s' L' -> u_brk s' = u_brk s -> u_max s' = u_max s -> taken s' L' q nunits ->
     (forall a, ~ cell L a -> a <> base -> u_hdr s' !! a = u_hdr s !! a) ->
     (forall z, cell L z <-> cell L' z \/ q <= z < q + HDR * nunits) ->
     (forall z, q <= z < q + HDR * nunits -> ~ cell L' z) -> Q (q + HDR) s') ->
  wp (take_block (fst y) (fst x) nunits) Q s.
Proof.
  intros Hh E Hn HQ. pose proof (hp_order _ _ Hh) as Hw. pose proof (nodes_nodup _ Hw) as Hnd. pose proof (hp_list _ _ Hh) as Hl.
  pose proof (hp_brk _ _ Hh) as Hbrk. pose proof (hp_base _ _ Hh) as Hb0. rewrite E in Hnd, Hl.
  destruct (lseg_take _ _ _ _ _ Hnd Hl) as (p & q & Hy & Hx & _ & Hex & Hsp).
  assert (good_block (u_brk s) x) as (Hx1 & Hx2 & Hx3).
  { destruct (heap_good s L x Hh ltac:(rewrite E; set_solver)) as [->|?]; [cbn in Hn; lia|done]. }
  assert (forall a, ~ cell L a -> a <> base -> a <> fst x /\ a <> fst y) as Hother.
  { assert (Forall (fun x => 0 < snd x) L) as Hp by (eapply Forall_impl; [apply Hh|]; cbn; lia).
    intros a Ha Hb. split; intros ->; [destruct (heap_addr_cell L (fst x) Hp) as [?|?]|destruct (heap_addr_cell L (fst y) Hp) as [?|?]];
      try done; rewrite E; set_solver. }
  unfold take_block. wp_step. eapply wp_hsize; [done|]. destruct (decide (snd x = nunits)) as [En|En].
  - rewrite bool_decide_eq_true_2 by done. wp_step. wp_step. eapply wp_hptr; [done|]. wp_step. eapply wp_put_ptr; [done|]. wp_steps.
    match goal with |- Q _ ?t => set (s' := t) end.
    destruct (heap_shrunk s s' L A y x C 0) as (L' & Hh' & Ht & Hc & Hd); [done|done|lia|exact Hex|done|done| |].
    { rewrite Z.mul_0_r, Z.add_0_r, Z.sub_0_r. exists p. cbn. rewrite lookup_insert_ne; [done|]. intros Exy.
      rewrite fmap_app, !fmap_cons, Exy in Hnd. apply NoDup_app in Hnd as (_ & _ & [Hnd _]%NoDup_cons). set_solver. }
    rewrite Z.mul_0_r, Z.add_0_r, Z.sub_0_r, En in Ht, Hc, Hd. unfold hplus. rewrite Z.mul_1_r, u32_small by (unfold HDR, KERNBASE in *; lia).
    eapply (HQ s' L' (fst x)); [done|done|done|done| |done|done]. intros a Ha Hb. cbn.
    by rewrite lookup_insert_ne by (intros <-; by apply (Hother (fst y) Ha Hb)).
  - rewrite bool_decide_eq_false_2 by done. set (r := snd x - nunits). assert (u32 r = r) as -> by (apply u32_small; unfold KERNBASE, HDR in *; lia).
    wp_step. wp_step. eapply wp_put_size; [done|]. wp_step. unfold hplus. rewrite !(u32_small (fst x + _)) by (unfold KERNBASE, HDR in *; lia).
    set (q0 := fst x + HDR * r). assert (q0 ∉ (A ++ y :: x :: C).*1) as Hq.
    { destruct Hw as [Hs Hp]. rewrite E in Hs, Hp. replace (A ++ y :: x :: C) with ((A ++ [y]) ++ x :: C) in * by (by rewrite <- app_assoc).
      apply inside_not_node; [done|done|unfold q0, r, HDR in *; lia]. }
    unfold put_size. wp_steps. match goal with |- Q _ ?t => set (s' := t) end.
    destruct (heap_shrunk s s' L A y x C r) as (L' & Hh' & Ht & Hc & Hd); [done|done|lia| |done|done| |].
    { unfold rest_of. rewrite decide_False by lia. apply Hsp. exact Hq. }
    { fold q0. eexists. cbn. rewrite lookup_insert_eq. do 2 f_equal. lia. }
    fold q0 in Ht, Hc, Hd. replace (snd x - r) with nunits in Ht, Hc, Hd by lia.
    rewrite Z.mul_1_r, u32_small by (unfold q0, r, HDR, KERNBASE in *; lia).
    eapply (HQ s' L' q0); [done|done|done|done| |done|done]. intros a Ha Hb. destruct (Hother a Ha Hb). cbn.
    rewrite !lookup_insert_ne; [done|congruence|]. intros <-. apply Ha. apply Hc. right. unfold HDR. lia.
Qed.

(** The block at an index that is not 0, with the one before it. *)
Lemma nodes_pair L k : 0 < snd (nd (nodes L) (S k)) ->
  exists A C, nodes L = A ++ nd (nodes L) k :: nd (nodes L) (S k) :: C.
Proof.
  intros Hp. unfold nd in *. set (N := nodes L) in *. assert (0 < length N)%nat as H0 by (cbn; lia).
  pose proof (Nat.mod_upper_bound k (length N) ltac:(lia)) as Hk. pose proof (Nat.div_mod k (length N) ltac:(lia)) as Hd.
  destruct (decide (S (k mod length N) < length N)%nat) as [Hlt|Hge].
  - replace (S k mod length N)%nat with (S (k mod length N)).
    2:{ replace (S k) with (S (k mod length N) + k / length N * length N)%nat by lia. by rewrite Nat.Div0.mod_add, (Nat.mod_small (S _)). }
    exists (take (k mod length N) N), (drop (S (S (k mod length N))) N).
    destruct (nth_lookup_or_length N (k mod length N) (0, 0)) as [Hn1|]; [|lia].
    destruct (nth_lookup_or_length N (S (k mod length N)) (0, 0)) as [Hn2|]; [|lia].
    rewrite <- (drop_S _ _ _ Hn2), <- (drop_S _ _ _ Hn1). by rewrite take_drop.
  - replace (S k mod length N)%nat with 0%nat in Hp; [by cbn in Hp|].
    replace (S k) with (0 + S (k / length N) * length N)%nat by lia. by rewrite Nat.Div0.mod_add, Nat.Div0.mod_0_l.
Qed.

Lemma nd_mod N k : nd N k = nd N (k mod length N).
Proof. unfold nd. by rewrite Nat.Div0.mod_mod. Qed.

Lemma nd_inj L i j : wf_nodes (nodes L) -> fst (nd (nodes L) i) = fst (nd (nodes L) j) ->
  (i mod length (nodes L) = j mod length (nodes L))%nat.
Proof.
  intros Hw E. unfold nd in E. set (N := nodes L) in *. assert (0 < length N)%nat by (cbn; lia).
  pose proof (Nat.mod_upper_bound i (length N) ltac:(lia)) as Hi. pose proof (Nat.mod_upper_bound j (length N) ltac:(lia)) as Hj.
  destruct (Nat.lt_trichotomy (i mod length N) (j mod length N)) as [Hlt|[?|Hlt]]; [|done|].
  - pose proof (nodes_lt N _ _ Hw (conj Hlt Hj)). lia.
  - pose proof (nodes_lt N _ _ Hw (conj Hlt Hi)). lia.
Qed.

(** The loop of [malloc] from the block after [freep] on: it finds a block, or
    has seen all of them when it is back at [freep]. *)
Lemma wp_malloc_walk (Q : Z -> ustate -> Prop) s L f nunits fuel : heap s L -> u_freep s = fst (nd (nodes L) f) -> 0 < nunits ->
  (forall A y x C, nodes L = A ++ y :: x :: C -> nunits <= snd x -> wp (take_block (fst y) (fst x) nunits) Q s) ->
  ((forall x, x ∈ L -> snd x < nunits) ->
     wp (q ← morecore nunits; if q =z 0 then mret 0 else n ← hptr q; malloc_loop fuel q n nunits) Q s) ->
  forall d k, (S k + d = f + length (nodes L))%nat -> (f <= k)%nat ->
    (forall i, (f < i <= k)%nat -> snd (nd (nodes L) i) < nunits) ->
    wp (malloc_loop (S d + fuel) (fst (nd (nodes L) k)) (fst (nd (nodes L) (S k))) nunits) Q s.
Proof.
  intros Hh Hf Hn Htake Hmore. induction d as [|d IH]; intros k Hk Hfk Hsm; cbn [malloc_loop Nat.add]; wp_step;
    (eapply wp_hsize; [by apply heap_next|]); (case_bool_decide as Hfit;
    [destruct (nodes_pair L k) as (A & C & E); [lia|]; by eapply Htake|]).
  - wp_steps. rewrite bool_decide_eq_true_2.
    2:{ rewrite Nat.add_0_r in Hk. rewrite Hf, Hk, (nd_mod _ (f + _)). f_equal.
        replace (f + length (nodes L))%nat with (f + 1 * length (nodes L))%nat by lia. by rewrite Nat.Div0.mod_add, <- nd_mod. }
    apply Hmore. intros x Hx. apply list_elem_of_lookup in Hx as [i Hi].
    assert (nodes L !! S i = Some x) as Hi' by done. pose proof (lookup_lt_Some _ _ _ Hi') as Hlt.
    destruct (around (length (nodes L)) (S f) (S i) Hlt) as (e & He & Hmod & _).
    assert (nd (nodes L) (S f + e) = x) as <- by (unfold nd; rewrite Hmod; by apply nth_lookup_Some).
    destruct (decide (S f + e <= k)%nat); [apply Hsm; lia|]. replace (S f + e)%nat with (S k) by lia. lia.
  - wp_steps. rewrite bool_decide_eq_false_2.
    2:{ rewrite Hf. intros E%nd_inj; [|apply Hh]. assert (0 < length (nodes L))%nat by (cbn; lia).
        apply (f_equal Z.of_nat) in E. rewrite !Nat2Z.inj_mod in E.
        assert ((Z.of_nat (S k) - Z.of_nat f) mod Z.of_nat (length (nodes L)) = 0) as E0.
        { rewrite Zminus_mod, E, Z.sub_diag. apply Z.mod_0_l. lia. }
        rewrite Z.mod_small in E0 by lia. lia. }
    wp_step. eapply wp_hptr; [by apply heap_next|]. apply (IH (S k)); [lia|lia|].
    intros i Hi. destruct (decide (i = S k)) as [->|]; [lia|]. apply Hsm. lia.
Qed.

(** ** More memory *)

Lemma heap_grow s s' L b v : heap s L -> u_hdr s' = <[b := v]> (u_hdr s) -> b ∉ (nodes L).*1 -> u_freep s' = u_freep s ->
  u_brk s <= u_brk s' < KERNBASE -> heap s' L.
Proof.
  intros [H1 H2 H3 H4 H5 H6 H7] Eh Hb Ef Hk. split; try done; [rewrite Eh; by apply lseg_insert| |by rewrite Ef|lia|lia].
  eapply Forall_impl; [exact H3|]. cbn. lia.
Qed.

Lemma heap_below s L a : heap s L -> a ∈ (nodes L).*1 -> a < u_brk s.
Proof.
  intros Hh (x & -> & Hx)%list_elem_of_fmap. destruct (heap_good s L x Hh Hx) as [->|(_ & ? & ?)]; [|unfold HDR in *; lia].
  cbn. pose proof (hp_low _ _ Hh). unfold HDR in *. lia.
Qed.

(** The process cannot grow by [nunits] units, or the least amount asked for. *)
Definition refused (s : ustate) (nunits : Z) : Prop :=
  Z.min (KERNBASE - 1) (u_max s) < u_brk s + HDR * Z.max 4096 nunits.

Lemma wp_morecore (Q : Z -> ustate -> Prop) s L nunits : heap s L -> 0 < nunits -> nunits * HDR < 2 ^ 31 ->
  (refused s nunits -> Q 0 s) ->
  (forall s' L', heap s' L' -> u_brk s <= u_brk s' ->
     (forall a, a ∉ (nodes L).*1 -> a < u_brk s -> u_hdr s' !! a = u_hdr s !! a) ->
     (forall z, cell L' z -> cell L z \/ u_brk s <= z) ->
     (exists x, x ∈ L' /\ nunits <= snd x) -> (length L' <= S (length L))%nat -> Q (u_freep s') s') ->
  wp (morecore nunits) Q s.
Proof.
  intros Hh Hn Hlt Hfail Hok. unfold morecore. set (nu := if nunits <z 4096 then 4096 else nunits).
  assert (Z.max 4096 nunits = nu) as Emax by (unfold nu; case_bool_decide; lia).
  assert (nunits <= nu /\ 0 < nu * HDR < 2 ^ 31) as [Hnu Hb] by (unfold nu, HDR in *; case_bool_decide; lia).
  pose proof (hp_brk _ _ Hh) as Hk. pose proof (hp_low _ _ Hh) as Hlow. pose proof (hp_base _ _ Hh) as Hb0. unfold KERNBASE, HDR in *.
  wp_step. rewrite (u32_small (nu * 8)), s32_small by lia. unfold sbrk. wp_steps. rewrite bool_decide_eq_true_2 by lia.
  rewrite u32_small by lia. destruct (_ || _) eqn:E.
  { wp_step. rewrite bool_decide_eq_true_2 by done. wp_step. apply Hfail. unfold refused. rewrite Emax. apply orb_true_iff in E as [E%bool_decide_eq_true|E%bool_decide_eq_true];
      unfold KERNBASE, HDR in *; lia. }
  apply orb_false_iff in E as [E1%bool_decide_eq_false E2%bool_decide_eq_false]. unfold KERNBASE in *. wp_steps.
  rewrite (bool_decide_eq_false_2 (_ < u_brk s)) by lia. rewrite bool_decide_eq_false_2.
  2:{ rewrite (u32_small (u_brk s)) by lia. change (u32 (-1)) with 4294967295. lia. }
  unfold put_size. wp_steps. match goal with |- wp _ _ ?t => set (s1 := t) end. rewrite u32_small by lia.
  assert (u_brk s ∉ (nodes L).*1) as Hnin by (intros Hin%(heap_below s L _ Hh); lia).
  assert (heap s1 L) as Hh1 by (eapply (heap_grow s); [done|reflexivity|done|done|cbn; unfold KERNBASE; lia]).
  eapply (wp_ufree _ s1 L (u_brk s) nu); [done| |].
  - split; [eexists; cbn; by rewrite lookup_insert_eq|cbn; unfold HDR; lia|]. intros x Hx. right.
    pose proof (hp_blocks _ _ Hh) as HB. rewrite Forall_forall in HB. by apply HB.
  - intros s' L' Hh' Eb Em Hfr Hc (x & Hx & Hxn) Hlen. wp_steps. apply (Hok s' L'); [done|rewrite Eb; cbn; lia| | |exists x; split; [done|lia]|done].
    + intros a Ha Hab. rewrite Hfr by (done || lia). cbn. rewrite lookup_insert_ne; [done|lia].
    + intros z [?|?]%Hc; [by left|right]. lia.
Qed.

(** ** malloc *)

(** The state of the allocator, before the first call and after it. *)
Definition ready (s : ustate) (L : list (Z * Z)) : Prop :=
  heap s L \/ (L = [] /\ u_freep s = 0 /\ 0 < base /\ base + HDR <= u_brk s < KERNBASE).

Lemma wp_malloc_loop (Q : Z -> ustate -> Prop) s L nunits fuel p : heap s L -> 0 < nunits -> nunits * HDR < 2 ^ 31 ->
  (2 * length (nodes L) + 2 <= fuel)%nat -> u_hdr s !! u_freep s = Some p ->
  ((forall x, x ∈ L -> snd x < nunits) -> refused s nunits -> Q 0 s) ->
  (forall s' L' q, heap s' L' -> u_brk s <= u_brk s' -> taken s' L' q nunits ->
     (forall a, ~ cell L a -> a <> base -> a < u_brk s -> u_hdr s' !! a = u_hdr s !! a) ->
     (forall z, cell L' z \/ q <= z < q + HDR * nunits -> cell L z \/ u_brk s <= z) -> Q (q + HDR) s') ->
  wp (malloc_loop fuel (u_freep s) (fst p) nunits) Q s.
Proof.
  intros Hh Hn Hlt Hfuel Hp Hfail Hok. destruct (heap_index L (u_freep s) (hp_freep _ _ Hh)) as (f & Ef & Hf).
  pose proof (heap_next s L f Hh) as Hnx. rewrite <- Ef, Hp in Hnx. injection Hnx as ->. cbn [fst].
  replace fuel with (S (length (nodes L) - 1) + (fuel - length (nodes L)))%nat by (cbn in *; lia). rewrite Ef.
  apply (wp_malloc_walk _ s L f); [done|done|done| | |cbn; lia|lia|lia].
  - intros A y x C E Hx. eapply wp_take_block; [done|done|lia|]. intros s' L' q Hh' Eb _ Ht Hfr Hc Hd.
    apply (Hok s' L' q); [done|lia|done|intros; by apply Hfr|]. intros z Hz. left. by apply Hc.
  - intros Hsm. wp_step. eapply wp_morecore; [done|done|done|intros Hr; rewrite bool_decide_eq_true_2 by done; wp_step; by apply Hfail|].
    intros s1 L1 Hh1 Hb1 Hfr1 Hc1 (x1 & Hx1 & Hxn1) Hlen1. destruct (heap_index L1 (u_freep s1) (hp_freep _ _ Hh1)) as (g & Eg & Hg).
    rewrite bool_decide_eq_false_2.
    2:{ intros E0. pose proof (hp_freep _ _ Hh1) as [E1|Hin]%elem_of_cons.
        - pose proof (hp_base _ _ Hh1). cbn in E1. lia.
        - apply list_elem_of_fmap in Hin as (w & Ew & Hw). pose proof (hp_blocks _ _ Hh1) as HB. rewrite Forall_forall in HB.
          specialize (HB w Hw). pose proof (hp_base _ _ Hh1). unfold HDR in *. lia. }
    wp_step. rewrite Eg. eapply wp_hptr; [by apply heap_next|].
    replace (fuel - length (nodes L))%nat with (S (length (nodes L1) - 1) + (fuel - length (nodes L) - length (nodes L1)))%nat by (cbn in *; lia).
    apply (wp_malloc_walk _ s1 L1 g); [done|done|done| | |cbn; lia|lia|lia].
    + intros A y x C E Hx. eapply wp_take_block; [done|done|lia|]. intros s' L' q Hh' Eb _ Ht Hfr Hc Hd.
      apply (Hok s' L' q); [done|lia|done| |].
      * intros a Ha Hab Hbk. rewrite Hfr; [| |done].
        -- apply Hfr1; [|done]. intros Hin. destruct (heap_addr_cell L a) as [?|?]; [|done|done|done].
           eapply Forall_impl; [apply Hh|]. cbn. lia.
        -- intros [?|?]%Hc1; [done|lia].
      * intros z Hz. by apply Hc1, Hc.
    + intros Hno. specialize (Hno x1 Hx1). lia.
Qed.

Lemma heap_fuel s L : heap s L -> (length (nodes L) <= size (u_hdr s))%nat.
Proof. intros Hh. eapply lseg_size; [apply Hh|]. apply nodes_nodup, Hh. Qed.

Lemma heap_init s : u_hdr s !! base = Some (base, 0) -> u_freep s = base -> 0 < base -> base + HDR <= u_brk s < KERNBASE -> heap s [].
Proof.
  intros Eh Ef Hb Hk. split; cbn; try lia; [by eauto| |constructor|by rewrite Ef; left].
  split; repeat constructor; cbn; lia.
Qed.

Lemma nunits_small nb : 0 <= nb < 2 ^ 31 - 32 -> let n := nunits_of nb in 0 < n /\ n * HDR < 2 ^ 31 /\ nb + HDR <= HDR * n < nb + 2 * HDR.
Proof.
  intros Hnb n. pose proof (Z.div_mod (nb + 7) 8). pose proof (Z.mod_pos_bound (nb + 7) 8).
  assert (n = (nb + 7) / 8 + 1) as ->; [|unfold HDR; lia]. unfold n, nunits_of, HDR. replace (nb + 8 - 1) with (nb + 7) by lia.
  rewrite (u32_small (nb + 7)), u32_small by lia. done.
Qed.

Lemma wp_malloc (Q : Z -> ustate -> Prop) s L nb : ready s L -> 0 <= nb < 2 ^ 31 - 32 ->
  (forall s', heap s' L -> u_brk s' = u_brk s -> (forall a, a <> base -> u_hdr s' !! a = u_hdr s !! a) ->
     (forall x, x ∈ L -> snd x < nunits_of nb) -> refused s (nunits_of nb) -> Q 0 s') ->
  (forall s' L' q, heap s' L' -> u_brk s <= u_brk s' -> taken s' L' q (nunits_of nb) ->
     (forall a, ~ cell L a -> a <> base -> a < u_brk s -> u_hdr s' !! a = u_hdr s !! a) ->
     (forall z, cell L' z \/ q <= z < q + HDR * nunits_of nb -> cell L z \/ u_brk s <= z) -> Q (q + HDR) s') ->
  wp (malloc base nb) Q s.
Proof.
  intros Hr Hnb Hfail Hok. destruct (nunits_small nb Hnb) as (Hn & Hlt & _). unfold malloc.
  assert (exists s1, heap s1 L /\ u_brk s1 = u_brk s /\ u_max s1 = u_max s /\ (forall a, a <> base -> u_hdr s1 !! a = u_hdr s !! a) /\
    forall R : unit -> ustate -> Prop, R tt s1 -> wp (when (u_freep s =z 0) (modify (set_hdr (<[base := (base, 0)]> (u_hdr s))) ;; modify (set_freep base))) R s)
    as (s1 & Hh & Eb & Em & Efr & Hwp).
  { destruct Hr as [Hh|(-> & Ef & Hb & Hk)].
    - exists s. repeat split; try done; try apply Hh. intros R HR. rewrite bool_decide_eq_false_2; [cbn [when]; by apply wp_ret|].
      intros E0. pose proof (hp_base _ _ Hh). pose proof (hp_freep _ _ Hh) as [E1|(w & Ew & Hw)%list_elem_of_fmap]%elem_of_cons;
        [cbn in E1; lia|]. pose proof (hp_blocks _ _ Hh) as HB. rewrite Forall_forall in HB. specialize (HB w Hw). unfold HDR in *. lia.
    - eexists (set_freep base (set_hdr (<[base := (base, 0)]> (u_hdr s)) s)). split; [apply heap_init; try done; cbn; by rewrite lookup_insert_eq|].
      repeat split; [intros a Ha; cbn; by rewrite lookup_insert_ne|]. intros R HR. rewrite bool_decide_eq_true_2 by done. cbn [when]. by wp_steps. }
  wp_steps. apply Hwp. wp_steps. destruct (heap_index L (u_freep s1) (hp_freep _ _ Hh)) as (f & Ef & _).
  pose proof (heap_next s1 L f Hh) as Hnx. rewrite <- Ef in Hnx. eapply wp_hptr; [done|].
  eapply (wp_malloc_loop _ s1 L (nunits_of nb) _ (_, _)); [done|done|done|pose proof (heap_fuel s1 L Hh); lia|done| |].
  - intros Hs Href. apply (Hfail s1); try done. unfold refused in *. by rewrite Eb, Em in Href.
  - intros s' L' q Hh' Hb' Ht Hfr Hc. apply (Hok s' L' q); [done|lia|done| |by rewrite Eb in Hc].
    intros a Ha Hab Hbk. rewrite Hfr, Efr by (done || lia). done.
Qed.

(** ** The allocator and its client *)

Definition inside (b : Z * Z) (z : Z) : Prop := fst b <= z < fst b + HDR * snd b.
Definition apart (b c : Z * Z) : Prop := forall z, inside b z -> inside c z -> False.

(** What a process does with its memory: it calls [malloc] for less than
    2^31 - 32 bytes, [free] on a block it holds and [sbrk] with a positive
    number, and writes inside the blocks it holds.  Two things a process can do
    are left out: a larger request makes [morecore] call [sbrk] with a negative
    number or wraps around ([malloc_wraps]), and an [sbrk] that shrinks the
    process takes memory away that [malloc] has handed out. *)
Inductive ustep : ustate * held -> ustate * held -> Prop :=
  | ustep_malloc s B nb p s' : 0 <= nb < 2 ^ 31 - 32 -> malloc base nb s = Ok p s' -> p <> 0 ->
      ustep (s, B) (s', <[p - HDR := nunits_of nb]> B)
  | ustep_none s B nb s' : 0 <= nb < 2 ^ 31 - 32 -> malloc base nb s = Ok 0 s' -> ustep (s, B) (s', B)
  | ustep_free s B a n s' : B !! a = Some n -> free (a + HDR) s = Ok tt s' -> ustep (s, B) (s', delete a B)
  | ustep_write s B a n z v : B !! a = Some n -> a + HDR <= z < a + HDR * n -> ustep (s, B) (set_hdr (<[z := v]> (u_hdr s)) s, B)
  | ustep_sbrk s B n p s' : 0 < n < 2 ^ 31 -> sbrk n s = Ok p s' -> ustep (s, B) (s', B).

Lemma taken_cells s L a n : taken s L a n -> forall z, inside (a, n) z -> ~ cell L z.
Proof. intros [_ _ Hd] z Hz (x & Hx & Hxz). unfold inside in Hz. cbn in Hz. destruct (Hd x Hx); lia. Qed.

Lemma taken_intro s L a n : (exists p, u_hdr s !! a = Some (p, n)) -> base + HDR <= a /\ 0 < n /\ a + HDR * n <= u_brk s ->
  Forall (fun x => 0 < snd x) L -> (forall z, inside (a, n) z -> ~ cell L z) -> taken s L a n.
Proof.
  intros Hh Hr HL Hc. split; [done|done|]. intros x Hx. rewrite Forall_forall in HL. specialize (HL x Hx).
  destruct (decide (a + HDR * n <= fst x)); [by left|]. destruct (decide (fst x + HDR * snd x <= a)); [by right|].
  exfalso. apply (Hc (Z.max a (fst x))); unfold HDR in *; [unfold inside, HDR; cbn; lia|]. exists x. split; [done|unfold HDR; lia].
Qed.

Lemma heap_pos s L : heap s L -> Forall (fun x => 0 < snd x) L.
Proof. intros Hh. eapply Forall_impl; [apply Hh|]. cbn. lia. Qed.

(** A block that is held stays so when the header and the free cells of the
    heap outside of it are all that changes. *)
Lemma taken_mono s L s' L' a n : taken s L a n -> heap s' L' -> u_brk s <= u_brk s' -> u_hdr s' !! a = u_hdr s !! a ->
  (forall z, inside (a, n) z -> cell L' z -> cell L z \/ u_brk s <= z) -> taken s' L' a n.
Proof.
  intros Ht Hh' Hb Ea Hc. pose proof (taken_cells _ _ _ _ Ht) as Hn. destruct Ht as [Hd (? & ? & ?) _].
  apply taken_intro; [by rewrite Ea|lia|by apply (heap_pos s')|]. intros z Hz Hcz.
  destruct (Hc z Hz Hcz) as [?|?]; [by eapply Hn|]. unfold inside in Hz. cbn in Hz. lia.
Qed.

Lemma taken_head a n : 0 < n -> inside (a, n) a.
Proof. unfold inside, HDR. cbn. lia. Qed.

Lemma ready_nodes s L a : ready s L -> ~ cell L a -> a <> base -> a ∉ (nodes L).*1.
Proof.
  intros Hr Ha Hb Hin. destruct (heap_addr_cell L a) as [?|?]; [|done|done|done].
  destruct Hr as [Hh|(-> & _)]; [by eapply heap_pos|constructor].
Qed.

Lemma ready_brk s L : ready s L -> 0 < base /\ base + HDR <= u_brk s < KERNBASE.
Proof. intros [Hh|(_ & _ & ? & ?)]; [|done]. destruct Hh. lia. Qed.

Record uinv (s : ustate) (B : held) : Prop := {
  ui_list : exists L, ready s L /\ (B = ∅ \/ heap s L) /\ (forall a n, B !! a = Some n -> taken s L a n);
  ui_apart : forall a n b m, B !! a = Some n -> B !! b = Some m -> a <> b -> apart (a, n) (b, m)
}.

(** What the client stored in its blocks stays. *)
Definition kept (B : held) (s s' : ustate) : Prop :=
  forall a n z, B !! a = Some n -> inside (a, n) z -> u_hdr s' !! z = u_hdr s !! z.

Lemma uinv_malloc s B nb : uinv s B -> 0 <= nb < 2 ^ 31 - 32 ->
  wp (malloc base nb) (fun p s' => kept B s s' /\
    if decide (p = 0) then uinv s' B /\ refused s (nunits_of nb)
    else uinv s' (<[p - HDR := nunits_of nb]> B) /\ B !! (p - HDR) = None) s.
Proof.
  intros [(L & Hr & Hd & HB) Ha] Hnb. destruct (nunits_small nb Hnb) as (Hn & _). pose proof (ready_brk _ _ Hr) as Hbk.
  assert (forall a n z, B !! a = Some n -> inside (a, n) z -> ~ cell L z /\ base + HDR <= z < u_brk s) as Hin.
  { intros a n z E Hz. split; [exact (taken_cells _ _ _ _ (HB a n E) z Hz)|]. destruct (HB a n E) as [_ (? & ? & ?) _]. unfold inside in Hz. cbn in Hz. lia. }
  assert (forall a n, B !! a = Some n -> inside (a, n) a) as Hhd by (intros a n E; apply taken_head, (HB a n E)).
  eapply (wp_malloc _ s L); [done|done| |].
  - intros s' Hh' Eb Hfr _ Href. assert (kept B s s') as Hk by (intros a n z E Hz; apply Hfr; unfold HDR in *; destruct (Hin a n z E Hz); lia).
    split; [done|]. cbn. split; [|done]. split; [|done]. exists L. split; [by left|]. split; [by right|].
    intros a n E. eapply taken_mono; [by apply HB|done|lia| |by left]. eapply Hk; eauto.
  - intros s' L' q Hh' Hb' Ht Hfr Hc.
    assert (kept B s s') as Hk by (intros a n z E Hz; destruct (Hin a n z E Hz); apply Hfr; unfold HDR in *; [done|lia|lia]).
    assert (forall a n, B !! a = Some n -> apart (a, n) (q, nunits_of nb)) as Hap.
    { intros a n E z Hz Hq. destruct (Hin a n z E Hz) as [Hcz ?]. unfold inside in Hq. cbn in Hq. destruct (Hc z ltac:(by right)); [done|lia]. }
    pose proof (hp_base _ _ Hh') as Hb0. pose proof Ht as [_ Ht2 _].
    split; [done|]. rewrite decide_False by (unfold HDR in *; lia). replace (q + HDR - HDR) with q by lia.
    assert (B !! q = None) as Hq.
    { destruct (B !! q) as [m|] eqn:E; [|done]. exfalso. eapply (Hap q m E q); [eauto|by apply taken_head]. }
    split; [|done]. split.
    + exists L'. split; [by left|]. split; [by right|]. intros a n [[<- <-]|[_ E]]%lookup_insert_Some; [done|].
      eapply taken_mono; [by apply HB|done|lia|eapply Hk; eauto|]. intros z Hz Hcz. by apply Hc; left.
    + intros a n b m [[<- <-]|[_ E1]]%lookup_insert_Some [[<- <-]|[_ E2]]%lookup_insert_Some Hne; [done| | |by eapply Ha].
      * intros z H1 H2. by eapply (Hap b m).
      * by apply Hap.
Qed.

Lemma uinv_free s B a n : uinv s B -> B !! a = Some n ->
  wp (free (a + HDR)) (fun _ s' => uinv s' (delete a B) /\ kept (delete a B) s s') s.
Proof.
  intros [(L & Hr & Hd & HB) Ha] E. destruct Hd as [->|Hh]; [done|]. eapply (wp_ufree _ s L a n); [done|by apply HB|].
  intros s' L' Hh' Eb _ Hfr Hc _ _.
  assert (kept (delete a B) s s') as Hk.
  { intros b m z [Hne Eb']%lookup_delete_Some Hz. pose proof (HB b m Eb') as Htb. pose proof (taken_cells _ _ _ _ Htb z Hz).
    destruct Htb as [_ ? _]. assert (z <> a) by (intros ->; eapply (Ha b m a n); eauto; apply taken_head, (HB a n E)).
    apply Hfr; [|done]. apply (ready_nodes s); [done|done|]. unfold inside, HDR in *. cbn in Hz. lia. }
  split; [split|done].
  - exists L'. split; [by left|]. split; [by right|]. intros b m Eb'. pose proof Eb' as [Hne Eb0]%lookup_delete_Some.
    pose proof (HB b m Eb0) as Htb. eapply taken_mono; [done|done|lia|eapply Hk; [done|]; apply taken_head; apply Htb|].
    intros z Hz Hcz. left. apply Hc in Hcz as [?|?]; [done|]. exfalso. by eapply (Ha b m a n); eauto.
  - intros b m c k [_ ?]%lookup_delete_Some [_ ?]%lookup_delete_Some. by apply Ha.
Qed.

Lemma uinv_write s B a n z v : uinv s B -> B !! a = Some n -> a + HDR <= z < a + HDR * n -> uinv (set_hdr (<[z := v]> (u_hdr s)) s) B.
Proof.
  intros [(L & Hr & Hd & HB) Ha] E Hz. destruct Hd as [->|Hh]; [done|]. pose proof (HB a n E) as Ht.
  assert (inside (a, n) z) as Hin by (unfold inside, HDR in *; cbn; lia). pose proof (taken_cells _ _ _ _ Ht z Hin) as Hc.
  set (s' := set_hdr _ s). assert (heap s' L) as Hh'.
  { eapply (heap_grow s); [done|reflexivity| |done|cbn; split; [lia|apply Hh]].
    apply (ready_nodes s); [done|done|]. destruct Ht as [_ ? _]. unfold HDR in *. lia. }
  split; [|done]. exists L. split; [by left|]. split; [by right|]. intros b m Eb. pose proof (HB b m Eb) as Htb.
  eapply taken_mono; [done|done|done| |by left]. cbn. apply lookup_insert_ne. intros ->.
  destruct (decide (a = b)) as [->|Hne]; [unfold HDR in *; lia|]. eapply (Ha a n b m); eauto. apply taken_head, Htb.
Qed.

Lemma uinv_sbrk s B n : uinv s B -> 0 < n < 2 ^ 31 -> wp (sbrk n) (fun _ s' => uinv s' B) s.
Proof.
  intros Hu Hn. destruct (Hu) as [(L & Hr & Hd & HB) Ha]. pose proof (ready_brk _ _ Hr) as Hbk. unfold KERNBASE in Hbk.
  unfold sbrk. wp_step. wp_step. rewrite (bool_decide_eq_true_2 (0 < n)) by lia. rewrite u32_small by (unfold HDR in *; lia).
  destruct (_ || _) eqn:Eo; [by wp_step|]. apply orb_false_iff in Eo as [E1%bool_decide_eq_false _].
  rewrite bool_decide_eq_false_2 by lia. wp_steps. unfold KERNBASE in E1. split; [|done]. exists L.
  assert (heap s L -> heap (set_brk (u_brk s + n) s) L) as Hg.
  { intros [? ? H3 ? ? ? ?]. split; try done; [|cbn; lia|cbn; unfold KERNBASE; lia]. eapply Forall_impl; [exact H3|]. cbn. lia. }
  split; [|split; [naive_solver|]].
  - destruct Hr as [?|(? & ? & ? & ?)]; [left; auto|right]. split; [done|]. split; [done|]. split; [done|]. cbn. unfold KERNBASE. lia.
  - intros a m E. destruct Hd as [->|Hh]; [done|]. eapply taken_mono; [by apply HB|auto|cbn; lia|done|by left].
Qed.

Lemma uinv_step s B s' B' : uinv s B -> ustep (s, B) (s', B') -> uinv s' B'.
Proof.
  intros Hu Hs. inversion Hs; subst.
  - pose proof (uinv_malloc s B nb Hu ltac:(done)) as (p0 & s0 & E & _ & H)%wp_ok. rewrite E in *. simplify_eq.
    rewrite decide_False in H by done. apply H.
  - pose proof (uinv_malloc s B' nb Hu ltac:(done)) as (p0 & s0 & E & _ & H)%wp_ok. rewrite E in *. simplify_eq. apply H.
  - pose proof (uinv_free s B a n Hu ltac:(done)) as (p0 & s0 & E & H & _)%wp_ok. rewrite E in *. by simplify_eq.
  - by eapply uinv_write.
  - pose proof (uinv_sbrk s B' n Hu ltac:(done)) as (p0 & s0 & E & H)%wp_ok. rewrite E in *. by simplify_eq.
Qed.

(** A process that has not called [malloc] yet; [base] is in its data segment. *)
Definition ustart (s : ustate) : Prop := u_freep s = 0 /\ 0 < base /\ base + HDR <= u_brk s < KERNBASE.

Lemma uinv_reach s0 s B : ustart s0 -> rtc ustep (s0, ∅) (s, B) -> uinv s B.
Proof.
  intros (Hf & Hb & Hk) Hr. assert (uinv s0 ∅) as H0.
  { split; [|intros a n b m E; by rewrite lookup_empty in E]. exists []. split; [by right|]. split; [by left|]. intros a n E. by rewrite lookup_empty in E. }
  assert (forall x y, rtc ustep x y -> uinv (fst x) (snd x) -> uinv (fst y) (snd y)) as HI.
  { clear. induction 1 as [|[s B] [s' B'] z Hs _ IH]; [done|]. intros Hu. apply IH. by eapply uinv_step. }
  by apply (HI _ _ Hr).
Qed.
End heap.

(** ** Theorems *)

(** C33: Take any sequence of calls of [malloc] for less than 2^31 - 32 bytes,
    of [free] for blocks that are held and of [sbrk] to grow, and of writes
    into the blocks that a process holds.  The blocks it then holds do
    not overlap; each is inside the process, and [free] takes it back.  The
    next [malloc], of less than 2^31 - 32 bytes, terminates, and answers 0 only where the process cannot grow
    by what is asked for; otherwise the answer is a block with room for
    [nbytes] bytes that overlaps none that is held.  Neither call changes what
    is stored in the blocks that stay held. *)
Theorem umalloc_correct base s0 s B nbytes : ustart base s0 -> rtc (ustep base) (s0, ∅) (s, B) -> 0 <= nbytes < 2 ^ 31 - 32 ->
  (forall a n b m, B !! a = Some n -> B !! b = Some m -> a <> b -> apart (a, n) (b, m)) /\
  (forall a n, B !! a = Some n -> base + HDR <= a /\ a + HDR * n <= u_brk s < KERNBASE /\
     exists s', free (a + HDR) s = Ok tt s' /\ kept (delete a B) s s') /\
  (exists p s', malloc base nbytes s = Ok p s' /\ kept B s s' /\
     (p = 0 /\ refused s (nunits_of nbytes) \/
      p <> 0 /\ base + HDR <= p - HDR /\ p + nbytes <= p - HDR + HDR * nunits_of nbytes <= u_brk s' /\
      forall a n, B !! a = Some n -> apart (a, n) (p - HDR, nunits_of nbytes))).
Proof.
  intros H0 Hr Hnb. pose proof (uinv_reach _ _ _ _ H0 Hr) as Hu. destruct (nunits_small nbytes Hnb) as (_ & _ & Hsz).
  split; [apply Hu|]. split.
  - intros a n E. pose proof (uinv_free _ _ _ _ _ Hu E) as ([] & s' & Es & _ & Hk)%wp_ok.
    destruct Hu as [(L & Hrd & _ & HB) _]. pose proof (ready_brk _ _ _ Hrd). destruct (HB a n E) as [_ ? _].
    split; [lia|]. split; [lia|]. eauto.
  - pose proof (uinv_malloc _ _ _ _ Hu Hnb) as (p & s' & Es & Hk & H)%wp_ok. exists p, s'. split; [done|]. split; [done|].
    destruct (decide (p = 0)) as [->|Hp]; [left; by split; [|apply H]|right]. destruct H as [[(L & _ & _ & HB) Ha] Hn].
    destruct (HB (p - HDR) (nunits_of nbytes) ltac:(apply lookup_insert_eq)) as [_ (? & ? & ?) _].
    split; [done|]. split; [done|]. split; [lia|]. intros a n E.
    apply Ha; [rewrite lookup_insert_ne; [done|congruence]|by rewrite lookup_insert_eq|congruence].
Qed.

(** The sum that rounds the size up wraps around: for the seven largest
    sizes the block that is handed out, wherever memory is left, is a header
    and nothing else. *)
Theorem malloc_wraps base s0 s B nbytes : ustart base s0 -> rtc (ustep base) (s0, ∅) (s, B) -> 2 ^ 32 - 7 <= nbytes < 2 ^ 32 ->
  ~ refused s 1 -> exists p s' n, malloc base nbytes s = Ok p s' /\ p <> 0 /\ u_hdr s' !! (p - HDR) = Some (n, 1).
Proof.
  intros H0 Hr Hnb Href. pose proof (uinv_reach _ _ _ _ H0 Hr) as Hu.
  assert (nunits_of nbytes = 1) as E1.
  { unfold nunits_of, HDR. replace (nbytes + 8 - 1) with (nbytes - 2 ^ 32 + 7 + 1 * 2 ^ 32) by lia. unfold u32 at 2.
    rewrite Z.mod_add, Z.mod_small, Z.div_small by lia. done. }
  assert (malloc base nbytes = malloc base 0) as -> by (unfold malloc; by rewrite E1).
  pose proof (uinv_malloc base s B 0 Hu ltac:(lia)) as (p & s' & Es & _ & H)%wp_ok. change (nunits_of 0) with 1 in H.
  destruct (decide (p = 0)) as [->|Hp]; [by destruct H|]. destruct H as [[(L & _ & _ & HB) _] _].
  destruct (HB (p - HDR) 1 ltac:(apply lookup_insert_eq)) as [[n Hn] _ _]. by exists p, s', n.
Qed.

(** *** An example *)

Definition um0 : ustate := Ustate ∅ 0 0x3000 0x40000.
Definition um_s (o : outcome ustate Z) : ustate := match o with Ok _ s => s | _ => um0 end.
Definition um_p (o : outcome ustate Z) : Z := match o with Ok p _ => p | _ => 0 end.
Definition um_o1 := malloc 0x2000 100 um0.
Definition um_o2 := malloc 0x2000 24 (um_s um_o1).
Definition um_s3 : ustate := match free (um_p um_o1) (um_s um_o2) with Ok _ s => s | _ => um0 end.
Definition um_B : held := delete (um_p um_o1 - HDR) (<[um_p um_o2 - HDR := nunits_of 24]> (<[um_p um_o1 - HDR := nunits_of 100]> ∅)).

Lemma um_start : ustart 0x2000 um0.
Proof. vm_compute. repeat split; discriminate. Qed.

Lemma um_reach : rtc (ustep 0x2000) (um0, ∅) (um_s3, um_B).
Proof.
  assert (malloc 0x2000 100 um0 = Ok (um_p um_o1) (um_s um_o1)) as E1 by (vm_compute; reflexivity).
  assert (malloc 0x2000 24 (um_s um_o1) = Ok (um_p um_o2) (um_s um_o2)) as E2 by (vm_compute; reflexivity).
  assert (free (um_p um_o1 - HDR + HDR) (um_s um_o2) = Ok tt um_s3) as E3 by (vm_compute; reflexivity).
  assert (um_p um_o1 <> 0 /\ um_p um_o2 <> 0) as [N1 N2] by (split; vm_compute; discriminate).
  assert ((<[um_p um_o2 - HDR := nunits_of 24]> (<[um_p um_o1 - HDR := nunits_of 100]> ∅) : held) !! (um_p um_o1 - HDR) = Some (nunits_of 100)) as E4
    by (vm_compute; reflexivity).
  unfold um_B. generalize dependent um_s3. generalize dependent um_o2. generalize dependent um_o1. intros o1 E1 N1 o2 E2 N2 E4 s3 E3.
  eapply rtc_l; [by apply (ustep_malloc _ _ _ 100); [lia|exact E1|]|].
  eapply rtc_l; [by apply (ustep_malloc _ _ _ 24); [lia|exact E2|]|].
  apply rtc_once. by eapply ustep_free.
Qed.

Lemma umalloc_correct_witness : exists p s', malloc 0x2000 100 um_s3 = Ok p s' /\ kept um_B um_s3 s'.
Proof.
  destruct (umalloc_correct 0x2000 um0 um_s3 um_B 100 um_start um_reach ltac:(lia)) as (_ & _ & p & s' & E & Hk & _).
  exists p, s'. exact (conj E Hk).
Defined.

