(* ===== verification/Clock.v ===== *)
(** * The clock queue

    [w11/clock-example.c]: the pages of a process that are in clear text, in
    a ring of eight slots with a hand, evicted by the clock algorithm.  A
    pointer to an entry of the page table is the index of the entry. *)

From S2P Require Import Prelude.
Local Open Scope Z_scope.

(** ** The code *)

Definition CLOCKSIZE : Z := 8.
Definition clk_PTE_P : Z := 0x001.
Definition PTE_A : Z := 0x020.
Definition PTE_E : Z := 0x200.

Record node_t := Node { vpn : Z; pte : Z }.

(** What is printed: a page that is referenced or removed, and the pages of
    the queue with their reference bits. *)
Inductive event := ref_page (v : Z) | remove_page (v : Z) | print_queue (l : list (Z * bool)).

Record clock := Clock { clk_queue : list node_t; clk_hand : Z; pgtable : list Z; printed : list event }.

Definition set_queue (q : list node_t) (s : clock) : clock := Clock q (clk_hand s) (pgtable s) (printed s).
Definition set_hand (h : Z) (s : clock) : clock := Clock (clk_queue s) h (pgtable s) (printed s).
Definition set_pgtable (t : list Z) (s : clock) : clock := Clock (clk_queue s) (clk_hand s) t (printed s).
Definition print_event (e : event) : M clock unit :=
  modify (fun s => Clock (clk_queue s) (clk_hand s) (pgtable s) (printed s ++ [e])).

(** An element of an array, at an index that must be in range. *)
Definition at_index {A} (l : list A) (i : Z) : M clock A :=
  if 0 <=z i then of_option "out of range" (l !! Z.to_nat i) else fault "out of range".
Definition slot (i : Z) : M clock node_t := s ← get; at_index (clk_queue s) i.
Definition put_slot (i : Z) (x : node_t) : M clock unit :=
  slot i ;; modify (fun s => set_queue (<[Z.to_nat i := x]> (clk_queue s)) s).
Definition get_pte (p : Z) : M clock Z := s ← get; at_index (pgtable s) p.
Definition put_pte (p v : Z) : M clock unit :=
  get_pte p ;; modify (fun s => set_pgtable (<[Z.to_nat p := v]> (pgtable s)) s).

Definition mencrypt (p : Z) : M clock unit :=
  v ← get_pte p;
  if c_bool (Z.land v PTE_E) then mret tt else
  put_pte p (Z.land (Z.lor v PTE_E) (Z.lnot clk_PTE_P)).

Definition mdecrypt (p : Z) : M clock unit :=
  v ← get_pte p;
  if negb (c_bool (Z.land v PTE_E)) then mret tt else
  put_pte p (Z.lor (Z.land v (Z.lnot PTE_E)) clk_PTE_P).

Fixpoint clk_insert_loop (fuel : nat) (v p : Z) : M clock unit :=
  match fuel with
  | O => fault "clk_insert: no slot"
  | S fuel' =>
      modify (fun s => set_hand (Z.rem (clk_hand s + 1) CLOCKSIZE) s) ;;
      s ← get;
      let h := clk_hand s in
      x ← slot h;
      if vpn x =z -1 then put_slot h (Node v p) else
      e ← get_pte (pte x);
      if negb (c_bool (Z.land e PTE_A)) then mencrypt (pte x) ;; put_slot h (Node v p)
      else put_pte (pte x) (Z.land e (Z.lnot PTE_A)) ;; clk_insert_loop fuel' v p
  end.

(** The hand goes around once and meets a slot that it has cleared. *)
Definition clk_insert (v p : Z) : M clock unit :=
  clk_insert_loop (S (Z.to_nat CLOCKSIZE)) v p ;; mdecrypt p.

Fixpoint clk_shift (fuel : nat) (idx prev_tail : Z) : M clock unit :=
  if idx =z prev_tail then mret tt else
  match fuel with
  | O => fault "clk_remove: no end"
  | S fuel' =>
      let next_idx := Z.rem (idx + 1) CLOCKSIZE in
      x ← slot next_idx;
      put_slot idx x ;;
      clk_shift fuel' next_idx prev_tail
  end.

Definition clk_remove (v : Z) : M clock unit :=
  s ← get;
  let prev_tail := clk_hand s in
  r ← for_find (Z.to_nat CLOCKSIZE) 0 (fun i =>
        let idx := Z.rem (prev_tail + i) CLOCKSIZE in
        x ← slot idx;
        mret (if vpn x =z v then Some idx else None));
  match r with
  | None => mret tt
  | Some match_idx =>
      clk_shift (Z.to_nat CLOCKSIZE) match_idx prev_tail ;;
      x ← slot prev_tail;
      put_slot prev_tail (Node (-1) (pte x)) ;;
      modify (fun s => set_hand (if clk_hand s =z 0 then CLOCKSIZE - 1 else clk_hand s - 1) s)
  end.

Definition clk_clear : M clock unit :=
  for_loop (Z.to_nat CLOCKSIZE) 0 (fun i => x ← slot i; put_slot i (Node (-1) (pte x))) ;;
  modify (set_hand (-1)).

Fixpoint clk_print_loop (n : nat) (print_idx : Z) : M clock (list (Z * bool)) :=
  match n with
  | O => mret []
  | S n' =>
      let print_idx := Z.rem (print_idx + 1) CLOCKSIZE in
      x ← slot print_idx;
      l ← (if vpn x =z -1 then mret [] else e ← get_pte (pte x); mret [(vpn x, 0 <z Z.land e PTE_A)]);
      r ← clk_print_loop n' print_idx;
      mret (l ++ r)
  end.

Definition clk_print : M clock unit :=
  s ← get;
  l ← clk_print_loop (Z.to_nat CLOCKSIZE) (clk_hand s);
  print_event (print_queue l).

Definition do_ref_page (v p : Z) : M clock unit :=
  print_event (ref_page v) ;;
  e ← get_pte p;
  if c_bool (Z.land e clk_PTE_P) then put_pte p (Z.lor e PTE_A) else
  clk_insert v p ;;
  e ← get_pte p;
  put_pte p (Z.lor e PTE_A).

Definition do_remove_page (v : Z) : M clock unit :=
  print_event (remove_page v) ;;
  clk_remove v.

(** The static data when the program starts, and the page table of [main]. *)
Definition clock_start (n : nat) : clock :=
  Clock (replicate (Z.to_nat CLOCKSIZE) (Node 0 0)) (-1) (replicate n (Z.lor 0 PTE_E)) [].

Definition ref (v : Z) : M clock unit := do_ref_page v v.

Definition main : M clock unit :=
  clk_clear ;;
  ref 0 ;; ref 3 ;; ref 1 ;; ref 2 ;; clk_print ;;
  ref 9 ;; ref 7 ;; ref 4 ;; ref 6 ;; clk_print ;;
  ref 2 ;; clk_print ;;
  ref 10 ;; clk_print ;;
  ref 1 ;; ref 2 ;; ref 3 ;; clk_print ;;
  ref 11 ;; clk_print ;;
  do_remove_page 10 ;; do_remove_page 11 ;; clk_print.


(** ** The specification: a queue of pages *)

(** The operations of a process on its pages, and a print of the queue. *)
Inductive clk_op := op_ref (v : Z) | op_remove (v : Z) | op_print.
Definition clk_do (o : clk_op) : M clock unit :=
  match o with op_ref v => ref v | op_remove v => do_remove_page v | op_print => clk_print end.
Fixpoint clk_run (l : list clk_op) : M clock unit :=
  match l with [] => mret tt | o :: l' => clk_do o ;; clk_run l' end.

Definition is_P (e : Z) : bool := Z.testbit e 0.
Definition is_A (e : Z) : bool := Z.testbit e 5.
Definition is_E (e : Z) : bool := Z.testbit e 9.
Definition clear_A (e : Z) : Z := Z.land e (Z.lnot PTE_A).
Definition mark_A (e : Z) : Z := Z.lor e PTE_A.
Definition enc (e : Z) : Z := if is_E e then e else Z.land (Z.lor e PTE_E) (Z.lnot clk_PTE_P).
Definition dec (e : Z) : Z := if is_E e then Z.lor (Z.land e (Z.lnot PTE_E)) clk_PTE_P else e.

(** The entry of page [v], and a change of it. *)
Definition ent (t : list Z) (v : Z) : Z := nth (Z.to_nat v) t 0.
Definition change (f : Z -> Z) (v : Z) (t : list Z) : list Z := alter f (Z.to_nat v) t.

(** The pages in clear text, the oldest first; the page table; the output. *)
Record aclock := Aclock { a_queue : list Z; a_table : list Z; a_out : list event }.

Definition clear_refs (l t : list Z) : list Z := foldl (fun t v => change clear_A v t) t l.

(** The oldest page whose reference bit is clear goes.  The older ones lose
    their bits and count as new; where every page has its bit, all lose it
    and the oldest goes. *)
Definition a_evict (L t : list Z) : list Z * list Z :=
  match list_find (fun v => is_A (ent t v) = false) L with
  | Some (i, w) => (drop (S i) L ++ take i L, change enc w (clear_refs (take i L) t))
  | None => (tail L, change enc (hd 0 L) (clear_refs L t))
  end.

Definition a_insert (v : Z) (a : aclock) : aclock :=
  let '(L, t) := if decide (length (a_queue a) < 8)%nat then (a_queue a, a_table a) else a_evict (a_queue a) (a_table a) in
  Aclock (L ++ [v]) (change dec v t) (a_out a).

Definition a_do (a : aclock) (o : clk_op) : aclock :=
  match o with
  | op_ref v =>
      let a1 := if is_P (ent (a_table a) v) then a else a_insert v a in
      Aclock (a_queue a1) (change mark_A v (a_table a1)) (a_out a ++ [ref_page v])
  | op_remove v => Aclock (filter (fun w => w <> v) (a_queue a)) (a_table a) (a_out a ++ [remove_page v])
  | op_print => Aclock (a_queue a) (a_table a) (a_out a ++ [print_queue (map (fun v => (v, is_A (ent (a_table a) v))) (a_queue a))])
  end.
Definition a_run (l : list clk_op) (a : aclock) : aclock := foldl a_do a l.

(** ** The ring *)

(** The slots in the order in which the hand meets them. *)
Definition ring (q : list node_t) (h : Z) : list node_t := rotate (Z.to_nat (h + 1)) q.

Lemma ring_length q h : length (ring q h) = length q.
Proof. apply length_rotate. Qed.

Lemma ring_advance q h y R x : length q = 8%nat -> -1 <= h < 8 -> ring q h = y :: R ->
  q !! Z.to_nat (Z.rem (h + 1) 8) = Some y /\ ring (<[Z.to_nat (Z.rem (h + 1) 8) := x]> q) (Z.rem (h + 1) 8) = R ++ [x].
Proof.
  intros Hl Hh. do 8 (destruct q as [|? q]; [done|]). destruct q; [|done].
  assert (h = -1 \/ h = 0 \/ h = 1 \/ h = 2 \/ h = 3 \/ h = 4 \/ h = 5 \/ h = 6 \/ h = 7) as Hc by lia.
  destruct_or! Hc; subst h; intros [= <- <-]; done.
Qed.

(** The slot at place [j] of the ring. *)
Definition place (h : Z) (j : nat) : Z := Z.rem (h + 1 + Z.of_nat j) 8.

Lemma place_nat (q : list node_t) h j : length q = 8%nat -> 0 <= h < 8 -> Z.to_nat (place h j) = rotate_nat_add (Z.to_nat (h + 1)) j (length q).
Proof. intros -> Hh. unfold place, rotate_nat_add. rewrite Z.rem_mod_nonneg by lia. f_equal. f_equal. lia. Qed.

Lemma place_pos h j : 0 <= h < 8 -> 0 <= place h j < 8.
Proof. intros. unfold place. apply Z.rem_bound_pos; lia. Qed.

Lemma place_next h j : 0 <= h < 8 -> Z.rem (place h j + 1) 8 = place h (S j).
Proof.
  intros Hh. pose proof (place_pos h j Hh). unfold place in *. rewrite !Z.rem_mod_nonneg in * by lia.
  rewrite Zplus_mod_idemp_l. f_equal. lia.
Qed.

Lemma place_last h j : 0 <= h < 8 -> (j < 8)%nat -> place h j = h <-> j = 7%nat.
Proof. intros Hh Hj. unfold place. rewrite Z.rem_mod_nonneg by lia. pose proof (Z.div_mod (h + 1 + Z.of_nat j) 8). pose proof (Z.mod_pos_bound (h + 1 + Z.of_nat j) 8). split; intros; nia. Qed.

Lemma ring_lookup q h j : length q = 8%nat -> 0 <= h < 8 -> (j < 8)%nat -> q !! Z.to_nat (place h j) = ring q h !! j.
Proof. intros Hl Hh Hj. rewrite (place_nat q) by done. unfold ring. by rewrite lookup_rotate_r by lia. Qed.

Lemma ring_insert q h j x : length q = 8%nat -> 0 <= h < 8 -> (j < 8)%nat ->
  ring (<[Z.to_nat (place h j) := x]> q) h = <[j := x]> (ring q h).
Proof. intros Hl Hh Hj. rewrite (place_nat q) by done. unfold ring. by rewrite rotate_insert_l by lia. Qed.

Lemma ring_back q h R x : length q = 8%nat -> 0 <= h < 8 -> ring q h = R ++ [x] ->
  ring q (if h =z 0 then 8 - 1 else h - 1) = x :: R.
Proof.
  intros Hl Hh. do 8 (destruct q as [|? q]; [done|]). destruct q; [|done].
  assert (h = 0 \/ h = 1 \/ h = 2 \/ h = 3 \/ h = 4 \/ h = 5 \/ h = 6 \/ h = 7) as Hc by lia.
  intros E. assert (exists a b c d e f g, R = [a; b; c; d; e; f; g]) as (a & b & c & d & e & f & g & ->).
  { assert (length R = 7%nat) as HR by (apply (f_equal length) in E; rewrite ring_length, length_app in E; cbn in E; lia).
    do 7 (destruct R as [|? R]; [done|]). destruct R; [|done]. repeat eexists. }
  destruct_or! Hc; subst h; cbn in E; injection E; intros; subst; done.
Qed.

(** ** Entries *)

Lemma bit_land e k : 0 <= k -> c_bool (Z.land e (2 ^ k)) = Z.testbit e k.
Proof.
  intros Hk. destruct (Z.testbit e k) eqn:E; [apply c_bool_nz; intros H0|apply c_bool_false].
  - assert (Z.testbit (Z.land e (2 ^ k)) k = false) as H by (rewrite H0; apply Z.bits_0).
    rewrite Z.land_spec, E, Z.pow2_bits_true in H by done. done.
  - apply Z.bits_inj'. intros i Hi. rewrite Z.land_spec, Z.bits_0. destruct (decide (i = k)) as [->|Hne]; [by rewrite E|].
    by rewrite Z.pow2_bits_false, andb_false_r.
Qed.

Lemma test_P e : c_bool (Z.land e clk_PTE_P) = is_P e.
Proof. by apply (bit_land e 0). Qed.
Lemma test_A e : c_bool (Z.land e PTE_A) = is_A e.
Proof. by apply (bit_land e 5). Qed.
Lemma test_E e : c_bool (Z.land e PTE_E) = is_E e.
Proof. by apply (bit_land e 9). Qed.

Lemma print_A e : (0 <z Z.land e PTE_A) = is_A e.
Proof.
  rewrite <- test_A. unfold c_bool. assert (0 <= Z.land e PTE_A) by (apply Z.land_nonneg; right; done).
  destruct (decide (Z.land e PTE_A = 0)) as [->|]; [done|]. by rewrite bool_decide_eq_true_2, bool_decide_eq_false_2 by lia.
Qed.

(** The bits of an entry after each change. *)
Ltac bits := unfold is_P, is_A, is_E, clear_A, mark_A, enc, dec, clk_PTE_P, PTE_A, PTE_E; intros;
  repeat (case_match); rewrite ?Z.land_spec, ?Z.lor_spec, ?Z.lnot_spec, ?Z.land_spec, ?Z.lor_spec by lia; cbn;
  rewrite ?andb_true_r, ?andb_false_r, ?orb_false_r, ?orb_true_r.
Lemma clear_A_bits e : is_P (clear_A e) = is_P e /\ is_A (clear_A e) = false /\ is_E (clear_A e) = is_E e.
Proof. bits. done. Qed.
Lemma mark_A_bits e : is_P (mark_A e) = is_P e /\ is_A (mark_A e) = true /\ is_E (mark_A e) = is_E e.
Proof. bits. done. Qed.
(** A page is either present or encrypted. *)
Definition wf_e (e : Z) : Prop := is_P e = negb (is_E e).
Lemma dec_bits e : wf_e e -> wf_e (dec e) /\ is_P (dec e) = true.
Proof. unfold wf_e, dec. destruct (is_E e) eqn:E; intros H; [bits|rewrite E, H]; done. Qed.
Lemma enc_bits e : wf_e e -> wf_e (enc e) /\ is_P (enc e) = false.
Proof. unfold wf_e, enc. destruct (is_E e) eqn:E; intros H; [rewrite E, H|bits]; done. Qed.

(** ** Access to the state *)

Definition in_table (t : list Z) (v : Z) : Prop := 0 <= v < Z.of_nat (length t).

Lemma ent_lookup t v : in_table t v -> t !! Z.to_nat v = Some (ent t v).
Proof. intros Hv. destruct (lookup_lt_is_Some_2 t (Z.to_nat v)) as [e E]; [unfold in_table in Hv; lia|]. unfold ent. by rewrite (nth_lookup_Some _ _ _ _ E). Qed.

Lemma change_length f v t : length (change f v t) = length t.
Proof. apply length_alter. Qed.

Lemma change_table f v t w : in_table (change f v t) w <-> in_table t w.
Proof. unfold in_table. by rewrite change_length. Qed.

Lemma change_insert f v t : in_table t v -> change f v t = <[Z.to_nat v := f (ent t v)]> t.
Proof.
  intros Hv. unfold change. apply list_eq. intros i. destruct (decide (i = Z.to_nat v)) as [->|Hne].
  - rewrite list_lookup_alter_eq, ent_lookup by done. rewrite list_lookup_insert_eq; [done|]. unfold in_table in Hv. lia.
  - by rewrite list_lookup_alter_ne, list_lookup_insert_ne. Qed.

Lemma change_same f v t : in_table t v -> f (ent t v) = ent t v -> change f v t = t.
Proof. intros Hv E. rewrite change_insert, E by done. by apply list_insert_id, ent_lookup. Qed.

Lemma ent_change f v t : in_table t v -> ent (change f v t) v = f (ent t v).
Proof.
  intros Hv. assert (change f v t !! Z.to_nat v = Some (f (ent t v))) as E by (unfold change; by rewrite list_lookup_alter_eq, ent_lookup).
  unfold ent at 1. by rewrite (nth_lookup_Some _ _ _ _ E).
Qed.

Lemma ent_change_ne f v t w : in_table t v -> 0 <= w -> v <> w -> ent (change f v t) w = ent t w.
Proof. intros Hv Hw Hne. unfold ent, change. rewrite !nth_lookup, list_lookup_alter_ne; [done|]. unfold in_table in Hv. lia. Qed.

Lemma wp_at_index {A} (l : list A) i x (Q : A -> clock -> Prop) s : 0 <= i -> l !! Z.to_nat i = Some x -> Q x s -> wp (at_index l i) Q s.
Proof. intros Hi E HQ. unfold at_index. rewrite bool_decide_eq_true_2, E by done. exact HQ. Qed.

Lemma wp_slot (Q : node_t -> clock -> Prop) s i x : 0 <= i -> clk_queue s !! Z.to_nat i = Some x -> Q x s -> wp (slot i) Q s.
Proof. intros. unfold slot. wp_steps. by eapply wp_at_index. Qed.

Lemma wp_put_slot (Q : unit -> clock -> Prop) s i x y : 0 <= i -> clk_queue s !! Z.to_nat i = Some x ->
  Q tt (set_queue (<[Z.to_nat i := y]> (clk_queue s)) s) -> wp (put_slot i y) Q s.
Proof. intros. unfold put_slot. wp_step. eapply wp_slot; [done|done|]. by wp_step. Qed.

Lemma wp_get_pte (Q : Z -> clock -> Prop) s p : in_table (pgtable s) p -> Q (ent (pgtable s) p) s -> wp (get_pte p) Q s.
Proof. intros Hp HQ. unfold get_pte. wp_steps. eapply wp_at_index; [by destruct Hp|by apply ent_lookup|done]. Qed.

Lemma wp_put_pte (Q : unit -> clock -> Prop) s p f : in_table (pgtable s) p ->
  Q tt (set_pgtable (change f p (pgtable s)) s) -> wp (put_pte p (f (ent (pgtable s) p))) Q s.
Proof. intros Hp HQ. unfold put_pte. wp_step. eapply wp_get_pte; [done|]. wp_step. by rewrite <- change_insert. Qed.

Lemma set_same s t : t = pgtable s -> set_pgtable t s = s.
Proof. intros ->. by destruct s. Qed.

Lemma wp_mencrypt (Q : unit -> clock -> Prop) s p : in_table (pgtable s) p ->
  Q tt (set_pgtable (change enc p (pgtable s)) s) -> wp (mencrypt p) Q s.
Proof.
  intros Hp HQ. unfold mencrypt. wp_step. eapply wp_get_pte; [done|]. rewrite test_E. destruct (is_E _) eqn:E.
  - wp_step. rewrite set_same in HQ; [done|]. apply change_same; [done|]. unfold enc. by rewrite E.
  - assert (Z.land (Z.lor (ent (pgtable s) p) PTE_E) (Z.lnot clk_PTE_P) = enc (ent (pgtable s) p)) as -> by (unfold enc; by rewrite E).
    by apply wp_put_pte.
Qed.

Lemma wp_mdecrypt (Q : unit -> clock -> Prop) s p : in_table (pgtable s) p ->
  Q tt (set_pgtable (change dec p (pgtable s)) s) -> wp (mdecrypt p) Q s.
Proof.
  intros Hp HQ. unfold mdecrypt. wp_step. eapply wp_get_pte; [done|]. rewrite test_E. destruct (is_E _) eqn:E; cbn [negb].
  - assert (Z.lor (Z.land (ent (pgtable s) p) (Z.lnot PTE_E)) clk_PTE_P = dec (ent (pgtable s) p)) as -> by (unfold dec; by rewrite E).
    by apply wp_put_pte.
  - wp_step. rewrite set_same in HQ; [done|]. apply change_same; [done|]. unfold dec. by rewrite E.
Qed.

(** ** clk_insert *)

Definition page (v : Z) : node_t := Node v v.

Record at_hand (s : clock) (R : list node_t) : Prop := {
  ah_size : length (clk_queue s) = 8%nat;
  ah_hand : -1 <= clk_hand s < 8;
  ah_ring : ring (clk_queue s) (clk_hand s) = R
}.

(** The hand moves to the first slot of the ring. *)
Lemma at_hand_next s x y R : at_hand s (y :: R) -> let h := Z.rem (clk_hand s + 1) 8 in
  0 <= h < 8 /\ clk_queue s !! Z.to_nat h = Some y /\
  at_hand (Clock (<[Z.to_nat h := x]> (clk_queue s)) h (pgtable s) (printed s)) (R ++ [x]).
Proof.
  intros [Hs Hh Hr] h. destruct (ring_advance _ _ _ _ x Hs Hh Hr) as [E1 E2].
  assert (0 <= h < 8) by (apply Z.rem_bound_pos; lia). split; [done|]. split; [done|]. split; cbn; [by rewrite length_insert|lia|done].
Qed.

Lemma at_hand_table s R t o : at_hand s R -> at_hand (Clock (clk_queue s) (clk_hand s) t o) R.
Proof. intros [? ? ?]. by split. Qed.

Lemma wp_insert_empty (Q : unit -> clock -> Prop) s fuel v x R : at_hand s (x :: R) -> vpn x = -1 ->
  (forall s', at_hand s' (R ++ [page v]) -> pgtable s' = pgtable s -> printed s' = printed s -> 0 <= clk_hand s' -> Q tt s') ->
  wp (clk_insert_loop (S fuel) v v) Q s.
Proof.
  intros Ha Hx HQ. destruct (at_hand_next s (page v) x R Ha) as (Hh & E & Ha'). cbn [clk_insert_loop]. unfold CLOCKSIZE. wp_steps.
  eapply wp_slot; [apply Hh|exact E|]. rewrite bool_decide_eq_true_2 by done.
  eapply wp_put_slot; [apply Hh|exact E|]. apply HQ; try done. apply Hh.
Qed.

Lemma wp_insert_evict (Q : unit -> clock -> Prop) v pre : forall w post fuel s,
  at_hand s (map page (pre ++ w :: post)) -> NoDup (pre ++ w :: post) -> Forall (in_table (pgtable s)) (pre ++ w :: post) ->
  Forall (fun x => is_A (ent (pgtable s) x) = true) pre -> is_A (ent (pgtable s) w) = false -> (length pre < fuel)%nat ->
  (forall s', at_hand s' (map page (post ++ pre ++ [v])) -> pgtable s' = change enc w (clear_refs pre (pgtable s)) ->
     printed s' = printed s -> 0 <= clk_hand s' -> Q tt s') ->
  wp (clk_insert_loop fuel v v) Q s.
Proof.
  induction pre as [|x pre IH]; intros w post fuel s Ha Hnd Ht Hpre Hw Hf HQ; (destruct fuel as [|fuel]; [cbn in Hf; lia|]); cbn [clk_insert_loop]; unfold CLOCKSIZE.
  - destruct (at_hand_next s (page v) (page w) (map page post) Ha) as (Hh & E & Ha'). apply Forall_inv in Ht as Hwt.
    wp_steps. eapply wp_slot; [apply Hh|exact E|]. cbn [vpn pte page].
    rewrite bool_decide_eq_false_2 by (unfold in_table in Hwt; lia). wp_step. apply wp_get_pte; [done|]. cbn [pgtable set_hand].
    rewrite test_A, Hw. cbn [negb]. wp_step. apply wp_mencrypt; [done|]. eapply wp_put_slot; [apply Hh|exact E|].
    apply HQ; try done; [|apply Hh]. rewrite map_app. exact (at_hand_table _ _ _ _ Ha').
  - destruct (at_hand_next s (page x) (page x) (map page (pre ++ w :: post)) Ha) as (Hh & E & Ha'). apply Forall_inv in Ht as Hxt.
    rewrite list_insert_id in Ha' by done. apply Forall_cons in Hpre as [Hx Hpre]. apply NoDup_cons in Hnd as [Hnin Hnd].
    assert (0 <= x) by (unfold in_table in Hxt; lia).
    assert (forall y, y ∈ pre ++ w :: post -> ent (change clear_A x (pgtable s)) y = ent (pgtable s) y) as Hent.
    { intros y Hy. apply ent_change_ne; [done| |by intros ->]. apply Forall_inv_tail in Ht. rewrite Forall_forall in Ht. specialize (Ht y Hy). unfold in_table in Ht. lia. }
    wp_steps. eapply wp_slot; [apply Hh|exact E|]. cbn [vpn pte page].
    rewrite bool_decide_eq_false_2 by lia. wp_step. apply wp_get_pte; [done|]. cbn [pgtable set_hand].
    rewrite test_A, Hx. cbn [negb]. wp_step. apply (wp_put_pte _ (set_hand _ s) x clear_A); [done|]. cbn [pgtable set_hand].
    apply (IH w (post ++ [x])); cbn [pgtable set_pgtable set_hand].
    + apply at_hand_table with (t := change clear_A x (pgtable s)) (o := printed s) in Ha'. rewrite app_comm_cons, app_assoc, map_app. exact Ha'.
    + rewrite app_comm_cons, app_assoc. apply NoDup_app. split; [done|]. split; [|apply NoDup_singleton]. intros y Hy ->%list_elem_of_singleton. done.
    + rewrite app_comm_cons, app_assoc. apply Forall_app. split; [|constructor; [by apply change_table|constructor]].
      apply Forall_inv_tail in Ht. eapply Forall_impl; [exact Ht|]. intros y. by apply change_table.
    + rewrite Forall_forall in *. intros y Hy. rewrite Hent by set_solver. auto.
    + rewrite Hent by set_solver. done.
    + cbn in Hf. lia.
    + intros s' H1 H2 H3 H4. apply HQ; [|done|done|done]. by rewrite <- app_assoc in H1.
Qed.

(** ** The representation *)

Record crep (s : clock) (a : aclock) : Prop := {
  cr_ring : exists E, at_hand s (E ++ map page (a_queue a)) /\ Forall (fun x => vpn x = -1) E;
  cr_table : pgtable s = a_table a;
  cr_out : printed s = a_out a;
  cr_nodup : NoDup (a_queue a);
  cr_queue : Forall (fun v => in_table (a_table a) v /\ is_P (ent (a_table a) v) = true) (a_queue a);
  cr_pages : Forall wf_e (a_table a)
}.

Lemma crep_length s a : crep s a -> (length (a_queue a) <= 8)%nat.
Proof.
  intros [(E & [Hs _ Hr] & _) _ _ _ _ _]. apply (f_equal length) in Hr.
  rewrite ring_length, length_app, length_map in Hr. lia.
Qed.

Lemma Forall_change (P : Z -> Prop) f v t : (forall e, P e -> P (f e)) -> Forall P t -> Forall P (change f v t).
Proof. intros Hf Ht. unfold change. apply Forall_alter; [done|]. auto. Qed.

Lemma clear_refs_table l : forall t w, in_table (clear_refs l t) w <-> in_table t w.
Proof. induction l as [|x l IH]; intros t w; [done|]. etrans; [apply IH|apply change_table]. Qed.

Lemma clear_refs_wf l : forall t, Forall wf_e t -> Forall wf_e (clear_refs l t).
Proof.
  induction l as [|x l IH]; intros t Ht; [done|]. apply IH, Forall_change; [|done].
  intros e He. unfold wf_e in *. destruct (clear_A_bits e) as (-> & _ & ->). done.
Qed.

Lemma clear_refs_P l : forall t w, Forall (in_table t) l -> 0 <= w -> is_P (ent (clear_refs l t) w) = is_P (ent t w).
Proof.
  induction l as [|x l IH]; intros t w Hl Hw; [done|]. apply Forall_cons in Hl as [Hx Hl]. change (clear_refs (x :: l) t) with (clear_refs l (change clear_A x t)).
  rewrite IH; [|eapply Forall_impl; [exact Hl|]; intros y; by apply change_table|done].
  destruct (decide (x = w)) as [->|Hne]; [|by rewrite ent_change_ne].
  rewrite ent_change by done. apply clear_A_bits.
Qed.

(** ** a_evict *)

(** A page is chosen that was in the queue; the others keep their place in
    the table. *)
Lemma wp_evict (Q : unit -> clock -> Prop) s v L t fuel : at_hand s (map page L) -> (0 < length L <= fuel)%nat -> pgtable s = t -> NoDup L -> Forall (in_table t) L ->
  (forall s', at_hand s' (map page (fst (a_evict L t) ++ [v])) -> pgtable s' = snd (a_evict L t) ->
     printed s' = printed s -> 0 <= clk_hand s' -> Q tt s') ->
  wp (clk_insert_loop (S fuel) v v) Q s.
Proof.
  intros Ha Hl <- Hnd Ht HQ. unfold a_evict in HQ.
  destruct (list_find _ L) as [[i w]|] eqn:El.
  - apply list_find_Some in El as (Hi & Hw & Hbefore). pose proof (take_drop_middle L i w Hi) as E. pose proof (lookup_lt_Some _ _ _ Hi).
    eapply (wp_insert_evict _ v (take i L) w (drop (S i) L)); rewrite ?E; [done|done|done| |done|rewrite length_take; lia|].
    + apply Forall_forall. intros x (j & Hj)%list_elem_of_lookup. apply lookup_take_Some in Hj as [Hj Hlt].
      specialize (Hbefore j x Hj Hlt). by apply not_false_is_true in Hbefore.
    + cbn [fst snd] in HQ. rewrite <- app_assoc in HQ. exact HQ.
  - apply list_find_None in El. destruct L as [|w L]; [cbn in Hl; lia|]. cbn [fst snd hd tail] in HQ.
    apply Forall_cons in El as [Hw El]. apply not_false_is_true in Hw. apply Forall_cons in Ht as [Hwt Ht]. pose proof Hnd as [Hnin Hnd']%NoDup_cons.
    destruct (at_hand_next s (page w) (page w) (map page L) Ha) as (Hh & E & Ha'). rewrite list_insert_id in Ha' by done.
    cbn [clk_insert_loop]. unfold CLOCKSIZE. wp_steps. eapply wp_slot; [apply Hh|exact E|]. cbn [vpn pte page].
    rewrite bool_decide_eq_false_2 by (unfold in_table in Hwt; lia). wp_step. apply wp_get_pte; [done|]. cbn [pgtable set_hand].
    rewrite test_A, Hw. cbn [negb]. wp_step. apply (wp_put_pte _ (set_hand _ s) w clear_A); [done|]. cbn [pgtable set_hand].
    assert (forall y, y ∈ L -> ent (change clear_A w (pgtable s)) y = ent (pgtable s) y) as Hent.
    { intros y Hy. rewrite Forall_forall in Ht. specialize (Ht y Hy). unfold in_table in Ht. apply ent_change_ne; [done|lia|by intros ->]. }
    eapply (wp_insert_evict _ v L w []); cbn [pgtable set_pgtable set_hand].
    + rewrite map_app. exact (at_hand_table _ _ _ _ Ha').
    + apply NoDup_app. split; [done|]. split; [|apply NoDup_singleton]. by intros y Hy ->%list_elem_of_singleton.
    + apply Forall_app. split; [eapply Forall_impl; [exact Ht|]; intros y|constructor; [|constructor]]; by apply change_table.
    + rewrite Forall_forall in *. intros y Hy. rewrite Hent by done. by apply not_false_is_true, El.
    + rewrite ent_change by done. apply clear_A_bits.
    + cbn in Hl. lia.
    + exact HQ.
Qed.

Lemma a_evict_shape L t : L <> [] -> NoDup L -> exists w L' C, a_evict L t = (L', change enc w (clear_refs C t)) /\
  L ≡ₚ w :: L' /\ C ⊆ L.
Proof.
  intros Hne Hnd. unfold a_evict. destruct (list_find _ L) as [[i w]|] eqn:El.
  - apply list_find_Some in El as (Hi & _). exists w, (drop (S i) L ++ take i L), (take i L). split; [done|].
    split; [|intros x (j & Hj)%list_elem_of_lookup; apply lookup_take_Some in Hj as [Hj _]; by eapply list_elem_of_lookup_2].
    rewrite <- (take_drop_middle L i w Hi) at 1. rewrite <- Permutation_middle, Permutation_app_comm. done.
  - destruct L as [|w L]; [done|]. by exists w, L, (w :: L).
Qed.

Lemma a_evict_spec L t : L <> [] -> NoDup L -> Forall (fun v => in_table t v /\ is_P (ent t v) = true) L -> Forall wf_e t ->
  let L' := fst (a_evict L t) in let t' := snd (a_evict L t) in
  S (length L') = length L /\ NoDup L' /\ L' ⊆ L /\ Forall (fun v => in_table t' v /\ is_P (ent t' v) = true) L' /\
  Forall wf_e t' /\ (forall v, in_table t' v <-> in_table t v) /\
  (forall v, in_table t v -> is_P (ent t' v) = true -> v ∈ L -> v ∈ L') /\ (forall v, in_table t v -> v ∉ L -> is_P (ent t' v) = is_P (ent t v)).
Proof.
  intros Hne Hnd HP Hwf. destruct (a_evict_shape L t Hne Hnd) as (w & L' & C & -> & HL & HC). cbn [fst snd].
  assert (forall v, v ∈ L <-> v = w \/ v ∈ L') as Hin by (intros v; rewrite HL, elem_of_cons; done).
  assert (NoDup (w :: L')) as [Hw Hnd']%NoDup_cons by (by rewrite <- HL). rewrite Forall_forall in HP.
  assert (Forall (in_table t) C) as HCt by (apply Forall_forall; intros x Hx; by apply HP, HC).
  assert (in_table (clear_refs C t) w) as Hwt by (apply clear_refs_table, HP, Hin; by left).
  assert (forall v, in_table t v -> v <> w -> is_P (ent (change enc w (clear_refs C t)) v) = is_P (ent t v)) as Hoth.
  { intros v Hv Hvw. unfold in_table in Hv. rewrite ent_change_ne by (done || lia). apply clear_refs_P; [done|lia]. }
  assert (forall v, in_table (change enc w (clear_refs C t)) v <-> in_table t v) as Htab by (intros v; by rewrite change_table, clear_refs_table).
  split; [by rewrite HL|]. split; [done|]. split; [intros v ?; apply Hin; by right|]. split.
  { apply Forall_forall. intros v Hv. destruct (HP v ltac:(apply Hin; by right)) as [Hvt HvP]. split; [by apply Htab|].
    rewrite Hoth; [done|done|by intros ->]. }
  split; [apply Forall_change; [intros e He; by apply enc_bits|by apply clear_refs_wf]|]. split; [done|]. split.
  - intros v Hv HvP [->|?]%Hin; [|done]. rewrite ent_change in HvP by done. exfalso.
    assert (wf_e (ent (clear_refs C t) w)) as He.
    { eapply Forall_lookup_1; [apply clear_refs_wf, Hwf|by apply ent_lookup]. }
    apply enc_bits in He as [_ He]. congruence.
  - intros v Hv Hvn. apply Hoth; [done|]. intros ->. apply Hvn, Hin. by left.
Qed.

(** ** References *)

Definition hand_set (s s' : clock) : Prop := 0 <= clk_hand s -> 0 <= clk_hand s'.

Lemma crep_mark s a v : crep s a -> in_table (a_table a) v ->
  crep (set_pgtable (change mark_A v (pgtable s)) s) (Aclock (a_queue a) (change mark_A v (a_table a)) (a_out a)).
Proof.
  intros [(E & Ha & HE) Ht Ho Hn Hq Hp] Hv. split; cbn [a_queue a_table a_out pgtable printed set_pgtable]; try done.
  - exists E. split; [exact (at_hand_table _ _ _ _ Ha)|done].
  - by rewrite Ht.
  - rewrite Forall_forall in *. intros w Hw. destruct (Hq w Hw) as [Hwt HwP]. split; [by apply change_table|].
    destruct (decide (v = w)) as [->|Hne]; [rewrite ent_change by done; by rewrite (proj1 (mark_A_bits _))|].
    rewrite ent_change_ne; [done|done|by destruct Hwt|done].
  - apply Forall_change; [|done]. intros e He. unfold wf_e in *. destruct (mark_A_bits e) as (-> & _ & ->). done.
Qed.

(** The queue and the table before the new page is put in. *)
Definition make_room (a : aclock) : list Z * list Z :=
  if decide (length (a_queue a) < 8)%nat then (a_queue a, a_table a) else a_evict (a_queue a) (a_table a).

Lemma make_room_spec s a : crep s a -> let L' := fst (make_room a) in let t' := snd (make_room a) in
  NoDup L' /\ L' ⊆ a_queue a /\ Forall (fun v => in_table t' v /\ is_P (ent t' v) = true) L' /\
  Forall wf_e t' /\ (forall v, in_table t' v <-> in_table (a_table a) v) /\
  (forall v, in_table (a_table a) v -> is_P (ent t' v) = true -> v ∈ a_queue a -> v ∈ L') /\
  (forall v, in_table (a_table a) v -> v ∉ a_queue a -> is_P (ent t' v) = is_P (ent (a_table a) v)).
Proof.
  intros [_ _ _ Hn Hq Hp]. unfold make_room. case_decide as Hl; cbn [fst snd]; [done|].
  apply (a_evict_spec (a_queue a) (a_table a)); [intros E0; rewrite E0 in Hl; cbn in Hl; lia|done|done|done].
Qed.

Lemma wp_make_room (Q : unit -> clock -> Prop) s a v : crep s a ->
  (forall s' E, at_hand s' (E ++ map page (fst (make_room a) ++ [v])) -> Forall (fun x => vpn x = -1) E -> pgtable s' = snd (make_room a) ->
     printed s' = printed s -> 0 <= clk_hand s' -> Q tt s') ->
  wp (clk_insert_loop (S (Z.to_nat CLOCKSIZE)) v v) Q s.
Proof.
  intros Hr HQ. pose proof (crep_length s a Hr) as Hlen. destruct Hr as [(E & Ha & HE) Ht Ho Hn Hq Hp]. unfold make_room in HQ.
  pose proof (ah_size _ _ Ha) as Hsz. rewrite <- (ring_length _ (clk_hand s)), (ah_ring _ _ Ha), length_app, length_map in Hsz. case_decide as Hl.
  - destruct E as [|x E]; [cbn in Hsz; lia|]. apply Forall_cons in HE as [Hx HE]. eapply wp_insert_empty; [exact Ha|done|].
    intros s' Ha' Et Eo Hh. apply (HQ s' E); try done; [|by rewrite Et]. cbn [fst]. by rewrite map_app, app_assoc.
  - destruct E as [|x E]; [|cbn in Hsz; lia]. eapply (wp_evict _ s v (a_queue a) (a_table a)); [done|change (Z.to_nat CLOCKSIZE) with 8%nat; lia|done|done| |].
    + eapply Forall_impl; [exact Hq|]. by intros w [? _].
    + intros s' Ha' Et Eo Hh. by apply (HQ s' []).
Qed.

Lemma wp_clk_insert (Q : unit -> clock -> Prop) s a v : crep s a -> in_table (a_table a) v -> is_P (ent (a_table a) v) = false ->
  (forall s', crep s' (a_insert v a) -> 0 <= clk_hand s' -> Q tt s') -> wp (clk_insert v v) Q s.
Proof.
  intros Hr Hv HP HQ. pose proof (make_room_spec s a Hr) as (Hn & Hsub & Hq & Hp & Htab & _ & Hoth). unfold clk_insert. wp_step.
  eapply wp_make_room; [done|]. intros s' E Ha HE Et Eo Hh. apply wp_mdecrypt; [by rewrite Et; apply Htab|].
  apply HQ; [|exact Hh]. assert (a_insert v a = Aclock (fst (make_room a) ++ [v]) (change dec v (snd (make_room a))) (a_out a)) as ->.
  { unfold a_insert, make_room. by case_decide; [|destruct (a_evict _ _)]. }
  assert (v ∉ a_queue a) as Hvq.
  { intros Hin. pose proof (cr_queue _ _ Hr) as Hq0. rewrite Forall_forall in Hq0. destruct (Hq0 v Hin). congruence. }
  assert (in_table (snd (make_room a)) v) as Hv' by (by apply Htab).
  split; cbn [a_queue a_table a_out pgtable printed set_pgtable]; [| |by rewrite Eo; apply Hr| | |].
  - exists E. split; [exact (at_hand_table _ _ _ _ Ha)|done].
  - by rewrite Et.
  - apply NoDup_app. split; [done|]. split; [|apply NoDup_singleton]. intros w Hw ->%list_elem_of_singleton. by apply Hvq, Hsub.
  - apply Forall_app. split; [|constructor; [|constructor]].
    + rewrite Forall_forall in *. intros w Hw. destruct (Hq w Hw) as [? ?]. split; [by apply change_table|].
      rewrite ent_change_ne; [done|done|by destruct H|]. intros ->. by apply Hvq, Hsub.
    + split; [by apply change_table|]. rewrite ent_change by done. apply dec_bits.
      eapply Forall_lookup_1; [exact Hp|by apply ent_lookup].
  - apply Forall_change; [|done]. intros e He. by apply dec_bits.
Qed.

Lemma crep_print s a e : crep s a ->
  crep (Clock (clk_queue s) (clk_hand s) (pgtable s) (printed s ++ [e])) (Aclock (a_queue a) (a_table a) (a_out a ++ [e])).
Proof.
  intros [(E & Ha & HE) Ht Ho Hn Hq Hp]. split; cbn; try done; [|by rewrite Ho].
  exists E. split; [exact (at_hand_table _ _ _ _ Ha)|done].
Qed.

Lemma a_insert_table s a v w : crep s a -> in_table (a_table (a_insert v a)) w <-> in_table (a_table a) w.
Proof.
  intros Hr. pose proof (make_room_spec s a Hr) as (_ & _ & _ & _ & Htab & _). rewrite <- Htab.
  unfold a_insert, make_room. case_decide; [|destruct (a_evict _ _)]; cbn [a_table fst snd]; apply change_table.
Qed.

Lemma wp_ref (Q : unit -> clock -> Prop) s a v : crep s a -> in_table (a_table a) v ->
  (forall s', crep s' (a_do a (op_ref v)) -> hand_set s s' -> (is_P (ent (a_table a) v) = false -> 0 <= clk_hand s') -> Q tt s') ->
  wp (ref v) Q s.
Proof.
  intros Hr Hv HQ. apply (crep_print s a (ref_page v)) in Hr as Hr'. unfold ref, do_ref_page. wp_step. unfold print_event. wp_steps.
  set (a1 := Aclock _ _ _) in Hr'. set (s1 := Clock _ _ _ _) in *. assert (pgtable s1 = a_table a) as Et by apply Hr.
  apply wp_get_pte; [by rewrite Et|]. rewrite test_P, Et. cbn [a_do] in HQ. destruct (is_P (ent (a_table a) v)) eqn:EP.
  - rewrite <- Et. apply (wp_put_pte _ s1 v mark_A); [by rewrite Et|]. apply HQ; [|by unfold hand_set|done]. by apply (crep_mark s1 a1 v).
  - wp_step. eapply wp_clk_insert; [exact Hr'|done|done|]. intros s2 Hr2 Hh2. wp_step.
    assert (in_table (a_table (a_insert v a1)) v) as Hv3 by (by apply (a_insert_table _ _ _ _ Hr')).
    assert (in_table (pgtable s2) v) as Hv2 by (by rewrite (cr_table _ _ Hr2)).
    apply wp_get_pte; [done|]. apply (wp_put_pte _ s2 v mark_A); [done|]. apply HQ; [|by intros _|done].
    pose proof (crep_mark s2 _ v Hr2 Hv3) as Hr3. subst a1.
    unfold a_insert in Hr3 |- *. cbn [a_queue a_table a_out] in *. by destruct (if decide _ then _ else _).
Qed.

(** ** Removal *)

Record at_hand' (s0 s : clock) (R : list node_t) : Prop := {
  ah_at : at_hand s R;
  ah_pos : 0 <= clk_hand s;
  ah_same : clk_hand s = clk_hand s0 /\ pgtable s = pgtable s0 /\ printed s = printed s0
}.

Lemma at_place s0 s X y Y : at_hand' s0 s (X ++ y :: Y) -> clk_queue s !! Z.to_nat (place (clk_hand s) (length X)) = Some y /\
  0 <= place (clk_hand s) (length X) < 8 /\
  forall z, at_hand' s0 (set_queue (<[Z.to_nat (place (clk_hand s) (length X)) := z]> (clk_queue s)) s) (X ++ z :: Y).
Proof.
  intros [[Hs Hh Hr] Hp Hsame]. assert (length X < 8)%nat.
  { apply (f_equal length) in Hr. rewrite ring_length, length_app in Hr. cbn in Hr. lia. }
  rewrite ring_lookup, Hr by (done || lia). split; [by rewrite list_lookup_middle|]. split; [apply place_pos; lia|].
  intros z. split; [|done|done]. split; cbn; [by rewrite length_insert|done|]. rewrite ring_insert, Hr by (done || lia). by rewrite insert_app_r_alt, Nat.sub_diag by lia.
Qed.

Lemma wp_shift (Q : unit -> clock -> Prop) s0 Y : forall X y fuel s, at_hand' s0 s (X ++ y :: Y) -> (length Y <= fuel)%nat ->
  (forall s' z, at_hand' s0 s' (X ++ Y ++ [z]) -> Q tt s') -> wp (clk_shift fuel (place (clk_hand s) (length X)) (clk_hand s)) Q s.
Proof.
  induction Y as [|y' Y IH]; intros X y fuel s Ha Hf HQ.
  - assert (length X = 7%nat) as E7.
    { destruct Ha as [[Hs _ Hr] _ _]. apply (f_equal length) in Hr. rewrite ring_length, length_app in Hr. cbn in Hr. lia. }
    pose proof Ha as [[Hs Hh Hr] Hp Hsame]. destruct fuel; cbn [clk_shift]; (rewrite bool_decide_eq_true_2 by (apply place_last; lia)); wp_step; by eapply HQ.
  - assert (length X + 2 <= 8)%nat as E7.
    { destruct Ha as [[Hs _ Hr] _ _]. apply (f_equal length) in Hr. rewrite ring_length, length_app in Hr. cbn in Hr. lia. }
    pose proof Ha as [[Hs Hh Hr] Hp Hsame]. destruct fuel as [|fuel]; [cbn in Hf; lia|]. cbn [clk_shift].
    rewrite bool_decide_eq_false_2 by (rewrite place_last by lia; lia). unfold CLOCKSIZE. rewrite place_next by lia.
    pose proof Ha as Ha1. rewrite (cons_middle y), app_assoc in Ha1. destruct (at_place _ _ _ _ _ Ha1) as (E1 & Hp1 & _).
    rewrite length_app in E1, Hp1. cbn [length] in E1, Hp1. rewrite Nat.add_1_r in E1, Hp1.
    wp_step. eapply wp_slot; [lia|exact E1|]. destruct (at_place _ _ _ _ _ Ha) as (E2 & Hp2 & Hset). wp_step. eapply wp_put_slot; [lia|exact E2|].
    specialize (Hset y'). set (s1 := set_queue _ s) in *. rewrite (cons_middle y'), app_assoc in Hset.
    specialize (IH (X ++ [y']) y' fuel s1 Hset). rewrite length_app in IH. cbn [length] in IH. rewrite Nat.add_1_r in IH. apply IH; [cbn in Hf; lia|].
    intros s' z Hz. rewrite <- app_assoc in Hz. apply (HQ s' z). exact Hz.
Qed.

Lemma place_search h i : 0 <= h < 8 -> 0 <= i < 8 -> Z.rem (h + i) 8 = place h (if decide (i = 0) then 7 else Z.to_nat (i - 1)).
Proof.
  intros Hh Hi. unfold place. rewrite !Z.rem_mod_nonneg by lia. case_decide as E; [subst i|f_equal; lia].
  replace (h + 1 + Z.of_nat 7) with (h + 0 + 1 * 8) by lia. by rewrite Z.mod_add.
Qed.

Lemma wp_search (Q : option Z -> clock -> Prop) s v R : at_hand s R -> 0 <= clk_hand s ->
  ((forall x, x ∈ R -> vpn x <> v) -> Q None s) ->
  (forall X x Y, R = X ++ x :: Y -> vpn x = v -> Q (Some (place (clk_hand s) (length X))) s) ->
  wp (for_find (Z.to_nat CLOCKSIZE) 0 (fun i => let idx := Z.rem (clk_hand s + i) CLOCKSIZE in
        x ← slot idx; mret (if vpn x =z v then Some idx else None))) Q s.
Proof.
  intros [Hs Hh Hr] Hp Hnone Hsome. assert (length R = 8%nat) as HR by (rewrite <- Hr, ring_length; done).
  set (pos := fun i : Z => if decide (i = 0) then 7%nat else Z.to_nat (i - 1)).
  apply (wp_for_find (fun i s' => s' = s /\ forall k x, 0 <= k < i -> R !! pos k = Some x -> vpn x <> v)).
  - split; [done|]. intros. lia.
  - intros j s' Hj [-> Hprev]. assert (0 <= j < 8) by (unfold CLOCKSIZE in Hj; lia). unfold CLOCKSIZE. cbn zeta. rewrite place_search by lia. fold (pos j).
    assert (pos j < 8)%nat as Hpj by (unfold pos; case_decide; lia).
    destruct (lookup_lt_is_Some_2 R (pos j)) as [x Hx]; [lia|]. pose proof (place_pos (clk_hand s) (pos j) ltac:(lia)).
    wp_step. eapply wp_slot; [lia|rewrite ring_lookup, Hr by (done || lia); exact Hx|]. wp_step. case_bool_decide as Ev.
    + pose proof (take_drop_middle R (pos j) x Hx) as ER. pose proof (length_take R (pos j)) as EL.
      replace (pos j) with (length (take (pos j) R)) at 1 by lia. by eapply Hsome.
    + split; [done|]. intros k y Hk Hy. destruct (decide (k = j)) as [->|]; [congruence|]. apply (Hprev k y); [lia|done].
  - intros s' [-> Hall]. apply Hnone. intros x (j & Hj)%list_elem_of_lookup. pose proof (lookup_lt_Some _ _ _ Hj).
    apply (Hall (if decide (j = 7%nat) then 0 else Z.of_nat j + 1) x); [change (0 + Z.of_nat (Z.to_nat CLOCKSIZE)) with 8; case_decide; lia|].
    unfold pos. destruct (decide (j = 7%nat)) as [->|]; [done|]. rewrite decide_False by lia. replace (Z.to_nat _) with j by lia. done.
Qed.

Lemma filter_absent v (l : list Z) : v ∉ l -> filter (fun w => w <> v) l = l.
Proof. induction l as [|x l IH]; [done|]. rewrite not_elem_of_cons. intros [Hx Hl]. rewrite filter_cons_True, IH by congruence. done. Qed.

Lemma filter_gone v (A B : list Z) : NoDup (A ++ v :: B) -> filter (fun w => w <> v) (A ++ v :: B) = A ++ B.
Proof.
  intros Hn. apply NoDup_app in Hn as (HA & Hd & [Hv HB]%NoDup_cons). rewrite filter_app, filter_cons_False by (intros H; by apply H).
  rewrite !filter_absent; [done|done|]. intros Hw. apply (Hd v Hw). set_solver.
Qed.

Lemma wp_remove (Q : unit -> clock -> Prop) s a v : crep s a -> 0 <= clk_hand s -> 0 <= v ->
  (forall s', crep s' (a_do a (op_remove v)) -> 0 <= clk_hand s' -> Q tt s') -> wp (do_remove_page v) Q s.
Proof.
  intros Hr Hh Hv HQ. apply (crep_print s a (remove_page v)) in Hr as Hr'. unfold do_remove_page. wp_step. unfold print_event. wp_step.
  set (s1 := Clock _ _ _ _) in *. pose proof Hr' as [(E & Ha & HE) Ht Ho Hn Hq Hp]. cbn [a_queue a_table a_out a_do] in *.
  unfold clk_remove. wp_steps. eapply wp_search; [exact Ha|done| |].
  - intros Hno. wp_step. apply HQ; [|done]. rewrite filter_absent; [done|]. intros Hw.
    apply (Hno (page v)); [|done]. apply elem_of_app. right. apply list_elem_of_fmap. by exists v.
  - intros X x Y ER Hx. wp_step.
    assert (exists A B, a_queue a = A ++ v :: B /\ X = E ++ map page A /\ Y = map page B) as (A & B & Eq & -> & ->).
    { clear -ER Hx HE Hv. revert X ER. induction E as [|e E IH]; intros X ER; cbn in ER.
      - apply fmap_app_inv in ER as (A & C & HA & HC & ->). destruct C as [|c B]; [done|]. cbn in HC.
        injection HC as -> ->. cbn in Hx. subst c. by exists A, B.
      - apply Forall_cons in HE as [He HE]. destruct X as [|x' X]; injection ER as <- ER; [lia|].
        destruct (IH HE X ER) as (A & B & ? & -> & ->). by exists A, B. }
    rewrite Eq in Hn. rewrite Eq, filter_gone in HQ by done.
    assert (at_hand' s1 s1 ((E ++ map page A) ++ x :: map page B)) as Ha1 by (split; [by rewrite <- ER|done|done]).
    eapply (wp_shift _ s1 (map page B)); [exact Ha1| |].
    { pose proof (crep_length _ _ Hr') as HL. cbn [a_queue] in HL. rewrite Eq, length_app in HL. rewrite length_map. change (Z.to_nat CLOCKSIZE) with 8%nat. cbn [length] in HL. lia. }
    intros s2 z Ha2. rewrite app_assoc in Ha2. pose proof Ha2 as [_ _ (Eh & Et & Eo)]. rewrite <- Eh.
    destruct (at_place _ _ _ _ _ Ha2) as (E2 & _ & Hset). pose proof (ah_hand _ _ (ah_at _ _ _ Ha2)) as Hh2. pose proof (ah_pos _ _ _ Ha2) as Hp2.
    assert (place (clk_hand s2) (length ((E ++ map page A) ++ map page B)) = clk_hand s2) as E7.
    { apply place_last; [lia| |]; pose proof (ah_size _ _ (ah_at _ _ _ Ha2)) as Hsz;
        rewrite <- (ring_length _ (clk_hand s2)), (ah_ring _ _ (ah_at _ _ _ Ha2)), length_app in Hsz; cbn in Hsz; lia. }
    rewrite E7 in E2, Hset. wp_step. eapply wp_slot; [done|exact E2|]. wp_step. eapply wp_put_slot; [done|exact E2|].
    specialize (Hset (Node (-1) (pte z))). set (s3 := set_queue _ s2) in *. wp_step. destruct Hset as [[Hs3 Hh3 Hr3] Hp3 _].
    apply HQ; [|cbn; unfold CLOCKSIZE; case_bool_decide; lia]. split; cbn [a_queue a_table a_out].
    + exists (Node (-1) (pte z) :: E). split; [|by constructor]. split; [done|cbn; unfold CLOCKSIZE; case_bool_decide; lia|].
      cbn [clk_queue clk_hand set_hand]. unfold CLOCKSIZE. erewrite ring_back; [|done|lia|exact Hr3]. by rewrite map_app, app_assoc.
    + cbn. by rewrite Et.
    + cbn. by rewrite Eo.
    + apply NoDup_app in Hn as (HA & Hd & [Hvn HB]%NoDup_cons). apply NoDup_app. split; [done|]. split; [|done]. intros w Hw Hw'. apply (Hd w Hw). set_solver.
    + rewrite Eq in Hq. apply Forall_app in Hq as [? [_ ?]%Forall_cons]. by apply Forall_app.
    + done.
Qed.

(** ** Printing *)

Definition render (t : list Z) (R : list node_t) : list (Z * bool) :=
  R ≫= fun x => if vpn x =z -1 then [] else [(vpn x, is_A (ent t (pte x)))].

Lemma wp_print_loop s R1 : forall idx R2, at_hand (set_hand idx s) (R1 ++ R2) -> Forall (fun x => vpn x = -1 \/ in_table (pgtable s) (pte x)) R1 ->
  wp (clk_print_loop (length R1) idx) (fun l s' => s' = s /\ l = render (pgtable s) R1) s.
Proof.
  induction R1 as [|y R1 IH]; intros idx R2 Ha HF; cbn [clk_print_loop length]; [by wp_step|]. apply Forall_cons in HF as [Hy HF].
  destruct (at_hand_next _ y y (R1 ++ R2) Ha) as (Hh & E & Ha'). cbn in E. rewrite list_insert_id in Ha' by done.
  unfold CLOCKSIZE. wp_step. eapply wp_slot; [apply Hh|exact E|]. wp_step.
  rewrite <- app_assoc in Ha'. specialize (IH _ _ Ha' HF). unfold render. cbn [mbind list_bind]. fold (render (pgtable s) R1).
  case_bool_decide as Ev.
  - wp_steps. eapply wp_mono; [exact IH|]. intros l s' [-> ->]. by wp_step.
  - destruct Hy as [?|Hy]; [done|]. wp_step. apply wp_get_pte; [done|]. wp_steps. eapply wp_mono; [exact IH|].
    intros l s' [-> ->]. wp_step. by rewrite print_A.
Qed.

Lemma render_pages t E L : Forall (fun x => vpn x = -1) E -> Forall (fun v => 0 <= v) L ->
  render t (E ++ map page L) = map (fun v => (v, is_A (ent t v))) L.
Proof.
  intros HE HL. unfold render. rewrite bind_app. induction HE as [|x E Hx _ IH]; cbn [mbind list_bind]; [|by rewrite bool_decide_eq_true_2].
  clear -HL. induction HL as [|v L Hv _ IH]; [done|]. cbn [map mbind list_bind vpn page]. rewrite bool_decide_eq_false_2 by lia.
  cbn [app]. by f_equal.
Qed.

Lemma wp_print (Q : unit -> clock -> Prop) s a : crep s a ->
  (forall s', crep s' (a_do a op_print) -> clk_hand s' = clk_hand s -> Q tt s') -> wp clk_print Q s.
Proof.
  intros Hr HQ. pose proof Hr as [(E & Ha & HE) Ht Ho Hn Hq Hp]. unfold clk_print. wp_steps.
  assert (Z.to_nat CLOCKSIZE = length (E ++ map page (a_queue a))) as ->.
  { rewrite <- (ah_ring _ _ Ha), ring_length. by rewrite (ah_size _ _ Ha). }
  eapply wp_mono; [eapply (wp_print_loop s _ _ [])|].
  - rewrite app_nil_r. exact (at_hand_table _ _ _ _ Ha).
  - apply Forall_app. split; [eapply Forall_impl; [exact HE|]; by left|]. apply Forall_fmap. eapply Forall_impl; [exact Hq|].
    intros v [? _]. right. by rewrite Ht.
  - intros l s' [-> ->]. unfold print_event. wp_step. rewrite render_pages; [|done|].
    + apply HQ; [|done]. cbn [a_do]. pose proof (crep_print s a (print_queue (map (fun v => (v, is_A (ent (pgtable s) v))) (a_queue a))) Hr) as H.
      rewrite Ht in H |- *. exact H.
    + eapply Forall_impl; [exact Hq|]. intros v [[? _] _]. done.
Qed.

(** ** Theorems *)

(** The pages of the operations are those of the table. *)
Definition op_ok (n : nat) (o : clk_op) : Prop :=
  match o with op_ref v => 0 <= v < Z.of_nat n | op_remove v => 0 <= v | op_print => True end.

(** The first page operation is a reference. *)
Fixpoint ref_first (l : list clk_op) : Prop :=
  match l with [] => True | op_print :: l' => ref_first l' | op_ref _ :: _ => True | op_remove _ :: _ => False end.

Definition a_start (n : nat) : aclock := Aclock [] (replicate n PTE_E) [].

Lemma clear_start n : clk_clear (clock_start n) = Ok tt (Clock (replicate 8 (Node (-1) 0)) (-1) (replicate n PTE_E) []).
Proof. reflexivity. Qed.

Lemma crep_start n : crep (Clock (replicate 8 (Node (-1) 0)) (-1) (replicate n PTE_E) []) (a_start n).
Proof.
  split; cbn [a_queue a_table a_out a_start]; try done; [| |by apply Forall_replicate].
  - exists (replicate 8 (Node (-1) 0)). split; [split; done|]. by apply Forall_replicate.
  - constructor.
Qed.

Lemma a_do_length s a o n : crep s a -> length (a_table a) = n -> op_ok n o -> length (a_table (a_do a o)) = n.
Proof.
  intros Hr <- Ho. destruct o as [v| |]; [|done|done]. cbn [a_do a_table]. rewrite change_length. destruct (is_P _); [done|].
  unfold a_insert. case_decide as Hl; [cbn; apply change_length|].
  destruct (a_evict_shape (a_queue a) (a_table a)) as (w & L' & C & -> & _).
  { intros E. rewrite E in Hl. cbn in Hl. lia. }
  { apply Hr. }
  cbn [a_table]. rewrite !change_length. generalize (a_table a). induction C as [|x C IH]; intros t; [done|]. etrans; [apply IH|apply change_length].
Qed.

Lemma wp_do s a o n : crep s a -> length (a_table a) = n -> op_ok n o -> 0 <= clk_hand s ->
  wp (clk_do o) (fun _ s' => crep s' (a_do a o) /\ 0 <= clk_hand s') s.
Proof.
  intros Hr <- Ho Hh. destruct o as [v|v|]; cbn [clk_do].
  - eapply wp_ref; [done|done|]. intros s' ? Hs _. split; [done|]. by apply Hs.
  - eapply wp_remove; [done|done|done|]. by intros s'.
  - eapply wp_print; [done|]. intros s' ? ->. done.
Qed.

Section run.
(** An invariant of the queue that the operations of a class keep. *)
Context (n : nat) (ok : clk_op -> Prop) (I : aclock -> Prop).
Hypothesis ok_op : forall o, ok o -> op_ok n o.
Hypothesis I_do : forall s a o, crep s a -> length (a_table a) = n -> ok o -> I a -> I (a_do a o).

Lemma wp_run ops : forall s a, crep s a -> length (a_table a) = n -> Forall ok ops -> 0 <= clk_hand s -> I a ->
  wp (clk_run ops) (fun _ s' => crep s' (a_run ops a) /\ I (a_run ops a)) s.
Proof.
  induction ops as [|o ops IH]; intros s a Hr Hl Hok Hh HI; cbn [clk_run]; [by wp_step|]. apply Forall_cons in Hok as [Ho Hok].
  wp_step. eapply wp_mono; [by eapply wp_do; eauto|]. intros [] s' [Hr' Hh']. apply IH; eauto using a_do_length.
Qed.

Lemma wp_run_start ops : forall s a, crep s a -> length (a_table a) = n -> Forall ok ops -> ref_first ops -> I a ->
  Forall (fun e => is_P e = false) (a_table a) -> wp (clk_run ops) (fun _ s' => crep s' (a_run ops a) /\ I (a_run ops a)) s.
Proof.
  induction ops as [|o ops IH]; intros s a Hr Hl Hok Hf HI HP; cbn [clk_run]; [by wp_step|]. pose proof Hok as [Ho Hok']%Forall_cons.
  destruct o as [v|v|]; [|done|].
  - wp_step. assert (in_table (a_table a) v) as Hv by (unfold in_table; rewrite Hl; apply (ok_op _ Ho)). eapply wp_ref; [done|done|]. intros s' Hr' _ Hh.
    apply (wp_run ops s' (a_do a (op_ref v))); eauto using a_do_length. apply Hh.
    eapply (Forall_lookup_1 _ _ _ _ HP). by apply ent_lookup.
  - wp_step. eapply wp_print; [done|]. intros s' Hr' _. apply (IH s' (a_do a op_print)); eauto.
Qed.

Lemma run_start ops : Forall ok ops -> ref_first ops -> I (a_start n) ->
  exists s, (clk_clear ;; clk_run ops) (clock_start n) = Ok tt s /\ crep s (a_run ops (a_start n)) /\ I (a_run ops (a_start n)).
Proof.
  intros Hok Hf HI. assert (wp (clk_clear ;; clk_run ops) (fun _ s => crep s (a_run ops (a_start n)) /\ I (a_run ops (a_start n))) (clock_start n)) as ([] & s & E & Hr)%wp_ok; [|by exists s].
  wp_step. unfold wp. rewrite clear_start. apply (wp_run_start ops _ _ (crep_start n)); try done; [apply length_replicate|by apply Forall_replicate].
Qed.
End run.

(** Every page that is present is in the queue. *)
Definition covered (a : aclock) : Prop := forall v, in_table (a_table a) v -> is_P (ent (a_table a) v) = true -> v ∈ a_queue a.

Lemma covered_insert s a v : crep s a -> covered a -> in_table (a_table a) v -> covered (a_insert v a).
Proof.
  intros Hr Hc Hv. pose proof (make_room_spec s a Hr) as (_ & _ & _ & _ & Htab & Hin & Hout).
  assert (a_insert v a = Aclock (fst (make_room a) ++ [v]) (change dec v (snd (make_room a))) (a_out a)) as ->.
  { unfold a_insert, make_room. by case_decide; [|destruct (a_evict _ _)]. }
  intros w Hw HP. cbn [a_table a_queue] in *. apply change_table, Htab in Hw. apply elem_of_app.
  destruct (decide (v = w)) as [->|Hne]; [right; by constructor|]. left.
  rewrite ent_change_ne in HP by (done || (by apply Htab) || (by destruct Hw)).
  destruct (decide (w ∈ a_queue a)) as [Hq|Hq]; [by apply Hin|]. rewrite Hout in HP by done. destruct Hq. by apply Hc.
Qed.

Lemma covered_do s a o n : crep s a -> length (a_table a) = n -> op_ok n o /\ (forall v, o <> op_remove v) -> covered a -> covered (a_do a o).
Proof.
  intros Hr <- [Ho Hrm] Hc. destruct o as [v|v|]; [|by destruct (Hrm v)|done]. cbn [a_do].
  set (a1 := if is_P (ent (a_table a) v) then a else a_insert v a).
  assert (covered a1 /\ in_table (a_table a1) v) as [Hc1 Hv].
  { subst a1. destruct (is_P _); [done|]. split; [by eapply covered_insert|]. by eapply a_insert_table. }
  intros w Hw HP. cbn [a_table a_queue] in *. rewrite change_table in Hw. apply Hc1; [done|].
  destruct (decide (v = w)) as [->|Hne]; [by rewrite ent_change, (proj1 (mark_A_bits _)) in HP by done|].
  rewrite ent_change_ne in HP; [done|done|by destruct Hw|done].
Qed.

(** C34: From the cleared queue on, every sequence of references, removals
    and prints that starts with a reference runs to its end, and the ring with
    its hand is a queue of pages: a new page goes to its end; when it is full
    the oldest page without a reference bit is evicted and encrypted, the
    older ones lose their bits and move to the end, and where all have the bit
    the oldest goes; a removed page leaves the others in their order.  The
    output is that of the queue. *)
Theorem clock_refines n ops : Forall (op_ok n) ops -> ref_first ops ->
  exists s, (clk_clear ;; clk_run ops) (clock_start n) = Ok tt s /\ crep s (a_run ops (a_start n)) /\
    printed s = a_out (a_run ops (a_start n)) /\ pgtable s = a_table (a_run ops (a_start n)).
Proof.
  intros Hok Hf. destruct (run_start n (op_ok n) (fun _ => True) ltac:(done) ltac:(done) ops Hok Hf ltac:(done)) as (s & E & Hr & _).
  exists s. split; [done|]. split; [done|]. split; apply Hr.
Qed.

(** The page of a reference is in the queue afterwards. *)
Lemma a_ref_queue a v : covered a -> in_table (a_table a) v -> v ∈ a_queue (a_do a (op_ref v)).
Proof.
  intros Hc Hv. cbn [a_do a_queue]. destruct (is_P _) eqn:E; [by apply Hc|]. unfold a_insert. case_decide; [set_solver|].
  destruct (a_evict _ _) as [L t]. set_solver.
Qed.

Lemma rotate_perm {A} n (l : list A) : rotate n l ≡ₚ l.
Proof. unfold rotate. by rewrite Permutation_app_comm, take_drop. Qed.

(** The pages that the slots of the ring name. *)
Definition ring_pages (s : clock) : list Z := filter (fun v => v <> -1) (vpn <$> clk_queue s).

Lemma ring_pages_perm s a : crep s a -> ring_pages s ≡ₚ a_queue a.
Proof.
  intros [(E & [_ _ Hring] & HE) _ _ _ Hq _]. unfold ring_pages. rewrite <- (rotate_perm (Z.to_nat (clk_hand s + 1)) (clk_queue s)).
  fold (ring (clk_queue s) (clk_hand s)). rewrite Hring, fmap_app, filter_app.
  assert (filter (fun v => v <> -1) (vpn <$> E) = []) as ->.
  { clear Hring. induction HE as [|x E Hx _ IH]; [done|]. cbn [fmap list_fmap]. rewrite filter_cons_False; [done|]. intros Hn. by apply Hn. }
  clear Hring. induction Hq as [|v L [[Hv _] _] _ IH]; [done|]. cbn [map fmap list_fmap vpn page]. rewrite filter_cons_True by lia.
  cbn [app] in *. by rewrite IH.
Qed.

(** Runs without removals, with what the queue of the specification covers. *)
Lemma run_covered n ops : Forall (fun o => op_ok n o /\ forall v, o <> op_remove v) ops ->
  exists s, (clk_clear ;; clk_run ops) (clock_start n) = Ok tt s /\ crep s (a_run ops (a_start n)) /\
    covered (a_run ops (a_start n)) /\ length (a_table (a_run ops (a_start n))) = n.
Proof.
  intros Hok. apply (run_start n (fun o => op_ok n o /\ forall v, o <> op_remove v) (fun a => covered a /\ length (a_table a) = n)).
  - by intros o [? _].
  - intros s a o Hr Hl Ho [Hc _]. split; [by eapply covered_do|by eapply a_do_length; [| |apply Ho]].
  - done.
  - induction Hok as [|o ops [_ Ho] _ IH]; [done|]. destruct o; [done|by eapply Ho|done].
  - split; [|apply length_replicate]. intros v Hv HP. exfalso. cbn [a_table a_start] in Hv, HP. apply ent_lookup, lookup_replicate in Hv as [Ev _].
    by rewrite Ev in HP.
Qed.

(** C35: While no page is removed, the pages that are present are exactly those
    that the slots of the ring name, each in one slot, with eight slots in all;
    every other page is encrypted; and the page of the last reference is
    among those present. *)
Theorem clock_working_set n ops : Forall (fun o => op_ok n o /\ forall v, o <> op_remove v) ops ->
  exists s, (clk_clear ;; clk_run ops) (clock_start n) = Ok tt s /\ length (pgtable s) = n /\
    length (clk_queue s) = 8%nat /\ NoDup (ring_pages s) /\ Forall (fun v => 0 <= v < Z.of_nat n) (ring_pages s) /\
    (forall v, 0 <= v < Z.of_nat n -> is_P (ent (pgtable s) v) = bool_decide (v ∈ ring_pages s) /\
       is_E (ent (pgtable s) v) = negb (bool_decide (v ∈ ring_pages s))) /\
    (forall v, last ops = Some (op_ref v) -> v ∈ ring_pages s).
Proof.
  intros Hok. destruct (run_covered n ops Hok) as (s & E & Hr & Hc & Hl). exists s. split; [done|].
  pose proof (ring_pages_perm _ _ Hr) as Hp. set (a := a_run ops (a_start n)) in *.
  pose proof (cr_queue _ _ Hr) as Hq. pose proof (cr_pages _ _ Hr) as Hwf. rewrite (cr_table _ _ Hr), Hl.
  assert (forall v, 0 <= v < Z.of_nat n -> in_table (a_table a) v) as Htab by (intros v Hv; unfold in_table; by rewrite Hl).
  split_and!; [done| |rewrite Hp; apply Hr| | |].
  - by destruct (cr_ring _ _ Hr) as (F & [Hs _ _] & _).
  - rewrite Hp. eapply Forall_impl; [exact Hq|]. intros v [Hv _]. unfold in_table in Hv. by rewrite Hl in Hv.
  - intros v Hv. specialize (Htab v Hv). assert (is_P (ent (a_table a) v) = bool_decide (v ∈ ring_pages s)) as EP.
    { apply eq_true_iff_eq. rewrite bool_decide_eq_true, Hp. split; [by apply Hc|]. rewrite Forall_forall in Hq. intros Hin. by apply Hq. }
    rewrite <- EP. split; [done|]. pose proof (Forall_lookup_1 _ _ _ _ Hwf (ent_lookup _ _ Htab)) as Hw. unfold wf_e in Hw.
    by rewrite Hw, negb_involutive.
  - intros v [ops' ->]%last_Some. rewrite Hp. apply Forall_app in Hok as [Hok' [[Ho _] _]%Forall_cons].
    destruct (run_covered n ops' Hok') as (_ & _ & _ & Hc' & Hl'). unfold a, a_run. rewrite foldl_app. apply a_ref_queue; [exact Hc'|].
    unfold in_table. fold (a_run ops' (a_start n)). by rewrite Hl'.
Qed.

(** A removal before the first reference reads [clk_queue[-1]]: the
    hand of the cleared queue is -1 and the search starts at it. *)
Theorem remove_first_faults n v : (clk_clear ;; do_remove_page v) (clock_start n) = Fault "out of range".
Proof. reflexivity. Qed.

(** *** The run of the program *)

Definition clk_ops : list clk_op :=
  [op_ref 0; op_ref 3; op_ref 1; op_ref 2; op_print; op_ref 9; op_ref 7; op_ref 4; op_ref 6; op_print; op_ref 2; op_print;
   op_ref 10; op_print; op_ref 1; op_ref 2; op_ref 3; op_print; op_ref 11; op_print; op_remove 10; op_remove 11; op_print].

Lemma clk_ops_ok : Forall (op_ok 12) clk_ops.
Proof. repeat constructor; cbn; lia. Qed.

Lemma clock_refines_witness : exists s, (clk_clear ;; clk_run clk_ops) (clock_start 12) = Ok tt s /\
  last (printed s) = Some (print_queue [(7, false); (4, false); (6, false); (3, false); (1, false); (2, false)]).
Proof.
  destruct (clock_refines 12 clk_ops clk_ops_ok I) as (s & E & _ & Ho & _). exists s. split; [exact E|]. rewrite Ho. vm_compute. reflexivity.
Defined.

Lemma clock_working_set_witness : exists s, (clk_clear ;; clk_run (take 20 clk_ops)) (clock_start 12) = Ok tt s /\
  ring_pages s = [10; 3; 1; 2; 11; 7; 4; 6] /\ is_P (ent (pgtable s) 11) = true /\ is_E (ent (pgtable s) 9) = true.
Proof.
  destruct (clock_working_set 12 (take 20 clk_ops)) as (s & E & _ & _ & _ & _ & Hv & _).
  { repeat constructor; cbn; try lia; discriminate. }
  exists s. split; [exact E|]. assert (ring_pages s = [10; 3; 1; 2; 11; 7; 4; 6]) as Er.
  { vm_compute in E. injection E as <-. vm_compute. reflexivity. }
  split; [exact Er|]. destruct (Hv 11 ltac:(lia)) as [-> _]. destruct (Hv 9 ltac:(lia)) as [_ ->]. rewrite Er. split; vm_compute; reflexivity.
Defined.
