(* ===== verification/Grep.v ===== *)
(** * grep

    [grep.c]: the matcher for patterns with [^], [.], [*] and [$], against the
    language of a pattern, and the loop that reads lines.  Strings are memory
    areas as in [CString]; [None] is an access outside of one. *)

From S2P Require Import Prelude Bytes CString Console Ulib Printf.
Local Open Scope Z_scope.

(** ** The code *)

Definition char_star : Z := 42.
Definition char_dot : Z := 46.
Definition char_dollar : Z := 36.
Definition char_caret : Z := 94.
Definition newline : Z := 10.

(** [here] is [matchhere] of the rest of the pattern. *)
Definition matchstar (here : list Z -> option bool) (c : Z) : list Z -> option bool :=
  fix star (text : list Z) : option bool :=
    r ← here text;
    if r : bool then Some true else
    match text with
    | [] => None
    | x :: text' => if c_bool x && ((x =z c) || (c =z char_dot)) then star text' else Some false
    end.

Fixpoint matchhere (re text : list Z) : option bool :=
  match re with
  | [] => None
  | c :: re1 =>
      if c =z 0 then Some true else
      match re1 with
      | [] => None
      | d :: re2 =>
          if d =z char_star then matchstar (matchhere re2) c text else
          match text with
          | [] => None
          | x :: text' =>
              if (c =z char_dollar) && (d =z 0) then Some (x =z 0) else
              if c_bool x && ((c =z char_dot) || (c =z x)) then matchhere re1 text' else Some false
          end
      end
  end.

Fixpoint match_loop (re text : list Z) : option bool :=
  r ← matchhere re text;
  if r : bool then Some true else
  match text with
  | [] => None
  | x :: text' => if c_bool x then match_loop re text' else Some false
  end.

Definition re_match (re text : list Z) : option bool :=
  match re with
  | [] => None
  | c :: re1 => if c =z char_caret then matchhere re1 text else match_loop re text
  end.

(** [read]: what the file has for each call, in turn; a call takes the bytes
    there is room for and leaves the rest for the next one. *)
Definition read_some (room : Z) (input : list (list Z)) : list Z * list (list Z) :=
  match input with
  | [] => ([], [])
  | c :: l => (take (Z.to_nat room) c, match drop (Z.to_nat room) c with [] => l | r => r :: l end)
  end.

(** The inner loop, from offset [p]: the buffer, the offset after the last
    newline and the output. *)
Fixpoint grep_lines (fuel : nat) (pattern buf : list Z) (p : nat) (out : list Z) : option (list Z * nat * list Z) :=
  r ← strchr (drop p buf) newline;
  match r, fuel with
  | None, _ => Some (buf, p, out)
  | Some _, O => None
  | Some k, S fuel' =>
      let q := (p + k)%nat in
      let buf0 := <[q := 0]> buf in
      m ← re_match pattern (drop p buf0);
      if m : bool then
        let buf1 := <[q := newline]> buf0 in
        grep_lines fuel' pattern buf1 (S q) (out ++ slice p (S q - p) buf1)
      else grep_lines fuel' pattern buf0 (S q) out
  end.

Definition BUF : Z := 1024.

Fixpoint grep_loop (fuel : nat) (pattern buf : list Z) (m : Z) (input : list (list Z)) (out : list Z) : option (list Z) :=
  let '(d, input') := read_some (BUF - m - 1) input in
  match d, fuel with
  | [], _ => Some out
  | _, O => None
  | _, S fuel' =>
      let buf := splice (Z.to_nat m) d buf in
      let m := m + Z.of_nat (length d) in
      let buf := <[Z.to_nat m := 0]> buf in
      '(buf, p, out) ← grep_lines (length buf) pattern buf 0 out;
      let m := if decide (p = 0)%nat then 0 else m in
      if 0 <z m then
        let m := m - Z.of_nat p in
        buf ← Ulib.memmove buf 0 p m;
        grep_loop fuel' pattern buf m input' out
      else grep_loop fuel' pattern buf m input' out
  end.

(** Every call of [read] before the last one takes a byte. *)
Definition grep (pattern : list Z) (input : list (list Z)) : option (list Z) :=
  grep_loop (S (length (concat input))) pattern (replicate (Z.to_nat BUF) 0) 0 input [].

(** The arguments after the pattern: [files] says what [open] finds under a
    name.  The messages go to the standard output as the lines do. *)
Fixpoint grep_files (files : list Z -> option (list (list Z))) (pattern : list Z) (names : list (list Z)) : option (list Z) :=
  match names with
  | [] => Some []
  | name :: names' =>
      match files name with
      | None => printf (chars "grep: cannot open %s" ++ [newline; 0]) [CStr (Some name)]
      | Some input => out ← grep pattern input; app out <$> grep_files files pattern names'
      end
  end.

(** What is written to the standard output and to the standard error. *)
Definition grep_main (files : list Z -> option (list (list Z))) (stdin : list (list Z)) (argv : list (list Z)) : option (list Z * list Z) :=
  match argv with
  | _ :: pattern :: [] => out ← grep pattern stdin; Some (out, [])
  | _ :: pattern :: names => out ← grep_files files pattern names; Some (out, [])
  | _ => err ← printf (chars "usage: grep pattern [file ...]" ++ [newline; 0]) []; Some ([], err)
  end.

(** ** The language of a pattern *)

Inductive item := Lit (c : Z) | Star (c : Z) | End.

Fixpoint items (pat : list Z) : list item :=
  match pat with
  | [] => []
  | c :: pat1 =>
      match pat1 with
      | d :: pat2 => if d =z char_star then Star c :: items pat2 else Lit c :: items pat1
      | [] => if c =z char_dollar then [End] else [Lit c]
      end
  end.

(** Character [c] of a pattern stands for [x]. *)
Definition stands (c x : Z) : Prop := c = char_dot \/ c = x.
#[export] Instance stands_dec c x : Decision (stands c x).
Proof. unfold stands. apply _. Defined.

(** [lang l pre suf]: the items are matched by [pre], with [suf] after it. *)
Inductive lang : list item -> list Z -> list Z -> Prop :=
  | lang_nil suf : lang [] [] suf
  | lang_lit c x l pre suf : stands c x -> lang l pre suf -> lang (Lit c :: l) (x :: pre) suf
  | lang_star c xs l pre suf : Forall (stands c) xs -> lang l pre suf -> lang (Star c :: l) (xs ++ pre) suf
  | lang_end l pre : lang l pre [] -> lang (End :: l) pre [].

(** A line matches if a part of it does; after [^], a part at its start. *)
Definition matches (pat line : list Z) : Prop :=
  match pat with
  | c :: pat1 =>
      if c =z char_caret then exists pre suf, line = pre ++ suf /\ lang (items pat1) pre suf
      else exists l pre suf, line = l ++ pre ++ suf /\ lang (items pat) pre suf
  | [] => True
  end.

(** ** The matcher *)

Definition nonul (l : list Z) : Prop := Forall (fun x => x <> 0) l.

Lemma c_bool_ne x : x <> 0 -> c_bool x = true.
Proof. apply c_bool_nz. Qed.

Lemma lang_nil_iff p suf : lang [] p suf <-> p = [].
Proof. split; [by inversion 1|intros ->; constructor]. Qed.
Lemma lang_star_iff c l p suf : lang (Star c :: l) p suf <-> exists xs pre, p = xs ++ pre /\ Forall (stands c) xs /\ lang l pre suf.
Proof. split; [inversion 1; subst; eauto|]. intros (xs & pre & -> & ? & ?). by constructor. Qed.
Lemma lang_lit_iff c l p suf : lang (Lit c :: l) p suf <-> exists x pre, p = x :: pre /\ stands c x /\ lang l pre suf.
Proof. split; [inversion 1; subst; eauto|]. intros (x & pre & -> & ? & ?). by constructor. Qed.
Lemma lang_end_iff l p suf : lang (End :: l) p suf <-> suf = [] /\ lang l p [].
Proof. split; [by inversion 1|]. intros [-> ?]. by constructor. Qed.

(** The items are matched at the start of [t]. *)
Definition at_start (l : list item) (t : list Z) : Prop := exists pre suf, t = pre ++ suf /\ lang l pre suf.

Lemma at_start_star c l t : at_start (Star c :: l) t <-> at_start l t \/ exists x t', t = x :: t' /\ stands c x /\ at_start (Star c :: l) t'.
Proof.
  unfold at_start. setoid_rewrite lang_star_iff. split.
  - intros (p & suf & -> & [|x xs] & pre & -> & Hxs & Hl); [left; by exists pre, suf|right]. apply Forall_cons in Hxs as [Hx Hxs].
    exists x, ((xs ++ pre) ++ suf). split; [done|]. split; [done|]. exists (xs ++ pre), suf. split; [done|]. by exists xs, pre.
  - intros [(pre & suf & -> & Hl)|(x & t' & -> & Hx & p & suf & -> & xs & pre & -> & Hxs & Hl)].
    + exists pre, suf. split; [done|]. by exists [], pre.
    + exists ((x :: xs) ++ pre), suf. split; [done|]. exists (x :: xs), pre. split; [done|]. split; [by constructor|done].
Qed.

Lemma at_start_lit c l t : at_start (Lit c :: l) t <-> exists x t', t = x :: t' /\ stands c x /\ at_start l t'.
Proof.
  unfold at_start. setoid_rewrite lang_lit_iff. split.
  - intros (p & suf & -> & x & pre & -> & Hx & Hl). exists x, (pre ++ suf). split; [done|]. split; [done|]. by exists pre, suf.
  - intros (x & t' & -> & Hx & pre & suf & -> & Hl). exists (x :: pre), suf. split; [done|]. by exists x, pre.
Qed.

Lemma at_start_nil t : at_start [] t.
Proof. exists [], t. split; [done|constructor]. Qed.

Lemma at_start_end t : at_start [End] t <-> t = [].
Proof.
  unfold at_start. setoid_rewrite lang_end_iff. setoid_rewrite lang_nil_iff. split; [by intros (p & suf & -> & -> & ->)|]. intros ->. by exists [], [].
Qed.

(** A result that answers a question. *)
Definition decides (r : option bool) (P : Prop) : Prop := exists b, r = Some b /\ (b = true <-> P).

Lemma decides_true (P : Prop) : P -> decides (Some true) P.
Proof. exists true. done. Qed.
Lemma decides_false (P : Prop) : ~ P -> decides (Some false) P.
Proof. exists false. split; [done|]. by split. Qed.
Lemma decides_iff r P P' : (P <-> P') -> decides r P -> decides r P'.
Proof. intros HP (b & ? & ?). exists b. by rewrite <- HP. Qed.
(** A test that ends a loop when it succeeds. *)
Lemma decides_or r (r' : option bool) P P' : decides r P -> (~ P -> decides r' P') ->
  decides (b ← r; if b : bool then Some true else r') (P \/ P').
Proof.
  intros (b & -> & Hb) Hr. cbn. destruct b; [apply decides_true; left; by apply Hb|].
  assert (~ P) as Hn by (intros H; by apply Hb in H). eapply decides_iff; [|by apply Hr]. tauto.
Qed.

Lemma matchstar_spec (here : list Z -> option bool) c l rest :
  (forall t, nonul t -> decides (here (t ++ 0 :: rest)) (at_start l t)) ->
  forall t, nonul t -> decides (matchstar here c (t ++ 0 :: rest)) (at_start (Star c :: l) t).
Proof.
  intros Hhere t Ht. induction Ht as [|x t Hx Ht IH]; (eapply decides_iff; [symmetry; apply at_start_star|]).
  - apply (decides_or (here _) _ _ _ (Hhere [] ltac:(constructor))). intros _. apply decides_false. by intros (x & t' & ? & _).
  - apply (decides_or (here _) _ _ _ (Hhere (x :: t) ltac:(by constructor))). intros _. cbn [app]. rewrite c_bool_ne by done. cbn [andb].
    destruct (decide (stands c x)) as [Hs|Hs].
    + rewrite (proj2 (orb_true_iff _ _)) by (destruct Hs; [right|left]; by apply bool_decide_eq_true).
      eapply decides_iff; [|exact IH]. naive_solver.
    + rewrite (proj2 (orb_false_iff _ _)) by (split; apply bool_decide_eq_false; unfold stands in Hs; naive_solver).
      apply decides_false. naive_solver.
Qed.

Lemma lit_spec rest c l t (next : list Z -> option bool) : nonul t ->
  (forall t', nonul t' -> decides (next (t' ++ 0 :: rest)) (at_start l t')) ->
  decides (match t ++ 0 :: rest with
           | [] => None
           | x :: text' => if c_bool x && ((c =z char_dot) || (c =z x)) then next text' else Some false
           end) (at_start (Lit c :: l) t).
Proof.
  intros Ht H. eapply decides_iff; [symmetry; apply at_start_lit|]. destruct Ht as [|x t Hx Ht]; cbn [app].
  - apply decides_false. by intros (x & t' & ? & _).
  - rewrite c_bool_ne by done. cbn [andb]. destruct (decide (stands c x)) as [Hs|Hs].
    + rewrite (proj2 (orb_true_iff _ _)) by (destruct Hs; [left|right]; by apply bool_decide_eq_true).
      eapply decides_iff; [|by apply (H t)]. naive_solver.
    + rewrite (proj2 (orb_false_iff _ _)) by (split; apply bool_decide_eq_false; unfold stands in Hs; naive_solver).
      apply decides_false. naive_solver.
Qed.

Lemma matchhere_eq c d re text : c <> 0 -> matchhere (c :: d :: re) text =
  if d =z char_star then matchstar (matchhere re) c text else
  if (c =z char_dollar) && (d =z 0) then match text with [] => None | x :: _ => Some (x =z 0) end else
  match text with
  | [] => None
  | x :: text' => if c_bool x && ((c =z char_dot) || (c =z x)) then matchhere (d :: re) text' else Some false
  end.
Proof.
  intros Hc. cbn [matchhere]. rewrite (bool_decide_eq_false_2 (c = 0)) by done. destruct (d =z char_star); [done|].
  destruct text; [by destruct (_ && _)|done].
Qed.

Lemma matchhere_spec rre rtx n : forall pat t, (length pat <= n)%nat -> nonul pat -> nonul t ->
  decides (matchhere (pat ++ 0 :: rre) (t ++ 0 :: rtx)) (at_start (items pat) t).
Proof.
  induction n as [|n IH]; intros pat t Hn Hp Ht.
  { destruct pat; [|cbn in Hn; lia]. cbn. apply decides_true, at_start_nil. }
  destruct Hp as [|c pat Hc Hp]; [cbn; apply decides_true, at_start_nil|].
  cbn [length] in Hn. destruct pat as [|d pat].
  - change (([c] ++ 0 :: rre)) with (c :: 0 :: rre). rewrite matchhere_eq by done. cbn [items].
    rewrite (bool_decide_eq_false_2 (0 = char_star)), (bool_decide_eq_true_2 (0 = 0)), andb_true_r by done.
    destruct (decide (c = char_dollar)) as [->|Ec].
    + eapply decides_iff; [symmetry; apply at_start_end|]. destruct Ht as [|x t Hx Ht]; cbn [app].
      * by apply decides_true.
      * rewrite (bool_decide_eq_false_2 (x = 0)) by done. by apply decides_false.
    + rewrite (bool_decide_eq_false_2 (c = char_dollar)) by done. apply (lit_spec _ _ _ _ (matchhere (0 :: rre)) Ht).
      intros t' Ht'. apply (IH [] t'); [cbn; lia|done|done].
  - change ((c :: d :: pat) ++ 0 :: rre) with (c :: d :: pat ++ 0 :: rre). rewrite matchhere_eq by done.
    apply Forall_cons in Hp as [Hd Hp]. destruct (decide (d = char_star)) as [->|Ed].
    + apply matchstar_spec; [|done]. intros t' Ht'. apply IH; [cbn in Hn; lia|done|done].
    + change (items (c :: d :: pat)) with (if d =z char_star then Star c :: items pat else Lit c :: items (d :: pat)).
      rewrite (bool_decide_eq_false_2 (d = char_star)), (bool_decide_eq_false_2 (d = 0)), andb_false_r by done.
      apply (lit_spec _ _ _ _ (matchhere (d :: pat ++ 0 :: rre)) Ht). intros t' Ht'. apply (IH (d :: pat) t'); [cbn in *; lia|by constructor|done].
Qed.

Lemma match_loop_spec rre rtx pat t : nonul pat -> nonul t ->
  decides (match_loop (pat ++ 0 :: rre) (t ++ 0 :: rtx)) (exists l t', t = l ++ t' /\ at_start (items pat) t').
Proof.
  intros Hp Ht. pose proof (fun t Ht => matchhere_spec rre rtx (length pat) pat t (Nat.le_refl _) Hp Ht) as Hh.
  induction Ht as [|x t Hx Ht IH].
  - eapply decides_iff; [|apply (decides_or _ (Some false) _ False (Hh [] ltac:(constructor))); intros _; apply decides_false; tauto].
    split; [intros [H|[]]; by exists [], []|]. intros (l & t' & E & H). symmetry in E. apply app_nil in E as [-> ->]. by left.
  - eapply decides_iff; [|eapply decides_or; [exact (Hh (x :: t) ltac:(by constructor))|]; intros _; cbn [app]; rewrite c_bool_ne by done; exact IH].
    split.
    + intros [H|(l & t' & -> & H)]; [by exists [], (x :: t)|by exists (x :: l), t'].
    + intros ([|y l] & t' & E & H); cbn in E; [left; by rewrite E|]. injection E as <- ->. right. by exists l, t'.
Qed.

Lemma re_match_spec rre rtx pat t : nonul pat -> nonul t -> decides (re_match (pat ++ 0 :: rre) (t ++ 0 :: rtx)) (matches pat t).
Proof.
  intros Hp Ht. destruct pat as [|c pat].
  { cbn [app re_match matches]. rewrite bool_decide_eq_false_2 by done. eapply decides_iff; [|by apply (match_loop_spec rre rtx [] t)].
    split; [done|]. intros _. exists [], t. split; [done|apply at_start_nil]. }
  cbn [app re_match matches]. case_bool_decide as Ec.
  - apply Forall_cons in Hp as [_ Hp]. by apply (matchhere_spec rre rtx (length pat)).
  - eapply decides_iff; [|by apply (match_loop_spec rre rtx (c :: pat) t)]. unfold at_start. split.
    + intros (l & t' & -> & pre & suf & -> & Hl). by exists l, pre, suf.
    + intros (l & pre & suf & -> & Hl). exists l, (pre ++ suf). eauto.
Qed.

(** ** Lines *)

Definition no_newline (l : list Z) : Prop := Forall (fun x => x <> newline) l.
(** A line has neither a newline nor a NUL in it. *)
Definition good_line (l : list Z) : Prop := nonul l /\ no_newline l.
Definition text (ls : list (list Z)) : list Z := ls ≫= fun l => l ++ [newline].

Lemma text_cons l ls : text (l :: ls) = l ++ newline :: text ls.
Proof. unfold text. cbn. by rewrite <- app_assoc. Qed.
Lemma text_app ls1 ls2 : text (ls1 ++ ls2) = text ls1 ++ text ls2.
Proof. unfold text. apply bind_app. Qed.

(** The answer of the matcher, as a function of the pattern and the line. *)
Definition selected (pat l : list Z) : bool := default false (re_match (pat ++ [0]) (l ++ [0])).

Lemma selected_matches pat l : nonul pat -> nonul l -> selected pat l = true <-> matches pat l.
Proof. intros Hp Hl. destruct (re_match_spec [] [] pat l Hp Hl) as (b & E & Hb). unfold selected. by rewrite E. Qed.

Lemma re_match_selected pat l rre rtx : nonul pat -> nonul l -> re_match (pat ++ 0 :: rre) (l ++ 0 :: rtx) = Some (selected pat l).
Proof.
  intros Hp Hl. destruct (re_match_spec rre rtx pat l Hp Hl) as (b & -> & Hb). f_equal. pose proof (selected_matches pat l Hp Hl) as Hs.
  destruct b, (selected pat l); naive_solver.
Qed.

Lemma strchr_line l r : good_line l -> strchr (l ++ newline :: r) newline = Some (Some (length l)).
Proof.
  intros [Hn Hl]. induction Hn as [|x l Hx Hn IH]; cbn [app strchr length]; [by rewrite c_bool_ne|].
  apply Forall_cons in Hl as [Hxn Hl]. rewrite c_bool_ne, bool_decide_eq_false_2, IH by done. done.
Qed.

Lemma strchr_tail l r : good_line l -> strchr (l ++ 0 :: r) newline = Some None.
Proof.
  intros [Hn Hl]. induction Hn as [|x l Hx Hn IH]; cbn [app strchr length]; [done|].
  apply Forall_cons in Hl as [Hxn Hl]. rewrite c_bool_ne, bool_decide_eq_false_2, IH by done. done.
Qed.

Definition chosen (pat : list Z) (ls : list (list Z)) : list Z := text (filter (fun l => selected pat l = true) ls).

Lemma chosen_cons pat l ls : chosen pat (l :: ls) = (if selected pat l then l ++ [newline] else []) ++ chosen pat ls.
Proof.
  unfold chosen. destruct (selected pat l) eqn:E.
  - rewrite filter_cons_True, text_cons by done. by rewrite <- app_assoc.
  - rewrite filter_cons_False by (by rewrite E). done.
Qed.
Lemma chosen_app pat ls1 ls2 : chosen pat (ls1 ++ ls2) = chosen pat ls1 ++ chosen pat ls2.
Proof. unfold chosen. by rewrite filter_app, text_app. Qed.

Lemma grep_lines_spec pat rre tl rest : nonul pat -> good_line tl -> forall ls pre out fuel, Forall good_line ls -> (length ls <= fuel)%nat ->
  exists pre', length pre' = (length pre + length (text ls))%nat /\
    grep_lines fuel (pat ++ 0 :: rre) (pre ++ text ls ++ tl ++ 0 :: rest) (length pre) out =
      Some (pre' ++ tl ++ 0 :: rest, length pre', out ++ chosen pat ls).
Proof.
  intros Hp Htl ls. induction ls as [|l ls IH]; intros pre out fuel Hls Hf.
  - exists pre. split; [cbn; lia|]. assert (strchr (drop (length pre) (pre ++ text [] ++ tl ++ 0 :: rest)) newline = Some None) as E
      by (rewrite drop_app_length; by apply strchr_tail).
    destruct fuel; cbn [grep_lines]; rewrite E; cbn; by rewrite app_nil_r.
  - apply Forall_cons in Hls as [Hl Hls]. destruct fuel as [|fuel]; [cbn in Hf; lia|]. rewrite text_cons. cbn [grep_lines].
    set (more := text ls ++ tl ++ 0 :: rest). replace ((l ++ newline :: text ls) ++ tl ++ 0 :: rest) with (l ++ newline :: more) by (by rewrite <- app_assoc).
    rewrite drop_app_length, strchr_line by done. cbn [mbind option_bind].
    assert (forall x, <[(length pre + length l)%nat := x]> (pre ++ l ++ newline :: more) = (pre ++ l ++ [x]) ++ more) as Eins.
    { intros x. rewrite insert_app_r, insert_app_r_alt, Nat.sub_diag by lia. cbn. by rewrite <- !app_assoc. }
    rewrite Eins. replace (drop (length pre) ((pre ++ l ++ [0]) ++ more)) with (l ++ 0 :: more) by (by rewrite <- app_assoc, drop_app_length, <- app_assoc).
    rewrite re_match_selected by (done || apply Hl). cbn [mbind option_bind]. rewrite chosen_cons.
    destruct (selected pat l) eqn:Es.
    + assert (<[(length pre + length l)%nat := newline]> ((pre ++ l ++ [0]) ++ more) = (pre ++ l ++ [newline]) ++ more) as ->.
      { rewrite <- Eins, list_insert_insert_eq. apply Eins. }
      replace (slice (length pre) (S (length pre + length l) - length pre) ((pre ++ l ++ [newline]) ++ more)) with (l ++ [newline]).
      2:{ unfold slice. rewrite <- app_assoc, drop_app_length. replace (S (length pre + length l) - length pre)%nat with (length (l ++ [newline])) by (rewrite length_app; cbn; lia).
          by rewrite take_app_length. }
      destruct (IH (pre ++ l ++ [newline]) (out ++ l ++ [newline]) fuel Hls ltac:(cbn in Hf; lia)) as (pre' & Hlen & E).
      exists pre'. split; [rewrite Hlen, !length_app; cbn; lia|]. replace (S (length pre + length l)) with (length (pre ++ l ++ [newline])) by (rewrite !length_app; cbn; lia).
      unfold more. rewrite E. by rewrite <- !app_assoc.
    + destruct (IH (pre ++ l ++ [0]) out fuel Hls ltac:(cbn in Hf; lia)) as (pre' & Hlen & E).
      exists pre'. split; [rewrite Hlen, !length_app; cbn; lia|]. replace (S (length pre + length l)) with (length (pre ++ l ++ [0])) by (rewrite !length_app; cbn; lia).
      unfold more. by rewrite E.
Qed.

(** ** The buffer *)

Lemma memmove_front pre l rest n : length l = Z.to_nat n -> exists rest', Ulib.memmove (pre ++ l ++ rest) 0 (length pre) n = Some (l ++ rest') /\
  length (l ++ rest') = length (pre ++ l ++ rest).
Proof.
  intros Hn. unfold Ulib.memmove. rewrite <- Hn, copy_up_spec by (rewrite ?length_app; lia). unfold splice, slice. cbn [Nat.add].
  rewrite take_0, app_nil_l, drop_app_length, take_app_length. eexists. split; [done|]. rewrite length_app, length_drop, !length_app. lia.
Qed.

Lemma good_line_app l1 l2 : good_line (l1 ++ l2) <-> good_line l1 /\ good_line l2.
Proof. unfold good_line, nonul, no_newline. rewrite !Forall_app. tauto. Qed.

Lemma split_text ls : Forall good_line ls -> forall n, exists ls1 ls2 tl, ls = ls1 ++ ls2 /\ take n (text ls) = text ls1 ++ tl /\ good_line tl /\
  text ls2 = tl ++ drop n (text ls) /\ (forall l, head ls = Some l -> (length l < n)%nat -> ls1 <> []).
Proof.
  induction 1 as [|l ls Hl Hls IH]; intros n.
  { exists [], [], []. split; [done|]. split; [by destruct n|]. split; [split; constructor|]. split; [by destruct n|]. done. }
  rewrite text_cons. destruct (decide (n <= length l)%nat) as [Hn|Hn].
  - exists [], (l :: ls), (take n l). split; [done|]. split; [by rewrite take_app_le|]. split.
    { rewrite <- (take_drop n l) in Hl. by apply good_line_app in Hl as [? _]. }
    split; [rewrite text_cons, drop_app_le, app_assoc, take_drop by done; done|]. intros l' [= <-]. lia.
  - destruct (IH (n - S (length l))%nat) as (ls1 & ls2 & tl & -> & Et & Htl & E2 & _). exists (l :: ls1), ls2, tl. split; [done|].
    assert (n = length l + S (n - S (length l)))%nat as En by lia.
    split; [|split; [done|split; [|done]]].
    + rewrite En, take_app_add. cbn [take]. rewrite Et, text_cons. by rewrite <- app_assoc.
    + rewrite En, drop_app_add. cbn [drop]. done.
Qed.

(** A piece without a newline is shorter than the line it starts. *)
Lemma prefix_short tl r ls n : good_line tl -> tl ++ r = text ls -> Forall (fun l => good_line l /\ (length l <= n)%nat) ls -> (length tl <= n)%nat.
Proof.
  intros [_ Htl] E Hls. destruct Hls as [|l ls [_ Hl] _].
  { apply app_nil in E as [-> _]. cbn. lia. }
  rewrite text_cons in E. destruct (decide (length tl <= length l)%nat) as [|Hgt]; [lia|]. exfalso.
  assert ((tl ++ r) !! length l = Some newline) as Hlk by (by rewrite E, list_lookup_middle).
  rewrite lookup_app_l in Hlk by lia. by eapply Forall_lookup_1 in Hlk; [|exact Htl].
Qed.

Lemma text_length ls : (length ls <= length (text ls))%nat.
Proof. induction ls as [|l ls IH]; [done|]. rewrite text_cons, length_app. cbn. lia. Qed.

(** What is left of one piece of input. *)
Definition left_over (input : list (list Z)) (r : list Z) (more : list (list Z)) : Prop := input = r :: more \/ (r = [] /\ input = more).

(** One turn of the loop: the data that is read ends some lines and starts
    another, which [memmove] brings to the front. *)
Lemma grep_turn pat rre fuel tl junk input d input' ls1 tl' out : nonul pat -> good_line tl' -> Forall good_line ls1 -> ls1 <> [] ->
  length (tl ++ junk) = 1024%nat -> (length tl + length d <= 1023)%nat -> d <> [] ->
  read_some (BUF - Z.of_nat (length tl) - 1) input = (d, input') -> tl ++ d = text ls1 ++ tl' ->
  exists junk', length (tl' ++ junk') = 1024%nat /\
    grep_loop (S fuel) (pat ++ 0 :: rre) (tl ++ junk) (Z.of_nat (length tl)) input out =
    grep_loop fuel (pat ++ 0 :: rre) (tl' ++ junk') (Z.of_nat (length tl')) input' (out ++ chosen pat ls1).
Proof.
  intros Hp Htl' Hls1 Hne Hlen Hfit Hd Hrd E. cbn [grep_loop]. rewrite Hrd. destruct d as [|x d0]; [done|]. remember (x :: d0) as d eqn:Ed. clear x d0 Ed.
  rewrite Nat2Z.id. rewrite length_app in Hlen.
  assert (exists rest, <[Z.to_nat (Z.of_nat (length tl) + Z.of_nat (length d)) := 0]> (splice (length tl) d (tl ++ junk)) = (text ls1 ++ tl') ++ 0 :: rest /\
    (length (text ls1 ++ tl') + S (length rest))%nat = 1024%nat) as (rest & -> & Hrest).
  { unfold splice. rewrite take_app_length, drop_app_add'. 2:{ done. } rewrite app_assoc, E. replace (Z.to_nat _) with (length (text ls1 ++ tl')) by (rewrite <- E, length_app; lia).
    destruct (drop (length d) junk) as [|y rest] eqn:Er.
    { apply (f_equal length) in Er. rewrite length_drop in Er. cbn in Er. lia. }
    exists rest. split; [by rewrite insert_app_r_alt, Nat.sub_diag by lia|]. rewrite <- E, length_app. apply (f_equal length) in Er. rewrite length_drop in Er. cbn in Er. lia. }
  pose proof (text_length ls1) as Htl1. rewrite length_app in Hrest.
  destruct (grep_lines_spec pat rre tl' rest Hp Htl' ls1 [] out (length ((text ls1 ++ tl') ++ 0 :: rest)) Hls1) as (pre' & Hpre & Eg);
    [rewrite !length_app; lia|]. cbn [app length] in Eg, Hpre. rewrite app_assoc in Eg. rewrite Eg. cbn [mbind option_bind].
  assert (0 < length (text ls1))%nat by (destruct ls1; [done|]; rewrite text_cons, length_app; cbn; lia).
  assert (length tl + length d = length (text ls1) + length tl')%nat as El by (rewrite <- !length_app, E; done).
  rewrite decide_False by lia. rewrite bool_decide_eq_true_2 by lia.
  destruct (memmove_front pre' tl' (0 :: rest) (Z.of_nat (length tl) + Z.of_nat (length d) - Z.of_nat (length pre'))) as (junk' & Em & Hj); [lia|].
  rewrite Em. cbn [mbind option_bind]. exists junk'. split; [rewrite Hj, !length_app; cbn; lia|]. f_equal. lia.
Qed.

Lemma read_left room input r more : left_over input r more -> 0 < room -> r <> [] ->
  exists input', read_some room input = (take (Z.to_nat room) r, input') /\ left_over input' (drop (Z.to_nat room) r) more.
Proof.
  intros [->|[-> _]] Hroom Hr; [|done]. cbn. eexists. split; [done|]. destruct (drop _ r); [by right|by left].
Qed.

(** A good line of at most 1022 bytes fits in the buffer with its newline. *)
Definition short_line (l : list Z) : Prop := good_line l /\ (length l <= 1022)%nat.

Lemma grep_loop_spec pat rre : nonul pat -> forall fuel tl junk input r ls out, good_line tl -> Forall short_line ls ->
  length (tl ++ junk) = 1024%nat -> left_over input r [] -> tl ++ r = text ls -> (length r <= fuel)%nat ->
  grep_loop fuel (pat ++ 0 :: rre) (tl ++ junk) (Z.of_nat (length tl)) input out = Some (out ++ chosen pat ls).
Proof.
  intros Hp. induction fuel as [|fuel IH]; intros tl junk input r ls out Htl Hls Hlen Hin E Hf;
    pose proof (prefix_short tl r ls 1022 Htl E Hls) as Hsh; (destruct (decide (r = [])) as [->|Hr];
    [assert (ls = []) as -> by (destruct ls as [|l ls]; [done|]; exfalso; rewrite app_nil_r in E; subst tl; rewrite text_cons in Htl;
       apply good_line_app in Htl as [_ [_ Htl]]; by apply Forall_inv in Htl);
     destruct Hin as [->|[_ ->]]; cbn; by rewrite ?take_nil, app_nil_r|]).
  { destruct r; [done|]. cbn in Hf. lia. }
  destruct (read_left (BUF - Z.of_nat (length tl) - 1) input r [] Hin) as (input' & Hrd & Hin'); [unfold BUF; lia|done|].
  set (n := Z.to_nat (BUF - Z.of_nat (length tl) - 1)) in *. assert (n = 1023 - length tl)%nat as En by (unfold n, BUF; lia).
  assert (Forall good_line ls) as Hgl by (eapply Forall_impl; [exact Hls|]; by intros l [? _]).
  destruct (split_text ls Hgl (length tl + n)) as (ls1 & ls2 & tl' & -> & Et & Htl' & E2 & Hne).
  rewrite <- E in Et, E2. rewrite take_app_add in Et. rewrite drop_app_add in E2. apply Forall_app in Hls as [Hls1 Hls2]. apply Forall_app in Hgl as [Hgl1 _].
  assert (take n r <> []) as Hd by (destruct r; [done|]; destruct n eqn:E0; [lia|done]).
  assert (ls1 <> []) as Hne1.
  { destruct (ls1 ++ ls2) as [|l ls] eqn:El; [apply app_nil in E as [_ E]; done|]. apply (Hne l); [done|].
    assert (Forall short_line (ls1 ++ ls2)) as Hall by (by apply Forall_app). rewrite El in Hall. apply Forall_inv in Hall as [_ ?]. lia. }
  destruct (grep_turn pat rre fuel tl junk input (take n r) input' ls1 tl' out) as (junk' & Hj & ->); try done.
  { rewrite length_take. lia. }
  rewrite (IH tl' junk' input' (drop n r) ls2); try done; [by rewrite <- app_assoc, <- chosen_app|].
  rewrite length_drop. assert (0 < length r)%nat by (destruct r; [done|cbn; lia]). lia.
Qed.

Lemma grep_run pat rre fuel junk ls : nonul pat -> Forall short_line ls -> length junk = 1024%nat -> (length (text ls) <= fuel)%nat ->
  grep_loop fuel (pat ++ 0 :: rre) junk 0 [text ls] [] = Some (chosen pat ls).
Proof.
  intros Hp Hls Hj Hf. apply (grep_loop_spec pat rre Hp fuel [] junk [text ls] (text ls) ls []); try done; [split; constructor|by left].
Qed.

Lemma grep_dropped pat rre fuel junk w more out : nonul pat -> good_line w -> (0 < length w <= 1023)%nat -> length junk = 1024%nat ->
  exists junk', length junk' = 1024%nat /\
    grep_loop (S fuel) (pat ++ 0 :: rre) junk 0 (w :: more) out = grep_loop fuel (pat ++ 0 :: rre) junk' 0 more out.
Proof.
  intros Hp Hw Hl Hj. cbn [grep_loop read_some]. change (Z.to_nat (BUF - 0 - 1)) with 1023%nat. rewrite take_ge, drop_ge by lia.
  destruct w as [|x w0]; [cbn in Hl; lia|]. remember (x :: w0) as w eqn:Ew. clear x w0 Ew.
  set (buf := <[_ := _]> _). assert (exists rest, buf = w ++ 0 :: rest /\ length buf = 1024%nat) as (rest & -> & Hb).
  { subst buf. unfold splice. change (Z.to_nat 0) with 0%nat. rewrite take_0, app_nil_l, Nat.add_0_l. rewrite ?Z.add_0_l, Nat2Z.id.
    destruct (drop (length w) junk) as [|y rest] eqn:Er; apply (f_equal length) in Er; rewrite length_drop in Er; cbn in Er; [lia|].
    exists rest. rewrite insert_app_r_alt, Nat.sub_diag by lia. split; [done|]. rewrite length_app. cbn. lia. }
  destruct (grep_lines_spec pat rre w rest Hp Hw [] [] out (length (w ++ 0 :: rest)) ltac:(constructor) ltac:(cbn; lia)) as (pre & Hpre & Eg).
  destruct pre; [|done]. change ([] ++ text [] ++ w ++ 0 :: rest) with (w ++ 0 :: rest) in Eg. cbn [length app] in Eg. rewrite Eg.
  cbn [mbind option_bind]. rewrite decide_True by done. rewrite bool_decide_eq_false_2 by done.
  change (chosen pat []) with (@nil Z). rewrite app_nil_r. by exists (w ++ 0 :: rest).
Qed.

(** ** Theorems *)

(** C36: The matcher decides whether a line is matched by a pattern: a part
    of the line, at its start after [^], splits into what the items of the
    pattern stand for, one character each or any number for a star, and
    reaches the end of the line where the pattern ends in [$].  It reads
    neither string past its end. *)
Theorem grep_match_correct pat line rre rtx : nonul pat -> nonul line ->
  exists b, re_match (pat ++ 0 :: rre) (line ++ 0 :: rtx) = Some b /\ (b = true <-> matches pat line).
Proof. apply re_match_spec. Qed.

(** C37: On a file whose lines end in a newline and are shorter than the
    buffer, [grep] prints the lines that the pattern matches, in order. *)
Theorem grep_file_correct pat rre ls : nonul pat -> Forall short_line ls ->
  exists sel, grep (pat ++ 0 :: rre) [text ls] = Some (text (filter (fun l => sel l = true) ls)) /\
    forall l, l ∈ ls -> sel l = true <-> matches pat l.
Proof.
  intros Hp Hls. exists (selected pat). split.
  - unfold grep. apply grep_run; [done|done|apply length_replicate|]. cbn [concat]. rewrite app_nil_r. lia.
  - intros l Hl. rewrite Forall_forall in Hls. destruct (Hls l Hl) as [[? _] _]. by apply selected_matches.
Qed.

(** A read that ends before the first newline, as one of a pipe can, is
    thrown away: the rest of the line is then taken for a line. *)
Theorem grep_short_read pat rre w ls : nonul pat -> good_line w -> (0 < length w <= 1023)%nat -> Forall short_line ls ->
  grep (pat ++ 0 :: rre) [w; text ls] = grep (pat ++ 0 :: rre) [text ls].
Proof.
  intros Hp Hw Hl Hls. unfold grep. cbn [concat]. set (junk := replicate _ _). assert (length junk = 1024%nat) as Hj by apply length_replicate.
  destruct (grep_dropped pat rre (length (w ++ text ls ++ [])) junk w [text ls] [] Hp Hw Hl Hj) as (junk' & Hj' & ->).
  rewrite !grep_run by (done || rewrite ?length_app; cbn; lia). done.
Qed.

(** *** Examples *)

(** The pattern [^a.*b$] and some lines. *)
Definition gx_pat : list Z := [94; 97; 46; 42; 98; 36].
Definition gx_lines : list (list Z) := [[97; 98]; [98; 97]; [97; 120; 121; 98]; []].

Lemma gx_short : Forall short_line gx_lines.
Proof. repeat constructor; cbn; try discriminate; lia. Qed.

Lemma grep_match_correct_witness : exists b, re_match (gx_pat ++ [0]) ([97; 98] ++ [0]) = Some b /\ (b = true <-> matches gx_pat [97; 98]).
Proof. apply (grep_match_correct gx_pat [97; 98] [] []); repeat constructor; discriminate. Defined.

Lemma grep_file_correct_witness : exists sel, grep (gx_pat ++ [0]) [text gx_lines] = Some (text (filter (fun l => sel l = true) gx_lines)) /\
  forall l, l ∈ gx_lines -> sel l = true <-> matches gx_pat l.
Proof. apply (grep_file_correct gx_pat [] gx_lines); [repeat constructor; discriminate|exact gx_short]. Defined.

