(* ===== verification/Sh.v ===== *)
(** * The shell: commands and their parser

    The parser of [sh.c].  It works on a line in a buffer and leaves the words
    of a command as pointers into it, which [nulterminate] turns into strings
    at the end; here they are offsets.  The constructors of commands do not
    look at the result of [malloc], and are taken to succeed. *)

From S2P Require Import Prelude Bytes Params CString Ulib.
Local Open Scope Z_scope.

Definition MAXARGS : nat := 10.

(** Parsed commands, over the type of their words. *)
Inductive cmd (W : Type) :=
  | execcmd (argv : list W)
  | redircmd (c : cmd W) (file : W) (mode fd : Z)
  | pipecmd (left right : cmd W)
  | listcmd (left right : cmd W)
  | backcmd (c : cmd W).
Arguments execcmd {W}. Arguments redircmd {W}. Arguments pipecmd {W}. Arguments listcmd {W}. Arguments backcmd {W}.

(** The words replaced. *)
Fixpoint cmap {W V} (f : W -> V) (c : cmd W) : cmd V :=
  match c with
  | execcmd argv => execcmd (map f argv)
  | redircmd c' w m fd => redircmd (cmap f c') (f w) m fd
  | pipecmd l r => pipecmd (cmap f l) (cmap f r)
  | listcmd l r => listcmd (cmap f l) (cmap f r)
  | backcmd c' => backcmd (cmap f c')
  end.

(** A word in the buffer: where it starts and where it ends. *)
Definition span : Type := nat * nat.

(** The buffer, and the place [*ps] that the parser has reached. *)
Record parser := Parser { sh_buf : list Z; sh_ps : nat }.
Definition set_ps (p : nat) (s : parser) : parser := Parser (sh_buf s) p.

(** ** The code *)

Definition whitespace : list Z := [32; 9; 13; 10; 11].
Definition symbols : list Z := [60; 124; 62; 38; 59; 40; 41].

(** [strchr(set, c) != 0] *)
Definition in_set (set : list Z) (c : Z) : bool :=
  match strchr (set ++ [0]) c with Some (Some _) => true | _ => false end.

Definition rd (s : nat) : M parser Z := st ← get; of_option "buffer" (sh_buf st !! s).

(** [while(s < es && test( *s)) s++] *)
Fixpoint scan (test : Z -> bool) (fuel es s : nat) : M parser nat :=
  if decide (s < es)%nat then
    c ← rd s;
    if test c then match fuel with O => fault "scan" | S fuel' => scan test fuel' es (S s) end else mret s
  else mret s.
Definition skip (es s : nat) : M parser nat := scan (in_set whitespace) es es s.

(** The token and the span of its characters. *)
Definition gettoken (es : nat) : M parser (Z * span) :=
  st ← get;
  q ← skip es (sh_ps st);
  c ← rd q;
  '(ret, eq) ←
    (if c =z 0 then mret (0, q)
     else if (c =z 124) || (c =z 40) || (c =z 41) || (c =z 59) || (c =z 38) || (c =z 60) then mret (c, S q)
     else if c =z 62 then
       d ← rd (S q);
       mret (if d =z 62 then (43, S (S q)) else (c, S q))
     else
       e ← scan (fun x => negb (in_set whitespace x) && negb (in_set symbols x)) es es q;
       mret (97, e));
  s ← skip es eq;
  modify (set_ps s) ;;
  mret (ret, (q, eq)).

Definition peek (es : nat) (toks : list Z) : M parser bool :=
  st ← get;
  s ← skip es (sh_ps st);
  modify (set_ps s) ;;
  c ← rd s;
  mret (c_bool c && in_set toks c).

Fixpoint parseredirs (fuel es : nat) (c : cmd span) : M parser (cmd span) :=
  b ← peek es [60; 62];
  if negb b then mret c else
  match fuel with
  | O => fault "parseredirs"
  | S fuel' =>
      '(tok, _) ← gettoken es;
      '(t, w) ← gettoken es;
      if negb (t =z 97) then panic "missing file for redirection" else
      if tok =z 60 then parseredirs fuel' es (redircmd c w O_RDONLY 0)
      else if tok =z 62 then parseredirs fuel' es (redircmd c w (Z.lor O_WRONLY O_CREATE) 1)
      else if tok =z 43 then parseredirs fuel' es (redircmd c w (Z.lor O_WRONLY O_CREATE) 1)
      else parseredirs fuel' es c
  end.

(** [cmd->argv[argc] = q; cmd->eargv[argc] = eq]: the node that [execcmd] made
    is at the bottom of the redirections. *)
Fixpoint add_arg {W} (c : cmd W) (w : W) : cmd W :=
  match c with
  | execcmd argv => execcmd (argv ++ [w])
  | redircmd c' f m d => redircmd (add_arg c' w) f m d
  | _ => c
  end.

Fixpoint parseargs (fuel es argc : nat) (ret : cmd span) : M parser (cmd span) :=
  b ← peek es [124; 41; 38; 59];
  if b : bool then mret ret else
  match fuel with
  | O => fault "parseexec"
  | S fuel' =>
      '(tok, w) ← gettoken es;
      if tok =z 0 then mret ret else
      if negb (tok =z 97) then panic "syntax" else
      if decide (MAXARGS <= S argc)%nat then panic "too many args" else
      ret ← parseredirs es es (add_arg ret w);
      parseargs fuel' es (S argc) ret
  end.

Fixpoint parseback (fuel es : nat) (c : cmd span) : M parser (cmd span) :=
  b ← peek es [38];
  if negb b then mret c else
  match fuel with
  | O => fault "parseline"
  | S fuel' => gettoken es ;; parseback fuel' es (backcmd c)
  end.

Fixpoint parseline (fuel es : nat) : M parser (cmd span) :=
  match fuel with
  | O => fault "parseline"
  | S fuel' =>
      c ← parsepipe fuel' es;
      c ← parseback es es c;
      b ← peek es [59];
      if negb b then mret c else
      gettoken es ;;
      r ← parseline fuel' es;
      mret (listcmd c r)
  end
with parsepipe (fuel es : nat) : M parser (cmd span) :=
  match fuel with
  | O => fault "parsepipe"
  | S fuel' =>
      c ← parseexec fuel' es;
      b ← peek es [124];
      if negb b then mret c else
      gettoken es ;;
      r ← parsepipe fuel' es;
      mret (pipecmd c r)
  end
with parseexec (fuel es : nat) : M parser (cmd span) :=
  match fuel with
  | O => fault "parseexec"
  | S fuel' =>
      b ← peek es [40];
      if b : bool then parseblock fuel' es else
      ret ← parseredirs es es (execcmd []);
      parseargs (S es) es 0 ret
  end
with parseblock (fuel es : nat) : M parser (cmd span) :=
  match fuel with
  | O => fault "parseblock"
  | S fuel' =>
      b ← peek es [40];
      if negb b then panic "parseblock" else
      gettoken es ;;
      c ← parseline fuel' es;
      b ← peek es [41];
      if negb b then panic "syntax - missing )" else
      gettoken es ;;
      parseredirs es es c
  end.

(** [*e = 0] *)
Definition put0 (e : nat) : M parser unit :=
  rd e ;; modify (fun st => Parser (<[e := 0]> (sh_buf st)) (sh_ps st)).

Fixpoint nulargs (argv : list span) : M parser unit :=
  match argv with [] => mret tt | w :: argv' => put0 (snd w) ;; nulargs argv' end.

Fixpoint nulterminate (c : cmd span) : M parser unit :=
  match c with
  | execcmd argv => nulargs argv
  | redircmd c' f _ _ => nulterminate c' ;; put0 (snd f)
  | pipecmd l r => nulterminate l ;; nulterminate r
  | listcmd l r => nulterminate l ;; nulterminate r
  | backcmd c' => nulterminate c'
  end.

(** The text of a message. *)
Definition str (l : list Z) : string := String.string_of_list_ascii (map (fun c => Ascii.ascii_of_nat (Z.to_nat c)) l).

(** The grammar uses a character for every fourth call at least. *)
Definition parsecmd : M parser (cmd span) :=
  st ← get;
  n ← of_option "strlen" (strlen (drop (sh_ps st) (sh_buf st)));
  let es := (sh_ps st + Z.to_nat n)%nat in
  c ← parseline (4 * Z.to_nat n + 4) es;
  peek es [] ;;
  st ← get;
  if decide (sh_ps st <> es) then
    panic (("leftovers: " +:+ str (upto0 (drop (sh_ps st) (sh_buf st)))) +:+ str [10] +:+ "syntax")
  else
  nulterminate c ;;
  mret c.


(** ** Termination *)

(** [ends m Q s]: [m] returns and [Q] holds, or it stops with a message. *)
Definition ends {A} (m : M parser A) (Q : A -> parser -> Prop) (s : parser) : Prop :=
  match m s with Ok a s' => Q a s' | Panic _ => True | _ => False end.

Lemma ends_wp {A} (m : M parser A) (Q : A -> parser -> Prop) s : wp m Q s -> ends m Q s.
Proof. unfold wp, ends. by destruct (m s). Qed.
Lemma ends_bind {A B} (m : M parser A) (f : A -> M parser B) (Q : B -> parser -> Prop) s :
  ends m (fun a s' => ends (f a) Q s') s -> ends (mbind f m) Q s.
Proof. unfold ends, mbind, M_bind. by destruct (m s). Qed.
Lemma ends_mono {A} (m : M parser A) (P Q : A -> parser -> Prop) s : ends m P s -> (forall a s', P a s' -> Q a s') -> ends m Q s.
Proof. unfold ends. destruct (m s); auto. Qed.
Lemma ends_ret {A} (a : A) (Q : A -> parser -> Prop) s : Q a s -> ends (mret a) Q s.
Proof. done. Qed.
Lemma ends_panic {A} msg (Q : A -> parser -> Prop) s : ends (panic msg) Q s.
Proof. done. Qed.

(** The characters of words. *)
Definition word_char (c : Z) : bool := negb (in_set whitespace c) && negb (in_set symbols c) && negb (c =z 0).

Lemma in_set_spec set c : (forall x, x ∈ set -> x <> 0) -> in_set set c = true <-> c ∈ set.
Proof.
  intros Hset. unfold in_set. induction set as [|x set IH]; cbn [app strchr].
  - cbn. split; [done|]. by intros ?%elem_of_nil.
  - rewrite c_bool_nz by (apply Hset; left). rewrite elem_of_cons. case_bool_decide as E; [subst; naive_solver|].
    assert (forall y, y ∈ set -> y <> 0) as Hs by (intros y Hy; apply Hset; by right). rewrite <- (IH Hs).
    destruct (strchr (set ++ [0]) c) as [[k|]|]; cbn; naive_solver.
Qed.

Section line.
(** A line that ends at [es]. *)
Context (B : list Z) (es : nat).
Hypothesis B_end : B !! es = Some 0.
Hypothesis B_line : forall i, (i < es)%nat -> exists c, B !! i = Some c /\ c <> 0.

Definition chr (i : nat) : Z := nth i B 0.

Lemma chr_lookup i : (i <= es)%nat -> B !! i = Some (chr i).
Proof.
  intros Hi. assert (exists c, B !! i = Some c) as [c E].
  { destruct (decide (i = es)) as [->|]; [eauto|]. destruct (B_line i) as (c & ? & _); [lia|]. eauto. }
  unfold chr. by rewrite (nth_lookup_Some _ _ _ _ E).
Qed.
Lemma chr_end : chr es = 0.
Proof. unfold chr. by rewrite (nth_lookup_Some _ _ _ _ B_end). Qed.
Lemma chr_line i : (i < es)%nat -> chr i <> 0.
Proof. intros Hi. destruct (B_line i Hi) as (c & E & Hc). unfold chr. by rewrite (nth_lookup_Some _ _ _ _ E). Qed.

(** The parser is at [p]. *)
Record at_pos (s : parser) (p : nat) : Prop := { ap_buf : sh_buf s = B; ap_ps : sh_ps s = p; ap_le : (p <= es)%nat }.

Lemma wp_rd (Q : Z -> parser -> Prop) s p i : at_pos s p -> (i <= es)%nat -> Q (chr i) s -> wp (rd i) Q s.
Proof. intros [Eb _ _] Hi HQ. unfold rd. wp_steps. rewrite Eb, chr_lookup by done. exact HQ. Qed.

Lemma wp_scan test (Q : nat -> parser -> Prop) s p : at_pos s p -> forall fuel i, (i <= es)%nat -> (es - i <= fuel)%nat ->
  (forall e, (i <= e <= es)%nat -> (forall j, (i <= j < e)%nat -> test (chr j) = true) -> (e = es \/ test (chr e) = false) -> Q e s) ->
  wp (scan test fuel es i) Q s.
Proof.
  intros Hs fuel. induction fuel as [|fuel IH]; intros i Hi Hf HQ; cbn [scan]; (case_decide as Hlt; [|wp_step; apply HQ; [lia|intros; lia|left; lia]]); [lia|].
  wp_step. eapply wp_rd; [done|lia|]. destruct (test (chr i)) eqn:E; [|wp_step; apply HQ; [lia|intros; lia|by right]].
  apply IH; [lia|lia|]. intros e He Hj Hend. apply HQ; [lia| |done]. intros j Hj'. destruct (decide (j = i)) as [->|]; [done|]. apply Hj. lia.
Qed.

(** A word of the line. *)
Definition word (w : span) : Prop :=
  (fst w < snd w <= es)%nat /\ (forall i, (fst w <= i < snd w)%nat -> word_char (chr i) = true) /\ word_char (chr (snd w)) = false.

Notation blank i := (in_set whitespace (chr i)).

Lemma at_pos_set s p p' : at_pos s p -> (p' <= es)%nat -> at_pos (set_ps p' s) p'.
Proof. intros [? ? ?] ?. by split. Qed.

Lemma blank_end i : (i <= es)%nat -> i = es \/ blank i = false -> blank i = false.
Proof. intros Hi [->|?]; [by rewrite chr_end|done]. Qed.

(** The token that starts with [c], where [d] comes next, and the length of a
    symbol. *)
Definition single (c : Z) : bool := (c =z 124) || (c =z 40) || (c =z 41) || (c =z 59) || (c =z 38) || (c =z 60).
Definition kind (c d : Z) : Z := if c =z 0 then 0 else if single c then c else if c =z 62 then (if d =z 62 then 43 else 62) else 97.
Definition short_sym (c d : Z) : bool := single c || ((c =z 62) && negb (d =z 62)).

Lemma wp_gettoken (Q : Z * span -> parser -> Prop) s p : at_pos s p ->
  (forall ret q eq s' p', at_pos s' p' -> (p <= q <= eq)%nat -> (eq <= p')%nat -> (forall i, (p <= i < q)%nat -> blank i = true) -> blank q = false ->
     (forall i, (eq <= i < p')%nat -> blank i = true) -> blank p' = false ->
     (ret = 0 <-> q = es) -> (ret <> 0 -> (q < eq)%nat) -> (ret = 97 -> word (q, eq)) ->
     ret = kind (chr q) (chr (S q)) -> (short_sym (chr q) (chr (S q)) = true -> eq = S q) -> Q (ret, (q, eq)) s') ->
  wp (gettoken es) Q s.
Proof.
  intros Hs HQ. unfold gettoken. wp_steps. pose proof (ap_le _ _ Hs) as Hle. rewrite (ap_ps _ _ Hs).
  eapply wp_scan; [done|done|lia|]. intros q Hq Hws Hqe. pose proof (blank_end q ltac:(lia) Hqe) as Hqb. wp_step. eapply wp_rd; [done|lia|]. wp_step.
  assert (forall ret eq, (q <= eq <= es)%nat -> (ret = 0 <-> q = es) -> (ret <> 0 -> (q < eq)%nat) -> (ret = 97 -> word (q, eq)) ->
    ret = kind (chr q) (chr (S q)) -> (short_sym (chr q) (chr (S q)) = true -> eq = S q) ->
    wp (s ← skip es eq; modify (set_ps s) ;; mret (ret, (q, eq))) Q s) as Hend.
  { intros ret eq He H0 H1 H2 H3 H4. wp_step. eapply wp_scan; [done|lia|lia|]. intros p' Hp' Hws' Hpe. wp_steps.
    eapply (HQ ret q eq _ p'); try done; [by eapply at_pos_set; [|lia]|lia|lia|]. by apply blank_end; [lia|]. }
  destruct (decide (chr q = 0)) as [E0|E0]; [rewrite (bool_decide_eq_true_2 (chr q = 0)) by done|rewrite (bool_decide_eq_false_2 (chr q = 0)) by done].
  { wp_step. apply Hend; [lia| |done|done|by rewrite E0|by rewrite E0]. split; [|done]. intros _. destruct (decide (q = es)); [done|]. by destruct (chr_line q); [lia|]. }
  assert (q < es)%nat as Hlt by (destruct (decide (q = es)) as [->|]; [by rewrite chr_end in E0|lia]).
  assert (forall b, single (chr q) = b -> chr q = 62 \/ chr q <> 62 -> kind (chr q) (chr (S q)) = if b then chr q else if chr q =z 62 then (if chr (S q) =z 62 then 43 else 62) else 97) as Hkind.
  { intros b <- _. unfold kind. by rewrite (bool_decide_eq_false_2 (chr q = 0)). }
  match goal with |- context [if ?b then mret (chr q, _) else _] => change b with (single (chr q)) end.
  destruct (single (chr q)) eqn:Esym; specialize (Hkind _ eq_refl ltac:(lia)).
  { wp_step. apply Hend; [lia|split; [done|lia]|lia| |done|done]. intros E97. rewrite E97 in Esym. done. }
  destruct (decide (chr q = 62)) as [Egt|Egt]; [rewrite (bool_decide_eq_true_2 (chr q = 62)) in * by done|rewrite (bool_decide_eq_false_2 (chr q = 62)) in * by done].
  { wp_step. eapply wp_rd; [done|lia|]. wp_step. unfold short_sym in Hend. rewrite Esym, Egt in Hend. destruct (decide (chr (S q) = 62)) as [Egt2|Egt2];
      [rewrite (bool_decide_eq_true_2 (chr (S q) = 62)) in * by done|rewrite (bool_decide_eq_false_2 (chr (S q) = 62)) in * by done];
      rewrite Egt in *; (apply Hend; [|split; [lia|lia]|lia|lia|done|done]); [|lia].
    assert (S q <> es) by (intros E; rewrite E, chr_end in Egt2; done). lia. }
  wp_step. eapply wp_scan; [done|lia|lia|]. intros e He Hwc Hee. wp_step.
  assert (word_char (chr q) = true) as Hwq.
  { unfold word_char. rewrite Hqb, (bool_decide_eq_false_2 (chr q = 0)), andb_true_r by done. cbn [negb andb].
    destruct (in_set symbols (chr q)) eqn:Es; [|done]. apply in_set_spec in Es; [|unfold symbols; set_solver by lia]. exfalso.
    unfold symbols in Es. rewrite !elem_of_cons in Es. unfold single in Esym.
    repeat (apply orb_false_iff in Esym as [Esym ?%bool_decide_eq_false]). apply bool_decide_eq_false in Esym.
    destruct Es as [?|[?|[?|[?|[?|[?|[?|?%elem_of_nil]]]]]]]; congruence. }
  assert (q < e)%nat as Hqe'.
  { destruct (decide (q = e)) as [<-|]; [|lia]. destruct Hee as [?|Hf]; [lia|]. unfold word_char in Hwq. rewrite Hf in Hwq. done. }
  apply Hend; [lia|split; [lia|lia]|lia| |done|unfold short_sym; rewrite Esym, bool_decide_eq_false_2 by done; done]. intros _. split; [cbn; lia|]. split; cbn.
  - intros i Hi. unfold word_char. rewrite (Hwc i Hi). rewrite bool_decide_eq_false_2; [done|]. apply chr_line. lia.
  - destruct Hee as [->|Hf]; [by rewrite chr_end|]. unfold word_char. by rewrite Hf.
Qed.

Lemma wp_peek (Q : bool -> parser -> Prop) s p toks : at_pos s p ->
  (forall s' p', at_pos s' p' -> (p <= p')%nat -> (forall i, (p <= i < p')%nat -> blank i = true) -> blank p' = false -> 
     Q (c_bool (chr p') && in_set toks (chr p')) s') -> wp (peek es toks) Q s.
Proof.
  intros Hs HQ. unfold peek. wp_steps. pose proof (ap_le _ _ Hs) as Hle. rewrite (ap_ps _ _ Hs).
  eapply wp_scan; [done|done|lia|]. intros q Hq Hws Hqe. wp_steps.
  assert (at_pos (set_ps q s) q) as Hs' by (by eapply at_pos_set; [|lia]). eapply wp_rd; [done|lia|]. wp_step.
  apply (HQ _ q); [done|lia|done|]. by apply blank_end; [lia|].
Qed.

(** After a successful [peek] the next token is not empty. *)
Lemma peek_token s p ret q eq p' : at_pos s p -> c_bool (chr p) = true -> blank p = false -> (p <= q <= eq)%nat -> (eq <= p')%nat ->
  (forall i, (p <= i < q)%nat -> blank i = true) -> (ret = 0 <-> q = es) -> (ret <> 0 -> (q < eq)%nat) -> q = p /\ (p < p')%nat.
Proof.
  intros Hs Hc Hb Hq He Hws H0 H1. assert (q = p) as ->.
  { destruct (decide (q = p)); [done|]. rewrite (Hws p) in Hb by lia. done. }
  split; [done|]. assert (ret <> 0); [|specialize (H1 ltac:(done)); lia]. intros ->. destruct H0 as [H0 _]. rewrite H0, chr_end in Hc by done. done.
Qed.

Fixpoint cmd_ok (c : cmd span) : Prop :=
  match c with
  | execcmd argv => Forall word argv /\ (length argv < MAXARGS)%nat
  | redircmd c' f _ _ => cmd_ok c' /\ word f
  | pipecmd l r | listcmd l r => cmd_ok l /\ cmd_ok r
  | backcmd c' => cmd_ok c'
  end.

(** The arguments of the command below the redirections. *)
Fixpoint leaf (c : cmd span) : option (list span) :=
  match c with execcmd argv => Some argv | redircmd c' _ _ _ => leaf c' | _ => None end.

Lemma add_arg_ok c argv w : leaf c = Some argv -> cmd_ok c -> word w -> (S (length argv) < MAXARGS)%nat ->
  cmd_ok (add_arg c w) /\ leaf (add_arg c w) = Some (argv ++ [w]).
Proof.
  induction c as [l|c IH f m d| | |]; cbn; intros [= E] Hok Hw Hl; try done.
  - subst l. destruct Hok as [Hok _]. split; [|done]. split; [|rewrite length_app; cbn; lia]. apply Forall_app. by rewrite Forall_singleton.
  - destruct Hok as [Hok Hf]. destruct (IH E Hok Hw Hl). naive_solver.
Qed.

(** What holds after a part of the grammar. *)
Definition parsed (p : nat) (c : cmd span) (s : parser) : Prop := exists p', at_pos s p' /\ (p <= p')%nat /\ cmd_ok c.

Lemma ends_redirs fuel : forall s p c, at_pos s p -> cmd_ok c -> (es - p <= fuel)%nat ->
  ends (parseredirs fuel es c) (fun c' s' => parsed p c' s' /\ leaf c' = leaf c) s.
Proof.
  induction fuel as [|fuel IH]; intros s p c Hs Hc Hf; cbn [parseredirs]; apply ends_bind, ends_wp; (eapply wp_peek; [done|]); intros s1 p1 H1 Hp1 _ Hb1;
    (destruct (_ && _) eqn:E; cbn [negb]; [|split; [by exists p1|done]]); apply andb_true_iff in E as [Ec _].
  { destruct H1 as [_ _ ?]. assert (p1 = es) as E by lia. rewrite E, chr_end in Ec. done. }
  apply ends_bind, ends_wp. eapply wp_gettoken; [done|]. intros tok q eq s2 p2 H2 Hq He Hws _ _ _ T0 T1 _ _ _. cbn beta iota.
  destruct (peek_token s1 p1 tok q eq p2 H1 Ec Hb1 Hq He Hws T0 T1) as [_ Hp2].
  apply ends_bind, ends_wp. eapply wp_gettoken; [done|]. intros t q' eq' s3 p3 H3 Hq' He' _ _ _ _ _ _ Tw _ _. cbn beta iota.
  case_bool_decide as Et; cbn [negb]; [|apply ends_panic]. specialize (Tw Et).
  assert (forall c', cmd_ok c' -> leaf c' = leaf c -> ends (parseredirs fuel es c') (fun c'' s' => parsed p c'' s' /\ leaf c'' = leaf c) s3) as Hgo.
  { intros c' Hc' Hl'. eapply ends_mono; [by eapply (IH s3 p3); [| |lia]|]. intros c'' s4 [(p4 & H4 & Hle & Hok) Hl]. split; [|congruence].
    exists p4. split; [done|]. split; [lia|done]. }
  repeat (case_bool_decide; [by apply Hgo|]). by apply Hgo.
Qed.

Lemma ends_args fuel : forall s p argc ret argv, at_pos s p -> cmd_ok ret -> leaf ret = Some argv -> length argv = argc -> (es - p < fuel)%nat ->
  ends (parseargs fuel es argc ret) (parsed p) s.
Proof.
  induction fuel as [|fuel IH]; intros s p argc ret argv Hs Hc Hl Ha Hf; [lia|]. cbn [parseargs]. apply ends_bind, ends_wp. eapply wp_peek; [done|].
  intros s1 p1 H1 Hp1 _ _. destruct (_ && _); [by exists p1|]. apply ends_bind, ends_wp. eapply wp_gettoken; [done|].
  intros tok q eq s2 p2 H2 Hq He _ _ _ _ _ T1 Tw _ _. cbn beta iota. case_bool_decide as E0; [exists p2; split; [done|]; split; [lia|done]|].
  specialize (T1 E0). case_bool_decide as Et; cbn [negb]; [|apply ends_panic]. specialize (Tw Et). case_decide as Hmax; [apply ends_panic|].
  destruct (add_arg_ok ret argv (q, eq) Hl Hc Tw ltac:(lia)) as [Hc' Hl']. apply ends_bind.
  eapply ends_mono; [by eapply (ends_redirs es s2 p2); [| |lia]|]. intros c s3 [(p3 & H3 & Hp3 & Hok) Hlf]. rewrite Hl' in Hlf.
  pose proof (ap_le _ _ H3). eapply ends_mono; [eapply (IH s3 p3 _ c _ H3 Hok Hlf); [rewrite length_app; cbn; lia|lia]|]. intros c' s4 (p4 & H4 & ? & ?). exists p4. split; [done|]. split; [lia|done].
Qed.

Lemma ends_back fuel : forall s p c, at_pos s p -> cmd_ok c -> (es - p <= fuel)%nat -> ends (parseback fuel es c) (parsed p) s.
Proof.
  induction fuel as [|fuel IH]; intros s p c Hs Hc Hf; cbn [parseback]; apply ends_bind, ends_wp; (eapply wp_peek; [done|]); intros s1 p1 H1 Hp1 _ Hb1;
    (destruct (_ && _) eqn:E; cbn [negb]; [|by exists p1]); apply andb_true_iff in E as [Ec _].
  { destruct H1 as [_ _ ?]. assert (p1 = es) as E by lia. rewrite E, chr_end in Ec. done. }
  apply ends_bind, ends_wp. eapply wp_gettoken; [done|]. intros tok q eq s2 p2 H2 Hq He Hws _ _ _ T0 T1 _ _ _.
  destruct (peek_token s1 p1 tok q eq p2 H1 Ec Hb1 Hq He Hws T0 T1) as [_ Hp2].
  eapply ends_mono; [by eapply (IH s2 p2 (backcmd c)); [| |lia]|]. intros c' s3 (p3 & ? & ? & ?). exists p3. split; [done|]. split; [lia|done].
Qed.

(** A symbol that [peek] has seen, and the token that follows. *)
Lemma ends_symbol {A} (Q : A -> parser -> Prop) s p toks (f g : M parser A) : at_pos s p ->
  (forall s' p', at_pos s' p' -> (p <= p')%nat -> ends f Q s') ->
  (forall s' p', at_pos s' p' -> (p < p')%nat -> ends g Q s') ->
  ends (b ← peek es toks; if negb b then f else gettoken es ;; g) Q s.
Proof.
  intros Hs Hf Hg. apply ends_bind, ends_wp. eapply wp_peek; [done|]. intros s1 p1 H1 Hp1 _ Hb1.
  destruct (_ && _) eqn:E; cbn [negb]; [|by eapply Hf]. apply andb_true_iff in E as [Ec _]. apply ends_bind, ends_wp. eapply wp_gettoken; [done|].
  intros tok q eq s2 p2 H2 Hq He Hws _ _ _ T0 T1 _ _ _. destruct (peek_token s1 p1 tok q eq p2 H1 Ec Hb1 Hq He Hws T0 T1) as [_ Hp2].
  eapply Hg; [done|lia].
Qed.

Lemma parsed_le p p' c s : parsed p' c s -> (p <= p')%nat -> parsed p c s.
Proof. intros (p1 & ? & ? & ?) Hp. exists p1. split; [done|]. split; [lia|done]. Qed.

Lemma ends_grammar n : forall s p fuel, at_pos s p -> (es - p <= n)%nat ->
  ((4 * n + 4 <= fuel)%nat -> ends (parseline fuel es) (parsed p) s) /\
  ((4 * n + 3 <= fuel)%nat -> ends (parsepipe fuel es) (parsed p) s) /\
  ((4 * n + 2 <= fuel)%nat -> ends (parseexec fuel es) (parsed p) s) /\
  ((4 * n + 1 <= fuel)%nat -> ends (parseblock fuel es) (parsed p) s).
Proof.
  induction n as [n IH] using lt_wf_ind. intros s p fuel0 Hs Hn. pose proof (ap_le _ _ Hs) as Hple.
  assert (forall fuel s p, at_pos s p -> (es - p <= n)%nat -> (4 * n + 1 <= fuel)%nat -> ends (parseblock fuel es) (parsed p) s) as Hblock.
  { clear fuel0 s p Hs Hn Hple. intros [|fuel] s p Hs Hn Hf; [lia|]. cbn [parseblock]. apply (ends_symbol _ s p [40] _ _ Hs).
    { intros. apply ends_panic. }
    intros s1 p1 H1 Hp1. pose proof (ap_le _ _ H1). apply ends_bind. destruct (IH (n - 1)%nat ltac:(lia) s1 p1 fuel H1 ltac:(lia)) as (Hline & _).
    eapply ends_mono; [apply Hline; lia|]. intros c s2 (p2 & H2 & Hp2 & Hc). apply (ends_symbol _ s2 p2 [41] _ _ H2).
    { intros. apply ends_panic. }
    intros s3 p3 H3 Hp3. eapply ends_mono; [by eapply (ends_redirs es s3 p3 c); [| |lia]|]. intros c' s4 [Hpar _]. eapply parsed_le; [done|lia]. }
  assert (forall fuel s p, at_pos s p -> (es - p <= n)%nat -> (4 * n + 2 <= fuel)%nat -> ends (parseexec fuel es) (parsed p) s) as Hexec.
  { clear fuel0 s p Hs Hn Hple. intros [|fuel] s p Hs Hn Hf; [lia|]. cbn [parseexec]. apply ends_bind, ends_wp. eapply wp_peek; [done|].
    intros s1 p1 H1 Hp1 _ _. destruct (_ && _).
    - eapply ends_mono; [eapply (Hblock fuel s1 p1 H1); lia|]. intros c s2 ?. by eapply parsed_le.
    - apply ends_bind. eapply ends_mono; [eapply (ends_redirs es s1 p1 (execcmd []) H1); [split; [constructor|unfold MAXARGS; cbn; lia]|lia]|].
      intros c s2 [(p2 & H2 & Hp2 & Hc) Hl]. eapply ends_mono; [eapply (ends_args (S es) s2 p2 0 c []); [done|done|done|done|lia]|].
      intros c' s3 ?. eapply parsed_le; [done|lia]. }
  assert (forall fuel s p, at_pos s p -> (es - p <= n)%nat -> (4 * n + 3 <= fuel)%nat -> ends (parsepipe fuel es) (parsed p) s) as Hpipe.
  { clear fuel0 s p Hs Hn Hple. intros [|fuel] s p Hs Hn Hf; [lia|]. cbn [parsepipe]. apply ends_bind. eapply ends_mono; [eapply (Hexec fuel s p Hs); lia|].
    intros c s1 (p1 & H1 & Hp1 & Hc). apply (ends_symbol _ s1 p1 [124] _ _ H1); [intros s2 p2 H2 Hp2; apply ends_ret; exists p2; split; [done|]; split; [lia|done]|].
    intros s2 p2 H2 Hp2. pose proof (ap_le _ _ H2). apply ends_bind. destruct (IH (n - 1)%nat ltac:(lia) s2 p2 fuel H2 ltac:(lia)) as (_ & Hp & _).
    eapply ends_mono; [apply Hp; lia|]. intros r s3 (p3 & H3 & Hp3 & Hr). exists p3. split; [done|]. split; [lia|done]. }
  split; [|split; [by apply Hpipe|split; [by apply Hexec|by apply Hblock]]].
  intros Hf. destruct fuel0 as [|fuel]; [lia|]. cbn [parseline]. apply ends_bind. eapply ends_mono; [eapply (Hpipe fuel s p Hs); lia|].
  intros c s1 (p1 & H1 & Hp1 & Hc). apply ends_bind. eapply ends_mono; [eapply (ends_back es s1 p1 c H1 Hc); lia|].
  intros c2 s2 (p2 & H2 & Hp2 & Hc2). apply (ends_symbol _ s2 p2 [59] _ _ H2); [intros s3 p3 H3 Hp3; apply ends_ret; exists p3; split; [done|]; split; [lia|done]|].
  intros s3 p3 H3 Hp3. pose proof (ap_le _ _ H3). apply ends_bind. destruct (IH (n - 1)%nat ltac:(lia) s3 p3 fuel H3 ltac:(lia)) as (Hl & _).
  eapply ends_mono; [apply Hl; lia|]. intros r s4 (p4 & H4 & Hp4 & Hr). exists p4. split; [done|]. split; [lia|done].
Qed.

(** ** nulterminate *)

(** The bytes that are not of a word may have become NUL. *)
Definition zeroed (b : list Z) : Prop :=
  length b = length B /\ forall i, b !! i = B !! i \/ ((i <= es)%nat /\ word_char (chr i) = false /\ b !! i = Some 0).

Lemma zeroed_start : zeroed B.
Proof. split; [done|]. by left. Qed.

Lemma es_lt : (es < length B)%nat.
Proof. by eapply lookup_lt_Some. Qed.

Lemma wp_put0 (Q : unit -> parser -> Prop) s w : zeroed (sh_buf s) -> word w ->
  (forall s', zeroed (sh_buf s') -> sh_buf s' !! snd w = Some 0 -> (forall i, sh_buf s !! i = Some 0 -> sh_buf s' !! i = Some 0) -> Q tt s') ->
  wp (put0 (snd w)) Q s.
Proof.
  intros [Hl Hz] (Hr & _ & He) HQ. unfold put0, rd. pose proof es_lt. destruct (lookup_lt_is_Some_2 (sh_buf s) (snd w)) as [c Ec]; [lia|].
  wp_steps. rewrite Ec. apply wp_ret. wp_step. apply HQ; cbn.
  - split; [by rewrite length_insert|]. intros i. destruct (decide (i = snd w)) as [->|]; [right; split; [lia|]; split; [done|]; apply list_lookup_insert_eq; lia|].
    rewrite list_lookup_insert_ne by done. apply Hz.
  - apply list_lookup_insert_eq. lia.
  - intros i Hi. destruct (decide (i = snd w)) as [->|]; [by rewrite list_lookup_insert_eq by lia|]. by rewrite list_lookup_insert_ne.
Qed.

Fixpoint words (c : cmd span) : list span :=
  match c with
  | execcmd argv => argv
  | redircmd c' f _ _ => words c' ++ [f]
  | pipecmd l r | listcmd l r => words l ++ words r
  | backcmd c' => words c'
  end.

Lemma cmd_ok_words c : cmd_ok c -> Forall word (words c).
Proof. induction c; cbn; rewrite ?Forall_app, ?Forall_singleton; naive_solver. Qed.

Definition ended (s : parser) (ws : list span) (s' : parser) : Prop :=
  zeroed (sh_buf s') /\ Forall (fun w => sh_buf s' !! snd w = Some 0) ws /\ forall i, sh_buf s !! i = Some 0 -> sh_buf s' !! i = Some 0.

Lemma ended_trans s ws s1 ws' s2 : ended s ws s1 -> ended s1 ws' s2 -> ended s (ws ++ ws') s2.
Proof.
  intros (_ & H1 & K1) (Z2 & H2 & K2). split; [done|]. split; [|auto]. apply Forall_app. split; [|done]. eapply Forall_impl; [exact H1|]. auto.
Qed.

Lemma wp_nulargs argv : forall s, zeroed (sh_buf s) -> Forall word argv -> wp (nulargs argv) (fun _ s' => ended s argv s') s.
Proof.
  induction argv as [|w argv IH]; intros s Hz Hw; cbn [nulargs]; [wp_step; split; [done|]; by split; [constructor|]|].
  apply Forall_cons in Hw as [Hw Hws]. wp_step. eapply wp_put0; [done|done|]. intros s1 Hz1 H1 K1. eapply wp_mono; [by apply IH|].
  intros [] s2 H2. apply (ended_trans s [w] s1 argv s2); [|done]. split; [done|]. split; [by repeat constructor|done].
Qed.

Lemma wp_nulterminate c : forall s, zeroed (sh_buf s) -> cmd_ok c -> wp (nulterminate c) (fun _ s' => ended s (words c) s') s.
Proof.
  induction c as [argv|c IH f m d|l IHl r IHr|l IHl r IHr|c IH]; intros s Hz Hok; cbn [nulterminate words cmd_ok] in *.
  - apply wp_nulargs; [done|apply Hok].
  - wp_step. eapply wp_mono; [apply IH; [done|apply Hok]|]. intros [] s1 H1. eapply wp_put0; [apply H1|apply Hok|]. intros s2 Hz2 H2 K2.
    eapply ended_trans; [done|]. split; [done|]. split; [by repeat constructor|done].
  - wp_step. eapply wp_mono; [apply IHl; [done|apply Hok]|]. intros [] s1 H1. eapply wp_mono; [apply IHr; [apply H1|apply Hok]|]. intros [] s2 H2. by eapply ended_trans.
  - wp_step. eapply wp_mono; [apply IHl; [done|apply Hok]|]. intros [] s1 H1. eapply wp_mono; [apply IHr; [apply H1|apply Hok]|]. intros [] s2 H2. by eapply ended_trans.
  - by apply IH.
Qed.

(** The string at a word of the line, in the buffer that is left. *)
Lemma word_string b w : zeroed b -> word w -> b !! snd w = Some 0 -> upto0 (drop (fst w) b) = slice (fst w) (snd w - fst w) B.
Proof.
  destruct w as [q e]. cbn [fst snd]. intros [Hl Hz] (Hr & Hc & _) H0. cbn in Hr. pose proof es_lt as Hes.
  assert (forall n k, (k + n = e)%nat -> (q <= k)%nat -> upto0 (drop k b) = take n (drop k B)) as H.
  { induction n as [|n IH]; intros k Hk Hq.
    - assert (k = e) as -> by lia. rewrite (drop_S b 0 e H0). done.
    - destruct (Hz k) as [Ek|(_ & Hf & _)]; [|cbn in Hc; rewrite Hc in Hf by lia; done]. rewrite chr_lookup in Ek by lia.
      rewrite (drop_S b _ k Ek), (drop_S B _ k (chr_lookup k ltac:(lia))). cbn [upto0 take]. rewrite c_bool_nz by (apply chr_line; lia).
      f_equal. apply IH; lia. }
  unfold slice. apply H; lia.
Qed.
End line.

Lemma line_area line rest : Forall (fun c => c <> 0) line ->
  (line ++ 0 :: rest) !! length line = Some 0 /\ (forall i, (i < length line)%nat -> exists c, (line ++ 0 :: rest) !! i = Some c /\ c <> 0) /\
  strlen (line ++ 0 :: rest) = Some (Z.of_nat (length line)).
Proof.
  intros Hl. split; [by rewrite list_lookup_middle|]. split.
  - intros i Hi. destruct (lookup_lt_is_Some_2 line i Hi) as [c Ec]. exists c. rewrite lookup_app_l by done. split; [done|].
    by eapply Forall_lookup_1 in Hl.
  - induction Hl as [|c line Hc _ IH]; cbn [app strlen length]; [done|]. rewrite c_bool_nz, IH by done. cbn. f_equal. lia.
Qed.

(** ** Theorems *)

(** C38: The parser of the shell ends on every line: it returns a command or
    stops with a message, without running past the line or out of the buffer.
    In a command that it returns every word is a string without blanks and
    symbols, ended by a NUL after [nulterminate] although the words lie in the
    line that they were read from, and no command has more than nine words. *)
Theorem parsecmd_total line rest : Forall (fun c => c <> 0) line ->
  let B := line ++ 0 :: rest in
  match parsecmd (Parser B 0) with
  | Ok c s => length (sh_buf s) = length B /\ cmd_ok B (length line) c /\
      Forall (fun w => upto0 (drop (fst w) (sh_buf s)) = slice (fst w) (snd w - fst w) line) (words c)
  | Panic _ => True
  | _ => False
  end.
Proof.
  intros Hl B. destruct (line_area line rest Hl) as (H1 & H2 & H3). set (es := length line) in *. fold B in H1, H2, H3.
  change (ends parsecmd (fun c s => length (sh_buf s) = length B /\ cmd_ok B es c /\
    Forall (fun w => upto0 (drop (fst w) (sh_buf s)) = slice (fst w) (snd w - fst w) line) (words c)) (Parser B 0)).
  unfold parsecmd. apply ends_bind. cbn [get ends]. unfold ends at 1, get. cbn [sh_ps sh_buf]. rewrite drop_0, H3. apply ends_bind. cbn [of_option].
  apply ends_ret. rewrite Nat2Z.id. cbn [Nat.add]. apply ends_bind.
  assert (at_pos B es (Parser B 0) 0) as H0 by (split; [done|done|lia]).
  destruct (ends_grammar B es H1 H2 es _ _ (4 * es + 4) H0 ltac:(lia)) as (Hg & _). eapply ends_mono; [by apply Hg|].
  intros c s1 (p1 & Hs1 & _ & Hc). apply ends_bind, ends_wp. eapply wp_peek; [done|done|done|]. intros s2 p2 Hs2 _ _ _.
  apply ends_bind. unfold ends at 1, get. case_decide; [apply ends_panic|]. apply ends_bind, ends_wp. eapply wp_mono.
  - apply (wp_nulterminate B es H1 c s2); [|done]. rewrite (ap_buf _ _ _ _ Hs2). apply zeroed_start.
  - intros [] s3 (Hz & Hend & _). apply ends_ret. split; [apply Hz|]. split; [done|]. pose proof (cmd_ok_words B es c Hc) as Hw.
    rewrite Forall_forall in *. intros w Hin. rewrite (word_string B es H1 H2 (sh_buf s3) w Hz (Hw w Hin) (Hend w Hin)).
    destruct (Hw w Hin) as (Hr & _). unfold slice, B. rewrite drop_app_le, take_app_le; [done|rewrite length_drop; fold es; lia|fold es; lia].
Qed.

(** [a|b>c] *)
Lemma parsecmd_total_witness : match parsecmd (Parser ([97; 124; 98; 62; 99] ++ [0]) 0) with
  | Ok c s => Forall (fun w => upto0 (drop (fst w) (sh_buf s)) = slice (fst w) (snd w - fst w) [97; 124; 98; 62; 99]) (words c)
  | _ => False
  end.
Proof.
  assert (Forall (fun c : Z => c <> 0) [97; 124; 98; 62; 99]) as H by (repeat constructor; discriminate).
  pose proof (parsecmd_total [97; 124; 98; 62; 99] [] H) as T. cbn zeta in T.
  destruct (parsecmd _) as [c s| | |] eqn:E; [exact (proj2 (proj2 T))| | |]; vm_compute in E; discriminate E.
Defined.
