(* ===== verification/ShPrint.v ===== *)
(** * The shell: printing and parsing

    Commands are printed with the parentheses that they need, and the parser
    reads them back. *)

From S2P Require Import Prelude Bytes Params CString Ulib Sh.
Local Open Scope Z_scope.

(** ** Printing *)

(** A word or a symbol of one character; each is printed with a blank after
    it. *)
Inductive tok := TWord (w : list Z) | TSym (c : Z).
Definition tok_chars (t : tok) : list Z := match t with TWord w => w | TSym c => [c] end.
Definition render (ts : list tok) : list Z := ts ≫= fun t => tok_chars t ++ [32].

(** The place of a command in the grammar, from the tightest. *)
Inductive level := LExec | LPipe | LBack | LLine.

Definition block (b : bool) (ts : list tok) : list tok := if b then TSym 40 :: ts ++ [TSym 41] else ts.
Definition redir_toks (f : list Z) (fd : Z) : list tok := [TSym (if fd =z 0 then 60 else 62); TWord f].

Fixpoint toks (lv : level) (c : cmd (list Z)) : list tok :=
  match c with
  | execcmd argv => map TWord argv
  | redircmd c' f _ fd => toks LExec c' ++ redir_toks f fd
  | pipecmd l r => block (match lv with LExec => true | _ => false end) (toks LExec l ++ TSym 124 :: toks LPipe r)
  | backcmd c' => block (match lv with LExec | LPipe => true | _ => false end) (toks LBack c' ++ [TSym 38])
  | listcmd l r => block (match lv with LLine => false | _ => true end) (toks LBack l ++ TSym 59 :: toks LLine r)
  end.

Definition print_cmd (c : cmd (list Z)) : list Z := render (toks LLine c).

Definition good_word (w : list Z) : Prop := w <> [] /\ Forall (fun c => word_char c = true) w.

(** The commands that the shell knows: words of the right characters, at most
    nine to a command, and the two kinds of redirections. *)
Fixpoint wf_cmd (c : cmd (list Z)) : Prop :=
  match c with
  | execcmd argv => Forall good_word argv /\ (length argv < MAXARGS)%nat
  | redircmd c' f m fd => wf_cmd c' /\ good_word f /\ (m = O_RDONLY /\ fd = 0 \/ m = Z.lor O_WRONLY O_CREATE /\ fd = 1)
  | pipecmd l r | listcmd l r => wf_cmd l /\ wf_cmd r
  | backcmd c' => wf_cmd c'
  end.

Lemma render_cons t ts : render (t :: ts) = tok_chars t ++ 32 :: render ts.
Proof. unfold render. cbn. by rewrite <- app_assoc. Qed.
Lemma render_app ts1 ts2 : render (ts1 ++ ts2) = render ts1 ++ render ts2.
Proof. apply bind_app. Qed.

(** ** Tokens and the buffer *)

Definition good_tok (t : tok) : Prop := match t with TWord w => good_word w | TSym c => c ∈ symbols end.

Lemma sym_cases c : c ∈ symbols -> c = 60 \/ c = 124 \/ c = 62 \/ c = 38 \/ c = 59 \/ c = 40 \/ c = 41.
Proof. unfold symbols. rewrite !elem_of_cons, elem_of_nil. tauto. Qed.

Lemma good_tok_chars t : good_tok t -> tok_chars t <> [] /\ Forall (fun c => c <> 0 /\ in_set whitespace c = false) (tok_chars t).
Proof.
  destruct t as [w|c]; cbn.
  - intros [Hw Hc]. split; [done|]. eapply Forall_impl; [exact Hc|]. intros c E. cbn in E. unfold word_char in E.
    apply andb_true_iff in E as [[E _]%andb_true_iff E0%negb_true_iff%bool_decide_eq_false]. apply negb_true_iff in E. done.
  - intros Hc. split; [done|]. rewrite Forall_singleton. apply sym_cases in Hc. destruct_or! Hc; subst; done.
Qed.

Section read.
Context (B : list Z) (es : nat).
Hypothesis B_end : B !! es = Some 0.
Hypothesis B_line : forall i, (i < es)%nat -> exists c, B !! i = Some c /\ c <> 0.
Notation chr := (chr B).
Notation at_pos := (at_pos B es).
Notation blank i := (in_set whitespace (chr i)).

(** The parser is at the first of the tokens. *)
Record at_toks (s : parser) (ts : list tok) (p : nat) : Prop := {
  at_at : at_pos s p;
  at_rest : drop p B = render ts ++ drop es B;
  at_good : Forall good_tok ts;
  at_es : (p + length (render ts) = es)%nat
}.

Lemma at_chr s ts p i c : at_toks s ts p -> render ts !! i = Some c -> chr (p + i) = c.
Proof.
  intros [_ Hr _ _] Hi. assert (B !! (p + i)%nat = Some c) as E by (rewrite <- lookup_drop, Hr; by apply lookup_app_l_Some).
  unfold Sh.chr. by rewrite (nth_lookup_Some _ _ _ _ E).
Qed.

Lemma at_head s t ts p : at_toks s (t :: ts) p -> exists c l, tok_chars t = c :: l /\ chr p = c /\ c <> 0 /\ blank p = false.
Proof.
  intros H. pose proof (at_good _ _ _ H) as [Hg _]%Forall_cons. destruct (good_tok_chars t Hg) as [Hne Hc].
  destruct (tok_chars t) as [|c l] eqn:Et; [done|]. exists c, l. apply Forall_cons in Hc as [[Hc0 Hb] _].
  assert (chr p = c) as Ec. { rewrite <- (Nat.add_0_r p). eapply at_chr; [done|]. by rewrite render_cons, Et. }
  rewrite Ec. done.
Qed.

Lemma at_nil s p : at_toks s [] p -> p = es /\ chr p = 0.
Proof. intros [_ _ _ E]. cbn in E. assert (p = es) as -> by lia. split; [done|]. by apply chr_end. Qed.

Lemma at_blank s ts p : at_toks s ts p -> blank p = false.
Proof.
  intros H. destruct ts as [|t ts]; [|by destruct (at_head _ _ _ _ H) as (? & ? & _ & _ & _ & ?)].
  destruct (at_nil _ _ H) as [_ ->]. done.
Qed.

(** The first token starts with a character of the set. *)
Definition starts (set : list Z) (ts : list tok) : bool := match ts with t :: _ => match tok_chars t with c :: _ => in_set set c | [] => false end | [] => false end.

Lemma wp_peek_toks (Q : bool -> parser -> Prop) s ts p set : at_toks s ts p ->
  (forall s', at_toks s' ts p -> Q (starts set ts) s') -> wp (peek es set) Q s.
Proof.
  intros Ha HQ. eapply wp_peek; [done|done|apply Ha|]. intros s' p' Hp' Hle Hb Hnb.
  assert (p' = p) as ->. { destruct (decide (p' = p)); [done|]. specialize (Hb p ltac:(lia)). by rewrite (at_blank _ _ _ Ha) in Hb. }
  assert (c_bool (chr p) && in_set set (chr p) = starts set ts) as ->.
  { destruct ts as [|t ts]; [by destruct (at_nil _ _ Ha) as [_ ->]|]. destruct (at_head _ _ _ _ Ha) as (c & l & Et & -> & Hc & _).
    unfold starts. rewrite Et, c_bool_nz by done. done. }
  apply HQ. destruct Ha as [_ ? ? ?]. by split.
Qed.

Lemma at_next s t ts p s' : at_toks s (t :: ts) p -> at_pos s' (p + length (tok_chars t) + 1) -> at_toks s' ts (p + length (tok_chars t) + 1).
Proof.
  intros [_ Hr Hg He] Hs'. apply Forall_cons in Hg as [_ Hg]. rewrite render_cons in Hr, He. split; [done| |done|].
  - rewrite <- Nat.add_assoc, <- drop_drop, Hr, <- app_assoc, <- drop_drop, drop_app_length. done.
  - rewrite length_app in He. cbn in He. lia.
Qed.

Lemma wp_gettoken_toks (Q : Z * span -> parser -> Prop) s t ts p : at_toks s (t :: ts) p ->
  (forall s' ret q eq p', at_toks s' ts p' -> (p < p')%nat -> ret = (match t with TWord _ => 97 | TSym c => c end) ->
     slice q (eq - q) B = tok_chars t -> Q (ret, (q, eq)) s') ->
  wp (gettoken es) Q s.
Proof.
  intros Ha HQ. eapply wp_gettoken; [done|done|apply Ha|]. intros ret q eq s' p' Hs' Hq He Hb Hqb Hb' Hpb R0 R1 Rw Rk Rs.
  assert (q = p) as ->. { destruct (decide (q = p)); [done|]. specialize (Hb p ltac:(lia)). by rewrite (at_blank _ _ _ Ha) in Hb. }
  pose proof (at_good _ _ _ Ha) as [Hg _]%Forall_cons. pose proof (at_es _ _ _ Ha) as Hes. rewrite render_cons, length_app in Hes. cbn [length] in Hes.
  assert (forall i c, tok_chars t !! i = Some c -> chr (p + i) = c) as Hchr.
  { intros i c Hi. eapply at_chr; [done|]. rewrite render_cons. by apply lookup_app_l_Some. }
  assert (chr (p + length (tok_chars t)) = 32) as H32 by (eapply at_chr; [done|]; rewrite render_cons; by rewrite list_lookup_middle).
  assert (ret = (match t with TWord _ => 97 | TSym c => c end) /\ eq = (p + length (tok_chars t))%nat) as [-> ->].
  { destruct t as [w|c]; cbn [tok_chars] in *.
    - destruct Hg as [Hne Hw]. assert (ret = 97) as ->.
      { destruct w as [|c w]; [done|]. apply Forall_cons in Hw as [Hc _]. rewrite Rk. specialize (Hchr O c eq_refl). rewrite Nat.add_0_r in Hchr. rewrite Hchr.
        unfold kind, single, word_char in *. apply andb_true_iff in Hc as [[_ Hc]%andb_true_iff H0%negb_true_iff]. rewrite H0.
        assert (forall x, x ∈ symbols -> c <> x) as Hx.
        { intros x Hx ->. apply negb_true_iff in Hc. rewrite (proj2 (in_set_spec symbols x ltac:(unfold symbols; set_solver by lia)) Hx) in Hc. done. }
        rewrite !bool_decide_eq_false_2 by (apply Hx; unfold symbols; set_solver). done. }
      split; [done|]. destruct (Rw eq_refl) as (Hr & Hwc & Hnw). cbn in Hr, Hwc, Hnw.
      destruct (decide (eq < p + length w)%nat) as [Hlt|]; [|destruct (decide (eq = p + length w)%nat); [done|]].
      + destruct (lookup_lt_is_Some_2 w (eq - p)) as [c Hc]; [lia|]. specialize (Hchr _ _ Hc). replace (p + (eq - p))%nat with eq in Hchr by lia.
        rewrite Hchr in Hnw. eapply Forall_lookup_1 in Hw; [|exact Hc]. cbn in Hw. congruence.
      + specialize (Hwc (p + length w)%nat ltac:(lia)). rewrite H32 in Hwc. done.
    - specialize (Hchr O c eq_refl). rewrite Nat.add_0_r in Hchr. cbn in H32. replace (p + 1)%nat with (S p) in H32 by lia.
      rewrite Hchr, H32 in *. apply sym_cases in Hg. split; [rewrite Rk; by destruct_or! Hg; subst|]. cbn. replace (p + 1)%nat with (S p) by lia.
      apply Rs. by destruct_or! Hg; subst. }
  set (e := (p + length (tok_chars t))%nat) in *. assert (p' <> e) as Hne by (intros ->; by rewrite H32 in Hpb).
  assert (at_toks (set_ps (e + 1) s') ts (e + 1)) as Hnext by (apply (at_next s t ts p _ Ha), (at_pos_set B es s' p' _ Hs'); lia).
  assert (p' = e + 1)%nat as ->.
  { destruct (decide (p' = e + 1)%nat); [done|]. specialize (Hb' (e + 1)%nat ltac:(lia)). by rewrite (at_blank _ _ _ Hnext) in Hb'. }
  apply (HQ _ _ _ _ (e + 1)%nat); [by apply (at_next s t ts p)|lia|done|].
  replace (e - p)%nat with (length (tok_chars t)) by lia. unfold slice. by rewrite (at_rest _ _ _ Ha), render_cons, <- app_assoc, take_app_length.
Qed.

Lemma wp_gettoken_end (Q : Z * span -> parser -> Prop) s p : at_toks s [] p ->
  (forall s' w p', at_toks s' [] p' -> Q (0, w) s') -> wp (gettoken es) Q s.
Proof.
  intros Ha HQ. destruct (at_nil _ _ Ha) as [-> H0]. eapply wp_gettoken; [done|done|apply Ha|]. intros ret q eq s' p' Hs' Hq He _ _ _ _ R0 _ _ _ _.
  pose proof (ap_le _ _ _ _ Hs'). assert (q = es) as -> by lia. destruct R0 as [_ R0]. rewrite R0 by done. apply (HQ s' _ es).
  assert (p' = es) as -> by lia. destruct Ha as [_ ? ? ?]. by split.
Qed.

(** ** The parser *)

(** A command with its words read from the buffer. *)
Definition sview (c : cmd span) : cmd (list Z) := cmap (fun w => slice (fst w) (snd w - fst w) B) c.

Definition good_redir (r : list Z * Z * Z) : Prop :=
  let '(f, m, fd) := r in m = O_RDONLY /\ fd = 0 \/ m = Z.lor O_WRONLY O_CREATE /\ fd = 1.
Definition rtoks (rs : list (list Z * Z * Z)) : list tok := rs ≫= fun r => redir_toks (fst (fst r)) (snd r).
Definition reredir (c : cmd (list Z)) (rs : list (list Z * Z * Z)) : cmd (list Z) := foldl (fun c r => redircmd c (fst (fst r)) (snd (fst r)) (snd r)) c rs.

(** What comes next is the end or starts with a symbol of the set. *)
Definition follow (set : list Z) (ts : list tok) : Prop := ts = [] \/ starts set ts = true.

Lemma starts_other set set' ts : (forall x, x ∈ set -> x <> 0) -> starts set ts = true -> (forall c, c ∈ set -> in_set set' c = false) -> starts set' ts = false.
Proof.
  intros H0 Hs Hd. destruct ts as [|t ts]; [done|]. unfold starts in *. destruct (tok_chars t); [done|]. apply Hd. by apply in_set_spec in Hs.
Qed.

Ltac in_cases := intros ? ?; repeat match goal with H : _ ∈ _ :: _ |- _ => apply elem_of_cons in H as [->|H] | H : _ ∈ [] |- _ => by apply elem_of_nil in H end; done.

Lemma follow_not set set' ts : follow set ts -> (forall x, x ∈ set -> x <> 0) -> (forall c, c ∈ set -> in_set set' c = false) -> starts set' ts = false.
Proof. intros [->|Hs] H0 Hd; [done|]. by eapply starts_other. Qed.

Lemma starts_word set w ts : good_word w -> (forall c, c ∈ set -> c ∈ symbols) -> starts set (TWord w :: ts) = false.
Proof.
  intros [Hne Hw] Hs. unfold starts. cbn. destruct w as [|c w]; [done|]. apply Forall_cons in Hw as [Hc _].
  destruct (in_set set c) eqn:E; [|done]. apply in_set_spec in E; [|intros x Hx%Hs%sym_cases ->; lia]. apply Hs in E.
  apply in_set_spec in E; [|intros x Hx%sym_cases; lia]. unfold word_char in Hc. rewrite E, andb_false_r in Hc. done.
Qed.

Lemma wp_redirs (Q : cmd span -> parser -> Prop) rs : forall s p c0 fuel ts, at_toks s (rtoks rs ++ ts) p -> starts [60; 62] ts = false ->
  Forall good_redir rs -> (es - p <= fuel)%nat ->
  (forall s' c' p', at_toks s' ts p' -> (p <= p')%nat -> sview c' = reredir (sview c0) rs -> Q c' s') -> wp (parseredirs fuel es c0) Q s.
Proof.
  induction rs as [|[[f m] fd] rs IH]; intros s p c0 fuel ts Ha Hts Hrs Hf HQ.
  - destruct fuel; cbn [parseredirs]; wp_step; (eapply wp_peek_toks; [done|]); intros s' Ha'; change (rtoks [] ++ ts) with ts in *; rewrite Hts;
      cbn [negb]; wp_step; by eapply HQ.
  - apply Forall_cons in Hrs as [Hr Hrs]. change (rtoks ((f, m, fd) :: rs) ++ ts) with (TSym (if fd =z 0 then 60 else 62) :: TWord f :: rtoks rs ++ ts) in Ha.
    assert (0 < es - p)%nat. { pose proof (at_es _ _ _ Ha) as E. rewrite render_cons in E. cbn in E. lia. }
    destruct fuel as [|fuel]; [lia|]. cbn [parseredirs]. wp_step. eapply wp_peek_toks; [done|]. intros s1 Ha1.
    assert (starts [60; 62] (TSym (if fd =z 0 then 60 else 62) :: TWord f :: rtoks rs ++ ts) = true) as -> by (by case_bool_decide). cbn [negb].
    wp_step. eapply wp_gettoken_toks; [done|]. intros s2 tok q eq p2 Ha2 Hp2 -> _. cbn beta iota.
    wp_step. eapply wp_gettoken_toks; [done|]. intros s3 t q' eq' p3 Ha3 Hp3 -> Hsl. cbn beta iota.
    rewrite (bool_decide_eq_true_2 (97 = 97)) by done. cbn [negb].
    destruct Hr as [[-> ->]|[-> ->]]; cbn [bool_decide]; (eapply (IH s3 p3); [done|done|done|lia|]);
      intros s4 c' p4 Ha4 Hp4 Hv; (eapply HQ; [done|lia|]); rewrite Hv; cbn [sview cmap reredir foldl fst snd]; by rewrite Hsl.
Qed.

Lemma sview_add_arg c w : sview (add_arg c w) = add_arg (sview c) (slice (fst w) (snd w - fst w) B).
Proof. unfold sview. induction c as [argv|c IH f m d|l _ r _|l _ r _|c _]; cbn; [by rewrite map_app|by rewrite IH|done|done|done]. Qed.

Lemma wp_args_end (Q : cmd span -> parser -> Prop) s p ts fuel argc ret : at_toks s ts p -> follow [124; 41; 38; 59] ts -> (0 < fuel)%nat ->
  (forall s' p', at_toks s' ts p' -> (p <= p')%nat -> Q ret s') -> wp (parseargs fuel es argc ret) Q s.
Proof.
  intros Ha Hfo Hf HQ. destruct fuel as [|fuel]; [lia|]. cbn [parseargs]. wp_step. eapply wp_peek_toks; [done|]. intros s1 Ha1.
  destruct Hfo as [-> | ->]; [|wp_step; by eapply HQ]. cbn [starts]. wp_step. eapply wp_gettoken_end; [done|]. intros s2 w p2 Ha2. cbn beta iota.
  rewrite (bool_decide_eq_true_2 (0 = 0)) by done. wp_step. eapply HQ; [done|]. destruct (at_nil _ _ Ha1), (at_nil _ _ Ha2). lia.
Qed.

Lemma wp_args (Q : cmd span -> parser -> Prop) rs ts ws : follow [124; 41; 38; 59] ts -> Forall good_redir rs ->
  forall w s p fuel argc ret argv, at_toks s (TWord w :: map TWord ws ++ rtoks rs ++ ts) p -> sview ret = execcmd argv ->
  (argc + S (length ws) < MAXARGS)%nat -> (es - p < fuel)%nat ->
  (forall s' c' p', at_toks s' ts p' -> (p <= p')%nat -> sview c' = reredir (execcmd (argv ++ w :: ws)) rs -> Q c' s') ->
  wp (parseargs fuel es argc ret) Q s.
Proof.
  intros Hfo Hrs. induction ws as [|w' ws IH]; intros w s p fuel argc ret argv Ha Hv Hlen Hf HQ; (destruct fuel as [|fuel]; [lia|]); cbn [parseargs];
    wp_step; (eapply wp_peek_toks; [done|]); intros s1 Ha1; pose proof (at_good _ _ _ Ha) as [Hw _]%Forall_cons;
    rewrite starts_word by (done || (unfold symbols; set_solver)); wp_step; (eapply wp_gettoken_toks; [done|]); intros s2 tok q eq p2 Ha2 Hp2 -> Hsl; cbn beta iota;
    rewrite (bool_decide_eq_false_2 (97 = 0)), (bool_decide_eq_true_2 (97 = 97)) by done; cbn [negb];
    rewrite decide_False by (cbn [length] in Hlen; lia);
    assert (sview (add_arg ret (q, eq)) = execcmd (argv ++ [w])) as Hv' by (rewrite sview_add_arg, Hv; cbn [fst snd add_arg]; by rewrite Hsl); wp_step;
    pose proof (ap_le _ _ _ _ (at_at _ _ _ Ha2)) as Hle2.
  - eapply (wp_redirs _ rs s2 p2); [exact Ha2| |done|lia|]; [by eapply follow_not; [done|in_cases|in_cases]|].
    intros s3 c' p3 Ha3 Hp3 Hv3. rewrite Hv' in Hv3. eapply wp_args_end; [done|done|lia|]. intros s4 p4 Ha4 Hp4. eapply HQ; [done|lia|done].
  - eapply (wp_redirs _ [] s2 p2 _ _ (map TWord (w' :: ws) ++ rtoks rs ++ ts)); [done| |constructor|lia|].
    { cbn [map app]. apply starts_word; [|unfold symbols; set_solver]. pose proof (at_good _ _ _ Ha2) as [? _]%Forall_cons. done. }
    intros s3 c' p3 Ha3 Hp3 Hv3. cbn [reredir foldl] in Hv3. rewrite Hv' in Hv3.
    pose proof (ap_le _ _ _ _ (at_at _ _ _ Ha3)) as Hle3.
    eapply (IH w' s3 p3 fuel (S argc) c' (argv ++ [w])); [done|done|cbn [length] in Hlen; lia|lia|].
    intros s4 c'' p4 Ha4 Hp4 Hv4. eapply HQ; [done|lia|]. rewrite Hv4. by rewrite <- app_assoc.
Qed.

(** What each part of the grammar does with a command. *)
Definition P_exec (c : cmd (list Z)) : Prop := forall (Q : cmd span -> parser -> Prop) rs ts s p fuel,
  at_toks s (toks LExec c ++ rtoks rs ++ ts) p -> Forall good_redir rs -> follow [124; 41; 38; 59] ts -> (4 * (es - p) + 2 <= fuel)%nat ->
  (forall s' c' p', at_toks s' ts p' -> (p <= p')%nat -> sview c' = reredir c rs -> Q c' s') -> wp (parseexec fuel es) Q s.
Definition P_pipe (c : cmd (list Z)) : Prop := forall (Q : cmd span -> parser -> Prop) ts s p fuel,
  at_toks s (toks LPipe c ++ ts) p -> follow [41; 38; 59] ts -> (4 * (es - p) + 3 <= fuel)%nat ->
  (forall s' c' p', at_toks s' ts p' -> (p <= p')%nat -> sview c' = c -> Q c' s') -> wp (parsepipe fuel es) Q s.
Definition P_back (c : cmd (list Z)) : Prop := forall (Q : cmd span -> parser -> Prop) ts s p fuel fuel2,
  at_toks s (toks LBack c ++ ts) p -> follow [41; 38; 59] ts -> (4 * (es - p) + 3 <= fuel)%nat -> (es - p <= fuel2)%nat ->
  (forall s' c' p' fuel3, at_toks s' ts p' -> (p <= p')%nat -> sview c' = c -> (es - p' <= fuel3)%nat -> wp (parseback fuel3 es c') Q s') ->
  wp (parsepipe fuel es) (fun c' s' => wp (parseback fuel2 es c') Q s') s.
Definition P_line (c : cmd (list Z)) : Prop := forall (Q : cmd span -> parser -> Prop) ts s p fuel,
  at_toks s (toks LLine c ++ ts) p -> follow [41] ts -> (4 * (es - p) + 4 <= fuel)%nat ->
  (forall s' c' p', at_toks s' ts p' -> (p <= p')%nat -> sview c' = c -> Q c' s') -> wp (parseline fuel es) Q s.

Lemma follow_mono set set' ts : follow set ts -> (forall x, x ∈ set -> x <> 0) -> (forall c, c ∈ set -> in_set set' c = true) -> follow set' ts.
Proof.
  intros [->|Hs] H0 Hd; [by left|right]. destruct ts as [|t ts]; [done|]. unfold starts in *. destruct (tok_chars t); [done|]. apply Hd. by apply in_set_spec in Hs.
Qed.

(** A symbol that is there, and one that is not. *)
Lemma wp_sym {A} (Q : A -> parser -> Prop) s p c ts (f g : M parser A) : at_toks s (TSym c :: ts) p ->
  (forall s' p', at_toks s' ts p' -> (p < p')%nat -> wp g Q s') -> wp (b ← peek es [c]; if negb b then f else gettoken es ;; g) Q s.
Proof.
  intros Ha Hg. wp_step. eapply wp_peek_toks; [done|]. intros s1 Ha1.
  assert (starts [c] (TSym c :: ts) = true) as ->.
  { pose proof (at_good _ _ _ Ha) as [Hc _]%Forall_cons. cbn in Hc. unfold starts. cbn [tok_chars].
    apply in_set_spec; [|by left]. intros x ->%list_elem_of_singleton. by apply sym_cases in Hc; lia. }
  cbn [negb]. wp_step. eapply wp_gettoken_toks; [done|]. intros s2 tok q eq p2 Ha2 Hp2 _ _. by eapply Hg.
Qed.

Lemma wp_no_sym {A} (Q : A -> parser -> Prop) s p set ts (f g : M parser A) : at_toks s ts p -> starts set ts = false ->
  (forall s', at_toks s' ts p -> wp f Q s') -> wp (b ← peek es set; if negb b then f else g) Q s.
Proof. intros Ha Hs Hf. wp_step. eapply wp_peek_toks; [done|]. intros s1 Ha1. rewrite Hs. cbn [negb]. by apply Hf. Qed.

Lemma exec_pipe c : toks LPipe c = toks LExec c -> P_exec c -> P_pipe c.
Proof.
  intros E H Q ts s p fuel Ha Hfo Hf HQ. destruct fuel as [|fuel]; [lia|]. cbn [parsepipe]. wp_step. rewrite E in Ha.
  eapply (H _ [] ts s p); [done|constructor|by eapply follow_mono; [done|in_cases|in_cases]|lia|]. intros s1 c1 p1 Ha1 Hp1 Hv.
  eapply wp_no_sym; [done|by eapply follow_not; [done|in_cases|in_cases]|]. intros s2 Ha2. wp_step. by eapply HQ.
Qed.

Lemma pipe_back c : toks LBack c = toks LPipe c -> P_pipe c -> P_back c.
Proof.
  intros E H Q ts s p fuel fuel2 Ha Hfo Hf Hf2 HQ. rewrite E in Ha. eapply (H _ ts s p fuel); [done|done|done|].
  intros s1 c1 p1 Ha1 Hp1 Hv. eapply HQ; [done|done|done|lia].
Qed.

Lemma wp_back_end (Q : cmd span -> parser -> Prop) s p ts fuel c : at_toks s ts p -> starts [38] ts = false ->
  (forall s', at_toks s' ts p -> Q c s') -> wp (parseback fuel es c) Q s.
Proof. intros Ha Hs HQ. destruct fuel; cbn [parseback]; (eapply wp_no_sym; [done|done|]); intros s1 Ha1; wp_step; by apply HQ. Qed.

Lemma use_back c (k : cmd span -> M parser (cmd span)) (Q : cmd span -> parser -> Prop) ts s p fuel fuel2 : P_back c ->
  at_toks s (toks LBack c ++ ts) p -> follow [41; 38; 59] ts -> (4 * (es - p) + 3 <= fuel)%nat -> (es - p <= fuel2)%nat ->
  (forall s' c' p' fuel3, at_toks s' ts p' -> (p <= p')%nat -> sview c' = c -> (es - p' <= fuel3)%nat -> wp (parseback fuel3 es c') (fun a s => wp (k a) Q s) s') ->
  wp (c ← parsepipe fuel es; c ← parseback fuel2 es c; k c) Q s.
Proof.
  intros H Ha Hfo Hf Hf2 HQ. wp_step. eapply wp_mono; [by eapply (H _ ts s p fuel fuel2)|]. intros c1 s1 H1. wp_step. exact H1.
Qed.

Lemma back_line c : toks LLine c = toks LBack c -> P_back c -> P_line c.
Proof.
  intros E H Q ts s p fuel Ha Hfo Hf HQ. destruct fuel as [|fuel]; [lia|]. cbn [parseline]. rewrite E in Ha.
  eapply (use_back c); [done|done|by eapply follow_mono; [done|in_cases|in_cases]|lia|lia|]. intros s1 c1 p1 fuel3 Ha1 Hp1 Hv _.
  eapply wp_back_end; [done|by eapply follow_not; [done|in_cases|in_cases]|]. intros s2 Ha2.
  eapply wp_no_sym; [done|by eapply follow_not; [done|in_cases|in_cases]|]. intros s3 Ha3. wp_step. by eapply HQ.
Qed.

Lemma line_exec c : toks LExec c = block true (toks LLine c) -> P_line c -> P_exec c.
Proof.
  intros E H Q rs ts s p fuel Ha Hrs Hfo Hf HQ. destruct fuel as [|[|fuel]]; [lia|lia|]. cbn [parseexec]. rewrite E in Ha. cbn [block app] in Ha.
  rewrite <- app_assoc in Ha. cbn [app] in Ha. wp_step. eapply wp_peek_toks; [done|]. intros s1 Ha1. cbn [starts tok_chars].
  rewrite (proj2 (in_set_spec [40] 40 ltac:(in_cases))) by (by left). cbn [parseblock]. eapply wp_sym; [done|]. intros s2 p2 Ha2 Hp2.
  pose proof (ap_le _ _ _ _ (at_at _ _ _ Ha2)). wp_step. eapply (H _ _ s2 p2 fuel); [done|right; by apply (in_set_spec [41] 41 ltac:(in_cases)); left|lia|].
  intros s3 c3 p3 Ha3 Hp3 Hv3. eapply wp_sym; [done|]. intros s4 p4 Ha4 Hp4.
  eapply (wp_redirs _ rs s4 p4); [done|by eapply follow_not; [done|in_cases|in_cases]|done|lia|]. intros s5 c5 p5 Ha5 Hp5 Hv5.
  eapply HQ; [done|lia|]. by rewrite Hv5, Hv3.
Qed.

Lemma exec_exec argv : (length argv < MAXARGS)%nat -> P_exec (execcmd argv).
Proof.
  intros Hlen Q rs ts s p fuel Ha Hrs Hfo Hf HQ. destruct fuel as [|fuel]; [lia|]. cbn [parseexec toks] in *.
  assert (starts [40] (map TWord argv ++ rtoks rs ++ ts) = false) as Hno.
  { destruct argv as [|w argv]; [|apply starts_word; [|unfold symbols; set_solver]; by pose proof (at_good _ _ _ Ha) as [? _]%Forall_cons].
    destruct rs as [|[[f m] fd] rs]; [by eapply follow_not; [done|in_cases|in_cases]|]. cbn. by case_bool_decide. }
  wp_step. eapply wp_peek_toks; [done|]. intros s1 Ha1. rewrite Hno. wp_step. destruct argv as [|w argv].
  - eapply (wp_redirs _ rs s1 p); [exact Ha1|by eapply follow_not; [done|in_cases|in_cases]|done|lia|]. intros s2 c2 p2 Ha2 Hp2 Hv2.
    eapply wp_args_end; [done|done|lia|]. intros s3 p3 Ha3 Hp3. eapply HQ; [done|lia|done].
  - eapply (wp_redirs _ [] s1 p _ _ (map TWord (w :: argv) ++ rtoks rs ++ ts)); [exact Ha1| |constructor|lia|].
    { cbn [map app]. apply starts_word; [|unfold symbols; set_solver]. by pose proof (at_good _ _ _ Ha) as [? _]%Forall_cons. }
    intros s2 c2 p2 Ha2 Hp2 Hv2. eapply (wp_args _ rs ts argv Hfo Hrs w s2 p2 (S es) 0 c2 []); [exact Ha2|done|cbn in Hlen; lia|lia|].
    intros s3 c3 p3 Ha3 Hp3 Hv3. eapply HQ; [done|lia|done].
Qed.

Lemma parse_all c : wf_cmd c -> P_exec c /\ P_pipe c /\ P_back c /\ P_line c.
Proof.
  induction c as [argv|c IH f m fd|l IHl r IHr|l IHl r IHr|c IH]; cbn [wf_cmd].
  - intros [_ Hlen]. pose proof (exec_exec argv Hlen) as He. pose proof (exec_pipe (execcmd argv) eq_refl He) as Hp. pose proof (pipe_back (execcmd argv) eq_refl Hp) as Hb.
    split; [done|]. split; [done|]. split; [done|]. by apply back_line.
  - intros (Hc & Hf & Hm). destruct (IH Hc) as (He0 & _). assert (P_exec (redircmd c f m fd)) as He.
    { intros Q rs ts s p fuel Ha Hrs Hfo Hfu HQ. eapply (He0 Q ((f, m, fd) :: rs) ts s p fuel); [|by constructor|done|done|done].
      cbn [toks] in Ha. rewrite <- app_assoc in Ha. exact Ha. }
    pose proof (exec_pipe (redircmd c f m fd) eq_refl He) as Hp. pose proof (pipe_back (redircmd c f m fd) eq_refl Hp) as Hb. split; [done|]. split; [done|]. split; [done|]. by apply back_line.
  - intros [Hl Hr]. destruct (IHl Hl) as (El & _). destruct (IHr Hr) as (_ & Er & _). assert (P_pipe (pipecmd l r)) as Hp.
    { intros Q ts s p fuel Ha Hfo Hf HQ. destruct fuel as [|fuel]; [lia|]. cbn [parsepipe toks block] in *. rewrite <- app_assoc in Ha. wp_step.
      eapply (El _ [] _ s p fuel); [exact Ha|constructor|by right|lia|]. intros s1 c1 p1 Ha1 Hp1 Hv1. eapply wp_sym; [done|]. intros s2 p2 Ha2 Hp2.
      pose proof (ap_le _ _ _ _ (at_at _ _ _ Ha2)). wp_step. eapply (Er _ ts s2 p2); [done|done|lia|]. intros s3 c3 p3 Ha3 Hp3 Hv3. wp_step. eapply HQ; [done|lia|].
      cbn [sview cmap]. fold (sview c1) (sview c3). by rewrite Hv1, Hv3. }
    pose proof (pipe_back (pipecmd l r) eq_refl Hp) as Hb. pose proof (back_line (pipecmd l r) eq_refl Hb) as Hli. split; [by apply line_exec|done].
  - intros [Hl Hr]. destruct (IHl Hl) as (_ & _ & Bl & _). destruct (IHr Hr) as (_ & _ & _ & Lr). assert (P_line (listcmd l r)) as Hli.
    { intros Q ts s p fuel Ha Hfo Hf HQ. destruct fuel as [|fuel]; [lia|]. cbn [parseline toks block] in *. rewrite <- app_assoc in Ha.
      eapply (use_back l); [done|exact Ha|by right|lia|lia|]. intros s1 c1 p1 fuel3 Ha1 Hp1 Hv1 _. eapply wp_back_end; [done|done|]. intros s2 Ha2.
      eapply wp_sym; [done|]. intros s3 p3 Ha3 Hp3. pose proof (ap_le _ _ _ _ (at_at _ _ _ Ha3)). wp_step. eapply (Lr _ ts s3 p3); [done|done|lia|].
      intros s4 c4 p4 Ha4 Hp4 Hv4. wp_step. eapply HQ; [done|lia|]. cbn [sview cmap]. fold (sview c1) (sview c4). by rewrite Hv1, Hv4. }
    pose proof (line_exec (listcmd l r) eq_refl Hli) as He. pose proof (exec_pipe (listcmd l r) eq_refl He) as Hp. split; [done|]. split; [done|]. split; [by apply pipe_back|done].
  - intros Hc. destruct (IH Hc) as (_ & _ & Bc & _). assert (P_back (backcmd c)) as Hb.
    { intros Q ts s p fuel fuel2 Ha Hfo Hf Hf2 HQ. cbn [toks block] in Ha. rewrite <- app_assoc in Ha.
      eapply (Bc _ _ s p fuel fuel2); [exact Ha|by right|done|done|]. intros s1 c1 p1 fuel3 Ha1 Hp1 Hv1 Hf3. cbn [app] in Ha1.
      assert (0 < es - p1)%nat. { pose proof (at_es _ _ _ Ha1) as E. rewrite render_cons in E. cbn in E. lia. }
      destruct fuel3 as [|fuel3]; [lia|]. cbn [parseback]. eapply wp_sym; [done|]. intros s2 p2 Ha2 Hp2. eapply HQ; [done|lia| |lia].
      cbn [sview cmap]. fold (sview c1). by rewrite Hv1. }
    pose proof (back_line (backcmd c) eq_refl Hb) as Hli. pose proof (line_exec (backcmd c) eq_refl Hli) as He. split; [done|]. split; [by apply exec_pipe|done].
Qed.
End read.

Lemma toks_good c : wf_cmd c -> forall lv, Forall good_tok (toks lv c).
Proof.
  assert (forall b ts, Forall good_tok ts -> Forall good_tok (block b ts)) as Hblock.
  { intros [] ts H; [|done]. cbn. constructor; [cbn; unfold symbols; set_solver|]. apply Forall_app. split; [done|]. constructor; [cbn; unfold symbols; set_solver|constructor]. }
  assert (forall c, c ∈ symbols -> good_tok (TSym c)) as Hsym by done.
  induction c as [argv|c IH f m fd|l IHl r IHr|l IHl r IHr|c IH]; cbn [wf_cmd toks].
  - intros [H _] _. apply Forall_fmap. eapply Forall_impl; [exact H|]. done.
  - intros (Hc & Hf & _) _. apply Forall_app. split; [by apply IH|]. constructor; [|constructor; [done|constructor]]. cbn. case_bool_decide; unfold symbols; set_solver.
  - intros [Hl Hr] lv. apply Hblock, Forall_app. split; [by apply IHl|]. constructor; [cbn; unfold symbols; set_solver|by apply IHr].
  - intros [Hl Hr] lv. apply Hblock, Forall_app. split; [by apply IHl|]. constructor; [cbn; unfold symbols; set_solver|by apply IHr].
  - intros Hc lv. apply Hblock, Forall_app. split; [by apply IH|]. constructor; [cbn; unfold symbols; set_solver|constructor].
Qed.

Lemma render_nonul ts : Forall good_tok ts -> Forall (fun c => c <> 0) (render ts).
Proof.
  induction 1 as [|t ts Ht _ IH]; [constructor|]. rewrite render_cons. apply Forall_app. split; [|by constructor].
  eapply Forall_impl; [apply (good_tok_chars t Ht)|]. by intros c [? _].
Qed.

Lemma cmap_ext {V} (f g : span -> V) c : Forall (fun w => f w = g w) (words c) -> cmap f c = cmap g c.
Proof.
  induction c as [argv|c IH w m fd|l IHl r IHr|l IHl r IHr|c IH]; cbn [words cmap]; rewrite ?Forall_app, ?Forall_singleton.
  - intros H. f_equal. induction H as [|w argv Hw _ IH]; [done|]. cbn. by rewrite Hw, IH.
  - intros [Hc ->]. by rewrite IH.
  - intros [Hl Hr]. by rewrite IHl, IHr.
  - intros [Hl Hr]. by rewrite IHl, IHr.
  - intros Hc. by rewrite IH.
Qed.

(** C39: The parser reads back what is printed: the line for a command, with
    the parentheses that its structure asks for, is parsed to that command,
    and the words that its pointers give after [nulterminate] are the words of
    the command. *)
Theorem parse_print c rest : wf_cmd c ->
  exists c' s, parsecmd (Parser (print_cmd c ++ 0 :: rest) 0) = Ok c' s /\ cmap (fun w => upto0 (drop (fst w) (sh_buf s))) c' = c.
Proof.
  intros Hwf. pose proof (toks_good c Hwf LLine) as Hg. pose proof (render_nonul _ Hg) as Hnul. fold (print_cmd c) in Hnul.
  destruct (line_area (print_cmd c) rest Hnul) as (H1 & H2 & H3). set (B := print_cmd c ++ 0 :: rest) in *. set (es := length (print_cmd c)) in *.
  cut (wp parsecmd (fun c' s => cmap (fun w => upto0 (drop (fst w) (sh_buf s))) c' = c) (Parser B 0)); [by intros (c' & s & E & H)%wp_ok; exists c', s|].
  unfold parsecmd. wp_steps. cbn [sh_ps sh_buf]. rewrite drop_0, H3. apply wp_ret. rewrite Nat2Z.id. cbn [Nat.add]. wp_step.
  assert (at_pos B es (Parser B 0) 0) as H0 by (split; [done|done|lia]).
  assert (at_toks B es (Parser B 0) (toks LLine c ++ []) 0) as Ha.
  { rewrite app_nil_r. split; [done| |done|done]. rewrite drop_0. subst B es. by rewrite drop_app_length. }
  destruct (ends_grammar B es H1 H2 es _ _ (4 * es + 4) H0 ltac:(lia)) as (Hends & _). specialize (Hends ltac:(lia)).
  destruct (parse_all B es H1 H2 c Hwf) as (_ & _ & _ & Hline).
  pose proof (Hline (fun c' s' => exists p', at_toks B es s' [] p' /\ sview B c' = c) [] _ 0%nat (4 * es + 4)%nat Ha ltac:(by left) ltac:(lia) ltac:(intros s1 c1 p1 Ha1 _ Hv1; exists p1; exact (conj Ha1 Hv1))) as Hwp.
  unfold wp at 1. unfold wp in Hwp. unfold ends in Hends. destruct (parseline (4 * es + 4) es (Parser B 0)) as [c' s1| | |]; [|done|done|done].
  destruct Hwp as (p1 & Ha1 & Hv). destruct Hends as (_ & _ & _ & Hok). wp_step. eapply wp_peek_toks; [done|done|exact Ha1|]. intros s2 Ha2. wp_steps.
  destruct (at_nil B es H1 _ _ Ha2) as [-> _]. rewrite decide_False by (intros Hn; apply Hn, (at_at _ _ _ _ _ Ha2)). wp_step.
  eapply wp_mono; [apply (wp_nulterminate B es H1 c' s2); [|done]; rewrite (ap_buf _ _ _ _ (at_at _ _ _ _ _ Ha2)); apply zeroed_start|].
  intros [] s3 (Hz & Hend & _). wp_step. rewrite <- Hv. apply cmap_ext. pose proof (cmd_ok_words B es c' Hok) as Hw.
  rewrite Forall_forall in *. intros w Hin. by apply (word_string B es H1 H2 (sh_buf s3) w Hz (Hw w Hin) (Hend w Hin)).
Qed.

(** *** An example *)

(** [( a | b ) > c ; d &] *)
Definition shx : cmd (list Z) :=
  listcmd (redircmd (pipecmd (execcmd [[97]]) (execcmd [[98]; [120; 121]])) [99] (Z.lor O_WRONLY O_CREATE) 1) (backcmd (execcmd [[100]])).

Lemma parse_print_witness : exists c' s, parsecmd (Parser (print_cmd shx ++ [0]) 0) = Ok c' s /\ cmap (fun w => upto0 (drop (fst w) (sh_buf s))) c' = shx.
Proof.
  apply (parse_print shx []). cbn. repeat split; try done; try (unfold MAXARGS; cbn; lia); try (right; done); repeat constructor; done.
Defined.
