(* ===== verification/ShRun.v ===== *)
(** * The shell: running commands

    [runcmd] and the main loop of [sh.c].  A command becomes a tree of
    processes; what matters of a process is its table of descriptors, which
    the calls of [close], [open], [dup] and [pipe] change as the kernel does:
    a new descriptor is the lowest that is free.  Which files can be opened,
    which programs can be run and which calls of [fork] succeed are given. *)

From S2P Require Import Prelude Bytes Params CString Ulib Console Printf Sh.
Local Open Scope Z_scope.

(** What a descriptor stands for. *)
Inductive desc := DConsole | DFile (name : list Z) (mode : Z) | DPipeR (n : nat) | DPipeW (n : nat).
Notation fds := (list (option desc)).

(** ** Descriptors *)

Fixpoint lowest (f : fds) : option nat :=
  match f with [] => None | None :: _ => Some O | Some _ :: f' => S <$> lowest f' end.

Definition close (fd : nat) (f : fds) : fds := <[fd := None]> f.
Definition new_fd (d : desc) (f : fds) : option (nat * fds) := i ← lowest f; Some (i, <[i := Some d]> f).
Definition dup (fd : nat) (f : fds) : fds :=
  match f !! fd with
  | Some (Some d) => match new_fd d f with Some (_, f') => f' | None => f end
  | _ => f
  end.

(** ** The code *)

(** The processes of a command: one that becomes a program, one that prints a
    message and exits, one that exits; two in turn, two with a pipe between
    them and the table of the process that waits for them, one in the
    background. *)
Inductive run :=
  | RExec (argv : list (list Z)) (f : fds)
  | RMsg (msg : list Z)
  | RExit
  | RSeq (left right : run)
  | RPipe (left right : run) (parent : fds)
  | RBack (r : run).

Record env := Env { e_open : list Z -> Z -> bool; e_exec : list (list Z) -> bool }.
(** The number of the next pipe, and what the calls of [fork] will do. *)
Record world := World { w_pipes : nat; w_forks : list bool }.

Definition fork1 (w : world) : bool * world :=
  match w_forks w with
  | [] => (true, w)
  | b :: l => (b, World (w_pipes w) l)
  end.

Definition sh_msg (fmt : string) (arg : list Z) : run :=
  RMsg (default [] (printf (chars fmt ++ [10; 0]) [CStr (Some (arg ++ [0]))])).
Definition sh_panic (s : string) : run := sh_msg "%s" (chars s).

Section runcmd.
Context (e : env).

Fixpoint runcmd (c : cmd (list Z)) (f : fds) (w : world) : run * world :=
  match c with
  | execcmd [] => (RExit, w)
  | execcmd (prog :: args) =>
      if e_exec e (prog :: args) then (RExec (prog :: args) f, w) else (sh_msg "exec %s failed" prog, w)
  | redircmd c' file mode fd =>
      let f := close (Z.to_nat fd) f in
      match (if e_open e file mode then new_fd (DFile file mode) f else None) with
      | None => (sh_msg "open %s failed" file, w)
      | Some (_, f) => runcmd c' f w
      end
  | listcmd l r =>
      let '(ok, w) := fork1 w in
      if negb ok then (sh_panic "fork", w) else
      let '(pl, w) := runcmd l f w in
      let '(pr, w) := runcmd r f w in
      (RSeq pl pr, w)
  | pipecmd l r =>
      let n := w_pipes w in
      match (x ← new_fd (DPipeR n) f; y ← new_fd (DPipeW n) (snd x); Some (fst x, fst y, snd y)) with
      | None => (sh_panic "pipe", w)
      | Some (p0, p1, fp) =>
          let w := World (S n) (w_forks w) in
          let '(ok, w) := fork1 w in
          if negb ok then (sh_panic "fork", w) else
          let '(pl, w) := runcmd l (close p1 (close p0 (dup p1 (close 1 fp)))) w in
          let '(ok, w) := fork1 w in
          let parent := close p1 (close p0 fp) in
          if negb ok then (RPipe pl (sh_panic "fork") parent, w) else
          let '(pr, w) := runcmd r (close p1 (close p0 (dup p0 (close 0 fp)))) w in
          (RPipe pl pr parent, w)
      end
  | backcmd c' =>
      let '(ok, w) := fork1 w in
      if negb ok then (sh_panic "fork", w) else
      let '(r, w) := runcmd c' f w in
      (RBack r, w)
  end.
End runcmd.

(** The loop at the start of [main]: descriptors 0 to 2 are opened. *)
Fixpoint open_console (fuel : nat) (f : fds) : fds :=
  match new_fd DConsole f, fuel with
  | Some (fd, f'), S fuel' => if decide (3 <= fd)%nat then close fd f' else open_console fuel' f'
  | _, _ => f
  end.

(** What the shell does with a line of the input, [None] at its end; the rest
    of the input. *)
Inductive action := ACd (path : list Z) | ARun (c : cmd (list Z)) | APanic (msg : string).

Definition BUFSIZE : Z := 100.

Definition getcmd (input : list Z) : option (option (list Z) * list Z) :=
  '(buf, rest) ← gets (replicate (Z.to_nat BUFSIZE) 0) BUFSIZE input;
  Some (if default 0 (buf !! 0%nat) =z 0 then None else Some buf, rest).

Definition do_line (buf : list Z) : option action :=
  if (default 0 (buf !! 0%nat) =z 99) && (default 0 (buf !! 1%nat) =z 100) && (default 0 (buf !! 2%nat) =z 32) then
    n ← strlen buf;
    Some (ACd (upto0 (drop 3 (<[Z.to_nat (n - 1) := 0]> buf))))
  else
    match parsecmd (Parser buf 0) with
    | Ok c s => Some (ARun (cmap (fun w => upto0 (drop (fst w) (sh_buf s))) c))
    | Panic msg => Some (APanic msg)
    | _ => None
    end.

Fixpoint sh_loop (fuel : nat) (input : list Z) : option (list action) :=
  '(line, rest) ← getcmd input;
  match line, fuel with
  | None, _ => Some []
  | Some _, O => None
  | Some buf, S fuel' => a ← do_line buf; cons a <$> sh_loop fuel' rest
  end.
(** Every line takes a byte of the input. *)
Definition sh_main (input : list Z) : option (list action) := sh_loop (length input) input.

(** ** Pipelines *)

Definition is_open (f : fds) (i : nat) : Prop := exists d, f !! i = Some (Some d).
Definition holds (f : fds) (d : desc) : Prop := exists i, f !! i = Some (Some d).

Lemma lowest_spec f i : lowest f = Some i <-> f !! i = Some None /\ forall j, (j < i)%nat -> is_open f j.
Proof.
  revert i. induction f as [|[d|] f IH]; intros i; cbn [lowest].
  - split; [done|]. by intros [? _].
  - split.
    + intros (j & E & ->)%fmap_Some. apply IH in E as [E Hj]. split; [done|]. intros [|k] Hk; [by exists d|]. apply Hj. lia.
    + intros [E Hj]. destruct i as [|i]; [done|]. apply fmap_Some. exists i. split; [|done]. apply IH. split; [done|]. intros j Hlt. apply (Hj (S j)). lia.
  - split; [intros [= <-]; split; [done|lia]|]. intros [E Hj]. destruct i as [|i]; [done|]. destruct (Hj O) as [d Hd]; [lia|]. done.
Qed.

Lemma new_fd_spec d f i f' : new_fd d f = Some (i, f') <-> lowest f = Some i /\ f' = <[i := Some d]> f.
Proof. unfold new_fd. destruct (lowest f) as [j|]; cbn; naive_solver. Qed.

Lemma lowest_std f i : is_open f 0 -> is_open f 1 -> lowest f = Some i -> (2 <= i)%nat.
Proof. intros [d0 H0] [d1 H1] [E _]%lowest_spec. destruct i as [|[|i]]; [congruence|congruence|lia]. Qed.

(** A descriptor of the lowest two is replaced. *)
Lemma replace_std f fd d i f' : is_open f 0 -> is_open f 1 -> fd = 0%nat \/ fd = 1%nat -> new_fd d (close fd f) = Some (i, f') -> f' = <[fd := Some d]> f.
Proof.
  intros [d0 H0] [d1 H1] Hfd [Hl ->]%new_fd_spec. apply lowest_spec in Hl as [E Hj]. unfold close in *.
  assert (i = fd) as ->; [|by rewrite list_insert_insert_eq].
  destruct Hfd as [-> | ->]; destruct i as [|[|i]]; try done.
  - destruct (Hj O) as [d' Hd]; [lia|]. rewrite list_lookup_insert_eq in Hd by (by eapply lookup_lt_Some). done.
  - destruct (Hj O) as [d' Hd]; [lia|]. rewrite list_lookup_insert_eq in Hd by (by eapply lookup_lt_Some). done.
  - rewrite list_lookup_insert_ne in E by done. congruence.
  - destruct (Hj 1%nat) as [d' Hd]; [lia|]. rewrite list_lookup_insert_eq in Hd by (by eapply lookup_lt_Some). done.
Qed.

Section pipe.
Context (f : fds) (n p0 p1 : nat).
Hypothesis open0 : is_open f 0.
Hypothesis open1 : is_open f 1.
Hypothesis low0 : lowest f = Some p0.
Hypothesis low1 : lowest (<[p0 := Some (DPipeR n)]> f) = Some p1.
Let fp : fds := <[p1 := Some (DPipeW n)]> (<[p0 := Some (DPipeR n)]> f).

Lemma pipe_free : (2 <= p0)%nat /\ (p0 < p1)%nat /\ f !! p0 = Some None /\ f !! p1 = Some None.
Proof.
  pose proof (lowest_std f p0 open0 open1 low0) as H2. apply lowest_spec in low0 as [E0 J0]. apply lowest_spec in low1 as [E1 J1].
  assert (p1 <> p0) as Hne by (intros ->; rewrite list_lookup_insert_eq in E1 by (by eapply lookup_lt_Some); done).
  rewrite list_lookup_insert_ne in E1 by done. split; [done|]. split; [|done]. destruct (decide (p0 < p1)%nat); [done|].
  destruct (J0 p1) as [d Hd]; [lia|]. congruence.
Qed.

(** One end takes the place of a standard descriptor, the others are closed. *)
Lemma pipe_child fd (px : nat) d : fd = 0%nat \/ fd = 1%nat -> fp !! px = Some (Some d) -> (px = p0 \/ px = p1) ->
  close p1 (close p0 (dup px (close fd fp))) = <[fd := Some d]> f.
Proof.
  intros Hfd Hpx Hp. destruct pipe_free as (H2 & Hlt & E0 & E1). pose proof (lookup_lt_Some _ _ _ E0). pose proof (lookup_lt_Some _ _ _ E1).
  unfold dup. assert (close fd fp !! px = Some (Some d)) as -> by (unfold close; rewrite list_lookup_insert_ne; [done|lia]).
  assert (new_fd d (close fd fp) = Some (fd, <[fd := Some d]> fp)) as ->.
  { apply new_fd_spec. unfold close. rewrite list_insert_insert_eq. split; [|done]. apply lowest_spec. split.
    - apply list_lookup_insert_eq. unfold fp. rewrite !length_insert. lia.
    - intros j Hj. destruct Hfd as [-> | ->]; [lia|]. assert (j = 0)%nat as -> by lia. destruct open0 as [d0 Hd0]. exists d0. unfold fp.
      rewrite !list_lookup_insert_ne by lia. done. }
  apply list_eq. intros i. unfold close, fp. destruct (decide (i = p1)) as [->|N1].
  { rewrite list_lookup_insert_eq by (rewrite !length_insert; lia). rewrite list_lookup_insert_ne by lia. done. }
  rewrite list_lookup_insert_ne by done. destruct (decide (i = p0)) as [->|N0].
  { rewrite list_lookup_insert_eq by (rewrite !length_insert; lia). rewrite list_lookup_insert_ne by lia. done. }
  rewrite list_lookup_insert_ne by done. destruct (decide (i = fd)) as [->|Nf].
  { rewrite !list_lookup_insert_eq by (rewrite ?length_insert; lia). done. }
  by rewrite !list_lookup_insert_ne by done.
Qed.

Lemma pipe_parent : close p1 (close p0 fp) = f.
Proof.
  destruct pipe_free as (H2 & Hlt & E0 & E1). pose proof (lookup_lt_Some _ _ _ E0). pose proof (lookup_lt_Some _ _ _ E1). apply list_eq. intros i. unfold close, fp.
  destruct (decide (i = p1)) as [->|N1]; [by rewrite list_lookup_insert_eq by (rewrite !length_insert; lia)|]. rewrite list_lookup_insert_ne by done.
  destruct (decide (i = p0)) as [->|N0]; [by rewrite list_lookup_insert_eq by (rewrite !length_insert; lia)|]. by rewrite !list_lookup_insert_ne by done.
Qed.

Lemma pipe_ends : fp !! p0 = Some (Some (DPipeR n)) /\ fp !! p1 = Some (Some (DPipeW n)).
Proof.
  destruct pipe_free as (H2 & Hlt & E0 & E1). pose proof (lookup_lt_Some _ _ _ E0). pose proof (lookup_lt_Some _ _ _ E1). unfold fp.
  split; [rewrite list_lookup_insert_ne by lia|]; rewrite list_lookup_insert_eq by (rewrite ?length_insert; lia); done.
Qed.
End pipe.

(** ** Theorems *)

Fixpoint std_redirs (c : cmd (list Z)) : Prop :=
  match c with
  | execcmd _ => True
  | redircmd c' _ _ fd => std_redirs c' /\ (fd = 0 \/ fd = 1)
  | pipecmd l r | listcmd l r => std_redirs l /\ std_redirs r
  | backcmd c' => std_redirs c'
  end.

(** The programs that are run, with their descriptors. *)
Fixpoint execs (r : run) : list (list (list Z) * fds) :=
  match r with
  | RExec argv f => [(argv, f)]
  | RMsg _ | RExit => []
  | RSeq l r | RPipe l r _ => execs l ++ execs r
  | RBack r => execs r
  end.

(** The standard input and output are open, and of no pipe both ends are. *)
Definition one_end (f : fds) : Prop := forall k, holds f (DPipeR k) -> holds f (DPipeW k) -> False.
Record table_ok (f : fds) (n : nat) : Prop := {
  to_in : is_open f 0;
  to_out : is_open f 1;
  to_pipes : forall k, holds f (DPipeR k) \/ holds f (DPipeW k) -> (k < n)%nat;
  to_one : one_end f
}.

Lemma holds_insert f i d d' : holds (<[i := Some d]> f) d' -> d' = d \/ holds f d'.
Proof.
  intros [j Hj]. destruct (decide (i = j)) as [->|]; [|right; exists j; by rewrite list_lookup_insert_ne in Hj].
  apply list_lookup_insert_Some in Hj as [(_ & [= <-] & _)|[? _]]; [by left|done].
Qed.

Lemma open_insert f i d j : is_open f j -> is_open (<[i := Some d]> f) j.
Proof.
  intros [d' Hj]. destruct (decide (i = j)) as [->|]; [exists d; apply list_lookup_insert_eq; by eapply lookup_lt_Some|].
  exists d'. by rewrite list_lookup_insert_ne.
Qed.

Lemma table_ok_insert f n m i d : table_ok f n -> (n <= m)%nat ->
  match d with DPipeR k => k = n /\ (n < m)%nat | DPipeW k => k = n /\ (n < m)%nat | _ => True end -> table_ok (<[i := Some d]> f) m.
Proof.
  intros [H0 H1 Hp Ho] Hnm Hd. split; [by apply open_insert|by apply open_insert| |].
  - intros k [E|E]; apply holds_insert in E as [<-|E]; try (destruct Hd; lia); assert (k < n)%nat by auto; lia.
  - intros k E1 E2. apply holds_insert in E1 as [<-|E1]; apply holds_insert in E2 as [E2|E2]; try done.
    + destruct Hd as [-> _]. assert (n < n)%nat by auto. lia.
    + subst d. destruct Hd as [-> _]. assert (n < n)%nat by auto. lia.
    + by eapply Ho.
Qed.

Lemma table_ok_mono f n m : table_ok f n -> (n <= m)%nat -> table_ok f m.
Proof. intros [? ? Hp ?] Hm. split; try done. intros k Hk. specialize (Hp k Hk). lia. Qed.

Lemma fork1_pipes w : w_pipes (snd (fork1 w)) = w_pipes w.
Proof. unfold fork1. by destruct (w_forks w). Qed.

(** Every program gets a good table, and numbers of pipes only grow. *)
Lemma runcmd_tables e c : std_redirs c -> forall f w, table_ok f (w_pipes w) ->
  (w_pipes w <= w_pipes (snd (runcmd e c f w)))%nat /\ forall argv f', (argv, f') ∈ execs (fst (runcmd e c f w)) -> is_open f' 0 /\ is_open f' 1 /\ one_end f'.
Proof.
  induction c as [argv|c IH file m fd|l IHl r IHr|l IHl r IHr|c IH]; cbn [std_redirs runcmd]; intros Hstd f w Hok.
  - destruct argv as [|prog args]; [split; [done|]; intros ? ? []%elem_of_nil|]. destruct (e_exec e (prog :: args)); (split; [done|]); intros argv f'; cbn.
    + intros [= -> ->]%list_elem_of_singleton. destruct Hok; auto.
    + by intros ?%elem_of_nil.
  - destruct Hstd as [Hstd Hfd]. destruct (e_open e file m); [|split; [done|]; intros ? ? []%elem_of_nil].
    destruct (new_fd _ _) as [[i f1]|] eqn:E; [|split; [done|]; intros ? ? []%elem_of_nil].
    apply replace_std in E as ->; [|apply Hok|apply Hok|lia]. apply (IH Hstd). by eapply table_ok_insert.
  - destruct Hstd as [Hl Hr]. destruct (_ ≫= _) as [[[p0 p1] fp]|] eqn:E; [|split; [done|]; intros ? ? []%elem_of_nil].
    apply bind_Some in E as ([i f1] & [L0 ->]%new_fd_spec & E). apply bind_Some in E as ([j f2] & [L1 ->]%new_fd_spec & [= <- <- <-]). cbn [fst snd] in L1.
    set (n := w_pipes w) in *. destruct (pipe_ends f n i j (to_in _ _ Hok) (to_out _ _ Hok) L0 L1) as [Er Ew].
    destruct (fork1 _) as [ok w1] eqn:F1. assert (w_pipes w1 = S n) as P1 by (change w1 with (snd (ok, w1)); by rewrite <- F1, fork1_pipes).
    destruct ok; cbn [negb]; [|split; [cbn; lia|]; intros ? ? []%elem_of_nil].
    cbn [fst snd] in *. rewrite (pipe_child f n i j (to_in _ _ Hok) (to_out _ _ Hok) L0 L1 1 j _ ltac:(by right) Ew ltac:(by right)).
    specialize (IHl Hl (<[1%nat := Some (DPipeW n)]> f) w1). rewrite P1 in IHl. specialize (IHl ltac:(eapply table_ok_insert; [done|lia|split; [done|lia]])).
    destruct (runcmd e l _ w1) as [pl w2]. cbn [fst snd] in IHl. destruct IHl as [Q2 Hpl].
    destruct (fork1 w2) as [ok w3] eqn:F3. assert (w_pipes w3 = w_pipes w2) as P3 by (change w3 with (snd (ok, w3)); by rewrite <- F3, fork1_pipes).
    destruct ok; cbn [negb].
    + rewrite (pipe_child f n i j (to_in _ _ Hok) (to_out _ _ Hok) L0 L1 0 i _ ltac:(by left) Er ltac:(by left)).
      specialize (IHr Hr (<[0%nat := Some (DPipeR n)]> f) w3). rewrite P3 in IHr. specialize (IHr ltac:(eapply table_ok_insert; [done|lia|split; [done|lia]])).
      destruct (runcmd e r _ w3) as [pr w4]. cbn [fst snd] in *. destruct IHr as [Q4 Hpr]. split; [lia|]. intros argv f' [?|?]%elem_of_app; eauto.
    + cbn [fst snd]. split; [lia|]. intros argv f' [?|[]%elem_of_nil]%elem_of_app; eauto.
  - destruct Hstd as [Hl Hr]. destruct (fork1 w) as [ok w1] eqn:F1. assert (w_pipes w1 = w_pipes w) as P1 by (change w1 with (snd (ok, w1)); by rewrite <- F1, fork1_pipes).
    destruct ok; cbn [negb]; [|split; [cbn; lia|]; intros ? ? []%elem_of_nil]. rewrite <- P1 in Hok.
    specialize (IHl Hl f w1 Hok). destruct (runcmd e l f w1) as [pl w2]. cbn [fst snd] in IHl. destruct IHl as [Q2 Hpl].
    specialize (IHr Hr f w2 (table_ok_mono _ _ _ Hok Q2)). destruct (runcmd e r f w2) as [pr w3]. cbn [fst snd] in *. destruct IHr as [Q3 Hpr].
    split; [lia|]. intros argv f' [?|?]%elem_of_app; eauto.
  - destruct (fork1 w) as [ok w1] eqn:F1. assert (w_pipes w1 = w_pipes w) as P1 by (change w1 with (snd (ok, w1)); by rewrite <- F1, fork1_pipes).
    destruct ok; cbn [negb]; [|split; [cbn; lia|]; intros ? ? []%elem_of_nil]. rewrite <- P1 in Hok.
    specialize (IH Hstd f w1 Hok). destruct (runcmd e c f w1) as [pc w2]. cbn [fst snd] in *. destruct IH as [Q2 Hpc]. split; [lia|]. eauto.
Qed.

Lemma lowest_exists f i : f !! i = Some None -> exists k, lowest f = Some k.
Proof.
  revert i. induction f as [|[d|] f IH]; intros i Hi; [done| |by exists O]. destruct i as [|i]; [done|].
  destruct (IH i Hi) as [k Hk]. exists (S k). cbn. by rewrite Hk.
Qed.

Lemma runcmd_forks e c : forall f w, w_forks w = [] -> w_forks (snd (runcmd e c f w)) = [].
Proof.
  induction c as [argv|c IH file m fd|l IHl r IHr|l IHl r IHr|c IH]; cbn [runcmd]; intros f w Hw.
  - destruct argv as [|prog args]; [done|]. by destruct (e_exec e _).
  - destruct (if e_open e file m then _ else _) as [[i f1]|]; [by apply IH|done].
  - destruct (_ ≫= _) as [[[p0 p1] fp]|]; [|done]. unfold fork1. cbn [w_forks]. rewrite Hw. cbn [negb].
    specialize (IHl (close p1 (close p0 (dup p1 (close 1 fp)))) (World (S (w_pipes w)) []) eq_refl). destruct (runcmd e l _ _) as [pl w2]. cbn [snd] in IHl. rewrite IHl. cbn [negb].
    specialize (IHr (close p1 (close p0 (dup p0 (close 0 fp)))) w2 IHl). by destruct (runcmd e r _ _) as [pr w4].
  - unfold fork1. rewrite Hw. cbn [negb]. specialize (IHl f w Hw). destruct (runcmd e l f w) as [pl w2]. cbn [snd] in IHl.
    specialize (IHr f w2 IHl). by destruct (runcmd e r f w2) as [pr w3].
  - unfold fork1. rewrite Hw. cbn [negb]. specialize (IH f w Hw). by destruct (runcmd e c f w).
Qed.

(** C40: Of a pipeline the left command runs with the writing end of a new
    pipe as its standard output and the right one with the reading end as its
    standard input, their other descriptors and those of the shell are as
    before, and no program that a command runs, however nested, has both ends
    of a pipe: a reader sees the end of its input when the writers are gone. *)
Theorem runcmd_pipeline e l r f w i j : std_redirs (pipecmd l r) -> table_ok f (w_pipes w) -> w_forks w = [] ->
  i <> j -> f !! i = Some None -> f !! j = Some None ->
  let n := w_pipes w in let rl := runcmd e l (<[1%nat := Some (DPipeW n)]> f) (World (S n) []) in
  fst (runcmd e (pipecmd l r) f w) = RPipe (fst rl) (fst (runcmd e r (<[0%nat := Some (DPipeR n)]> f) (snd rl))) f /\
  forall argv f', (argv, f') ∈ execs (fst (runcmd e (pipecmd l r) f w)) -> is_open f' 0 /\ is_open f' 1 /\ one_end f'.
Proof.
  intros Hstd Hok Hw Hij Hi Hj n rl. split; [|by apply runcmd_tables].
  destruct (lowest_exists f i Hi) as [p0 L0]. assert (exists p1, lowest (<[p0 := Some (DPipeR n)]> f) = Some p1) as [p1 L1].
  { destruct (decide (p0 = i)) as [->|Hne]; [apply (lowest_exists _ j)|apply (lowest_exists _ i)]; by rewrite list_lookup_insert_ne. }
  cbn [runcmd]. unfold new_fd. fold n. rewrite L0. cbn [mbind option_bind fst snd]. rewrite L1. cbn [mbind option_bind fst snd].
  destruct (pipe_ends f n p0 p1 (to_in _ _ Hok) (to_out _ _ Hok) L0 L1) as [Er Ew].
  unfold fork1 at 1. cbn [w_forks]. rewrite Hw. cbn [negb].
  rewrite (pipe_child f n p0 p1 (to_in _ _ Hok) (to_out _ _ Hok) L0 L1 1 p1 _ ltac:(by right) Ew ltac:(by right)). fold rl.
  pose proof (runcmd_forks e l (<[1%nat := Some (DPipeW n)]> f) (World (S n) []) eq_refl) as Hw2. fold rl in Hw2. destruct rl as [pl w2]. cbn [fst snd] in *.
  unfold fork1. rewrite Hw2. cbn [negb].
  rewrite (pipe_child f n p0 p1 (to_in _ _ Hok) (to_out _ _ Hok) L0 L1 0 p0 _ ltac:(by left) Er ltac:(by left)).
  rewrite (pipe_parent f n p0 p1 (to_in _ _ Hok) (to_out _ _ Hok) L0 L1). by destruct (runcmd e r _ w2).
Qed.

(** *** An example: [a | b > c], in a shell with its three descriptors *)

Definition srx_env : env := Env (fun _ _ => true) (fun _ => true).
Definition srx_fds : fds := open_console 16 (replicate 16 None).
Definition srx_cmd : cmd (list Z) := redircmd (execcmd [[98]]) [99] (Z.lor O_WRONLY O_CREATE) 1.

Lemma srx_ok : table_ok srx_fds 0.
Proof.
  split; [by exists DConsole|by exists DConsole| |]; unfold holds, srx_fds.
  - intros k [[i Hi]|[i Hi]]; do 16 (destruct i as [|i]; [done|]); done.
  - intros k [i Hi] _. do 16 (destruct i as [|i]; [done|]). done.
Qed.

Lemma runcmd_pipeline_witness :
  fst (runcmd srx_env (pipecmd (execcmd [[97]]) srx_cmd) srx_fds (World 0 [])) =
  RPipe (RExec [[97]] (<[1%nat := Some (DPipeW 0)]> srx_fds))
    (RExec [[98]] (<[1%nat := Some (DFile [99] (Z.lor O_WRONLY O_CREATE))]> (<[0%nat := Some (DPipeR 0)]> srx_fds))) srx_fds.
Proof.
  destruct (runcmd_pipeline srx_env (execcmd [[97]]) srx_cmd srx_fds (World 0 []) 3 4) as [E _];
    [cbn; split; [done|split; [done|by right]]|exact srx_ok|done|done|done|done|]. rewrite E. reflexivity.
Defined.
