(* ===== verification/Pipe.v ===== *)
(** * Pipes

    The ring buffer of [pipe.c], and what the functions that read and write it
    do between two points where they give up the lock of the pipe.  [pipewrite]
    and [piperead] are written as functions that run until they return or
    sleep, so that a system of several processes on one pipe is a step
    relation whose steps they are. *)

From S2P Require Import Prelude Bytes Word32 Params.
Local Open Scope Z_scope.

Definition PIPESIZE : Z := 512.

(** [struct pipe]; its lock is [LPipe p]. *)
Record pipe := Pipe {
  pi_data : list Z;
  pi_nread : Z;
  pi_nwrite : Z;
  pi_readopen : Z;
  pi_writeopen : Z
}.

Definition pipe_init (data : list Z) : pipe := Pipe data 0 0 1 1.

Definition full (p : pipe) : bool := pi_nwrite p =z u32 (pi_nread p + PIPESIZE).
Definition empty (p : pipe) : bool := pi_nread p =z pi_nwrite p.

(** [p->data[p->nwrite++ % PIPESIZE] = c] *)
Definition push (c : Z) (p : pipe) : pipe :=
  Pipe (<[Z.to_nat (pi_nwrite p mod PIPESIZE) := c]> (pi_data p)) (pi_nread p) (u32 (pi_nwrite p + 1))
       (pi_readopen p) (pi_writeopen p).
(** [p->data[p->nread++ % PIPESIZE]] *)
Definition peek (p : pipe) : Z := nth (Z.to_nat (pi_nread p mod PIPESIZE)) (pi_data p) 0.
Definition pop (p : pipe) : pipe :=
  Pipe (pi_data p) (u32 (pi_nread p + 1)) (pi_nwrite p) (pi_readopen p) (pi_writeopen p).

(** The channels of a pipe, [&p->nread] and [&p->nwrite]. *)
Inductive pchan := CRead | CWrite.

(** How a run of [pipewrite] ends: -1 is returned, the process sleeps on
    [nwrite], or all bytes are written; [i] bytes have been stored. *)
Inductive wact := WFail (i : nat) | WSleep (i : nat) | WDone.

(** The loop of [pipewrite] from byte [i] on; [addr] are the bytes from there.
    The run ends with the pipe, the channels that it wakes up, and its end. *)
Fixpoint pipewrite_run (killed : bool) (p : pipe) (addr : list Z) (i : nat) : pipe * list pchan * wact :=
  match addr with
  | [] => (p, [CRead], WDone)
  | c :: addr' =>
      if full p then
        if (pi_readopen p =z 0) || killed then (p, [], WFail i) else (p, [CRead], WSleep i)
      else pipewrite_run killed (push c p) addr' (S i)
  end.

(** How a run of [piperead] ends: -1 is returned, the process sleeps on
    [nread], or the bytes are returned. *)
Inductive ract := RFail | RSleep | RDone (l : list Z).

Fixpoint piperead_copy (p : pipe) (n : nat) : pipe * list Z :=
  match n with
  | O => (p, [])
  | S n' =>
      if empty p then (p, [])
      else let (p', l) := piperead_copy (pop p) n' in (p', peek p :: l)
  end.

Definition piperead_run (killed : bool) (p : pipe) (n : Z) : pipe * list pchan * ract :=
  if empty p && c_bool (pi_writeopen p) then (p, [], if killed then RFail else RSleep)
  else let (p', l) := piperead_copy p (Z.to_nat n) in (p', [CWrite], RDone l).

(** [pipeclose] without the lock and the memory. *)
Definition close_end (writable : bool) (p : pipe) : pipe * list pchan :=
  if writable then (Pipe (pi_data p) (pi_nread p) (pi_nwrite p) (pi_readopen p) 0, [CRead])
  else (Pipe (pi_data p) (pi_nread p) (pi_nwrite p) 0 (pi_writeopen p), [CWrite]).

(** ** The ring buffer as a queue *)

(** The number of bytes in the buffer; the counters wrap around. *)
Definition count (p : pipe) : Z := u32 (pi_nwrite p - pi_nread p).

(** The queue: the oldest byte first. *)
Definition contents (p : pipe) : list Z :=
  (fun k => nth (Z.to_nat ((pi_nread p + k) mod PIPESIZE)) (pi_data p) 0) <$> seqZ 0 (count p).

Record pipe_ok (p : pipe) : Prop := {
  po_len : length (pi_data p) = Z.to_nat PIPESIZE;
  po_nread : 0 <= pi_nread p < 2 ^ 32;
  po_nwrite : 0 <= pi_nwrite p < 2 ^ 32;
  po_count : count p <= PIPESIZE
}.

Section ring.
Implicit Types (p : pipe) (c : Z) (l : list Z).

(** 2^32 is a multiple of the size of the buffer, so that the index survives
    the wrap of the counters. *)
Lemma u32_mod_size x : u32 x mod PIPESIZE = x mod PIPESIZE.
Proof. apply u32_mod_divides; [done|]. by exists (2 ^ 23). Qed.

Lemma count_range p : 0 <= count p < 2 ^ 32.
Proof. apply u32_range. Qed.

Lemma empty_count p : pipe_ok p -> empty p = bool_decide (count p = 0).
Proof.
  intros Hok. apply bool_decide_ext. unfold count. rewrite <- u32_eq, !u32_small by apply Hok. split; congruence.
Qed.

Lemma full_count p : pipe_ok p -> full p = bool_decide (count p = PIPESIZE).
Proof.
  intros Hok. apply bool_decide_ext. rewrite <- (u32_small (pi_nwrite p)) at 1 by apply Hok.
  rewrite u32_eq. unfold count. replace (pi_nwrite p - (pi_nread p + PIPESIZE)) with (pi_nwrite p - pi_nread p - PIPESIZE) by lia.
  rewrite <- u32_eq. by rewrite (u32_small PIPESIZE) by (unfold PIPESIZE; lia).
Qed.

Lemma length_contents p : length (contents p) = Z.to_nat (count p).
Proof. unfold contents. by rewrite length_fmap, length_seqZ. Qed.

Lemma lookup_contents p k : 0 <= k < count p ->
  contents p !! Z.to_nat k = Some (nth (Z.to_nat ((pi_nread p + k) mod PIPESIZE)) (pi_data p) 0).
Proof.
  intros Hk. unfold contents. rewrite list_lookup_fmap, lookup_seqZ_lt by lia.
  cbn [fmap option_fmap option_map]. do 4 f_equal. lia.
Qed.

(** The slots of the bytes in the buffer and of the next one are distinct. *)
Lemma slot_ne p k : 0 <= k < count p -> count p < PIPESIZE ->
  (pi_nread p + k) mod PIPESIZE <> pi_nwrite p mod PIPESIZE.
Proof.
  intros Hk Hc Heq. assert (pi_nwrite p mod PIPESIZE = (pi_nread p + count p) mod PIPESIZE) as Ew.
  { rewrite <- (u32_mod_size (pi_nread p + count p)). unfold count. rewrite (Z.add_comm (pi_nread p)), u32_add_l.
    replace (pi_nwrite p - pi_nread p + pi_nread p) with (pi_nwrite p) by lia. by rewrite u32_mod_size. }
  rewrite Ew in Heq. unfold PIPESIZE in *.
  pose proof (Z.div_mod (pi_nread p + k) 512 ltac:(lia)). pose proof (Z.div_mod (pi_nread p + count p) 512 ltac:(lia)). lia.
Qed.

Lemma slot_next p : pi_nwrite p mod PIPESIZE = (pi_nread p + count p) mod PIPESIZE.
Proof.
  rewrite <- (u32_mod_size (pi_nread p + count p)). unfold count. rewrite (Z.add_comm (pi_nread p)), u32_add_l.
  replace (pi_nwrite p - pi_nread p + pi_nread p) with (pi_nwrite p) by lia. by rewrite u32_mod_size.
Qed.

Lemma count_push p c : count p < PIPESIZE -> count (push c p) = count p + 1.
Proof.
  intros Hc. unfold count at 1. cbn. rewrite u32_sub_l.
  replace (pi_nwrite p + 1 - pi_nread p) with (pi_nwrite p - pi_nread p + 1) by lia. rewrite <- u32_add_l.
  fold (count p). pose proof (count_range p). apply u32_small. unfold PIPESIZE in *. lia.
Qed.

Lemma count_pop p : 0 < count p -> count (pop p) = count p - 1.
Proof.
  intros Hc. unfold count at 1. cbn. rewrite u32_sub_r.
  replace (pi_nwrite p - (pi_nread p + 1)) with (pi_nwrite p - pi_nread p - 1) by lia. rewrite <- u32_sub_l.
  fold (count p). pose proof (count_range p). apply u32_small. lia.
Qed.

Lemma push_ok p c : pipe_ok p -> count p < PIPESIZE ->
  pipe_ok (push c p) /\ contents (push c p) = contents p ++ [c].
Proof.
  intros Hok Hc. pose proof (count_range p) as Hr. pose proof (count_push p c Hc) as Hcp. split.
  - split; cbn; [by rewrite length_insert, (po_len _ Hok)|apply Hok|apply u32_range|rewrite Hcp; lia].
  - apply list_eq. intros j. destruct (decide (Z.of_nat j < count p)) as [Hj|Hj].
    + rewrite lookup_app_l by (rewrite length_contents; lia). replace j with (Z.to_nat (Z.of_nat j)) by lia.
      rewrite !lookup_contents by lia. f_equal. cbn. rewrite !nth_lookup.
      rewrite list_lookup_insert_ne; [done|]. pose proof (slot_ne p (Z.of_nat j) ltac:(lia) Hc).
      pose proof (Z.mod_pos_bound (pi_nread p + Z.of_nat j) PIPESIZE ltac:(unfold PIPESIZE; lia)).
      pose proof (Z.mod_pos_bound (pi_nwrite p) PIPESIZE ltac:(unfold PIPESIZE; lia)). lia.
    + destruct (decide (Z.of_nat j = count p)) as [Ej|Ej].
      * replace j with (Z.to_nat (count p)) by lia.
        rewrite lookup_app_r, length_contents, Nat.sub_diag by (by rewrite length_contents).
        rewrite lookup_contents by lia. cbn. f_equal. rewrite <- slot_next, nth_lookup.
        rewrite list_lookup_insert_eq; [done|]. rewrite (po_len _ Hok).
        pose proof (Z.mod_pos_bound (pi_nwrite p) PIPESIZE ltac:(unfold PIPESIZE; lia)). lia.
      * rewrite !lookup_ge_None_2; [done|rewrite length_app, length_contents; cbn; lia|
          rewrite length_contents, Hcp; lia].
Qed.

Lemma pop_ok p : pipe_ok p -> 0 < count p ->
  pipe_ok (pop p) /\ contents p = peek p :: contents (pop p).
Proof.
  intros Hok Hc. pose proof (count_range p) as Hr. pose proof (count_pop p Hc) as Hcp. split.
  - split; cbn; [apply Hok|apply u32_range|apply Hok|]. pose proof (po_count _ Hok). lia.
  - apply list_eq. intros [|j].
    + change (contents p !! Z.to_nat 0 = Some (peek p)). rewrite lookup_contents by lia. by rewrite Z.add_0_r.
    + change ((peek p :: contents (pop p)) !! S j) with (contents (pop p) !! j).
      destruct (decide (Z.of_nat j < count p - 1)).
      * replace (S j) with (Z.to_nat (Z.of_nat j + 1)) by lia. replace j with (Z.to_nat (Z.of_nat j)) at 2 by lia.
        rewrite !lookup_contents by lia. cbn. do 3 f_equal. rewrite <- (u32_mod_size (u32 _ + _)), u32_add_l, u32_mod_size.
        f_equal. lia.
      * rewrite !lookup_ge_None_2; [done|rewrite length_contents; lia..].
Qed.

(** The flags. *)
Definition same_ends p p' : Prop := pi_readopen p' = pi_readopen p /\ pi_writeopen p' = pi_writeopen p.

(** A run of [pipewrite] appends a prefix of its bytes to the queue. *)
Lemma pipewrite_run_spec killed addr : forall p i, pipe_ok p ->
  let '(p', w, a) := pipewrite_run killed p addr i in
  exists k, (k <= length addr)%nat /\ pipe_ok p' /\ contents p' = contents p ++ take k addr /\ same_ends p p' /\
    match a with
    | WDone => k = length addr /\ w = [CRead]
    | WSleep i' => i' = (i + k)%nat /\ (k < length addr)%nat /\ count p' = PIPESIZE /\
                   pi_readopen p <> 0 /\ killed = false /\ w = [CRead]
    | WFail i' => i' = (i + k)%nat /\ (k < length addr)%nat /\ count p' = PIPESIZE /\
                  (pi_readopen p = 0 \/ killed = true) /\ w = []
    end.
Proof.
  induction addr as [|c addr IH]; intros p i Hok; cbn [pipewrite_run].
  { exists 0%nat. rewrite app_nil_r. split_and!; try done. }
  rewrite full_count by done. case_bool_decide as Hf.
  - destruct (_ || _) eqn:Ho; exists 0%nat; rewrite app_nil_r, Nat.add_0_r.
    + apply orb_true_iff in Ho as [Ho%bool_decide_eq_true|Ho]; split_and!; try done; try (cbn; lia); auto.
    + apply orb_false_iff in Ho as [Ho%bool_decide_eq_false ->]. split_and!; try done; cbn; lia.
  - assert (count p < PIPESIZE) as Hlt by (pose proof (po_count _ Hok); lia).
    destruct (push_ok p c Hok Hlt) as [Hok' Hc'].
    specialize (IH (push c p) (S i) Hok'). destruct (pipewrite_run killed (push c p) addr (S i)) as [[p' w] a].
    destruct IH as (k & Hk & Hokp & Hcont & Hends & Ha). exists (S k). split_and!; [cbn; lia|done| |done|].
    + rewrite Hcont, Hc', <- app_assoc. done.
    + rewrite Nat.add_succ_comm in Ha. cbn [length]. destruct a; split_and?; (done || (split_and!; try done; cbn [length]; lia) || idtac); naive_solver lia.
Qed.

(** A read takes bytes off the front of the queue. *)
Lemma piperead_copy_spec n : forall p, pipe_ok p ->
  let (p', l) := piperead_copy p n in
  pipe_ok p' /\ contents p = l ++ contents p' /\ same_ends p p' /\
  length l = Nat.min n (Z.to_nat (count p)).
Proof.
  induction n as [|n IH]; intros p Hok; cbn [piperead_copy]; [done|].
  rewrite empty_count by done. case_bool_decide as He.
  - rewrite He. split_and!; try done. 
  - pose proof (count_range p). destruct (pop_ok p Hok ltac:(lia)) as [Hok' Hc].
    pose proof (count_pop p ltac:(lia)) as Hcp.
    specialize (IH (pop p) Hok'). destruct (piperead_copy (pop p) n) as [p' l].
    destruct IH as (Hokp & Hcont & Hends & Hlen). split_and!; try done.
    + by rewrite Hc, Hcont.
    + cbn [length]. rewrite Hlen, Hcp. lia.
Qed.
End ring.

(** ** Processes on a pipe *)

(** A process outside of [pipewrite] and [piperead], or in one of them: with the
    bytes of the call and how many of them are stored, or with the size of its
    buffer; asleep or ready to run. *)
Inductive user := UIdle | UWrite (buf : list Z) (i : nat) (asleep : bool) | URead (n : Z) (asleep : bool).

(** [wakeup] of the channels of the pipe. *)
Definition wake_user (c : pchan) (u : user) : user :=
  match c, u with
  | CRead, URead n _ => URead n false
  | CWrite, UWrite b i _ => UWrite b i false
  | _, u => u
  end.
Definition wake_users (w : list pchan) (us : list user) : list user := foldl (fun us c => wake_user c <$> us) us w.
Definition wake (u : user) : user := wake_user CRead (wake_user CWrite u).

(** A call of [pipewrite] that has returned: the process, its bytes, how many
    of them were stored, and whether the result was their number (or -1). *)
Record wcall := Wcall { wc_proc : nat; wc_buf : list Z; wc_stored : nat; wc_ok : bool }.

(** Beside the pipe and its processes, the history: [y_in] are the bytes that
    the runs of the writers took from the buffers of their callers, each with
    its process, [y_out] the bytes returned to readers, in the order of the
    runs, and [y_calls] the calls that have returned. *)
Record sys := Sys { y_pipe : pipe; y_users : list user; y_in : list (nat * Z); y_out : list Z; y_calls : list wcall }.

(** The process after a run that started at byte [i], the bytes that the run
    took, and the call if it has returned. *)
Definition write_user (buf : list Z) (a : wact) : user := match a with WSleep j => UWrite buf j true | _ => UIdle end.
Definition write_end (buf : list Z) (a : wact) : nat := match a with WFail j | WSleep j => j | WDone => length buf end.
Definition write_call (k : nat) (buf : list Z) (a : wact) : list wcall :=
  match a with
  | WFail j => [Wcall k buf j false]
  | WSleep _ => []
  | WDone => [Wcall k buf (length buf) true]
  end.
Definition read_user (n : Z) (a : ract) : user := match a with RSleep => URead n true | _ => UIdle end.
Definition read_bytes (a : ract) : list Z := match a with RDone l => l | _ => [] end.

(** The part of a buffer between two positions. *)
Definition part (i j : nat) (buf : list Z) : list Z := take (j - i) (drop i buf).

(** One process calls a function, or runs until it returns or sleeps, with the
    lock of the pipe held; or is woken up by [kill].  Where [kf] is false no
    process that writes has been killed. *)
Inductive step (kf : bool) : sys -> sys -> Prop :=
| step_call y k u : y_users y !! k = Some UIdle -> (exists b, u = UWrite b 0 false) \/ (exists n, u = URead n false) ->
    step kf y (Sys (y_pipe y) (<[k := u]> (y_users y)) (y_in y) (y_out y) (y_calls y))
| step_write y k buf i killed p' w a : y_users y !! k = Some (UWrite buf i false) -> (killed = true -> kf = true) ->
    pipewrite_run killed (y_pipe y) (drop i buf) i = (p', w, a) ->
    step kf y (Sys p' (<[k := write_user buf a]> (wake_users w (y_users y)))
      (y_in y ++ (pair k <$> part i (write_end buf a) buf)) (y_out y) (y_calls y ++ write_call k buf a))
| step_read y k n killed p' w a : y_users y !! k = Some (URead n false) ->
    piperead_run killed (y_pipe y) n = (p', w, a) ->
    step kf y (Sys p' (<[k := read_user n a]> (wake_users w (y_users y))) (y_in y) (y_out y ++ read_bytes a) (y_calls y))
| step_close y wr p' w : close_end wr (y_pipe y) = (p', w) ->
    step kf y (Sys p' (wake_users w (y_users y)) (y_in y) (y_out y) (y_calls y))
| step_kill y k u : y_users y !! k = Some u ->
    step kf y (Sys (y_pipe y) (<[k := wake u]> (y_users y)) (y_in y) (y_out y) (y_calls y)).

Definition pipe_start (data : list Z) (n : nat) : sys := Sys (pipe_init data) (replicate n UIdle) [] [] [].

Inductive reachable (kf : bool) (data : list Z) (n : nat) : sys -> Prop :=
| reach_start : reachable kf data n (pipe_start data n)
| reach_step y y' : reachable kf data n y -> step kf y y' -> reachable kf data n y'.

(** A sleeping reader has nothing to read and may still get something; a
    sleeping writer has no room and may still get some. *)
Definition user_ok (p : pipe) (u : user) : Prop :=
  match u with
  | URead _ true => pi_readopen p <> 0 -> count p = 0 /\ pi_writeopen p <> 0
  | UWrite _ _ true => count p = PIPESIZE /\ pi_readopen p <> 0
  | _ => True
  end.

Definition users_ok (p : pipe) (us : list user) : Prop := forall (k : nat) u, us !! k = Some u -> user_ok p u.

(** The bytes of a process in a history. *)
Definition bytes_of (k : nat) (l : list (nat * Z)) : list Z := snd <$> filter (fun x => x.1 = k) l.
(** The bytes of the calls of a process that have returned, and of the call
    that it is in, as far as they are stored. *)
Definition returned (k : nat) (l : list wcall) : list Z :=
  concat ((fun c => take (wc_stored c) (wc_buf c)) <$> filter (fun c => wc_proc c = k) l).
Definition so_far (u : user) : list Z := match u with UWrite buf i _ => take i buf | _ => [] end.
Definition under_way (k : nat) (us : list user) : list Z := default [] (so_far <$> us !! k).

Definition user_wf (u : user) : Prop := match u with UWrite buf i _ => (i <= length buf)%nat | _ => True end.
Definition call_ok (c : wcall) : Prop :=
  if wc_ok c then wc_stored c = length (wc_buf c) else (wc_stored c < length (wc_buf c))%nat.

(** The buffer is a queue between what the writers passed and what the readers
    got. *)
Record fifo_ok (y : sys) : Prop := {
  so_pipe : pipe_ok (y_pipe y);
  so_users : forall (k : nat) u, y_users y !! k = Some u -> user_wf u;
  so_fifo : snd <$> y_in y = y_out y ++ contents (y_pipe y);
  so_writers : forall k, bytes_of k (y_in y) = returned k (y_calls y) ++ under_way k (y_users y);
  so_calls : Forall call_ok (y_calls y)
}.

Section system.
Implicit Types (p : pipe) (y : sys) (u : user) (us : list user).

(** *** Waking up *)

Lemma lookup_wake_users w : forall us k, wake_users w us !! k = (fun u => foldl (fun u c => wake_user c u) u w) <$> us !! k.
Proof.
  unfold wake_users. induction w as [|c w IH]; intros us k; cbn [foldl]; [by destruct (us !! k)|].
  rewrite IH, list_lookup_fmap. by destruct (us !! k).
Qed.
Lemma length_wake_users w : forall us, length (wake_users w us) = length us.
Proof. unfold wake_users. induction w as [|c w IH]; intros us; cbn [foldl]; [done|]. by rewrite IH, length_fmap. Qed.

Lemma wake_user_keeps c u : so_far (wake_user c u) = so_far u /\ (user_wf u -> user_wf (wake_user c u)).
Proof. by destruct c, u. Qed.
Lemma wakes_keep w : forall u, let u' := foldl (fun u c => wake_user c u) u w in so_far u' = so_far u /\ (user_wf u -> user_wf u').
Proof.
  induction w as [|c w IH]; intros u; cbn [foldl]; [done|]. destruct (IH (wake_user c u)) as [E1 E2], (wake_user_keeps c u) as [F1 F2].
  split; [by rewrite E1, F1|auto].
Qed.
Lemma under_way_wake w us k : under_way k (wake_users w us) = under_way k us.
Proof. unfold under_way. rewrite lookup_wake_users. destruct (us !! k) as [u|]; [|done]. apply (proj1 (wakes_keep w u)). Qed.
Lemma under_way_insert k j u us : (k < length us)%nat -> under_way j (<[k := u]> us) = if decide (j = k) then so_far u else under_way j us.
Proof.
  intros Hk. unfold under_way. case_decide as E; [subst j; by rewrite list_lookup_insert_eq|by rewrite list_lookup_insert_ne].
Qed.

Definition users_wf us : Prop := forall (k : nat) u, us !! k = Some u -> user_wf u.
Lemma users_wf_wake w us : users_wf us -> users_wf (wake_users w us).
Proof. intros Hus k u. rewrite lookup_wake_users. intros (u0 & Hu0 & ->)%fmap_Some. apply wakes_keep. by eapply Hus. Qed.
Lemma users_wf_insert k u us : users_wf us -> user_wf u -> users_wf (<[k := u]> us).
Proof. intros Hus Hu j v [(_ & -> & _)|[_ Hj]]%list_lookup_insert_Some; [done|by eapply Hus]. Qed.

(** What a change of the pipe leaves of the sleepers. *)
Lemma users_wake_readers p p' us : users_ok p us ->
  (count p = PIPESIZE -> pi_readopen p <> 0 -> count p' = PIPESIZE /\ pi_readopen p' <> 0) ->
  users_ok p' (wake_users [CRead] us).
Proof.
  intros Hus Hw k u. rewrite lookup_wake_users. intros (u0 & Hu0 & ->)%fmap_Some. specialize (Hus k u0 Hu0).
  destruct u0 as [|b i []|n []]; try done. destruct Hus. by apply Hw.
Qed.

Lemma users_wake_writers p p' us : users_ok p us ->
  (forall n, user_ok p (URead n true) -> user_ok p' (URead n true)) -> users_ok p' (wake_users [CWrite] us).
Proof.
  intros Hus Hw k u. rewrite lookup_wake_users. intros (u0 & Hu0 & ->)%fmap_Some. specialize (Hus k u0 Hu0).
  destruct u0 as [|b i []|n []]; try done. by apply (Hw n).
Qed.

Lemma users_insert p us k u : users_ok p us -> user_ok p u -> users_ok p (<[k := u]> us).
Proof. intros Hus Hu j v [(_ & -> & _)|[_ Hj]]%list_lookup_insert_Some; [done|by eapply Hus]. Qed.

(** *** The history *)

Lemma bytes_of_app k l l' : bytes_of k (l ++ l') = bytes_of k l ++ bytes_of k l'.
Proof. unfold bytes_of. by rewrite filter_app, fmap_app. Qed.
Lemma bytes_of_pair k j l : bytes_of k (pair j <$> l) = if decide (k = j) then l else [].
Proof.
  unfold bytes_of. induction l as [|x l IH]; cbn [fmap list_fmap]; [by case_decide|]. case_decide as E.
  - subst j. rewrite filter_cons_True by done. cbn [fmap list_fmap]. by rewrite IH.
  - by rewrite filter_cons_False by (cbn; congruence).
Qed.
Lemma returned_app k l l' : returned k (l ++ l') = returned k l ++ returned k l'.
Proof. unfold returned. by rewrite filter_app, fmap_app, concat_app. Qed.
Lemma returned_one k c : returned k [c] = if decide (k = wc_proc c) then take (wc_stored c) (wc_buf c) else [].
Proof.
  unfold returned. case_decide as E; [rewrite filter_cons_True by done|by rewrite filter_cons_False by congruence]. cbn. by rewrite app_nil_r.
Qed.

Lemma snd_pair (k : nat) (l : list Z) : snd <$> (pair k <$> l) = l.
Proof. rewrite <- list_fmap_compose. apply list_fmap_id. Qed.

Lemma take_part i j buf : (i <= j)%nat -> take i buf ++ part i j buf = take j buf.
Proof. intros Hij. unfold part. rewrite take_take_drop. f_equal. lia. Qed.

(** A run of a writer in terms of positions in its buffer. *)
Lemma write_positions killed k p buf i p' w a : pipe_ok p -> (i <= length buf)%nat ->
  pipewrite_run killed p (drop i buf) i = (p', w, a) ->
  pipe_ok p' /\ contents p' = contents p ++ part i (write_end buf a) buf /\ (i <= write_end buf a <= length buf)%nat /\
  Forall call_ok (write_call k buf a) /\ user_wf (write_user buf a).
Proof.
  intros Hp Hi Hrun. pose proof (pipewrite_run_spec killed (drop i buf) p i Hp) as Hs. rewrite Hrun in Hs.
  destruct Hs as (m & Hm & Hp' & Hc & _ & Ha). rewrite length_drop in *. split; [done|].
  assert (write_end buf a = (i + m)%nat) as Ee by (destruct a; cbn [write_end]; [lia|lia|destruct Ha; lia]).
  rewrite Ee, Hc. unfold part. replace (i + m - i)%nat with m by lia. split_and!; [done|lia|lia| |].
  - destruct a; cbn [write_call]; repeat constructor; cbn; lia.
  - destruct a; cbn; lia || done.
Qed.

(** The queue and the bytes that went through it. *)
Lemma step_fifo kf y y' : step kf y y' -> fifo_ok y -> fifo_ok y'.
Proof.
  intros Hs [Hp Hu Hf Hw Hc]. destruct Hs as [y k u Hk Hcall|y k buf i killed p' w a Hk _ Hrun|y k n killed p' w a Hk Hrun|y wr p' w Hcl|y k u Hk].
  - pose proof (lookup_lt_Some _ _ _ Hk) as Hlt. split; cbn [y_pipe y_users y_in y_out y_calls]; try done.
    + apply users_wf_insert; [done|]. destruct Hcall as [[b ->]|[n ->]]; [|done]. cbn. lia.
    + intros j. rewrite Hw, under_way_insert by done. case_decide; [subst j|done]. unfold under_way. rewrite Hk. by destruct Hcall as [[b ->]|[n ->]].
  - pose proof (lookup_lt_Some _ _ _ Hk) as Hlt. pose proof (Hu k _ Hk) as Hi. cbn in Hi.
    destruct (write_positions _ k _ _ _ _ _ _ Hp Hi Hrun) as (Hp' & Hcont & [He He'] & Hcalls & Huw).
    split; cbn [y_pipe y_users y_in y_out y_calls]; [done|by apply users_wf_insert; [apply users_wf_wake|]| | |].
    + by rewrite fmap_app, snd_pair, Hf, Hcont, app_assoc.
    + intros j. rewrite bytes_of_app, bytes_of_pair, Hw, returned_app, under_way_insert by (by rewrite length_wake_users).
      rewrite under_way_wake. case_decide as Ej; [subst j|].
      * assert (under_way k (y_users y) = take i buf) as -> by (unfold under_way; by rewrite Hk).
        rewrite <- !app_assoc, take_part by done. f_equal.
        destruct a; cbn [write_call write_user write_end so_far]; rewrite ?returned_one; cbn [wc_proc wc_stored wc_buf];
          rewrite ?decide_True by done; by rewrite ?app_nil_r.
      * rewrite app_nil_r. assert (returned j (write_call k buf a) = []) as ->; [|by rewrite app_nil_r].
        destruct a; cbn [write_call]; rewrite ?returned_one; cbn [wc_proc]; by rewrite ?decide_False by done.
    + by apply Forall_app.
  - pose proof (lookup_lt_Some _ _ _ Hk) as Hlt. assert (pipe_ok p' /\ contents (y_pipe y) = read_bytes a ++ contents p') as [Hp' Hcont].
    { unfold piperead_run in Hrun. destruct (_ && _); [injection Hrun as <- <- <-; by destruct killed|].
      pose proof (piperead_copy_spec (Z.to_nat n) (y_pipe y) Hp) as Hs. destruct (piperead_copy _ _) as [p1 l]. injection Hrun as <- <- <-. tauto. }
    split; cbn [y_pipe y_users y_in y_out y_calls]; [done| |by rewrite Hf, Hcont, app_assoc| |done].
    + apply users_wf_insert; [by apply users_wf_wake|]. by destruct a.
    + intros j. rewrite Hw, under_way_insert, under_way_wake by (by rewrite length_wake_users). case_decide; [subst j|done].
      unfold under_way. rewrite Hk. by destruct a.
  - split; cbn [y_pipe y_users y_in y_out y_calls]; [|by apply users_wf_wake| |intros j; by rewrite under_way_wake|done];
      destruct wr; injection Hcl as <- <-; [destruct Hp; by split..|done|done].
  - pose proof (lookup_lt_Some _ _ _ Hk) as Hlt. split; cbn [y_pipe y_users y_in y_out y_calls]; try done.
    + apply users_wf_insert; [done|]. unfold wake. do 2 apply wake_user_keeps. by eapply Hu.
    + intros j. rewrite Hw, under_way_insert by done. case_decide; [subst j|done]. unfold under_way. rewrite Hk. unfold wake.
      rewrite !(proj1 (wake_user_keeps _ _)). done.
Qed.

Lemma step_write_users y k buf i p' w a : pipe_ok (y_pipe y) -> users_ok (y_pipe y) (y_users y) ->
  pipewrite_run false (y_pipe y) (drop i buf) i = (p', w, a) -> users_ok p' (<[k := write_user buf a]> (wake_users w (y_users y))).
Proof.
  intros Hp Hu Hrun. pose proof (pipewrite_run_spec false (drop i buf) (y_pipe y) i Hp) as Hs. rewrite Hrun in Hs.
  destruct Hs as (m & Hm & Hp' & Hc & [Hro Hwo] & Ha). apply (f_equal length) in Hc.
  rewrite length_app, !length_contents in Hc. pose proof (count_range p'). pose proof (po_count _ Hp').
  assert (users_ok p' (wake_users [CRead] (y_users y))) as Hwake.
  { apply (users_wake_readers (y_pipe y)); [done|]. intros Hy Hr. rewrite Hro. split; [lia|done]. }
  destruct a as [j|j|]; cbn [write_user]; apply users_insert; try done.
  - destruct Ha as (_ & _ & Hfl & [Hr|] & ->); [|done]. intros q u Hj. specialize (Hu q u Hj).
    destruct u as [|b ? []|r []]; cbn in *; try done; rewrite Hro; [tauto|done].
  - by destruct Ha as (_ & _ & _ & _ & _ & ->).
  - destruct Ha as (_ & _ & ? & ? & _). split; [done|by rewrite Hro].
  - by destruct Ha as (_ & ->).
Qed.

Lemma step_read_users y k n killed p' w a : pipe_ok (y_pipe y) -> users_ok (y_pipe y) (y_users y) ->
  piperead_run killed (y_pipe y) n = (p', w, a) -> users_ok p' (<[k := read_user n a]> (wake_users w (y_users y))).
Proof.
  intros Hp Hu. unfold piperead_run. destruct (_ && _) eqn:He.
  - apply andb_true_iff in He as [He Hw]. rewrite empty_count in He by done. apply bool_decide_eq_true in He.
    intros [= <- <- <-]. destruct killed; apply users_insert; try done. intros _. split; [done|].
    intros Hz. by rewrite Hz in Hw.
  - pose proof (piperead_copy_spec (Z.to_nat n) (y_pipe y) Hp) as Hs. destruct (piperead_copy _ _) as [p1 l].
    intros [= <- <- <-]. destruct Hs as (Hp' & Hc & [Hro Hwo] & _). cbn [read_user]. apply users_insert; [|done].
    apply (users_wake_writers (y_pipe y)); [done|]. intros r. cbn. rewrite Hro, Hwo. intros Hr Hopen.
    destruct (Hr Hopen) as [Hz Hw]. split; [|done]. apply (f_equal length) in Hc. rewrite length_app, !length_contents, Hz in Hc.
    pose proof (count_range p1). lia.
Qed.

Lemma step_users y y' : step false y y' -> fifo_ok y -> users_ok (y_pipe y) (y_users y) ->
  users_ok (y_pipe y') (y_users y').
Proof.
  intros Hs [Hp _ _ _ _] Hu. destruct Hs as [y k u Hk Hc|y k buf i killed p' w a Hk Hkf Hrun|y k n killed p' w a Hk Hrun|y wr p' w Hcl|y k u Hk]; cbn [y_pipe y_users].
  - apply users_insert; [done|]. by destruct Hc as [[b ->]|[n ->]].
  - destruct killed; [by specialize (Hkf eq_refl)|]. by eapply step_write_users.
  - by eapply step_read_users.
  - destruct wr; injection Hcl as <- <-.
    + apply (users_wake_readers (y_pipe y)); [done|]. done.
    + apply (users_wake_writers (y_pipe y)); [done|]. intros n. cbn. done.
  - apply users_insert; [done|]. destruct u as [|b i []|n []]; done.
Qed.

Lemma start_fifo data n : length data = Z.to_nat PIPESIZE -> fifo_ok (pipe_start data n).
Proof.
  intros Hl. split; [split; cbn; try done| |done| |constructor].
  - intros k u [-> _]%lookup_replicate. done.
  - intros k. unfold under_way. cbn [y_users pipe_start]. destruct (replicate n UIdle !! k) as [u|] eqn:E; [|done].
    by apply lookup_replicate in E as [-> _].
Qed.

Lemma reachable_fifo kf data n y : length data = Z.to_nat PIPESIZE -> reachable kf data n y -> fifo_ok y.
Proof. intros Hl. induction 1; [by apply start_fifo|by eapply step_fifo]. Qed.

Lemma reachable_users data n y : length data = Z.to_nat PIPESIZE -> reachable false data n y ->
  users_ok (y_pipe y) (y_users y).
Proof.
  intros Hl. induction 1 as [|y y' Hy IH Hs]; [|eapply step_users; [done|by eapply reachable_fifo|done]].
  intros k u [-> _]%lookup_replicate. done.
Qed.
End system.

(** ** Running the system

    A schedule as a list of actions, for concrete runs. *)
Inductive action := DoCall (k : nat) (u : user) | DoRun (k : nat) (killed : bool) | DoClose (w : bool) | DoKill (k : nat).

Definition is_call (u : user) : bool := match u with UWrite _ O false | URead _ false => true | _ => false end.

Definition act (kf : bool) (c : action) (y : sys) : option sys :=
  match c with
  | DoCall k u =>
      match y_users y !! k with
      | Some UIdle => if is_call u then Some (Sys (y_pipe y) (<[k := u]> (y_users y)) (y_in y) (y_out y) (y_calls y)) else None
      | _ => None
      end
  | DoRun k killed =>
      match y_users y !! k with
      | Some (UWrite buf i false) =>
          if killed && negb kf then None else
          let '(p', w, a) := pipewrite_run killed (y_pipe y) (drop i buf) i in
          Some (Sys p' (<[k := write_user buf a]> (wake_users w (y_users y)))
            (y_in y ++ (pair k <$> part i (write_end buf a) buf)) (y_out y) (y_calls y ++ write_call k buf a))
      | Some (URead n false) =>
          let '(p', w, a) := piperead_run killed (y_pipe y) n in
          Some (Sys p' (<[k := read_user n a]> (wake_users w (y_users y))) (y_in y) (y_out y ++ read_bytes a) (y_calls y))
      | _ => None
      end
  | DoClose wr =>
      let (p', w) := close_end wr (y_pipe y) in
      Some (Sys p' (wake_users w (y_users y)) (y_in y) (y_out y) (y_calls y))
  | DoKill k =>
      match y_users y !! k with
      | Some u => Some (Sys (y_pipe y) (<[k := wake u]> (y_users y)) (y_in y) (y_out y) (y_calls y))
      | None => None
      end
  end.

Fixpoint script (kf : bool) (cs : list action) (y : sys) : option sys :=
  match cs with
  | [] => Some y
  | c :: cs' => match act kf c y with Some y' => script kf cs' y' | None => None end
  end.

Lemma act_step kf c y y' : act kf c y = Some y' -> step kf y y'.
Proof.
  destruct c as [k u|k killed|wr|k]; cbn [act].
  - destruct (y_users y !! k) as [[]|] eqn:Hk; try done. destruct (is_call u) eqn:Hu; intros [= <-].
    apply step_call; [done|]. destruct u as [|b [] []|n []]; eauto; done.
  - destruct (y_users y !! k) as [[|buf i []|n []]|] eqn:Hk; try done.
    + destruct (_ && _) eqn:Hkf; [done|]. destruct (pipewrite_run killed _ _ _) as [[p' w] a] eqn:Hr. intros [= <-].
      apply (step_write _ _ _ _ _ killed); [done| |done]. intros ->. by destruct kf.
    + destruct (piperead_run _ _ _) as [[p' w] a] eqn:Hr. intros [= <-]. by eapply step_read.
  - destruct (close_end _ _) as [p' w] eqn:Hc. intros [= <-]. by eapply step_close.
  - destruct (y_users y !! k) eqn:Hk; intros [= <-]. by apply step_kill.
Qed.

Lemma script_reachable kf data n cs y : script kf cs (pipe_start data n) = Some y -> reachable kf data n y.
Proof.
  assert (forall y0, reachable kf data n y0 -> script kf cs y0 = Some y -> reachable kf data n y) as H.
  { induction cs as [|c cs IH]; cbn [script]; [by intros ?? [= <-]|]. intros y0 H0.
    destruct (act kf c y0) as [y1|] eqn:Ha; [|done]. apply IH. eapply reach_step; [done|by eapply act_step]. }
  apply H, reach_start.
Qed.

(** A reader sleeps on the empty pipe. *)
Definition pipe_reader_script : list action := [DoCall 0 (URead 5 false); DoRun 0 false].
(** Then a process calls [pipewrite] with more than the buffer holds; *)
Definition pipe_killed_script : list action := pipe_reader_script ++ [DoCall 1 (UWrite (replicate 513 7) 0 false)].
(** or another process writes three bytes, of which the reader takes two. *)
Definition pipe_write_script : list action :=
  [DoCall 0 (URead 2 false); DoRun 0 false; DoCall 1 (UWrite [1; 2; 3] 0 false); DoRun 1 false; DoRun 0 false].

(** ** Properties *)

(** C13: a pipe is a queue between the buffers that its writers pass and what
    its readers get, whatever the processes on it do and in whichever order.
    The bytes readers have got and those in the ring, which fit in it, are the
    bytes of the writers, in the order of their runs and without a gap.  What
    comes from one process is the content of the buffers of its calls, one
    after the other: all of it for a call that returned its number of bytes, a
    part from the start on for one that failed or is not done. *)
Theorem pipe_fifo kf data n y : length data = Z.to_nat PIPESIZE -> reachable kf data n y ->
  snd <$> y_in y = y_out y ++ contents (y_pipe y) /\ Z.of_nat (length (contents (y_pipe y))) <= PIPESIZE /\
  (forall k, bytes_of k (y_in y) = returned k (y_calls y) ++ under_way k (y_users y)) /\
  (forall c, c ∈ y_calls y -> if wc_ok c then wc_stored c = length (wc_buf c) else (wc_stored c < length (wc_buf c))%nat).
Proof.
  intros Hl Hr. destruct (reachable_fifo _ _ _ _ Hl Hr) as [Hp _ Hf Hw Hc]. split_and!; [done| |done|].
  - rewrite length_contents. pose proof (count_range (y_pipe y)). pose proof (po_count _ Hp). lia.
  - rewrite Forall_forall in Hc. exact Hc.
Qed.

(** C24: as long as no killed process writes, nobody sleeps on a pipe that
    would let it go on.  A reader asleep on a pipe whose read end is open finds
    it empty with a write end open; a writer asleep finds it full with a read
    end open; so a reader and a writer never wait for each other. *)
Theorem pipe_no_lost_wakeup data n y k u : length data = Z.to_nat PIPESIZE -> reachable false data n y ->
  y_users y !! k = Some u ->
  (forall m, u = URead m true -> pi_readopen (y_pipe y) <> 0 ->
     contents (y_pipe y) = [] /\ pi_writeopen (y_pipe y) <> 0) /\
  (forall b i, u = UWrite b i true ->
     Z.of_nat (length (contents (y_pipe y))) = PIPESIZE /\ pi_readopen (y_pipe y) <> 0 /\
     forall (j : nat) m, y_users y !! j <> Some (URead m true)).
Proof.
  intros Hl Hr Hk. pose proof (reachable_users _ _ _ Hl Hr) as Hu. split.
  - intros m -> Ho. destruct (Hu k _ Hk Ho) as [Hc Hw]. split; [|done].
    apply length_zero_iff_nil. by rewrite length_contents, Hc.
  - intros b i ->. destruct (Hu k _ Hk) as [Hc Ho]. split_and!; [by rewrite length_contents, Hc|done|].
    intros j m Hj. destruct (Hu j _ Hj Ho) as [Hz _]. by rewrite Hc in Hz.
Qed.

(** C26: a killed process that has more to write than there is room for.  In
    every state that the system can be in, its run stores the bytes that fit,
    and then [pipewrite] returns -1 and wakes nobody up: the pipe is full, and
    each reader that was asleep before the run is still asleep, so that the
    bytes that were stored wait beside it. *)
Theorem pipe_killed_writer data n y k buf i : length data = Z.to_nat PIPESIZE -> reachable true data n y ->
  y_users y !! k = Some (UWrite buf i false) ->
  let room := (Z.to_nat PIPESIZE - length (contents (y_pipe y)))%nat in (i + room < length buf)%nat ->
  exists y', act true (DoRun k true) y = Some y' /\
    y_users y' = <[k := UIdle]> (y_users y) /\ y_calls y' = y_calls y ++ [Wcall k buf (i + room) false] /\
    contents (y_pipe y') = contents (y_pipe y) ++ part i (i + room) buf /\ length (contents (y_pipe y')) = Z.to_nat PIPESIZE /\
    forall r m, y_users y !! r = Some (URead m true) -> y_users y' !! r = Some (URead m true).
Proof.
  intros Hl Hr Hk room Hroom. destruct (reachable_fifo _ _ _ _ Hl Hr) as [Hp Hu _ _ _]. pose proof (Hu k _ Hk) as Hi. cbn in Hi.
  cbn [act]. rewrite Hk. cbn [andb negb]. pose proof (pipewrite_run_spec true (drop i buf) (y_pipe y) i Hp) as Hs.
  destruct (pipewrite_run true (y_pipe y) (drop i buf) i) as [[p' w] a]. destruct Hs as (m & Hm & Hp' & Hc & _ & Ha).
  rewrite length_drop in *. pose proof (f_equal length Hc) as Hlen. rewrite length_app, length_take, length_drop, !length_contents in Hlen.
  pose proof (count_range p') as Hr'. pose proof (po_count _ Hp') as Hc'. subst room. rewrite length_contents in *.
  destruct a as [j|j|]; [|by destruct Ha as (_ & _ & _ & _ & ? & _)|lia]. destruct Ha as (-> & Hlt & Hfull & _ & ->).
  assert (m = (Z.to_nat PIPESIZE - Z.to_nat (count (y_pipe y)))%nat) as -> by lia. eexists. split; [reflexivity|].
  cbn [y_pipe y_users y_calls write_user write_call]. split_and!; [done|done| |rewrite length_contents; lia|].
  - rewrite Hc. unfold part. f_equal. f_equal. lia.
  - intros r q Hq. rewrite list_lookup_insert_ne; [done|]. intros ->. congruence.
Qed.

Definition pipe_run (kf : bool) (cs : list action) : sys :=
  default (pipe_start [] 0) (script kf cs (pipe_start (replicate 512 0) 2)).

Lemma pipe_fifo_witness : let y := pipe_run false pipe_write_script in
  y_out y = [1; 2] /\ snd <$> y_in y = y_out y ++ contents (y_pipe y) /\ bytes_of 1 (y_in y) = [1; 2; 3].
Proof.
  destruct (pipe_fifo false (replicate 512 0) 2 (pipe_run false pipe_write_script)) as (Hf & _ & Hw & _).
  - vm_compute. reflexivity.
  - apply (script_reachable false _ _ pipe_write_script). vm_compute. reflexivity.
  - split; [vm_compute; reflexivity|]. split; [exact Hf|]. rewrite (Hw 1%nat). vm_compute. reflexivity.
Defined.

Lemma pipe_no_lost_wakeup_witness : let y := pipe_run false pipe_reader_script in
  contents (y_pipe y) = [] /\ pi_writeopen (y_pipe y) <> 0.
Proof.
  apply (pipe_no_lost_wakeup (replicate 512 0) 2 (pipe_run false pipe_reader_script) 0 (URead 5 true)) with (m := 5);
    [vm_compute; reflexivity| |vm_compute; reflexivity|reflexivity|vm_compute; discriminate].
  apply (script_reachable false _ _ pipe_reader_script). vm_compute. reflexivity.
Defined.

Lemma pipe_killed_writer_witness : exists y', act true (DoRun 1 true) (pipe_run true pipe_killed_script) = Some y' /\
  y_users y' !! 0%nat = Some (URead 5 true) /\ y_users y' !! 1%nat = Some UIdle /\ length (contents (y_pipe y')) = 512%nat.
Proof.
  destruct (pipe_killed_writer (replicate 512 0) 2 (pipe_run true pipe_killed_script) 1 (replicate 513 7) 0) as (y' & E & Hu & _ & _ & Hl & Hs).
  - vm_compute. reflexivity.
  - apply (script_reachable true _ _ pipe_killed_script). vm_compute. reflexivity.
  - vm_compute. reflexivity.
  - apply Nat.ltb_lt. vm_compute. reflexivity.
  - exists y'. split; [exact E|]. split; [|split]; [apply Hs; vm_compute; reflexivity|rewrite Hu; vm_compute; reflexivity|exact Hl].
Defined.
