(* ===== verification/Kalloc.v ===== *)
(** * Physical memory and its allocator

    Memory as the kernel sees it through its direct map: pages of 4096 bytes
    at kernel addresses.  [kalloc.c] links the free pages through their first
    word.  The address [end] of the first byte after the kernel is set by the
    linker, and a parameter. *)

From S2P Require Import Prelude Bytes Params Machine BlockCache CString.
Local Open Scope Z_scope.

(** ** Memory *)

(** The pages, and the fields of [kmem] beside its lock [LKmem]. *)
Record memory := Memory { ram : gmap Z (list Z); use_lock : Z; freelist : Z }.

Definition set_ram (r : gmap Z (list Z)) (x : memory) : memory := Memory r (use_lock x) (freelist x).

Class HasMem (T : Type) `{HasMachine T} := {
  mem : T -> memory;
  set_mem : memory -> T -> T;
  mem_set : forall x s, mem (set_mem x s) = x;
  set_mem_set : forall x y s, set_mem x (set_mem y s) = set_mem x s;
  set_mem_id : forall s, set_mem (mem s) s = s;
  mach_set_mem : forall x s, mach (set_mem x s) = mach s;
  set_mem_mach : forall x m s, set_mem x (set_mach m s) = set_mach m (set_mem x s)
}.

Section access.
Context {T : Type} `{HasMem T}.

Lemma mem_set_mach m (s : T) : mem (set_mach m s) = mem s.
Proof. rewrite <- (set_mem_id s) at 1. by rewrite <- set_mem_mach, mem_set. Qed.

(** The page at an address, and the 32-bit word at an address. *)
Definition load_page (a : Z) : M T (list Z) := s ← get; of_option "no memory at this address" (ram (mem s) !! a).
Definition store_page (a : Z) (d : list Z) : M T unit :=
  modify (fun s => set_mem (set_ram (<[a := d]> (ram (mem s))) (mem s)) s).
Definition page_of (a : Z) : Z := a - a mod PGSIZE.
Definition load32 (a : Z) : M T Z :=
  d ← load_page (page_of a); mret (get32 d (Z.to_nat (a mod PGSIZE))).
Definition store32 (a v : Z) : M T unit :=
  d ← load_page (page_of a); store_page (page_of a) (set32 d (Z.to_nat (a mod PGSIZE)) v).
(** [memset] of a whole page. *)
Definition memset_page (a c : Z) : M T unit :=
  d ← load_page a;
  d' ← of_option "memset" (memset a d c PGSIZE);
  store_page a d'.

(** ** kalloc.c *)

Variable kend : Z.

Definition upd_kmem (f : memory -> memory) : M T unit := modify (fun s => set_mem (f (mem s)) s).

Definition kfree (v : Z) : M T unit :=
  if negb (u32 v mod PGSIZE =z 0) || (v <z kend) || (PHYSTOP <=z V2P v) then panic "kfree" else
  memset_page v 1 ;;
  ul ← gets (fun s => use_lock (mem s));
  when (c_bool ul) (onm (acquire LKmem)) ;;
  next ← gets (fun s => freelist (mem s));
  store32 v next ;;
  upd_kmem (fun x => Memory (ram x) (use_lock x) v) ;;
  ul ← gets (fun s => use_lock (mem s));
  when (c_bool ul) (onm (release LKmem)).

Definition kalloc : M T Z :=
  ul ← gets (fun s => use_lock (mem s));
  when (c_bool ul) (onm (acquire LKmem)) ;;
  r ← gets (fun s => freelist (mem s));
  (if c_bool r then
     next ← load32 r;
     upd_kmem (fun x => Memory (ram x) (use_lock x) next)
   else mret tt) ;;
  ul ← gets (fun s => use_lock (mem s));
  when (c_bool ul) (onm (release LKmem)) ;;
  mret r.

(** The loop of [freerange]: [n] bounds the number of pages. *)
Fixpoint freerange_loop (n : nat) (p vend : Z) : M T unit :=
  if u32 (p + PGSIZE) <=z vend then
    match n with
    | O => fault "freerange"
    | S n' => kfree p ;; freerange_loop n' (u32 (p + PGSIZE)) vend
    end
  else mret tt.
Definition freerange (vstart vend : Z) : M T unit :=
  let p := PGROUNDUP vstart in
  freerange_loop (Z.to_nat ((vend - p) / PGSIZE)) p vend.

Definition kinit1 (vstart vend : Z) : M T unit :=
  onm (modify (set_lock LKmem initlock)) ;;
  upd_kmem (fun x => Memory (ram x) 0 (freelist x)) ;;
  freerange vstart vend.

Definition kinit2 (vstart vend : Z) : M T unit :=
  freerange vstart vend ;;
  upd_kmem (fun x => Memory (ram x) 1 (freelist x)).
End access.

(** ** The free list *)

(** The list that starts at [p]: each page holds the address of the next. *)
Fixpoint flist (r : gmap Z (list Z)) (p : Z) (l : list Z) : Prop :=
  match l with
  | [] => p = 0
  | q :: l' => p = q /\ exists d, r !! q = Some d /\ length d = Z.to_nat PGSIZE /\ flist r (get32 d 0) l'
  end.

Definition frame_ok (kend a : Z) : Prop := a mod PGSIZE = 0 /\ kend <= a < KERNBASE + PHYSTOP.

(** What a critical section at any depth of [pushcli] leaves of the machine. *)
Record msame (m m' : machine) : Prop := {
  ms_ok : mach_ok m';
  ms_depth : depth m' = depth m;
  ms_rel : mrel m m';
  ms_lock : forall l, lock_of m' l = lock_of m l \/ (lock_free m l /\ lock_free m' l);
  ms_slocks : slocks m' = slocks m;
  ms_procs : procs m' = procs m
}.

(** [fl] is the free list of a state in which [kalloc] and [kfree] can run. *)
Record kmem_rep `{HasMem T} (kend : Z) (s : T) (fl : list Z) : Prop := {
  kr_mach : mach_ok (mach s);
  kr_lock : lock_free (mach s) LKmem;
  kr_list : flist (ram (mem s)) (freelist (mem s)) fl;
  kr_nodup : NoDup fl;
  kr_frames : Forall (frame_ok kend) fl
}.

(** A state that differs in memory, and in the machine as [msame] allows. *)
Definition mstep `{HasMem T} (s s' : T) : Prop :=
  exists m x, s' = set_mach m (set_mem x s) /\ msame (mach s) m.

Section kalloc_specs.
Implicit Types m : machine.

Lemma msame_refl m : mach_ok m -> msame m m.
Proof. split; try done. by left. Qed.

Lemma msame_trans m1 m2 m3 : msame m1 m2 -> msame m2 m3 -> msame m1 m3.
Proof.
  intros [A1 B1 C1 D1 E1 F1] [A2 B2 C2 D2 E2 F2]. split; [done|congruence|by etrans| |congruence|congruence].
  intros l. unfold lock_free in *. destruct (D1 l) as [H1|[H1 H1']], (D2 l) as [H2|[H2 H2']]; rewrite ?H2, ?H1; auto.
  - right. by rewrite <- H1.
Qed.

Lemma msame_free m m' l : msame m m' -> lock_free m l -> lock_free m' l.
Proof. intros Hm Hf. destruct (ms_lock _ _ Hm l) as [H|[_ H]]; [unfold lock_free; by rewrite H|done]. Qed.

Lemma msame_quiet m m' : msame m m' -> quiet m -> quiet m'.
Proof. intros Hm [_ Hq]. split; [apply Hm|]. intros l. by eapply msame_free. Qed.

(** Between [acquire] and [release] of a lock, where the flag is set. *)
Definition inside (b : bool) (l : lockid) m m1 : Prop :=
  if b then mrel m m1 /\ mach_ok m1 /\ depth m1 = depth m + 1 /\ lock_mine m1 l /\
    (forall l', l' <> l -> lock_of m1 l' = lock_of m l') /\ slocks m1 = slocks m /\ procs m1 = procs m
  else m1 = m.

Lemma wp_lock_if {T} `{HasMachine T} b l (s : T) (Q : unit -> T -> Prop) :
  mach_ok (mach s) -> lock_free (mach s) l ->
  (forall m, inside b l (mach s) m -> Q tt (set_mach m s)) -> wp (when b (onm (acquire l))) Q s.
Proof.
  intros Hok Hf HQ. destruct b; unfold when.
  - unfold onm. wp_step. wp_apply (acquire_spec _ l Hok Hf). intros [] m Hm. by apply HQ.
  - wp_step. rewrite <- (set_mach_id s). by apply HQ.
Qed.

Lemma wp_unlock_if {T} `{HasMachine T} b l m (s : T) (Q : unit -> T -> Prop) :
  mach_ok m -> lock_free m l -> inside b l m (mach s) ->
  (forall m', msame m m' -> Q tt (set_mach m' s)) -> wp (when b (onm (release l))) Q s.
Proof.
  intros Hok Hf Hin HQ. destruct b; unfold when.
  - destruct Hin as (Hr1 & Hok1 & Hd1 & Hm1 & Hl1 & Hs1 & Hp1). unfold onm. wp_step. pose proof (proj1 Hok).
    wp_apply (release_spec _ l Hok1 Hm1); [lia|]. intros [] m2 (Hr2 & Hok2 & Hd2 & Hl2 & Hl2' & Hs2 & Hp2).
    apply HQ. split; [done|lia|by etrans| |congruence|congruence]. intros l'. destruct (decide (l' = l)) as [->|Hne].
    + right. unfold lock_free. by rewrite Hl2.
    + left. rewrite Hl2', Hl1 by done. done.
  - wp_step. cbn in Hin. rewrite <- (set_mach_id s), Hin. apply HQ. by apply msame_refl.
Qed.
Lemma flist_ext (r r' : gmap Z (list Z)) p l : flist r p l -> (forall q, q ∈ l -> r' !! q = r !! q) -> flist r' p l.
Proof.
  revert p. induction l as [|q l IH]; intros p; cbn; [done|].
  intros (-> & d & Hd & Hl & Hf) Heq. split; [done|]. exists d. rewrite Heq by set_solver.
  split_and!; [done..|]. apply IH; [done|]. intros q' Hq'. apply Heq. set_solver.
Qed.

Lemma flist_page (r : gmap Z (list Z)) p l q : flist r p l -> q ∈ l -> exists d, r !! q = Some d /\ length d = Z.to_nat PGSIZE.
Proof.
  revert p. induction l as [|q' l IH]; intros p; cbn; [by intros _ ?%not_elem_of_nil|].
  intros (-> & d & Hd & Hl & Hf) [->|Hq]%elem_of_cons; [by eauto|by eapply IH].
Qed.

End kalloc_specs.

Section kmem_specs.
Context {T : Type} `{HasMem T}.
Variable kend : Z.
Hypothesis kend_ok : KERNBASE < kend.
Implicit Types (s : T) (r : gmap Z (list Z)) (fl : list Z).

Lemma frame_V2P a : frame_ok kend a -> V2P a = a - KERNBASE.
Proof.
  intros [_ Hr]. unfold V2P, KERNBASE, PHYSTOP in *. rewrite (u32_small a), u32_small by lia. done.
Qed.
Lemma frame_nz a : frame_ok kend a -> a <> 0.
Proof. intros [_ Hr]. unfold KERNBASE in *. lia. Qed.

Lemma page_of_frame a : a mod PGSIZE = 0 -> page_of a = a.
Proof. unfold page_of. lia. Qed.

Lemma wp_load_page (Q : list Z -> T -> Prop) s a d :
  ram (mem s) !! a = Some d -> Q d s -> wp (load_page a) Q s.
Proof. intros Hd HQ. unfold load_page. wp_steps. by eapply wp_of_option. Qed.

Lemma memset_page_spec a c d : a mod PGSIZE = 0 -> 0 <= a < 2 ^ 32 -> 0 <= c < 256 -> length d = Z.to_nat PGSIZE ->
  memset a d c PGSIZE = Some (replicate (Z.to_nat PGSIZE) c).
Proof.
  intros Ha Hr Hc Hd. unfold memset. rewrite (bool_decide_eq_true_2 (Z.rem (s32 a) 4 = 0)).
  - rewrite (bool_decide_eq_true_2 (PGSIZE mod 4 = 0)) by done. cbn [andb].
    change 0xFF with (Z.ones 8). rewrite Z.land_ones, (Z.mod_small c) by lia.
    rewrite stosl_spec by (rewrite ?Hd; try change (Z.to_nat (PGSIZE / 4)) with 1024%nat; try change (Z.to_nat PGSIZE) with 4096%nat; lia).
    change (4 * Z.to_nat (PGSIZE / 4))%nat with (Z.to_nat PGSIZE). rewrite drop_ge by lia. by rewrite app_nil_r.
  - unfold PGSIZE in Ha. unfold s32. rewrite u32_small by done.
    case_bool_decide; [rewrite Z.rem_mod_nonneg by lia|rewrite <- (Z.opp_involutive (a - 2 ^ 32)), Z.rem_opp_l, Z.rem_mod_nonneg by lia];
      (apply Z.mod_divide in Ha; [|done]); destruct Ha as [k ->].
    + apply Z.mod_divide; [done|]. exists (k * 1024). lia.
    + apply Z.eq_opp_l. cbn. apply Z.mod_divide; [done|]. exists (2 ^ 30 - k * 1024). lia.
Qed.

Lemma wp_memset_page (Q : unit -> T -> Prop) s a c d :
  a mod PGSIZE = 0 -> 0 <= a < 2 ^ 32 -> 0 <= c < 256 -> ram (mem s) !! a = Some d -> length d = Z.to_nat PGSIZE ->
  Q tt (set_mem (set_ram (<[a := replicate (Z.to_nat PGSIZE) c]> (ram (mem s))) (mem s)) s) ->
  wp (memset_page a c) Q s.
Proof.
  intros Ha Hr Hc Hd Hl HQ. unfold memset_page. wp_step. eapply wp_load_page; [done|]. wp_step.
  eapply wp_of_option; [by apply memset_page_spec|]. unfold store_page. by wp_steps.
Qed.

Lemma mstep_refl s : mach_ok (mach s) -> mstep s s.
Proof.
  intros Hok. exists (mach s), (mem s). rewrite set_mem_id, set_mach_id. split; [done|by apply msame_refl].
Qed.
Lemma mstep_trans s1 s2 s3 : mstep s1 s2 -> mstep s2 s3 -> mstep s1 s3.
Proof.
  intros (m & x & -> & Hm) (m' & x' & -> & Hm'). rewrite mach_set in Hm'. exists m', x'.
  rewrite set_mem_mach, set_mach_set, set_mem_set. split; [done|by eapply msame_trans].
Qed.
Lemma mstep_msame s s' : mstep s s' -> msame (mach s) (mach s').
Proof. intros (m & x & -> & Hm). by rewrite mach_set. Qed.
Lemma mstep_mem s x : mach_ok (mach s) -> mstep s (set_mem x s).
Proof.
  intros Hok. exists (mach s), x. rewrite <- (mach_set_mem x s) at 1. rewrite set_mach_id.
  split; [done|by apply msame_refl].
Qed.

(** [kalloc] takes the first page of the list; its content is left alone. *)
Lemma wp_kalloc (Q : Z -> T -> Prop) s fl : kmem_rep kend s fl ->
  (forall s', mstep s s' -> ram (mem s') = ram (mem s) ->
     match fl with
     | [] => kmem_rep kend s' [] -> Q 0 s'
     | p :: fl' => kmem_rep kend s' fl' -> Q p s'
     end) ->
  wp kalloc Q s.
Proof.
  intros Hk HQ. unfold kalloc. wp_steps. apply wp_lock_if; [apply Hk..|]. intros m1 Hin. wp_steps.
  rewrite mem_set_mach. destruct Hk as [Hok Hf Hl Hnd Hfr]. 
  assert (forall m x s', msame (mach s) m -> s' = set_mach m (set_mem x s) ->
    mstep s s' /\ mach_ok (mach s') /\ lock_free (mach s') LKmem) as Hstep.
  { intros m x s' Hm ->. rewrite mach_set. split_and!; [by exists m, x|apply Hm|by eapply msame_free]. }
  destruct fl as [|p fl].
  - cbn in Hl. rewrite Hl, c_bool_0. wp_steps. rewrite mem_set_mach.
    eapply wp_unlock_if; [done|done|by rewrite mach_set|]. intros m2 Hm2. wp_steps.
    rewrite set_mach_set. destruct (Hstep m2 (mem s) (set_mach m2 s) Hm2) as (H1' & H2' & H3'); [by rewrite set_mem_id|].
    apply HQ; [done|by rewrite mem_set_mach|]. split; rewrite ?mem_set_mach; done.
  - destruct Hl as (-> & d & Hd & Hlen & Hl). apply NoDup_cons in Hnd as [Hnp Hnd].
    apply Forall_cons in Hfr as [Hp Hfr]. rewrite c_bool_nz by (by apply frame_nz). wp_steps.
    unfold load32. wp_step. rewrite page_of_frame by apply Hp.
    eapply wp_load_page; [by rewrite mem_set_mach|]. wp_steps. unfold upd_kmem. wp_steps. rewrite mem_set_mach, mem_set. cbn [use_lock].
    eapply wp_unlock_if; [done|done|by rewrite mach_set_mem, mach_set|]. intros m2 Hm2. wp_steps.
    rewrite set_mem_mach, set_mach_set. set (x := Memory _ _ _).
    destruct (Hstep m2 x _ Hm2 eq_refl) as (H1' & H2' & H3').
    apply HQ; [done|by rewrite mem_set_mach, mem_set|]. split; rewrite ?mem_set_mach, ?mem_set; try done.
    unfold x. cbn. rewrite (proj1 Hp). done.
Qed.

Lemma set32_0_drop d v : length d = Z.to_nat PGSIZE -> length (set32 d 0 v) = Z.to_nat PGSIZE.
Proof. intros Hd. rewrite length_set32; [done|]. rewrite Hd. unfold PGSIZE. lia. Qed.

(** [kfree] puts a page that is not free at the front of the list. *)
Lemma wp_kfree (Q : unit -> T -> Prop) s fl p d : kmem_rep kend s fl -> frame_ok kend p -> p ∉ fl ->
  ram (mem s) !! p = Some d -> length d = Z.to_nat PGSIZE ->
  (forall s', mstep s s' -> (forall a, a <> p -> ram (mem s') !! a = ram (mem s) !! a) ->
     kmem_rep kend s' (p :: fl) -> Q tt s') ->
  wp (kfree kend p) Q s.
Proof.
  intros [Hok Hf Hl Hnd Hfr] Hp Hnp Hd Hlen HQ. pose proof Hp as [Hal Hrng]. unfold kfree.
  assert (0 <= p < 2 ^ 32) as Hp32 by (unfold KERNBASE, PHYSTOP in *; lia).
  rewrite (u32_small p) by done. rewrite frame_V2P by done.
  rewrite (bool_decide_eq_true_2 (p mod PGSIZE = 0)), (bool_decide_eq_false_2 (p < kend)),
    (bool_decide_eq_false_2 (PHYSTOP <= p - KERNBASE)) by lia. cbn [negb orb]. wp_step.
  eapply wp_memset_page; [done|done|lia|done|done|]. set (s1 := set_mem _ s). wp_steps.
  assert (mach s1 = mach s) as Em by apply mach_set_mem.
  apply wp_lock_if; [by rewrite Em..|]. intros m1 Hin. rewrite Em in Hin. wp_steps. rewrite mem_set_mach.
  unfold store32. wp_step. rewrite page_of_frame by done.
  eapply wp_load_page; [rewrite mem_set_mach; unfold s1; rewrite mem_set; apply lookup_insert_eq|].
  unfold store_page, upd_kmem. wp_steps. rewrite !mem_set, !mem_set_mach. cbn [use_lock set_ram ram].
  eapply wp_unlock_if; [exact Hok|exact Hf|by rewrite !mach_set_mem, mach_set|]. intros m2 Hm2.
  rewrite set_mem_set, set_mem_mach, set_mach_set. unfold s1. rewrite set_mem_set, mem_set. cbn [ram set_ram use_lock freelist].
  rewrite insert_insert, decide_True by done. apply HQ.
  - eexists _, _. split; [reflexivity|done].
  - intros a Ha. rewrite mem_set_mach, mem_set. cbn. by rewrite lookup_insert_ne.
  - split; rewrite ?mem_set_mach, ?mach_set, ?mem_set; [apply Hm2|by eapply msame_free| |by constructor|by constructor].
    cbn [ram freelist flist]. rewrite Hal. split; [done|]. eexists. rewrite lookup_insert_eq. split; [done|].
    rewrite set32_0_drop by (by rewrite length_replicate). split; [done|].
    change (Z.to_nat 0) with 0%nat. rewrite get_set32 by (rewrite length_replicate; unfold PGSIZE; lia).
    apply (flist_ext (ram (mem s))).
    + rewrite u32_small; [done|]. destruct fl as [|q fl]; cbn in Hl; [lia|]. destruct Hl as [-> _].
      apply Forall_cons in Hfr as [[_ Hq] _]. unfold KERNBASE, PHYSTOP in *. lia.
    + intros q Hq. rewrite lookup_insert_ne; [done|]. set_solver.
Qed.
End kmem_specs.

(** ** freerange and the boot of the allocator *)

(** The [n] pages from [p], the last first. *)
Fixpoint pages_down (n : nat) (p : Z) : list Z :=
  match n with O => [] | S n' => pages_down n' (p + PGSIZE) ++ [p] end.

Section freerange_specs.
Context {T : Type} `{HasMem T}.
Variable kend : Z.
Hypothesis kend_ok : KERNBASE < kend.
Implicit Types (s : T) (fl : list Z).

Lemma elem_of_pages_down n p a : a ∈ pages_down n p -> exists k, 0 <= k < Z.of_nat n /\ a = p + k * PGSIZE.
Proof.
  revert p. induction n as [|n IH]; intros p; cbn [pages_down]; [by intros ?%not_elem_of_nil|].
  intros [(k & Hk & ->)%IH|Ha%list_elem_of_singleton]%elem_of_app.
  - exists (k + 1). split; lia.
  - exists 0. subst a. split; lia.
Qed.

(** The pages of a range are on the list afterwards, whatever was there. *)
Lemma wp_freerange_loop n : forall s fl p vend (Q : unit -> T -> Prop), kmem_rep kend s fl -> p mod PGSIZE = 0 ->
  kend <= p -> p + Z.of_nat n * PGSIZE <= KERNBASE + PHYSTOP -> 
  p + Z.of_nat n * PGSIZE <= vend < p + (Z.of_nat n + 1) * PGSIZE ->
  (forall a, a ∈ pages_down n p -> a ∉ fl /\ exists d, ram (mem s) !! a = Some d /\ length d = Z.to_nat PGSIZE) ->
  (forall s', mstep s s' -> (forall a, a ∉ pages_down n p -> ram (mem s') !! a = ram (mem s) !! a) ->
     kmem_rep kend s' (pages_down n p ++ fl) -> Q tt s') ->
  wp (freerange_loop kend n p vend) Q s.
Proof.
  induction n as [|n IH]; intros s fl p vend Q Hk Hp Hlo Hhi Hend Hpg HQ; cbn [freerange_loop pages_down] in *;
    rewrite (u32_small (p + PGSIZE)) by (unfold KERNBASE, PHYSTOP, PGSIZE in *; lia).
  - rewrite bool_decide_eq_false_2 by (unfold PGSIZE in *; lia). wp_step. apply HQ; [by apply mstep_refl, Hk|done|done].
  - rewrite bool_decide_eq_true_2 by (unfold PGSIZE in *; lia). wp_step. assert (PGSIZE = 4096) as Epg by done.
    destruct (Hpg p) as (Hnp & d & Hd & Hl); [set_solver|].
    assert (frame_ok kend p) as Hfp by (split; [done|lia]).
    eapply wp_kfree; [done|done|done|done|done|done|]. intros s1 Hs1 Hr1 Hk1.
    apply (IH s1 (p :: fl) (p + PGSIZE) vend).
    + done.
    + rewrite Epg, <- Z.add_mod_idemp_r, Z.mod_same, Z.add_0_r by done. by rewrite <- Epg.
    + lia.
    + lia.
    + lia.
    + intros a Ha. destruct (Hpg a) as (Hna & d' & Hd' & Hl'); [set_solver|].
      assert (a <> p) by (intros ->; apply elem_of_pages_down in Ha as (k & Hk0 & Hkp); lia).
      split; [set_solver|]. exists d'. by rewrite Hr1.
    + intros s2 Hs2 Hr2 Hk2. apply HQ; [by eapply mstep_trans| |by rewrite <- app_assoc].
      intros a Ha. rewrite Hr2, Hr1; [done| |]; set_solver.
Qed.

Lemma wp_freerange s fl vstart vend p n (Q : unit -> T -> Prop) : kmem_rep kend s fl ->
  PGROUNDUP vstart = p -> p mod PGSIZE = 0 -> Z.of_nat n = (vend - p) / PGSIZE ->
  kend <= p -> vend <= KERNBASE + PHYSTOP ->
  (forall a, a ∈ pages_down n p -> a ∉ fl /\ exists d, ram (mem s) !! a = Some d /\ length d = Z.to_nat PGSIZE) ->
  (forall s', mstep s s' -> (forall a, a ∉ pages_down n p -> ram (mem s') !! a = ram (mem s) !! a) ->
     kmem_rep kend s' (pages_down n p ++ fl) -> Q tt s') ->
  wp (freerange kend vstart vend) Q s.
Proof.
  intros Hk Hup Hp Hn Hlo Hhi Hpg HQ. unfold freerange. rewrite Hup, <- Hn, Nat2Z.id.
  assert (PGSIZE = 4096) as Epg by done. pose proof (Z.div_mod (vend - p) PGSIZE ltac:(done)).
  pose proof (Z.mod_pos_bound (vend - p) PGSIZE ltac:(done)).
  apply (wp_freerange_loop n s fl); try done; lia.
Qed.
End freerange_specs.

(** ** Clients of the allocator *)

Section clients.
Context {T : Type} `{HasMem T}.
Variable kend : Z.
Hypothesis kend_ok : KERNBASE < kend.

(** A state, and the pages its clients own: a call of [kalloc], a call of
    [kfree] on a page that is owned, or a store into such a page. *)
Inductive kstep : T * gset Z -> T * gset Z -> Prop :=
| kstep_alloc s s' (p : Z) X : kalloc s = Ok p s' -> kstep (s, X) (s', if decide (p = 0) then X else {[p]} ∪ X)
| kstep_free s s' (p : Z) X : p ∈ X -> kfree kend p s = Ok tt s' -> kstep (s, X) (s', X ∖ {[p]})
| kstep_store s (p : Z) d X : p ∈ X -> length d = Z.to_nat PGSIZE ->
    kstep (s, X) (set_mem (set_ram (<[p := d]> (ram (mem s))) (mem s)) s, X).

(** All pages are free or owned, and none is both. *)
Record kinv (all : gset Z) (s : T) (X : gset Z) (fl : list Z) : Prop := {
  ki_rep : kmem_rep kend s fl;
  ki_all : list_to_set fl ∪ X = all;
  ki_disj : list_to_set fl ## X;
  ki_own : forall p : Z, p ∈ X -> frame_ok kend p /\ exists d, ram (mem s) !! p = Some d /\ length d = Z.to_nat PGSIZE
}.

Lemma kstep_inv all s X s' X' fl : kstep (s, X) (s', X') -> kinv all s X fl -> exists fl', kinv all s' X' fl'.
Proof.
  intros Hst [Hk Ha Hd Ho]. inversion Hst as [? ? p ? Hrun|? ? p ? Hp Hrun|? p d ? Hp Hl]; subst.
  - assert (wp kalloc (fun r s1 => exists fl', kinv (list_to_set fl ∪ X) s1 (if decide (r = 0) then X else {[r]} ∪ X) fl') s) as Hwp.
    { eapply wp_kalloc; [done|done|]. intros s1 Hs1 Hr1. destruct fl as [|q fl]; intros Hk1.
      - exists []. split; [done|done|done|]. by rewrite Hr1.
      - pose proof (kr_frames _ _ _ Hk) as Hfr. apply Forall_cons in Hfr as [Hq _].
        pose proof (kr_nodup _ _ _ Hk) as Hnd. apply NoDup_cons in Hnd as [Hnq _].
        destruct (flist_page _ _ _ q (kr_list _ _ _ Hk) ltac:(set_solver)) as (d & Hq1 & Hq2).
        exists fl. rewrite decide_False by (by eapply frame_nz).
        split; [done|set_solver|set_solver|]. rewrite Hr1. intros p1 [E%elem_of_singleton|Hp1]%elem_of_union; [subst p1|]; eauto. }
    unfold wp in Hwp. by rewrite Hrun in Hwp.
  - destruct (Ho p Hp) as (Hfp & d & Hd1 & Hl1).
    assert (wp (kfree kend p) (fun _ s1 => exists fl', kinv (list_to_set fl ∪ X) s1 (X ∖ {[p]}) fl') s) as Hwp.
    { eapply (wp_kfree kend kend_ok _ s fl p d); [done|done|set_solver|done|done|]. intros s1 Hs1 Hr1 Hk1.
      exists (p :: fl). split; [done| |set_solver|].
      - cbn. apply set_eq. intros a. destruct (decide (a = p)); set_solver.
      - intros p' [Hp' Hne%not_elem_of_singleton]%elem_of_difference. rewrite Hr1 by done. by apply Ho. }
    unfold wp in Hwp. by rewrite Hrun in Hwp.
  - exists fl. split; [|done|done|].
    + destruct Hk as [K1 K2 K3 K4 K5]. split; rewrite ?mach_set_mem, ?mem_set; try done. cbn [ram freelist set_ram].
      apply (flist_ext (ram (mem s))); [done|]. intros q Hq. rewrite lookup_insert_ne; [done|]. set_solver.
    + rewrite mem_set. cbn [ram set_ram]. intros q Hq. destruct (Ho q Hq) as [Hf He]. split; [done|].
      destruct (decide (p = q)) as [->|]; [rewrite lookup_insert_eq; eauto|by rewrite lookup_insert_ne].
Qed.

Lemma ksteps_inv all y y' : rtc kstep y y' -> (exists fl, kinv all y.1 y.2 fl) -> exists fl, kinv all y'.1 y'.2 fl.
Proof.
  induction 1 as [|[s X] [s1 X1] y3 Hst _ IH]; [done|]. intros [fl Hi]. apply IH. by eapply kstep_inv.
Qed.
End clients.

(** ** Properties *)

Section theorems.
Context {T : Type} `{HasMem T}.

(** C23: whatever calls of [kalloc] and [kfree] and stores its clients have
    made, each freeing only pages it owns, [kalloc] returns; it returns a page
    that nobody owns, or 0 when every page is owned. *)
Theorem kalloc_exclusive kend all (s s' : T) X X' fl : KERNBASE < kend ->
  kinv kend all s X fl -> rtc (kstep kend) (s, X) (s', X') ->
  exists p s'', kalloc s' = Ok p s'' /\
    (p <> 0 -> p ∈ all /\ p ∉ X' /\ frame_ok kend p) /\ (p = 0 -> X' = all).
Proof.
  intros He Hi Hst. destruct (ksteps_inv kend He all _ _ Hst) as [fl' [Hk Ha Hd _]]; [by exists fl|]. cbn in *.
  apply wp_ok. eapply (wp_kalloc kend He _ s' fl'); [done|]. intros s1 _ _. destruct fl' as [|p fl']; intros _.
  - split; [done|]. intros _. set_solver.
  - pose proof (kr_frames _ _ _ Hk) as [Hp _]%Forall_cons. split; [set_solver|]. intros E. by apply (frame_nz kend He) in Hp.
Qed.

(** [kinit1] and [kinit2] put the pages of their two ranges on the list,
    each once, and leave the allocator using its lock. *)
Theorem kinit_correct kend (s : T) v1 e1 p1 n1 v2 e2 p2 n2 : KERNBASE < kend ->
  mach_ok (mach s) -> freelist (mem s) = 0 ->
  PGROUNDUP v1 = p1 -> p1 mod PGSIZE = 0 -> Z.of_nat n1 = (e1 - p1) / PGSIZE -> kend <= p1 -> e1 <= p2 ->
  PGROUNDUP v2 = p2 -> p2 mod PGSIZE = 0 -> Z.of_nat n2 = (e2 - p2) / PGSIZE -> kend <= p2 -> e2 <= KERNBASE + PHYSTOP ->
  p2 <= KERNBASE + PHYSTOP ->
  (forall a, a ∈ pages_down n2 p2 ++ pages_down n1 p1 -> exists d, ram (mem s) !! a = Some d /\ length d = Z.to_nat PGSIZE) ->
  wp (kinit1 kend v1 e1 ;; kinit2 kend v2 e2)
    (fun _ s' => kmem_rep kend s' (pages_down n2 p2 ++ pages_down n1 p1) /\ use_lock (mem s') = 1) s.
Proof.
  intros He Hok Hf Hu1 Ha1 Hn1 Hk1 He1 Hu2 Ha2 Hn2 Hk2 He2 Hp2 Hpg. unfold kinit1, kinit2, onm. wp_step. wp_steps.
  unfold upd_kmem. wp_steps. set (s1 := set_mem _ _). assert (PGSIZE = 4096) as Epg by done.
  assert (forall a, a ∈ pages_down n1 p1 -> a < p2) as Hlt.
  { intros a (k & Hk & ->)%elem_of_pages_down. pose proof (Z.div_mod (e1 - p1) PGSIZE ltac:(done)).
    pose proof (Z.mod_pos_bound (e1 - p1) PGSIZE ltac:(done)). rewrite Epg in *. lia. }
  assert (mem s1 = Memory (ram (mem s)) 0 0) as Em1.
  { unfold s1. rewrite mem_set, mem_set_mach. by rewrite <- Hf. }
  assert (kmem_rep kend s1 []) as Hr1.
  { split; rewrite ?Em1; [| |done|apply NoDup_nil_2|apply Forall_nil_2]; unfold s1; rewrite mach_set_mem, mach_set; [apply Hok|].
    unfold lock_free. by rewrite lock_of_set, decide_True. }
  eapply (wp_freerange kend He s1 [] v1 e1 p1 n1); [done..|lia| |].
  { intros a Ha. split; [set_solver|]. rewrite Em1. apply Hpg. set_solver. }
  intros s2 Hs2 Hram2 Hr2. wp_steps. eapply (wp_freerange kend He s2 _ v2 e2 p2 n2); [done..| |].
  { intros a Ha. split.
    - intros Hin. rewrite app_nil_r in Hin. apply Hlt in Hin. apply elem_of_pages_down in Ha as (k & ? & ->).
      rewrite Epg in *. lia.
    - rewrite Hram2, Em1; [apply Hpg; set_solver|]. intros Hin%Hlt.
      apply elem_of_pages_down in Ha as (k & ? & ->). rewrite Epg in *. lia. }
  intros s3 Hs3 Hram3 Hr3. wp_steps. rewrite app_nil_r in Hr3.
  destruct Hr3 as [K1 K2 K3 K4 K5]. rewrite mem_set. split; [|done]. split; rewrite ?mach_set_mem, ?mem_set; done.
Qed.
End theorems.

(** ** An example *)

#[export] Instance pair_machine : HasMachine (machine * memory) := {|
  mach := fst; set_mach m s := (m, s.2);
  mach_set := fun m s => eq_refl; set_mach_set := fun m m' s => eq_refl;
  set_mach_id := fun s => match s with (m, x) => eq_refl end
|}.
#[export] Instance pair_mem : HasMem (machine * memory) := {|
  mem := snd; set_mem x s := (s.1, x);
  mem_set := fun x s => eq_refl; set_mem_set := fun x y s => eq_refl;
  set_mem_id := fun s => match s with (m, x) => eq_refl end;
  mach_set_mem := fun x s => eq_refl; set_mem_mach := fun x m s => eq_refl
|}.

(** One processor in the boot sequence; four pages after the kernel. *)
Definition kx_end : Z := 0x80115000.
Definition kx_mach : machine := Machine false 0 [Cpu 0 0 false None] ∅ ∅ [].
Definition kx_pages : list Z := [0x80116000; 0x80117000; 0x80118000; 0x80119000].
Definition kx_ram : gmap Z (list Z) := list_to_map ((fun a => (a, replicate 4096 0)) <$> kx_pages).
Definition kx : machine * memory := (kx_mach, Memory kx_ram 0 0).

Lemma kx_mach_ok : mach_ok kx_mach.
Proof. split; done. Qed.
Lemma kx_ram_page a : a ∈ kx_pages -> kx_ram !! a = Some (replicate 4096 0).
Proof. intros Ha. unfold kx_pages in Ha. repeat (apply elem_of_cons in Ha as [->|Ha]; [done|]). by apply not_elem_of_nil in Ha. Qed.

(** The four pages are linked in their order, nobody owns one. *)
Definition kx_ready : machine * memory := (kx_mach,
  Memory (list_to_map ((fun a => (a, set32 (replicate 4096 0) 0 (if decide (a = 0x80119000) then 0 else a + 4096))) <$> kx_pages)) 1 0x80116000).

Lemma kx_ready_rep : kmem_rep kx_end kx_ready kx_pages.
Proof.
  split; [apply kx_mach_ok|done| |apply (bool_decide_unpack _); vm_compute; done|].
  - cbn -[set32 replicate]. repeat (split; [done|]; eexists; split; [done|]; split; [done|]). done.
  - repeat (constructor; [split; [done|vm_compute; split; congruence]|]). constructor.
Qed.

Lemma kalloc_exclusive_witness : exists p s'', kalloc kx_ready = Ok p s'' /\
  (p <> 0 -> p ∈ (list_to_set kx_pages : gset Z) /\ p ∉ (∅ : gset Z) /\ frame_ok kx_end p) /\
  (p = 0 -> (∅ : gset Z) = list_to_set kx_pages).
Proof.
  apply (kalloc_exclusive kx_end (list_to_set kx_pages) kx_ready kx_ready ∅ ∅ kx_pages).
  - vm_compute. congruence.
  - split; [apply kx_ready_rep|by rewrite union_empty_r_L|apply disjoint_empty_r|by intros q Hq%not_elem_of_empty].
  - apply rtc_refl.
Defined.
