(* ===== verification/Vm.v ===== *)
(** * Virtual memory

    [vm.c]: two-level page tables.  A page directory or a page table is a
    page of 1024 little-endian words in [ram]; [walkpgdir] returns the address
    of an entry, 0 for none.  The address [data] of the kernel's data section
    is set by the linker, and a parameter as [end] is.  [loaduvm], which reads a file, is in
    [Exec]. *)

From S2P Require Import Prelude Bytes Params Machine BlockCache CString Kalloc.
Local Open Scope Z_scope.

(** ** mmu.h *)
Definition PTXSHIFT : Z := 12.
Definition PDXSHIFT : Z := 22.
Definition PDX (va : Z) : Z := Z.land (Z.shiftr (u32 va) PDXSHIFT) 0x3FF.
Definition PTX (va : Z) : Z := Z.land (Z.shiftr (u32 va) PTXSHIFT) 0x3FF.
Definition PGADDR (d t o : Z) : Z := u32 (Z.lor (Z.lor (Z.shiftl d PDXSHIFT) (Z.shiftl t PTXSHIFT)) o).
Definition NPDENTRIES : nat := 1024.
Definition PTE_P : Z := 1.
Definition PTE_W : Z := 2.
Definition PTE_U : Z := 4.
Definition PTE_ADDR (pte : Z) : Z := Z.land (u32 pte) (u32 (Z.lnot 0xFFF)).
Definition PTE_FLAGS (pte : Z) : Z := Z.land (u32 pte) 0xFFF.

Section vm.
Context {T : Type} `{HasMem T}.
Variables kend kdata : Z.

Definition walkpgdir (pgdir va : Z) (alloc : bool) : M T Z :=
  let pde := pgdir + 4 * PDX va in
  w ← load32 pde;
  if c_bool (Z.land w PTE_P) then mret (P2V (PTE_ADDR w) + 4 * PTX va) else
  if negb alloc then mret 0 else
  pgtab ← kalloc;
  if pgtab =z 0 then mret 0 else
  memset_page pgtab 0 ;;
  store32 pde (Z.lor (Z.lor (Z.lor (V2P pgtab) PTE_P) PTE_W) PTE_U) ;;
  mret (pgtab + 4 * PTX va).

(** The loop of [mappages], from [a] to [last]. *)
Fixpoint mappages_loop (n : nat) (pgdir a last pa perm : Z) : M T Z :=
  match n with
  | O => fault "mappages"
  | S n' =>
      pte ← walkpgdir pgdir a true;
      if pte =z 0 then mret (-1) else
      w ← load32 pte;
      if c_bool (Z.land w PTE_P) then panic "remap" else
      store32 pte (Z.lor (Z.lor pa perm) PTE_P) ;;
      if a =z last then mret 0
      else mappages_loop n' pgdir (u32 (a + PGSIZE)) last (u32 (pa + PGSIZE)) perm
  end.
Definition mappages (pgdir va size pa perm : Z) : M T Z :=
  let a := PGROUNDDOWN va in
  let last := PGROUNDDOWN (u32 va + size - 1) in
  mappages_loop (S (Z.to_nat (u32 (last - a) / PGSIZE))) pgdir a last pa perm.

(** The loop of [deallocuvm]; an absent page table is skipped as a whole. *)
Fixpoint deallocuvm_loop (n : nat) (pgdir a oldsz : Z) : M T unit :=
  if a <z oldsz then
    match n with
    | O => fault "deallocuvm"
    | S n' =>
        pte ← walkpgdir pgdir a false;
        if pte =z 0 then
          let a := u32 (PGADDR (PDX a + 1) 0 0 - PGSIZE) in
          deallocuvm_loop n' pgdir (u32 (a + PGSIZE)) oldsz
        else
          w ← load32 pte;
          when (c_bool (Z.land w PTE_P))
            (let pa := PTE_ADDR w in
             if pa =z 0 then panic "kfree" else
             kfree kend (P2V pa) ;;
             store32 pte 0) ;;
          deallocuvm_loop n' pgdir (u32 (a + PGSIZE)) oldsz
    end
  else mret tt.
Definition deallocuvm (pgdir oldsz newsz : Z) : M T Z :=
  if oldsz <=z newsz then mret oldsz else
  let a := PGROUNDUP newsz in
  deallocuvm_loop (Z.to_nat ((oldsz - a + PGSIZE - 1) / PGSIZE)) pgdir a oldsz ;;
  mret newsz.

Definition freevm (pgdir : Z) : M T unit :=
  if pgdir =z 0 then panic "freevm: no pgdir" else
  deallocuvm pgdir KERNBASE 0 ;;
  for_loop NPDENTRIES 0 (fun i =>
    w ← load32 (pgdir + 4 * i);
    when (c_bool (Z.land w PTE_P)) (kfree kend (P2V (PTE_ADDR w)))) ;;
  kfree kend pgdir.

(** [struct kmap] and the table of the kernel's mappings. *)
Record kmap_entry := Kmap { k_virt : Z; k_start : Z; k_end : Z; k_perm : Z }.
Definition kmap : list kmap_entry := [
  Kmap KERNBASE 0 EXTMEM PTE_W;
  Kmap KERNLINK (V2P KERNLINK) (V2P kdata) 0;
  Kmap kdata (V2P kdata) PHYSTOP PTE_W;
  Kmap DEVSPACE DEVSPACE 0 PTE_W
].

Fixpoint setupkvm_loop (pgdir : Z) (ks : list kmap_entry) : M T Z :=
  match ks with
  | [] => mret pgdir
  | k :: ks' =>
      r ← mappages pgdir (k_virt k) (u32 (k_end k - k_start k)) (k_start k) (k_perm k);
      if r <z 0 then freevm pgdir ;; mret 0
      else setupkvm_loop pgdir ks'
  end.
Definition setupkvm : M T Z :=
  pgdir ← kalloc;
  if pgdir =z 0 then mret 0 else
  memset_page pgdir 0 ;;
  if DEVSPACE <z P2V PHYSTOP then panic "PHYSTOP too high" else
  setupkvm_loop pgdir kmap.

(** [memmove] of [n] bytes of a kernel buffer to an address in a page. *)
Definition memmove_to (dst : Z) (src : list Z) (n : Z) : M T unit :=
  d ← load_page (page_of dst);
  if (Z.of_nat (length src) <z n) || (PGSIZE <z dst mod PGSIZE + n) then fault "memmove" else
  store_page (page_of dst) (splice (Z.to_nat (dst mod PGSIZE)) (take (Z.to_nat n) src) d).
(** [memmove] of a page to a page. *)
Definition memmove_page (dst src : Z) : M T unit :=
  d ← load_page src;
  _ ← load_page dst;
  store_page dst d.

Definition inituvm (pgdir : Z) (init : list Z) (sz : Z) : M T unit :=
  if PGSIZE <=z sz then panic "inituvm: more than a page" else
  mem ← kalloc;
  memset_page mem 0 ;;
  mappages pgdir 0 PGSIZE (V2P mem) (Z.lor PTE_W PTE_U) ;;
  memmove_to mem init sz.

(** The loop of [allocuvm] from [a]; 0 after an error, [newsz] otherwise.  The
    messages on the console, one for each error, are not modelled. *)
Fixpoint allocuvm_loop (n : nat) (pgdir oldsz a newsz : Z) : M T Z :=
  if a <z newsz then
    match n with
    | O => fault "allocuvm"
    | S n' =>
        mem ← kalloc;
        if mem =z 0 then deallocuvm pgdir newsz oldsz ;; mret 0 else
        memset_page mem 0 ;;
        r ← mappages pgdir a PGSIZE (V2P mem) (Z.lor PTE_W PTE_U);
        if r <z 0 then
          deallocuvm pgdir newsz oldsz ;;
          kfree kend mem ;;
          mret 0
        else allocuvm_loop n' pgdir oldsz (u32 (a + PGSIZE)) newsz
    end
  else mret newsz.
Definition allocuvm (pgdir oldsz newsz : Z) : M T Z :=
  if KERNBASE <=z newsz then mret 0 else
  if newsz <z oldsz then mret oldsz else
  let a := PGROUNDUP oldsz in
  allocuvm_loop (Z.to_nat ((newsz - a + PGSIZE - 1) / PGSIZE)) pgdir oldsz a newsz.

Definition clearpteu (pgdir uva : Z) : M T unit :=
  pte ← walkpgdir pgdir uva false;
  if pte =z 0 then panic "clearpteu" else
  w ← load32 pte;
  store32 pte (Z.land w (u32 (Z.lnot PTE_U))).

(** The loop of [copyuvm] from address [i]; true when all pages are copied. *)
Fixpoint copyuvm_loop (n : nat) (pgdir d i sz : Z) : M T bool :=
  if i <z sz then
    match n with
    | O => fault "copyuvm"
    | S n' =>
        pte ← walkpgdir pgdir i false;
        if pte =z 0 then panic "copyuvm: pte should exist" else
        w ← load32 pte;
        if negb (c_bool (Z.land w PTE_P)) then panic "copyuvm: page not present" else
        let pa := PTE_ADDR w in
        let flags := PTE_FLAGS w in
        mem ← kalloc;
        if mem =z 0 then mret false else
        memmove_page mem (P2V pa) ;;
        r ← mappages d i PGSIZE (V2P mem) flags;
        if r <z 0 then kfree kend mem ;; mret false
        else copyuvm_loop n' pgdir d (u32 (i + PGSIZE)) sz
    end
  else mret true.
Definition copyuvm (pgdir sz : Z) : M T Z :=
  d ← setupkvm;
  if d =z 0 then mret 0 else
  ok ← copyuvm_loop (Z.to_nat ((sz + PGSIZE - 1) / PGSIZE)) pgdir d 0 sz;
  if (ok : bool) then mret d
  else freevm d ;; mret 0.

Definition uva2ka (pgdir uva : Z) : M T Z :=
  pte ← walkpgdir pgdir uva false;
  w ← load32 pte;
  if Z.land w PTE_P =z 0 then mret 0 else
  if Z.land w PTE_U =z 0 then mret 0 else
  mret (P2V (PTE_ADDR w)).

(** The loop of [copyout]: [buf] are the bytes from the pointer [buf]. *)
Fixpoint copyout_loop (n : nat) (pgdir va : Z) (buf : list Z) (len : Z) : M T Z :=
  if 0 <z len then
    match n with
    | O => fault "copyout"
    | S n' =>
        let va0 := PGROUNDDOWN va in
        pa0 ← uva2ka pgdir va0;
        if pa0 =z 0 then mret (-1) else
        let n := u32 (PGSIZE - (va - va0)) in
        let n := if len <z n then len else n in
        memmove_to (pa0 + (va - va0)) buf n ;;
        copyout_loop n' pgdir (u32 (va0 + PGSIZE)) (drop (Z.to_nat n) buf) (u32 (len - n))
    end
  else mret 0.
Definition copyout (pgdir va : Z) (p : list Z) (len : Z) : M T Z :=
  copyout_loop (S (Z.to_nat (len / PGSIZE + 1))) pgdir va p len.
End vm.
