(* ===== verification/VmRep.v ===== *)
(** * Address spaces

    What a page directory in memory means: the page tables it refers to and
    the entries in them, as finite maps, with every page of it accounted for.
    [walkpgdir] and [mappages] against that meaning. *)

From S2P Require Import Prelude Bytes Params Machine BlockCache CString Kalloc Vm.
Local Open Scope Z_scope.

(** ** Addresses and entries *)

Section bits.
Implicit Types (x a n f : Z).

Lemma land_page_mask x : 0 <= x < 2 ^ 32 -> Z.land x 0xFFFFF000 = x - x mod PGSIZE.
Proof.
  intros Hx. transitivity (Z.ldiff x (Z.ones 12)).
  - apply Z.bits_inj'. intros n Hn. rewrite Z.land_spec, Z.ldiff_spec.
    change 0xFFFFF000 with (Z.shiftl (Z.ones 20) 12).
    destruct (decide (n < 12)) as [Hlt|Hge].
    { rewrite Z.shiftl_spec_low, Z.ones_spec_low by lia. by rewrite !andb_false_r. }
    rewrite Z.shiftl_spec, (Z.ones_spec_high 12) by lia. destruct (decide (n < 32)).
    + by rewrite Z.ones_spec_low by lia.
    + rewrite Z.ones_spec_high by lia. replace (Z.testbit x n) with false; [done|]. symmetry.
      destruct (decide (x = 0)) as [->|]; [by rewrite Z.bits_0|]. apply Z.bits_above_log2; [lia|].
      pose proof (proj1 (Z.log2_lt_pow2 x 32 ltac:(lia)) ltac:(lia)). lia.
  - rewrite Z.ldiff_ones_r by lia. rewrite Z.shiftl_mul_pow2, Z.shiftr_div_pow2 by lia.
    unfold PGSIZE. change (2 ^ 12) with 4096. pose proof (Z.div_mod x 4096 ltac:(lia)). lia.
Qed.

Lemma lor_page a f : a mod PGSIZE = 0 -> 0 <= f < PGSIZE -> Z.lor a f = a + f.
Proof.
  intros Ha Hf. assert (Z.land a f = 0) as Hz.
  { apply Z.bits_inj'. intros n Hn. rewrite Z.land_spec, Z.bits_0.
    destruct (decide (n < 12)) as [Hlt|Hge].
    - apply Z.mod_divide in Ha as [k ->]; [|done]. change (k * PGSIZE) with (k * 2 ^ 12).
      by rewrite Z.mul_pow2_bits_low.
    - replace (Z.testbit f n) with false; [apply andb_false_r|]. symmetry.
      destruct (decide (f = 0)) as [->|]; [by rewrite Z.bits_0|]. apply Z.bits_above_log2; [lia|].
      unfold PGSIZE in *. pose proof (proj1 (Z.log2_lt_pow2 f 12 ltac:(lia)) ltac:(lia)). lia. }
  by rewrite Z.add_nocarry_lxor, Z.lxor_lor.
Qed.

Lemma page_mod_add a f : a mod PGSIZE = 0 -> 0 <= f < PGSIZE -> (a + f) mod PGSIZE = f.
Proof.
  intros Ha Hf. rewrite <- Z.add_mod_idemp_l, Ha by done. by apply Z.mod_small.
Qed.

Lemma PTE_ADDR_add a f : a mod PGSIZE = 0 -> 0 <= a < 2 ^ 32 - PGSIZE -> 0 <= f < PGSIZE -> PTE_ADDR (a + f) = a.
Proof.
  intros Ha Hr Hf. unfold PTE_ADDR. change (u32 (Z.lnot 0xFFF)) with 0xFFFFF000.
  unfold PGSIZE in *. rewrite u32_small, land_page_mask by lia. rewrite page_mod_add by done. lia.
Qed.
Lemma PTE_FLAGS_add a f : a mod PGSIZE = 0 -> 0 <= a < 2 ^ 32 - PGSIZE -> 0 <= f < PGSIZE -> PTE_FLAGS (a + f) = f.
Proof.
  intros Ha Hr Hf. unfold PTE_FLAGS. unfold PGSIZE in *. rewrite u32_small by lia.
  change 0xFFF with (Z.ones 12). rewrite Z.land_ones by lia. by apply page_mod_add.
Qed.

Lemma land_1 x : Z.land x 1 = x mod 2.
Proof. change 1 with (Z.ones 1). by rewrite Z.land_ones. Qed.
Lemma present_add a f : a mod PGSIZE = 0 -> Z.land (a + f) 1 = Z.land f 1.
Proof.
  intros Ha. rewrite !land_1. apply Z.mod_divide in Ha as [k ->]; [|done].
  unfold PGSIZE. rewrite Z.add_comm. replace (k * 4096) with ((k * 2048) * 2) by lia. by rewrite Z.mod_add.
Qed.

Lemma PGROUNDDOWN_page n x : 0 <= n < 2 ^ 20 -> 0 <= x < PGSIZE -> PGROUNDDOWN (n * PGSIZE + x) = n * PGSIZE.
Proof.
  intros Hn Hx. unfold PGROUNDDOWN. change (u32 (Z.lnot (PGSIZE - 1))) with 0xFFFFF000.
  unfold PGSIZE in *. rewrite u32_small, land_page_mask by lia.
  unfold PGSIZE. rewrite Z.add_comm, Z.mod_add, Z.mod_small by lia. lia.
Qed.
Lemma PGROUNDUP_page x : 0 <= x <= 2 ^ 32 - PGSIZE -> PGROUNDUP x = (x + PGSIZE - 1) / PGSIZE * PGSIZE.
Proof.
  intros Hx. unfold PGROUNDUP. change (u32 (Z.lnot (PGSIZE - 1))) with 0xFFFFF000.
  unfold PGSIZE in *. rewrite u32_small, land_page_mask by lia. unfold PGSIZE.
  pose proof (Z.div_mod (x + 4096 - 1) 4096 ltac:(lia)). lia.
Qed.

Lemma PDX_page n : 0 <= n < 2 ^ 20 -> PDX (n * PGSIZE) = n / 1024.
Proof.
  intros Hn. unfold PDX, PDXSHIFT, PGSIZE. rewrite u32_small by lia. change 0x3FF with (Z.ones 10).
  rewrite Z.land_ones, Z.shiftr_div_pow2 by lia. change (2 ^ 22) with (4096 * 1024).
  rewrite <- Z.div_div, Z.div_mul by lia. apply Z.mod_small. split; [apply Z.div_pos; lia|].
  apply Z.div_lt_upper_bound; lia.
Qed.
Lemma PTX_page n : 0 <= n < 2 ^ 20 -> PTX (n * PGSIZE) = n mod 1024.
Proof.
  intros Hn. unfold PTX, PTXSHIFT, PGSIZE. rewrite u32_small by lia. change 0x3FF with (Z.ones 10).
  rewrite Z.land_ones, Z.shiftr_div_pow2 by lia. change (2 ^ 12) with 4096. by rewrite Z.div_mul.
Qed.

Lemma P2V_small a : 0 <= a < PHYSTOP -> P2V a = a + KERNBASE.
Proof. intros Ha. unfold P2V, PHYSTOP, KERNBASE in *. apply u32_small. lia. Qed.
End bits.

(** The frame an entry of the user part refers to. *)
Definition pframe (w : Z) : Z := P2V (PTE_ADDR w).

Section frames.
Variable kend : Z.
Hypothesis kend_ok : KERNBASE < kend.

Lemma frame_range t : frame_ok kend t -> KERNBASE <= t < KERNBASE + PHYSTOP /\ t mod PGSIZE = 0 /\ 0 <= V2P t < PHYSTOP /\
  V2P t mod PGSIZE = 0 /\ t = V2P t + KERNBASE.
Proof using kend_ok.
  intros Ht. rewrite (frame_V2P kend kend_ok t Ht). destruct Ht as [Ha Hr]. split_and!; try done; try lia.
  change KERNBASE with (524288 * PGSIZE). rewrite Zminus_mod, Z_mod_mult, Ha. done.
Qed.

Lemma pframe_entry t f : frame_ok kend t -> 0 <= f < PGSIZE ->
  pframe (V2P t + f) = t /\ PTE_ADDR (V2P t + f) = V2P t /\ PTE_FLAGS (V2P t + f) = f /\ 0 <= V2P t + f < 2 ^ 32.
Proof using kend_ok.
  intros Ht Hf. destruct (frame_range t Ht) as (Hr & Ha & Hv & Hva & Et). unfold pframe.
  unfold PHYSTOP, KERNBASE, PGSIZE in *.
  rewrite PTE_ADDR_add, PTE_FLAGS_add by (unfold PGSIZE; done || lia). rewrite P2V_small by (unfold PHYSTOP; lia).
  unfold KERNBASE. split_and!; try done; lia.
Qed.
End frames.

(** ** Pages of words *)

Definition word (d : list Z) (i : Z) : Z := get32 d (Z.to_nat (4 * i)).
Definition set_word (d : list Z) (i v : Z) : list Z := set32 d (Z.to_nat (4 * i)) v.

Section words.
Implicit Types (d : list Z) (i j v : Z).

Lemma length_set_word d i v : length d = Z.to_nat PGSIZE -> 0 <= i < 1024 -> length (set_word d i v) = Z.to_nat PGSIZE.
Proof. intros Hd Hi. unfold set_word. rewrite length_set32; [done|]. rewrite Hd. unfold PGSIZE. lia. Qed.

Lemma word_set_word d i v j : length d = Z.to_nat PGSIZE -> 0 <= i < 1024 -> 0 <= j < 1024 ->
  word (set_word d i v) j = if decide (j = i) then u32 v else word d j.
Proof.
  intros Hd Hi Hj. unfold word, set_word. destruct (decide (j = i)) as [->|Hne].
  - apply get_set32. rewrite Hd. unfold PGSIZE. lia.
  - apply get_set32_ne; [rewrite Hd; unfold PGSIZE; lia|lia].
Qed.

Lemma word_zero i : 0 <= i < 1024 -> word (replicate (Z.to_nat PGSIZE) 0) i = 0.
Proof.
  intros Hi. unfold word, get32, slice. rewrite drop_replicate, take_replicate.
  replace (Nat.min 4 (Z.to_nat PGSIZE - Z.to_nat (4 * i))) with 4%nat by (unfold PGSIZE; lia). done.
Qed.

Context {T : Type} `{HasMem T}.

Lemma wp_load32 (Q : Z -> T -> Prop) s t d i : ram (mem s) !! t = Some d -> t mod PGSIZE = 0 -> 0 <= i < 1024 ->
  Q (word d i) s -> wp (load32 (t + 4 * i)) Q s.
Proof.
  intros Hd Ht Hi HQ. unfold load32, page_of. rewrite page_mod_add by (unfold PGSIZE in *; done || lia).
  rewrite Z.add_simpl_r. wp_step. by eapply wp_load_page.
Qed.

Definition put_page (a : Z) d (s : T) : T := set_mem (set_ram (<[a := d]> (ram (mem s))) (mem s)) s.

Lemma wp_store32 (Q : unit -> T -> Prop) s t d i v : ram (mem s) !! t = Some d -> t mod PGSIZE = 0 -> 0 <= i < 1024 ->
  Q tt (put_page t (set_word d i v) s) -> wp (store32 (t + 4 * i) v) Q s.
Proof.
  intros Hd Ht Hi HQ. unfold store32, page_of. rewrite page_mod_add by (unfold PGSIZE in *; done || lia).
  rewrite Z.add_simpl_r. wp_step. eapply wp_load_page; [done|]. unfold store_page. by wp_steps.
Qed.

Lemma ram_put_page a d (s : T) : ram (mem (put_page a d s)) = <[a := d]> (ram (mem s)).
Proof. unfold put_page. by rewrite mem_set. Qed.
Lemma put_page_mstep a d (s : T) : mach_ok (mach s) -> mstep s (put_page a d s).
Proof. apply mstep_mem. Qed.
Lemma put_page_kmem kend a d (s : T) fl : kmem_rep kend s fl -> a ∉ fl -> kmem_rep kend (put_page a d s) fl.
Proof.
  intros [K1 K2 K3 K4 K5] Ha. unfold put_page. split; rewrite ?mach_set_mem, ?mem_set; try done. cbn [ram freelist set_ram].
  eapply flist_ext; [done|]. intros q Hq. rewrite lookup_insert_ne; [done|]. by intros ->.
Qed.
End words.

(** ** The meaning of a page directory *)

Definition vals (m : gmap Z Z) : list Z := (map_to_list m).*2.
Definition user (p : Z * Z) : Prop := p.1 < 2 ^ 19.
#[export] Instance user_dec p : Decision (user p).
Proof. unfold user. apply _. Defined.
Definition uframes (ents : gmap Z Z) : list Z := pframe <$> vals (filter user ents).
(** The frame that entry [n] makes part of the address space. *)
Definition uown (n w : Z) : list Z := if decide (n < 2 ^ 19) then [pframe w] else [].

Definition pde_word (o : option Z) : Z := from_option (fun t => V2P t + 7) 0 o.

(** [tabs]: the page tables by index in the directory; [ents]: the entries by
    page number, those of the user part first. *)
Record ptable (r : gmap Z (list Z)) (pgdir : Z) (tabs ents : gmap Z Z) : Prop := {
  pt_dir : exists d, r !! pgdir = Some d /\ forall i, 0 <= i < 1024 -> word d i = pde_word (tabs !! i);
  pt_tab : forall i t, tabs !! i = Some t -> 0 <= i < 1024 /\
    exists d, r !! t = Some d /\ forall j, 0 <= j < 1024 -> word d j = default 0 (ents !! (i * 1024 + j));
  pt_ent : forall n w, ents !! n = Some w ->
    0 <= n < 2 ^ 20 /\ is_Some (tabs !! (n / 1024)) /\ 0 <= w < 2 ^ 32 /\ Z.land w PTE_P = 1
}.

Definition is_page {T} `{HasMem T} (kend : Z) (s : T) (a : Z) : Prop :=
  frame_ok kend a /\ exists d, ram (mem s) !! a = Some d /\ length d = Z.to_nat PGSIZE.

(** An address space with the free list: [all] are its pages and the free
    ones, each counted once. *)
Record vrep {T} `{HasMem T} (kend : Z) (all : list Z) (s : T) (pgdir : Z) (tabs ents : gmap Z Z) (fl : list Z) : Prop := {
  vr_kmem : kmem_rep kend s fl;
  vr_pool : all ≡ₚ pgdir :: vals tabs ++ uframes ents ++ fl;
  vr_nodup : NoDup all;
  vr_pages : forall a, a ∈ all -> is_page kend s a;
  vr_table : ptable (ram (mem s)) pgdir tabs ents
}.

Section maps.
Implicit Types (m tabs ents : gmap Z Z).

Lemma vals_insert m k v : m !! k = None -> vals (<[k := v]> m) ≡ₚ v :: vals m.
Proof. intros Hk. unfold vals. by rewrite map_to_list_insert. Qed.
Lemma vals_delete m k v : m !! k = Some v -> vals m ≡ₚ v :: vals (delete k m).
Proof. intros Hk. unfold vals. by rewrite <- (map_to_list_delete m k v Hk). Qed.
Lemma elem_of_vals m v : v ∈ vals m <-> exists k, m !! k = Some v.
Proof.
  unfold vals. rewrite list_elem_of_fmap. split.
  - intros ([k v'] & -> & Hk%elem_of_map_to_list). by exists k.
  - intros [k Hk]. exists (k, v). split; [done|]. by apply elem_of_map_to_list.
Qed.

Lemma uframes_insert ents n w : ents !! n = None -> uframes (<[n := w]> ents) ≡ₚ uown n w ++ uframes ents.
Proof.
  intros Hn. unfold uframes, uown. case_decide as Hu.
  - rewrite map_filter_insert_True by done. rewrite vals_insert; [done|]. by apply map_lookup_filter_None_2; left.
  - by rewrite map_filter_insert_not.
Qed.
Lemma uframes_delete ents n w : ents !! n = Some w -> uframes ents ≡ₚ uown n w ++ uframes (delete n ents).
Proof.
  intros Hn. rewrite <- (insert_delete_id ents n w Hn) at 1. apply uframes_insert. by rewrite lookup_delete_eq.
Qed.
Lemma elem_of_uframes ents a : a ∈ uframes ents <-> exists n w, ents !! n = Some w /\ n < 2 ^ 19 /\ a = pframe w.
Proof.
  unfold uframes. rewrite list_elem_of_fmap. split.
  - intros (w & -> & [n Hn]%elem_of_vals). apply map_lookup_filter_Some in Hn as [Hn Hu]. eauto.
  - intros (n & w & Hn & Hu & ->). exists w. split; [done|]. apply elem_of_vals. exists n.
    by apply map_lookup_filter_Some.
Qed.
End maps.

Section space.
Context {T : Type} `{HasMem T}.
Variable kend : Z.
Hypothesis kend_ok : KERNBASE < kend.
Implicit Types (s : T) (tabs ents : gmap Z Z) (fl all : list Z) (r : gmap Z (list Z)).

Lemma vrep_nd all s pgdir tabs ents fl : vrep kend all s pgdir tabs ents fl ->
  NoDup (pgdir :: vals tabs ++ uframes ents ++ fl).
Proof. intros Hv. rewrite <- (vr_pool _ _ _ _ _ _ _ Hv). apply Hv. Qed.

Lemma vrep_page all s pgdir tabs ents fl a : vrep kend all s pgdir tabs ents fl ->
  a ∈ pgdir :: vals tabs ++ uframes ents ++ fl -> is_page kend s a.
Proof. intros Hv Ha. apply (vr_pages _ _ _ _ _ _ _ Hv). by rewrite (vr_pool _ _ _ _ _ _ _ Hv). Qed.

Lemma vals_inj tabs i j t : NoDup (vals tabs) -> tabs !! i = Some t -> tabs !! j = Some t -> i = j.
Proof.
  intros Hnd Hi Hj. destruct (decide (i = j)) as [|Hne]; [done|]. rewrite (vals_delete _ _ _ Hi) in Hnd.
  apply NoDup_cons in Hnd as [[] _]. apply elem_of_vals. exists j. by rewrite lookup_delete_ne.
Qed.

Lemma ptable_ext r r' pgdir tabs ents : ptable r pgdir tabs ents -> r' !! pgdir = r !! pgdir ->
  (forall t, t ∈ vals tabs -> r' !! t = r !! t) -> ptable r' pgdir tabs ents.
Proof.
  intros [Hd Ht He] Er Et. split; [by rewrite Er| |done]. intros i t Hi. rewrite Et by (apply elem_of_vals; eauto).
  by apply Ht.
Qed.

Lemma is_page_ext s s' a : is_page kend s a -> ram (mem s') !! a = ram (mem s) !! a -> is_page kend s' a.
Proof. intros [Hf Hd] E. split; [done|]. by rewrite E. Qed.
Lemma is_page_put s a d q : is_page kend s q -> length d = Z.to_nat PGSIZE -> is_page kend (put_page a d s) q.
Proof.
  intros [Hf Hd] Hl. split; [done|]. rewrite ram_put_page. destruct (decide (a = q)) as [->|].
  - rewrite lookup_insert_eq. eauto.
  - by rewrite lookup_insert_ne.
Qed.

Lemma page_aligned s a : is_page kend s a -> a mod PGSIZE = 0.
Proof. by intros [[] _]. Qed.


(** The address of the entry for page [n] when its table exists. *)
Lemma wp_walk_hit (Q : Z -> T -> Prop) s pgdir tabs ents n t alloc :
  ptable (ram (mem s)) pgdir tabs ents -> is_page kend s pgdir -> frame_ok kend t ->
  0 <= n < 2 ^ 20 -> tabs !! (n / 1024) = Some t ->
  Q (t + 4 * (n mod 1024)) s -> wp (walkpgdir pgdir (n * PGSIZE) alloc) Q s.
Proof.
  intros [(d & Hd & Hw) _ _] Hp Ht Hn Hi HQ. unfold walkpgdir. rewrite PDX_page, PTX_page by done. wp_step.
  assert (0 <= n / 1024 < 1024) as Hr by (split; [apply Z.div_pos|apply Z.div_lt_upper_bound]; lia).
  eapply wp_load32; [done|by eapply page_aligned|done|]. rewrite Hw, Hi by done. cbn [pde_word from_option].
  destruct (pframe_entry kend kend_ok t 7 Ht) as (Ef & Ea & _); [done|]. unfold pframe in Ef. rewrite Ef.
  rewrite present_add by (apply (frame_range kend kend_ok); done). rewrite c_bool_nz by done. wp_step. exact HQ.
Qed.

(** No table for page [n], and none is to be made. *)
Lemma wp_walk_miss (Q : Z -> T -> Prop) s pgdir tabs ents n :
  ptable (ram (mem s)) pgdir tabs ents -> is_page kend s pgdir ->
  0 <= n < 2 ^ 20 -> tabs !! (n / 1024) = None -> Q 0 s -> wp (walkpgdir pgdir (n * PGSIZE) false) Q s.
Proof.
  intros [(d & Hd & Hw) _ _] Hp Hn Hi HQ. unfold walkpgdir. rewrite PDX_page by done. wp_step.
  assert (0 <= n / 1024 < 1024) as Hr by (split; [apply Z.div_pos|apply Z.div_lt_upper_bound]; lia).
  eapply wp_load32; [done|by eapply page_aligned|done|]. rewrite Hw, Hi by done. cbn [pde_word from_option].
  change (Z.land 0 PTE_P) with 0. rewrite c_bool_0. cbn [negb]. by wp_step.
Qed.

Lemma pde_lor t : frame_ok kend t -> Z.lor (Z.lor (Z.lor (V2P t) PTE_P) PTE_W) PTE_U = V2P t + 7.
Proof.
  intros Ht. rewrite <- !Z.lor_assoc. apply lor_page; [|done]. by apply (frame_range kend kend_ok).
Qed.

(** A new table of zeros. *)
Lemma ptable_new r pgdir tabs ents i t d : ptable r pgdir tabs ents -> 0 <= i < 1024 -> tabs !! i = None ->
  r !! pgdir = Some d -> length d = Z.to_nat PGSIZE -> frame_ok kend t -> t <> pgdir -> t ∉ vals tabs -> pgdir ∉ vals tabs ->
  ptable (<[pgdir := set_word d i (V2P t + 7)]> (<[t := replicate (Z.to_nat PGSIZE) 0]> r)) pgdir (<[i := t]> tabs) ents.
Proof.
  intros [Hdir Htab Hent] Hi Hnone Hd Hl Ht Hne Hnt Hnp. split.
  - eexists. rewrite lookup_insert_eq. split; [done|]. intros j Hj. rewrite word_set_word by done.
    destruct (decide (j = i)) as [->|Hji].
    + rewrite lookup_insert_eq. cbn. apply u32_small. destruct (pframe_entry kend kend_ok t 7 Ht) as (_ & _ & _ & ?); done.
    + rewrite lookup_insert_ne by done. destruct Hdir as (d' & Hd' & Hw). rewrite Hd in Hd'. injection Hd' as <-. by apply Hw.
  - intros j t' [(<- & <-)|(Hji & Hj)]%lookup_insert_Some.
    + split; [done|]. eexists. rewrite lookup_insert_ne, lookup_insert_eq by done. split; [done|]. intros k Hk.
      rewrite word_zero by done. destruct (ents !! (i * 1024 + k)) as [w|] eqn:Ew; [|done].
      destruct (Hent _ _ Ew) as (_ & [t' Hs] & _). rewrite Z.div_add_l, Z.div_small, Z.add_0_r in Hs by lia. congruence.
    + destruct (Htab j t' Hj) as (Hr & d' & Hd' & Hw). split; [done|]. exists d'. split; [|done].
      assert (t' ∈ vals tabs) by (apply elem_of_vals; eauto). rewrite !lookup_insert_ne; [done|set_solver|set_solver].
  - intros n w Hn. destruct (Hent n w Hn) as (Hn0 & [t' Hs] & Hwk). split; [done|]. split; [|done].
    rewrite lookup_insert_ne; [eauto|]. intros ->. congruence.
Qed.

(** What [walkpgdir] takes from the free list for page [n]: nothing when there
    is a table for it, otherwise the first page. *)
Definition walked (n : Z) (tabs : gmap Z Z) (fl : list Z) (tabs' : gmap Z Z) (fl' : list Z) : Prop :=
  (is_Some (tabs !! (n / 1024)) /\ tabs' = tabs /\ fl' = fl) \/
  (tabs !! (n / 1024) = None /\ exists t, tabs' = <[n / 1024 := t]> tabs /\ fl = t :: fl').
Definition walk_fails (n : Z) (tabs : gmap Z Z) (fl : list Z) : Prop := tabs !! (n / 1024) = None /\ fl = [].

Lemma wp_walk_create (Q : Z -> T -> Prop) all s pgdir tabs ents fl n : vrep kend all s pgdir tabs ents fl ->
  0 <= n < 2 ^ 20 ->
  (forall s' tabs' fl' t, mstep s s' -> vrep kend all s' pgdir tabs' ents fl' -> tabs' !! (n / 1024) = Some t ->
     walked n tabs fl tabs' fl' -> (forall a, a <> pgdir -> a ∉ vals tabs' -> ram (mem s') !! a = ram (mem s) !! a) ->
     Q (t + 4 * (n mod 1024)) s') ->
  (forall s', mstep s s' -> ram (mem s') = ram (mem s) -> walk_fails n tabs fl -> vrep kend all s' pgdir tabs ents [] -> Q 0 s') ->
  wp (walkpgdir pgdir (n * PGSIZE) true) Q s.
Proof.
  intros Hv Hn Hok Hfail. pose proof (vrep_nd _ _ _ _ _ _ Hv) as Hnd. pose proof (vr_table _ _ _ _ _ _ _ Hv) as Hpt.
  pose proof (vrep_page _ _ _ _ _ _ pgdir Hv ltac:(set_solver)) as Hpg.
  assert (0 <= n / 1024 < 1024) as Hr by (split; [apply Z.div_pos|apply Z.div_lt_upper_bound]; lia).
  destruct (tabs !! (n / 1024)) as [t|] eqn:Et.
  { eapply wp_walk_hit; [done|done| |done|done|].
    - apply (vrep_page _ _ _ _ _ _ t Hv). apply elem_of_cons. right. apply elem_of_app. left. apply elem_of_vals. eauto.
    - apply (Hok s tabs fl t); [apply mstep_refl, Hv|done|done| |done]. left. rewrite Et. eauto. }
  pose proof Hpg as [Hfp (dp & Hdp & Hlp)]. pose proof (pt_dir _ _ _ _ Hpt) as (d & Hd & Hw).
  rewrite Hdp in Hd. injection Hd as <-. unfold walkpgdir. rewrite PDX_page, PTX_page by done. wp_step.
  eapply wp_load32; [done|apply Hfp|done|]. rewrite Hw, Et by done. cbn [pde_word from_option].
  change (Z.land 0 PTE_P) with 0. rewrite c_bool_0. cbn [negb]. wp_step.
  eapply (wp_kalloc kend kend_ok); [apply Hv|]. intros s1 Hs1 Hr1.
  destruct fl as [|t fl]; intros Hk1.
  { rewrite bool_decide_eq_true_2 by done. wp_step. apply Hfail; [done|done|done|].
    destruct Hv as [V1 V2 V3 V4 V5]. split; [done|done|done| |by rewrite Hr1].
    intros a Ha. eapply is_page_ext; [by apply V4|by rewrite Hr1]. }
  pose proof (vrep_page _ _ _ _ _ _ t Hv ltac:(set_solver)) as Ht.
  pose proof Ht as [Hft (dt & Hdt & Hlt)]. destruct (frame_range kend kend_ok t Hft) as (Htr & Hta & _).
  rewrite bool_decide_eq_false_2 by (by apply (frame_nz kend)). wp_step.
  eapply (wp_memset_page _ s1 t 0 dt); [done|unfold KERNBASE, PHYSTOP in *; lia|lia|by rewrite Hr1|done|].
  fold (put_page t (replicate (Z.to_nat PGSIZE) 0) s1). set (s2 := put_page t _ s1). wp_step.
  assert (t <> pgdir /\ t ∉ vals tabs /\ pgdir ∉ vals tabs /\ t ∉ fl /\ pgdir ∉ fl) as (Htp & Htt & Hpt' & Htf & Hpf).
  { apply NoDup_cons in Hnd as [Hn1 Hnd]. apply NoDup_app in Hnd as (_ & Hn2 & Hnd). apply NoDup_app in Hnd as (_ & _ & Hnd).
    apply NoDup_cons in Hnd as [Hn3 _]. split_and!; set_solver. }
  assert (ram (mem s2) !! pgdir = Some dp) as Hd2 by (unfold s2; rewrite ram_put_page, lookup_insert_ne, Hr1; done).
  eapply wp_store32; [exact Hd2|apply Hfp|done|]. rewrite pde_lor by done. wp_step.
  set (s3 := put_page pgdir _ s2). apply (Hok s3 (<[n / 1024 := t]> tabs) fl t).
  - eapply mstep_trans; [exact Hs1|]. eapply mstep_trans; [apply put_page_mstep, Hk1|].
    apply put_page_mstep. by eapply (kr_mach kend _ fl), put_page_kmem.
  - destruct Hv as [V1 V2 V3 V4 V5]. split.
    + apply put_page_kmem; [|done]. by apply put_page_kmem.
    + rewrite V2, vals_insert by done. cbn. apply Permutation_skip. rewrite !app_assoc. by rewrite <- Permutation_middle.
    + done.
    + intros a Ha. apply is_page_put; [apply is_page_put|]; [|by rewrite length_replicate|by apply length_set_word].
      eapply is_page_ext; [by apply V4|by rewrite Hr1].
    + unfold s3, s2. rewrite !ram_put_page, Hr1. by apply ptable_new.
  - apply lookup_insert_eq.
  - right. eauto.
  - intros a Ha Hna. unfold s3, s2. rewrite !ram_put_page, !lookup_insert_ne, Hr1; [done| |done].
    intros <-. apply Hna, elem_of_vals. exists (n / 1024). apply lookup_insert_eq.
Qed.

(** A change of one entry. *)
Lemma ptable_upd r pgdir tabs ents n t d o : ptable r pgdir tabs ents -> 0 <= n < 2 ^ 20 ->
  tabs !! (n / 1024) = Some t -> r !! t = Some d -> length d = Z.to_nat PGSIZE -> NoDup (pgdir :: vals tabs) ->
  (forall w, o = Some w -> 0 <= w < 2 ^ 32 /\ Z.land w PTE_P = 1) ->
  ptable (<[t := set_word d (n mod 1024) (default 0 o)]> r) pgdir tabs (partial_alter (fun _ => o) n ents).
Proof.
  intros [Hdir Htab Hent] Hn Ht Hd Hl [Hnp Hnd]%NoDup_cons Ho.
  assert (0 <= n mod 1024 < 1024) as Hm by (apply Z.mod_pos_bound; lia).
  pose proof (Z.div_mod n 1024 ltac:(lia)) as Hdm.
  assert (t ∈ vals tabs) as Hin by (apply elem_of_vals; eauto). split.
  - rewrite lookup_insert_ne by set_solver. done.
  - intros i t' Hi. destruct (Htab i t' Hi) as (Hir & d' & Hd' & Hw). split; [done|].
    destruct (decide (t = t')) as [<-|Hne].
    + assert (i = n / 1024) as -> by (by eapply vals_inj). rewrite Hd in Hd'. injection Hd' as <-.
      eexists. rewrite lookup_insert_eq. split; [done|]. intros j Hj. rewrite word_set_word by done.
      destruct (decide (j = n mod 1024)) as [->|Hj'].
      * replace (n / 1024 * 1024 + n mod 1024) with n by lia. rewrite lookup_partial_alter_eq.
        destruct o as [w|]; [|done]. apply u32_small. by apply Ho.
      * rewrite lookup_partial_alter_ne by lia. by apply Hw.
    + exists d'. rewrite lookup_insert_ne by done. split; [done|]. intros j Hj.
      rewrite lookup_partial_alter_ne; [by apply Hw|]. intros ->. rewrite Z.div_add_l, Z.div_small, Z.add_0_r in Ht by lia.
      congruence.
  - intros k w. destruct (decide (k = n)) as [->|Hk].
    + rewrite lookup_partial_alter_eq. intros Hw. split; [done|]. split; [by eauto|by apply Ho].
    + rewrite lookup_partial_alter_ne by done. apply Hent.
Qed.

Lemma vrep_map all s pgdir tabs ents fl n t d w : vrep kend all s pgdir tabs ents fl -> 0 <= n < 2 ^ 20 ->
  tabs !! (n / 1024) = Some t -> ram (mem s) !! t = Some d -> ents !! n = None ->
  0 <= w < 2 ^ 32 -> Z.land w PTE_P = 1 -> NoDup (uown n w ++ all) -> (forall a, a ∈ uown n w -> is_page kend s a) ->
  vrep kend (uown n w ++ all) (put_page t (set_word d (n mod 1024) w) s) pgdir tabs (<[n := w]> ents) fl.
Proof.
  intros Hv Hn Ht Hd He Hw Hp Hnd Hpg. pose proof (vrep_nd _ _ _ _ _ _ Hv) as Hnd'.
  assert (t ∈ vals tabs) as Hin by (apply elem_of_vals; eauto).
  destruct (vrep_page _ _ _ _ _ _ t Hv ltac:(set_solver)) as [_ (d' & Hd' & Hl)]. rewrite Hd in Hd'. injection Hd' as <-.
  assert (0 <= n mod 1024 < 1024) as Hm by (apply Z.mod_pos_bound; lia).
  pose proof Hnd' as Hnd2. apply NoDup_cons in Hnd2 as [Hp1 Hnd2]. apply NoDup_app in Hnd2 as (Hn1 & Hn2 & _).
  destruct Hv as [V1 V2 V3 V4 V5]. split.
  - apply put_page_kmem; [done|]. set_solver.
  - rewrite V2, uframes_insert by done. rewrite <- Permutation_middle. apply Permutation_skip.
    rewrite <- (app_assoc (uown n w)), !(app_assoc (uown n w)), (Permutation_app_comm (uown n w) (vals tabs)).
    by rewrite <- !app_assoc.
  - done.
  - intros a [Ha|Ha]%elem_of_app; apply is_page_put; auto; by apply length_set_word.
  - rewrite ram_put_page. apply (ptable_upd _ _ _ _ _ _ _ (Some w)); try done.
    + apply NoDup_cons. split; [set_solver|done].
    + by intros ? [= <-].
Qed.

(** One round of the loop of [mappages]. *)
Lemma wp_mappages_step (Q : Z -> T -> Prop) all s pgdir tabs ents fl k n last pa perm w :
  vrep kend all s pgdir tabs ents fl -> 0 <= n < 2 ^ 20 -> ents !! n = None ->
  Z.lor (Z.lor pa perm) PTE_P = w -> 0 <= w < 2 ^ 32 -> Z.land w PTE_P = 1 ->
  NoDup (uown n w ++ all) -> (forall a, a ∈ uown n w -> is_page kend s a) ->
  (forall s' tabs' fl', mstep s s' -> vrep kend (uown n w ++ all) s' pgdir tabs' (<[n := w]> ents) fl' -> walked n tabs fl tabs' fl' ->
     (forall a, a <> pgdir -> a ∉ vals tabs' -> ram (mem s') !! a = ram (mem s) !! a) ->
     if decide (n * PGSIZE = last) then Q 0 s'
     else wp (mappages_loop k pgdir (u32 ((n + 1) * PGSIZE)) last (u32 (pa + PGSIZE)) perm) Q s') ->
  (forall s', mstep s s' -> ram (mem s') = ram (mem s) -> walk_fails n tabs fl -> vrep kend all s' pgdir tabs ents [] -> Q (-1) s') ->
  wp (mappages_loop (S k) pgdir (n * PGSIZE) last pa perm) Q s.
Proof.
  intros Hv Hn He Hw Hwr Hwp Hnd Hpg Hok Hfail. cbn [mappages_loop]. wp_step.
  eapply wp_walk_create; [done|done| |].
  2:{ intros s' Hs Hr Hwf Hv'. rewrite bool_decide_eq_true_2 by done. wp_step. by apply Hfail. }
  intros s1 tabs1 fl1 t Hs1 Hv1 Ht Hsub Hfr.
  assert (t ∈ vals tabs1) as Hin by (apply elem_of_vals; eauto).
  destruct (vrep_page _ _ _ _ _ _ t Hv1 ltac:(set_solver)) as [Hft (d & Hd & Hl)].
  assert (0 <= n mod 1024 < 1024) as Hm by (apply Z.mod_pos_bound; lia).
  rewrite bool_decide_eq_false_2 by (destruct Hft; unfold KERNBASE in *; lia). wp_step.
  eapply wp_load32; [done|apply Hft|done|].
  destruct (pt_tab _ _ _ _ (vr_table _ _ _ _ _ _ _ Hv1) _ _ Ht) as (_ & d' & Hd' & Hwd).
  rewrite Hd in Hd'. injection Hd' as <-. rewrite Hwd by done.
  replace (n / 1024 * 1024 + n mod 1024) with n by (pose proof (Z.div_mod n 1024 ltac:(lia)); lia). rewrite He.
  change (Z.land (default 0 None) PTE_P) with 0. rewrite c_bool_0. rewrite Hw. wp_step.
  eapply wp_store32; [done|apply Hft|done|].
  assert (forall a, a ∈ uown n w -> is_page kend s1 a) as Hpg1.
  { intros a Ha. apply NoDup_app in Hnd as (_ & Hna & _). eapply is_page_ext; [by apply Hpg|].
    assert (a ∉ pgdir :: vals tabs1 ++ uframes ents ++ fl1) as Hni.
    { rewrite <- (vr_pool _ _ _ _ _ _ _ Hv1). by apply Hna. }
    apply Hfr; set_solver. }
  specialize (Hok (put_page t (set_word d (n mod 1024) w) s1) tabs1 fl1).
  replace (n * PGSIZE + PGSIZE) with ((n + 1) * PGSIZE) by lia.
  assert (forall P1 P2 : Prop, (if decide (n * PGSIZE = last) then P1 else P2) ->
    (n * PGSIZE = last -> P1) /\ (n * PGSIZE <> last -> P2)) as Hif by (intros ??; case_decide; tauto).
  apply Hif in Hok as [Hok1 Hok2].
  - destruct (decide (n * PGSIZE = last)).
    + rewrite bool_decide_eq_true_2 by done. wp_step. auto.
    + rewrite bool_decide_eq_false_2 by done. auto.
  - eapply mstep_trans; [done|]. apply put_page_mstep, Hv1.
  - by apply vrep_map.
  - done.
  - intros a Ha Hna. rewrite ram_put_page, lookup_insert_ne by set_solver. by apply Hfr.
Qed.
End space.
