(* ===== verification/VmSpace.v ===== *)
(** * Address spaces: mapping, growing, freeing and copying

    The functions of [vm.c] that build and take down address spaces, against
    the meaning [VmRep] gives them.  Every specification accounts for the
    pages: those of the address space and those on the free list stay the
    same as a whole. *)

From S2P Require Import Prelude Bytes Params Machine BlockCache CString Kalloc Vm VmRep.
Local Open Scope Z_scope.

(** ** mappages *)

(** The entries of [k] pages from page [n] on, mapped to the memory at [pa]. *)
Fixpoint map_range (k : nat) (n pa perm : Z) (ents : gmap Z Z) : gmap Z Z :=
  match k with
  | O => ents
  | S k' => map_range k' (n + 1) (pa + PGSIZE) perm (<[n := pa + Z.lor perm PTE_P]> ents)
  end.

Section maps.
Implicit Types ents : gmap Z Z.

Lemma lookup_map_range k : forall n pa perm ents j, map_range k n pa perm ents !! j =
  if decide (n <= j < n + Z.of_nat k) then Some (pa + (j - n) * PGSIZE + Z.lor perm PTE_P) else ents !! j.
Proof.
  induction k as [|k IH]; intros n pa perm ents j; cbn [map_range].
  - rewrite decide_False by lia. done.
  - rewrite IH. destruct (decide (n + 1 <= j < n + 1 + Z.of_nat k)).
    + rewrite decide_True by lia. f_equal. unfold PGSIZE. lia.
    + destruct (decide (j = n)) as [->|].
      * rewrite lookup_insert_eq, decide_True by lia. f_equal. lia.
      * rewrite lookup_insert_ne, decide_False by lia. done.
Qed.

Lemma uframes_kernel ents ents' : (forall n, n < 2 ^ 19 -> ents' !! n = ents !! n) -> uframes ents' = uframes ents.
Proof.
  intros He. unfold uframes. do 2 f_equal. apply map_eq. intros n. apply option_eq. intros w.
  rewrite !map_lookup_filter_Some. unfold user. cbn. split; intros [H1 H2]; by rewrite ?He in * by done.
Qed.

(** Entry words. *)
Lemma perm_range perm : 0 <= perm < PGSIZE -> 0 <= Z.lor perm PTE_P < PGSIZE /\ Z.land (Z.lor perm PTE_P) 1 = 1.
Proof.
  intros Hp. assert (Z.lor perm 1 = if decide (perm mod 2 = 0) then perm + 1 else perm) as E.
  { pose proof (Z.div_mod perm 2 ltac:(lia)). pose proof (Z.mod_pos_bound perm 2 ltac:(lia)).
    apply Z.bits_inj'. intros n Hn. rewrite Z.lor_spec. case_decide as Hd.
    - replace (perm + 1) with (2 * (perm / 2) + 1) by lia. replace perm with (2 * (perm / 2)) at 1 by lia.
      destruct (decide (n = 0)) as [->|]; [by rewrite Z.testbit_odd_0, Z.testbit_even_0|].
      replace n with (Z.succ (n - 1)) by lia. rewrite Z.testbit_even_succ, Z.testbit_odd_succ by lia.
      change 1 with (2 * 0 + 1) at 2. rewrite Z.testbit_odd_succ, Z.bits_0 by lia. apply orb_false_r.
    - replace perm with (2 * (perm / 2) + 1) by lia. destruct (decide (n = 0)) as [->|]; [by rewrite Z.testbit_odd_0|].
      replace n with (Z.succ (n - 1)) by lia. rewrite Z.testbit_odd_succ by lia.
      change 1 with (2 * 0 + 1) at 2. rewrite Z.testbit_odd_succ, Z.bits_0 by lia. apply orb_false_r. }
  unfold PTE_P. rewrite E, land_1. pose proof (Z.div_mod perm 2 ltac:(lia)). pose proof (Z.mod_pos_bound perm 2 ltac:(lia)).
  unfold PGSIZE in *. case_decide.
  - split; [lia|]. replace (perm + 1) with (1 + perm / 2 * 2) by lia. by rewrite Z.mod_add.
  - lia.
Qed.

Lemma entry_word pa perm : pa mod PGSIZE = 0 -> 0 <= pa < 2 ^ 32 -> 0 <= perm < PGSIZE ->
  Z.lor (Z.lor pa perm) PTE_P = pa + Z.lor perm PTE_P /\ 0 <= pa + Z.lor perm PTE_P < 2 ^ 32 /\
  Z.land (pa + Z.lor perm PTE_P) PTE_P = 1.
Proof.
  intros Ha Hr Hp. destruct (perm_range perm Hp) as [Hl Hb]. rewrite <- Z.lor_assoc, lor_page by done.
  split_and!; [done|lia| |].
  - apply Z.mod_divide in Ha as [k ->]; [|done]. unfold PGSIZE in *. lia.
  - unfold PTE_P at 2. by rewrite present_add.
Qed.
End maps.

Section mapping.
Context {T : Type} `{HasMem T}.
Variable kend : Z.
Hypothesis kend_ok : KERNBASE < kend.
Implicit Types (s : T) (tabs ents : gmap Z Z) (fl all : list Z).

Lemma mappages_fuel n size : 0 <= n -> 0 < size -> n * PGSIZE + size <= 2 ^ 32 ->
  let last := PGROUNDDOWN (u32 (n * PGSIZE) + size - 1) in
  last = (n + (size - 1) / PGSIZE) * PGSIZE /\ PGROUNDDOWN (n * PGSIZE) = n * PGSIZE /\
  Z.to_nat (u32 (last - n * PGSIZE) / PGSIZE) = Z.to_nat ((size - 1) / PGSIZE).
Proof.
  intros Hn Hs Hle last. unfold PGSIZE in Hle. pose proof (Z.div_mod (size - 1) PGSIZE ltac:(done)) as Hdm.
  pose proof (Z.mod_pos_bound (size - 1) PGSIZE ltac:(done)) as Hm. assert (0 <= (size - 1) / PGSIZE) by (apply Z.div_pos; [lia|done]).
  assert (last = (n + (size - 1) / PGSIZE) * PGSIZE) as El.
  { unfold last. rewrite (u32_small (n * PGSIZE)) by (unfold PGSIZE; lia).
    replace (n * PGSIZE + size - 1) with ((n + (size - 1) / PGSIZE) * PGSIZE + (size - 1) mod PGSIZE)
      by (unfold PGSIZE in *; lia). apply PGROUNDDOWN_page; [|done]. unfold PGSIZE in *. lia. }
  split_and!; [done| |].
  - rewrite <- (Z.add_0_r (n * PGSIZE)) at 1. rewrite PGROUNDDOWN_page; [done|unfold PGSIZE in *; lia|done].
  - rewrite El. replace ((n + (size - 1) / PGSIZE) * PGSIZE - n * PGSIZE) with ((size - 1) / PGSIZE * PGSIZE) by lia.
    rewrite u32_small, Z.div_mul by (unfold PGSIZE in *; done || lia). done.
Qed.

(** One page of user memory. *)
Lemma wp_mappages_user (Q : Z -> T -> Prop) all s pgdir tabs ents fl n p perm :
  vrep kend all s pgdir tabs ents fl -> 0 <= n < 2 ^ 19 -> ents !! n = None -> 0 <= perm < PGSIZE ->
  NoDup (p :: all) -> is_page kend s p ->
  (forall s' tabs' fl', mstep s s' ->
     vrep kend (p :: all) s' pgdir tabs' (<[n := V2P p + Z.lor perm PTE_P]> ents) fl' -> walked n tabs fl tabs' fl' ->
     (forall a, a <> pgdir -> a ∉ vals tabs' -> ram (mem s') !! a = ram (mem s) !! a) -> Q 0 s') ->
  (forall s', mstep s s' -> ram (mem s') = ram (mem s) -> walk_fails n tabs fl -> vrep kend all s' pgdir tabs ents [] -> Q (-1) s') ->
  wp (mappages pgdir (n * PGSIZE) PGSIZE (V2P p) perm) Q s.
Proof.
  intros Hv Hn He Hp Hnd Hpg Hok Hfail. unfold mappages.
  destruct (mappages_fuel n PGSIZE) as (El & Ea & Ef); [lia|done|unfold PGSIZE; lia|]. cbv zeta in El, Ef.
  rewrite Ea, Ef, El. change (Z.to_nat ((PGSIZE - 1) / PGSIZE)) with 0%nat.
  change ((PGSIZE - 1) / PGSIZE) with 0. rewrite Z.add_0_r.
  destruct (frame_range kend kend_ok p (proj1 Hpg)) as (_ & _ & Hvr & Hva & _).
  destruct (entry_word (V2P p) perm Hva) as (Ew & Hw & Hb); [unfold PHYSTOP in *; lia|done|].
  destruct (perm_range perm Hp) as [Hf _].
  assert (uown n (V2P p + Z.lor perm PTE_P) = [p]) as Eu.
  { unfold uown. rewrite decide_True by lia. by rewrite (proj1 (pframe_entry kend kend_ok p _ (proj1 Hpg) Hf)). }
  eapply wp_mappages_step; [done|done|lia|done|done|done|done|by rewrite Eu|rewrite Eu; set_solver| |done].
  intros s' tabs' fl' Hs Hv' Hsub Hfr. rewrite decide_True by done. rewrite Eu in Hv'. by eapply Hok.
Qed.

(** A range of the kernel's part. *)
Lemma wp_mappages_kernel (Q : Z -> T -> Prop) all pgdir perm k : forall s tabs ents fl n pa,
  vrep kend all s pgdir tabs ents fl -> 2 ^ 19 <= n -> n + Z.of_nat k < 2 ^ 20 ->
  (forall j, n <= j -> j <= n + Z.of_nat k -> ents !! j = None) ->
  pa mod PGSIZE = 0 -> 0 <= pa -> pa + Z.of_nat k * PGSIZE < 2 ^ 32 -> 0 <= perm < PGSIZE ->
  (forall s' tabs' fl', mstep s s' -> vrep kend all s' pgdir tabs' (map_range (S k) n pa perm ents) fl' ->
     (forall a, a ∉ all -> ram (mem s') !! a = ram (mem s) !! a) -> Q 0 s') ->
  (forall s' tabs' ents', mstep s s' -> vrep kend all s' pgdir tabs' ents' [] -> 
     (forall j, j < 2 ^ 19 -> ents' !! j = ents !! j) -> (forall a, a ∉ all -> ram (mem s') !! a = ram (mem s) !! a) -> Q (-1) s') ->
  wp (mappages_loop (S k) pgdir (n * PGSIZE) ((n + Z.of_nat k) * PGSIZE) pa perm) Q s.
Proof.
  induction k as [|k IH]; intros s tabs ents fl n pa Hv Hn Hk He Ha Hpa Hpe Hp Hok Hfail;
    (destruct (entry_word pa perm Ha) as (Ew & Hw & Hb); [unfold PGSIZE in *; lia|done|]);
    (assert (uown n (pa + Z.lor perm PTE_P) = []) as Eu by (unfold uown; by rewrite decide_False by lia));
    (assert (forall s' tabs' ents' fl', vrep kend all s' pgdir tabs' ents' fl' ->
       (forall a, a <> pgdir -> a ∉ vals tabs' -> ram (mem s') !! a = ram (mem s) !! a) ->
       forall a, a ∉ all -> ram (mem s') !! a = ram (mem s) !! a) as Hout
       by (intros s' tabs' ents' fl' Hv' Hfr a Hna; rewrite (vr_pool _ _ _ _ _ _ _ Hv') in Hna; apply Hfr; set_solver));
    (eapply wp_mappages_step; [done|done|lia|apply He; lia|done|done|done|rewrite Eu; apply Hv|rewrite Eu; set_solver| |
       intros s' Hs Hr _ Hv'; eapply Hfail; [done|done|done|by intros; rewrite Hr]]);
    intros s1 tabs1 fl1 Hs1 Hv1 Hsub Hfr; rewrite Eu in Hv1.
  - rewrite decide_True by lia. eapply Hok; [done|exact Hv1|by eapply Hout].
  - rewrite decide_False by (unfold PGSIZE; lia). unfold PGSIZE in Hpe.
    rewrite (u32_small ((n + 1) * PGSIZE)), (u32_small (pa + PGSIZE)) by (unfold PGSIZE; lia).
    replace ((n + Z.of_nat (S k)) * PGSIZE) with ((n + 1 + Z.of_nat k) * PGSIZE) by lia.
    pose proof (Hout _ _ _ _ Hv1 Hfr) as Ho1.
    eapply IH; [exact Hv1|lia|lia| | |unfold PGSIZE; lia|unfold PGSIZE; lia|done| |].
    + intros j Hj1 Hj2. rewrite lookup_insert_ne by lia. apply He; lia.
    + rewrite <- Z.add_mod_idemp_r, Z.mod_same, Z.add_0_r by done. done.
    + intros s' tabs' fl' Hs' Hv' Hfr'. eapply Hok; [by eapply mstep_trans|done|]. intros a Hna. by rewrite Hfr', Ho1.
    + intros s' tabs' ents' Hs' Hv' Hu' Hfr'. eapply Hfail; [by eapply mstep_trans|done| |].
      * intros j Hj. by rewrite Hu', lookup_insert_ne by lia.
      * intros a Hna. by rewrite Hfr', Ho1.
Qed.
End mapping.

(** ** deallocuvm *)

(** The entries outside the pages from [n] up to [m]. *)
Definition cut_pages (n m : Z) (ents : gmap Z Z) : gmap Z Z := filter (fun p => ~ (n <= p.1 < m)) ents.

Section cutting.
Implicit Types ents : gmap Z Z.

Lemma lookup_cut_pages n m ents k : cut_pages n m ents !! k = if decide (n <= k < m) then None else ents !! k.
Proof.
  unfold cut_pages. apply option_eq. intros w. rewrite map_lookup_filter_Some. cbn. case_decide; naive_solver.
Qed.

Lemma cut_pages_skip n n' m ents : n <= n' -> (forall k, n <= k < n' -> ents !! k = None) ->
  cut_pages n m ents = cut_pages n' m ents.
Proof.
  intros Hle Hn. apply map_eq. intros k. rewrite !lookup_cut_pages.
  destruct (decide (n <= k < m)), (decide (n' <= k < m)); try done; [|lia]. symmetry. apply Hn. lia.
Qed.
Lemma cut_pages_step n m ents : n < m -> cut_pages n m ents = cut_pages (n + 1) m (delete n ents).
Proof.
  intros Hlt. apply map_eq. intros k. rewrite !lookup_cut_pages. destruct (decide (k = n)) as [->|].
  - rewrite decide_True, decide_False, lookup_delete_eq by lia. done.
  - rewrite lookup_delete_ne by done. destruct (decide (n <= k < m)), (decide (n + 1 <= k < m)); try done; lia.
Qed.
Lemma cut_pages_none n m ents : m <= n -> cut_pages n m ents = ents.
Proof. intros Hle. apply map_eq. intros k. rewrite lookup_cut_pages. by rewrite decide_False by lia. Qed.

Lemma PGADDR_dir i : 0 <= i < 1024 -> PGADDR i 0 0 = i * 1024 * PGSIZE.
Proof.
  intros Hi. unfold PGADDR, PDXSHIFT, PTXSHIFT. rewrite Z.shiftl_0_l, !Z.lor_0_r, Z.shiftl_mul_pow2 by lia.
  rewrite u32_small by lia. unfold PGSIZE. lia.
Qed.
End cutting.

Section unmapping.
Context {T : Type} `{HasMem T}.
Variable kend : Z.
Hypothesis kend_ok : KERNBASE < kend.
Implicit Types (s : T) (tabs ents : gmap Z Z) (fl all : list Z).


(** The entry of page [n] is cleared after its frame went to the free list. *)
Lemma vrep_unmap all s s1 pgdir tabs ents fl n t d w : vrep kend all s pgdir tabs ents fl ->
  0 <= n < 2 ^ 19 -> ents !! n = Some w -> tabs !! (n / 1024) = Some t -> ram (mem s) !! t = Some d ->
  (forall a, a <> pframe w -> ram (mem s1) !! a = ram (mem s) !! a) -> kmem_rep kend s1 (pframe w :: fl) ->
  vrep kend all (put_page t (set_word d (n mod 1024) 0) s1) pgdir tabs (delete n ents) (pframe w :: fl).
Proof.
  intros Hv Hn Hw Ht Hd Hr1 Hk1. pose proof (vrep_nd _ _ _ _ _ _ _ Hv) as Hnd.
  assert (t ∈ vals tabs) as Hin by (apply elem_of_vals; eauto).
  assert (pframe w ∈ uframes ents) as Hinw by (apply elem_of_uframes; exists n, w; split_and!; done || lia).
  destruct (vrep_page _ _ _ _ _ _ _ t Hv ltac:(set_solver)) as [_ (d' & Hd' & Hl)]. rewrite Hd in Hd'. injection Hd' as <-.
  assert (0 <= n mod 1024 < 1024) as Hm by (apply Z.mod_pos_bound; lia).
  apply NoDup_cons in Hnd as [Hp1 Hnd]. apply NoDup_app in Hnd as (Hn1 & Hn2 & Hnd). apply NoDup_app in Hnd as (_ & Hn3 & _).
  assert (pframe w <> t) by set_solver. assert (pframe w <> pgdir) by set_solver.
  assert (uframes ents ≡ₚ pframe w :: uframes (delete n ents)) as Hu.
  { rewrite (uframes_delete ents n w Hw). unfold uown. by rewrite decide_True by lia. }
  destruct Hv as [V1 V2 V3 V4 V5]. split.
  - apply put_page_kmem; [done|]. set_solver.
  - rewrite V2, Hu. apply Permutation_skip, Permutation_app_head. cbn. by rewrite <- Permutation_middle.
  - done.
  - intros a Ha. apply is_page_put; [|by apply length_set_word]. destruct (decide (a = pframe w)) as [->|].
    + split; [by apply V4|]. apply (flist_page _ _ _ (pframe w) (kr_list _ _ _ Hk1)). set_solver.
    + eapply is_page_ext; [by apply V4|by apply Hr1].
  - rewrite ram_put_page. apply (ptable_upd kend kend_ok (ram (mem s1)) pgdir tabs ents n t d None); try done; try lia.
    + apply (ptable_ext (ram (mem s))); [done|by apply Hr1|]. intros t' Ht'. apply Hr1. intros ->.
      apply (Hn2 _ Ht'). apply elem_of_app. by left.
    + by rewrite Hr1.
    + apply NoDup_cons. split; [set_solver|done].
Qed.

(** Page [n] is on user memory: what [deallocuvm] does with its entry. *)
Lemma wp_dealloc_entry (Q : unit -> T -> Prop) all s pgdir tabs ents fl n t k oldsz :
  vrep kend all s pgdir tabs ents fl -> 0 <= n < 2 ^ 19 -> tabs !! (n / 1024) = Some t -> n * PGSIZE < oldsz ->
  (forall s' fl', mstep s s' -> vrep kend all s' pgdir tabs (delete n ents) fl' ->
     (forall a, a ∉ vals tabs -> a ∉ fl' -> ram (mem s') !! a = ram (mem s) !! a) -> (forall a, a ∈ fl -> a ∈ fl') ->
     wp (deallocuvm_loop kend k pgdir ((n + 1) * PGSIZE) oldsz) Q s') ->
  wp (deallocuvm_loop kend (S k) pgdir (n * PGSIZE) oldsz) Q s.
Proof.
  intros Hv Hn Ht Hlt Hok. cbn [deallocuvm_loop]. rewrite bool_decide_eq_true_2 by done.
  assert (t ∈ vals tabs) as Hin by (apply elem_of_vals; eauto).
  pose proof (vrep_page _ _ _ _ _ _ _ t Hv ltac:(set_solver)) as Hpt. pose proof Hpt as [Hft (d & Hd & Hl)].
  pose proof (vr_table _ _ _ _ _ _ _ Hv) as Htab. pose proof (vrep_nd _ _ _ _ _ _ _ Hv) as Hnd.
  assert (0 <= n mod 1024 < 1024) as Hm by (apply Z.mod_pos_bound; lia). wp_step.
  eapply wp_walk_hit; [done|done|apply (vrep_page _ _ _ _ _ _ _ pgdir Hv); set_solver|done|lia|done|].
  rewrite bool_decide_eq_false_2 by (destruct Hft; unfold KERNBASE in *; lia). wp_step.
  eapply wp_load32; [done|apply Hft|done|].
  destruct (pt_tab _ _ _ _ Htab _ _ Ht) as (_ & d' & Hd' & Hwd). rewrite Hd in Hd'. injection Hd' as <-. rewrite Hwd by done.
  replace (n / 1024 * 1024 + n mod 1024) with n by (pose proof (Z.div_mod n 1024 ltac:(lia)); lia).
  replace (u32 (n * PGSIZE + PGSIZE)) with ((n + 1) * PGSIZE) by (rewrite u32_small; unfold PGSIZE; lia).
  destruct (ents !! n) as [w|] eqn:Ew; cbn [default id].
  2:{ change (Z.land 0 PTE_P) with 0. rewrite c_bool_0. unfold when. wp_steps.
      apply (Hok s fl); [apply mstep_refl, Hv|by rewrite delete_id|done|done]. }
  destruct (pt_ent _ _ _ _ Htab n w Ew) as (_ & _ & Hwr & Hb). rewrite Hb. rewrite c_bool_nz by done. unfold when.
  assert (pframe w ∈ uframes ents) as Hinw by (apply elem_of_uframes; exists n, w; split_and!; done || lia).
  destruct (vrep_page _ _ _ _ _ _ _ (pframe w) Hv ltac:(set_solver)) as [Hfw (dw & Hdw & Hlw)].
  fold (pframe w). rewrite bool_decide_eq_false_2.
  2:{ intros Hz. destruct Hfw as [_ Hfw]. unfold pframe in Hfw. rewrite Hz in Hfw. change (P2V 0) with KERNBASE in Hfw. lia. }
  wp_step. wp_step.
  eapply (wp_kfree kend kend_ok _ s fl (pframe w) dw); [apply Hv|done| |done|done|].
  { apply NoDup_cons in Hnd as [_ Hnd]. apply NoDup_app in Hnd as (_ & _ & Hnd). apply NoDup_app in Hnd as (_ & Hn3 & _). auto. }
  intros s1 Hs1 Hr1 Hk1.
  assert (pframe w <> t) as Hne.
  { apply NoDup_cons in Hnd as [_ Hnd]. apply NoDup_app in Hnd as (_ & Hn2 & _). set_solver. }
  eapply wp_store32; [rewrite Hr1; done|apply Hft|done|].
  eapply Hok; [|by eapply vrep_unmap| |set_solver].
  - eapply mstep_trans; [done|]. apply put_page_mstep, Hk1.
  - intros a Ha Hna. rewrite ram_put_page, lookup_insert_ne by set_solver. apply Hr1. set_solver.
Qed.

(** [deallocuvm] from page [n] to the end of page [m - 1]. *)
Lemma wp_deallocuvm_loop (Q : unit -> T -> Prop) all pgdir tabs m oldsz k : forall s ents fl n,
  vrep kend all s pgdir tabs ents fl -> 0 <= n -> m <= 2 ^ 19 -> (m - 1) * PGSIZE < oldsz <= m * PGSIZE ->
  m - n <= Z.of_nat k ->
  (forall s' fl', mstep s s' -> vrep kend all s' pgdir tabs (cut_pages n m ents) fl' ->
     (forall a, a ∉ vals tabs -> a ∉ fl' -> ram (mem s') !! a = ram (mem s) !! a) -> (forall a, a ∈ fl -> a ∈ fl') -> Q tt s') ->
  wp (deallocuvm_loop kend k pgdir (n * PGSIZE) oldsz) Q s.
Proof.
  induction k as [|k IH]; intros s ents fl n Hv Hn Hm Hsz Hk HQ.
  { cbn [deallocuvm_loop]. rewrite bool_decide_eq_false_2 by (unfold PGSIZE in *; lia). wp_step.
    apply (HQ s fl); [apply mstep_refl, Hv|by rewrite cut_pages_none by lia|done|done]. }
  destruct (decide (n < m)) as [Hlt|Hge].
  2:{ cbn [deallocuvm_loop]. rewrite bool_decide_eq_false_2 by (unfold PGSIZE in *; lia). wp_step.
      apply (HQ s fl); [apply mstep_refl, Hv|by rewrite cut_pages_none by lia|done|done]. }
  assert (n * PGSIZE < oldsz) as Hos by (unfold PGSIZE in *; lia).
  destruct (tabs !! (n / 1024)) as [t|] eqn:Et.
  - eapply wp_dealloc_entry; [done|lia|done|done|]. intros s1 fl1 Hs1 Hv1 Hfr1 Hin1.
    eapply IH; [exact Hv1|lia|lia|done|lia|]. intros s2 fl2 Hs2 Hv2 Hfr2 Hin2.
    apply (HQ s2 fl2); [by eapply mstep_trans|by rewrite cut_pages_step by lia| |auto].
    intros a Ha Hna. rewrite Hfr2, Hfr1 by auto. done.
  - cbn [deallocuvm_loop]. rewrite bool_decide_eq_true_2 by done. wp_step.
    pose proof (vr_table _ _ _ _ _ _ _ Hv) as Htab.
    eapply wp_walk_miss; [done|apply (vrep_page _ _ _ _ _ _ _ pgdir Hv); set_solver|lia|done|].
    rewrite bool_decide_eq_true_2 by done. rewrite PDX_page by lia.
    pose proof (Z.div_mod n 1024 ltac:(lia)) as Hdm. pose proof (Z.mod_pos_bound n 1024 ltac:(lia)) as Hmb.
    assert (n / 1024 < 512) as Hd by (apply Z.div_lt_upper_bound; lia). assert (0 <= n / 1024) by (apply Z.div_pos; lia).
    rewrite PGADDR_dir by lia. set (n' := (n / 1024 + 1) * 1024).
    replace (u32 (u32 (n' * PGSIZE - PGSIZE) + PGSIZE)) with (n' * PGSIZE).
    2:{ rewrite (u32_small (n' * PGSIZE - PGSIZE)) by (unfold n', PGSIZE in *; lia).
        rewrite u32_small by (unfold n', PGSIZE in *; lia). lia. }
    eapply IH; [exact Hv|lia|lia|done|lia|]. intros s2 fl2 Hs2 Hv2 Hfr2 Hin2.
    apply (HQ s2 fl2); try done. rewrite (cut_pages_skip n n'); [done|lia|]. intros j Hj.
    destruct (ents !! j) as [w|] eqn:Ew; [|done]. destruct (pt_ent _ _ _ _ Htab j w Ew) as (_ & [t Ht] & _).
    assert (j / 1024 = n / 1024) as Ej; [|congruence]. symmetry. apply (Z.div_unique_pos j 1024 (n / 1024) (j - n / 1024 * 1024)); lia.
Qed.

(** The number of pages that [sz] bytes of user memory take. *)
Definition npages (sz : Z) : Z := (sz + PGSIZE - 1) / PGSIZE.
Lemma npages_bounds sz : (npages sz - 1) * PGSIZE < sz <= npages sz * PGSIZE.
Proof.
  unfold npages. pose proof (Z.div_mod (sz + PGSIZE - 1) PGSIZE ltac:(done)).
  pose proof (Z.mod_pos_bound (sz + PGSIZE - 1) PGSIZE ltac:(done)). unfold PGSIZE in *. lia.
Qed.
Lemma npages_mono a b : a <= b -> npages a <= npages b.
Proof. intros Hle. apply Z.div_le_mono; [done|lia]. Qed.

Lemma wp_deallocuvm (Q : Z -> T -> Prop) all s pgdir tabs ents fl oldsz newsz :
  vrep kend all s pgdir tabs ents fl -> 0 <= newsz < oldsz -> oldsz <= KERNBASE ->
  (forall s' fl', mstep s s' -> vrep kend all s' pgdir tabs (cut_pages (npages newsz) (npages oldsz) ents) fl' ->
     (forall a, a ∉ vals tabs -> a ∉ fl' -> ram (mem s') !! a = ram (mem s) !! a) -> (forall a, a ∈ fl -> a ∈ fl') -> Q newsz s') ->
  wp (deallocuvm kend pgdir oldsz newsz) Q s.
Proof.
  intros Hv Hn Ho HQ. unfold deallocuvm. rewrite bool_decide_eq_false_2 by lia. unfold KERNBASE in Ho.
  rewrite PGROUNDUP_page by (unfold PGSIZE; lia). fold (npages newsz). wp_step.
  pose proof (npages_bounds oldsz). pose proof (npages_bounds newsz).
  eapply (wp_deallocuvm_loop _ all pgdir tabs (npages oldsz)); [done|unfold PGSIZE in *; lia|unfold PGSIZE in *; lia|lia| |].
  - assert (npages (oldsz - npages newsz * PGSIZE) = npages oldsz - npages newsz) as En.
    { unfold npages at 1. replace (oldsz - npages newsz * PGSIZE + PGSIZE - 1) with
        (oldsz + PGSIZE - 1 + (- npages newsz) * PGSIZE) by lia. rewrite Z.div_add by done. done. }
    fold (npages (oldsz - npages newsz * PGSIZE)). rewrite En. lia.
  - intros s' fl' Hs' Hv' Hfr Hin. wp_step. eauto.
Qed.
End unmapping.

(** ** freevm *)

Definition below (i : Z) (m : gmap Z Z) : gmap Z Z := filter (fun p => p.1 < i) m.

Section freeing.
Context {T : Type} `{HasMem T}.
Variable kend : Z.
Hypothesis kend_ok : KERNBASE < kend.
Implicit Types (s : T) (tabs ents m : gmap Z Z) (fl all : list Z).

Lemma below_succ_Some i m t : m !! i = Some t -> vals (below (i + 1) m) ≡ₚ t :: vals (below i m).
Proof.
  intros Hi. rewrite <- (vals_insert (below i m) i t); [|by apply map_lookup_filter_None_2; right; intros ? _ Hlt; cbn in Hlt; lia].
  f_equiv. apply map_eq. intros k. apply option_eq. intros v. unfold below. rewrite map_lookup_filter_Some. cbn.
  rewrite lookup_insert_Some, map_lookup_filter_Some. cbn. split.
  - intros [Hk Hlt]. destruct (decide (i = k)) as [->|]; [left; split; congruence|right]. split_and!; [done|done|lia].
  - intros [[<- <-]|(Hne & Hk & Hlt)]; (split; [done|lia]).
Qed.
Lemma below_succ_None i m : m !! i = None -> below (i + 1) m = below i m.
Proof.
  intros Hi. apply map_eq. intros k. apply option_eq. intros v. unfold below. rewrite !map_lookup_filter_Some. cbn.
  split; intros [Hk Hlt]; (split; [done|]); [|lia]. assert (k <> i) by (intros ->; congruence). lia.
Qed.
Lemma below_all i m : (forall k v, m !! k = Some v -> k < i) -> below i m = m.
Proof. intros Hk. apply map_filter_id. intros k v Hkv. cbn. by eapply Hk. Qed.
Lemma below_none m : (forall k v, m !! k = Some v -> 0 <= k) -> below 0 m = ∅.
Proof.
  intros Hk. apply map_empty. intros k. apply map_lookup_filter_None_2. right. intros v Hkv Hlt. cbn in Hlt.
  specialize (Hk _ _ Hkv). lia.
Qed.
Lemma elem_of_below i m t : t ∈ vals (below i m) -> exists k, k < i /\ m !! k = Some t.
Proof. intros [k Hk]%elem_of_vals. apply map_lookup_filter_Some in Hk as [Hk Hlt]. eauto. Qed.

(** The second loop of [freevm]: the page tables. *)
Lemma wp_free_tables s pgdir tabs ents fl all : vrep kend all s pgdir tabs ents fl ->
  wp (for_loop NPDENTRIES 0 (fun i =>
        w ← load32 (pgdir + 4 * i);
        when (c_bool (Z.land w PTE_P)) (kfree kend (P2V (PTE_ADDR w)))))
    (fun _ s' => exists fl', mstep s s' /\ kmem_rep kend s' fl' /\ fl' ≡ₚ vals tabs ++ fl /\
       forall a, a ∉ vals tabs -> ram (mem s') !! a = ram (mem s) !! a) s.
Proof.
  intros Hv. pose proof (vr_table _ _ _ _ _ _ _ Hv) as Htab. pose proof (vrep_nd _ _ _ _ _ _ _ Hv) as Hnd.
  pose proof Hnd as Hnd0. apply NoDup_cons in Hnd0 as [Hp1 Hnd0]. apply NoDup_app in Hnd0 as (Hn1 & Hn2 & _).
  assert (forall k v, tabs !! k = Some v -> 0 <= k < 1024) as Hdom by (intros k v Hk; apply (pt_tab _ _ _ _ Htab k v Hk)).
  pose (I := fun (i : Z) s' => exists fl', mstep s s' /\ kmem_rep kend s' fl' /\ fl' ≡ₚ vals (below i tabs) ++ fl /\
    forall a, a ∉ vals (below i tabs) -> ram (mem s') !! a = ram (mem s) !! a).
  eapply wp_mono; [apply (wp_for_loop I)|].
  - exists fl. rewrite below_none by (intros k v Hk; apply Hdom in Hk; lia). split_and!; [apply mstep_refl, Hv|apply Hv|done|done].
  - intros i s' Hi (fl' & Hs' & Hk' & Hp' & Hfr'). change (0 + Z.of_nat NPDENTRIES) with 1024 in Hi.
    pose proof (pt_dir _ _ _ _ Htab) as (d & Hd & Hw). wp_step.
    eapply wp_load32; [|apply (page_aligned kend s), (vrep_page _ _ _ _ _ _ _ pgdir Hv); set_solver|done|].
    { rewrite Hfr'; [exact Hd|]. intros (k & _ & Hk)%elem_of_below. apply Hp1, elem_of_app. left. apply elem_of_vals. eauto. }
    rewrite Hw by done. destruct (tabs !! i) as [t|] eqn:Et; cbn [pde_word from_option].
    2:{ change (Z.land 0 PTE_P) with 0. rewrite c_bool_0. unfold when. wp_step. exists fl'. by rewrite below_succ_None. }
    assert (t ∈ vals tabs) as Hin by (apply elem_of_vals; eauto).
    destruct (vrep_page _ _ _ _ _ _ _ t Hv ltac:(set_solver)) as [Hft (dt & Hdt & Hlt)].
    destruct (pframe_entry kend kend_ok t 7 Hft) as (Ef & _); [done|]. unfold pframe in Ef. rewrite Ef.
    rewrite present_add by (apply (frame_range kend kend_ok); done). rewrite c_bool_nz by done. unfold when.
    assert (t ∉ vals (below i tabs)) as Hnb.
    { intros (k & Hk & Hkt)%elem_of_below. assert (k = i) as -> by (by eapply vals_inj). lia. }
    eapply (wp_kfree kend kend_ok _ s' fl' t dt); [done|done| |by rewrite Hfr'|done|].
    { rewrite Hp'. intros [|Ht]%elem_of_app; [done|]. apply (Hn2 t Hin). set_solver. }
    intros s2 Hs2 Hr2 Hk2. exists (t :: fl'). split_and!; [by eapply mstep_trans|done| |].
    + rewrite (below_succ_Some i tabs t Et). cbn. by rewrite Hp'.
    + intros a Ha. rewrite (below_succ_Some i tabs t Et) in Ha. apply not_elem_of_cons in Ha as [Hat Ha].
      by rewrite Hr2, Hfr'.
  - intros [] s' (fl' & Hs' & Hk' & Hp' & Hfr'). change (0 + Z.of_nat NPDENTRIES) with 1024 in *.
    rewrite below_all in Hp', Hfr' by (intros k v Hk; apply Hdom in Hk; lia). by exists fl'.
Qed.

Lemma uframes_cut_all ents : (forall n w, ents !! n = Some w -> 0 <= n) -> uframes (cut_pages 0 (2 ^ 19) ents) = [].
Proof.
  intros Hn. destruct (uframes _) as [|a l] eqn:E; [done|]. exfalso.
  assert (a ∈ uframes (cut_pages 0 (2 ^ 19) ents)) as Ha by (rewrite E; set_solver).
  apply elem_of_uframes in Ha as (n & w & Hw & Hlt & _). rewrite lookup_cut_pages in Hw. case_decide; [done|].
  specialize (Hn n w Hw). lia.
Qed.

(** All pages of the address space go back to the free list. *)
Lemma wp_freevm (Q : unit -> T -> Prop) all s pgdir tabs ents fl : vrep kend all s pgdir tabs ents fl ->
  (forall s' fl', mstep s s' -> kmem_rep kend s' fl' -> fl' ≡ₚ all ->
     (forall a, a ∉ all -> ram (mem s') !! a = ram (mem s) !! a) -> Q tt s') ->
  wp (freevm kend pgdir) Q s.
Proof.
  intros Hv HQ. unfold freevm. pose proof (vrep_page _ _ _ _ _ _ _ pgdir Hv ltac:(set_solver)) as [Hfp _].
  rewrite bool_decide_eq_false_2 by (destruct Hfp; unfold KERNBASE in *; lia). wp_step.
  eapply wp_deallocuvm; [done|done|done|unfold KERNBASE in *; lia|]. intros s1 fl1 Hs1 Hv1 Hfr1 Hin1.
  change (npages 0) with 0 in Hv1. change (npages KERNBASE) with (2 ^ 19) in Hv1. wp_step.
  wp_apply (wp_free_tables s1 pgdir tabs _ fl1 all Hv1). intros [] s2 (fl2 & Hs2 & Hk2 & Hp2 & Hfr2).
  assert (all ≡ₚ pgdir :: vals tabs ++ fl1) as Hall.
  { rewrite (vr_pool _ _ _ _ _ _ _ Hv1). rewrite uframes_cut_all; [done|].
    intros n w Hw. apply (pt_ent _ _ _ _ (vr_table _ _ _ _ _ _ _ Hv) n w Hw). }
  assert (pgdir ∉ vals tabs ++ fl1) as Hnp.
  { pose proof (vr_nodup _ _ _ _ _ _ _ Hv) as Hnd. rewrite Hall in Hnd. by apply NoDup_cons in Hnd as [? _]. }
  destruct (vrep_page _ _ _ _ _ _ _ pgdir Hv1 ltac:(set_solver)) as [_ (d & Hd & Hl)].
  eapply (wp_kfree kend kend_ok _ s2 fl2 pgdir d); [done|done|by rewrite Hp2| |done|].
  { rewrite Hfr2; [done|]. set_solver. }
  intros s3 Hs3 Hr3 Hk3. apply (HQ s3 (pgdir :: fl2)); [|done|by rewrite Hp2, Hall|].
  - eapply mstep_trans; [exact Hs1|]. by eapply mstep_trans.
  - intros a Ha. rewrite Hall in Ha. rewrite Hr3, Hfr2, Hfr1; [done|..]; set_solver.
Qed.
End freeing.
