(* ===== verification/VmCopy.v ===== *)
(** * Kernel mappings, growth and copies of address spaces

    [setupkvm], [allocuvm] and [copyuvm] on every path: what the new entries
    are and what they map to, and where the pages are after a failure. *)

From S2P Require Import Prelude Bytes Params Machine BlockCache CString Kalloc Vm VmRep VmSpace.
Local Open Scope Z_scope.

(** ** setupkvm *)

(** Page number of [KERNBASE] and the entry the kernel has for a page. *)
Definition KPN : Z := 2 ^ 19.
Definition kernel_pte (kdata n : Z) : option Z :=
  if decide (KPN <= n < KPN + 256) then Some ((n - KPN) * PGSIZE + 3)
  else if decide (KPN + 256 <= n < kdata / PGSIZE) then Some ((n - KPN) * PGSIZE + 1)
  else if decide (kdata / PGSIZE <= n < KPN + PHYSTOP / PGSIZE) then Some ((n - KPN) * PGSIZE + 3)
  else if decide (DEVSPACE / PGSIZE <= n < 2 ^ 20) then Some (n * PGSIZE + 3)
  else None.

Section setup.
Context {T : Type} `{HasMem T}.
Variables kend kdata : Z.
Hypothesis kend_ok : KERNBASE < kend.
Hypothesis kdata_page : kdata mod PGSIZE = 0.
Hypothesis kdata_ok : KERNLINK < kdata < KERNBASE + PHYSTOP.
Implicit Types (s : T) (tabs ents : gmap Z Z) (fl all : list Z).

Lemma vrep_perm all all' s pgdir tabs ents fl : vrep kend all s pgdir tabs ents fl -> all ≡ₚ all' ->
  vrep kend all' s pgdir tabs ents fl.
Proof.
  intros [V1 V2 V3 V4 V5] Hp. split; [done|by rewrite <- Hp|by rewrite <- Hp| |done].
  intros a Ha. apply V4. by rewrite Hp.
Qed.

(** How many pages an address space without free pages can have. *)
Lemma length_vals_le (m : gmap Z Z) (n : Z) : 0 <= n -> (forall k v, m !! k = Some v -> 0 <= k < n) ->
  Z.of_nat (length (vals m)) <= n.
Proof.
  intros Hn Hd. unfold vals. rewrite length_fmap, length_map_to_list, <- size_dom.
  assert (dom m ⊆ (list_to_set (seqZ 0 n) : gset Z)) as Hsub.
  { intros k [v Hk]%elem_of_dom. apply elem_of_list_to_set, elem_of_seqZ. specialize (Hd k v Hk). lia. }
  apply subseteq_size in Hsub. pose proof (size_list_to_set_le (seqZ 0 n)) as Hl. rewrite length_seqZ in Hl. lia.
Qed.
Lemma vrep_size all s pgdir tabs ents n : vrep kend all s pgdir tabs ents [] -> 0 <= n ->
  (forall j w, ents !! j = Some w -> j < 2 ^ 19 -> j < n) -> Z.of_nat (length all) <= 1025 + n.
Proof.
  intros Hv Hn Hu. rewrite (vr_pool _ _ _ _ _ _ _ Hv). cbn [length]. rewrite !length_app. cbn [length].
  pose proof (vr_table _ _ _ _ _ _ _ Hv) as Ht. unfold uframes. rewrite length_fmap.
  pose proof (length_vals_le tabs 1024 ltac:(lia) (fun k v Hk => proj1 (pt_tab _ _ _ _ Ht k v Hk))).
  assert (Z.of_nat (length (vals (filter user ents))) <= n); [|lia]. apply length_vals_le; [done|].
  intros k v [Hk Hlt]%map_lookup_filter_Some. split; [by apply (pt_ent _ _ _ _ Ht k v Hk)|by eapply Hu].
Qed.

(** An entry of [kmap] covers the pages from [n] to [n + c]. *)
Definition krange (lo : Z) (k : kmap_entry) (n : Z) (c : nat) : Prop :=
  k_virt k = n * PGSIZE /\ u32 (k_end k - k_start k) = (Z.of_nat c + 1) * PGSIZE /\
  lo <= n /\ n + Z.of_nat c < 2 ^ 20 /\ k_start k mod PGSIZE = 0 /\ 0 <= k_start k /\
  k_start k + Z.of_nat c * PGSIZE < 2 ^ 32 /\ 0 <= k_perm k < PGSIZE.
Fixpoint kranges (lo : Z) (ks : list kmap_entry) (rs : list (Z * nat)) : Prop :=
  match ks, rs with
  | [], [] => True
  | k :: ks', (n, c) :: rs' => krange lo k n c /\ kranges (n + Z.of_nat c + 1) ks' rs'
  | _, _ => False
  end.
Fixpoint range_ents (ks : list kmap_entry) (rs : list (Z * nat)) ents : gmap Z Z :=
  match ks, rs with
  | k :: ks', (n, c) :: rs' => range_ents ks' rs' (map_range (S c) n (k_start k) (k_perm k) ents)
  | _, _ => ents
  end.

Lemma wp_setupkvm_loop (Q : Z -> T -> Prop) all pgdir ks : forall s tabs ents fl lo rs,
  vrep kend all s pgdir tabs ents fl -> KPN <= lo -> kranges lo ks rs -> (forall j, lo <= j -> ents !! j = None) ->
  (forall j, j < 2 ^ 19 -> ents !! j = None) ->
  (forall s' tabs' fl', mstep s s' -> vrep kend all s' pgdir tabs' (range_ents ks rs ents) fl' ->
     (forall a, a ∉ all -> ram (mem s') !! a = ram (mem s) !! a) -> Q pgdir s') ->
  (forall s' fl', mstep s s' -> kmem_rep kend s' fl' -> fl' ≡ₚ all -> Z.of_nat (length all) <= 1025 ->
     (forall a, a ∉ all -> ram (mem s') !! a = ram (mem s) !! a) -> Q 0 s') ->
  wp (setupkvm_loop kend pgdir ks) Q s.
Proof.
  induction ks as [|k ks IH]; intros s tabs ents fl lo rs Hv Hlo Hks He Hu Hok Hfail.
  { cbn [setupkvm_loop]. wp_step. eapply Hok; [apply mstep_refl, Hv| |done]. by destruct rs. }
  destruct rs as [|[n c] rs]; [done|]. destruct Hks as [(Hvirt & Hsz & Hn & Hc & Ha & Hs0 & Hs1 & Hp) Hks].
  cbn [setupkvm_loop]. wp_step. rewrite Hvirt, Hsz. unfold KPN in Hlo.
  unfold mappages. assert (((Z.of_nat c + 1) * PGSIZE - 1) / PGSIZE = Z.of_nat c) as Ec.
  { symmetry. apply (Z.div_unique_pos _ _ _ (PGSIZE - 1)); unfold PGSIZE; lia. }
  destruct (mappages_fuel n ((Z.of_nat c + 1) * PGSIZE)) as (El & Ea & Ef); [lia|unfold PGSIZE; lia|unfold PGSIZE; lia|].
  cbv zeta in El, Ef. rewrite Ea, Ef, El, Ec, Nat2Z.id.
  eapply (wp_mappages_kernel kend kend_ok); [done|lia|done|intros; apply He; lia|done..| |].
  - intros s1 tabs1 fl1 Hs' Hv1 Hfr. change (0 <z 0) with false. cbv iota.
    eapply IH; [exact Hv1| |exact Hks| | | |].
    + unfold KPN. lia.
    + intros j Hj. rewrite lookup_map_range, decide_False by lia. apply He. lia.
    + intros j Hj. rewrite lookup_map_range, decide_False by lia. by apply Hu.
    + intros s2 tabs2 fl2 Hs2 Hv2 Hfr2. eapply Hok; [by eapply mstep_trans|done|]. intros a Hna. by rewrite Hfr2, Hfr.
    + intros s2 fl2 Hs2 Hk2 Hp2 Hl2 Hfr2. eapply Hfail; [by eapply mstep_trans|done|done|done|]. intros a Hna. by rewrite Hfr2, Hfr.
  - intros s1 tabs1 ents1 Hs' Hv1 Hu1 Hfr. change (-1 <z 0) with true. cbv iota. wp_step.
    eapply (wp_freevm kend kend_ok); [done|]. intros s2 fl2 Hs2 Hk2 Hp2 Hfr2. wp_step.
    apply (Hfail s2 fl2); [by eapply mstep_trans|done|done| |intros a Hna; by rewrite Hfr2, Hfr].
    rewrite <- (Z.add_0_r 1025). eapply vrep_size; [exact Hv1|done|]. intros j w Hw Hj. by rewrite Hu1, Hu in Hw.
Qed.

Lemma kmem_pages s fl a : kmem_rep kend s fl -> a ∈ fl -> is_page kend s a.
Proof.
  intros Hk Ha. split; [|eapply flist_page; [apply Hk|done]].
  pose proof (kr_frames _ _ _ Hk) as Hf. rewrite Forall_forall in Hf. by apply Hf.
Qed.

Lemma uframes_nouser ents : (forall n w, ents !! n = Some w -> KPN <= n) -> uframes ents = [].
Proof.
  intros Hn. destruct (uframes ents) as [|a l] eqn:E; [done|]. exfalso.
  assert (a ∈ uframes ents) as Ha by (rewrite E; set_solver).
  apply elem_of_uframes in Ha as (n & w & Hw & Hlt & _). specialize (Hn n w Hw). unfold KPN in *. lia.
Qed.

(** The empty page directory. *)
Lemma vrep_empty s s1 pgdir fl : kmem_rep kend s (pgdir :: fl) -> ram (mem s1) = ram (mem s) -> kmem_rep kend s1 fl ->
  vrep kend (pgdir :: fl) (put_page pgdir (replicate (Z.to_nat PGSIZE) 0) s1) pgdir ∅ ∅ fl.
Proof.
  intros Hk Hr Hk1. pose proof (kr_nodup _ _ _ Hk) as Hnd. pose proof Hnd as [Hnp _]%NoDup_cons. split.
  - by apply put_page_kmem.
  - by rewrite (uframes_nouser ∅).
  - done.
  - intros a Ha. apply is_page_put; [|by rewrite length_replicate]. eapply is_page_ext; [by apply (kmem_pages s (pgdir :: fl))|by rewrite Hr].
  - rewrite ram_put_page. split.
    + eexists. rewrite lookup_insert_eq. split; [done|]. intros i Hi. by rewrite word_zero.
    + by intros i t Hi.
    + by intros n w Hn.
Qed.

Definition kernel_ents ents : Prop := forall n, ents !! n = kernel_pte kdata n.

Definition kp : Z := kdata / PGSIZE.
Definition kmap_ranges : list (Z * nat) :=
  [(KPN, 255%nat); (KPN + 256, Z.to_nat (kp - KPN - 257)); (kp, Z.to_nat (KPN + PHYSTOP / PGSIZE - kp - 1));
   (DEVSPACE / PGSIZE, 8191%nat)].

Lemma kp_bounds : kdata = kp * PGSIZE /\ KPN + 256 < kp < KPN + PHYSTOP / PGSIZE /\ V2P kdata = (kp - KPN) * PGSIZE.
Proof using kdata_ok kdata_page.
  assert (kdata = kp * PGSIZE) as E by (unfold kp; pose proof (Z.div_mod kdata PGSIZE ltac:(done)); lia).
  split; [done|]. unfold KERNLINK, EXTMEM, KERNBASE, PHYSTOP in kdata_ok. unfold KPN, PHYSTOP.
  change (0xE000000 / PGSIZE) with 57344. unfold PGSIZE in *. split; [lia|].
  unfold V2P, KERNBASE. rewrite (u32_small kdata), u32_small by lia. lia.
Qed.

Lemma kmap_kranges : kranges KPN (kmap kdata) kmap_ranges.
Proof using kdata_ok kdata_page.
  destruct kp_bounds as (E & Hb & Ev). unfold kmap, kmap_ranges. change (PHYSTOP / PGSIZE) with 57344 in *.
  change (DEVSPACE / PGSIZE) with 1040384. unfold KPN in *. cbn [kranges]. unfold krange. cbn [k_virt k_start k_end k_perm].
  rewrite Ev, E. unfold PGSIZE in *. change (V2P KERNLINK) with 0x100000. split; [done|]. split; [|split; [|split; [|done]]].
  - split_and!; try done; try lia. rewrite u32_small by lia. lia.
  - split_and!; try lia; try done.
    + unfold PHYSTOP. rewrite u32_small by lia. lia.
    + apply Z_mod_mult.
  - split_and!; try lia; done.
Qed.

Lemma kmap_ents : kernel_ents (range_ents (kmap kdata) kmap_ranges ∅).
Proof using kdata_ok kdata_page.
  destruct kp_bounds as (E & Hb & Ev). intros n. unfold kmap, kmap_ranges. cbn [range_ents k_start k_perm].
  rewrite !lookup_map_range. rewrite Ev. unfold kernel_pte. fold kp. change (PHYSTOP / PGSIZE) with 57344 in *.
  change (DEVSPACE / PGSIZE) with 1040384. change (V2P KERNLINK) with (256 * PGSIZE). change DEVSPACE with (1040384 * PGSIZE).
  change (Z.lor PTE_W PTE_P) with 3. change (Z.lor 0 PTE_P) with 1. unfold KPN in *.
  repeat match goal with |- context [decide ?P] => destruct (decide P) end; try lia; try done; f_equal; unfold PGSIZE; lia.
Qed.

Lemma wp_setupkvm (Q : Z -> T -> Prop) s fl : kmem_rep kend s fl ->
  (forall s' pgdir tabs ents fl', mstep s s' -> vrep kend fl s' pgdir tabs ents fl' -> kernel_ents ents ->
     (forall a, a ∉ fl -> ram (mem s') !! a = ram (mem s) !! a) -> Q pgdir s') ->
  (forall s' fl', mstep s s' -> kmem_rep kend s' fl' -> fl' ≡ₚ fl -> Z.of_nat (length fl) <= 1025 ->
     (forall a, a ∉ fl -> ram (mem s') !! a = ram (mem s) !! a) -> Q 0 s') ->
  wp (setupkvm kend kdata) Q s.
Proof using kdata_ok kdata_page kend_ok.
  intros Hk Hok Hfail. unfold setupkvm. wp_step. eapply (wp_kalloc kend kend_ok); [done|]. intros s1 Hs1 Hr1.
  destruct fl as [|pgdir fl]; intros Hk1.
  { rewrite bool_decide_eq_true_2 by done. wp_step. apply (Hfail s1 []); [done|done|done|cbn; lia|by intros; rewrite Hr1]. }
  destruct (kmem_pages s _ pgdir Hk ltac:(set_solver)) as [Hf (d & Hd & Hl)].
  rewrite bool_decide_eq_false_2 by (by apply (frame_nz kend)). wp_step.
  destruct (frame_range kend kend_ok pgdir Hf) as (Hfr & Hfa & _).
  eapply (wp_memset_page _ s1 pgdir 0 d); [done|unfold KERNBASE, PHYSTOP in *; lia|lia|by rewrite Hr1|done|].
  fold (put_page pgdir (replicate (Z.to_nat PGSIZE) 0) s1). set (s2 := put_page pgdir _ s1).
  change (DEVSPACE <z P2V PHYSTOP) with false. cbv iota.
  pose proof (vrep_empty s s1 pgdir fl Hk Hr1 Hk1) as Hv2. fold s2 in Hv2.
  assert (mstep s s2) as Hs2 by (eapply mstep_trans; [exact Hs1|apply put_page_mstep, Hk1]).
  assert (forall a, a ∉ pgdir :: fl -> ram (mem s2) !! a = ram (mem s) !! a) as Hfr2.
  { intros a Ha. unfold s2. rewrite ram_put_page, lookup_insert_ne, Hr1; [done|]. set_solver. }
  eapply wp_setupkvm_loop; [exact Hv2|done|apply kmap_kranges|done|done| |].
  - intros s3 tabs3 fl3 Hs3 Hv3 Hfr3. eapply Hok; [by eapply mstep_trans|done|apply kmap_ents|]. intros; by rewrite Hfr3, Hfr2.
  - intros s3 fl3 Hs3 Hk3 Hp3 Hl3 Hfr3. eapply Hfail; [by eapply mstep_trans|done|done|done|]. intros; by rewrite Hfr3, Hfr2.
Qed.
End setup.

(** ** allocuvm *)

Definition zero_page : list Z := replicate (Z.to_nat PGSIZE) 0.

(** The pages that mapping [k] pages from page [n] on takes from the free list:
    one for each, and one for each page table that is not there yet. *)
Fixpoint pages_needed (k : nat) (n : Z) (D : gset Z) : nat :=
  match k with
  | O => 0
  | S k' => (if decide (n / 1024 ∈ D) then 1 else 2) + pages_needed k' (n + 1) ({[n / 1024]} ∪ D)
  end.

Lemma walked_needs n tabs fl tabs' fl' k : walked n tabs fl tabs' fl' ->
  dom tabs' = {[n / 1024]} ∪ dom tabs /\ (pages_needed (S k) n (dom tabs) + length fl' = S (length fl) + pages_needed k (n + 1) (dom tabs'))%nat.
Proof.
  intros [(Ht & -> & ->)|(Ht & t & -> & ->)]; cbn [pages_needed].
  - apply elem_of_dom in Ht. assert (dom tabs = {[n / 1024]} ∪ dom tabs) as E by set_solver.
    split; [exact E|]. rewrite decide_True by done. rewrite <- E. lia.
  - apply not_elem_of_dom in Ht. rewrite dom_insert_L, decide_False by done. cbn [length]. split; [done|lia].
Qed.
Lemma walk_fails_needs n tabs fl k : walk_fails n tabs fl -> (S (length fl) < pages_needed (S k) n (dom tabs))%nat.
Proof. intros [Ht ->]. apply not_elem_of_dom in Ht. cbn [pages_needed length]. rewrite decide_False by done. lia. Qed.

Section grow.
Context {T : Type} `{HasMem T}.
Variable kend : Z.
Hypothesis kend_ok : KERNBASE < kend.
Implicit Types (s : T) (tabs ents : gmap Z Z) (fl all : list Z).

(** A page is taken off the free list and out of the account. *)
Lemma vrep_take all s s1 pgdir tabs ents fl p : vrep kend all s pgdir tabs ents (p :: fl) ->
  ram (mem s1) = ram (mem s) -> kmem_rep kend s1 fl ->
  exists all', all ≡ₚ p :: all' /\ vrep kend all' s1 pgdir tabs ents fl /\ is_page kend s1 p.
Proof.
  intros Hv Hr Hk. pose proof (vrep_nd _ _ _ _ _ _ _ Hv) as Hnd.
  assert (pgdir :: vals tabs ++ uframes ents ++ p :: fl ≡ₚ p :: pgdir :: vals tabs ++ uframes ents ++ fl) as Hp.
  { rewrite (Permutation_swap pgdir p). apply Permutation_skip. by rewrite !app_assoc, <- Permutation_middle. }
  exists (pgdir :: vals tabs ++ uframes ents ++ fl). split; [by rewrite (vr_pool _ _ _ _ _ _ _ Hv)|].
  assert (forall a, a ∈ pgdir :: vals tabs ++ uframes ents ++ p :: fl -> is_page kend s1 a) as Hpg.
  { intros a Ha. eapply is_page_ext; [by apply (vrep_page _ _ _ _ _ _ _ a Hv)|by rewrite Hr]. }
  split; [|apply Hpg; rewrite Hp; set_solver]. split; [done|done| | |].
  - rewrite Hp in Hnd. by apply NoDup_cons in Hnd as [_ ?].
  - intros a Ha. apply Hpg. rewrite Hp. set_solver.
  - rewrite Hr. apply Hv.
Qed.

(** A page of the account comes back. *)
Lemma vrep_give all s s1 pgdir tabs ents fl p : vrep kend all s pgdir tabs ents fl -> NoDup (p :: all) -> is_page kend s1 p ->
  (forall a, a <> p -> ram (mem s1) !! a = ram (mem s) !! a) -> kmem_rep kend s1 (p :: fl) ->
  vrep kend (p :: all) s1 pgdir tabs ents (p :: fl).
Proof.
  intros [V1 V2 V3 V4 V5] [Hnp Hnd]%NoDup_cons Hp Hr Hk. pose proof Hnp as Hnp'. rewrite V2 in Hnp'. split.
  - done.
  - rewrite V2. rewrite (Permutation_swap pgdir p). apply Permutation_skip. by rewrite !app_assoc, <- Permutation_middle.
  - by apply NoDup_cons.
  - intros a [->|Ha]%elem_of_cons; [done|]. eapply is_page_ext; [by apply V4|]. apply Hr. by intros ->.
  - apply (ptable_ext (ram (mem s))); [done|apply Hr; set_solver|]. intros t Ht. apply Hr. set_solver.
Qed.

(** The pages from [n0] up to [n] are new and zero, the others as before. *)
Definition grown_to (ents0 : gmap Z Z) (n0 n : Z) s ents : Prop :=
  forall j, if decide (n0 <= j < n)
    then exists p, ents !! j = Some (V2P p + 7) /\ pframe (V2P p + 7) = p /\ ram (mem s) !! p = Some zero_page
    else ents !! j = ents0 !! j.

Lemma grown_cut ents0 n0 n m s ents : grown_to ents0 n0 n s ents -> n <= m -> (forall j, n0 <= j < m -> ents0 !! j = None) ->
  cut_pages n0 m ents = ents0.
Proof.
  intros Hg Hle Hn. apply map_eq. intros j. rewrite lookup_cut_pages. specialize (Hg j).
  destruct (decide (n0 <= j < m)); [by rewrite Hn|]. by rewrite decide_False in Hg by lia.
Qed.
Lemma grown_uframes ents0 n0 n s ents : grown_to ents0 n0 n s ents -> (forall j, n0 <= j < n -> ents0 !! j = None) ->
  forall a, a ∈ uframes ents0 -> a ∈ uframes ents.
Proof.
  intros Hg Hn a (j & w & Hw & Hj & ->)%elem_of_uframes. apply elem_of_uframes. exists j, w. split; [|done].
  specialize (Hg j). destruct (decide (n0 <= j < n)); [by rewrite Hn in Hw|congruence].
Qed.

(** What [allocuvm] keeps: pages outside of the account and the user memory
    that was there. *)
Definition kept_pages all ents0 s s' : Prop :=
  forall a, a ∉ all \/ a ∈ uframes ents0 -> ram (mem s') !! a = ram (mem s) !! a.

(** Changes of the tables alone. *)
Lemma tables_keep all s s' pgdir tabs' ents fl' : vrep kend all s' pgdir tabs' ents fl' ->
  (forall a, a <> pgdir -> a ∉ vals tabs' -> ram (mem s') !! a = ram (mem s) !! a) -> kept_pages all ents s s'.
Proof.
  intros Hv Hfr a Ha. pose proof (vrep_nd _ _ _ _ _ _ _ Hv) as Hnd. pose proof (vr_pool _ _ _ _ _ _ _ Hv) as Hp.
  destruct Ha as [Ha|Ha].
  - rewrite Hp in Ha. apply Hfr; set_solver.
  - apply NoDup_cons in Hnd as [Hn1 Hnd]. apply NoDup_app in Hnd as (_ & Hn2 & _). apply Hfr; set_solver.
Qed.

Lemma vrep_ram all s s1 pgdir tabs ents fl fl' : vrep kend all s pgdir tabs ents fl -> ram (mem s1) = ram (mem s) ->
  kmem_rep kend s1 fl' -> fl = fl' -> vrep kend all s1 pgdir tabs ents fl'.
Proof.
  intros [V1 V2 V3 V4 V5] Hr Hk <-. split; [done|done|done| |by rewrite Hr].
  intros a Ha. eapply is_page_ext; [by apply V4|by rewrite Hr].
Qed.
Lemma vrep_put_out all s pgdir tabs ents fl p d : vrep kend all s pgdir tabs ents fl -> p ∉ all ->
  vrep kend all (put_page p d s) pgdir tabs ents fl.
Proof.
  intros [V1 V2 V3 V4 V5] Hp. pose proof Hp as Hp'. rewrite V2 in Hp'. split; [apply put_page_kmem; [done|set_solver]|done|done| |].
  - intros a Ha. eapply is_page_ext; [by apply V4|]. rewrite ram_put_page, lookup_insert_ne; [done|]. by intros ->.
  - rewrite ram_put_page. apply (ptable_ext (ram (mem s))); [done|apply lookup_insert_ne; set_solver|].
    intros t Ht. apply lookup_insert_ne. set_solver.
Qed.

(** After a failure: [deallocuvm] takes the new pages away again. *)
Lemma wp_alloc_undo (Q : Z -> T -> Prop) all s pgdir tabs ents fl ents0 n oldsz newsz :
  vrep kend all s pgdir tabs ents fl -> grown_to ents0 (npages oldsz) n s ents -> n <= npages newsz ->
  (forall j, npages oldsz <= j < npages newsz -> ents0 !! j = None) -> 0 <= oldsz < newsz -> newsz < KERNBASE ->
  (forall s' fl', mstep s s' -> vrep kend all s' pgdir tabs ents0 fl' -> kept_pages all ents0 s s' ->
     (forall a, a ∉ all -> ram (mem s') !! a = ram (mem s) !! a) -> Q oldsz s') ->
  wp (deallocuvm kend pgdir newsz oldsz) Q s.
Proof.
  intros Hv Hg Hn He Hsz Hk HQ. eapply (wp_deallocuvm kend kend_ok); [done|lia|lia|]. intros s' fl' Hs' Hv' Hfr Hin.
  rewrite (grown_cut _ _ _ _ _ _ Hg Hn He) in Hv'. pose proof (vrep_nd _ _ _ _ _ _ _ Hv') as Hnd.
  assert (kept_pages all ents0 s s') as Hkeep.
  { intros a [Ha|Ha]; [rewrite (vr_pool _ _ _ _ _ _ _ Hv') in Ha; apply Hfr; set_solver|].
    apply NoDup_cons in Hnd as [_ Hnd]. apply NoDup_app in Hnd as (_ & Hn2 & Hnd). apply NoDup_app in Hnd as (_ & Hn3 & _).
    apply Hfr; [|auto]. set_solver. }
  apply (HQ s' fl'); [done|done|done|]. intros a Ha. apply Hkeep. by left.
Qed.

(** A page that was filled is mapped. *)
Lemma wp_map_new (Q : Z -> T -> Prop) all s pgdir tabs ents fl n p d flags : vrep kend all s pgdir tabs ents fl ->
  NoDup (p :: all) -> is_page kend s p -> length d = Z.to_nat PGSIZE -> 0 <= n < 2 ^ 19 -> ents !! n = None ->
  0 <= flags < PGSIZE ->
  (forall s' tabs' fl', mstep s s' ->
     vrep kend (p :: all) s' pgdir tabs' (<[n := V2P p + Z.lor flags PTE_P]> ents) fl' ->
     ram (mem s') !! p = Some d -> kept_pages (p :: all) ents s s' -> walked n tabs fl tabs' fl' -> Q 0 s') ->
  (forall s', mstep s s' -> walk_fails n tabs fl -> vrep kend all s' pgdir tabs ents [] -> is_page kend s' p ->
     (forall a, a <> p -> ram (mem s') !! a = ram (mem s) !! a) -> Q (-1) s') ->
  wp (mappages pgdir (n * PGSIZE) PGSIZE (V2P p) flags) Q (put_page p d s).
Proof.
  intros Hv Hnd Hp Hl Hn He Hfl Hok Hfail. pose proof (proj1 Hp) as Hf. pose proof Hnd as [Hnp _]%NoDup_cons.
  set (s1 := put_page p d s). assert (mstep s s1) as Hs1 by (apply put_page_mstep, Hv).
  assert (is_page kend s1 p) as Hp1 by (by apply is_page_put).
  assert (forall a, a <> p -> ram (mem s1) !! a = ram (mem s) !! a) as Hr1.
  { intros a Ha. unfold s1. by rewrite ram_put_page, lookup_insert_ne. }
  eapply (wp_mappages_user kend kend_ok _ all s1 pgdir tabs ents fl n p); [by apply vrep_put_out|done|done|done|done|done| |].
  - intros s2 tabs2 fl2 Hs2 Hv2 Hsub Hfr2. pose proof (tables_keep _ _ _ _ _ _ _ Hv2 Hfr2) as Hkp.
    eapply Hok; [by eapply mstep_trans|done| | |].
    + rewrite (Hkp p); [unfold s1; by rewrite ram_put_page, lookup_insert_eq|]. right.
      apply elem_of_uframes. exists n, (V2P p + Z.lor flags PTE_P). rewrite lookup_insert_eq. split_and!; [done|lia|].
      by destruct (pframe_entry kend kend_ok p _ Hf (proj1 (perm_range flags Hfl))) as (-> & _).
    + intros a Ha. rewrite Hkp.
      * apply Hr1. intros ->. destruct Ha as [Ha|Ha]; [set_solver|].
        apply Hnp. rewrite (vr_pool _ _ _ _ _ _ _ Hv). set_solver.
      * destruct Ha as [Ha|Ha]; [by left|right]. apply elem_of_uframes in Ha as (j & w & Hw & Hj & ->).
        apply elem_of_uframes. exists j, w. rewrite lookup_insert_ne by congruence. done.
    + done.
  - intros s2 Hs2 Hr2 Hwf Hv2. apply Hfail; [by eapply mstep_trans|done|done| |].
    + eapply is_page_ext; [exact Hp1|by rewrite Hr2].
    + intros a Ha. by rewrite Hr2, Hr1.
Qed.

(** [memset] of a page, for a continuation on the changed page. *)
Lemma wp_clear_page (Q : unit -> T -> Prop) s p : is_page kend s p -> Q tt (put_page p zero_page s) -> wp (memset_page p 0) Q s.
Proof.
  intros [Hf (d & Hd & Hl)] HQ. destruct (frame_range kend kend_ok p Hf) as (Hfr & Hfa & _).
  eapply wp_memset_page; [done|unfold KERNBASE, PHYSTOP in *; lia|lia|done|done|exact HQ].
Qed.

(** A page in hand that could not be mapped goes back after the others. *)
Lemma wp_alloc_back (Q : Z -> T -> Prop) all all' s pgdir tabs ents ents0 n oldsz newsz p : all ≡ₚ p :: all' ->
  vrep kend all' s pgdir tabs ents [] -> is_page kend s p -> NoDup (p :: all') ->
  grown_to ents0 (npages oldsz) n s ents -> n <= npages newsz ->
  (forall j, npages oldsz <= j < npages newsz -> ents0 !! j = None) -> 0 <= oldsz < newsz -> newsz < KERNBASE ->
  (forall s' fl', mstep s s' -> vrep kend all s' pgdir tabs ents0 fl' ->
     (forall a, a <> p -> a ∉ all \/ a ∈ uframes ents0 -> ram (mem s') !! a = ram (mem s) !! a) -> Q 0 s') ->
  wp (deallocuvm kend pgdir newsz oldsz ;; kfree kend p ;; mret 0) Q s.
Proof.
  intros Hall Hv Hp Hnd Hg Hn He Hsz Hk HQ. pose proof Hnd as [Hnp _]%NoDup_cons. wp_step.
  eapply (wp_alloc_undo _ all' s pgdir tabs ents [] ents0 n); [done|done|done|done|done|done|].
  intros s3 fl3 Hs3 Hv3 Hkp3 Hout3. wp_step. destruct Hp as [Hfp (d2 & Hd2 & Hl2)].
  eapply (wp_kfree kend kend_ok _ s3 fl3 p d2); [apply Hv3|done| |by rewrite Hout3|done|].
  { intros Hin. apply Hnp. rewrite (vr_pool _ _ _ _ _ _ _ Hv3). set_solver. }
  intros s4 Hs4 Hr4 Hk4. wp_step. eapply HQ; [by eapply mstep_trans| |].
  - eapply vrep_perm; [|symmetry; exact Hall]. eapply vrep_give; [done|done| |done|done].
    split; [done|]. apply (flist_page _ _ _ p (kr_list _ _ _ Hk4)). set_solver.
  - intros a Hap Ha. rewrite Hr4, Hkp3; try done. destruct Ha as [Ha|Ha]; [left|by right]. rewrite Hall in Ha. set_solver.
Qed.

Lemma grown_step ents0 n0 n s s' ents p : grown_to ents0 n0 n s ents -> n0 <= n < 2 ^ 19 ->
  pframe (V2P p + 7) = p -> ram (mem s') !! p = Some zero_page ->
  (forall a, a ∈ uframes ents -> ram (mem s') !! a = ram (mem s) !! a) ->
  grown_to ents0 n0 (n + 1) s' (<[n := V2P p + 7]> ents).
Proof.
  intros Hg Hn Hp Hz Hr j. specialize (Hg j). destruct (decide (j = n)) as [->|Hne].
  - rewrite decide_True, lookup_insert_eq by lia. by exists p.
  - rewrite lookup_insert_ne by done. destruct (decide (n0 <= j < n)); [rewrite decide_True by lia|by rewrite decide_False by lia].
    destruct Hg as (q & Hq & Ef & Hqz). exists q. split_and!; [done|done|]. rewrite Hr; [done|].
    apply elem_of_uframes. exists j, (V2P q + 7). split_and!; [done|lia|done].
Qed.

Lemma wp_allocuvm_loop (Q : Z -> T -> Prop) all pgdir ents0 oldsz newsz k : forall s tabs ents fl n,
  vrep kend all s pgdir tabs ents fl -> grown_to ents0 (npages oldsz) n s ents -> npages oldsz <= n ->
  (forall j, npages oldsz <= j < npages newsz -> ents0 !! j = None) ->
  0 <= oldsz -> newsz < KERNBASE -> npages newsz - n <= Z.of_nat k ->
  (forall s' tabs' ents' fl', mstep s s' -> vrep kend all s' pgdir tabs' ents' fl' ->
     grown_to ents0 (npages oldsz) (n `max` npages newsz) s' ents' -> kept_pages all ents0 s s' ->
     (pages_needed (Z.to_nat (npages newsz - n)) n (dom tabs) <= length fl)%nat -> Q newsz s') ->
  (forall s' tabs' fl', mstep s s' -> vrep kend all s' pgdir tabs' ents0 fl' -> kept_pages all ents0 s s' ->
     (length fl < pages_needed (Z.to_nat (npages newsz - n)) n (dom tabs))%nat -> Q 0 s') ->
  wp (allocuvm_loop kend k pgdir oldsz (n * PGSIZE) newsz) Q s.
Proof.
  induction k as [|k IH]; intros s tabs ents fl n Hv Hg Hn He Ho Hk Hfuel Hok Hfail; pose proof (npages_bounds newsz) as Hnb;
    pose proof (npages_bounds oldsz) as Hob; cbn [allocuvm_loop].
  { rewrite bool_decide_eq_false_2 by (unfold PGSIZE in *; lia). wp_step. rewrite Z.max_l in Hok by lia.
    eapply Hok; [apply mstep_refl, Hv|done|done|done|]. replace (Z.to_nat _) with 0%nat by lia. cbn. lia. }
  destruct (decide (n < npages newsz)) as [Hlt|Hge].
  2:{ rewrite bool_decide_eq_false_2 by (unfold PGSIZE in *; lia). wp_step. rewrite Z.max_l in Hok by lia.
      eapply Hok; [apply mstep_refl, Hv|done|done|done|]. replace (Z.to_nat _) with 0%nat by lia. cbn. lia. }
  replace (Z.to_nat (npages newsz - n)) with (S (Z.to_nat (npages newsz - (n + 1)))) in Hok, Hfail by lia.
  rewrite bool_decide_eq_true_2 by (unfold PGSIZE in *; lia). wp_step.
  assert (oldsz < newsz) as Hon.
  { destruct (decide (newsz <= oldsz)) as [Hle|]; [|lia]. apply npages_mono in Hle. lia. }
  assert (npages newsz <= 2 ^ 19) as Hm by (unfold KERNBASE, PGSIZE in *; lia).
  assert (0 <= npages oldsz) as Hn0 by (unfold PGSIZE in *; lia).
  eapply (wp_kalloc kend kend_ok); [apply Hv|]. intros s1 Hs1 Hr1. destruct fl as [|p fl]; intros Hk1.
  { rewrite bool_decide_eq_true_2 by done. wp_step.
    assert (vrep kend all s1 pgdir tabs ents []) as Hv1 by (by eapply vrep_ram).
    eapply wp_alloc_undo; [exact Hv1| |apply Z.lt_le_incl, Hlt|done|done|done|].
    { intros j. specialize (Hg j). by rewrite Hr1. }
    intros s2 fl2 Hs2 Hv2 Hkeep _. wp_step. eapply Hfail; [by eapply mstep_trans|done| |].
    - intros a Ha. by rewrite (Hkeep a Ha), Hr1.
    - cbn [pages_needed length]. case_decide; lia. }
  destruct (vrep_take _ _ _ _ _ _ _ _ Hv Hr1 Hk1) as (all' & Hall & Hv1 & Hp).
  assert (NoDup (p :: all')) as Hnd by (rewrite <- Hall; apply Hv).
  assert (ents !! n = None) as Hen by (specialize (Hg n); rewrite decide_False in Hg by lia; rewrite Hg; apply He; lia).
  assert (forall a, a ∉ all \/ a ∈ uframes ents0 -> a ∉ p :: all' \/ a ∈ uframes ents) as Hka.
  { intros a [Ha|Ha]; [left; by rewrite <- Hall|right]. eapply grown_uframes; [done| |done]. intros; apply He; lia. }
  rewrite bool_decide_eq_false_2 by (by apply (frame_nz kend kend_ok), Hp). wp_step.
  apply wp_clear_page; [done|]. wp_step. eapply (wp_map_new _ all' s1 pgdir tabs ents fl n p); [done|done|done|done|lia|done|done| |].
  - change (Z.lor (Z.lor PTE_W PTE_U) PTE_P) with 7. intros s2 tabs2 fl2 Hs2 Hv2 Hz Hkp Hwk. change (0 <z 0) with false. cbv iota.
    replace (u32 (n * PGSIZE + PGSIZE)) with ((n + 1) * PGSIZE) by (rewrite u32_small; unfold PGSIZE; lia).
    destruct (walked_needs _ _ _ _ _ (Z.to_nat (npages newsz - (n + 1))) Hwk) as [_ Hcost].
    eapply IH; [by eapply vrep_perm| |lia|done|done|done|lia| |].
    + apply (grown_step _ _ _ s); [done|lia|by destruct (pframe_entry kend kend_ok p 7 (proj1 Hp)) as (-> & _)|done|].
      intros a Ha. rewrite Hkp by (by right). by rewrite Hr1.
    + intros s3 tabs3 ents3 fl3 Hs3 Hv3 Hg3 Hkp3 Hl3. replace (n `max` npages newsz) with ((n + 1) `max` npages newsz) in Hok by lia.
      eapply Hok; [by eapply mstep_trans, mstep_trans|done|done| |cbn [length]; lia]. intros a Ha. by rewrite Hkp3, Hkp, Hr1 by auto.
    + intros s3 tabs3 fl3 Hs3 Hv3 Hkp3 Hl3. eapply Hfail; [by eapply mstep_trans, mstep_trans|done| |cbn [length]; lia].
      intros a Ha. by rewrite Hkp3, Hkp, Hr1 by auto.
  - intros s2 Hs2 Hwf Hv2 Hp2 Hr2. change (-1 <z 0) with true. cbv iota. pose proof Hnd as [Hnp _]%NoDup_cons.
    assert (forall a, a ∈ uframes ents -> a <> p) as Hnu.
    { intros a Ha ->. apply Hnp. rewrite (vr_pool _ _ _ _ _ _ _ Hv1). set_solver. }
    eapply (wp_alloc_back _ all all' s2 pgdir tabs ents ents0 n); [done|done|done|done| |lia|done|done|done|].
    { intros j. specialize (Hg j). destruct (decide (npages oldsz <= j < n)); [|done].
      destruct Hg as (q & Hq & Ef & Hz). exists q. split_and!; [done|done|]. rewrite Hr2, Hr1; [done|].
      apply Hnu, elem_of_uframes. exists j, (V2P q + 7). split_and!; [done|lia|done]. }
    intros s3 fl3 Hs3 Hv3 Hkp3. eapply Hfail; [by eapply mstep_trans, mstep_trans|done| |by apply walk_fails_needs]. intros a Ha.
    assert (a <> p) as Hap by (destruct (Hka a Ha) as [Hna|Hu]; [set_solver|by apply Hnu]). by rewrite Hkp3, Hr2, Hr1.
Qed.

(** [allocuvm] maps new zeroed pages, or returns 0 and leaves the entries as
    they were. *)
Lemma wp_allocuvm (Q : Z -> T -> Prop) all s pgdir tabs ents fl oldsz newsz :
  vrep kend all s pgdir tabs ents fl -> 0 <= oldsz <= newsz -> newsz < KERNBASE ->
  (forall j, npages oldsz <= j < npages newsz -> ents !! j = None) ->
  (forall s' tabs' ents' fl', mstep s s' -> vrep kend all s' pgdir tabs' ents' fl' ->
     grown_to ents (npages oldsz) (npages newsz) s' ents' -> kept_pages all ents s s' ->
     (pages_needed (Z.to_nat (npages newsz - npages oldsz)) (npages oldsz) (dom tabs) <= length fl)%nat -> Q newsz s') ->
  (forall s' tabs' fl', mstep s s' -> vrep kend all s' pgdir tabs' ents fl' -> kept_pages all ents s s' ->
     (length fl < pages_needed (Z.to_nat (npages newsz - npages oldsz)) (npages oldsz) (dom tabs))%nat -> Q 0 s') ->
  wp (allocuvm kend pgdir oldsz newsz) Q s.
Proof.
  intros Hv Ho Hk He Hok Hfail. unfold allocuvm. rewrite !bool_decide_eq_false_2 by lia. unfold KERNBASE in Hk.
  rewrite PGROUNDUP_page by (unfold PGSIZE; lia). fold (npages oldsz).
  pose proof (npages_mono oldsz newsz ltac:(lia)) as Hle.
  eapply (wp_allocuvm_loop Q all pgdir ents oldsz newsz); [done| |lia|done|lia|unfold KERNBASE; lia| | |done].
  - intros j. by rewrite decide_False by lia.
  - replace (newsz - npages oldsz * PGSIZE + PGSIZE - 1) with (newsz + PGSIZE - 1 + (- npages oldsz) * PGSIZE) by lia.
    rewrite Z.div_add by done. fold (npages newsz). lia.
  - intros s' tabs' ents' fl' Hs' Hv' Hg. rewrite Z.max_r in Hg by lia. by eapply Hok.
Qed.
End grow.

(** ** copyuvm *)

Section copy.
Context {T : Type} `{HasMem T}.
Variable kend : Z.
Hypothesis kend_ok : KERNBASE < kend.
Implicit Types (s : T) (tabs ents : gmap Z Z) (fl all : list Z).

(** The parent: its pages are its own. *)
Record parent (all : list Z) (s : T) (pgdir : Z) tabs ents : Prop := {
  pa_table : ptable (ram (mem s)) pgdir tabs ents;
  pa_pages : forall a, a ∈ pgdir :: vals tabs ++ uframes ents -> is_page kend s a /\ a ∉ all
}.

Lemma parent_step all s s' pgdir tabs ents : parent all s pgdir tabs ents ->
  (forall a, a ∉ all -> ram (mem s') !! a = ram (mem s) !! a) -> parent all s' pgdir tabs ents.
Proof.
  intros [Ht Hp] Hr. split.
  - apply (ptable_ext (ram (mem s))); [done|apply Hr, Hp; set_solver|]. intros t Hv. apply Hr, Hp. set_solver.
  - intros a Ha. destruct (Hp a Ha) as [Hpa Hna]. split; [|done]. eapply is_page_ext; [done|by apply Hr].
Qed.

(** Pages below [n] are copies, with the same flags; the rest is [ents0]. *)
Definition copied_to (entsP ents0 : gmap Z Z) (n : Z) s ents : Prop :=
  forall j, if decide (0 <= j < n)
    then exists w w', entsP !! j = Some w /\ ents !! j = Some w' /\ PTE_FLAGS w' = PTE_FLAGS w /\
                      ram (mem s) !! pframe w' = ram (mem s) !! pframe w
    else ents !! j = ents0 !! j.

(** An entry of user memory is a frame and flags. *)
Lemma user_word w : frame_ok kend (pframe w) -> 0 <= w < 2 ^ 32 -> w = V2P (pframe w) + PTE_FLAGS w /\ 0 <= PTE_FLAGS w < PGSIZE.
Proof using kend_ok.
  intros Hf Hw. destruct (frame_range kend kend_ok _ Hf) as (Hr & _ & _ & _ & Et).
  assert (PTE_FLAGS w = w mod PGSIZE) as Ef.
  { unfold PTE_FLAGS. rewrite u32_small by done. change 0xFFF with (Z.ones 12). by rewrite Z.land_ones. }
  assert (PTE_ADDR w = w - w mod PGSIZE) as Ea.
  { unfold PTE_ADDR. rewrite u32_small by done. change (u32 (Z.lnot 0xFFF)) with 0xFFFFF000. by apply land_page_mask. }
  rewrite Ef. split; [|by apply Z.mod_pos_bound]. assert (V2P (pframe w) = PTE_ADDR w) as ->; [|lia].
  unfold pframe, P2V in Hr, Et |- *. pose proof (Z.mod_pos_bound w PGSIZE ltac:(done)).
  rewrite Ea in *. unfold V2P, u32, KERNBASE, PHYSTOP, PGSIZE in *. rewrite Z.mod_mod by lia.
  rewrite Zminus_mod_idemp_l. rewrite Z.add_simpl_r. apply Z.mod_small. split; [|lia].
  assert (w - w mod 4096 = w / 4096 * 4096) as -> by (pose proof (Z.div_mod w 4096 ltac:(lia)); lia).
  apply Z.mul_nonneg_nonneg; [apply Z.div_pos|]; lia.
Qed.

Lemma flags_present w : 0 <= w < 2 ^ 32 -> Z.land w PTE_P = 1 -> Z.lor (PTE_FLAGS w) PTE_P = PTE_FLAGS w.
Proof.
  intros Hw Hp. unfold PTE_FLAGS. rewrite u32_small by done.
  apply Z.bits_inj'. intros n Hn. rewrite Z.lor_spec, Z.land_spec. unfold PTE_P in *.
  destruct (decide (n = 0)) as [->|].
  - assert (Z.testbit (Z.land w 1) 0 = true) as Hb by (rewrite Hp; done). rewrite Z.land_spec in Hb. 
    apply andb_true_iff in Hb as [-> _]. done.
  - replace (Z.testbit 1 n) with false; [apply orb_false_r|]. symmetry. replace n with (Z.succ (n - 1)) by lia.
    change 1 with (2 * 0 + 1). rewrite Z.testbit_odd_succ by lia. apply Z.bits_0.
Qed.

Lemma copied_step entsP ents0 all n s s' ents p w pgdirP tabsP : copied_to entsP ents0 n s ents -> 0 <= n < 2 ^ 19 ->
  parent all s pgdirP tabsP entsP -> entsP !! n = Some w -> frame_ok kend p -> 0 <= PTE_FLAGS w < PGSIZE ->
  ram (mem s') !! p = ram (mem s) !! pframe w -> kept_pages all ents s s' ->
  copied_to entsP ents0 (n + 1) s' (<[n := V2P p + PTE_FLAGS w]> ents).
Proof.
  intros Hc Hn HP Hw Hfp Hfl Hr Hkp j. specialize (Hc j).
  assert (forall k v, entsP !! k = Some v -> k < 2 ^ 19 -> ram (mem s') !! pframe v = ram (mem s) !! pframe v) as HrP.
  { intros k v Hk Hlt. apply Hkp. left. apply (pa_pages _ _ _ _ _ HP). assert (pframe v ∈ uframes entsP); [|set_solver].
    apply elem_of_uframes. eauto. }
  destruct (decide (j = n)) as [->|Hne].
  - rewrite decide_True, lookup_insert_eq by lia. exists w, (V2P p + PTE_FLAGS w).
    destruct (pframe_entry kend kend_ok p (PTE_FLAGS w) Hfp Hfl) as (-> & _ & -> & _). split_and!; try done.
    rewrite Hr. symmetry. apply (HrP n); [done|lia].
  - rewrite lookup_insert_ne by done. destruct (decide (0 <= j < n)); [rewrite decide_True by lia|by rewrite decide_False by lia].
    destruct Hc as (v & v' & Hv & Hv' & Hf & Hm). exists v, v'. split_and!; try done.
    rewrite (HrP j v) by (done || lia). rewrite <- Hm. apply Hkp. right. apply elem_of_uframes. exists j, v'. split_and!; [done|lia|done].
Qed.

(** The entry of a mapped page is found and read. *)
Lemma wp_parent_pte all s pgdirP tabsP entsP n w : parent all s pgdirP tabsP entsP -> entsP !! n = Some w ->
  wp (walkpgdir pgdirP (n * PGSIZE) false)
    (fun pte s' => s' = s /\ pte <> 0 /\ wp (load32 pte) (fun v s'' => v = w /\ s'' = s) s) s.
Proof using kend_ok.
  intros HP Hw. pose proof (pa_table _ _ _ _ _ HP) as HPt.
  destruct (pt_ent _ _ _ _ HPt n w Hw) as (Hn & [t Ht] & Hwr & Hwp).
  assert (t ∈ vals tabsP) as Hint by (apply elem_of_vals; eauto).
  destruct (pa_pages _ _ _ _ _ HP t ltac:(set_solver)) as [[Hft (dt & Hdt & _)] _].
  assert (0 <= n mod 1024 < 1024) as Hmod by (apply Z.mod_pos_bound; lia).
  eapply (wp_walk_hit kend kend_ok); [done|apply (pa_pages _ _ _ _ _ HP); set_solver|done|lia|done|].
  split_and!; [done|destruct Hft; unfold KERNBASE in *; lia|].
  eapply wp_load32; [done|apply Hft|done|].
  destruct (pt_tab _ _ _ _ HPt _ _ Ht) as (_ & d' & Hd' & Hwd). rewrite Hdt in Hd'. injection Hd' as <-. rewrite Hwd by done.
  replace (n / 1024 * 1024 + n mod 1024) with n by (pose proof (Z.div_mod n 1024 ltac:(lia)); lia). by rewrite Hw.
Qed.

Lemma wp_copyuvm_loop (Q : bool -> T -> Prop) all d pgdirP tabsP entsP ents0 sz k : forall s tabs ents fl n,
  vrep kend all s d tabs ents fl -> parent all s pgdirP tabsP entsP -> copied_to entsP ents0 n s ents ->
  0 <= n -> sz <= KERNBASE -> npages sz - n <= Z.of_nat k ->
  (forall j, 0 <= j < npages sz -> is_Some (entsP !! j)) -> (forall j, j < 2 ^ 19 -> ents0 !! j = None) ->
  (forall s' tabs' ents' fl', mstep s s' -> vrep kend all s' d tabs' ents' fl' ->
     copied_to entsP ents0 (n `max` npages sz) s' ents' ->
     (forall a, a ∉ all -> ram (mem s') !! a = ram (mem s) !! a) -> Q true s') ->
  (forall s' tabs' ents' fl', mstep s s' -> vrep kend all s' d tabs' ents' fl' ->
     Z.of_nat (length all) <= 1026 + npages sz ->
     (forall a, a ∉ all -> ram (mem s') !! a = ram (mem s) !! a) -> Q false s') ->
  wp (copyuvm_loop kend k pgdirP d (n * PGSIZE) sz) Q s.
Proof.
  induction k as [|k IH]; intros s tabs ents fl n Hv HP Hc Hn Hsz Hfuel HeP He0 Hok Hfail; pose proof (npages_bounds sz) as Hnb;
    cbn [copyuvm_loop].
  { rewrite bool_decide_eq_false_2 by (unfold PGSIZE in *; lia). wp_step. rewrite Z.max_l in Hok by lia.
    eapply Hok; [apply mstep_refl, Hv|done|done|done]. }
  destruct (decide (n < npages sz)) as [Hlt|Hge].
  2:{ rewrite bool_decide_eq_false_2 by (unfold PGSIZE in *; lia). wp_step. rewrite Z.max_l in Hok by lia.
      eapply Hok; [apply mstep_refl, Hv|done|done|done]. }
  rewrite bool_decide_eq_true_2 by (unfold PGSIZE in *; lia). wp_step.
  assert (n < 2 ^ 19) as Hm by (unfold KERNBASE, PGSIZE in *; lia).
  assert (forall j w, ents !! j = Some w -> j < 2 ^ 19 -> j < n) as Hbelow.
  { intros j w Hj Hlt'. specialize (Hc j). destruct (decide (0 <= j < n)); [lia|]. by rewrite Hc, He0 in Hj. }
  destruct (HeP n ltac:(lia)) as [w Hw]. destruct (pt_ent _ _ _ _ (pa_table _ _ _ _ _ HP) n w Hw) as (_ & _ & Hwr & Hwp).
  wp_apply (wp_parent_pte all s pgdirP tabsP entsP n w HP Hw). intros pte ? (-> & Hpte & Hload).
  rewrite bool_decide_eq_false_2 by done. wp_step. wp_apply Hload. intros ? ? (-> & ->).
  rewrite Hwp. rewrite c_bool_nz by done. cbn [negb]. wp_step.
  assert (pframe w ∈ uframes entsP) as Hinw by (apply elem_of_uframes; exists n, w; done).
  destruct (pa_pages _ _ _ _ _ HP (pframe w) ltac:(set_solver)) as [[Hfw (dw & Hdw & Hlw)] Hnw].
  destruct (user_word w Hfw Hwr) as [_ Hfl]. fold (pframe w).
  eapply (wp_kalloc kend kend_ok); [apply Hv|]. intros s1 Hs1 Hr1. destruct fl as [|p fl]; intros Hk1.
  { rewrite bool_decide_eq_true_2 by done. wp_step. eapply Hfail; [done|by eapply vrep_ram| |by intros; rewrite Hr1].
    pose proof (vrep_size kend _ _ _ _ _ n Hv Hn Hbelow). lia. }
  destruct (vrep_take kend kend_ok _ _ _ _ _ _ _ _ Hv Hr1 Hk1) as (all' & Hall & Hv1 & Hp).
  assert (NoDup (p :: all')) as Hnd by (rewrite <- Hall; apply Hv). pose proof Hnd as [Hnp _]%NoDup_cons.
  assert (ents !! n = None) as Hen by (specialize (Hc n); rewrite decide_False in Hc by lia; rewrite Hc; by apply He0).
  rewrite bool_decide_eq_false_2 by (by apply (frame_nz kend kend_ok), Hp). wp_step.
  unfold memmove_page. wp_step. eapply wp_load_page; [by rewrite Hr1|]. wp_step.
  pose proof Hp as [Hfp (dp & Hdp & Hlp)]. eapply wp_load_page; [done|]. unfold store_page. wp_step. fold (put_page p dw s1). wp_step.
  eapply (wp_map_new kend kend_ok _ all' s1 d tabs ents fl n p dw); [done|done|done|done|lia|done|done| |].
  - rewrite flags_present by done. intros s2 tabs2 fl2 Hs2 Hv2 Hz Hkp _. change (0 <z 0) with false. cbv iota.
    assert (kept_pages all ents s s2) as Hkp'.
    { intros a Ha. rewrite Hkp, Hr1; [done|]. destruct Ha; [left; by rewrite <- Hall|by right]. }
    replace (u32 (n * PGSIZE + PGSIZE)) with ((n + 1) * PGSIZE) by (rewrite u32_small; unfold PGSIZE; lia).
    replace (n `max` npages sz) with ((n + 1) `max` npages sz) in Hok by lia.
    eapply IH; [by eapply vrep_perm|eapply parent_step; [done|intros; apply Hkp'; by left]| |lia|done|lia|done|done| |].
    + eapply copied_step; [done|lia|done|done|done|done|by rewrite Hz, Hdw|done].
    + intros s3 tabs3 ents3 fl3 Hs3 Hv3 Hg3 Hfr3. eapply Hok; [by eapply mstep_trans, mstep_trans|done|done|].
      intros a Ha. rewrite Hfr3 by done. apply Hkp'. by left.
    + intros s3 tabs3 ents3 fl3 Hs3 Hv3 Hl3 Hfr3. eapply Hfail; [by eapply mstep_trans, mstep_trans|done|done|].
      intros a Ha. rewrite Hfr3 by done. apply Hkp'. by left.
  - intros s2 Hs2 _ Hv2 [_ (d2 & Hd2 & Hl2)] Hr2. change (-1 <z 0) with true. cbv iota. wp_step.
    eapply (wp_kfree kend kend_ok _ s2 [] p d2); [apply Hv2|done|set_solver|done|done|]. intros s3 Hs3 Hr3 Hk3. wp_step.
    eapply Hfail; [by eapply mstep_trans, mstep_trans| | |].
    + eapply vrep_perm; [|symmetry; exact Hall]. eapply vrep_give; [done|done|done| |done|done].
      split; [done|]. apply (flist_page _ _ _ p (kr_list _ _ _ Hk3)). set_solver.
    + rewrite Hall. cbn [length]. pose proof (vrep_size kend _ _ _ _ _ n Hv2 Hn Hbelow). lia.
    + intros a Ha. rewrite Hr3, Hr2, Hr1; try done; rewrite Hall in Ha; set_solver.
Qed.

End copy.

Section copyuvm.
Context {T : Type} `{HasMem T}.
Variables kend kdata : Z.
Hypothesis kend_ok : KERNBASE < kend.
Hypothesis kdata_page : kdata mod PGSIZE = 0.
Hypothesis kdata_ok : KERNLINK < kdata < KERNBASE + PHYSTOP.
Implicit Types (s : T) (tabs ents : gmap Z Z) (fl all : list Z).

(** [copyuvm]: a copy of the parent's user memory in frames of its own, or 0
    and all pages back on the free list. *)
Lemma wp_copyuvm (Q : Z -> T -> Prop) s fl pgdirP tabsP entsP sz : kmem_rep kend s fl ->
  parent kend fl s pgdirP tabsP entsP -> 0 <= sz <= KERNBASE -> (forall j, 0 <= j < npages sz -> is_Some (entsP !! j)) ->
  (forall s' d tabs ents ents0 fl', mstep s s' -> vrep kend fl s' d tabs ents fl' -> kernel_ents kdata ents0 ->
     copied_to entsP ents0 (npages sz) s' ents -> (forall a, a ∉ fl -> ram (mem s') !! a = ram (mem s) !! a) -> Q d s') ->
  (forall s' fl', mstep s s' -> kmem_rep kend s' fl' -> fl' ≡ₚ fl -> Z.of_nat (length fl) <= 1026 + npages sz ->
     (forall a, a ∉ fl -> ram (mem s') !! a = ram (mem s) !! a) -> Q 0 s') ->
  wp (copyuvm kend kdata pgdirP sz) Q s.
Proof.
  intros Hk HP Hsz HeP Hok Hfail. unfold copyuvm. wp_step. pose proof (npages_bounds sz) as Hnb.
  assert (0 <= npages sz) as Hn0 by (unfold PGSIZE in *; lia).
  eapply (wp_setupkvm kend kdata kend_ok kdata_page kdata_ok); [done| |].
  2:{ intros s1 fl1 Hs1 Hk1 Hp1 Hl1 Hfr1. rewrite bool_decide_eq_true_2 by done. wp_step. apply (Hfail s1 fl1); try done. lia. }
  intros s1 d tabs ents fl1 Hs1 Hv1 Hke Hfr1.
  rewrite bool_decide_eq_false_2.
  2:{ apply (frame_nz kend kend_ok). apply (vrep_page _ _ _ _ _ _ _ d Hv1). set_solver. }
  wp_step. change (copyuvm_loop kend (Z.to_nat ((sz + PGSIZE - 1) / PGSIZE)) pgdirP d 0 sz) with
    (copyuvm_loop kend (Z.to_nat (npages sz)) pgdirP d (0 * PGSIZE) sz).
  eapply (wp_copyuvm_loop kend kend_ok _ fl d pgdirP tabsP entsP ents sz); [done|by eapply parent_step| |done|lia|lia|done| | |].
  - intros j. by rewrite decide_False by lia.
  - intros j Hj. rewrite Hke. unfold kernel_pte, KPN. destruct (kp_bounds kdata kdata_page kdata_ok) as (_ & Hb & _).
    unfold kp, KPN in Hb. change (DEVSPACE / PGSIZE) with 1040384. rewrite !decide_False by lia. done.
  - intros s2 tabs2 ents2 fl2 Hs2 Hv2 Hc2 Hfr2. wp_step. rewrite Z.max_r in Hc2 by done.
    eapply Hok; [by eapply mstep_trans|done|done|done|]. intros a Ha. by rewrite Hfr2, Hfr1.
  - intros s2 tabs2 ents2 fl2 Hs2 Hv2 Hl2 Hfr2. wp_step. eapply (wp_freevm kend kend_ok); [done|]. intros s3 fl3 Hs3 Hk3 Hp3 Hfr3.
    wp_step. apply (Hfail s3 fl3); [by eapply mstep_trans, mstep_trans|done|done|done|]. intros a Ha. by rewrite Hfr3, Hfr2, Hfr1.
Qed.
End copyuvm.
