(* ===== verification/VmTheorems.v ===== *)
(** * Properties of virtual memory

    Statements about what the hardware finds when it walks the page tables in
    memory, for the functions of [vm.c]. *)

From S2P Require Import Prelude Bytes Params Machine BlockCache CString Kalloc Vm VmRep VmSpace VmCopy.
Local Open Scope Z_scope.

(** The entry the two-level walk finds for an address, if one is present. *)
Definition pte_at (r : gmap Z (list Z)) (pgdir va : Z) : option Z :=
  match r !! pgdir with
  | Some d =>
      let pde := word d (PDX va) in
      if c_bool (Z.land pde PTE_P) then
        match r !! pframe pde with
        | Some t => let w := word t (PTX va) in if c_bool (Z.land w PTE_P) then Some w else None
        | None => None
        end
      else None
  | None => None
  end.

Section walk.
Context {T : Type} `{HasMem T}.
Variable kend : Z.
Hypothesis kend_ok : KERNBASE < kend.

Lemma ptable_pte_at r pgdir tabs ents n : ptable r pgdir tabs ents -> (forall t, t ∈ vals tabs -> frame_ok kend t) ->
  0 <= n < 2 ^ 20 -> pte_at r pgdir (n * PGSIZE) = ents !! n.
Proof using kend_ok.
  intros [(d & Hd & Hw) Ht He] Hf Hn. unfold pte_at. rewrite Hd, PDX_page, PTX_page by done.
  assert (0 <= n / 1024 < 1024) as Hr by (split; [apply Z.div_pos|apply Z.div_lt_upper_bound]; lia).
  rewrite Hw by done. destruct (tabs !! (n / 1024)) as [t|] eqn:Et; cbn [pde_word from_option].
  - assert (frame_ok kend t) as Hft by (apply Hf, elem_of_vals; eauto).
    destruct (pframe_entry kend kend_ok t 7 Hft) as (-> & _); [done|].
    unfold PTE_P at 1. rewrite present_add by (by apply (frame_range kend kend_ok)). change (c_bool (Z.land 7 1)) with true. cbv iota.
    destruct (Ht _ _ Et) as (_ & dt & -> & Hwt). rewrite Hwt by (apply Z.mod_pos_bound; lia).
    replace (n / 1024 * 1024 + n mod 1024) with n by (pose proof (Z.div_mod n 1024 ltac:(lia)); lia).
    destruct (ents !! n) as [w|] eqn:Ew; [|done]. cbn [default id]. destruct (He n w Ew) as (_ & _ & _ & ->). done.
  - change (c_bool (Z.land 0 PTE_P)) with false. cbv iota. destruct (ents !! n) as [w|] eqn:Ew; [|done].
    destruct (He n w Ew) as (_ & [t Hs] & _). congruence.
Qed.

Lemma vrep_pte_at (s : T) all pgdir tabs ents fl n : vrep kend all s pgdir tabs ents fl -> 0 <= n < 2 ^ 20 ->
  pte_at (ram (mem s)) pgdir (n * PGSIZE) = ents !! n.
Proof using kend_ok.
  intros Hv. apply (ptable_pte_at _ _ tabs); [apply Hv|]. intros t Ht. apply (vrep_page _ _ _ _ _ _ _ t Hv). set_solver.
Qed.
End walk.

(** ** Properties *)

Section theorems.
Context {T : Type} `{HasMem T}.
Implicit Types (s : T) (tabs ents : gmap Z Z) (fl : list Z).

(** [setupkvm] returns a page directory that maps exactly the ranges of
    [kmap]: memory at [KERNBASE], the kernel's text and read-only data without
    write permission, and the devices to themselves; its pages come from the
    free list.  It returns 0 only when there are at most 1025 free pages, and
    then all of them are free again. *)
Theorem setupkvm_correct kend kdata s fl : KERNBASE < kend -> kdata mod PGSIZE = 0 ->
  KERNLINK < kdata < KERNBASE + PHYSTOP -> kmem_rep kend s fl ->
  wp (setupkvm kend kdata) (fun pgdir s' =>
    (forall a, a ∉ fl -> ram (mem s') !! a = ram (mem s) !! a) /\
    if decide (pgdir = 0) then Z.of_nat (length fl) <= 1025 /\ exists fl', kmem_rep kend s' fl' /\ fl' ≡ₚ fl
    else (exists tabs ents fl', vrep kend fl s' pgdir tabs ents fl') /\
         forall n, 0 <= n < 2 ^ 20 -> pte_at (ram (mem s')) pgdir (n * PGSIZE) = kernel_pte kdata n) s.
Proof.
  intros He Hd Hk Hr. eapply (wp_setupkvm kend kdata); [done..| |].
  - intros s' pgdir tabs ents fl' Hs Hv Hke Hfr. split; [done|]. rewrite decide_False.
    + split; [eauto|]. intros n Hn. rewrite (vrep_pte_at kend He s' fl pgdir tabs ents fl') by done. apply Hke.
    + apply (frame_nz kend He), (vrep_page _ _ _ _ _ _ _ pgdir Hv). set_solver.
  - intros s' fl' Hs Hk' Hp Hl Hfr. split; [done|]. rewrite decide_True by done. eauto.
Qed.

(** C21: [allocuvm] on every branch.  A size that reaches into the kernel gives
    0, a smaller one the old size, and neither changes anything.  Otherwise
    each new page and each page table that it needs is taken from the free list:
    if the list has so many pages the new size is returned, and every new page
    is mapped to a zeroed page with user and write permission while the other
    entries are as they were; if it has fewer, 0 is returned and the address
    space is as it was. *)
Theorem allocuvm_correct kend s all pgdir tabs ents fl oldsz newsz : KERNBASE < kend ->
  vrep kend all s pgdir tabs ents fl -> 0 <= oldsz -> 0 <= newsz ->
  (forall j, npages oldsz <= j < npages newsz -> ents !! j = None) ->
  wp (allocuvm kend pgdir oldsz newsz) (fun sz s' =>
    if decide (KERNBASE <= newsz) then sz = 0 /\ s' = s else
    if decide (newsz < oldsz) then sz = oldsz /\ s' = s else
    (forall a, a ∉ all \/ a ∈ uframes ents -> ram (mem s') !! a = ram (mem s) !! a) /\
    exists tabs' ents' fl', vrep kend all s' pgdir tabs' ents' fl' /\
    if decide (pages_needed (Z.to_nat (npages newsz - npages oldsz)) (npages oldsz) (dom tabs) <= length fl)%nat
    then sz = newsz /\ forall n, 0 <= n < 2 ^ 20 ->
       if decide (npages oldsz <= n < npages newsz)
       then exists w, pte_at (ram (mem s')) pgdir (n * PGSIZE) = Some w /\
              PTE_FLAGS w = PTE_P + PTE_W + PTE_U /\ ram (mem s') !! pframe w = Some zero_page
       else pte_at (ram (mem s')) pgdir (n * PGSIZE) = pte_at (ram (mem s)) pgdir (n * PGSIZE)
    else sz = 0 /\ ents' = ents) s.
Proof.
  intros He Hv Ho Hz Hnone. destruct (decide (KERNBASE <= newsz)) as [Hk|Hk].
  { unfold allocuvm. rewrite bool_decide_eq_true_2 by done. by wp_step. }
  destruct (decide (newsz < oldsz)) as [Hlt|Hge].
  { unfold allocuvm. rewrite bool_decide_eq_false_2, bool_decide_eq_true_2 by lia. by wp_step. }
  eapply (wp_allocuvm kend He); [done|lia|lia|done| |].
  - intros s' tabs' ents' fl' Hs Hv' Hg Hkp Hl. split; [done|]. exists tabs', ents', fl'. split; [done|]. rewrite decide_True by done. split; [done|].
    intros n Hr. rewrite (vrep_pte_at kend He s' _ _ _ _ _ n Hv' Hr), (vrep_pte_at kend He s _ _ _ _ _ n Hv Hr).
    specialize (Hg n). destruct (decide _); [|done]. destruct Hg as (p & Hp & Ef & Hc). exists (V2P p + 7). rewrite Ef.
    split_and!; [done| |done]. apply (pframe_entry kend He p 7); [|done].
    apply (vrep_page _ _ _ _ _ _ _ p Hv'). assert (p ∈ uframes ents'); [|set_solver]. apply elem_of_uframes.
    exists n, (V2P p + 7). split_and!; [done| |done]. pose proof (npages_bounds newsz). unfold KERNBASE, PGSIZE in *. lia.
  - intros s' tabs' fl' Hs Hv' Hkp Hl. split; [done|]. exists tabs', ents, fl'. split; [done|]. by rewrite decide_False by lia.
Qed.

Lemma dealloc_frame kend all s s' pgdir tabs ents ents' fl fl' n w :
  vrep kend all s pgdir tabs ents fl -> vrep kend all s' pgdir tabs ents' fl' -> n < 2 ^ 19 -> ents !! n = Some w ->
  (forall m v, ents' !! m = Some v -> m <> n /\ ents !! m = Some v) -> pframe w ∈ fl'.
Proof.
  intros Hv Hv' Hn Hw Hsub. pose proof (vrep_nd _ _ _ _ _ _ _ Hv) as Hnd.
  assert (pframe w ∈ uframes ents) as Hin by (apply elem_of_uframes; eauto).
  assert (pframe w ∈ all) as Hall by (rewrite (vr_pool _ _ _ _ _ _ _ Hv); set_solver).
  rewrite (vr_pool _ _ _ _ _ _ _ Hv') in Hall. apply NoDup_cons in Hnd as [Hn1 Hnd].
  apply NoDup_app in Hnd as (_ & Hn2 & Hnd). apply NoDup_app in Hnd as (Hnu & _ & _).
  apply elem_of_cons in Hall as [E|[Ht|[Hu|Hf]%elem_of_app]%elem_of_app]; [| | |done]; exfalso.
  - apply Hn1. rewrite <- E. set_solver.
  - apply (Hn2 _ Ht). set_solver.
  - apply elem_of_uframes in Hu as (m & v & Hm & Hlt & Ev). destruct (Hsub m v Hm) as [Hne Hm'].
    rewrite (uframes_delete ents n w Hw) in Hnu. unfold uown in Hnu. rewrite decide_True in Hnu by done.
    apply NoDup_cons in Hnu as [Hnu _]. apply Hnu, elem_of_uframes. exists m, v. by rewrite lookup_delete_ne.
Qed.

(** C22: [deallocuvm] to a smaller size removes the pages above it and only
    those, and their frames are free afterwards. *)
Theorem deallocuvm_correct kend s all pgdir tabs ents fl oldsz newsz : KERNBASE < kend ->
  vrep kend all s pgdir tabs ents fl -> 0 <= newsz < oldsz -> oldsz <= KERNBASE ->
  wp (deallocuvm kend pgdir oldsz newsz) (fun sz s' => sz = newsz /\
    exists ents' fl', vrep kend all s' pgdir tabs ents' fl' /\
      (forall n, 0 <= n < 2 ^ 20 -> pte_at (ram (mem s')) pgdir (n * PGSIZE) =
         if decide (npages newsz <= n < npages oldsz) then None else pte_at (ram (mem s)) pgdir (n * PGSIZE)) /\
      (forall n w, npages newsz <= n < npages oldsz -> pte_at (ram (mem s)) pgdir (n * PGSIZE) = Some w -> pframe w ∈ fl') /\
      (forall a, a ∈ uframes ents' -> ram (mem s') !! a = ram (mem s) !! a)) s.
Proof.
  intros He Hv Hn Ho. eapply (wp_deallocuvm kend He); [done..|]. intros s' fl' Hs Hv' Hfr Hin. split; [done|].
  eexists _, fl'. pose proof (vrep_nd _ _ _ _ _ _ _ Hv') as Hnd. split; [exact Hv'|]. split_and!.
  - intros n Hr. rewrite (vrep_pte_at kend He s' _ _ _ _ _ n Hv' Hr), (vrep_pte_at kend He s _ _ _ _ _ n Hv Hr).
    apply lookup_cut_pages.
  - intros n w Hr. assert (0 <= n < 2 ^ 19) as Hr'.
    { pose proof (npages_bounds oldsz). pose proof (npages_bounds newsz). unfold KERNBASE, PGSIZE in *. lia. }
    rewrite (vrep_pte_at kend He s _ _ _ _ _ n Hv) by lia. intros Hw. apply (dealloc_frame kend all s s' pgdir tabs ents _ fl fl' n w Hv Hv'); [lia|done|].
    intros m v Hm. rewrite lookup_cut_pages in Hm. destruct (decide _); [done|]. split; [lia|done].
  - intros a Ha. apply NoDup_cons in Hnd as [_ Hnd]. apply NoDup_app in Hnd as (_ & Hn2 & Hnd).
    apply NoDup_app in Hnd as (_ & Hn3 & _). apply Hfr; [|by apply Hn3]. intros Hin'. by apply (Hn2 a Hin'), elem_of_app; left.
Qed.

(** C20: [copyuvm] gives the child a copy of every page of the parent, with
    the same permissions, in frames of its own, and the parent's memory is not
    changed; or it returns 0 and every page it took is free again.  With more
    than 1026 free pages beside those for the copy it does not fail. *)
Theorem copyuvm_correct kend kdata s fl pgdirP tabsP entsP sz : KERNBASE < kend -> kdata mod PGSIZE = 0 ->
  KERNLINK < kdata < KERNBASE + PHYSTOP -> kmem_rep kend s fl -> parent kend fl s pgdirP tabsP entsP ->
  0 <= sz <= KERNBASE -> (forall j, 0 <= j < npages sz -> is_Some (entsP !! j)) ->
  wp (copyuvm kend kdata pgdirP sz) (fun d s' =>
    (forall a, a ∉ fl -> ram (mem s') !! a = ram (mem s) !! a) /\
    if decide (d = 0)
    then Z.of_nat (length fl) <= 1026 + npages sz /\ exists fl', kmem_rep kend s' fl' /\ fl' ≡ₚ fl
    else (exists tabs ents fl', vrep kend fl s' d tabs ents fl') /\
         forall n, 0 <= n < 2 ^ 20 ->
           if decide (n < npages sz)
           then exists w w', pte_at (ram (mem s)) pgdirP (n * PGSIZE) = Some w /\
                  pte_at (ram (mem s')) d (n * PGSIZE) = Some w' /\ PTE_FLAGS w' = PTE_FLAGS w /\
                  pframe w' ∈ fl /\ ram (mem s') !! pframe w' = ram (mem s) !! pframe w
           else pte_at (ram (mem s')) d (n * PGSIZE) = kernel_pte kdata n) s.
Proof.
  intros He Hd Hk Hr HP Hsz Hpres. eapply (wp_copyuvm kend kdata); [done..| |].
  2:{ intros s' fl' Hs Hk' Hp Hl Hfr. split; [done|]. rewrite decide_True by done. eauto. }
  intros s' d tabs ents ents0 fl' Hs Hv Hke Hc Hfr. split; [done|]. rewrite decide_False.
  2:{ apply (frame_nz kend He), (vrep_page _ _ _ _ _ _ _ d Hv). set_solver. }
  split; [eauto|]. intros n Hn. rewrite (vrep_pte_at kend He s' _ _ _ _ _ n Hv Hn). specialize (Hc n).
  assert (npages sz <= 2 ^ 19) as Hnp by (pose proof (npages_bounds sz); unfold KERNBASE, PGSIZE in *; lia).
  destruct (decide (n < npages sz)) as [Hlt|Hge].
  - rewrite decide_True in Hc by lia. destruct Hc as (w & w' & Hw & Hw' & Hf & Hm). exists w, w'.
    rewrite (ptable_pte_at kend He _ _ tabsP entsP); [|apply HP| |done].
    2:{ intros t Ht. apply (pa_pages _ _ _ _ _ _ HP). set_solver. }
    split_and!; [done|done|done| |].
    + rewrite (vr_pool _ _ _ _ _ _ _ Hv). assert (pframe w' ∈ uframes ents); [|set_solver].
      apply elem_of_uframes. exists n, w'. split_and!; [done|lia|done].
    + rewrite Hm. apply Hfr. apply (pa_pages _ _ _ _ _ _ HP). assert (pframe w ∈ uframes entsP); [|set_solver].
      apply elem_of_uframes. exists n, w. split_and!; [done|lia|done].
  - rewrite decide_False in Hc by lia. rewrite Hc. apply Hke.
Qed.
End theorems.

(** ** An example: a process with one page, and 1100 free pages *)

Definition vx_end : Z := 0x80115000.
Definition vx_data : Z := 0x80109000.
Definition vx_page (k : Z) : Z := 0x80200000 + k * PGSIZE.
Definition vx_free : list Z := vx_page <$> seqZ 0 1100.
Definition vx_next (a : Z) : Z := if decide (a = vx_page 1099) then 0 else a + PGSIZE.
Definition vx_pgdir : Z := 0x81000000.
Definition vx_tab : Z := 0x81001000.
Definition vx_user : Z := 0x81002000.
Definition vx_list : list (Z * list Z) :=
  (vx_pgdir, set_word zero_page 0 (V2P vx_tab + 7)) :: (vx_tab, set_word zero_page 0 (V2P vx_user + 7)) ::
  (vx_user, replicate 4096 42) :: ((fun a => (a, set32 zero_page 0 (vx_next a))) <$> vx_free).
Definition vx_ram : gmap Z (list Z) := list_to_map vx_list.
Definition vx : machine * memory := (kx_mach, Memory vx_ram 1 (vx_page 0)).
Definition vx_tabs : gmap Z Z := {[0 := vx_tab]}.
Definition vx_ents : gmap Z Z := {[0 := V2P vx_user + 7]}.

Fixpoint flistb (r : gmap Z (list Z)) (p : Z) (l : list Z) : bool :=
  match l with
  | [] => p =z 0
  | q :: l' => (p =z q) && match r !! q with
                           | Some d => Nat.eqb (length d) 4096 && flistb r (get32 d 0) l'
                           | None => false
                           end
  end.
Lemma flistb_ok r p l : flistb r p l = true -> flist r p l.
Proof.
  revert p. induction l as [|q l IH]; intros p; cbn; [by intros ?%bool_decide_eq_true|].
  intros [->%bool_decide_eq_true Hq]%andb_true_iff. destruct (r !! q) as [d|] eqn:Ed; [|done].
  apply andb_true_iff in Hq as [Hl%Nat.eqb_eq Hq]. split; [done|]. exists d. split_and!; [done|by rewrite Hl|by apply IH].
Qed.

Lemma elem_of_vx_free a : a ∈ vx_free <-> exists k, 0 <= k < 1100 /\ a = vx_page k.
Proof.
  unfold vx_free. rewrite list_elem_of_fmap. setoid_rewrite elem_of_seqZ. split; intros (k & ? & ?); exists k; split; done || lia.
Qed.

Lemma vx_kmem : kmem_rep vx_end vx vx_free.
Proof.
  split; [apply kx_mach_ok|done| | |].
  - apply flistb_ok. vm_compute. reflexivity.
  - apply NoDup_fmap_2; [|apply NoDup_seqZ]. intros i j. unfold vx_page, PGSIZE. lia.
  - apply Forall_forall. intros a (k & Hk & ->)%elem_of_vx_free. unfold frame_ok, vx_page, vx_end, KERNBASE, PHYSTOP, PGSIZE.
    split; [|lia]. rewrite Z.mod_add by done. done.
Qed.

Lemma vx_ptable : ptable vx_ram vx_pgdir vx_tabs vx_ents.
Proof.
  assert (vx_ram !! vx_pgdir = Some (set_word zero_page 0 (V2P vx_tab + 7))) as Hd by (vm_compute; reflexivity).
  assert (vx_ram !! vx_tab = Some (set_word zero_page 0 (V2P vx_user + 7))) as Ht by (vm_compute; reflexivity).
  split.
  - eexists. split; [exact Hd|]. intros i Hi. rewrite word_set_word by (apply length_replicate || lia).
    unfold vx_tabs. destruct (decide (i = 0)) as [->|]; [done|]. rewrite lookup_singleton_ne by done. by apply word_zero.
  - intros i t Hit. unfold vx_tabs in Hit. apply lookup_singleton_Some in Hit as [<- <-]. split; [lia|]. eexists. split; [exact Ht|]. intros j Hj.
    rewrite word_set_word by (apply length_replicate || lia). unfold vx_ents. destruct (decide (j = 0)) as [->|]; [done|].
    rewrite lookup_singleton_ne by lia. by apply word_zero.
  - intros n w Hnw. unfold vx_ents in Hnw. apply lookup_singleton_Some in Hnw as [<- <-]. split_and!; done.
Qed.

Lemma vx_vals : vals vx_tabs = [vx_tab].
Proof. unfold vals, vx_tabs. by rewrite map_to_list_singleton. Qed.
Lemma vx_uframes : uframes vx_ents = [vx_user].
Proof.
  unfold uframes, vx_ents. rewrite map_filter_singleton_True by done. unfold vals. by rewrite map_to_list_singleton.
Qed.

Lemma vx_page_ok a : a ∈ [vx_pgdir; vx_tab; vx_user] -> is_page vx_end vx a /\ a ∉ vx_free.
Proof.
  intros Ha. split; [|intros (k & Hk & E)%elem_of_vx_free; unfold vx_page, PGSIZE in E;
    repeat (apply elem_of_cons in Ha as [Ea|Ha]; [rewrite Ea in E; unfold vx_pgdir, vx_tab, vx_user in E; lia|]); by apply not_elem_of_nil in Ha].
  repeat (apply elem_of_cons in Ha as [->|Ha];
    [split; [split; [done|vm_compute; split; congruence]|eexists; split; [vm_compute; reflexivity|done]]|]).
  by apply not_elem_of_nil in Ha.
Qed.

Lemma vx_parent : parent vx_end vx_free vx vx_pgdir vx_tabs vx_ents.
Proof. split; [apply vx_ptable|]. rewrite vx_vals, vx_uframes. apply vx_page_ok. Qed.

Definition vx_all : list Z := vx_pgdir :: vals vx_tabs ++ uframes vx_ents ++ vx_free.

Lemma vx_vrep : vrep vx_end vx_all vx vx_pgdir vx_tabs vx_ents vx_free.
Proof.
  split; [apply vx_kmem|done| | |apply vx_ptable].
  - unfold vx_all. rewrite vx_vals, vx_uframes. cbn [app].
    pose proof (kr_nodup _ _ _ vx_kmem) as Hnd.
    repeat (apply NoDup_cons; split; [rewrite ?not_elem_of_cons; split_and?; [done..|];
      apply vx_page_ok; set_solver|]). done.
  - unfold vx_all. rewrite vx_vals, vx_uframes. cbn [app]. intros a Ha.
    destruct (decide (a ∈ vx_free)); [by apply (kmem_pages vx_end vx vx_free); [apply vx_kmem|]|].
    apply vx_page_ok. set_solver.
Qed.

Lemma allocuvm_correct_witness : wp (allocuvm vx_end vx_pgdir 4096 10000) (fun sz s' =>
  sz = 10000 /\ exists w, pte_at (ram (mem s')) vx_pgdir (2 * PGSIZE) = Some w /\ ram (mem s') !! pframe w = Some zero_page) vx.
Proof.
  eapply wp_mono; [apply (allocuvm_correct vx_end vx vx_all vx_pgdir vx_tabs vx_ents vx_free 4096 10000);
    [done|apply vx_vrep|done|done|]|].
  - intros j Hj. change (npages 4096) with 1 in Hj. apply lookup_singleton_ne. lia.
  - intros sz s'. cbv beta. destruct (decide (KERNBASE <= 10000)) as [Hk|_]; [unfold KERNBASE in Hk; lia|].
    destruct (decide (10000 < 4096)) as [Hk|_]; [lia|]. intros (_ & tabs' & ents' & fl' & _ & Hc). rewrite decide_True in Hc.
    2:{ assert (length vx_free = 1100%nat) as -> by (vm_compute; reflexivity). apply Nat.leb_le. vm_compute. reflexivity. }
    destruct Hc as [-> Hc]. split; [done|]. specialize (Hc 2 ltac:(done)). change (npages 4096) with 1 in Hc. change (npages 10000) with 3 in Hc.
    rewrite decide_True in Hc by lia. destruct Hc as (w & Hw & _ & Hz). by exists w.
Defined.

Lemma deallocuvm_correct_witness : wp (deallocuvm vx_end vx_pgdir 4096 0) (fun sz s' =>
  sz = 0 /\ pte_at (ram (mem s')) vx_pgdir (0 * PGSIZE) = None) vx.
Proof.
  eapply wp_mono; [apply (deallocuvm_correct vx_end vx vx_all vx_pgdir vx_tabs vx_ents vx_free 4096 0);
    [done|apply vx_vrep|done|done]|].
  intros sz s' (-> & ents' & fl' & _ & Hc & _). split; [done|]. specialize (Hc 0 ltac:(done)).
  change (npages 4096) with 1 in Hc. change (npages 0) with 0 in Hc. by rewrite decide_True in Hc by lia.
Defined.

Lemma copyuvm_correct_witness : wp (copyuvm vx_end vx_data vx_pgdir 4096) (fun d s' => d <> 0 /\
  exists w', pte_at (ram (mem s')) d (0 * PGSIZE) = Some w' /\ ram (mem s') !! pframe w' = Some (replicate 4096 42)) vx.
Proof.
  eapply wp_mono; [apply (copyuvm_correct vx_end vx_data vx vx_free vx_pgdir vx_tabs vx_ents 4096);
    [done|done|done|apply vx_kmem|apply vx_parent|done|]|].
  - intros j Hj. change (npages 4096) with 1 in Hj. replace j with 0 by lia. by eexists.
  - intros d s' [_ Hc]. destruct (decide (d = 0)); [exfalso; destruct Hc as [Hl _]; vm_compute in Hl; by apply Hl|].
    split; [done|]. destruct Hc as [_ Hc]. specialize (Hc 0 ltac:(done)). change (npages 4096) with 1 in Hc.
    rewrite decide_True in Hc by lia. destruct Hc as (w & w' & Hw & Hw' & _ & _ & Hm).
    exists w'. split; [done|]. rewrite Hm. assert (Some w = Some (V2P vx_user + 7)) as [= ->] by (rewrite <- Hw; vm_compute; reflexivity).
    vm_compute. reflexivity.
Defined.
