(* ===== verification/Kern.v ===== *)
(** * The state of the kernel

    The file system, the memory, the table of open files, the pipes and the
    few global variables of [proc.c] and [trap.c], and how the operations of
    each part act on the whole.  A pipe lives in a page of [kalloc]: it is kept
    under the address of that page. *)

From S2P Require Import Prelude Bytes Params Machine BlockCache Journal CString Fs Kalloc Pipe.
Local Open Scope Z_scope.

(** [enum] and [struct file] of [file.h]. *)
Inductive ftype := FD_NONE | FD_PIPE | FD_INODE.
#[export] Instance ftype_eq : EqDecision ftype.
Proof. solve_decision. Defined.

Record file := File {
  fl_type : ftype;
  fl_ref : Z;
  fl_readable : Z;
  fl_writable : Z;
  fl_pipe : Z;
  fl_ip : option nat;
  fl_off : Z
}.

Definition set_fl_ref (r : Z) (f : file) : file :=
  File (fl_type f) r (fl_readable f) (fl_writable f) (fl_pipe f) (fl_ip f) (fl_off f).
Definition set_fl_type (t : ftype) (f : file) : file :=
  File t (fl_ref f) (fl_readable f) (fl_writable f) (fl_pipe f) (fl_ip f) (fl_off f).
Definition set_fl_off (o : Z) (f : file) : file :=
  File (fl_type f) (fl_ref f) (fl_readable f) (fl_writable f) (fl_pipe f) (fl_ip f) o.

(** [k_cr3] and [k_esp0] are the page table register and the kernel stack
    pointer of the task state segment. *)
Record kernel (T : Type) := Kernel {
  k_fs : fstate T;
  k_mem : memory;
  k_files : list file;
  k_pipes : gmap Z pipe;
  k_nextpid : Z;
  k_initproc : option nat;
  k_ticks : Z;
  k_kpgdir : Z;
  k_cr3 : Z;
  k_esp0 : Z
}.
Arguments Kernel {T}. Arguments k_fs {T}. Arguments k_mem {T}. Arguments k_files {T}. Arguments k_pipes {T}.
Arguments k_nextpid {T}. Arguments k_initproc {T}. Arguments k_ticks {T}. Arguments k_kpgdir {T}.
Arguments k_cr3 {T}. Arguments k_esp0 {T}.

Section setters.
Context {T : Type}.
Implicit Types k : kernel T.
Definition set_k_fs (f : fstate T) k : kernel T :=
  Kernel f (k_mem k) (k_files k) (k_pipes k) (k_nextpid k) (k_initproc k) (k_ticks k) (k_kpgdir k) (k_cr3 k) (k_esp0 k).
Definition set_k_mem (x : memory) k : kernel T :=
  Kernel (k_fs k) x (k_files k) (k_pipes k) (k_nextpid k) (k_initproc k) (k_ticks k) (k_kpgdir k) (k_cr3 k) (k_esp0 k).
Definition set_k_files (l : list file) k : kernel T :=
  Kernel (k_fs k) (k_mem k) l (k_pipes k) (k_nextpid k) (k_initproc k) (k_ticks k) (k_kpgdir k) (k_cr3 k) (k_esp0 k).
Definition set_k_pipes (p : gmap Z pipe) k : kernel T :=
  Kernel (k_fs k) (k_mem k) (k_files k) p (k_nextpid k) (k_initproc k) (k_ticks k) (k_kpgdir k) (k_cr3 k) (k_esp0 k).
Definition set_k_nextpid (n : Z) k : kernel T :=
  Kernel (k_fs k) (k_mem k) (k_files k) (k_pipes k) n (k_initproc k) (k_ticks k) (k_kpgdir k) (k_cr3 k) (k_esp0 k).
Definition set_k_initproc (i : option nat) k : kernel T :=
  Kernel (k_fs k) (k_mem k) (k_files k) (k_pipes k) (k_nextpid k) i (k_ticks k) (k_kpgdir k) (k_cr3 k) (k_esp0 k).
Definition set_k_ticks (t : Z) k : kernel T :=
  Kernel (k_fs k) (k_mem k) (k_files k) (k_pipes k) (k_nextpid k) (k_initproc k) t (k_kpgdir k) (k_cr3 k) (k_esp0 k).
Definition set_k_kpgdir (a : Z) k : kernel T :=
  Kernel (k_fs k) (k_mem k) (k_files k) (k_pipes k) (k_nextpid k) (k_initproc k) (k_ticks k) a (k_cr3 k) (k_esp0 k).
Definition set_k_hw (cr3 esp0 : Z) k : kernel T :=
  Kernel (k_fs k) (k_mem k) (k_files k) (k_pipes k) (k_nextpid k) (k_initproc k) (k_ticks k) (k_kpgdir k) cr3 esp0.
End setters.

Lemma kernel_fs_id {T} (k : kernel T) : set_k_fs (k_fs k) k = k.
Proof. by destruct k. Qed.
Lemma kernel_mem_id {T} (k : kernel T) : set_k_mem (k_mem k) k = k.
Proof. by destruct k. Qed.

#[export] Instance kernel_machine {T} `{HasMachine T} : HasMachine (kernel T) := {|
  mach k := mach (k_fs k);
  set_mach m k := set_k_fs (set_mach m (k_fs k)) k;
  mach_set := fun m k => mach_set m (k_fs k);
  set_mach_set := fun m m' k => f_equal (fun f => set_k_fs f k) (set_mach_set m m' (k_fs k));
  set_mach_id := fun k => eq_trans (f_equal (fun f => set_k_fs f k) (set_mach_id (k_fs k))) (kernel_fs_id k)
|}.
#[export] Instance kernel_memory {T} `{HasMachine T} : HasMem (kernel T) := {|
  mem := k_mem;
  set_mem := set_k_mem;
  mem_set := fun x k => eq_refl;
  set_mem_set := fun x y k => eq_refl;
  set_mem_id := kernel_mem_id;
  mach_set_mem := fun x k => eq_refl;
  set_mem_mach := fun x m k => eq_refl
|}.

(** The machine is not in the other fields. *)
Section machine_fields.
Context {T : Type} `{HasMachine T}.
Implicit Types k : kernel T.
Lemma mach_set_k_files l k : mach (set_k_files l k) = mach k.
Proof. done. Qed.
Lemma mach_set_k_pipes p k : mach (set_k_pipes p k) = mach k.
Proof. done. Qed.
Lemma mach_set_k_nextpid n k : mach (set_k_nextpid n k) = mach k.
Proof. done. Qed.
Lemma mach_set_k_hw a b k : mach (set_k_hw a b k) = mach k.
Proof. done. Qed.
End machine_fields.
Create HintDb kern.
#[export] Hint Rewrite @mach_set_k_files @mach_set_k_pipes @mach_set_k_nextpid @mach_set_k_hw @mach_set @mach_set_mem : kern.

(** An operation of the file system. *)
Definition onfs {T A} (m : M (fstate T) A) : M (kernel T) A := zoom k_fs set_k_fs m.

Section kern.
Context {T : Type} `{HasMachine T}.

(** The current process: [myproc()] where it is dereferenced. *)
Definition curproc : M (kernel T) (nat * proc) :=
  p ← onm myproc;
  i ← of_option "null proc" p;
  pr ← onm (get_proc i);
  mret (i, pr).

Definition get_file (f : nat) : M (kernel T) file := s ← get; of_option "ftable.file" (k_files s !! f).
Definition upd_file (f : nat) (g : file -> file) : M (kernel T) unit :=
  modify (fun s => set_k_files (alter g f (k_files s)) s).
Definition get_pipe (p : Z) : M (kernel T) pipe := s ← get; of_option "pipe" (k_pipes s !! p).
Definition put_pipe (p : Z) (x : pipe) : M (kernel T) unit :=
  modify (fun s => set_k_pipes (<[p := x]> (k_pipes s)) s).
End kern.
