(* ===== verification/FileC.v ===== *)
(** * Open files and pipes

    [file.c] and the functions of [pipe.c] on the state of the kernel.
    [sleep] does not return in the model, so that [pipewrite] and [piperead]
    end where they sleep; a process that is woken runs the loop again. *)

From S2P Require Import Prelude Bytes Params Machine BlockCache Journal CString Fs Kalloc Pipe Kern.
Local Open Scope Z_scope.

Section file.
Context {T : Type} `{Journal T}.
Variable devsw_read : Z -> option (nat -> Z -> M (fstate T) (Z * list Z)).
Variable devsw_write : Z -> option (nat -> list Z -> Z -> M (fstate T) Z).
Variable kend : Z.

(** [begin_op] and [end_op] of the log below the file system. *)
Definition begin_op_k : M (kernel T) unit := onfs (lower jbegin).
Definition end_op_k : M (kernel T) unit := onfs (lower jend).

Definition fileinit : M (kernel T) unit := onm (modify (set_lock LFtable initlock)).

Definition filealloc : M (kernel T) (option nat) :=
  onm (acquire LFtable) ;;
  r ← for_find NFILE 0 (fun k =>
    f ← get_file (Z.to_nat k);
    if fl_ref f =z 0 then upd_file (Z.to_nat k) (set_fl_ref 1) ;; mret (Some (Z.to_nat k))
    else mret None);
  onm (release LFtable) ;;
  mret r.

Definition filedup (f : nat) : M (kernel T) nat :=
  onm (acquire LFtable) ;;
  x ← get_file f;
  if fl_ref x <z 1 then panic "filedup" else
  upd_file f (fun x => set_fl_ref (fl_ref x + 1) x) ;;
  onm (release LFtable) ;;
  mret f.

(** ** pipe.c *)

(** [wakeup] of channels of the pipe at [p]. *)
Definition pipe_chan (p : Z) (c : pchan) : chan := match c with CRead => ChPipeR p | CWrite => ChPipeW p end.
Fixpoint pipe_wakeups (p : Z) (w : list pchan) : M (kernel T) unit :=
  match w with
  | [] => mret tt
  | c :: w' => onm (wakeup (pipe_chan p c)) ;; pipe_wakeups p w'
  end.

Definition pipeclose (p writable : Z) : M (kernel T) unit :=
  onm (acquire (LPipe p)) ;;
  x ← get_pipe p;
  let (x', w) := close_end (c_bool writable) x in
  put_pipe p x' ;;
  pipe_wakeups p w ;;
  x ← get_pipe p;
  if (pi_readopen x =z 0) && (pi_writeopen x =z 0) then
    onm (release (LPipe p)) ;;
    modify (fun s => set_k_pipes (delete p (k_pipes s)) s) ;;
    kfree kend p
  else onm (release (LPipe p)).

Definition pipewrite (p : Z) (addr : list Z) (n : Z) : M (kernel T) Z :=
  onm (acquire (LPipe p)) ;;
  if Z.of_nat (length addr) <z n then fault "pipewrite: addr" else
  x ← get_pipe p;
  '(_, pr) ← curproc;
  let '(x', w, a) := pipewrite_run (c_bool (p_killed pr)) x (take (Z.to_nat n) addr) 0 in
  put_pipe p x' ;;
  pipe_wakeups p w ;;
  match a with
  | WFail _ => onm (release (LPipe p)) ;; mret (-1)
  | WSleep _ =>
      onm (sleep (ChPipeW p) (Some (LPipe p))) ;;
      fault "sleep returned"
  | WDone =>
      onm (release (LPipe p)) ;;
      mret n
  end.

(** The result and the bytes stored at [addr]. *)
Definition piperead (p n : Z) : M (kernel T) (Z * list Z) :=
  onm (acquire (LPipe p)) ;;
  x ← get_pipe p;
  '(_, pr) ← curproc;
  let '(x', w, a) := piperead_run (c_bool (p_killed pr)) x n in
  put_pipe p x' ;;
  pipe_wakeups p w ;;
  match a with
  | RFail => onm (release (LPipe p)) ;; mret (-1, [])
  | RSleep =>
      onm (sleep (ChPipeR p) (Some (LPipe p))) ;;
      fault "sleep returned"
  | RDone l =>
      onm (release (LPipe p)) ;;
      mret (Z.of_nat (length l), l)
  end.

(** ** file.c, continued *)

Definition fileclose (f : nat) : M (kernel T) unit :=
  onm (acquire LFtable) ;;
  x ← get_file f;
  if fl_ref x <z 1 then panic "fileclose" else
  upd_file f (set_fl_ref (fl_ref x - 1)) ;;
  if 0 <z fl_ref x - 1 then onm (release LFtable) else
  ff ← get_file f;
  upd_file f (set_fl_ref 0) ;;
  upd_file f (set_fl_type FD_NONE) ;;
  onm (release LFtable) ;;
  match fl_type ff with
  | FD_PIPE => pipeclose (fl_pipe ff) (fl_writable ff)
  | FD_INODE =>
      begin_op_k ;;
      ip ← of_option "ff.ip" (fl_ip ff);
      onfs (iput ip) ;;
      end_op_k
  | FD_NONE => mret tt
  end.

Definition filestat (f : nat) : M (kernel T) (Z * option stat) :=
  x ← get_file f;
  match fl_type x with
  | FD_INODE =>
      onfs (ilock (fl_ip x)) ;;
      ip ← of_option "f->ip" (fl_ip x);
      st ← onfs (stati ip);
      onfs (iunlock (fl_ip x)) ;;
      mret (0, Some st)
  | _ => mret (-1, None)
  end.

(** The result and the bytes stored at [addr]. *)
Definition fileread (f : nat) (n : Z) : M (kernel T) (Z * list Z) :=
  x ← get_file f;
  if fl_readable x =z 0 then mret (-1, []) else
  match fl_type x with
  | FD_PIPE => piperead (fl_pipe x) n
  | FD_INODE =>
      onfs (ilock (fl_ip x)) ;;
      ip ← of_option "f->ip" (fl_ip x);
      '(r, l) ← onfs (readi devsw_read ip (fl_off x) (u32 n));
      when (0 <z r) (upd_file f (fun x => set_fl_off (u32 (fl_off x + r)) x)) ;;
      onfs (iunlock (fl_ip x)) ;;
      mret (r, l)
  | FD_NONE => panic "fileread"
  end.

(** The largest piece of a write that fits in a transaction. *)
Definition filewrite_max : Z := (MAXOPBLOCKS - 1 - 1 - 2) / 2 * 512.

Fixpoint filewrite_loop (fuel : nat) (f ip : nat) (addr : list Z) (i n : Z) : M (kernel T) Z :=
  if i <z n then
    match fuel with
    | O => fault "filewrite"
    | S fuel' =>
        let n1 := if filewrite_max <z n - i then filewrite_max else n - i in
        begin_op_k ;;
        onfs (ilock (Some ip)) ;;
        x ← get_file f;
        r ← onfs (writei devsw_write ip (drop (Z.to_nat i) addr) (fl_off x) n1);
        when (0 <z r) (upd_file f (fun x => set_fl_off (u32 (fl_off x + r)) x)) ;;
        onfs (iunlock (Some ip)) ;;
        end_op_k ;;
        if r <z 0 then mret i else
        if negb (r =z n1) then panic "short filewrite" else
        filewrite_loop fuel' f ip addr (i + r) n
    end
  else mret i.

Definition filewrite (f : nat) (addr : list Z) (n : Z) : M (kernel T) Z :=
  x ← get_file f;
  if fl_writable x =z 0 then mret (-1) else
  match fl_type x with
  | FD_PIPE => pipewrite (fl_pipe x) addr n
  | FD_INODE =>
      ip ← of_option "f->ip" (fl_ip x);
      i ← filewrite_loop (S (Z.to_nat (n / filewrite_max))) f ip addr 0 n;
      mret (if i =z n then n else -1)
  | FD_NONE => panic "filewrite"
  end.

(** ** pipealloc *)

(** The buffer of a new pipe is what the page holds after its lock. *)
Definition pipe_of_page (d : list Z) : pipe := pipe_init (slice 52 (Z.to_nat PIPESIZE) d).

(** The label [bad] of [pipealloc]: [p] is null on the paths that lead to it. *)
Definition pipealloc_bad (f0 f1 : option nat) : M (kernel T) (Z * (option nat * option nat)) :=
  match f0 with Some f => fileclose f | None => mret tt end ;;
  match f1 with Some f => fileclose f | None => mret tt end ;;
  mret (-1, (f0, f1)).

Definition pipealloc : M (kernel T) (Z * (option nat * option nat)) :=
  r0 ← filealloc;
  match r0 with
  | None => pipealloc_bad None None
  | Some f0 =>
      r1 ← filealloc;
      match r1 with
      | None => pipealloc_bad (Some f0) None
      | Some f1 =>
          p ← kalloc;
          if p =z 0 then pipealloc_bad (Some f0) (Some f1) else
          d ← load_page p;
          put_pipe p (pipe_of_page d) ;;
          onm (modify (set_lock (LPipe p) initlock)) ;;
          upd_file f0 (fun x => File FD_PIPE (fl_ref x) 1 0 p (fl_ip x) (fl_off x)) ;;
          upd_file f1 (fun x => File FD_PIPE (fl_ref x) 0 1 p (fl_ip x) (fl_off x)) ;;
          mret (0, (Some f0, Some f1))
      end
  end.
End file.
