(* ===== verification/Proc.v ===== *)
(** * Processes

    [proc.c] beside what [Machine] has of it: the life of a process from
    [allocproc] and [fork] to [exit] and [wait], [kill], and the scheduler up
    to the context switch.  The trap frame and the context of a process are
    kept in its record and not in the page of its kernel stack; the addresses
    of [forkret] and [trapret] are parameters, and so is the binary of
    [initcode.S].  [switchuvm] and [switchkvm] of [vm.c] are here, for the two
    registers they set that the kernel depends on. *)

From S2P Require Import Prelude Bytes Params Machine BlockCache Journal CString Fs Kalloc Vm Pipe Kern FileC.
Local Open Scope Z_scope.

(** ** Fields of [struct proc] *)

Section fields.
Implicit Types p : proc.
Definition set_p_sz (x : Z) p : proc :=
  Proc x (p_pgdir p) (p_kstack p) (p_state p) (p_pid p) (p_parent p) (p_tf p) (p_context p) (p_chan p) (p_killed p) (p_ofile p) (p_cwd p) (p_name p).
Definition set_p_pgdir (x : Z) p : proc :=
  Proc (p_sz p) x (p_kstack p) (p_state p) (p_pid p) (p_parent p) (p_tf p) (p_context p) (p_chan p) (p_killed p) (p_ofile p) (p_cwd p) (p_name p).
Definition set_p_kstack (x : Z) p : proc :=
  Proc (p_sz p) (p_pgdir p) x (p_state p) (p_pid p) (p_parent p) (p_tf p) (p_context p) (p_chan p) (p_killed p) (p_ofile p) (p_cwd p) (p_name p).
Definition set_p_pid (x : Z) p : proc :=
  Proc (p_sz p) (p_pgdir p) (p_kstack p) (p_state p) x (p_parent p) (p_tf p) (p_context p) (p_chan p) (p_killed p) (p_ofile p) (p_cwd p) (p_name p).
Definition set_p_parent (x : option nat) p : proc :=
  Proc (p_sz p) (p_pgdir p) (p_kstack p) (p_state p) (p_pid p) x (p_tf p) (p_context p) (p_chan p) (p_killed p) (p_ofile p) (p_cwd p) (p_name p).
Definition set_p_tf (x : trapframe) p : proc :=
  Proc (p_sz p) (p_pgdir p) (p_kstack p) (p_state p) (p_pid p) (p_parent p) x (p_context p) (p_chan p) (p_killed p) (p_ofile p) (p_cwd p) (p_name p).
Definition set_p_context (x : context) p : proc :=
  Proc (p_sz p) (p_pgdir p) (p_kstack p) (p_state p) (p_pid p) (p_parent p) (p_tf p) x (p_chan p) (p_killed p) (p_ofile p) (p_cwd p) (p_name p).
Definition set_p_killed (x : Z) p : proc :=
  Proc (p_sz p) (p_pgdir p) (p_kstack p) (p_state p) (p_pid p) (p_parent p) (p_tf p) (p_context p) (p_chan p) x (p_ofile p) (p_cwd p) (p_name p).
Definition set_p_ofile (x : list (option nat)) p : proc :=
  Proc (p_sz p) (p_pgdir p) (p_kstack p) (p_state p) (p_pid p) (p_parent p) (p_tf p) (p_context p) (p_chan p) (p_killed p) x (p_cwd p) (p_name p).
Definition set_p_cwd (x : option nat) p : proc :=
  Proc (p_sz p) (p_pgdir p) (p_kstack p) (p_state p) (p_pid p) (p_parent p) (p_tf p) (p_context p) (p_chan p) (p_killed p) (p_ofile p) x (p_name p).
Definition set_p_name (x : list Z) p : proc :=
  Proc (p_sz p) (p_pgdir p) (p_kstack p) (p_state p) (p_pid p) (p_parent p) (p_tf p) (p_context p) (p_chan p) (p_killed p) (p_ofile p) (p_cwd p) x.
End fields.

Definition set_tf_eax (x : Z) (t : trapframe) : trapframe :=
  Trapframe (tf_edi t) (tf_esi t) (tf_ebp t) (tf_oesp t) (tf_ebx t) (tf_edx t) (tf_ecx t) x (tf_gs t) (tf_fs t) (tf_es t)
    (tf_ds t) (tf_trapno t) (tf_err t) (tf_eip t) (tf_cs t) (tf_eflags t) (tf_esp t) (tf_ss t).

(** [sizeof(struct trapframe)]: 19 words. *)
Definition TFSIZE : Z := 76.
(** The bytes at the top of a kernel stack, as a trap frame. *)
Definition tf_of_page (d : list Z) : trapframe :=
  let w k := get32 d (Z.to_nat (KSTACKSIZE - TFSIZE + 4 * k)) in
  let h k := get16 d (Z.to_nat (KSTACKSIZE - TFSIZE + 4 * k)) in
  Trapframe (w 0) (w 1) (w 2) (w 3) (w 4) (w 5) (w 6) (w 7) (h 8) (h 9) (h 10) (h 11) (w 12) (w 13) (w 14) (h 15)
    (w 16) (w 17) (h 18).
Definition tf_zero : trapframe := Trapframe 0 0 0 0 0 0 0 0 0 0 0 0 0 0 0 0 0 0 0.

(** Selectors and flags of [mmu.h]. *)
Definition SEG_UCODE : Z := 3.
Definition SEG_UDATA : Z := 4.
Definition DPL_USER : Z := 3.
Definition FL_IF : Z := 0x200.
(** [sizeof(p->name)] *)
Definition PNAME : Z := 16.

Section proc.
Context {T : Type} `{Journal T}.
Variable devsw_read : Z -> option (nat -> Z -> M (fstate T) (Z * list Z)).
Variables kend kdata : Z.
Variables forkret_addr trapret_addr : Z.
Variable initcode : list Z.

Definition upd (i : nat) (f : proc -> proc) : M (kernel T) unit := onm (upd_proc i f).

Definition pinit : M (kernel T) unit := onm (modify (set_lock LPtable initlock)).

(** ** switchkvm and switchuvm *)

Definition switchkvm : M (kernel T) unit :=
  modify (fun s => set_k_hw (V2P (k_kpgdir s)) (k_esp0 s) s).
Definition kvmalloc : M (kernel T) unit :=
  a ← setupkvm kend kdata;
  modify (set_k_kpgdir a) ;;
  switchkvm.
Definition switchuvm (p : option nat) : M (kernel T) unit :=
  match p with
  | None => panic "switchuvm: no process"
  | Some i =>
      pr ← onm (get_proc i);
      if p_kstack pr =z 0 then panic "switchuvm: no kstack" else
      if p_pgdir pr =z 0 then panic "switchuvm: no pgdir" else
      onm pushcli ;;
      modify (fun s => set_k_hw (k_cr3 s) (u32 (p_kstack pr + KSTACKSIZE)) s) ;;
      modify (fun s => set_k_hw (V2P (p_pgdir pr)) (k_esp0 s) s) ;;
      onm popcli
  end.

(** ** Creation *)

(** The first slot of [ptable.proc] in a state. *)
Definition find_proc (from : nat) (st : procstate) : M machine (option nat) :=
  for_find (NPROC - from) (Z.of_nat from) (fun k =>
    p ← get_proc (Z.to_nat k);
    mret (if bool_decide (p_state p = st) then Some (Z.to_nat k) else None)).

Definition allocproc : M (kernel T) (option nat) :=
  onm (acquire LPtable) ;;
  r ← onm (find_proc 0 UNUSED);
  match r with
  | None => onm (release LPtable) ;; mret None
  | Some i =>
      upd i (set_p_state EMBRYO) ;;
      pid ← gets k_nextpid;
      upd i (set_p_pid pid) ;;
      modify (set_k_nextpid (s32 (pid + 1))) ;;
      onm (release LPtable) ;;
      ks ← kalloc;
      upd i (set_p_kstack ks) ;;
      if ks =z 0 then upd i (set_p_state UNUSED) ;; mret None else
      d ← load_page ks;
      upd i (set_p_tf (tf_of_page d)) ;;
      store32 (ks + (KSTACKSIZE - TFSIZE - 4)) trapret_addr ;;
      upd i (set_p_context (Context 0 0 0 0 forkret_addr)) ;;
      mret (Some i)
  end.

(** [name] is the uninitialised buffer of [namei]'s frame. *)
Definition userinit (name : list Z) : M (kernel T) unit :=
  r ← allocproc;
  modify (set_k_initproc r) ;;
  i ← of_option "null proc" r;
  pgdir ← setupkvm kend kdata;
  upd i (set_p_pgdir pgdir) ;;
  if pgdir =z 0 then panic "userinit: out of memory?" else
  inituvm pgdir initcode (Z.of_nat (length initcode)) ;;
  upd i (set_p_sz PGSIZE) ;;
  let ds := Z.lor (Z.shiftl SEG_UDATA 3) DPL_USER in
  upd i (set_p_tf (Trapframe 0 0 0 0 0 0 0 0 0 0 ds ds 0 0 0 (Z.lor (Z.shiftl SEG_UCODE 3) DPL_USER) FL_IF PGSIZE ds)) ;;
  pr ← onm (get_proc i);
  nm ← of_option "safestrcpy" (safestrcpy (p_name pr) [105; 110; 105; 116; 99; 111; 100; 101; 0] PNAME);
  upd i (set_p_name nm) ;;
  cwd ← onfs (namei devsw_read [SLASH; 0] name);
  upd i (set_p_cwd cwd) ;;
  onm (acquire LPtable) ;;
  upd i (set_p_state RUNNABLE) ;;
  onm (release LPtable).

Definition growproc (n : Z) : M (kernel T) Z :=
  '(i, pr) ← curproc;
  let sz := p_sz pr in
  r ← (if 0 <z n then
         sz' ← allocuvm kend (p_pgdir pr) sz (u32 (sz + n));
         mret (if sz' =z 0 then None else Some sz')
       else if n <z 0 then
         sz' ← deallocuvm kend (p_pgdir pr) sz (u32 (sz + n));
         mret (if sz' =z 0 then None else Some sz')
       else mret (Some sz));
  match r with
  | None => mret (-1)
  | Some sz => upd i (set_p_sz sz) ;; switchuvm (Some i) ;; mret 0
  end.

(** The descriptors the child shares with its parent. *)
Fixpoint dup_files (fds : list (option nat)) (fd : nat) (np : nat) : M (kernel T) unit :=
  match fds with
  | [] => mret tt
  | None :: fds' => dup_files fds' (S fd) np
  | Some f :: fds' =>
      f' ← filedup f;
      upd np (fun p => set_p_ofile (<[fd := Some f']> (p_ofile p)) p) ;;
      dup_files fds' (S fd) np
  end.

Definition fork : M (kernel T) Z :=
  '(cur, pr) ← curproc;
  r ← allocproc;
  match r with
  | None => mret (-1)
  | Some np =>
      pgdir ← copyuvm kend kdata (p_pgdir pr) (p_sz pr);
      upd np (set_p_pgdir pgdir) ;;
      if pgdir =z 0 then
        nps ← onm (get_proc np);
        kfree kend (p_kstack nps) ;;
        upd np (set_p_kstack 0) ;;
        upd np (set_p_state UNUSED) ;;
        mret (-1)
      else
      upd np (set_p_sz (p_sz pr)) ;;
      upd np (set_p_parent (Some cur)) ;;
      upd np (set_p_tf (p_tf pr)) ;;
      upd np (fun p => set_p_tf (set_tf_eax 0 (p_tf p)) p) ;;
      dup_files (p_ofile pr) 0 np ;;
      cwd ← of_option "idup" (p_cwd pr);
      cwd ← onfs (idup cwd);
      upd np (set_p_cwd (Some cwd)) ;;
      nps ← onm (get_proc np);
      nm ← of_option "safestrcpy" (safestrcpy (p_name nps) (p_name pr) PNAME);
      upd np (set_p_name nm) ;;
      nps ← onm (get_proc np);
      let pid := p_pid nps in
      onm (acquire LPtable) ;;
      upd np (set_p_state RUNNABLE) ;;
      onm (release LPtable) ;;
      mret pid
  end.

(** ** Termination *)

Fixpoint close_files (n fd : nat) (cur : nat) : M (kernel T) unit :=
  match n with
  | O => mret tt
  | S n' =>
      p ← onm (get_proc cur);
      o ← of_option "ofile" (p_ofile p !! fd);
      match o with
      | Some f =>
          fileclose kend f ;;
          upd cur (fun p => set_p_ofile (<[fd := None]> (p_ofile p)) p)
      | None => mret tt
      end ;;
      close_files n' (S fd) cur
  end.

(** The children of [cur] get [init] as their parent. *)
Definition reparent (cur : nat) (ip : option nat) (k : Z) : M machine unit :=
  p ← get_proc (Z.to_nat k);
  when (bool_decide (p_parent p = Some cur))
    (upd_proc (Z.to_nat k) (set_p_parent ip) ;;
     when (bool_decide (p_state p = ZOMBIE))
       match ip with Some i => wakeup1 (ChProc i) | None => mret tt end).

(** The part of [exit] that hands the process over to its parent. *)
Definition exit_table (cur : nat) (ip : option nat) : M (kernel T) unit :=
  onm (acquire LPtable) ;;
  pr ← onm (get_proc cur);
  onm (match p_parent pr with Some par => wakeup1 (ChProc par) | None => mret tt end) ;;
  onm (for_loop NPROC 0 (reparent cur ip)) ;;
  upd cur (set_p_state ZOMBIE) ;;
  onm sched ;;
  panic "zombie exit".

Definition exit : M (kernel T) unit :=
  '(cur, _) ← curproc;
  ip ← gets k_initproc;
  if bool_decide (ip = Some cur) then panic "init exiting" else
  close_files NOFILE 0 cur ;;
  begin_op_k ;;
  pr ← onm (get_proc cur);
  cwd ← of_option "cwd" (p_cwd pr);
  onfs (iput cwd) ;;
  end_op_k ;;
  upd cur (set_p_cwd None) ;;
  exit_table cur ip.

(** The scan of [wait] from slot [k] on: the pid of a child that was reaped,
    and whether there are children. *)
Fixpoint wait_scan (n k : nat) (cur : nat) (havekids : bool) : M (kernel T) (option Z * bool) :=
  match n with
  | O => mret (None, havekids)
  | S n' =>
      p ← onm (get_proc k);
      if negb (bool_decide (p_parent p = Some cur)) then wait_scan n' (S k) cur havekids else
      if bool_decide (p_state p = ZOMBIE) then
        let pid := p_pid p in
        kfree kend (p_kstack p) ;;
        upd k (set_p_kstack 0) ;;
        freevm kend (p_pgdir p) ;;
        upd k (set_p_pid 0) ;;
        upd k (set_p_parent None) ;;
        upd k (fun p => set_p_name (<[0%nat := 0]> (p_name p)) p) ;;
        upd k (set_p_killed 0) ;;
        upd k (set_p_state UNUSED) ;;
        onm (release LPtable) ;;
        mret (Some pid, true)
      else wait_scan n' (S k) cur true
  end.

Definition wait : M (kernel T) Z :=
  '(cur, _) ← curproc;
  onm (acquire LPtable) ;;
  '(r, havekids) ← wait_scan NPROC 0 cur false;
  match r with
  | Some pid => mret pid
  | None =>
      pr ← onm (get_proc cur);
      if negb havekids || c_bool (p_killed pr) then
        onm (release LPtable) ;; mret (-1)
      else
        onm (sleep (ChProc cur) (Some LPtable)) ;;
        fault "sleep returned"
  end.

(** ** kill *)

Definition kill_one (pid : Z) (k : Z) : M machine (option unit) :=
  p ← get_proc (Z.to_nat k);
  if p_pid p =z pid then
    upd_proc (Z.to_nat k) (set_p_killed 1) ;;
    when (bool_decide (p_state p = SLEEPING)) (upd_proc (Z.to_nat k) (set_p_state RUNNABLE)) ;;
    mret (Some tt)
  else mret None.
Definition kill (pid : Z) : M machine Z :=
  acquire LPtable ;;
  r ← for_find NPROC 0 (kill_one pid);
  release LPtable ;;
  mret (match r with Some _ => 0 | None => -1 end).

(** ** The scheduler *)

Definition yield : M machine unit :=
  acquire LPtable ;;
  p ← myproc;
  i ← of_option "null proc" p;
  upd_proc i (set_p_state RUNNABLE) ;;
  sched.

Definition set_cproc (c : nat) (p : option nat) : M machine unit :=
  modify (fun m => set_cpus (alter (fun cp => Cpu (apicid cp) (ncli cp) (intena cp) p) c (cpus m)) m).

(** The inner loop of [scheduler] from slot [from] to the context switch into
    the process it returns, or to the end of the table. *)
Definition scheduler_from (c from : nat) : M (kernel T) (option nat) :=
  r ← onm (find_proc from RUNNABLE);
  match r with
  | Some i =>
      onm (set_cproc c (Some i)) ;;
      switchuvm (Some i) ;;
      upd i (set_p_state RUNNING) ;;
      mret (Some i)
  | None => onm (release LPtable) ;; mret None
  end.
(** The outer loop of [scheduler] up to its first switch. *)
Definition scheduler_round (c : nat) : M (kernel T) (option nat) :=
  onm sti ;;
  onm (acquire LPtable) ;;
  scheduler_from c 0.
(** After the switch back from the process in slot [i]. *)
Definition scheduler_back (c i : nat) : M (kernel T) (option nat) :=
  switchkvm ;;
  onm (set_cproc c None) ;;
  scheduler_from c (S i).

(** [first] is the static variable of [forkret]. *)
Definition forkret (initlog : M T unit) (first : bool) : M (kernel T) bool :=
  onm (release LPtable) ;;
  if first then
    onfs (iinit ROOTDEV) ;;
    onfs (lower initlog) ;;
    mret false
  else mret false.
End proc.
