(* ===== verification/ProcSpec.v ===== *)
(** * Processes: what the operations do

    A view of the kernel between critical sections: the process table, the
    memory, the open files, the inode cache.  Each operation is specified by
    how it changes the view. *)

From S2P Require Import Prelude Bytes Params Machine BlockCache Journal CString Fs Kalloc Vm VmRep VmSpace VmCopy Pipe Kern FileC Proc.
Local Open Scope Z_scope.

Record kview := KView {
  v_procs : list proc;
  v_mem : memory;
  v_files : list file;
  v_pipes : gmap Z pipe;
  v_nextpid : Z;
  v_ic : list inode
}.
Definition set_v_procs (l : list proc) (v : kview) : kview :=
  KView l (v_mem v) (v_files v) (v_pipes v) (v_nextpid v) (v_ic v).
Definition set_v_mem (x : memory) (v : kview) : kview :=
  KView (v_procs v) x (v_files v) (v_pipes v) (v_nextpid v) (v_ic v).
Definition set_v_files (l : list file) (v : kview) : kview :=
  KView (v_procs v) (v_mem v) l (v_pipes v) (v_nextpid v) (v_ic v).
Definition set_v_nextpid (n : Z) (v : kview) : kview :=
  KView (v_procs v) (v_mem v) (v_files v) (v_pipes v) n (v_ic v).
Definition set_v_ic (l : list inode) (v : kview) : kview :=
  KView (v_procs v) (v_mem v) (v_files v) (v_pipes v) (v_nextpid v) l.

(** The table is [procs]; process [cur] runs, and no spin lock is held. *)
Record calm {T} `{HasMachine T} (s : kernel T) (cur : nat) (v : kview) : Prop := {
  ca_quiet : quiet (mach s);
  ca_cur : curp (mach s) = Some cur;
  ca_len : length (procs (mach s)) = NPROC;
  ca_procs : procs (mach s) = v_procs v;
  ca_mem : k_mem s = v_mem v;
  ca_files : k_files s = v_files v;
  ca_pipes : k_pipes s = v_pipes v;
  ca_nextpid : k_nextpid s = v_nextpid v;
  ca_ic : f_icache (k_fs s) = v_ic v
}.

(** ** The process table *)

Section table.
Implicit Types m : machine.

Lemma wp_get_proc_m (Q : proc -> machine -> Prop) m i p : procs m !! i = Some p -> Q p m -> wp (get_proc i) Q m.
Proof. intros Hp HQ. unfold get_proc. wp_steps. by eapply wp_of_option. Qed.

(** The first slot from [from] on in a state. *)
Lemma wp_find_proc (Q : option nat -> machine -> Prop) m from st : length (procs m) = NPROC -> (from <= NPROC)%nat ->
  (forall i p, (from <= i)%nat -> procs m !! i = Some p -> p_state p = st ->
     (forall j q, (from <= j < i)%nat -> procs m !! j = Some q -> p_state q <> st) -> Q (Some i) m) ->
  ((forall j q, (from <= j)%nat -> procs m !! j = Some q -> p_state q <> st) -> Q None m) ->
  wp (find_proc from st) Q m.
Proof.
  intros Hl Hf Hok Hno. unfold find_proc.
  apply (wp_for_find (fun i m' => m' = m /\ forall j q, (from <= j)%nat -> Z.of_nat j < i -> procs m !! j = Some q -> p_state q <> st)).
  - split; [done|]. intros. lia.
  - intros k m' Hk [-> Hbefore]. wp_step.
    assert (is_Some (procs m !! Z.to_nat k)) as [p Hp] by (apply lookup_lt_is_Some_2; rewrite Hl; lia).
    eapply wp_get_proc_m; [done|]. wp_step. case_bool_decide as Hst.
    + apply (Hok (Z.to_nat k) p); [lia|done|done|]. intros j q Hj Hq. apply (Hbefore j q); [lia|lia|done].
    + split; [done|]. intros j q Hj1 Hj2 Hq. destruct (decide (j = Z.to_nat k)) as [->|]; [congruence|].
      apply (Hbefore j q); [lia|lia|done].
  - intros m' [-> Hbefore]. apply Hno. intros j q Hj Hq. apply (Hbefore j q); [lia| |done].
    apply lookup_lt_Some in Hq. lia.
Qed.

Lemma set_procs_holds l m ps : holds l m -> holds l (set_procs ps m).
Proof. done. Qed.
Lemma set_procs_mrel m ps : set_p_state UNUSED <$> ps = set_p_state UNUSED <$> procs m -> mrel m (set_procs ps m).
Proof. by split. Qed.
Lemma set_procs_set_procs ps ps' m : set_procs ps (set_procs ps' m) = set_procs ps m.
Proof. done. Qed.
Lemma set_procs_id m : set_procs (procs m) m = m.
Proof. by destruct m. Qed.

(** [kill] marks the first process with the pid. *)
Definition killed_proc (p : proc) : proc :=
  let p' := set_p_killed 1 p in if bool_decide (p_state p = SLEEPING) then set_p_state RUNNABLE p' else p'.

Lemma wp_kill_scan (Q : option unit -> machine -> Prop) m pid : length (procs m) = NPROC ->
  (forall i p, procs m !! i = Some p -> p_pid p = pid ->
     (forall j q, (j < i)%nat -> procs m !! j = Some q -> p_pid q <> pid) ->
     Q (Some tt) (set_procs (alter killed_proc i (procs m)) m)) ->
  ((forall j q, procs m !! j = Some q -> p_pid q <> pid) -> Q None m) ->
  wp (for_find NPROC 0 (kill_one pid)) Q m.
Proof.
  intros Hl Hok Hno.
  apply (wp_for_find (fun i m' => m' = m /\ forall j q, Z.of_nat j < i -> procs m !! j = Some q -> p_pid q <> pid)).
  - split; [done|]. intros. lia.
  - intros k m' Hk [-> Hbefore]. unfold kill_one. wp_step.
    assert (is_Some (procs m !! Z.to_nat k)) as [p Hp] by (apply lookup_lt_is_Some_2; rewrite Hl; lia).
    eapply wp_get_proc_m; [done|]. case_bool_decide as Hpid.
    + unfold upd_proc. wp_steps. specialize (Hok (Z.to_nat k) p Hp Hpid).
      apply wp_when; intros Hst; wp_steps.
      * cbn [procs set_procs]. rewrite list_alter_alter_eq, set_procs_set_procs.
        replace (alter _ (Z.to_nat k) (procs m)) with (alter killed_proc (Z.to_nat k) (procs m)).
        { apply Hok. intros j q Hj. apply Hbefore. lia. }
        apply list_alter_ext; [|done]. intros q Hq. assert (q = p) as -> by congruence. unfold killed_proc. by rewrite Hst.
      * replace (alter _ (Z.to_nat k) (procs m)) with (alter killed_proc (Z.to_nat k) (procs m)).
        { apply Hok. intros j q Hj. apply Hbefore. lia. }
        apply list_alter_ext; [|done]. intros q Hq. assert (q = p) as -> by congruence. unfold killed_proc. by rewrite Hst.
    + wp_step. split; [done|]. intros j q Hj Hq. destruct (decide (j = Z.to_nat k)) as [->|]; [congruence|].
      apply (Hbefore j q); [lia|done].
  - intros m' [-> Hbefore]. apply Hno. intros j q Hq. apply (Hbefore j q); [|done]. apply lookup_lt_Some in Hq. lia.
Qed.

Lemma wp_kill (Q : Z -> machine -> Prop) m pid : quiet m -> length (procs m) = NPROC ->
  (forall m' i p, quiet m' -> procs m !! i = Some p -> p_pid p = pid ->
     (forall j q, (j < i)%nat -> procs m !! j = Some q -> p_pid q <> pid) ->
     procs m' = alter killed_proc i (procs m) -> Q 0 m') ->
  (forall m', quiet m' -> (forall j q, procs m !! j = Some q -> p_pid q <> pid) -> procs m' = procs m -> Q (-1) m') ->
  wp (kill pid) Q m.
Proof.
  intros Hq Hl Hok Hno. unfold kill. wp_step. apply wp_acquire; [done|]. intros m1 Hh1 Hr1 Hs1 Hp1. wp_step.
  apply wp_kill_scan; [by rewrite Hp1| |].
  - rewrite Hp1. intros i p Hi Hpid Hb. wp_step. apply wp_release; [by apply set_procs_holds|].
    intros m2 [Hq2 Hr2] Hs2 Hp2. wp_step. by eapply Hok.
  - rewrite Hp1. intros Hb. wp_step. apply wp_release; [done|]. intros m2 [Hq2 Hr2] Hs2 Hp2. wp_step.
    apply Hno; [done|done|]. by rewrite Hp2.
Qed.
End table.

Section specs.
Context {T : Type} `{Journal T}.
Implicit Types (s : kernel T) (v : kview).

Lemma wp_machine {A} (m : M machine A) (Q : A -> kernel T -> Prop) s :
  wp m (fun a x => Q a (set_mach x s)) (mach s) -> wp (onm m) Q s.
Proof. apply wp_zoom. Qed.

(** Changes of the machine alone. *)
Lemma calm_mach s cur v m : calm s cur v -> quiet m -> mrel (mach s) m -> 
  calm (set_mach m s) cur (set_v_procs (procs m) v).
Proof.
  intros [] Hq Hr. split; rewrite ?mach_set; try done.
  - by rewrite (mrel_curp _ _ Hr).
  - pose proof (f_equal length (mr_procs _ _ Hr)) as Hl. rewrite !length_fmap in Hl. by rewrite Hl.
Qed.

Lemma calm_view s cur v : calm s cur v -> length (v_procs v) = NPROC.
Proof. intros Hc. rewrite <- (ca_procs _ _ _ Hc). apply Hc. Qed.

Lemma set_v_procs_id v : set_v_procs (v_procs v) v = v.
Proof. by destruct v. Qed.

Lemma wp_upd (Q : unit -> kernel T -> Prop) s cur v i f : calm s cur v ->
  (forall s', calm s' cur (set_v_procs (alter f i (v_procs v)) v) -> Q tt s') -> wp (upd i f) Q s.
Proof.
  intros Hc HQ. unfold upd, onm, upd_proc. wp_step. wp_step. apply HQ. destruct Hc as [H1 H2 H3 H4 H5 H6 H7 H8 H9].
  split; rewrite ?mach_set; try done.
  - cbn [procs set_procs]. by rewrite length_alter.
  - cbn [procs set_procs v_procs set_v_procs]. rewrite <- H4. done.
Qed.

Lemma wp_get_proc (Q : proc -> kernel T -> Prop) s cur v i p : calm s cur v -> v_procs v !! i = Some p ->
  Q p s -> wp (onm (get_proc i)) Q s.
Proof.
  intros Hc Hp HQ. unfold onm, get_proc. wp_step. wp_steps. eapply wp_of_option; [by rewrite (ca_procs _ _ _ Hc)|].
  by rewrite set_mach_id.
Qed.

Lemma wp_curproc (Q : nat * proc -> kernel T -> Prop) s cur v p : calm s cur v -> v_procs v !! cur = Some p ->
  (forall s', calm s' cur v -> depth (mach s') = depth (mach s) -> Q (cur, p) s') -> wp curproc Q s.
Proof.
  intros Hc Hp HQ. unfold curproc. wp_step. apply wp_machine. destruct (ca_quiet _ _ _ Hc) as [Hok Hl].
  wp_apply (myproc_spec _ Hok). intros r m (Hi & Hok' & Hd & ->). rewrite (ca_cur _ _ _ Hc).
  destruct Hi as (Hr & Hlk & Hsl & Hps). wp_step. eapply wp_of_option; [done|]. wp_step.
  assert (calm (set_mach m s) cur v) as Hc'.
  { rewrite <- (set_v_procs_id v), <- (ca_procs _ _ _ Hc), <- Hps. apply calm_mach; [done| |done].
    split; [done|]. intros l. unfold lock_free, lock_of. rewrite Hlk. apply Hl. }
  eapply wp_get_proc; [done|done|]. wp_step. apply HQ; [done|]. by rewrite mach_set.
Qed.

(** Operations that change the memory. *)
Lemma calm_mstep s s' cur v : calm s cur v -> mstep s s' -> calm s' cur (set_v_mem (mem s') v).
Proof.
  intros Hc (m & x & -> & Hm). destruct Hc as [C1 C2 C3 C4 C5 C6 C7 C8 C9]. split; rewrite ?mach_set; try done.
  - by eapply msame_quiet.
  - rewrite (mrel_curp _ _ (ms_rel _ _ Hm)). done.
  - by rewrite (ms_procs _ _ Hm).
  - by rewrite (ms_procs _ _ Hm).
Qed.

Lemma calm_kmem kend s s' cur v fl : kmem_rep kend s fl -> calm s' cur v -> v_mem v = mem s -> kmem_rep kend s' fl.
Proof.
  intros [K1 K2 K3 K4 K5] Hc Hm. assert (mem s' = mem s) as Em by (rewrite <- Hm; apply (ca_mem _ _ _ Hc)).
  split; rewrite ?Em; try done; apply (ca_quiet _ _ _ Hc).
Qed.

(** A critical section of the process table. *)
Lemma wp_acquire_k (Q : unit -> kernel T -> Prop) s cur v l : calm s cur v ->
  (forall m, holds l m -> mrel (mach s) m -> procs m = v_procs v -> Q tt (set_mach m s)) -> wp (onm (acquire l)) Q s.
Proof.
  intros Hc HQ. unfold onm. wp_step. apply wp_acquire; [apply Hc|]. intros m Hh Hr Hs Hp. apply HQ; [done|done|].
  by rewrite Hp, (ca_procs _ _ _ Hc).
Qed.
Lemma wp_release_k (Q : unit -> kernel T -> Prop) s s0 cur v l : calm s0 cur v -> holds l (mach s) -> mrel (mach s0) (mach s) ->
  (exists m, s = set_mach m s0) ->
  (forall s', calm s' cur (set_v_procs (procs (mach s)) v) -> Q tt s') -> wp (onm (release l)) Q s.
Proof.
  intros Hc Hh Hr [m ->] HQ. rewrite mach_set in *. unfold onm. wp_step. rewrite mach_set. apply wp_release; [done|].
  intros m' [Hq Hr'] Hs Hp. apply HQ. rewrite set_mach_set. rewrite <- Hp. apply calm_mach; [done|done|by etrans].
Qed.

(** ** Open files and inodes *)

Lemma wp_filedup (Q : nat -> kernel T -> Prop) s cur v f x : calm s cur v -> v_files v !! f = Some x -> 1 <= fl_ref x ->
  (forall s', calm s' cur (set_v_files (alter (fun x => set_fl_ref (fl_ref x + 1) x) f (v_files v)) v) -> Q f s') ->
  wp (filedup f) Q s.
Proof.
  intros Hc Hf Hr HQ. unfold filedup. wp_step. eapply wp_acquire_k; [done|]. intros m Hh Hrel Hp. wp_step.
  unfold get_file. wp_steps. eapply wp_of_option; [cbn; by rewrite (ca_files _ _ _ Hc)|].
  rewrite bool_decide_eq_false_2 by lia. unfold upd_file. wp_steps. apply wp_machine.
  autorewrite with kern. apply wp_release; [done|].
  intros m' [Hq' Hr'] Hs' Hp'. wp_step. apply HQ.
  destruct Hc as [C1 C2 C3 C4 C5 C6 C7 C8 C9]. split; rewrite ?mach_set; try done.
  - rewrite (mrel_curp _ _ Hr'). by rewrite (mrel_curp _ _ Hrel).
  - by rewrite Hp', Hp, <- C4.
  - by rewrite Hp'.
  - cbn. by rewrite C6.
Qed.

Lemma wp_idup_k (Q : nat -> kernel T -> Prop) s cur v ip i : calm s cur v -> v_ic v !! ip = Some i ->
  (forall s', calm s' cur (set_v_ic (alter (fun i => set_i_ref (i_ref i + 1) i) ip (v_ic v)) v) -> Q ip s') ->
  wp (onfs (idup ip)) Q s.
Proof.
  intros Hc Hi HQ. unfold onfs, idup. wp_step. wp_step. apply wp_zoom. apply wp_acquire; [apply Hc|].
  intros m Hh Hr Hs Hp. wp_step. unfold get_inode. wp_steps.
  eapply wp_of_option; [cbn; by rewrite (ca_ic _ _ _ Hc)|]. unfold upd_inode. wp_step. wp_step. wp_step. apply wp_zoom.
  apply wp_release; [cbn; by rewrite mach_set|]. intros m' [Hq' Hr'] Hs' Hp'. wp_step. apply HQ.
  cbn in Hr', Hp'. rewrite mach_set in Hr', Hp'. 
  destruct Hc as [C1 C2 C3 C4 C5 C6 C7 C8 C9]. split; cbn; rewrite ?mach_set; try done.
  - rewrite (mrel_curp _ _ Hr'). by rewrite (mrel_curp _ _ Hr).
  - rewrite Hp', Hp. exact C3.
  - rewrite Hp', Hp. exact C4.
  - by rewrite C9.
Qed.

(** ** allocproc *)

(** The process in its slot after [allocproc]. *)
Definition embryo (forkret_addr pid ks : Z) (d : list Z) (p : proc) : proc :=
  set_p_context (Context 0 0 0 0 forkret_addr) (set_p_tf (tf_of_page d)
    (set_p_kstack ks (set_p_pid pid (set_p_state EMBRYO p)))).
(** The slot after a failure to get a stack. *)
Definition unused_again (pid : Z) (p : proc) : proc :=
  set_p_state UNUSED (set_p_kstack 0 (set_p_pid pid (set_p_state EMBRYO p))).

Definition first_unused (ps : list proc) (i : nat) (p : proc) : Prop :=
  ps !! i = Some p /\ p_state p = UNUSED /\ forall j q, (j < i)%nat -> ps !! j = Some q -> p_state q <> UNUSED.

Definition stack_top : Z := KSTACKSIZE - TFSIZE - 4.

(** The part of [allocproc] with the lock: a slot and a pid. *)
Lemma wp_take_slot {A} (K : M (kernel T) A) (Q : A -> kernel T -> Prop) s cur v m i pid : calm s cur v -> holds LPtable m -> mrel (mach s) m ->
  procs m = v_procs v -> v_nextpid v = pid ->
  (forall s', calm s' cur (set_v_nextpid (s32 (pid + 1))
      (set_v_procs (alter (fun p => set_p_pid pid (set_p_state EMBRYO p)) i (v_procs v)) v)) -> wp K Q s') ->
  wp (upd i (set_p_state EMBRYO) ;;
      pid ← gets k_nextpid;
      upd i (set_p_pid pid) ;;
      modify (set_k_nextpid (s32 (pid + 1))) ;;
      onm (release LPtable) ;;
      K) Q (set_mach m s).
Proof.
  intros Hc Hh Hr Hp Hn HQ. wp_step. unfold upd, upd_proc. apply wp_machine. wp_steps. apply wp_machine. autorewrite with kern. wp_steps.
  apply wp_machine. autorewrite with kern. rewrite !set_mach_set. cbn [procs set_procs]. rewrite list_alter_alter_eq, set_procs_set_procs.
  apply wp_release; [by apply set_procs_holds|]. intros m' [Hq' Hr'] Hs' Hp'. apply HQ.
  destruct Hc as [C1 C2 C3 C4 C5 C6 C7 C8 C9]. cbn [procs set_procs] in Hp'. change (k_nextpid (set_mach _ s)) with (k_nextpid s) in *.
  rewrite C8, Hn in *. split; autorewrite with kern; try done.
  - rewrite (mrel_curp _ _ Hr'). change (curp (set_procs _ m)) with (curp m). by rewrite (mrel_curp _ _ Hr).
  - rewrite Hp', length_alter, Hp, <- C4. exact C3.
  - rewrite Hp', Hp. done.
Qed.

Lemma wp_allocproc (Q : option nat -> kernel T -> Prop) kend fra tra s cur v fl : KERNBASE < kend -> calm s cur v ->
  kmem_rep kend s fl ->
  (forall s', calm s' cur v -> (forall j q, v_procs v !! j = Some q -> p_state q <> UNUSED) -> Q None s') ->
  (forall s' i p, first_unused (v_procs v) i p -> fl = [] ->
     calm s' cur (set_v_mem (mem s') (set_v_nextpid (s32 (v_nextpid v + 1))
       (set_v_procs (alter (unused_again (v_nextpid v)) i (v_procs v)) v))) ->
     kmem_rep kend s' [] -> ram (mem s') = ram (mem s) -> Q None s') ->
  (forall s' i p ks fl' d, first_unused (v_procs v) i p -> fl = ks :: fl' -> ram (mem s) !! ks = Some d ->
     calm s' cur (set_v_mem (mem s') (set_v_nextpid (s32 (v_nextpid v + 1))
       (set_v_procs (alter (embryo fra (v_nextpid v) ks d) i (v_procs v)) v))) ->
     kmem_rep kend s' fl' -> ram (mem s') = <[ks := set32 d (Z.to_nat stack_top) tra]> (ram (mem s)) -> Q (Some i) s') ->
  wp (allocproc fra tra) Q s.
Proof.
  intros He Hc Hk Hnone Hnomem Hok. unfold allocproc. wp_step. eapply wp_acquire_k; [done|]. intros m Hh Hr Hp. wp_step.
  apply wp_machine. rewrite mach_set. apply wp_find_proc; [by rewrite Hp; apply (calm_view s cur)|lia| |].
  2:{ intros Hno. wp_step. apply wp_machine. rewrite set_mach_set, mach_set. apply wp_release; [done|]. intros m' [Hq' Hr'] Hs' Hp'. wp_step.
      rewrite set_mach_set. apply Hnone.
      - rewrite <- (set_v_procs_id v), <- Hp, <- Hp'. apply calm_mach; [done|done|by etrans].
      - intros j q Hj. apply (Hno j); [lia|by rewrite Hp]. }
  intros i p _ Hi Hst Hb. rewrite Hp in Hi, Hb. rewrite set_mach_set.
  assert (first_unused (v_procs v) i p) as Hfu by (split_and!; [done|done|intros j q Hj; apply Hb; lia]).
  eapply wp_take_slot; [done|done|done|done|done|]. intros s1 Hc1.
  assert (kmem_rep kend s1 fl) as Hk1 by (eapply calm_kmem; [done|done|symmetry; apply (ca_mem _ _ _ Hc)]).
  assert (mem s1 = mem s) as Em1 by (etrans; [apply (ca_mem _ _ _ Hc1)|symmetry; apply (ca_mem _ _ _ Hc)]).
  wp_step. eapply (wp_kalloc kend He); [done|]. intros s2 Hs2 Hr2. pose proof (calm_mstep _ _ _ _ Hc1 Hs2) as Hc2.
  destruct fl as [|ks fl]; intros Hk2; wp_step; (eapply wp_upd; [done|]); intros s3 Hc3.
  - rewrite bool_decide_eq_true_2 by done. wp_step. eapply wp_upd; [done|]. intros s4 Hc4. wp_step.
    assert (mem s4 = mem s2) as Em4 by apply (ca_mem _ _ _ Hc4).
    apply (Hnomem s4 i p); [done|done| |by eapply calm_kmem; [exact Hk2|exact Hc4|]|by rewrite Em4, Hr2, Em1].
    cbn [v_procs set_v_procs set_v_mem set_v_nextpid v_nextpid] in Hc4. rewrite !list_alter_alter_eq in Hc4. by rewrite Em4.
  - destruct (kmem_pages kend s1 _ ks Hk1 ltac:(set_solver)) as [Hf (d & Hd & Hl)].
    rewrite bool_decide_eq_false_2 by (by apply (frame_nz kend He)). wp_step.
    assert (mem s3 = mem s2) as Em3 by apply (ca_mem _ _ _ Hc3).
    eapply wp_load_page; [rewrite Em3, Hr2; exact Hd|]. wp_step. eapply wp_upd; [done|]. intros s4 Hc4. wp_step.
    assert (mem s4 = mem s2) as Em4 by apply (ca_mem _ _ _ Hc4).
    change (KSTACKSIZE - TFSIZE - 4) with (4 * 1004). eapply wp_store32; [rewrite Em4, Hr2; exact Hd|apply Hf|lia|].
    wp_step. set (s5 := put_page ks _ s4).
    assert (mstep s4 s5) as Hs5 by (apply put_page_mstep, (ca_quiet _ _ _ Hc4)).
    pose proof (calm_mstep _ _ _ _ Hc4 Hs5) as Hc5.
    eapply wp_upd; [exact Hc5|]. intros s6 Hc6. wp_step. assert (mem s6 = mem s5) as Em6 by apply (ca_mem _ _ _ Hc6).
    apply (Hok s6 i p ks fl d); [done|done|by rewrite <- Em1| | |].
    + cbn [v_procs set_v_procs set_v_mem set_v_nextpid v_nextpid] in Hc6. rewrite !list_alter_alter_eq in Hc6. by rewrite Em6.
    + apply (calm_kmem kend s5 s6 cur _ fl) in Hc6; [done| |done]. apply put_page_kmem; [|].
      * eapply calm_kmem; [exact Hk2|exact Hc4|done].
      * pose proof (kr_nodup _ _ _ Hk1) as Hnd. by apply NoDup_cons in Hnd as [? _].
    + rewrite Em6. unfold s5. rewrite ram_put_page, Em4, Hr2, Em1. done.
Qed.
End specs.
