(* ===== verification/Fork.v ===== *)
(** * fork

    [fork] on every path: the child is a copy of its parent with memory of
    its own; when there is no slot or no memory, nothing has been taken. *)

From S2P Require Import Prelude Bytes Params Machine BlockCache Journal CString Fs Kalloc Vm VmRep VmSpace VmCopy Pipe Kern FileC Proc ProcSpec.
Local Open Scope Z_scope.

Definition ref_incr (x : file) : file := set_fl_ref (fl_ref x + 1) x.
(** Every open descriptor counts once more. *)
Fixpoint dup_refs (fds : list (option nat)) (fs : list file) : list file :=
  match fds with
  | [] => fs
  | None :: fds' => dup_refs fds' fs
  | Some f :: fds' => dup_refs fds' (alter ref_incr f fs)
  end.
(** The table of the child. *)
Fixpoint dup_ofile (fds : list (option nat)) (fd : nat) (l : list (option nat)) : list (option nat) :=
  match fds with
  | [] => l
  | None :: fds' => dup_ofile fds' (S fd) l
  | Some f :: fds' => dup_ofile fds' (S fd) (<[fd := Some f]> l)
  end.

Lemma lookup_dup_ofile fds : forall fd l j, (fd + length fds <= length l)%nat ->
  dup_ofile fds fd l !! j = match (if decide (fd <= j)%nat then fds !! (j - fd)%nat else None) with
                            | Some (Some f) => Some (Some f) | _ => l !! j end.
Proof.
  induction fds as [|[f|] fds IH]; intros fd l j Hl; cbn [dup_ofile].
  - by case_decide.
  - cbn in Hl. rewrite IH by (rewrite length_insert; lia). destruct (decide (fd = j)) as [->|].
    + rewrite decide_False, decide_True by lia. rewrite Nat.sub_diag. cbn. apply list_lookup_insert_eq. lia.
    + rewrite list_lookup_insert_ne by done. destruct (decide (S fd <= j)%nat).
      * rewrite decide_True by lia. replace (j - fd)%nat with (S (j - S fd)) by lia. done.
      * by rewrite decide_False by lia.
  - cbn in Hl. rewrite IH by lia. destruct (decide (S fd <= j)%nat).
    + rewrite decide_True by lia. replace (j - fd)%nat with (S (j - S fd)) by lia. done.
    + destruct (decide (fd <= j)%nat); [|done]. replace (j - fd)%nat with 0%nat by lia. done.
Qed.

(** On an empty table it is the parent's. *)
Lemma dup_ofile_copy fds : dup_ofile fds 0 (replicate (length fds) None) = fds.
Proof.
  apply list_eq. intros j. rewrite lookup_dup_ofile by (rewrite length_replicate; lia).
  rewrite decide_True, Nat.sub_0_r by lia. destruct (fds !! j) as [[f|]|] eqn:Ej; [done| |].
  - apply lookup_replicate_2. by eapply lookup_lt_Some.
  - apply lookup_ge_None_2. rewrite length_replicate. by apply lookup_ge_None.
Qed.

Lemma dup_refs_lookup fds : forall fs f x, fs !! f = Some x -> exists x', dup_refs fds fs !! f = Some x' /\ fl_ref x <= fl_ref x'.
Proof.
  induction fds as [|[g|] fds IH]; intros fs f x Hf; cbn [dup_refs]; [eauto with lia| |by apply IH].
  destruct (decide (g = f)) as [->|Hne].
  - destruct (IH (alter ref_incr f fs) f (ref_incr x)) as (x' & Hx' & Hle).
    { rewrite list_lookup_alter_eq, Hf. done. }
    exists x'. split; [done|]. cbn in Hle. lia.
  - apply IH. by rewrite list_lookup_alter_ne.
Qed.

Lemma upto0_cut l n rest : (length (upto0 l) <= n)%nat -> upto0 (take n (upto0 l ++ 0 :: rest)) = upto0 l.
Proof.
  revert n. induction l as [|c l IH]; intros n; cbn [upto0].
  - intros _. by destruct n.
  - destruct (c_bool c) eqn:Ec; [|intros _; by destruct n]. destruct n as [|n]; cbn [length]; [lia|]. intros Hn.
    cbn. rewrite Ec. f_equal. apply IH. lia.
Qed.

Lemma alter_at {A} (i : nat) (x : A) (l : list A) (f : A -> A) : l !! i = Some x -> alter f i l = <[i := f x]> l.
Proof.
  intros Hx. rewrite list_insert_alter. apply list_alter_ext; [|done]. intros y Hy. congruence.
Qed.

Section fork.
Context {T : Type} `{Journal T}.
Implicit Types (s : kernel T) (v : kview).

Lemma wp_dup_files fds : forall (Q : unit -> kernel T -> Prop) s cur v fd np, calm s cur v ->
  (forall f, Some f ∈ fds -> exists x, v_files v !! f = Some x /\ 1 <= fl_ref x) ->
  (forall s', calm s' cur (set_v_files (dup_refs fds (v_files v))
     (set_v_procs (alter (fun p => set_p_ofile (dup_ofile fds fd (p_ofile p)) p) np (v_procs v)) v)) -> Q tt s') ->
  wp (dup_files fds fd np) Q s.
Proof.
  induction fds as [|[f|] fds IH]; intros Q s cur v fd np Hc Hf HQ; cbn [dup_files].
  - wp_step. apply HQ. cbn [dup_refs dup_ofile]. replace (alter _ np (v_procs v)) with (v_procs v).
    + by destruct v.
    + symmetry. apply list_alter_id. by intros [].
  - destruct (Hf f) as (x & Hx & Hr); [set_solver|]. wp_step. eapply wp_filedup; [done|done|done|]. intros s1 Hc1. wp_step.
    eapply wp_upd; [done|]. intros s2 Hc2. eapply IH; [exact Hc2| |].
    + intros g Hg. destruct (Hf g) as (y & Hy & Hry); [set_solver|]. cbn [v_files set_v_files set_v_procs].
      destruct (decide (f = g)) as [->|Hne].
      * rewrite list_lookup_alter_eq, Hy. eexists. split; [done|]. cbn. lia.
      * rewrite list_lookup_alter_ne by done. eauto.
    + intros s3 Hc3. apply HQ. cbn [v_files v_procs set_v_files set_v_procs] in Hc3. rewrite list_alter_alter_eq in Hc3.
      exact Hc3.
  - eapply IH; [done| |].
    + intros g Hg. apply Hf. set_solver.
    + done.
Qed.

(** The table after a critical section that changed it. *)
Lemma calm_procs s cur v m m' ps : calm s cur v -> mrel (mach s) m -> quiet m' -> mrel (set_procs ps m) m' ->
  procs m' = ps -> length ps = NPROC -> calm (set_mach m' s) cur (set_v_procs ps v).
Proof.
  intros [] Hr Hq Hr' Hp Hl. split; rewrite ?mach_set; try done.
  - rewrite (mrel_curp _ _ Hr'). change (curp (set_procs ps m)) with (curp m). by rewrite (mrel_curp _ _ Hr).
  - by rewrite Hp.
Qed.

(** Repeated changes of one slot. *)
Lemma calm_again s cur v i x f g ps : (i < length ps)%nat ->
  calm s cur (set_v_files g (set_v_procs (alter f i (<[i := x]> ps)) v)) ->
  calm s cur (set_v_procs (<[i := f x]> ps) (set_v_files g v)).
Proof. intros Hi Hc. by rewrite (alter_at i x _ _ (list_lookup_insert_eq _ _ _ Hi)), list_insert_insert_eq in Hc. Qed.
Lemma wp_upd_again (Q : unit -> kernel T -> Prop) s cur v i x f ps : calm s cur (set_v_procs (<[i := x]> ps) v) ->
  (i < length ps)%nat -> (forall s', calm s' cur (set_v_procs (<[i := f x]> ps) v) -> Q tt s') -> wp (upd i f) Q s.
Proof.
  intros Hc Hi HQ. eapply wp_upd; [exact Hc|]. intros s' Hc'. apply HQ. cbn [v_procs set_v_procs] in Hc'.
  by rewrite (alter_at i x _ _ (list_lookup_insert_eq _ _ _ Hi)), list_insert_insert_eq in Hc'.
Qed.

Variables kend kdata fra tra : Z.
Hypothesis kend_ok : KERNBASE < kend.
Hypothesis kdata_page : kdata mod PGSIZE = 0.
Hypothesis kdata_ok : KERNLINK < kdata < KERNBASE + PHYSTOP.

Lemma parent_sub fl fl' s s' pgdir tabs ents : parent kend fl s pgdir tabs ents -> (forall a, a ∈ fl' -> a ∈ fl) ->
  (forall a, a ∉ fl -> ram (mem s') !! a = ram (mem s) !! a) -> parent kend fl' s' pgdir tabs ents.
Proof.
  intros HP Hsub Hr. destruct (parent_step kend kend_ok fl s s' pgdir tabs ents HP Hr) as [Ht Hp]. split; [done|].
  intros a Ha. destruct (Hp a Ha) as [Hpa Hna]. split; [done|]. auto.
Qed.

Lemma calm_vrep all s s' cur v pgdir tabs ents fl : vrep kend all s pgdir tabs ents fl -> calm s' cur v ->
  v_mem v = mem s -> vrep kend all s' pgdir tabs ents fl.
Proof.
  intros [V1 V2 V3 V4 V5] Hc Hm. assert (mem s' = mem s) as Em by (rewrite <- Hm; apply (ca_mem _ _ _ Hc)).
  split; [by eapply calm_kmem|done|done| |by rewrite Em]. intros a Ha. eapply is_page_ext; [by apply V4|by rewrite Em].
Qed.

(** What [fork] relies on: the memory of the caller is its own and complete,
    its descriptors and its directory are open, and free slots are clean. *)
Record fork_ready s cur v pr fl tabs ents ip : Prop := {
  fr_calm : calm s cur v;
  fr_proc : v_procs v !! cur = Some pr;
  fr_running : p_state pr <> UNUSED;
  fr_kmem : kmem_rep kend s fl;
  fr_parent : parent kend fl s (p_pgdir pr) tabs ents;
  fr_size : 0 <= p_sz pr <= KERNBASE;
  fr_pages : forall j, 0 <= j < npages (p_sz pr) -> is_Some (ents !! j);
  fr_files : forall f, Some f ∈ p_ofile pr -> exists x, v_files v !! f = Some x /\ 1 <= fl_ref x;
  fr_ofile : length (p_ofile pr) = NOFILE;
  fr_cwd : p_cwd pr = Some ip /\ is_Some (v_ic v !! ip);
  fr_name : length (p_name pr) = 16%nat;
  fr_slots : forall j q, v_procs v !! j = Some q -> p_state q = UNUSED ->
    p_ofile q = replicate NOFILE None /\ length (p_name q) = 16%nat;
  fr_pid : 0 < v_nextpid v
}.

(** The process in the slot [np] that was [q] when [fork] has returned. *)
Definition forked (cur : nat) (pr : proc) (pid ks pgdir : Z) (q c : proc) : Prop :=
  p_state c = RUNNABLE /\ p_pid c = pid /\ p_parent c = Some cur /\ p_kstack c = ks /\ p_pgdir c = pgdir /\
  p_sz c = p_sz pr /\ p_tf c = set_tf_eax 0 (p_tf pr) /\ p_context c = Context 0 0 0 0 fra /\
  p_ofile c = p_ofile pr /\ p_cwd c = p_cwd pr /\ p_killed c = p_killed q /\
  cname 15 (p_name c) = cname 15 (p_name pr).

(** The part of [fork] after the address space is copied. *)
Definition fork_tail (cur : nat) (pr : proc) (np : nat) : M (kernel T) Z :=
  upd np (set_p_sz (p_sz pr)) ;;
  upd np (set_p_parent (Some cur)) ;;
  upd np (set_p_tf (p_tf pr)) ;;
  upd np (fun p => set_p_tf (set_tf_eax 0 (p_tf p)) p) ;;
  dup_files (p_ofile pr) 0 np ;;
  cwd ← of_option "idup" (p_cwd pr);
  cwd ← onfs (idup cwd);
  upd np (set_p_cwd (Some cwd)) ;;
  nps ← onm (get_proc np);
  nm ← of_option "safestrcpy" (safestrcpy (p_name nps) (p_name pr) PNAME);
  upd np (set_p_name nm) ;;
  nps ← onm (get_proc np);
  let pid := p_pid nps in
  onm (acquire LPtable) ;;
  upd np (set_p_state RUNNABLE) ;;
  onm (release LPtable) ;;
  mret pid.

Lemma fork_name (q pr : proc) : length (p_name q) = 16%nat -> length (p_name pr) = 16%nat ->
  exists nm, safestrcpy (p_name q) (p_name pr) PNAME = Some nm /\ cname 15 nm = cname 15 (p_name pr).
Proof.
  intros Hq Hp. unfold safestrcpy. change (PNAME <=z 0) with false. cbv iota. change (Z.to_nat (PNAME - 1)) with 15%nat.
  destruct (safestrcpy_loop_spec (p_name q) (p_name pr) 15) as (rest & -> & _); [lia|left; lia|].
  eexists. split; [done|]. unfold cname. apply upto0_cut. apply (length_cname 15).
Qed.

Lemma wp_fork_tail (Q : Z -> kernel T -> Prop) s cur v pr np c ps ip i : calm s cur (set_v_procs (<[np := c]> ps) v) ->
  (np < length ps)%nat ->
  (forall f, Some f ∈ p_ofile pr -> exists x, v_files v !! f = Some x /\ 1 <= fl_ref x) -> length (p_ofile pr) = NOFILE ->
  p_cwd pr = Some ip -> v_ic v !! ip = Some i -> length (p_name pr) = 16%nat ->
  p_ofile c = replicate NOFILE None -> length (p_name c) = 16%nat ->
  (forall s' nm, cname 15 nm = cname 15 (p_name pr) ->
    let c' := set_p_state RUNNABLE (set_p_name nm (set_p_cwd (Some ip) (set_p_ofile (p_ofile pr)
      (set_p_tf (set_tf_eax 0 (p_tf pr)) (set_p_parent (Some cur) (set_p_sz (p_sz pr) c)))))) in
    calm s' cur (set_v_procs (<[np := c']> ps)
      (set_v_ic (alter (fun i => set_i_ref (i_ref i + 1) i) ip (v_ic v))
        (set_v_files (dup_refs (p_ofile pr) (v_files v)) v))) -> Q (p_pid c) s') ->
  wp (fork_tail cur pr np) Q s.
Proof.
  intros Hc Hnp Hf Hof Hcwd Hi Hnm Hofc Hnmc HQ. unfold fork_tail.
  assert (dup_ofile (p_ofile pr) 0 (p_ofile c) = p_ofile pr) as Ed by (rewrite Hofc, <- Hof; apply dup_ofile_copy).
  do 4 (wp_step; eapply wp_upd_again; [done|done|]; clear s Hc; intros s Hc). wp_step.
  set (c1 := set_p_parent (Some cur) (set_p_sz (p_sz pr) c)) in *.
  eapply wp_dup_files; [exact Hc|exact Hf|]. clear s Hc. intros s Hc. apply (calm_again _ _ _ _ _ _ _ _ Hnp) in Hc.
  cbv beta in Hc. change (dup_ofile (p_ofile pr) 0 (p_ofile _)) with (dup_ofile (p_ofile pr) 0 (p_ofile c)) in Hc. rewrite Ed in Hc.
  set (c2 := set_p_ofile (p_ofile pr) (set_p_tf (set_tf_eax 0 (p_tf pr)) c1)) in *.
  set (v2 := set_v_files (dup_refs (p_ofile pr) (v_files v)) v) in *. change (calm s cur (set_v_procs (<[np := c2]> ps) v2)) in Hc.
  wp_step. eapply wp_of_option; [done|]. wp_step. eapply wp_idup_k; [exact Hc|exact Hi|]. clear s Hc. intros s Hc. wp_step.
  set (v3 := set_v_ic (alter (fun i => set_i_ref (i_ref i + 1) i) ip (v_ic v)) v2) in *.
  change (calm s cur (set_v_procs (<[np := c2]> ps) v3)) in Hc.
  eapply wp_upd_again; [exact Hc|done|]. clear s Hc. intros s Hc. wp_step.
  eapply wp_get_proc; [exact Hc|by apply list_lookup_insert_eq|]. wp_step.
  destruct (fork_name c pr Hnmc Hnm) as (nm & Hs & Hcn).
  eapply wp_of_option; [exact Hs|]. wp_step. eapply wp_upd_again; [exact Hc|done|]. clear s Hc. intros s Hc. wp_step.
  eapply wp_get_proc; [exact Hc|by apply list_lookup_insert_eq|]. wp_step.
  eapply wp_acquire_k; [exact Hc|]. intros m Hh Hr Hp. wp_step.
  unfold upd, upd_proc. apply wp_machine. wp_step. wp_step. apply wp_machine. autorewrite with kern.
  apply wp_release; [by apply set_procs_holds|]. intros m' [Hq' Hr'] Hs' Hp'. wp_step. rewrite !set_mach_set. apply (HQ _ nm Hcn).
  cbn [procs set_procs] in Hp'. rewrite Hp in Hp', Hr'. cbn [v_procs set_v_procs] in Hp', Hr'.
  rewrite (alter_at np _ _ _ (list_lookup_insert_eq _ _ _ Hnp)), list_insert_insert_eq in Hp', Hr'.
  apply (calm_procs _ _ _ _ _ _ Hc Hr Hq' Hr' Hp'). rewrite length_insert.
  pose proof (calm_view s cur _ Hc) as Hl. cbn [v_procs set_v_procs] in Hl. by rewrite length_insert in Hl.
Qed.

(** The part of [fork] that gives the kernel stack back when the copy fails. *)
Lemma wp_fork_undo (Q : Z -> kernel T -> Prop) s cur v ps np c fl d :
  calm s cur (set_v_procs (<[np := c]> ps) v) -> (np < length ps)%nat ->
  kmem_rep kend s fl -> frame_ok kend (p_kstack c) -> p_kstack c ∉ fl ->
  ram (mem s) !! p_kstack c = Some d -> length d = Z.to_nat PGSIZE ->
  (forall s', calm s' cur (set_v_procs (<[np := set_p_state UNUSED (set_p_kstack 0 c)]> ps) (set_v_mem (mem s') v)) ->
     kmem_rep kend s' (p_kstack c :: fl) -> Q (-1) s') ->
  wp (nps ← onm (get_proc np); kfree kend (p_kstack nps) ;; upd np (set_p_kstack 0) ;;
      upd np (set_p_state UNUSED) ;; mret (-1)) Q s.
Proof.
  intros Hc Hnp Hk Hf Hn Hd Hl HQ. wp_step. eapply wp_get_proc; [exact Hc|by apply list_lookup_insert_eq|]. wp_step.
  eapply (wp_kfree kend kend_ok _ s fl (p_kstack c) d); [done|done|done|done|done|].
  intros s1 Hs1 Hr1 Hk1. pose proof (calm_mstep _ _ _ _ Hc Hs1) as Hc1. wp_step.
  change (calm s1 cur (set_v_procs (<[np := c]> ps) (set_v_mem (mem s1) v))) in Hc1.
  eapply wp_upd_again; [exact Hc1|done|]. intros s2 Hc2. wp_step.
  eapply wp_upd_again; [exact Hc2|done|]. intros s3 Hc3. wp_step.
  assert (mem s3 = mem s1) as Em by apply (ca_mem _ _ _ Hc3).
  apply HQ; [by rewrite Em|]. eapply calm_kmem; [exact Hk1|exact Hc3|done].
Qed.

(** No slot for a child, or not enough pages: one for its stack, those of the
    parent, and those of the page table, which are 1026 at most. *)
Definition no_room (v : kview) (pr : proc) (fl : list Z) : Prop :=
  (forall j q, v_procs v !! j = Some q -> p_state q <> UNUSED) \/ Z.of_nat (length fl) <= 1027 + npages (p_sz pr).

(** [fork] is [allocproc], [copyuvm] and the rest. *)
Lemma wp_fork (Q : Z -> kernel T -> Prop) s cur v pr fl tabs ents ip : fork_ready s cur v pr fl tabs ents ip ->
  (forall s' v' fl', calm s' cur v' -> v_files v' = v_files v -> v_ic v' = v_ic v -> kmem_rep kend s' fl' -> fl' ≡ₚ fl ->
     (forall j q, v_procs v !! j = Some q -> exists q', v_procs v' !! j = Some q' /\ p_state q' = p_state q /\
        p_parent q' = p_parent q /\ (p_state q <> UNUSED -> q' = q)) -> no_room v pr fl -> Q (-1) s') ->
  (forall s' v' np q c ks fl0 fl' d tabsC entsC ents0, fl = ks :: fl0 -> calm s' cur v' -> first_unused (v_procs v) np q ->
     v_procs v' = <[np := c]> (v_procs v) -> forked cur pr (v_nextpid v) ks d q c ->
     v_files v' = dup_refs (p_ofile pr) (v_files v) ->
     v_ic v' = alter (fun i => set_i_ref (i_ref i + 1) i) ip (v_ic v) ->
     vrep kend fl0 s' d tabsC entsC fl' -> kernel_ents kdata ents0 -> copied_to ents ents0 (npages (p_sz pr)) s' entsC ->
     (forall a, a ∉ fl -> ram (mem s') !! a = ram (mem s) !! a) -> Q (v_nextpid v) s') ->
  wp (fork kend kdata fra tra) Q s.
Proof.
  intros [Hc Hpr Hrun Hk HP Hsz Hpg Hfl Hof [Hcwd [i Hi]] Hnm Hsl Hpid] Hfail Hok. unfold fork. wp_step.
  eapply wp_curproc; [done|done|]. intros s0 Hc0 _. wp_step.
  assert (mem s0 = mem s) as Em0 by (etrans; [apply (ca_mem _ _ _ Hc0)|symmetry; apply (ca_mem _ _ _ Hc)]).
  assert (kmem_rep kend s0 fl) as Hk0 by (eapply calm_kmem; [done|done|symmetry; apply (ca_mem _ _ _ Hc)]).
  eapply (wp_allocproc _ kend); [done|exact Hc0|exact Hk0| | |].
  - intros s1 Hc1 Hno. wp_step. apply (Hfail s1 v fl); try done; [eapply calm_kmem; [exact Hk|done|symmetry; apply (ca_mem _ _ _ Hc)]| |by left].
    intros j q Hj. by exists q.
  - intros s1 np q (Hnp & Hst & _) -> Hc1 Hk1 Hr1. wp_step. eapply (Hfail s1 _ []); [exact Hc1|done|done|done|done| |].
    2:{ right. pose proof (npages_bounds (p_sz pr)). unfold PGSIZE in *. cbn [length]. lia. }
    intros j p Hj. cbn [v_procs set_v_mem set_v_nextpid set_v_procs]. destruct (decide (np = j)) as [->|Hne].
    + rewrite list_lookup_alter_eq, Hj. eexists. split; [done|]. assert (p = q) as -> by congruence. by rewrite Hst.
    + rewrite list_lookup_alter_ne by done. eauto.
  - intros s1 np q ks fl0 d0 Hfu -> Hd0 Hc1 Hk1 Hr1. pose proof Hfu as (Hnp & Hst & _).
    rewrite (alter_at np q _ _ Hnp) in Hc1. wp_step. destruct (Hsl np q Hnp Hst) as [Hqo Hqn].
    assert (np < length (v_procs v))%nat as Hlt by (by eapply lookup_lt_Some).
    assert (forall a, a ∉ ks :: fl0 -> ram (mem s1) !! a = ram (mem s) !! a) as Hfr1.
    { intros a Ha. rewrite Hr1, lookup_insert_ne, Em0; [done|]. set_solver. }
    eapply (wp_copyuvm kend kdata kend_ok kdata_page kdata_ok _ s1 fl0); [done|eapply parent_sub; [done|set_solver|done]|done|done| |].
    + intros s2 d tabsC entsC ents0 fl' Hs2 Hv2 Hke Hcp Hfr2. pose proof (calm_mstep _ _ _ _ Hc1 Hs2) as Hc2.
      set (v2 := set_v_nextpid (s32 (v_nextpid v + 1)) v) in *.
      set (c1 := embryo fra (v_nextpid v) ks d0 q) in *.
      change (calm s2 cur (set_v_procs (<[np := c1]> (v_procs v)) (set_v_mem (mem s2) v2))) in Hc2. wp_step.
      eapply wp_upd_again; [exact Hc2|done|]. intros s3 Hc3.
      rewrite bool_decide_eq_false_2.
      2:{ apply (frame_nz kend kend_ok). apply (vrep_page _ _ _ _ _ _ _ d Hv2). set_solver. }
      eapply (wp_fork_tail _ s3); [exact Hc3|done|done|done|done|done|done|done|done|]. intros s4 nm Hcn c' Hc4.
      assert (mem s4 = mem s2) as Em4 by apply (ca_mem _ _ _ Hc4).
      eapply (Hok s4 _ np q c' ks fl0 fl' d tabsC entsC ents0); [done|exact Hc4|done|done| |done|done| |done| |].
      * unfold forked. cbn. by rewrite Hcwd.
      * eapply (calm_vrep _ s2); [done|exact Hc4|done].
      * intros j. rewrite Em4. apply Hcp.
      * intros a Ha. rewrite Em4, Hfr2, Hfr1; [done|done|set_solver].
    + intros s2 fl' Hs2 Hk2 Hp2 Hl2 Hfr2. pose proof (calm_mstep _ _ _ _ Hc1 Hs2) as Hc2.
      set (v2 := set_v_nextpid (s32 (v_nextpid v + 1)) v) in *. set (c1 := embryo fra (v_nextpid v) ks d0 q) in *.
      change (calm s2 cur (set_v_procs (<[np := c1]> (v_procs v)) (set_v_mem (mem s2) v2))) in Hc2. wp_step.
      eapply wp_upd_again; [exact Hc2|done|]. intros s3 Hc3. rewrite bool_decide_eq_true_2 by done.
      pose proof (kr_nodup _ _ _ Hk) as [Hnks _]%NoDup_cons.
      destruct (kmem_pages kend s _ ks Hk ltac:(set_solver)) as [Hfks (dk & Hdk & Hlk)].
      assert (mem s3 = mem s2) as Em3 by apply (ca_mem _ _ _ Hc3).
      eapply (wp_fork_undo _ s3 cur _ _ np (set_p_pgdir 0 c1) fl' (set32 d0 (Z.to_nat stack_top) tra)).
      * exact Hc3.
      * done.
      * eapply calm_kmem; [exact Hk2|exact Hc3|done].
      * done.
      * change (ks ∉ fl'). by rewrite Hp2.
      * change (ram (mem s3) !! ks = Some (set32 d0 (Z.to_nat stack_top) tra)).
        rewrite Em3, Hfr2, Hr1 by done. apply lookup_insert_eq.
      * rewrite Em0 in Hd0. assert (dk = d0) as -> by congruence. rewrite length_set32; [done|]. rewrite Hlk. vm_compute. lia.
      * intros s4 Hc4 Hk4. eapply (Hfail s4 _ (ks :: fl')); [exact Hc4|done|done|exact Hk4|by rewrite Hp2| |right; cbn [length]; lia].
        intros j p Hj. cbn [v_procs set_v_procs]. destruct (decide (np = j)) as [->|Hne].
        -- rewrite list_lookup_insert_eq by done. eexists. split; [done|]. assert (p = q) as -> by congruence. by rewrite Hst.
        -- rewrite list_lookup_insert_ne by done. eauto.
Qed.
End fork.
