(* ===== verification/ProcTheorems.v ===== *)
(** * Theorems on processes

    [fork] and [kill] on every path, applied to a kernel with one process of
    one page, an open pipe end and the directory of the small file system. *)

From S2P Require Import Prelude Bytes Params Machine BlockCache Bio BioSpec Journal Log LogSpec LogTx Crash CString Fs FsExample Kalloc Vm VmRep VmSpace VmCopy VmTheorems Pipe Kern FileC Proc ProcSpec Fork.
Local Open Scope Z_scope.

(** C16: [fork] returns -1 with every slot in the state it had, the used slots
    unchanged, no reference taken and the same pages free; or it returns the
    next process number, the first unused slot holds a runnable child with the
    trap frame of its parent except that [fork] returns 0 in it, every open
    file and the directory are counted once more, every page of the parent has
    a copy in a frame of the child's own, and nothing outside the free pages
    was written.  It returns -1 only where every slot is used or at most 1027
    pages are free beside those for a copy of the parent's.  The flag [killed] of the child is the one the slot had. *)
Theorem fork_correct {T} `{Journal T} kend kdata fra tra (s : kernel T) cur v pr fl tabs ents ip :
  KERNBASE < kend -> kdata mod PGSIZE = 0 -> KERNLINK < kdata < KERNBASE + PHYSTOP ->
  fork_ready kend s cur v pr fl tabs ents ip ->
  wp (fork kend kdata fra tra) (fun r s' => exists v', calm s' cur v' /\
    if decide (r = -1) then
      (exists fl', kmem_rep kend s' fl' /\ fl' ≡ₚ fl) /\ v_files v' = v_files v /\ v_ic v' = v_ic v /\
      (forall j q, v_procs v !! j = Some q -> exists q', v_procs v' !! j = Some q' /\ p_state q' = p_state q /\
         (p_state q <> UNUSED -> q' = q)) /\
      ((forall j q, v_procs v !! j = Some q -> p_state q <> UNUSED) \/ Z.of_nat (length fl) <= 1027 + npages (p_sz pr))
    else r = v_nextpid v /\ exists np q c ks fl0 fl' d tabs' ents', fl = ks :: fl0 /\ first_unused (v_procs v) np q /\
      v_procs v' = <[np := c]> (v_procs v) /\ forked fra cur pr (v_nextpid v) ks d q c /\
      v_files v' = dup_refs (p_ofile pr) (v_files v) /\
      v_ic v' = alter (fun i => set_i_ref (i_ref i + 1) i) ip (v_ic v) /\
      vrep kend fl0 s' d tabs' ents' fl' /\
      (forall n, 0 <= n < npages (p_sz pr) -> exists w w', ents !! n = Some w /\ ents' !! n = Some w' /\
         PTE_FLAGS w' = PTE_FLAGS w /\ ram (mem s') !! pframe w' = ram (mem s) !! pframe w) /\
      (forall a, a ∉ fl -> ram (mem s') !! a = ram (mem s) !! a)) s.
Proof.
  intros He Hd Hk Hr. pose proof (fr_pid _ _ _ _ _ _ _ _ _ Hr) as Hpid. eapply wp_fork; [done|done|done|done| |].
  - intros s' v' fl' Hc Hf Hi Hm Hp Hs Hno. exists v'. split; [done|]. rewrite decide_True by done. split_and!; [by eauto|done|done| |exact Hno].
    intros j q Hq. destruct (Hs j q Hq) as (q' & ? & ? & _ & ?). eauto.
  - intros s' v' np q c ks fl0 fl' d tabs' ents' ents0 -> Hc Hfu Hp Hfk Hf Hi Hv Hke Hcp Hfr. exists v'. split; [done|].
    rewrite decide_False by lia. split; [done|]. exists np, q, c, ks, fl0, fl', d, tabs', ents'. split_and!; try done.
    intros n Hn. specialize (Hcp n). rewrite decide_True in Hcp by done. destruct Hcp as (w & w' & Hw & Hw' & Hfl & Hm).
    exists w, w'. split_and!; [done|done|done|]. rewrite Hm. apply Hfr.
    apply (pa_pages _ _ _ _ _ _ (fr_parent _ _ _ _ _ _ _ _ _ Hr)). assert (pframe w ∈ uframes ents); [|set_solver].
    apply elem_of_uframes. exists n, w. pose proof (fr_size _ _ _ _ _ _ _ _ _ Hr) as Hsz.
    pose proof (npages_bounds (p_sz pr)). split_and!; [done| |done]. unfold KERNBASE, PGSIZE in *. lia.
Qed.

(** C25: [kill] marks the first slot that carries the process number, whatever
    the state of the slot, and makes the process runnable when it sleeps; no
    other slot changes.  It returns -1, and changes nothing, exactly when no
    slot carries the number.  Slots that are not used carry the number 0. *)
Theorem kill_correct m pid : quiet m -> length (procs m) = NPROC ->
  wp (kill pid) (fun r m' => quiet m' /\
    if decide (r = 0) then exists i p, procs m !! i = Some p /\ p_pid p = pid /\
      (forall j q, (j < i)%nat -> procs m !! j = Some q -> p_pid q <> pid) /\
      (exists p', procs m' = <[i := p']> (procs m) /\ p_killed p' = 1 /\ p_pid p' = pid /\
         p_state p' = (if decide (p_state p = SLEEPING) then RUNNABLE else p_state p))
    else r = -1 /\ procs m' = procs m /\ forall j q, procs m !! j = Some q -> p_pid q <> pid) m.
Proof.
  intros Hq Hl. apply wp_kill; [done|done| |].
  - intros m' i p Hq' Hi Hpid Hb Hp. split; [done|]. rewrite decide_True by done. exists i, p. split_and!; [done|done|done|].
    exists (killed_proc p). rewrite Hp, (alter_at i p _ _ Hi). unfold killed_proc.
    destruct (decide (p_state p = SLEEPING)) as [E|E]; [rewrite E|rewrite bool_decide_eq_false_2 by done]; split_and!; done.
  - intros m' Hq' Hb Hp. split; [done|]. by rewrite decide_False.
Qed.

(** ** A kernel with one process *)

Definition px_proc : proc :=
  Proc 4096 vx_pgdir 0x81003000 RUNNING 7 None tf_zero (Context 0 0 0 0 0) None 0
    (None :: Some 1%nat :: replicate 14 None) (Some 0%nat) [115; 104; 0; 0; 0; 0; 0; 0; 0; 0; 0; 0; 0; 0; 0; 0].
Definition px_free : proc :=
  Proc 0 0 0 UNUSED 0 None tf_zero (Context 0 0 0 0 0) None 0 (replicate NOFILE None) None (replicate 16 0).
Definition px_procs : list proc := px_proc :: replicate 63 px_free.
Definition px_mach : machine := Machine true 0 [Cpu 0 0 false (Some 0%nat)] ∅ ∅ px_procs.
Definition px_fs : fstate kstate :=
  Fstate xsb xic (Lstate (l_log xk) (Bstate px_mach (b_cache (l_sub xk)) (b_disk (l_sub xk)))).
Definition px_files : list file :=
  [File FD_NONE 0 0 0 0 None 0; File FD_PIPE 1 1 0 0x81004000 None 0].
Definition px_view : kview := KView px_procs (Memory vx_ram 1 (vx_page 0)) px_files ∅ 8 xic.
Definition px : kernel kstate := Kernel px_fs (Memory vx_ram 1 (vx_page 0)) px_files ∅ 8 (Some 0%nat) 0 0 0 0.

Lemma px_quiet : quiet px_mach.
Proof. split; [by split|done]. Qed.
Lemma px_calm : calm px 0 px_view.
Proof. split; done. Qed.

Lemma px_kmem : kmem_rep vx_end px vx_free.
Proof. destruct vx_kmem as [_ _ Hl Hn Hf]. split; [apply px_quiet|done|exact Hl|exact Hn|exact Hf]. Qed.
Lemma px_parent : parent vx_end vx_free px vx_pgdir vx_tabs vx_ents.
Proof. destruct vx_parent as [Ht Hp]. split; [exact Ht|]. intros a Ha. destruct (Hp a Ha) as [[Hf Hm] Hn]. split; [by split|done]. Qed.

Lemma px_ready : fork_ready vx_end px 0 px_view px_proc vx_free vx_tabs vx_ents 0.
Proof.
  split; try done.
  - apply px_kmem.
  - apply px_parent.
  - intros j Hj. change (npages (p_sz px_proc)) with 1 in Hj. replace j with 0 by lia. by eexists.
  - intros f Hf. assert (f = 1%nat) as ->; [|by eexists].
    apply elem_of_cons in Hf as [?|Hf]; [done|]. apply elem_of_cons in Hf as [[= ->]|Hf]; [done|].
    by apply elem_of_replicate in Hf as [? _].
  - intros [|j] q Hq Hu; [cbn in Hq; by simplify_eq|]. change (px_procs !! S j) with (replicate 63 px_free !! j) in Hq.
    apply lookup_replicate in Hq as [-> _]. done.
Qed.

Lemma fork_correct_witness : wp (fork vx_end vx_data 0x80103a00 0x80105f00) (fun r s' => exists v', calm s' 0 v' /\
  r = 8 /\ (exists c, p_state c = RUNNABLE /\ tf_eax (p_tf c) = 0 /\ p_parent c = Some 0%nat /\
     Some c = v_procs v' !! 1%nat)) px.
Proof.
  eapply wp_mono; [apply (fork_correct vx_end vx_data 0x80103a00 0x80105f00 px 0 px_view px_proc vx_free vx_tabs vx_ents 0 ltac:(done) ltac:(done) ltac:(done) px_ready)|].
  intros r s' (v' & Hc & Hr). exists v'. split; [done|]. destruct (decide (r = -1)).
  { exfalso. destruct Hr as (_ & _ & _ & _ & [Hu|Hl]); [by apply (Hu 1%nat px_free eq_refl)|].
    change (npages (p_sz px_proc)) with 1 in Hl. change (length vx_free) with 1100%nat in Hl. lia. }
  destruct Hr as [-> (np & q & c & ks & fl0 & fl' & d & tabs' & ents' & _ & (Hnp & Hu & Hb) & Hp & Hfk & _)].
  split; [done|]. exists c. destruct Hfk as (? & ? & ? & ? & ? & ? & Htf & _).
  assert (np = 1%nat) as ->.
  { destruct np as [|[|np]]; [|done|].
    - cbn in Hnp. by simplify_eq.
    - by destruct (Hb 1%nat px_free ltac:(lia) eq_refl). }
  split_and!; [done|by rewrite Htf|done|by rewrite Hp].
Defined.

Lemma kill_correct_witness : wp (kill 7) (fun r m' => quiet m' /\ r = 0) px_mach.
Proof.
  eapply wp_mono; [apply (kill_correct px_mach 7 px_quiet ltac:(done))|].
  intros r m' [Hq Hr]. split; [done|]. destruct (decide (r = 0)); [done|]. destruct Hr as (_ & _ & Hn).
  by destruct (Hn 0%nat px_proc eq_refl).
Defined.
