(* ===== verification/Wait.v ===== *)
(** * The end of a process

    [wait] and the part of [exit] that works on the process table.  Both may
    end in the scheduler: a specification here says what is left when the
    function returns, and what is left when the process has gone to sleep. *)

From S2P Require Import Prelude Bytes Params Machine BlockCache Bio BioSpec Journal Log LogSpec LogTx Crash CString Fs FsExample Kalloc Vm VmRep VmSpace VmCopy VmTheorems Pipe Kern FileC Proc ProcSpec Fork ProcTheorems.
Local Open Scope Z_scope.

(** ** Computations that return or sleep *)

(** From [s] the computation returns with [Q], or the process is switched out
    with [B]; it neither panics nor is undefined. *)
Definition wpb {S A} (m : M S A) (Q : A -> S -> Prop) (B : S -> Prop) (s : S) : Prop :=
  match m s with
  | Ok a s' => Q a s'
  | Blocked s' => B s'
  | _ => False
  end.

Section wpb.
Context {S : Type}.
Implicit Types (s : S) (B : S -> Prop).

Lemma wpb_wp {A} (m : M S A) Q B s : wp m Q s -> wpb m Q B s.
Proof. unfold wp, wpb. by destruct (m s). Qed.
Lemma wpb_bind {A C} (m : M S A) (k : A -> M S C) Q B s : wp m (fun a s' => wpb (k a) Q B s') s -> wpb (m ≫= k) Q B s.
Proof. unfold wp, wpb, mbind, M_bind. by destruct (m s). Qed.
Lemma wpb_sleeps {A C} (m : M S A) (k : A -> M S C) Q B s : wpb m (fun _ _ => False) B s -> wpb (m ≫= k) Q B s.
Proof. unfold wpb, mbind, M_bind. by destruct (m s). Qed.
Lemma wpb_mono {A} (m : M S A) (Q Q' : A -> S -> Prop) (B B' : S -> Prop) s : wpb m Q B s ->
  (forall a s', Q a s' -> Q' a s') -> (forall s', B s' -> B' s') -> wpb m Q' B' s.
Proof. unfold wpb. destruct (m s); naive_solver. Qed.
Lemma wpb_blocked {A} (m : M S A) B s : wpb m (fun _ _ => False) B s -> exists s', m s = Blocked s' /\ B s'.
Proof. unfold wpb. destruct (m s); naive_solver. Qed.
End wpb.

Lemma wpb_onm {T A} `{HasMachine T} (m : M machine A) Q (B : T -> Prop) s :
  wpb m (fun a x => Q a (set_mach x s)) (fun x => B (set_mach x s)) (mach s) -> wpb (onm m) Q B s.
Proof. unfold wpb, onm, zoom. by destruct (m (mach s)). Qed.

(** ** Inside the critical section of the process table *)

Section table.
Implicit Types m : machine.

Lemma holds_msame l m m' : holds l m -> msame m m' -> holds l m'.
Proof.
  intros (Hok & Hd & [Hl Hc] & Hf) Hm. split_and!; [apply Hm|by rewrite (ms_depth _ _ Hm)| |].
  - destruct (ms_lock _ _ Hm l) as [E|[E _]]; [|unfold lock_free in E; lia].
    unfold lock_mine. by rewrite E, (mrel_index _ _ (ms_rel _ _ Hm)).
  - intros l' Hne. eapply msame_free; [done|by apply Hf].
Qed.

(** [sched] switches away from a process that is not running. *)
Lemma wpb_sched Q (B : machine -> Prop) m cur pr : holds LPtable m -> depth m = 1 -> curp m = Some cur ->
  procs m !! cur = Some pr -> p_state pr <> RUNNING ->
  (forall m', holds LPtable m' -> depth m' = 1 -> mrel m m' -> procs m' = procs m -> B m') ->
  wpb sched Q B m.
Proof.
  intros Hh Hd Hc Hp Hst HB. unfold sched. apply wpb_bind. wp_apply (myproc_spec m); [apply Hh|].
  intros r m1 (Hi1 & Hok1 & Hd1 & ->). pose proof (holds_irq _ _ _ Hh Hi1 Hok1 Hd1) as Hh1. rewrite Hc.
  apply wpb_bind, wp_ret, wpb_bind. wp_apply (holding_mine m1 LPtable); [apply Hh1..|].
  intros r m2 (Hi2 & Hok2 & Hd2 & ->). pose proof (holds_irq _ _ _ Hh1 Hi2 Hok2 Hd2) as Hh2. cbn [negb].
  destruct (mach_ok_cur m2 Hok2) as (c & cp & Hi & Hcp & Hdc & _).
  assert (hw_if m2 = false) as Hif by (apply mach_ok_if; [done|lia]).
  apply wpb_bind. eapply wp_get_cpu; [done|done|done|]. rewrite bool_decide_eq_true_2 by lia. cbn [negb].
  destruct Hi1 as (Hr1 & _ & _ & Hp1), Hi2 as (Hr2 & _ & _ & Hp2).
  apply wpb_bind. eapply wp_get_proc_m; [by rewrite Hp2, Hp1|]. rewrite bool_decide_eq_false_2 by done.
  apply wpb_bind. wp_step. rewrite Hif. apply HB; [done|lia|by etrans|by rewrite Hp2].
Qed.

(** The end of [sleep], under the lock of the table. *)
Lemma wpb_sleep_tail Q (B : machine -> Prop) c m cur pr : holds LPtable m -> depth m = 1 -> curp m = Some cur ->
  procs m !! cur = Some pr ->
  (forall m', holds LPtable m' -> depth m' = 1 -> curp m' = Some cur ->
     procs m' = <[cur := set_p_state SLEEPING (set_p_chan (Some c) pr)]> (procs m) -> B m') ->
  wpb (upd_proc cur (set_p_chan (Some c)) ;; upd_proc cur (set_p_state SLEEPING) ;; sched) Q B m.
Proof.
  intros Hh Hd Hc Hp HB. unfold upd_proc. do 2 (apply wpb_bind; wp_step).
  cbn [procs set_procs]. rewrite list_alter_alter_eq, set_procs_set_procs, (alter_at cur pr _ _ Hp).
  eapply (wpb_sched _ _ _ cur (set_p_state SLEEPING (set_p_chan (Some c) pr))); [by apply set_procs_holds|done|done| |done|].
  - cbn [procs set_procs]. apply list_lookup_insert_eq. by eapply lookup_lt_Some.
  - intros m2 Hh2 Hd2 Hr2 Hp2. apply HB; [done|done| |exact Hp2]. by rewrite (mrel_curp _ _ Hr2).
Qed.

(** [sleep] with the lock of the table. *)
Lemma wpb_sleep Q (B : machine -> Prop) c m cur pr : holds LPtable m -> depth m = 1 -> curp m = Some cur ->
  procs m !! cur = Some pr ->
  (forall m', holds LPtable m' -> depth m' = 1 -> curp m' = Some cur ->
     procs m' = <[cur := set_p_state SLEEPING (set_p_chan (Some c) pr)]> (procs m) -> B m') ->
  wpb (sleep c (Some LPtable)) Q B m.
Proof.
  intros Hh Hd Hc Hp HB. unfold sleep. apply wpb_bind. wp_apply (myproc_spec m); [apply Hh|].
  intros r m1 (Hi1 & Hok1 & Hd1 & ->). pose proof (holds_irq _ _ _ Hh Hi1 Hok1 Hd1) as Hh1. rewrite Hc.
  destruct Hi1 as (Hr1 & _ & _ & Hp1). rewrite bool_decide_eq_true_2 by done. cbn [negb]. unfold when. apply wpb_bind. wp_step.
  eapply wpb_sleep_tail; [done|lia|by rewrite (mrel_curp _ _ Hr1)|by rewrite Hp1|]. by rewrite Hp1.
Qed.
End table.

(** The view of [calm] while the caller is in the critical section of the
    process table, and in no other. *)
Record held {T} `{HasMachine T} (s : kernel T) (cur : nat) (v : kview) : Prop := {
  he_holds : holds LPtable (mach s);
  he_depth : depth (mach s) = 1;
  he_cur : curp (mach s) = Some cur;
  he_len : length (procs (mach s)) = NPROC;
  he_procs : procs (mach s) = v_procs v;
  he_mem : k_mem s = v_mem v;
  he_files : k_files s = v_files v;
  he_pipes : k_pipes s = v_pipes v;
  he_nextpid : k_nextpid s = v_nextpid v;
  he_ic : f_icache (k_fs s) = v_ic v
}.

Section held.
Context {T : Type} `{Journal T}.
Implicit Types (s : kernel T) (v : kview).

Lemma wp_enter (Q : unit -> kernel T -> Prop) s cur v : calm s cur v -> depth (mach s) = 0 ->
  (forall s', held s' cur v -> Q tt s') -> wp (onm (acquire LPtable)) Q s.
Proof.
  intros [C1 C2 C3 C4 C5 C6 C7 C8 C9] Hd HQ. unfold onm. wp_step. destruct C1 as [Hok Hf].
  wp_apply (acquire_spec _ LPtable Hok (Hf _)). intros [] m (Hr & Hok' & Hd' & Hm & Hl & Hs & Hp).
  apply HQ. split; rewrite ?mach_set; try done; [|lia|by rewrite (mrel_curp _ _ Hr)|by rewrite Hp|by rewrite Hp].
  split_and!; [done|lia|done|]. intros l' Hne. unfold lock_free. rewrite Hl by done. apply Hf.
Qed.

Lemma wp_leave (Q : unit -> kernel T -> Prop) s cur v : held s cur v ->
  (forall s', calm s' cur v -> depth (mach s') = 0 -> Q tt s') -> wp (onm (release LPtable)) Q s.
Proof.
  intros [(Hok & Hd1 & Hm & Hf) Hd C2 C3 C4 C5 C6 C7 C8 C9] HQ. unfold onm. wp_step.
  wp_apply (release_spec _ LPtable Hok Hm Hd1). intros [] m (Hr & Hok' & Hd' & Hl & Hl' & Hs & Hp).
  apply HQ; [|rewrite mach_set; lia].
  split; rewrite ?mach_set; try done; [|by rewrite (mrel_curp _ _ Hr)|by rewrite Hp|by rewrite Hp].
  split; [done|]. intros l. unfold lock_free. destruct (decide (l = LPtable)) as [->|]; [by rewrite Hl|].
  rewrite Hl' by done. by apply Hf.
Qed.

Lemma wp_get_held (Q : proc -> kernel T -> Prop) s cur v i p : held s cur v -> v_procs v !! i = Some p ->
  Q p s -> wp (onm (get_proc i)) Q s.
Proof.
  intros Hh Hp HQ. unfold onm. wp_step. eapply wp_get_proc_m; [by rewrite (he_procs _ _ _ Hh)|]. by rewrite set_mach_id.
Qed.

Lemma held_procs s cur v m ps : held s cur v -> holds LPtable m -> depth m = 1 -> curp m = Some cur -> procs m = ps ->
  length ps = NPROC -> held (set_mach m s) cur (set_v_procs ps v).
Proof. intros [] ? ? ? ? ?. split; rewrite ?mach_set; try done. by subst. Qed.

Lemma wp_upd_held (Q : unit -> kernel T -> Prop) s cur v i f x ps : held s cur (set_v_procs (<[i := x]> ps) v) ->
  (i < length ps)%nat -> (forall s', held s' cur (set_v_procs (<[i := f x]> ps) v) -> Q tt s') -> wp (upd i f) Q s.
Proof.
  intros Hh Hi HQ. unfold upd, onm, upd_proc. wp_step. wp_step. apply HQ.
  replace (set_v_procs (<[i := f x]> ps) v) with (set_v_procs (<[i := f x]> ps) (set_v_procs (<[i := x]> ps) v)) by done.
  pose proof Hh as [H1 H2 H3 H4 H5 _ _ _ _ _]. cbn [v_procs set_v_procs] in H5. apply held_procs; try done.
  - cbn [procs set_procs]. by rewrite H5, (alter_at i x _ _ (list_lookup_insert_eq _ _ _ Hi)), list_insert_insert_eq.
  - rewrite length_insert. by rewrite H5, length_insert in H4.
Qed.

Lemma held_mstep s s' cur v : held s cur v -> mstep s s' -> held s' cur (set_v_mem (mem s') v).
Proof.
  intros Hh (m & x & -> & Hm). destruct Hh as [C1 C2 C3 C4 C5 C6 C7 C8 C9]. split; rewrite ?mach_set; try done.
  - by eapply holds_msame.
  - by rewrite (ms_depth _ _ Hm).
  - rewrite (mrel_curp _ _ (ms_rel _ _ Hm)). done.
  - by rewrite (ms_procs _ _ Hm).
  - by rewrite (ms_procs _ _ Hm).
Qed.

Lemma held_kmem kend s s' cur v fl : kmem_rep kend s fl -> held s' cur v -> v_mem v = mem s -> kmem_rep kend s' fl.
Proof.
  intros [K1 K2 K3 K4 K5] Hh Hm. assert (mem s' = mem s) as Em by (rewrite <- Hm; apply (he_mem _ _ _ Hh)).
  destruct (he_holds _ _ _ Hh) as (Hok & _ & _ & Hf). split; rewrite ?Em; try done. by apply Hf.
Qed.
End held.

(** ** wait *)

(** A child that has exited. *)
Definition zombie_child (ps : list proc) (cur k : nat) (z : proc) : Prop :=
  ps !! k = Some z /\ p_parent z = Some cur /\ p_state z = ZOMBIE.

(** Its slot when the parent has seen it. *)
Definition reaped (z : proc) : proc :=
  set_p_state UNUSED (set_p_killed 0 (set_p_name (<[0%nat := 0]> (p_name z))
    (set_p_parent None (set_p_pid 0 (set_p_kstack 0 z))))).

Section wait.
Context {T : Type} `{Journal T}.
Implicit Types (s : kernel T) (v : kview).
Variable kend : Z.
Hypothesis kend_ok : KERNBASE < kend.

(** The kernel stack and the address space of a process are its own: with the
    free pages they are [p_kstack z] and [all]. *)
Definition reapable s fl z all : Prop :=
  is_page kend s (p_kstack z) /\ p_kstack z ∉ all /\ exists tabs ents, vrep kend all s (p_pgdir z) tabs ents fl.

Lemma reapable_ext s s' cur v fl z all : reapable s fl z all -> kmem_rep kend s' fl -> ram (mem s') = ram (mem s) ->
  held s' cur v -> reapable s' fl z all.
Proof.
  intros (Hp & Hn & tabs & ents & Hv) Hk Hr Hh. split_and!; [eapply is_page_ext; [done|by rewrite Hr]|done|].
  exists tabs, ents. by eapply (vrep_ram kend).
Qed.

(** What [wait] does with a child that has exited. *)
Lemma wp_reap (Q : option Z * bool -> kernel T -> Prop) s cur v k z fl all : held s cur v -> v_procs v !! k = Some z ->
  reapable s fl z all ->
  (forall s' fl', calm s' cur (set_v_procs (<[k := reaped z]> (v_procs v)) (set_v_mem (mem s') v)) -> depth (mach s') = 0 ->
     kmem_rep kend s' fl' -> fl' ≡ₚ p_kstack z :: all ->
     (forall a, a ∉ p_kstack z :: all -> ram (mem s') !! a = ram (mem s) !! a) -> Q (Some (p_pid z), true) s') ->
  wp (kfree kend (p_kstack z) ;;
      upd k (set_p_kstack 0) ;;
      freevm kend (p_pgdir z) ;;
      upd k (set_p_pid 0) ;;
      upd k (set_p_parent None) ;;
      upd k (fun p => set_p_name (<[0%nat := 0]> (p_name p)) p) ;;
      upd k (set_p_killed 0) ;;
      upd k (set_p_state UNUSED) ;;
      onm (release LPtable) ;;
      mret (Some (p_pid z), true)) Q s.
Proof.
  intros Hh Hz ([Hf (d & Hd & Hl)] & Hn & tabs & ents & Hv) HQ. wp_step.
  pose proof (vr_kmem _ _ _ _ _ _ _ Hv) as Hk. assert (k < length (v_procs v))%nat as Hlt by (by eapply lookup_lt_Some).
  eapply (wp_kfree kend kend_ok _ s fl (p_kstack z) d); [done|done| |done|done|].
  { rewrite (vr_pool _ _ _ _ _ _ _ Hv) in Hn. set_solver. }
  intros s1 Hs1 Hr1 Hk1. pose proof (held_mstep _ _ _ _ Hh Hs1) as Hh1.
  assert (vrep kend (p_kstack z :: all) s1 (p_pgdir z) tabs ents (p_kstack z :: fl)) as Hv1.
  { eapply (vrep_give kend kend_ok); [exact Hv|apply NoDup_cons; split; [done|apply Hv]| |done|done].
    eapply (kmem_pages kend); [exact Hk1|set_solver]. }
  replace (set_v_mem (mem s1) v) with (set_v_procs (<[k := z]> (v_procs v)) (set_v_mem (mem s1) v)) in Hh1
    by (rewrite list_insert_id by done; by destruct v).
  wp_step. eapply wp_upd_held; [exact Hh1|done|]. intros s2 Hh2. assert (mem s2 = mem s1) as E2 by apply (he_mem _ _ _ Hh2).
  assert (kmem_rep kend s2 (p_kstack z :: fl)) as Hk2 by (eapply held_kmem; [exact Hk1|exact Hh2|done]).
  wp_step. eapply (wp_freevm kend kend_ok); [eapply (vrep_ram kend); [exact Hv1|by rewrite E2|exact Hk2|done]|].
  intros s3 fl' Hs3 Hk3 Hp3 Hr3. pose proof (held_mstep _ _ _ _ Hh2 Hs3) as Hh3.
  set (v3 := set_v_mem (mem s3) v). change (held s3 cur (set_v_procs (<[k := set_p_kstack 0 z]> (v_procs v)) v3)) in Hh3.
  do 5 (wp_step; eapply wp_upd_held; [eassumption|done|]; let s := fresh "s" in let E := fresh "Hu" in intros s E).
  wp_step. eapply wp_leave; [eassumption|]. intros s9 Hc9 Hd9. wp_step.
  assert (mem s9 = mem s3) as E9 by apply (ca_mem _ _ _ Hc9).
  apply (HQ s9 fl'); [by rewrite E9|done|eapply calm_kmem; [exact Hk3|exact Hc9|done]|done|].
  intros a Ha. rewrite E9, Hr3, E2, Hr1; [done|set_solver|done].
Qed.

(** The scan stops at the first child that has exited. *)
Lemma wp_wait_scan n : forall (Q : option Z * bool -> kernel T -> Prop) s cur v k h fl, (k + n = NPROC)%nat -> held s cur v ->
  kmem_rep kend s fl ->
  (forall i z, zombie_child (v_procs v) cur i z -> exists all, reapable s fl z all) ->
  (forall i z all s' fl', (k <= i)%nat -> zombie_child (v_procs v) cur i z -> reapable s fl z all ->
     (forall j q, (k <= j < i)%nat -> ~ zombie_child (v_procs v) cur j q) ->
     calm s' cur (set_v_procs (<[i := reaped z]> (v_procs v)) (set_v_mem (mem s') v)) -> depth (mach s') = 0 ->
     kmem_rep kend s' fl' -> fl' ≡ₚ p_kstack z :: all ->
     (forall a, a ∉ p_kstack z :: all -> ram (mem s') !! a = ram (mem s) !! a) -> Q (Some (p_pid z), true) s') ->
  (forall h', (forall j q, (k <= j)%nat -> ~ zombie_child (v_procs v) cur j q) ->
     (h' = true <-> h = true \/ exists j q, (k <= j)%nat /\ v_procs v !! j = Some q /\ p_parent q = Some cur) ->
     Q (None, h') s) ->
  wp (wait_scan kend n k cur h) Q s.
Proof.
  induction n as [|n IH]; intros Q s cur v k h fl Hn Hh Hk Hre Hz Hno; cbn [wait_scan].
  - assert (forall j q, (k <= j)%nat -> v_procs v !! j = Some q -> False) as Hend.
    { intros j q Hj Hq%lookup_lt_Some. rewrite <- (he_procs _ _ _ Hh), (he_len _ _ _ Hh) in Hq. lia. }
    wp_step. apply Hno.
    + intros j q Hj [Hq _]. by eapply Hend.
    + split; [by left|]. intros [?|(j & q & Hj & Hq & _)]; [done|by destruct (Hend j q)].
  - assert (is_Some (v_procs v !! k)) as [p Hp].
    { apply lookup_lt_is_Some_2. rewrite <- (he_procs _ _ _ Hh), (he_len _ _ _ Hh). lia. }
    wp_step. eapply wp_get_held; [done|done|].
    assert (forall h1, ~ zombie_child (v_procs v) cur k p ->
      (h1 = true <-> h = true \/ p_parent p = Some cur) -> wp (wait_scan kend n (S k) cur h1) Q s) as Hnext.
    { intros h1 Hnz Hh1. eapply IH; [lia|done|done|done| |].
      - intros i z all s' fl' Hi Hzi Hri Hb. eapply Hz; [lia|done|done|]. intros j q Hj [Hq Hr].
        destruct (decide (j = k)) as [->|]; [apply Hnz; by assert (q = p) as <- by congruence|]. apply (Hb j q); [lia|done].
      - intros h' Hb Hh'. apply Hno.
        + intros j q Hj [Hq Hr]. destruct (decide (j = k)) as [->|]; [apply Hnz; by assert (q = p) as <- by congruence|].
          apply (Hb j q); [lia|done].
        + rewrite Hh', Hh1. split.
          * intros [[?|?]|(j & q & ? & ? & ?)]; [by left|right; by exists k, p|right; exists j, q; split; [lia|done]].
          * intros [?|(j & q & Hj & Hq & Hpq)]; [by left; left|]. destruct (decide (j = k)) as [->|].
            -- left; right. congruence.
            -- right. exists j, q. split; [lia|done]. }
    destruct (decide (p_parent p = Some cur)) as [Epar|Epar].
    + rewrite (bool_decide_eq_true_2 (p_parent p = Some cur)) by done. cbn [negb]. destruct (decide (p_state p = ZOMBIE)) as [Est|Est].
      * rewrite (bool_decide_eq_true_2 (p_state p = ZOMBIE)) by done. destruct (Hre k p) as [all Hall]; [done|]. cbv zeta.
        eapply wp_reap; [done|done|done|]. intros s' fl'. eapply Hz; [done|done|done|]. intros j q Hj. lia.
      * rewrite (bool_decide_eq_false_2 (p_state p = ZOMBIE)) by done. apply Hnext; [by intros (_ & _ & ?)|]. naive_solver.
    + rewrite (bool_decide_eq_false_2 (p_parent p = Some cur)) by done. cbn [negb]. apply Hnext; [by intros (_ & ? & _)|]. naive_solver.
Qed.

(** What [wait] relies on. *)
Record wait_ready s cur v pr fl : Prop := {
  wr_calm : calm s cur v;
  wr_depth : depth (mach s) = 0;
  wr_proc : v_procs v !! cur = Some pr;
  wr_kmem : kmem_rep kend s fl;
  wr_zombies : forall k z, zombie_child (v_procs v) cur k z -> exists all, reapable s fl z all
}.

Lemma wpb_wait (Q : Z -> kernel T -> Prop) (B : kernel T -> Prop) s cur v pr fl : wait_ready s cur v pr fl ->
  (forall i z all s' fl', zombie_child (v_procs v) cur i z -> reapable s fl z all ->
     (forall j q, (j < i)%nat -> ~ zombie_child (v_procs v) cur j q) ->
     calm s' cur (set_v_procs (<[i := reaped z]> (v_procs v)) (set_v_mem (mem s') v)) -> depth (mach s') = 0 ->
     kmem_rep kend s' fl' -> fl' ≡ₚ p_kstack z :: all ->
     (forall a, a ∉ p_kstack z :: all -> ram (mem s') !! a = ram (mem s) !! a) -> Q (p_pid z) s') ->
  (forall s', (forall j q, ~ zombie_child (v_procs v) cur j q) ->
     (forall j q, v_procs v !! j = Some q -> p_parent q <> Some cur) \/ p_killed pr <> 0 ->
     calm s' cur v -> depth (mach s') = 0 -> Q (-1) s') ->
  (forall s' j q, (forall j q, ~ zombie_child (v_procs v) cur j q) ->
     v_procs v !! j = Some q -> p_parent q = Some cur -> p_killed pr = 0 ->
     held s' cur (set_v_procs (<[cur := set_p_state SLEEPING (set_p_chan (Some (ChProc cur)) pr)]> (v_procs v)) v) -> B s') ->
  wpb (wait kend) Q B s.
Proof.
  intros [Hc Hd Hpr Hk Hre] Hreap Hnone Hsleep. unfold wait. apply wpb_bind. eapply wp_curproc; [done|done|]. intros s1 Hc1 Hd1.
  apply wpb_bind. eapply wp_enter; [exact Hc1|congruence|]. intros s2 Hh2.
  assert (mem s2 = mem s) as E2 by (etrans; [apply (he_mem _ _ _ Hh2)|symmetry; apply (ca_mem _ _ _ Hc)]).
  assert (kmem_rep kend s2 fl) as Hk2 by (eapply held_kmem; [exact Hk|exact Hh2|symmetry; apply (ca_mem _ _ _ Hc)]).
  apply wpb_bind. eapply wp_wait_scan; [done|exact Hh2|exact Hk2| | |].
  - intros i z [all Hr]%Hre. exists all. eapply reapable_ext; [exact Hr|done|by rewrite E2|exact Hh2].
  - intros i z all s3 fl' _ Hz Hr Hb Hc3 Hd3 Hk3 Hp3 Hr3. rewrite E2 in Hr3. eapply Hreap; [exact Hz| |..]; try done.
    + destruct Hr as (H1' & H2' & tabs & ents & Hv). split_and!; [eapply is_page_ext; [done|by rewrite E2]|done|].
      exists tabs, ents. eapply (vrep_ram kend); [exact Hv|by rewrite E2|exact Hk|done].
    + intros j q Hj. apply Hb. lia.
  - intros h Hno Hh. assert (forall j q, ~ zombie_child (v_procs v) cur j q) as Hno' by (intros j q; apply Hno; lia). clear Hno.
    apply wpb_bind. eapply wp_get_held; [exact Hh2|exact Hpr|].
    destruct (negb h || c_bool (p_killed pr)) eqn:Eb.
    + apply wpb_wp. wp_step. eapply wp_leave; [exact Hh2|]. intros s3 Hc3 Hd3. wp_step. apply Hnone; [done| |done|done].
      apply orb_true_iff in Eb as [Eb|Eb].
      * left. intros j q Hj Hp. apply negb_true_iff in Eb. rewrite Eb in Hh. destruct Hh as [_ Hh]. discriminate Hh.
        right. exists j, q. split; [lia|done].
      * right. intros E. by rewrite E, c_bool_0 in Eb.
    + apply orb_false_iff in Eb as [Eb1%negb_false_iff Eb2]. rewrite Eb1 in Hh. apply proj1 in Hh.
      destruct (Hh eq_refl) as [?|(j & q & _ & Hj & Hp)]; [done|]. apply wpb_sleeps, wpb_onm.
      pose proof Hh2 as [H1' H2' H3' H4' H5' _ _ _ _ _]. eapply wpb_sleep; [done|done|done|by rewrite H5'|].
      intros m Hm Hdm Hcm Hpm. eapply Hsleep; [done|done|done| |].
      * by apply c_bool_false in Eb2.
      * rewrite H5' in Hpm. eapply held_procs; [exact Hh2|done|done|done|done|]. rewrite length_insert. by rewrite <- H5'.
Qed.
End wait.

(** ** exit *)

(** A child of [cur] becomes a child of [ini]. *)
Definition orphan (cur ini : nat) (p : proc) : proc :=
  if decide (p_parent p = Some cur) then set_p_parent (Some ini) p else p.
Definition is_zombie_of (cur : nat) (p : proc) : bool :=
  bool_decide (p_parent p = Some cur) && bool_decide (p_state p = ZOMBIE).
Definition wake_if (b : bool) (c : chan) (p : proc) : proc := if b then wakeup1_proc c p else p.
Definition wake_parent (o : option nat) (p : proc) : proc :=
  match o with Some par => wakeup1_proc (ChProc par) p | None => p end.

(** The table when the children have been handed on. *)
Definition handed_on (cur ini : nat) (ps : list proc) : list proc :=
  wake_if (existsb (is_zombie_of cur) ps) (ChProc ini) <$> (orphan cur ini <$> ps).
(** The table when process [cur], a child of [o], has exited. *)
Definition exited (cur ini : nat) (o : option nat) (ps : list proc) : list proc :=
  alter (set_p_state ZOMBIE) cur (handed_on cur ini (wake_parent o <$> ps)).

Section exit.
Implicit Types (m : machine) (ps : list proc).

Lemma wakeup1_state c p : p_state (wakeup1_proc c p) = p_state p \/ p_state p = SLEEPING /\ p_state (wakeup1_proc c p) = RUNNABLE.
Proof.
  unfold wakeup1_proc. destruct (decide (p_state p = SLEEPING)) as [E|E].
  - destruct (_ && _); [by right|by left].
  - rewrite (bool_decide_eq_false_2 (p_state p = SLEEPING)) by done. by left.
Qed.
Lemma wakeup1_parent c p : p_parent (wakeup1_proc c p) = p_parent p.
Proof. unfold wakeup1_proc. by destruct (_ && _). Qed.
Lemma wakeup1_zombie_of c cur p : is_zombie_of cur (wakeup1_proc c p) = is_zombie_of cur p.
Proof.
  unfold is_zombie_of. rewrite wakeup1_parent. f_equal. apply bool_decide_ext.
  destruct (wakeup1_state c p) as [->|[E ->]]; [done|]. by rewrite E.
Qed.
Lemma wakeup1_orphan c cur ini p : orphan cur ini (wakeup1_proc c p) = wakeup1_proc c (orphan cur ini p).
Proof.
  unfold orphan. rewrite wakeup1_parent. destruct (decide _); [|done]. unfold wakeup1_proc.
  change (p_state (set_p_parent _ p)) with (p_state p). change (p_chan (set_p_parent _ p)) with (p_chan p).
  by destruct (_ && _).
Qed.
Lemma wakeup1_idem c p : wakeup1_proc c (wakeup1_proc c p) = wakeup1_proc c p.
Proof.
  unfold wakeup1_proc at 2 3. destruct (bool_decide (p_state p = SLEEPING) && bool_decide (p_chan p = Some c)) eqn:E; [done|].
  unfold wakeup1_proc. by rewrite E.
Qed.

(** The table after the loop has passed [i] slots. *)
Definition handing_on cur ini i ps : list proc :=
  imap (fun k p => wake_if (existsb (is_zombie_of cur) (take i ps)) (ChProc ini)
                     (if decide (k < i)%nat then orphan cur ini p else p)) ps.

Lemma handing_on_all cur ini ps : handing_on cur ini (length ps) ps = handed_on cur ini ps.
Proof.
  apply list_eq. intros k. unfold handing_on, handed_on. rewrite list_lookup_imap, !list_lookup_fmap, firstn_all.
  destruct (ps !! k) as [p|] eqn:Ek; [|done]. cbn. by rewrite decide_True by (by eapply lookup_lt_Some).
Qed.
Lemma handing_on_0 cur ini ps : handing_on cur ini 0 ps = ps.
Proof. apply list_eq. intros k. unfold handing_on. rewrite list_lookup_imap. destruct (ps !! k) as [p|]; [|done]. cbn. by rewrite decide_False by lia. Qed.

(** One more slot. *)
Lemma handing_on_S cur ini i p ps : ps !! i = Some p -> handing_on cur ini (S i) ps =
  (if is_zombie_of cur p then fmap (M := list) (wakeup1_proc (ChProc ini)) else id)
    (alter (orphan cur ini) i (handing_on cur ini i ps)).
Proof.
  intros Hp. apply list_eq. intros k. unfold handing_on.
  assert (existsb (is_zombie_of cur) (take (S i) ps) = existsb (is_zombie_of cur) (take i ps) || is_zombie_of cur p) as ->.
  { rewrite (take_S_r _ _ _ Hp), existsb_app. cbn. by rewrite orb_false_r. }
  set (b := existsb _ (take i ps)). set (F := fun (k : nat) (p : proc) => _).
  assert (alter (orphan cur ini) i (imap (fun k p => wake_if b (ChProc ini) (if decide (k < i)%nat then orphan cur ini p else p)) ps) !! k
    = (fun q => wake_if b (ChProc ini) (if decide (k < S i)%nat then orphan cur ini q else q)) <$> ps !! k) as Ek.
  { destruct (decide (i = k)) as [->|Hne].
    - rewrite list_lookup_alter_eq, list_lookup_imap, Hp. cbn. rewrite decide_False, decide_True by lia.
      destruct b; [|done]. cbn. by rewrite wakeup1_orphan.
    - rewrite list_lookup_alter_ne, list_lookup_imap by done. destruct (ps !! k) as [q|]; [|done]. cbn. f_equal.
      destruct (decide (k < i)%nat); [by rewrite decide_True by lia|by rewrite decide_False by lia]. }
  rewrite list_lookup_imap. destruct (is_zombie_of cur p).
  - rewrite list_lookup_fmap, Ek. destruct (ps !! k) as [q|]; [|done]. unfold F. cbn. rewrite orb_true_r.
    destruct b; [|done]. cbn. by rewrite wakeup1_idem.
  - unfold id. rewrite Ek. destruct (ps !! k) as [q|]; [|done]. unfold F. by rewrite orb_false_r.
Qed.

Lemma wp_reparent (Q : unit -> machine -> Prop) m cur ini i p : procs m !! i = Some p ->
  Q tt (set_procs ((if is_zombie_of cur p then fmap (M := list) (wakeup1_proc (ChProc ini)) else id)
    (alter (orphan cur ini) i (procs m))) m) -> wp (reparent cur (Some ini) (Z.of_nat i)) Q m.
Proof.
  intros Hp HQ. unfold reparent. rewrite Nat2Z.id. wp_step. eapply wp_get_proc_m; [done|]. unfold is_zombie_of in HQ.
  rewrite (alter_at i p _ _ Hp) in HQ. unfold orphan in HQ.
  destruct (decide (p_parent p = Some cur)) as [Ep|Ep].
  - rewrite (bool_decide_eq_true_2 (p_parent p = Some cur)) in * by done. unfold when at 1, upd_proc. wp_steps.
    rewrite (alter_at i p _ _ Hp). destruct (decide (p_state p = ZOMBIE)) as [Ez|Ez].
    + rewrite (bool_decide_eq_true_2 (p_state p = ZOMBIE)) in * by done. unfold when, wakeup1. wp_steps. exact HQ.
    + rewrite (bool_decide_eq_false_2 (p_state p = ZOMBIE)) in * by done. unfold when. wp_steps. exact HQ.
  - rewrite (bool_decide_eq_false_2 (p_parent p = Some cur)) in * by done. unfold when at 1. wp_step. cbn in HQ.
    unfold id in HQ. by rewrite list_insert_id, set_procs_id in HQ.
Qed.

Lemma wp_reparent_all (Q : unit -> machine -> Prop) m cur ini : length (procs m) = NPROC ->
  Q tt (set_procs (handed_on cur ini (procs m)) m) -> wp (for_loop NPROC 0 (reparent cur (Some ini))) Q m.
Proof.
  intros Hl HQ. eapply wp_mono.
  - apply (wp_for_loop (fun i m' => m' = set_procs (handing_on cur ini (Z.to_nat i) (procs m)) m)).
    + by rewrite handing_on_0, set_procs_id.
    + intros j m' Hj ->. assert (is_Some (procs m !! Z.to_nat j)) as [p Hp] by (apply lookup_lt_is_Some_2; lia).
      rewrite <- (Z2Nat.id j) at 1 by lia.
      eapply (wp_reparent _ _ _ _ _ (wake_if (existsb (is_zombie_of cur) (take (Z.to_nat j) (procs m))) (ChProc ini) p)).
      { cbn [procs set_procs]. unfold handing_on. rewrite list_lookup_imap, Hp. cbn. by rewrite decide_False by lia. }
      cbn [procs set_procs]. rewrite set_procs_set_procs. replace (Z.to_nat (j + 1)) with (S (Z.to_nat j)) by lia.
      rewrite (handing_on_S _ _ _ _ _ Hp). f_equal. unfold wake_if. destruct (existsb _ _); by rewrite ?wakeup1_zombie_of.
  - intros [] m' ->. replace (Z.to_nat (0 + Z.of_nat NPROC)) with (length (procs m)) by lia. by rewrite handing_on_all.
Qed.
End exit.

Section exit_k.
Context {T : Type} `{Journal T}.
Implicit Types (s : kernel T) (v : kview).

Lemma length_handed_on cur ini ps : length (handed_on cur ini ps) = length ps.
Proof. unfold handed_on. by rewrite !length_fmap. Qed.

(** [exit] never returns. *)
Lemma wpb_exit_table (Q : unit -> kernel T -> Prop) (B : kernel T -> Prop) s cur v pr ini : calm s cur v ->
  depth (mach s) = 0 -> v_procs v !! cur = Some pr ->
  (forall s', held s' cur (set_v_procs (exited cur ini (p_parent pr) (v_procs v)) v) -> B s') ->
  wpb (exit_table cur (Some ini)) Q B s.
Proof.
  intros Hc Hd Hpr HB. unfold exit_table. apply wpb_bind. eapply wp_enter; [done|done|]. intros s1 Hh1.
  apply wpb_bind. eapply wp_get_held; [done|done|]. pose proof Hh1 as [H1' H2' H3' H4' H5' _ _ _ _ _].
  set (ps1 := wake_parent (p_parent pr) <$> v_procs v).
  assert (length ps1 = NPROC) as Hl1 by (unfold ps1; by rewrite length_fmap, <- H5').
  apply wpb_bind, wp_machine.
  assert (forall (K : unit -> machine -> Prop), K tt (set_procs ps1 (mach s1)) ->
    wp (match p_parent pr with Some par => wakeup1 (ChProc par) | None => mret tt end) K (mach s1)) as Hwk.
  { intros K HK. unfold ps1, wake_parent in HK. destruct (p_parent pr).
    - unfold wakeup1. wp_step. by rewrite H5'.
    - wp_step. by rewrite list_fmap_id, <- H5', set_procs_id in HK. }
  apply Hwk. apply wpb_bind, wp_machine. rewrite mach_set. apply wp_reparent_all; [done|].
  cbn [procs set_procs]. rewrite set_procs_set_procs, set_mach_set. apply wpb_bind. unfold upd, upd_proc. apply wp_machine. wp_step.
  rewrite !mach_set. cbn [procs set_procs]. rewrite set_procs_set_procs, set_mach_set. apply wpb_sleeps, wpb_onm. rewrite mach_set.
  fold (exited cur ini (p_parent pr) (v_procs v)).
  assert (length (exited cur ini (p_parent pr) (v_procs v)) = NPROC) as Hle by (unfold exited; by rewrite length_alter, length_handed_on).
  assert (is_Some (handed_on cur ini ps1 !! cur)) as [q Hq].
  { apply lookup_lt_is_Some_2. rewrite length_handed_on, Hl1, <- H4', H5'. by eapply lookup_lt_Some. }
  eapply (wpb_sched _ _ _ cur (set_p_state ZOMBIE q)).
  - by apply set_procs_holds.
  - done.
  - done.
  - cbn [procs set_procs]. unfold exited. by rewrite list_lookup_alter_eq, Hq.
  - done.
  - intros m Hm Hdm Hrm Hpm. apply HB. rewrite set_mach_set. eapply held_procs; [exact Hh1|done|done| |exact Hpm|exact Hle].
    by rewrite (mrel_curp _ _ Hrm).
Qed.
End exit_k.

(** C18: [wait] reaps the first child in the table that has exited: it returns
    the number of that process, its slot is free again with no number, parent
    or stack, its kernel stack and every page of its address space are back on
    the free list, and no other page is written.  It returns -1, with nothing
    changed, when the caller has no children, or has been killed and has none
    that has exited.  Otherwise the caller has a child, none of them has exited,
    and it is put to sleep on its own slot with the table locked, so that no
    child can exit between the scan and the sleep. *)
Theorem wait_correct {T} `{Journal T} kend (s : kernel T) cur v pr fl : KERNBASE < kend -> wait_ready kend s cur v pr fl ->
  wpb (wait kend)
    (fun r s' => depth (mach s') = 0 /\
      ((exists k z all fl', zombie_child (v_procs v) cur k z /\ (forall j q, (j < k)%nat -> ~ zombie_child (v_procs v) cur j q) /\
          reapable kend s fl z all /\ r = p_pid z /\
          calm s' cur (set_v_procs (<[k := reaped z]> (v_procs v)) (set_v_mem (mem s') v)) /\
          kmem_rep kend s' fl' /\ fl' ≡ₚ p_kstack z :: all /\
          (forall a, a ∉ p_kstack z :: all -> ram (mem s') !! a = ram (mem s) !! a)) \/
       (r = -1 /\ calm s' cur v /\ (forall j q, ~ zombie_child (v_procs v) cur j q) /\
          ((forall j q, v_procs v !! j = Some q -> p_parent q <> Some cur) \/ p_killed pr <> 0))))
    (fun s' => (forall j q, ~ zombie_child (v_procs v) cur j q) /\ p_killed pr = 0 /\
      (exists j q, v_procs v !! j = Some q /\ p_parent q = Some cur) /\
      held s' cur (set_v_procs (<[cur := set_p_state SLEEPING (set_p_chan (Some (ChProc cur)) pr)]> (v_procs v)) v)) s.
Proof.
  intros He Hr. eapply wpb_wait; [done|exact Hr|..].
  - intros k z all s' fl' Hz Hre Hb Hc Hd Hk Hp Hm. split; [done|]. left. exists k, z, all, fl'. split_and!; done.
  - intros s' Hno Hor Hc Hd. split; [done|]. right. split_and!; done.
  - intros s' j q Hno Hj Hp Hk Hh. split_and!; [done|done|by exists j, q|done].
Qed.

(** *** A child that has exited *)

Definition wx_ks : Z := 0x81003000.
Definition wx_zombie : proc := set_p_state ZOMBIE (set_p_pid 8 (set_p_parent (Some 0%nat) (set_p_kstack wx_ks px_proc))).
Definition wx_procs : list proc := px_proc :: wx_zombie :: replicate 62 px_free.
Definition wx_mem : memory := Memory (<[wx_ks := zero_page]> vx_ram) 1 (vx_page 0).
Definition wx_mach : machine := Machine true 0 [Cpu 0 0 false (Some 0%nat)] ∅ ∅ wx_procs.
Definition wx : kernel kstate := set_mem wx_mem (set_mach wx_mach px).
Definition wx_view : kview := KView wx_procs wx_mem px_files ∅ 8 xic.

Lemma wx_ks_new a : a ∈ vx_all -> a <> wx_ks.
Proof.
  intros Ha ->. unfold vx_all in Ha. rewrite vx_vals, vx_uframes in Ha. apply elem_of_cons in Ha as [Ha|Ha]; [done|].
  apply elem_of_cons in Ha as [Ha|Ha]; [done|]. apply elem_of_cons in Ha as [Ha|Ha]; [done|].
  apply elem_of_vx_free in Ha as (k & Hk & E). unfold wx_ks, vx_page, PGSIZE in E. lia.
Qed.
Lemma wx_ram a : a ∈ vx_all -> ram (mem wx) !! a = vx_ram !! a.
Proof. intros Ha%wx_ks_new. change (ram (mem wx)) with (<[wx_ks := zero_page]> vx_ram). by apply lookup_insert_ne. Qed.
Lemma wx_free a : a ∈ vx_free -> a ∈ vx_all.
Proof. intros Ha. unfold vx_all. set_solver. Qed.

Lemma wx_kmem : kmem_rep vx_end wx vx_free.
Proof.
  destruct vx_kmem as [_ _ Hl Hn Hf]. split; [by split|done| |exact Hn|exact Hf].
  eapply flist_ext; [exact Hl|]. intros a Ha%wx_free. by apply wx_ram.
Qed.
Lemma wx_vrep : vrep vx_end vx_all wx vx_pgdir vx_tabs vx_ents vx_free.
Proof.
  destruct vx_vrep as [_ V2 V3 V4 V5]. split; [apply wx_kmem|exact V2|exact V3| |].
  - intros a Ha. destruct (V4 a Ha) as [Hf Hd]. split; [exact Hf|]. by rewrite (wx_ram a Ha).
  - eapply ptable_ext; [exact V5|apply wx_ram; unfold vx_all; set_solver|]. intros t Ht. apply wx_ram. unfold vx_all. set_solver.
Qed.

Lemma wx_zombies k z : zombie_child wx_procs 0 k z -> k = 1%nat /\ z = wx_zombie.
Proof.
  intros (Hz & Hp & _). destruct k as [|[|k]]; [cbn in Hz; by simplify_eq|cbn in Hz; by simplify_eq|].
  change (wx_procs !! S (S k)) with (replicate 62 px_free !! k) in Hz. apply lookup_replicate in Hz as [-> _]. done.
Qed.

Lemma wx_ready : wait_ready vx_end wx 0 wx_view px_proc vx_free.
Proof.
  split; [by split|done|done|apply wx_kmem|]. intros k z [-> ->]%wx_zombies. exists vx_all. split_and!.
  - split; [|exists zero_page; split; [|by vm_compute]].
    + split; [done|]. by vm_compute.
    + change (ram (mem wx)) with (<[wx_ks := zero_page]> vx_ram). apply lookup_insert_eq.
  - intros Ha. by apply (wx_ks_new wx_ks).
  - exists vx_tabs, vx_ents. apply wx_vrep.
Qed.

Lemma wait_correct_witness : wpb (wait vx_end) (fun r s' => r = 8 /\ exists v', calm s' 0 v' /\
  v_procs v' !! 1%nat = Some (reaped wx_zombie)) (fun _ => False) wx.
Proof.
  eapply wpb_mono; [apply (wait_correct vx_end wx 0 wx_view px_proc vx_free ltac:(done) wx_ready)|..].
  - intros r s' (_ & [(k & z & all & fl' & [-> ->]%wx_zombies & _ & _ & -> & Hc & _)|(_ & _ & Hno & _)]).
    + split; [done|]. eexists. split; [exact Hc|]. reflexivity.
    + by destruct (Hno 1%nat wx_zombie).
  - intros s' (Hno & _). by destruct (Hno 1%nat wx_zombie).
Defined.
