(* ===== verification/Sched.v ===== *)
(** * Giving up the processor, and getting it back

    [sleep] on any lock, [yield], and the inner loop of [scheduler], which
    runs processes in the order of the table: in a pass every process that is
    runnable gets the processor, once. *)

From Stdlib Require Import Sorted.
From S2P Require Import Prelude Bytes Params Machine BlockCache Bio BioSpec Journal Log LogSpec LogTx Crash CString Fs FsExample Kalloc Vm VmRep VmSpace VmCopy VmTheorems Pipe Kern FileC Proc ProcSpec Fork ProcTheorems Wait.
Local Open Scope Z_scope.

Section leave.
Implicit Types m : machine.

(** [sleep] with a lock other than the one of the table: the lock is given up
    when the table is locked. *)
Lemma wpb_sleep_lock Q (B : machine -> Prop) c l m cur pr : holds l m -> l <> LPtable -> depth m = 1 -> curp m = Some cur ->
  procs m !! cur = Some pr ->
  (forall m', holds LPtable m' -> depth m' = 1 -> curp m' = Some cur ->
     procs m' = <[cur := set_p_state SLEEPING (set_p_chan (Some c) pr)]> (procs m) -> B m') ->
  wpb (sleep c (Some l)) Q B m.
Proof.
  intros Hh Hl Hd Hc Hp HB. unfold sleep. apply wpb_bind. wp_apply (myproc_spec m); [apply Hh|].
  intros r m1 (Hi1 & Hok1 & Hd1 & ->). pose proof (holds_irq _ _ _ Hh Hi1 Hok1 Hd1) as (_ & _ & [Hm1 Hm1'] & Hf1). rewrite Hc.
  destruct Hi1 as (Hr1 & _ & _ & Hp1). rewrite bool_decide_eq_false_2 by done. cbn [negb]. unfold when.
  apply wpb_bind. wp_step. wp_apply (acquire_spec m1 LPtable Hok1); [by apply Hf1|].
  intros [] m2 (Hr2 & Hok2 & Hd2 & [Hm2 Hm2'] & Hl2 & _ & Hp2).
  wp_apply (release_spec m2 l Hok2); [|lia|].
  { unfold lock_mine. rewrite Hl2, (mrel_index _ _ Hr2) by done. done. }
  intros [] m3 (Hr3 & Hok3 & Hd3 & Hl3 & Hl3' & _ & Hp3).
  assert (holds LPtable m3) as Hh3.
  { split_and!; [done|lia| |].
    - unfold lock_mine. rewrite Hl3', (mrel_index _ _ Hr3) by done. done.
    - intros l' Hne. unfold lock_free. destruct (decide (l' = l)) as [->|Hne']; [by rewrite Hl3|].
      rewrite Hl3', Hl2 by done. by apply Hf1. }
  eapply wpb_sleep_tail; [done|lia| |by rewrite Hp3, Hp2, Hp1|].
  - by rewrite (mrel_curp _ _ Hr3), (mrel_curp _ _ Hr2), (mrel_curp _ _ Hr1).
  - intros m' ? ? ? E. apply HB; [done|done|done|]. by rewrite E, Hp3, Hp2, Hp1.
Qed.

(** [yield] leaves the process runnable. *)
Lemma wpb_yield Q (B : machine -> Prop) m cur pr : quiet m -> depth m = 0 -> curp m = Some cur -> procs m !! cur = Some pr ->
  (forall m', holds LPtable m' -> depth m' = 1 -> curp m' = Some cur ->
     procs m' = <[cur := set_p_state RUNNABLE pr]> (procs m) -> B m') ->
  wpb yield Q B m.
Proof.
  intros [Hok Hf] Hd Hc Hp HB. unfold yield. apply wpb_bind. wp_apply (acquire_spec m LPtable Hok (Hf _)).
  intros [] m1 (Hr1 & Hok1 & Hd1 & Hm1 & Hl1 & _ & Hp1).
  assert (holds LPtable m1) as Hh1.
  { split_and!; [done|lia|done|]. intros l' Hne. unfold lock_free. rewrite Hl1 by done. apply Hf. }
  apply wpb_bind. wp_apply (myproc_spec m1 Hok1). intros r m2 (Hi2 & Hok2 & Hd2 & ->).
  pose proof (holds_irq _ _ _ Hh1 Hi2 Hok2 Hd2) as Hh2. destruct Hi2 as (Hr2 & _ & _ & Hp2).
  assert (curp m2 = Some cur) as Hc2 by (by rewrite (mrel_curp _ _ Hr2), (mrel_curp _ _ Hr1)).
  rewrite <- (mrel_curp _ _ Hr2), Hc2. apply wpb_bind, wp_ret, wpb_bind. unfold upd_proc. wp_step. rewrite Hp2, Hp1, (alter_at cur pr _ _ Hp).
  eapply (wpb_sched _ _ _ cur (set_p_state RUNNABLE pr)); [by apply set_procs_holds| |done| |done|].
  - change (depth (set_procs _ m2)) with (depth m2). lia.
  - cbn [procs set_procs]. apply list_lookup_insert_eq. by eapply lookup_lt_Some.
  - intros m3 Hh3 Hd3 Hr3 Hp3. apply HB; [done|done| |exact Hp3]. by rewrite (mrel_curp _ _ Hr3).
Qed.

(** A process that comes back from [sleep] is on no channel. *)
Lemma wp_sleep_resumed (Q : unit -> machine -> Prop) m i l pr : holds LPtable m -> l <> LPtable -> procs m !! i = Some pr ->
  (forall m', holds l m' -> procs m' = <[i := set_p_chan None pr]> (procs m) -> Q tt m') ->
  wp (sleep_resumed i l) Q m.
Proof.
  intros Hh Hl Hp HQ. unfold sleep_resumed, upd_proc. wp_steps. rewrite bool_decide_eq_false_2 by done. cbn [negb]. unfold when.
  rewrite (alter_at i pr _ _ Hp). wp_step. apply wp_release; [by apply set_procs_holds|].
  intros m1 [Hq1 Hr1] _ Hp1. apply wp_acquire; [done|]. intros m2 Hh2 _ _ Hp2. apply HQ; [done|]. by rewrite Hp2, Hp1.
Qed.
End leave.

(** ** The scheduler *)

(** The first slot from [from] on that is runnable. *)
Definition first_runnable (ps : list proc) (from i : nat) (p : proc) : Prop :=
  (from <= i)%nat /\ ps !! i = Some p /\ p_state p = RUNNABLE /\
  forall j q, (from <= j < i)%nat -> ps !! j = Some q -> p_state q <> RUNNABLE.

(** Processor [c] is in the loop of [scheduler], with the table locked. *)
Record in_sched {T} `{HasMachine T} (c : nat) (s : kernel T) : Prop := {
  is_holds : holds LPtable (mach s);
  is_depth : depth (mach s) = 1;
  is_cpu : cpu_index (mach s) = Some c;
  is_len : length (procs (mach s)) = NPROC;
  is_stack : forall k p, procs (mach s) !! k = Some p -> p_state p = RUNNABLE -> p_kstack p <> 0 /\ p_pgdir p <> 0
}.

(** The process in slot [i] has the processor. *)
Record switched {T} `{HasMachine T} (c i : nat) (p : proc) (s s' : kernel T) : Prop := {
  sw_holds : holds LPtable (mach s');
  sw_depth : depth (mach s') = 1;
  sw_cpu : cpu_index (mach s') = Some c;
  sw_cur : curp (mach s') = Some i;
  sw_procs : procs (mach s') = <[i := set_p_state RUNNING p]> (procs (mach s));
  sw_cr3 : k_cr3 s' = V2P (p_pgdir p);
  sw_esp0 : k_esp0 s' = u32 (p_kstack p + KSTACKSIZE);
  sw_mem : k_mem s' = k_mem s
}.

Section scheduler.
Context {T : Type} `{Journal T}.
Implicit Types (s : kernel T) (m : machine).

(** Which process runs is a field of the processor. *)
Lemma set_cproc_rel m c o : holds LPtable m -> cpu_index m = Some c ->
  let m' := set_cpus (alter (fun cp => Cpu (apicid cp) (ncli cp) (intena cp) o) c (cpus m)) m in
  holds LPtable m' /\ depth m' = depth m /\ cpu_index m' = Some c /\ curp m' = o.
Proof.
  intros (Hok & Hd & [Hl Hc] & Hf) Hi m'. destruct (mach_ok_cur m Hok) as (c' & cp & Hi' & Hcp & Hdc & _).
  assert (c' = c) as -> by congruence. unfold m'. rewrite (alter_at c cp _ _ Hcp). set (m1 := set_cpus _ m).
  assert (cpu_index m1 = Some c) as Hi1.
  { rewrite <- Hi, !cpu_index_ids. unfold m1. cbn. rewrite list_fmap_insert, list_insert_id; [done|]. by rewrite list_lookup_fmap, Hcp. }
  assert (cur_cpu m1 = Some (Cpu (apicid cp) (ncli cp) (intena cp) o)) as Hcur.
  { unfold cur_cpu. rewrite Hi1. cbn. apply list_lookup_insert_eq. by eapply lookup_lt_Some. }
  assert (depth m1 = depth m) as Hd1 by (unfold depth at 1; rewrite Hcur; cbn; lia).
  split_and!; [|done|done|unfold curp; by rewrite Hcur]. split_and!.
  - unfold mach_ok. rewrite Hd1. apply Hok.
  - lia.
  - split; [done|]. by rewrite Hi1, <- Hi.
  - exact Hf.
Qed.

(** [switchuvm] loads the page table and the stack of a process. *)
Lemma wp_switchuvm (Q : unit -> kernel T -> Prop) s i p : holds LPtable (mach s) -> procs (mach s) !! i = Some p ->
  p_kstack p <> 0 -> p_pgdir p <> 0 ->
  (forall m, holds LPtable m -> depth m = depth (mach s) -> mrel (mach s) m -> procs m = procs (mach s) ->
     Q tt (set_mach m (set_k_hw (V2P (p_pgdir p)) (u32 (p_kstack p + KSTACKSIZE)) s))) ->
  wp (switchuvm (Some i)) Q s.
Proof.
  intros Hh Hp Hks Hpd HQ. unfold switchuvm. wp_step. apply wp_machine. eapply wp_get_proc_m; [done|]. rewrite set_mach_id.
  rewrite (bool_decide_eq_false_2 (p_kstack p = 0)), (bool_decide_eq_false_2 (p_pgdir p = 0)) by done. wp_step. apply wp_machine.
  wp_apply (pushcli_spec (mach s)); [apply Hh|]. intros [] m1 (Hi1 & Hok1 & Hd1). wp_steps. apply wp_machine. autorewrite with kern.
  wp_apply (popcli_spec m1 Hok1); [pose proof (proj1 (proj2 Hh)); lia|]. intros [] m2 (Hi2 & Hok2 & Hd2).
  assert (irq_only (mach s) m2) as Hi.
  { destruct Hi1 as (? & ? & ? & ?), Hi2 as (? & ? & ? & ?). split_and!; [by etrans|congruence..]. }
  change (Q tt (set_mach m2 (set_mach m1 (set_k_hw (V2P (p_pgdir p)) (u32 (p_kstack p + KSTACKSIZE)) s)))). rewrite set_mach_set.
  apply (HQ m2); [eapply holds_irq; [done|done|done|lia]|lia|apply Hi|apply Hi].
Qed.

Lemma wp_scheduler_from (Q : option nat -> kernel T -> Prop) c from s : in_sched c s -> (from <= NPROC)%nat ->
  (forall i p s', first_runnable (procs (mach s)) from i p -> switched c i p s s' -> Q (Some i) s') ->
  (forall s', (forall j q, (from <= j)%nat -> procs (mach s) !! j = Some q -> p_state q <> RUNNABLE) ->
     quiet (mach s') -> procs (mach s') = procs (mach s) -> Q None s') ->
  wp (scheduler_from c from) Q s.
Proof.
  intros [Hh Hd Hc Hl Hst] Hfrom Hsome Hnone. unfold scheduler_from. wp_step. apply wp_machine. apply wp_find_proc; [done|done| |].
  - intros i p Hi Hp Hrun Hb. rewrite set_mach_id. destruct (Hst i p Hp Hrun) as [Hks Hpd]. wp_step. apply wp_machine.
    unfold set_cproc. wp_step. destruct (set_cproc_rel (mach s) c (Some i) Hh Hc) as (Hh1 & Hd1 & Hc1 & Hcur1).
    set (m1 := set_cpus _ (mach s)) in *. wp_step. eapply (wp_switchuvm _ _ i p); [by rewrite mach_set|by rewrite mach_set|done|done|].
    autorewrite with kern. intros m2 Hh2 Hd2 Hr2 Hp2. wp_step. unfold upd. apply wp_machine. autorewrite with kern. unfold upd_proc. wp_steps.
    apply (Hsome i p); [done|]. rewrite Hp2. change (procs m1) with (procs (mach s)). rewrite (alter_at i p _ _ Hp). split; autorewrite with kern; try done.
    + change (depth (set_procs _ m2)) with (depth m2). lia.
    + change (cpu_index (set_procs _ m2)) with (cpu_index m2). by rewrite (mrel_index _ _ Hr2).
    + change (curp (set_procs _ m2)) with (curp m2). by rewrite (mrel_curp _ _ Hr2).
  - intros Hno. wp_step. apply wp_machine. rewrite set_mach_id. apply wp_release; [done|]. intros m [Hq _] _ Hp. wp_step.
    apply Hnone; rewrite ?mach_set; done.
Qed.

Lemma wp_scheduler_back (Q : option nat -> kernel T -> Prop) c i s : in_sched c s -> (i < NPROC)%nat ->
  (forall j p s', first_runnable (procs (mach s)) (S i) j p -> switched c j p s s' -> Q (Some j) s') ->
  (forall s', (forall j q, (S i <= j)%nat -> procs (mach s) !! j = Some q -> p_state q <> RUNNABLE) ->
     quiet (mach s') -> procs (mach s') = procs (mach s) -> Q None s') ->
  wp (scheduler_back c i) Q s.
Proof.
  intros [Hh Hd Hc Hl Hst] Hi Hsome Hnone. unfold scheduler_back, switchkvm. wp_steps. apply wp_machine. autorewrite with kern.
  unfold set_cproc. wp_step. destruct (set_cproc_rel (mach s) c None Hh Hc) as (Hh1 & Hd1 & Hc1 & Hcur1).
  set (m1 := set_cpus _ (mach s)) in *. apply wp_scheduler_from.
  - split; autorewrite with kern; try done. by rewrite Hd1.
  - done.
  - autorewrite with kern. intros j p s' Hj [S1 S2 S3 S4 S5 S6 S7 S8]. autorewrite with kern in S5.
    apply (Hsome j p s' Hj). split; done.
  - autorewrite with kern. done.
Qed.
End scheduler.

(** *** A pass over the table *)

Definition runnable {T} `{HasMachine T} (s : kernel T) (k : nat) : Prop :=
  exists p, procs (mach s) !! k = Some p /\ p_state p = RUNNABLE.

(** The scheduler up to the end of the table: [l] are the processes it has run,
    and [R i] is what happens from the switch to process [i] to the switch back. *)
Inductive pass {T} `{Journal T} (c : nat) (R : nat -> kernel T -> kernel T -> Prop) :
    M (kernel T) (option nat) -> kernel T -> list nat -> kernel T -> Prop :=
| pass_end f s s' : f s = Ok None s' -> pass c R f s [] s'
| pass_run f s i s1 s2 l s' : f s = Ok (Some i) s1 -> R i s1 s2 -> pass c R (scheduler_back c i) s2 l s' ->
    pass c R f s (i :: l) s'.

(** A process that has the processor gives it back, and meanwhile no other
    process that is runnable is taken off the table or runs elsewhere. *)
Record gives_back {T} `{Journal T} (c : nat) (R : nat -> kernel T -> kernel T -> Prop) : Prop := {
  gb_total : forall from i p s s1, in_sched c s -> first_runnable (procs (mach s)) from i p -> switched c i p s s1 -> exists s2, R i s1 s2;
  gb_sched : forall i s1 s2, R i s1 s2 -> in_sched c s2;
  gb_others : forall i s1 s2 k, R i s1 s2 -> k <> i -> runnable s1 k -> runnable s2 k
}.

Section fair.
Context {T : Type} `{Journal T}.
Implicit Types (s : kernel T) (R : nat -> kernel T -> kernel T -> Prop).

(** How the scheduler goes on from slot [from]. *)
Definition goes_on c from s (f : M (kernel T) (option nat)) : Prop := forall (Q : option nat -> kernel T -> Prop),
  (forall i p s', first_runnable (procs (mach s)) from i p -> switched c i p s s' -> Q (Some i) s') ->
  (forall s', (forall j q, (from <= j)%nat -> procs (mach s) !! j = Some q -> p_state q <> RUNNABLE) -> Q None s') ->
  wp f Q s.

Lemma goes_on_back c i s : in_sched c s -> (i < NPROC)%nat -> goes_on c (S i) s (scheduler_back c i).
Proof. intros Hs Hi Q H1 H2. apply wp_scheduler_back; [done|done|exact H1|]. intros s' Hno _ _. by apply H2. Qed.

Lemma switched_runnable c i p s s' k : switched c i p s s' -> (i < length (procs (mach s)))%nat -> k <> i -> runnable s k -> runnable s' k.
Proof.
  intros Hsw Hi Hne (q & Hq & Hr). exists q. split; [|done]. rewrite (sw_procs _ _ _ _ _ Hsw). by rewrite list_lookup_insert_ne.
Qed.
Lemma first_runnable_lt ps from i p : length ps = NPROC -> first_runnable ps from i p -> (i < NPROC)%nat.
Proof. intros <- (_ & Hp & _). by eapply lookup_lt_Some. Qed.

Lemma pass_exists c R n : forall from s f, (NPROC - from <= n)%nat -> gives_back c R -> in_sched c s -> goes_on c from s f ->
  exists l s', pass c R f s l s'.
Proof.
  induction n as [|n IH]; intros from s f Hn HR Hs Hf.
  all: assert (wp f (fun r s' => match r with None => True | Some i => exists p, first_runnable (procs (mach s)) from i p /\
    switched c i p s s' end) s) as Hw by (apply Hf; eauto).
  all: apply wp_ok in Hw as (r & s1 & Hrun & Hr); destruct r as [i|]; [|by exists [], s1; apply pass_end].
  all: destruct Hr as (p & Hp & Hsw); pose proof (first_runnable_lt _ _ _ _ (is_len _ _ Hs) Hp) as Hi; pose proof (proj1 Hp).
  - lia.
  - destruct (gb_total _ _ HR from i p s s1 Hs Hp Hsw) as [s2 HR2]. pose proof (gb_sched _ _ HR _ _ _ HR2) as Hs2.
    destruct (IH (S i) s2 (scheduler_back c i)) as (l & s' & Hl); [lia|done|done|by apply goes_on_back|].
    exists (i :: l), s'. by eapply pass_run.
Qed.

Lemma pass_fair c R f s l s' : pass c R f s l s' -> forall from, gives_back c R -> in_sched c s -> goes_on c from s f ->
  StronglySorted lt l /\ Forall (fun i => from <= i < NPROC)%nat l /\ forall k, (from <= k)%nat -> runnable s k -> k ∈ l.
Proof.
  induction 1 as [f s s' Hrun|f s i s1 s2 l s' Hrun HR2 _ IH]; intros from HR Hs Hf.
  - split_and!; [constructor|constructor|]. intros k Hk (q & Hq & Hr).
    assert (wp f (fun r _ => r = None -> forall j q, (from <= j)%nat -> procs (mach s) !! j = Some q -> p_state q <> RUNNABLE) s) as Hw.
    { apply Hf; [done|]. auto. }
    unfold wp in Hw. rewrite Hrun in Hw. by destruct (Hw eq_refl k q Hk Hq).
  - assert (wp f (fun r s1 => forall i, r = Some i -> exists p, first_runnable (procs (mach s)) from i p /\ switched c i p s s1) s) as Hw.
    { apply Hf; [|done]. intros i' p s'' Hp Hsw ? [= <-]. eauto. }
    unfold wp in Hw. rewrite Hrun in Hw. destruct (Hw i eq_refl) as (p & Hp & Hsw).
    pose proof (first_runnable_lt _ _ _ _ (is_len _ _ Hs) Hp) as Hi. pose proof Hp as (Hge & Hpi & _ & Hb).
    pose proof (gb_sched _ _ HR _ _ _ HR2) as Hs2.
    destruct (IH (S i) HR Hs2 (goes_on_back c i s2 Hs2 Hi)) as (Hsort & Hall & Hrest). split_and!.
    + constructor; [done|]. eapply Forall_impl; [exact Hall|]. cbn. lia.
    + constructor; [lia|]. eapply Forall_impl; [exact Hall|]. cbn. lia.
    + intros k Hk Hr. destruct (decide (k = i)) as [->|Hne]; [set_solver|]. apply elem_of_cons. right. apply Hrest.
      * destruct (decide (k < i)%nat) as [Hlt|]; [|lia]. destruct Hr as (q & Hq & Hrq). by destruct (Hb k q ltac:(lia) Hq).
      * eapply (gb_others _ _ HR); [exact HR2|done|]. eapply switched_runnable; [exact Hsw| |done|done]. by rewrite (is_len _ _ Hs).
Qed.

(** Processor [c] is about to look for work: interrupts may be on, and no lock is held. *)
Record idle c s : Prop := {
  id_quiet : quiet (mach s);
  id_depth : depth (mach s) = 0;
  id_cpu : cpu_index (mach s) = Some c;
  id_len : length (procs (mach s)) = NPROC;
  id_stack : forall k p, procs (mach s) !! k = Some p -> p_state p = RUNNABLE -> p_kstack p <> 0 /\ p_pgdir p <> 0
}.

Lemma scheduler_round_enter c s : idle c s -> exists s1, scheduler_round c s = scheduler_from c 0 s1 /\
  in_sched c s1 /\ procs (mach s1) = procs (mach s).
Proof.
  intros [[Hok Hf] Hd Hc Hl Hst]. set (m0 := set_if true (mach s)).
  assert (mach_ok m0) as Hok0 by (split; [apply Hok|change (depth m0) with (depth (mach s)); lia]).
  pose proof (acquire_spec m0 LPtable Hok0 (Hf _)) as Hw. apply wp_ok in Hw as ([] & m & Hrun & Hr & Hok1 & Hd1 & Hm1 & Hl1 & _ & Hp1).
  exists (set_mach m s). split_and!.
  - unfold scheduler_round, onm, sti, zoom, modify, mbind, M_bind. cbn [snd]. rewrite mach_set. fold m0. by rewrite Hrun, set_mach_set.
  - change (depth m0) with (depth (mach s)) in Hd1. split; rewrite ?mach_set; try done.
    + split_and!; [done|lia|done|]. intros l' Hne. unfold lock_free. rewrite Hl1 by done. apply Hf.
    + lia.
    + rewrite (mrel_index _ _ Hr). exact Hc.
    + by rewrite Hp1.
    + by rewrite Hp1.
  - by rewrite mach_set, Hp1.
Qed.
Lemma pass_ext c R f g s t l s' : pass c R f s l s' -> f s = g t -> pass c R g t l s'.
Proof. intros Hp E. inversion Hp; subst; [apply pass_end|eapply pass_run]; try done; by rewrite <- E. Qed.
End fair.

(** C19: one pass of the scheduler ends, runs its processes in the order of
    the table and each at most once, and runs every process that is runnable
    when the pass begins: as long as who has the processor gives it back, no
    runnable process starves. *)
Theorem scheduler_fair {T} `{Journal T} c (R : nat -> kernel T -> kernel T -> Prop) (s : kernel T) : gives_back c R -> idle c s ->
  (exists l s', pass c R (scheduler_round c) s l s') /\
  forall l s', pass c R (scheduler_round c) s l s' ->
    StronglySorted lt l /\ Forall (fun i => i < NPROC)%nat l /\ forall k, runnable s k -> k ∈ l.
Proof.
  intros HR Hi. destruct (scheduler_round_enter c s Hi) as (s1 & E & Hs1 & Hp1).
  assert (goes_on c 0 s1 (scheduler_from c 0)) as Hgo.
  { intros Q H1 H2. apply wp_scheduler_from; [done|lia|exact H1|]. intros s' Hno _ _. by apply H2. }
  split.
  - destruct (pass_exists c R NPROC 0 s1 (scheduler_from c 0)) as (l & s' & Hl); [lia|done|done|done|].
    exists l, s'. by eapply pass_ext.
  - intros l s' Hl. apply (pass_ext _ _ _ (scheduler_from c 0) _ s1) in Hl; [|done].
    destruct (pass_fair c R _ _ _ _ Hl 0 HR Hs1 Hgo) as (Hsort & Hall & Hin). split_and!; [done| |].
    + eapply Forall_impl; [exact Hall|]. cbn. lia.
    + intros k (q & Hq & Hr). apply Hin; [lia|]. exists q. by rewrite Hp1.
Qed.

(** A process that has the processor and yields it. *)
Definition yields {T} `{HasMachine T} (c : nat) (i : nat) (s1 s2 : kernel T) : Prop :=
  in_sched c s2 /\ procs (mach s2) = alter (set_p_state RUNNABLE) i (procs (mach s1)).

Lemma yields_gives_back {T} `{Journal T} c : gives_back (T := T) c (yields c).
Proof.
  split.
  - intros from i p s s1 [I1 I2 I3 I4 I5] (Hge & Hp & Hr & Hb) [W1 W2 W3 W4 W5 W6 W7 W8].
    exists (set_mach (set_procs (alter (set_p_state RUNNABLE) i (procs (mach s1))) (mach s1)) s1).
    split; [|by rewrite mach_set]. assert (i < length (procs (mach s)))%nat as Hlt by (by eapply lookup_lt_Some).
    split; rewrite ?mach_set; cbn [procs set_procs]; try done.
    + by rewrite length_alter, W5, length_insert.
    + rewrite W5, (alter_at i _ _ _ (list_lookup_insert_eq _ _ _ Hlt)), list_insert_insert_eq. intros k q Hq Hst.
      destruct (decide (i = k)) as [->|Hne].
      * rewrite list_lookup_insert_eq in Hq by done. assert (q = set_p_state RUNNABLE (set_p_state RUNNING p)) as -> by congruence. by apply (I5 k p).
      * rewrite list_lookup_insert_ne in Hq by done. by apply (I5 k q).
  - by intros i s1 s2 [Hs _].
  - intros i s1 s2 k [_ E] Hne (p & Hp & Hr). exists p. by rewrite E, list_lookup_alter_ne.
Qed.

Definition sx_mach : machine :=
  Machine true 0 [Cpu 0 0 false None] ∅ ∅ (set_p_state RUNNABLE px_proc :: replicate 63 px_free).
Definition sx : kernel kstate := set_mach sx_mach px.

Lemma scheduler_fair_witness : exists l s', pass 0 (yields 0) (scheduler_round 0) sx l s' /\ 0%nat ∈ l.
Proof.
  destruct (scheduler_fair 0 (yields 0) sx (yields_gives_back 0)) as [(l & s' & Hl) Hfair].
  - assert (mach sx = sx_mach) as E by reflexivity. split; rewrite ?E; try done.
    intros [|k] p Hp Hr; [cbn in Hp; by simplify_eq|]. change (procs sx_mach !! S k) with (replicate 63 px_free !! k) in Hp.
    apply lookup_replicate in Hp as [-> _]. done.
  - exists l, s'. split; [done|]. destruct (Hfair l s' Hl) as (_ & _ & Hin). apply Hin. exists (set_p_state RUNNABLE px_proc).
    split; reflexivity.
Defined.
