(* ===== verification/PipeSpec.v ===== *)
(** * Pipes on the state of the kernel

    [pipewrite] and [piperead] of the kernel are steps of the system of
    processes of [Pipe]: the pipe in the table changes as the run of the loop
    says, the channels that the run wakes up are woken in the process table, in
    their order, and the caller returns or is left asleep on its channel. *)

From S2P Require Import Prelude Bytes Params Machine BlockCache Bio BioSpec Journal Log LogSpec LogTx Crash CString Fs FsExample Kalloc Vm VmRep VmSpace VmCopy VmTheorems Pipe Kern FileC Proc ProcSpec Fork ProcTheorems Wait Sched.
Local Open Scope Z_scope.

(** The process table after the wakeups of a run. *)
Definition woken (p : Z) (w : list pchan) (ps : list proc) : list proc :=
  foldl (fun ps c => wakeup1_proc (pipe_chan p c) <$> ps) ps w.

(** A process that runs is not changed by a wakeup. *)
Lemma woken_running p w : forall ps cur pr, ps !! cur = Some pr -> p_state pr = RUNNING -> woken p w ps !! cur = Some pr.
Proof.
  induction w as [|c w IH]; intros ps cur pr Hp Hr; cbn; [done|]. apply IH; [|done].
  rewrite list_lookup_fmap, Hp. cbn. unfold wakeup1_proc. by rewrite Hr.
Qed.

Section pipes.
Context {T : Type} `{Journal T}.
Implicit Types (s : kernel T) (m : machine).

(** The running process [cur] calls a function of the pipe [x] at [p]. *)
Record pipe_call s (p : Z) (x : pipe) (cur : nat) (pr : proc) : Prop := {
  pc_quiet : quiet (mach s);
  pc_depth : depth (mach s) = 0;
  pc_cur : curp (mach s) = Some cur;
  pc_proc : procs (mach s) !! cur = Some pr;
  pc_run : p_state pr = RUNNING;
  pc_pipe : k_pipes s !! p = Some x
}.
(** It holds the lock of the pipe. *)
Record in_pipe (p : Z) m0 m : Prop := {
  in_holds : holds (LPipe p) m;
  in_depth : depth m = 1;
  in_rel : mrel m0 m
}.

Lemma wp_enter_pipe (Q : unit -> kernel T -> Prop) s p x cur pr : pipe_call s p x cur pr ->
  (forall m, in_pipe p (mach s) m -> procs m = procs (mach s) -> Q tt (set_mach m s)) -> wp (onm (acquire (LPipe p))) Q s.
Proof.
  intros [[Hok Hf] Hd _ _ _ _] HQ. apply wp_machine. wp_apply (acquire_spec (mach s) (LPipe p) Hok (Hf _)).
  intros [] m (Hr & Hok' & Hd' & Hm & Hl & _ & Hp). apply HQ; [|done]. split; [|lia|done].
  split_and!; [done|lia|done|]. intros l' Hne. unfold lock_free. rewrite Hl by done. apply Hf.
Qed.

Lemma wp_curproc_in_pipe (Q : nat * proc -> kernel T -> Prop) s m0 p cur pr : in_pipe p m0 (mach s) -> curp m0 = Some cur ->
  procs (mach s) !! cur = Some pr ->
  (forall m, in_pipe p m0 m -> procs m = procs (mach s) -> Q (cur, pr) (set_mach m s)) -> wp curproc Q s.
Proof.
  intros [Hh Hd Hr] Hc Hp HQ. unfold curproc. wp_step. apply wp_machine. wp_apply (myproc_spec (mach s)); [apply Hh|].
  intros r m (Hi & Hok & Hd1 & ->). rewrite (mrel_curp _ _ Hr), Hc. wp_step. eapply wp_of_option; [done|]. wp_step. apply wp_machine.
  rewrite mach_set. pose proof Hi as (Hr1 & _ & _ & Hp1). eapply wp_get_proc_m; [by rewrite Hp1|]. wp_step. rewrite set_mach_set.
  apply HQ; [|done]. split; [by eapply holds_irq|lia|by etrans].
Qed.

Lemma wp_pipe_wakeups p m0 w : forall (Q : unit -> kernel T -> Prop) s, in_pipe p m0 (mach s) ->
  (forall m, in_pipe p m0 m -> procs m = woken p w (procs (mach s)) -> Q tt (set_mach m s)) -> wp (pipe_wakeups p w) Q s.
Proof.
  induction w as [|c w IH]; intros Q s Hin HQ; cbn [pipe_wakeups]; wp_step.
  { rewrite <- (set_mach_id s). by apply HQ. }
  destruct Hin as [(Hok & Hd0 & [Hm1 Hm2] & Hf) Hd Hr]. apply wp_machine.
  wp_apply (wakeup_spec (mach s) (pipe_chan p c) Hok (Hf LPtable ltac:(done))). intros [] m (Hr1 & Hok1 & Hd1 & Hp1 & Hl1 & _ & Hpr).
  apply IH; rewrite mach_set.
  - split; [|lia|by etrans]. split_and!; [done|lia| |].
    + unfold lock_mine. rewrite Hl1, (mrel_index _ _ Hr1) by done. done.
    + intros l' Hne. destruct (decide (l' = LPtable)) as [->|Hne']; [done|]. unfold lock_free. rewrite Hl1 by done. by apply Hf.
  - intros m' Hin' Hp'. rewrite set_mach_set. apply HQ; [done|]. by rewrite Hp', Hpr.
Qed.

(** The end of a call that returns, and of one that sleeps. *)
Lemma wp_leave_pipe {A} (r : A) (Q : A -> kernel T -> Prop) s p m0 : in_pipe p m0 (mach s) ->
  (forall m, quiet m -> procs m = procs (mach s) -> Q r (set_mach m s)) -> wp (onm (release (LPipe p)) ;; mret r) Q s.
Proof.
  intros [Hh _ _] HQ. wp_step. apply wp_machine. apply wp_release; [done|]. intros m [Hq _] _ Hp. wp_step. by apply HQ.
Qed.
Lemma wpb_sleep_pipe {C} c (Q : C -> kernel T -> Prop) (B : kernel T -> Prop) (k : unit -> M (kernel T) C) s p cur m0 pr :
  in_pipe p m0 (mach s) -> curp m0 = Some cur -> procs (mach s) !! cur = Some pr ->
  (forall m, holds LPtable m -> procs m = <[cur := set_p_state SLEEPING (set_p_chan (Some c) pr)]> (procs (mach s)) -> B (set_mach m s)) ->
  wpb (onm (sleep c (Some (LPipe p))) ≫= k) Q B s.
Proof.
  intros [Hh Hd Hr] Hc Hp HB. apply wpb_sleeps, wpb_onm. eapply wpb_sleep_lock; [done|done|done|by rewrite (mrel_curp _ _ Hr)|done|].
  intros m ? _ _ ?. by apply HB.
Qed.

(** The part that the two functions share: the run of the loop, and what it
    does to the pipe and to the table. *)
Lemma wpb_run_pipe {A R} (run : bool -> pipe -> pipe * list pchan * R) (fin : R -> M (kernel T) A) Q B s m1 p x cur pr x' w a :
  pipe_call s p x cur pr -> in_pipe p (mach s) m1 -> procs m1 = procs (mach s) -> run (c_bool (p_killed pr)) x = (x', w, a) ->
  (forall m, in_pipe p (mach s) m -> procs m = woken p w (procs (mach s)) ->
     wpb (fin a) Q B (set_mach m (set_k_pipes (<[p := x']> (k_pipes s)) s))) ->
  wpb (x ← get_pipe p;
       '(_, pr) ← curproc;
       let '(x', w, a) := run (c_bool (p_killed pr)) x in
       put_pipe p x' ;;
       pipe_wakeups p w ;;
       fin a) Q B (set_mach m1 s).
Proof.
  intros [_ _ Hcur Hpr Hst Hx] Hi1 Hp1 Hrun HQ. apply wpb_bind. unfold get_pipe. wp_steps. eapply wp_of_option; [done|].
  apply wpb_bind. eapply wp_curproc_in_pipe; [by rewrite mach_set|done|by rewrite mach_set, Hp1|]. intros m2 Hi2 Hp2. rewrite mach_set in Hp2.
  rewrite set_mach_set, Hrun. apply wpb_bind. unfold put_pipe. wp_step. apply wpb_bind.
  change (set_k_pipes (<[p := x']> (k_pipes (set_mach m2 s))) (set_mach m2 s)) with (set_mach m2 (set_k_pipes (<[p := x']> (k_pipes s)) s)).
  eapply (wp_pipe_wakeups p (mach s)); [by rewrite mach_set|]. rewrite mach_set, Hp2, Hp1. intros m3 Hi3 Hp3. rewrite set_mach_set. by apply HQ.
Qed.

(** The kernel after a call: the pipe [x], and the process table [ps]. *)
Definition ran (p : Z) (x : pipe) (ps : list proc) s s' : Prop :=
  exists m, s' = set_mach m (set_k_pipes (<[p := x]> (k_pipes s)) s) /\ procs m = ps.

(** How a call ends: it returns [r] with no lock held, or leaves the process
    asleep on [c], which is what [r] without a value says. *)
Definition ends {A} (p : Z) (x : pipe) (w : list pchan) (c : chan) (r : option A) (cur : nat) (pr : proc) s (m : M (kernel T) A) : Prop :=
  wpb m (fun v s' => Some v = r /\ quiet (mach s') /\ ran p x (woken p w (procs (mach s))) s s')
    (fun s' => r = None /\ holds LPtable (mach s') /\
       ran p x (<[cur := set_p_state SLEEPING (set_p_chan (Some c) pr)]> (woken p w (procs (mach s)))) s s') s.

Lemma ends_return {A} (r : A) p x w c cur pr s m : in_pipe p (mach s) m -> procs m = woken p w (procs (mach s)) ->
  wpb (onm (release (LPipe p)) ;; mret r)
    (fun v s' => Some v = Some r /\ quiet (mach s') /\ ran p x (woken p w (procs (mach s))) s s')
    (fun s' => Some r = None /\ holds LPtable (mach s') /\
       ran p x (<[cur := set_p_state SLEEPING (set_p_chan (Some c) pr)]> (woken p w (procs (mach s)))) s s')
    (set_mach m (set_k_pipes (<[p := x]> (k_pipes s)) s)).
Proof.
  intros Hi Hp. apply wpb_wp. eapply (wp_leave_pipe _ _ _ _ (mach s)); [by rewrite mach_set|]. rewrite mach_set. intros m' Hq Hp'.
  rewrite set_mach_set, mach_set. split_and!; [done|done|]. exists m'. by rewrite Hp'.
Qed.
Lemma ends_sleep {A} c (k : unit -> M (kernel T) A) p x0 x w cur pr s m : pipe_call s p x0 cur pr -> in_pipe p (mach s) m ->
  procs m = woken p w (procs (mach s)) ->
  wpb (onm (sleep c (Some (LPipe p))) ≫= k)
    (fun v s' => Some v = None /\ quiet (mach s') /\ ran p x (woken p w (procs (mach s))) s s')
    (fun s' => @None A = None /\ holds LPtable (mach s') /\
       ran p x (<[cur := set_p_state SLEEPING (set_p_chan (Some c) pr)]> (woken p w (procs (mach s)))) s s')
    (set_mach m (set_k_pipes (<[p := x]> (k_pipes s)) s)).
Proof.
  intros [_ _ Hcur Hpr Hst _] Hi Hp. eapply (wpb_sleep_pipe _ _ _ _ _ _ _ (mach s) pr); [by rewrite mach_set|done| |].
  - rewrite mach_set, Hp. by apply woken_running.
  - rewrite mach_set, Hp. intros m' Hh Hp'. rewrite set_mach_set, mach_set. split_and!; [done|done|]. by exists m'.
Qed.

(** [pipewrite] does what the run of its loop says: the bytes that fit are in
    the pipe and the channels of the run are woken; it returns [n] or -1, or
    the process sleeps on [nwrite] with the lock given up. *)
Theorem pipewrite_runs s p x cur pr addr n x' w a : pipe_call s p x cur pr -> n <= Z.of_nat (length addr) ->
  pipewrite_run (c_bool (p_killed pr)) x (take (Z.to_nat n) addr) 0 = (x', w, a) ->
  ends p x' w (ChPipeW p) (match a with WFail _ => Some (-1) | WSleep _ => None | WDone => Some n end) cur pr s (pipewrite p addr n).
Proof.
  intros Hc Hn Hrun. unfold ends, pipewrite. apply wpb_bind. eapply wp_enter_pipe; [done|]. intros m1 Hi1 Hp1.
  rewrite bool_decide_eq_false_2 by lia.
  eapply (wpb_run_pipe (fun k x => pipewrite_run k x (take (Z.to_nat n) addr) 0)
    (fun a => match a with
              | WFail _ => onm (release (LPipe p)) ;; mret (-1)
              | WSleep _ => onm (sleep (ChPipeW p) (Some (LPipe p))) ;; fault "sleep returned"
              | WDone => onm (release (LPipe p)) ;; mret n
              end)); [done|done|done|exact Hrun|].
  intros m Hi Hp. destruct a; [by apply ends_return|by eapply ends_sleep|by apply ends_return].
Qed.

(** [piperead] likewise: it returns the bytes and their number, or -1, or the
    process sleeps on [nread]. *)
Theorem piperead_runs s p x cur pr n x' w a : pipe_call s p x cur pr -> piperead_run (c_bool (p_killed pr)) x n = (x', w, a) ->
  ends p x' w (ChPipeR p) (match a with RFail => Some (-1, []) | RSleep => None | RDone l => Some (Z.of_nat (length l), l) end) cur pr s (piperead p n).
Proof.
  intros Hc Hrun. unfold ends, piperead. apply wpb_bind. eapply wp_enter_pipe; [done|]. intros m1 Hi1 Hp1.
  eapply (wpb_run_pipe (fun k x => piperead_run k x n)
    (fun a => match a with
              | RFail => onm (release (LPipe p)) ;; mret (-1, [])
              | RSleep => onm (sleep (ChPipeR p) (Some (LPipe p))) ;; fault "sleep returned"
              | RDone l => onm (release (LPipe p)) ;; mret (Z.of_nat (length l), l)
              end)); [done|done|done|exact Hrun|].
  intros m Hi Hp. destruct a; [by apply ends_return|by eapply ends_sleep|by apply ends_return].
Qed.
End pipes.
