(* ===== verification/Family.v ===== *)
(** * The family of processes

    Who is whose parent, and who waits for whom: an invariant of the process
    table, kept by every function that writes the table. *)

From S2P Require Import Prelude Bytes Params Machine BlockCache Bio BioSpec Journal Log LogSpec LogTx Crash CString Fs FsExample Kalloc Vm VmRep VmSpace VmCopy VmTheorems Pipe Kern FileC Proc ProcSpec Fork ProcTheorems Wait Sched.
Local Open Scope Z_scope.

(** ** The invariant *)

(** A process that can still run. *)
Definition alive (p : proc) : Prop := p_state p = SLEEPING \/ p_state p = RUNNABLE \/ p_state p = RUNNING.
(** The process in slot [i] sleeps in [wait]. *)
Definition in_wait (i : nat) (p : proc) : Prop := p_state p = SLEEPING /\ p_chan p = Some (ChProc i).

Record family (ini : nat) (ps : list proc) : Prop := {
  (** [init] runs and has no parent; *)
  fa_init : exists p, ps !! ini = Some p /\ alive p /\ p_parent p = None;
  (** the parent of any other process, also of one that has exited, is another process that can still run; *)
  fa_parent : forall k p, ps !! k = Some p -> k <> ini -> alive p \/ p_state p = ZOMBIE ->
    exists j q, p_parent p = Some j /\ j <> k /\ ps !! j = Some q /\ alive q;
  (** a slot that is not in use has no parent; *)
  fa_free : forall k p, ps !! k = Some p -> p_state p = UNUSED \/ p_state p = EMBRYO -> p_parent p = None;
  (** who sleeps in [wait] has a child that can still run, and none that has exited. *)
  fa_wait : forall i p, ps !! i = Some p -> in_wait i p ->
    (exists k q, ps !! k = Some q /\ p_parent q = Some i /\ alive q) /\ forall k z, ~ zombie_child ps i k z
}.

Section tables.
Implicit Types ps : list proc.

Lemma state_cases p : alive p \/ p_state p = ZOMBIE \/ p_state p = UNUSED \/ p_state p = EMBRYO.
Proof. unfold alive. destruct (p_state p); auto 10. Qed.
Lemma alive_not_zombie p : alive p -> p_state p <> ZOMBIE.
Proof. intros [E|[E|E]]; by rewrite E. Qed.
Lemma alive_not_free p : alive p -> p_state p <> UNUSED /\ p_state p <> EMBRYO.
Proof. intros [E|[E|E]]; by rewrite E. Qed.

(** A change that leaves parents alone, and puts nobody to sleep in [wait]. *)
Definition milder (k : nat) (p p' : proc) : Prop :=
  p_parent p' = p_parent p /\ (alive p' <-> alive p) /\ (p_state p' = ZOMBIE <-> p_state p = ZOMBIE) /\ (in_wait k p' -> in_wait k p).
Definition mild ps ps' : Prop :=
  length ps' = length ps /\ forall k p p', ps !! k = Some p -> ps' !! k = Some p' -> milder k p p'.

Lemma milder_refl k p : milder k p p.
Proof. split_and!; done. Qed.
Lemma mild_back ps ps' k p' : mild ps ps' -> ps' !! k = Some p' -> exists p, ps !! k = Some p /\ milder k p p'.
Proof.
  intros [Hl Hm] Hp. assert (is_Some (ps !! k)) as [p Hp0] by (apply lookup_lt_is_Some_2; rewrite <- Hl; by eapply lookup_lt_Some).
  eauto.
Qed.
Lemma mild_to ps ps' k p : mild ps ps' -> ps !! k = Some p -> exists p', ps' !! k = Some p' /\ milder k p p'.
Proof.
  intros [Hl Hm] Hp. assert (is_Some (ps' !! k)) as [p' Hp0] by (apply lookup_lt_is_Some_2; rewrite Hl; by eapply lookup_lt_Some).
  eauto.
Qed.
Lemma mild_insert ps i p p' : ps !! i = Some p -> milder i p p' -> mild ps (<[i := p']> ps).
Proof.
  intros Hp Hm. split; [by rewrite length_insert|]. intros k q q' Hq Hq'. destruct (decide (i = k)) as [->|Hne].
  - rewrite list_lookup_insert_eq in Hq' by (by eapply lookup_lt_Some). by simplify_eq.
  - rewrite list_lookup_insert_ne in Hq' by done. simplify_eq. apply milder_refl.
Qed.
Lemma mild_fmap ps f : (forall k p, milder k p (f p)) -> mild ps (f <$> ps).
Proof.
  intros Hf. split; [by rewrite length_fmap|]. intros k p p' Hp Hp'. rewrite list_lookup_fmap, Hp in Hp'.
  cbn in Hp'. simplify_eq. apply Hf.
Qed.

Lemma family_mild ini ps ps' : family ini ps -> mild ps ps' -> family ini ps'.
Proof.
  intros [F1 F2 F3 F4] Hm. split.
  - destruct F1 as (p & Hp & Ha & Hn). destruct (mild_to _ _ _ _ Hm Hp) as (p' & Hp' & E & Ea & _).
    exists p'. split_and!; [done|by apply Ea|by rewrite E].
  - intros k p' Hp' Hne Hs. destruct (mild_back _ _ _ _ Hm Hp') as (p & Hp & E & Ea & Ez & _).
    destruct (F2 k p Hp Hne) as (j & q & Hj & Hjk & Hq & Haq); [naive_solver|].
    destruct (mild_to _ _ _ _ Hm Hq) as (q' & Hq' & _ & Eaq & _). exists j, q'. split_and!; [by rewrite E|done|done|by apply Eaq].
  - intros k p' Hp' Hs. destruct (mild_back _ _ _ _ Hm Hp') as (p & Hp & E & Ea & Ez & _). rewrite E. apply (F3 k p Hp).
    destruct (state_cases p) as [Hc|[Hc|Hc]]; [| |done].
    + apply Ea, alive_not_free in Hc. naive_solver.
    + apply Ez in Hc. rewrite Hc in Hs. naive_solver.
  - intros i p' Hp' Hw. destruct (mild_back _ _ _ _ Hm Hp') as (p & Hp & E & Ea & Ez & Ew).
    destruct (F4 i p Hp (Ew Hw)) as ((k & q & Hq & Hpq & Haq) & Hnz). split.
    + destruct (mild_to _ _ _ _ Hm Hq) as (q' & Hq' & Eq & Eaq & _). exists k, q'. split_and!; [done|by rewrite Eq|by apply Eaq].
    + intros k' z' (Hz' & Hpz' & Hsz'). destruct (mild_back _ _ _ _ Hm Hz') as (z & Hz & Ez1 & _ & Ez2 & _).
      apply (Hnz k' z). split_and!; [done|by rewrite <- Ez1|by apply Ez2].
Qed.

Lemma milder_wakeup c k p : milder k p (wakeup1_proc c p).
Proof.
  unfold wakeup1_proc. destruct (decide (p_state p = SLEEPING)) as [E|E].
  - destruct (_ && _); [|apply milder_refl]. split_and!; unfold alive, in_wait; cbn; rewrite ?E; naive_solver.
  - rewrite (bool_decide_eq_false_2 (p_state p = SLEEPING)) by done. apply milder_refl.
Qed.

(** A child is born. *)
Lemma family_fork ini ps cur pr np q c : family ini ps -> ps !! cur = Some pr -> alive pr ->
  ps !! np = Some q -> p_state q = UNUSED -> p_state c = RUNNABLE -> p_parent c = Some cur -> family ini (<[np := c]> ps).
Proof.
  intros [F1 F2 F3 F4] Hcur Hal Hq Hu Hc Hpc. assert (alive c) as Hac by (right; by left).
  assert (~ alive q) as Hnq by (intros ?%alive_not_free; naive_solver).
  assert (np < length ps)%nat as Hlt by (by eapply lookup_lt_Some).
  assert (forall k p, ps !! k = Some p -> alive p -> <[np := c]> ps !! k = Some p) as Hkeep.
  { intros k p Hp Ha. rewrite list_lookup_insert_ne; [done|]. intros ->. congruence. }
  assert (forall k p, <[np := c]> ps !! k = Some p -> k = np /\ p = c \/ ps !! k = Some p) as Hback.
  { intros k p. destruct (decide (np = k)) as [<-|Hne]; [rewrite list_lookup_insert_eq by done|rewrite list_lookup_insert_ne by done]; naive_solver. }
  assert (cur <> np) as Hcn by congruence. split.
  - destruct F1 as (p & Hp & Ha & Hn). exists p. eauto.
  - intros k p [[-> ->]|Hp]%Hback Hne Hs; [exists cur, pr; eauto|].
    destruct (F2 k p Hp Hne Hs) as (j & q' & ? & ? & ? & ?). exists j, q'. eauto.
  - intros k p [[-> ->]|Hp]%Hback Hs; [rewrite Hc in Hs; by destruct Hs|eauto].
  - intros i p [[-> ->]|Hp]%Hback Hw; [destruct Hw; congruence|]. destruct (F4 i p Hp Hw) as ((k & q' & ? & ? & ?) & Hnz). split.
    + exists k, q'. eauto.
    + intros k' z ([[-> ->]|Hz]%Hback & Hpz & Hsz); [congruence|]. by apply (Hnz k' z).
Qed.

(** A child that has exited is reaped. *)
Lemma family_reap ini ps cur k z : family ini ps -> zombie_child ps cur k z -> family ini (<[k := reaped z]> ps).
Proof.
  intros [F1 F2 F3 F4] (Hz & Hpz & Hsz). assert (k < length ps)%nat as Hlt by (by eapply lookup_lt_Some).
  assert (forall j p, ps !! j = Some p -> alive p -> <[k := reaped z]> ps !! j = Some p) as Hkeep.
  { intros j p Hp Ha%alive_not_zombie. rewrite list_lookup_insert_ne; [done|]. intros ->. congruence. }
  assert (forall j p, <[k := reaped z]> ps !! j = Some p -> j = k /\ p = reaped z \/ ps !! j = Some p) as Hback.
  { intros j p. destruct (decide (k = j)) as [<-|Hne]; [rewrite list_lookup_insert_eq by done|rewrite list_lookup_insert_ne by done]; naive_solver. }
  split.
  - destruct F1 as (p & Hp & Ha & Hn). exists p. eauto.
  - intros j p [[-> ->]|Hp]%Hback Hne Hs; [by destruct Hs as [[?|[?|?]]|?]|].
    destruct (F2 j p Hp Hne Hs) as (j' & q' & ? & ? & ? & ?). exists j', q'. eauto.
  - intros j p [[-> ->]|Hp]%Hback Hs; [done|eauto].
  - intros i p [[-> ->]|Hp]%Hback Hw; [by destruct Hw|]. destruct (F4 i p Hp Hw) as ((j & q' & ? & ? & ?) & Hnz). split.
    + exists j, q'. eauto.
    + intros k' z' ([[-> ->]|Hz']%Hback & Hpz' & Hsz'); [done|]. by apply (Hnz k' z').
Qed.

(** A process goes to sleep in [wait]. *)
Lemma family_sleep ini ps cur pr c k q : family ini ps -> ps !! cur = Some pr -> p_state pr = RUNNING ->
  (forall j z, ~ zombie_child ps cur j z) -> ps !! k = Some q -> p_parent q = Some cur ->
  family ini (<[cur := set_p_state SLEEPING (set_p_chan c pr)]> ps).
Proof.
  intros [F1 F2 F3 F4] Hcur Hst Hnz Hk Hpk. set (pr' := set_p_state SLEEPING (set_p_chan c pr)).
  assert (cur < length ps)%nat as Hlt by (by eapply lookup_lt_Some). assert (alive pr') as Ha' by (by left).
  assert (alive pr) as Ha by (right; by right).
  assert (alive q) as Haq.
  { destruct (state_cases q) as [?|[?|?]]; [done|by destruct (Hnz k q)|]. specialize (F3 k q Hk). naive_solver. }
  assert (forall j p, ps !! j = Some p -> exists p', <[cur := pr']> ps !! j = Some p' /\ p_parent p' = p_parent p /\ (alive p -> alive p')) as Hto.
  { intros j p Hp. destruct (decide (cur = j)) as [<-|Hne].
    - rewrite list_lookup_insert_eq by done. exists pr'. split_and!; [done|by simplify_eq|done].
    - rewrite list_lookup_insert_ne by done. eauto. }
  assert (forall j p, <[cur := pr']> ps !! j = Some p -> j = cur /\ p = pr' \/ j <> cur /\ ps !! j = Some p) as Hback.
  { intros j p. destruct (decide (cur = j)) as [<-|Hne]; [rewrite list_lookup_insert_eq by done|rewrite list_lookup_insert_ne by done]; naive_solver. }
  split.
  - destruct F1 as (p & Hp & Hp1 & Hn). destruct (Hto ini p Hp) as (p' & ? & E & ?). exists p'. split_and!; [done|auto|by rewrite E].
  - intros j p Hp Hne Hs. assert (exists p0, ps !! j = Some p0 /\ p_parent p = p_parent p0 /\ (alive p0 \/ p_state p0 = ZOMBIE)) as (p0 & Hp0 & -> & Hs0).
    { apply Hback in Hp as [[-> ->]|[_ Hp]]; eauto. }
    destruct (F2 j p0 Hp0 Hne Hs0) as (j' & q' & ? & ? & Hq' & ?). destruct (Hto j' q' Hq') as (q1 & ? & _ & ?). exists j', q1. eauto.
  - intros j p [[-> ->]|[_ Hp]]%Hback Hs; [by destruct Hs|eauto].
  - assert (forall i, (forall j z, ~ zombie_child ps i j z) -> forall j z, ~ zombie_child (<[cur := pr']> ps) i j z) as Hzs.
    { intros i Hi j z ([[-> ->]|[_ Hz]]%Hback & Hpz & Hsz); [done|]. by apply (Hi j z). }
    intros i p [[-> ->]|[_ Hp]]%Hback Hw.
    + split; [|by apply Hzs]. destruct (Hto k q Hk) as (q' & ? & E & ?). exists k, q'. rewrite E. auto.
    + destruct (F4 i p Hp Hw) as ((j & q' & Hj & Hpj & Haj) & Hi). split; [|by apply Hzs].
      destruct (Hto j q' Hj) as (q1 & ? & E & ?). exists j, q1. rewrite E. auto.
Qed.

(** What happens to the others when [cur] exits. *)
Definition bereaved (cur ini : nat) (b : bool) (p : proc) : proc := wake_if b (ChProc ini) (orphan cur ini p).

Lemma bereaved_parent cur ini b p :
  p_parent (bereaved cur ini b p) = if decide (p_parent p = Some cur) then Some ini else p_parent p.
Proof. unfold bereaved, wake_if, orphan. destruct b; rewrite ?wakeup1_parent; by destruct (decide _). Qed.
Lemma bereaved_other cur ini b p j : p_parent p = Some j -> j <> cur -> p_parent (bereaved cur ini b p) = Some j.
Proof. intros E Hne. rewrite bereaved_parent, decide_False; [done|]. rewrite E. congruence. Qed.
Lemma bereaved_milder cur ini b k p : let p' := bereaved cur ini b p in
  (alive p' <-> alive p) /\ (p_state p' = ZOMBIE <-> p_state p = ZOMBIE) /\ (in_wait k p' -> in_wait k p).
Proof.
  assert ((alive (orphan cur ini p) <-> alive p) /\ (p_state (orphan cur ini p) = ZOMBIE <-> p_state p = ZOMBIE) /\
    (in_wait k (orphan cur ini p) -> in_wait k p)) as (H1 & H2 & H3) by (unfold orphan; by destruct (decide _)).
  unfold bereaved, wake_if. destruct b; [|done].
  destruct (milder_wakeup (ChProc ini) k (orphan cur ini p)) as (_ & E1 & E2 & E3). cbv zeta. rewrite E1, E2. auto.
Qed.
Lemma bereaved_init cur ini p : ~ in_wait ini (bereaved cur ini true p).
Proof.
  unfold bereaved, wake_if, wakeup1_proc. destruct (_ && _) eqn:E; [by intros [? _]|]. intros [E1 E2].
  by rewrite (bool_decide_eq_true_2 _ E1), (bool_decide_eq_true_2 _ E2) in E.
Qed.

(** The parent has been woken; the children are handed on. *)
Lemma family_handed_on ini ps cur pr j : family ini ps -> ps !! cur = Some pr -> p_state pr = RUNNING -> cur <> ini ->
  p_parent pr = Some j -> (forall q, ps !! j = Some q -> ~ in_wait j q) ->
  family ini (alter (set_p_state ZOMBIE) cur (handed_on cur ini ps)).
Proof.
  intros [F1 F2 F3 F4] Hcur Hst Hci Hj Hjw. unfold handed_on. set (b := existsb _ ps). rewrite <- list_fmap_compose.
  change (wake_if b (ChProc ini) ∘ orphan cur ini) with (bereaved cur ini b). set (f := bereaved cur ini b). set (ps' := alter _ cur _).
  assert (forall k p, k <> cur -> ps !! k = Some p -> ps' !! k = Some (f p)) as Hto.
  { intros k p Hne Hp. unfold ps'. by rewrite list_lookup_alter_ne, list_lookup_fmap, Hp. }
  assert (forall k p', ps' !! k = Some p' -> k = cur /\ p' = set_p_state ZOMBIE (f pr) \/
    k <> cur /\ exists p, ps !! k = Some p /\ p' = f p) as Hback.
  { intros k p'. unfold ps'. destruct (decide (cur = k)) as [<-|Hne].
    - rewrite list_lookup_alter_eq, list_lookup_fmap, Hcur. cbn. intros [= <-]. by left.
    - rewrite list_lookup_alter_ne, list_lookup_fmap by done. destruct (ps !! k) as [p|]; [|done]. cbn. intros [= <-]. eauto 10. }
  destruct (F2 cur pr Hcur Hci) as (j' & qj & Ej & Hjc & Hqj & Haj); [left; right; by right|].
  assert (j' = j) as -> by congruence. clear Ej. destruct F1 as (pi & Hpi & Hai & Hni). split.
  - exists (f pi). split_and!; [by apply Hto|by apply (bereaved_milder cur ini b 0)|].
    unfold f. rewrite bereaved_parent, decide_False; [done|]. by rewrite Hni.
  - intros k p' [[-> ->]|(Hkc & p & Hp & ->)]%Hback Hki Hs.
    + exists j, (f qj). split_and!; [by apply bereaved_other|done|by apply Hto|by apply (bereaved_milder cur ini b 0)].
    + destruct (F2 k p Hp Hki) as (i & q & Hi & Hik & Hq & Haq).
      { destruct (bereaved_milder cur ini b 0 p) as (Ea & Ez & _). destruct Hs; [left; by apply Ea|right; by apply Ez]. }
      destruct (decide (i = cur)) as [->|Hic].
      * exists ini, (f pi). unfold f at 1. rewrite bereaved_parent, decide_True by done.
        split_and!; [done|done|by apply Hto|by apply (bereaved_milder cur ini b 0)].
      * exists i, (f q). split_and!; [by apply bereaved_other|done|by apply Hto|by apply (bereaved_milder cur ini b 0)].
  - intros k p' [[-> ->]|(Hkc & p & Hp & ->)]%Hback Hs; [by destruct Hs|]. unfold f in *. rewrite bereaved_parent.
    rewrite (F3 k p Hp); [by rewrite decide_False|]. destruct (bereaved_milder cur ini b 0 p) as (Ea & Ez & _).
    destruct (state_cases p) as [Hc|[Hc|Hc]]; [| |done].
    + apply Ea, alive_not_free in Hc. destruct Hc, Hs; congruence.
    + apply Ez in Hc. rewrite Hc in Hs. by destruct Hs.
  - intros i p' [[-> ->]|(Hic & p & Hp & ->)]%Hback Hw; [by destruct Hw|].
    pose proof (proj2 (proj2 (bereaved_milder cur ini b i p)) Hw) as Hw0.
    destruct (F4 i p Hp Hw0) as ((k & q & Hq & Hpq & Haq) & Hnz).
    assert (i <> j) as Hij by (intros ->; by apply (Hjw p)). split.
    + exists k, (f q). split_and!; [apply Hto; [congruence|done]|by apply bereaved_other|by apply (bereaved_milder cur ini b 0)].
    + intros k' z' ([[-> ->]|(Hkc & z & Hz & ->)]%Hback & Hpz & Hsz).
      * change (p_parent (f pr) = Some i) in Hpz. unfold f in Hpz. rewrite (bereaved_other _ _ _ _ j) in Hpz by done. congruence.
      * apply (proj1 (proj2 (bereaved_milder cur ini b 0 z))) in Hsz. unfold f in Hpz. rewrite bereaved_parent in Hpz. destruct (decide _) as [Ec|_].
        -- assert (i = ini) as -> by congruence. assert (b = true) as Hb; [|apply (bereaved_init cur ini p); by rewrite <- Hb].
           apply existsb_exists. exists z. split; [by eapply list_elem_of_In, list_elem_of_lookup_2|]. unfold is_zombie_of.
           by rewrite !bool_decide_eq_true_2.
        -- by apply (Hnz k' z).
Qed.

(** A process exits. *)
Lemma family_exit ini ps cur pr : family ini ps -> ps !! cur = Some pr -> p_state pr = RUNNING -> cur <> ini ->
  family ini (exited cur ini (p_parent pr) ps).
Proof.
  intros HF Hcur Hst Hci. destruct (fa_parent _ _ HF cur pr Hcur Hci) as (j & q & Hj & Hjc & Hq & Haq); [left; right; by right|].
  unfold exited. rewrite Hj. set (w := wake_parent (Some j)).
  assert (mild ps (w <$> ps)) as Hm by (apply mild_fmap; intros; apply milder_wakeup).
  assert (w pr = pr) as Hw by (unfold w; cbn; unfold wakeup1_proc; by rewrite Hst).
  apply (family_handed_on ini _ cur pr j); [by eapply family_mild| |done|done|done|].
  - rewrite list_lookup_fmap, Hcur. exact (f_equal Some Hw).
  - intros q'. rewrite list_lookup_fmap, Hq. cbn. intros [= <-]. unfold w, wake_parent, wakeup1_proc.
    destruct (_ && _) eqn:E; [by intros [? _]|]. intros [E1 E2].
    by rewrite (bool_decide_eq_true_2 _ E1), (bool_decide_eq_true_2 _ E2) in E.
Qed.
End tables.

(** ** The functions that write the table *)

(** A process of the table runs on this processor, in no critical section. *)
Record runs {T} `{HasMachine T} (s : kernel T) (cur : nat) (v : kview) (pr : proc) : Prop := {
  ru_calm : calm s cur v;
  ru_depth : depth (mach s) = 0;
  ru_proc : v_procs v !! cur = Some pr;
  ru_running : p_state pr = RUNNING
}.
Definition runs_holding (l : lockid) (m : machine) (cur : nat) (pr : proc) : Prop :=
  holds l m /\ depth m = 1 /\ curp m = Some cur /\ procs m !! cur = Some pr /\ p_state pr = RUNNING.
Definition waits_for_child (c : chan) : Prop := exists i, c = ChProc i.

(** How one call changes the table, from any state the function can be called
    in: the rest of the state, the processor and the process that calls are
    those of the call.  [init] is in slot [ini]. *)
Inductive table_step {T} `{Journal T} (kend kdata fra tra : Z) (ini : nat) : list proc -> list proc -> Prop :=
| ts_fork (s s' : kernel T) cur v pr fl tabs ents ip r : runs s cur v pr -> fork_ready kend s cur v pr fl tabs ents ip ->
    fork kend kdata fra tra s = Ok r s' -> table_step kend kdata fra tra ini (procs (mach s)) (procs (mach s'))
| ts_exit (s s' : kernel T) cur v pr : runs s cur v pr -> cur <> ini ->
    exit_table cur (Some ini) s = Blocked s' -> table_step kend kdata fra tra ini (procs (mach s)) (procs (mach s'))
| ts_wait (s s' : kernel T) cur v pr fl r : runs s cur v pr -> wait_ready kend s cur v pr fl ->
    wait kend s = Ok r s' -> table_step kend kdata fra tra ini (procs (mach s)) (procs (mach s'))
| ts_wait_sleep (s s' : kernel T) cur v pr fl : runs s cur v pr -> wait_ready kend s cur v pr fl ->
    wait kend s = Blocked s' -> table_step kend kdata fra tra ini (procs (mach s)) (procs (mach s'))
| ts_sleep m m' cur pr c l : runs_holding l m cur pr -> l <> LPtable -> ~ waits_for_child c ->
    sleep c (Some l) m = Blocked m' -> table_step kend kdata fra tra ini (procs m) (procs m')
| ts_resume m m' i pr l : holds LPtable m -> l <> LPtable -> procs m !! i = Some pr -> p_state pr = RUNNING ->
    sleep_resumed i l m = Ok tt m' -> table_step kend kdata fra tra ini (procs m) (procs m')
| ts_wakeup m m' c : mach_ok m -> lock_free m LPtable ->
    wakeup c m = Ok tt m' -> table_step kend kdata fra tra ini (procs m) (procs m')
| ts_kill m m' pid r : quiet m -> length (procs m) = NPROC ->
    kill pid m = Ok r m' -> table_step kend kdata fra tra ini (procs m) (procs m')
| ts_yield m m' cur pr : quiet m -> depth m = 0 -> curp m = Some cur -> procs m !! cur = Some pr -> p_state pr = RUNNING ->
    yield m = Blocked m' -> table_step kend kdata fra tra ini (procs m) (procs m')
| ts_schedule (s s' : kernel T) c from r : in_sched c s -> (from <= NPROC)%nat ->
    scheduler_from c from s = Ok r s' -> table_step kend kdata fra tra ini (procs (mach s)) (procs (mach s')).

Section steps.
Context {T : Type} `{Journal T}.
Implicit Types (s : kernel T) (v : kview).

Lemma runs_procs s cur v pr : runs s cur v pr -> procs (mach s) = v_procs v.
Proof. intros Hr. apply (ca_procs _ _ _ (ru_calm _ _ _ _ Hr)). Qed.
Lemma runs_at s cur v pr : runs s cur v pr -> procs (mach s) !! cur = Some pr.
Proof. intros Hr. rewrite (runs_procs _ _ _ _ Hr). apply Hr. Qed.

Lemma milder_state k p st : (p_state p = RUNNING \/ p_state p = RUNNABLE \/ p_state p = SLEEPING) -> st = RUNNING \/ st = RUNNABLE ->
  milder k p (set_p_state st p).
Proof.
  intros Hp Hst. assert (alive p) as Ha by (unfold alive; naive_solver).
  assert (alive (set_p_state st p)) as Ha' by (unfold alive; cbn; naive_solver).
  split_and!; [done|done| |].
  - split; intros E; [by apply alive_not_zombie in Ha'|by apply alive_not_zombie in Ha].
  - intros [E _]. cbn in E. destruct Hst; congruence.
Qed.

Lemma milder_sleep k p c : p_state p = RUNNING -> ~ waits_for_child c -> milder k p (set_p_state SLEEPING (set_p_chan (Some c) p)).
Proof.
  intros Hp Hc. split_and!; unfold alive; cbn; rewrite ?Hp; [done|naive_solver|done|]. intros [_ [= E]]. destruct Hc. by exists k.
Qed.

Lemma milder_killed k p : milder k p (killed_proc p).
Proof.
  unfold killed_proc. destruct (decide (p_state p = SLEEPING)) as [E|E].
  - rewrite (bool_decide_eq_true_2 _ E). apply (milder_state k (set_p_killed 1 p)); cbn; auto.
  - rewrite (bool_decide_eq_false_2 _ E). by split_and!.
Qed.

Lemma step_fork kend kdata fra tra ini s s' cur v pr fl tabs ents ip r :
  KERNBASE < kend -> kdata mod PGSIZE = 0 -> KERNLINK < kdata < KERNBASE + PHYSTOP ->
  runs s cur v pr -> fork_ready kend s cur v pr fl tabs ents ip -> fork kend kdata fra tra s = Ok r s' ->
  family ini (procs (mach s)) -> family ini (procs (mach s')).
Proof.
  intros He Hd Hk Hr Hf Hrun HF. pose proof (runs_at _ _ _ _ Hr) as Hcur. pose proof (runs_procs _ _ _ _ Hr) as Hps. rewrite Hps in *.
  assert (wp (fork kend kdata fra tra) (fun _ s' => family ini (procs (mach s'))) s) as Hw.
  { eapply wp_fork; [done|done|done|exact Hf| |].
    - intros s1 v1 fl1 Hc1 _ _ _ _ Hsame _. rewrite (ca_procs _ _ _ Hc1). eapply family_mild; [exact HF|]. split.
      { rewrite (calm_view _ _ _ Hc1). symmetry. apply (calm_view s cur), Hr. }
      intros k p p' Hp Hp'. destruct (Hsame k p Hp) as (q & Hq & Est & Epar & Eq). assert (q = p') as -> by congruence.
      unfold milder, alive, in_wait. rewrite Est, Epar. split_and!; try done. intros [Hsl ?]. assert (p' = p) as -> by (apply Eq; by rewrite Hsl). done.
    - intros s1 v1 np q c ks fl0 fl' d tabs' ents' ents0 _ Hc1 (Hnp & Hu & _) Hp1 (Hcs & _ & Hcp & _) _ _ _ _ _ _.
      rewrite (ca_procs _ _ _ Hc1), Hp1. eapply family_fork; [exact HF|exact Hcur| |exact Hnp|done|done|done].
      right. right. apply Hr. }
  unfold wp in Hw. by rewrite Hrun in Hw.
Qed.

Lemma step_exit ini s s' cur v pr : runs s cur v pr -> cur <> ini -> exit_table cur (Some ini) s = Blocked s' ->
  family ini (procs (mach s)) -> family ini (procs (mach s')).
Proof.
  intros Hr Hci Hrun HF. pose proof (runs_procs _ _ _ _ Hr) as Hps. rewrite Hps in HF.
  assert (wpb (exit_table cur (Some ini)) (fun _ _ => True) (fun s' => family ini (procs (mach s'))) s) as Hw.
  { eapply wpb_exit_table; [apply Hr..|]. intros s1 Hh1. rewrite (he_procs _ _ _ Hh1). eapply family_exit; [done|apply Hr|apply Hr|done]. }
  unfold wpb in Hw. by rewrite Hrun in Hw.
Qed.

Lemma step_wait kend ini s cur v pr fl : KERNBASE < kend -> runs s cur v pr -> wait_ready kend s cur v pr fl ->
  family ini (procs (mach s)) ->
  wpb (wait kend) (fun _ s' => family ini (procs (mach s'))) (fun s' => family ini (procs (mach s'))) s.
Proof.
  intros He Hr Hwr HF. pose proof (runs_procs _ _ _ _ Hr) as Hps. rewrite Hps in HF. eapply wpb_wait; [done|exact Hwr|..].
  - intros i z all s1 fl' Hz _ _ Hc1 _ _ _ _. rewrite (ca_procs _ _ _ Hc1). by eapply family_reap.
  - intros s1 _ _ Hc1 _. by rewrite (ca_procs _ _ _ Hc1).
  - intros s1 j q Hno Hj Hp _ Hh1. rewrite (he_procs _ _ _ Hh1). eapply family_sleep; [done|apply Hr|apply Hr|done|done|done].
Qed.
End steps.

Section invariant.
Context {T : Type} `{Journal T}.
Variables kend kdata fra tra : Z.
Hypothesis kend_ok : KERNBASE < kend.
Hypothesis kdata_page : kdata mod PGSIZE = 0.
Hypothesis kdata_ok : KERNLINK < kdata < KERNBASE + PHYSTOP.

Lemma family_step ini ps ps' : table_step (T := T) kend kdata fra tra ini ps ps' -> family ini ps -> family ini ps'.
Proof.
  intros Hst HF. destruct Hst as [s s' cur v pr fl tabs ents ip r Hr Hfr Hrun|s s' cur v pr Hr Hci Hrun|s s' cur v pr fl r Hr Hwr Hrun|
    s s' cur v pr fl Hr Hwr Hrun|m m' cur pr c l (Hh & Hd & Hc & Hp & Hrs) Hl Hch Hrun|m m' i pr l Hh Hl Hp Hrs Hrun|m m' c Hok Hf Hrun|
    m m' pid r Hq Hlen Hrun|m m' cur pr Hq Hd Hc Hp Hrs Hrun|s s' c from r Hs Hfrom Hrun].
  - by eapply step_fork.
  - by eapply step_exit.
  - pose proof (step_wait kend ini s cur v pr fl kend_ok Hr Hwr HF) as Hw. unfold wpb in Hw. by rewrite Hrun in Hw.
  - pose proof (step_wait kend ini s cur v pr fl kend_ok Hr Hwr HF) as Hw. unfold wpb in Hw. by rewrite Hrun in Hw.
  - assert (wpb (sleep c (Some l)) (fun _ _ => True) (fun m' => family ini (procs m')) m) as Hw.
    { eapply wpb_sleep_lock; [done..|]. intros m1 _ _ _ ->. eapply family_mild; [done|]. eapply mild_insert; [done|by apply milder_sleep]. }
    unfold wpb in Hw. by rewrite Hrun in Hw.
  - assert (wp (sleep_resumed i l) (fun _ m' => family ini (procs m')) m) as Hw.
    { eapply wp_sleep_resumed; [done..|]. intros m1 _ ->. eapply family_mild; [done|]. eapply mild_insert; [done|].
      split_and!; [done|done|done|]. by intros [_ ?]. }
    unfold wp in Hw. by rewrite Hrun in Hw.
  - assert (wp (wakeup c) (fun _ m' => family ini (procs m')) m) as Hw.
    { wp_apply (wakeup_spec m c Hok Hf). intros [] m1 (_ & _ & _ & _ & _ & _ & ->). eapply family_mild; [done|].
      apply mild_fmap. intros. apply milder_wakeup. }
    unfold wp in Hw. by rewrite Hrun in Hw.
  - assert (wp (kill pid) (fun _ m' => family ini (procs m')) m) as Hw.
    { apply wp_kill; [done|done| |by intros m1 _ _ ->]. intros m1 i p _ Hi _ _ ->. eapply family_mild; [done|].
      rewrite (alter_at i p _ _ Hi). eapply mild_insert; [done|apply milder_killed]. }
    unfold wp in Hw. by rewrite Hrun in Hw.
  - assert (wpb yield (fun _ _ => True) (fun m' => family ini (procs m')) m) as Hw.
    { eapply wpb_yield; [done..|]. intros m1 _ _ _ ->. eapply family_mild; [done|]. eapply mild_insert; [done|apply milder_state; auto]. }
    unfold wpb in Hw. by rewrite Hrun in Hw.
  - assert (wp (scheduler_from c from) (fun _ s' => family ini (procs (mach s'))) s) as Hw.
    { apply wp_scheduler_from; [done|done| |by intros s1 _ _ ->]. intros i p s1 (_ & Hp & Hrs & _) Hsw. rewrite (sw_procs _ _ _ _ _ Hsw).
      eapply family_mild; [done|]. eapply mild_insert; [done|apply milder_state; auto]. }
    unfold wp in Hw. by rewrite Hrun in Hw.
Qed.
End invariant.

(** C17: through any sequence of calls of [fork], [exit], [wait], [sleep],
    [wakeup], [kill], [yield] and the scheduler, by whichever processes, the
    processes stay a family: [init] is alive, the parent of every process that
    runs or has exited is alive, so each that has exited has somebody to reap
    it; and a process that sleeps in [wait] has a child alive and none that has
    exited, so no exit is missed and nobody waits for a child that will not
    come. *)
Theorem family_invariant {T} `{Journal T} kend kdata fra tra ini ps ps' :
  KERNBASE < kend -> kdata mod PGSIZE = 0 -> KERNLINK < kdata < KERNBASE + PHYSTOP ->
  family ini ps -> rtc (table_step (T := T) kend kdata fra tra ini) ps ps' -> family ini ps'.
Proof.
  intros He Hd Hk HF Hrtc. induction Hrtc as [|ps ps1 ps' Hst _ IH]; [done|]. apply IH. by eapply family_step.
Qed.

(** *** A child exits while its parent waits *)

Definition fx_init : proc := set_p_chan (Some (ChProc 0)) (set_p_state SLEEPING px_proc).
Definition fx_child : proc := set_p_pid 8 (set_p_parent (Some 0%nat) px_proc).
Definition fx_procs : list proc := fx_init :: fx_child :: replicate 62 px_free.
Definition fx_mach : machine := Machine true 0 [Cpu 0 0 false (Some 1%nat)] ∅ ∅ fx_procs.
Definition fx : kernel kstate := set_mach fx_mach px.
Definition fx_view : kview := KView fx_procs (k_mem px) px_files ∅ 8 xic.

Lemma fx_lookup k p : fx_procs !! k = Some p -> k = 0%nat /\ p = fx_init \/ k = 1%nat /\ p = fx_child \/ p = px_free.
Proof.
  destruct k as [|[|k]]; [cbn; intros [= <-]; auto|cbn; intros [= <-]; auto|].
  change (fx_procs !! S (S k)) with (replicate 62 px_free !! k). intros [-> _]%lookup_replicate. auto.
Qed.
Lemma fx_family : family 0 fx_procs.
Proof.
  split.
  - exists fx_init. split_and!; [done|by left|done].
  - intros k p [[-> ->]|[[-> ->]| ->]]%fx_lookup Hne Hs; [done| |by destruct Hs as [[?|[?|?]]|?]].
    exists 0%nat, fx_init. split_and!; [done|done|done|by left].
  - intros k p [[-> ->]|[[-> ->]| ->]]%fx_lookup Hs; [by destruct Hs|by destruct Hs|done].
  - intros k p [[-> ->]|[[-> ->]| ->]]%fx_lookup Hw; [|by destruct Hw|by destruct Hw]. split.
    + exists 1%nat, fx_child. split_and!; [done|done|by right; right].
    + by intros j z ([[-> ->]|[[-> ->]| ->]]%fx_lookup & ? & ?).
Qed.
Lemma fx_runs : runs fx 1 fx_view fx_child.
Proof. split; [by split|done|done|done]. Qed.

Lemma family_invariant_witness : exists s', exit_table 1 (Some 0%nat) fx = Blocked s' /\ family 0 (procs (mach s')).
Proof.
  assert (wpb (exit_table 1 (Some 0%nat)) (fun _ _ => False) (fun _ => True) fx) as Hw by (eapply wpb_exit_table; [apply fx_runs..|done]).
  apply wpb_blocked in Hw as (s' & E & _). exists s'. split; [exact E|].
  assert (table_step (T := kstate) vx_end vx_data 0x80103a00 0x80105f00 0 fx_procs (procs (mach s'))) as Hst.
  { change fx_procs with (procs (mach fx)). eapply ts_exit; [apply fx_runs|done|exact E]. }
  exact (family_invariant (T := kstate) vx_end vx_data 0x80103a00 0x80105f00 0 fx_procs _ eq_refl eq_refl (conj eq_refl eq_refl) fx_family
    (rtc_once _ _ Hst)).
Defined.
