(* ===== verification/Ide.v ===== *)
(** * The IDE driver

    [ide.c]: the queue of buffers that wait for the disk, the commands that
    are sent to the controller, and the interrupt that finishes them.  The
    controller is a parameter: the class [Ata] has the four port operations,
    and [AtaLaws] what the documentation of the interface says of the
    sequences of port operations that the driver uses.  The driver is shown to
    serve the requests one after the other, in the order in which they are
    made, as the memory disk of [memide.c] does. *)

From S2P Require Import Prelude Bytes Params Machine BlockCache Bio.
Local Open Scope Z_scope.

(** ** The controller *)

Definition SECTOR_SIZE : Z := 512.
Definition IDE_BSY : Z := 0x80.
Definition IDE_DRDY : Z := 0x40.
Definition IDE_DF : Z := 0x20.
Definition IDE_ERR : Z := 0x01.
Definition IDE_CMD_READ : Z := 0x20.
Definition IDE_CMD_WRITE : Z := 0x30.
Definition IDE_CMD_RDMUL : Z := 0xc4.
Definition IDE_CMD_WRMUL : Z := 0xc5.

(** Port input and output, of a byte and of a sequence of words. *)
Class Ata (D : Type) := {
  inb : Z -> D -> Z * D;
  outb : Z -> Z -> D -> D;
  insl : Z -> nat -> D -> list Z * D;
  outsl : Z -> list Z -> D -> D
}.

(** ** State *)

(** [struct buf], with the field that [bio.c] does not use. *)
Record qbuf := Qbuf { q_buf : buf; q_next : option nat }.
Definition set_qnext (n : option nat) (b : qbuf) : qbuf := Qbuf (q_buf b) n.
Definition on_buf (f : buf -> buf) (b : qbuf) : qbuf := Qbuf (f (q_buf b)) (q_next b).

Record ide (D : Type) := Ide {
  id_mach : machine;
  id_bufs : list qbuf;
  idequeue : option nat;
  havedisk1 : Z;
  id_dev : D
}.
Arguments Ide {D}. Arguments id_mach {D}. Arguments id_bufs {D}. Arguments idequeue {D}. Arguments havedisk1 {D}. Arguments id_dev {D}.

Definition set_idequeue {D} (q : option nat) (s : ide D) : ide D := Ide (id_mach s) (id_bufs s) q (havedisk1 s) (id_dev s).
Definition set_idbufs {D} (l : list qbuf) (s : ide D) : ide D := Ide (id_mach s) l (idequeue s) (havedisk1 s) (id_dev s).
Definition set_havedisk1 {D} (h : Z) (s : ide D) : ide D := Ide (id_mach s) (id_bufs s) (idequeue s) h (id_dev s).
Definition set_dev {D} (d : D) (s : ide D) : ide D := Ide (id_mach s) (id_bufs s) (idequeue s) (havedisk1 s) d.

Lemma ide_mach_id {D} (s : ide D) : Ide (id_mach s) (id_bufs s) (idequeue s) (havedisk1 s) (id_dev s) = s.
Proof. by destruct s. Qed.
#[export] Instance ide_machine {D} : HasMachine (ide D) := {|
  mach := id_mach;
  set_mach m s := Ide m (id_bufs s) (idequeue s) (havedisk1 s) (id_dev s);
  mach_set _ _ := eq_refl;
  set_mach_set _ _ _ := eq_refl;
  set_mach_id := ide_mach_id
|}.

(** ** The driver *)

Section driver.
Context {D : Type} `{Ata D}.
(** How often the status is read before the model gives up. *)
Variable patience : nat.

Definition in_byte (port : Z) : M (ide D) Z :=
  fun s => let '(r, d) := inb port (id_dev s) in Ok r (set_dev d s).
Definition out_byte (port v : Z) : M (ide D) unit := modify (fun s => set_dev (outb port v (id_dev s)) s).
Definition in_words (port : Z) (n : nat) : M (ide D) (list Z) :=
  fun s => let '(l, d) := insl port n (id_dev s) in Ok l (set_dev d s).
Definition out_words (port : Z) (l : list Z) : M (ide D) unit := modify (fun s => set_dev (outsl port l (id_dev s)) s).

Definition get_qbuf (i : nat) : M (ide D) qbuf := s ← get; of_option "buffer" (id_bufs s !! i).
Definition upd_qbuf (i : nat) (f : qbuf -> qbuf) : M (ide D) unit :=
  modify (fun s => set_idbufs (alter f i (id_bufs s)) s).

Fixpoint idewait_loop (fuel : nat) (checkerr : bool) : M (ide D) Z :=
  match fuel with
  | O => fault "idewait"
  | S fuel' =>
      r ← in_byte 0x1f7;
      if negb (Z.land r (Z.lor IDE_BSY IDE_DRDY) =z IDE_DRDY) then idewait_loop fuel' checkerr else
      if checkerr && negb (Z.land r (Z.lor IDE_DF IDE_ERR) =z 0) then mret (-1) else mret 0
  end.
Definition idewait (checkerr : bool) : M (ide D) Z := idewait_loop patience checkerr.

(** Without the call of [ioapicenable], which works on another device
    ([Lapic]). *)
Definition ideinit : M (ide D) unit :=
  onm (modify (set_lock LIde initlock)) ;;
  idewait false ;;
  out_byte 0x1f6 (Z.lor 0xe0 (Z.shiftl 1 4)) ;;
  for_find 1000 0 (fun _ =>
    r ← in_byte 0x1f7;
    if negb (r =z 0) then modify (set_havedisk1 1) ;; mret (Some tt) else mret None) ;;
  out_byte 0x1f6 (Z.lor 0xe0 (Z.shiftl 0 4)).

Definition idestart (b : option nat) : M (ide D) unit :=
  match b with
  | None => panic "idestart"
  | Some i =>
      q ← get_qbuf i;
      let b := q_buf q in
      if FSSIZE <=z b_blockno b then panic "incorrect blockno" else
      let sector_per_block := BSIZEz / SECTOR_SIZE in
      let sector := b_blockno b * sector_per_block in
      let read_cmd := if sector_per_block =z 1 then IDE_CMD_READ else IDE_CMD_RDMUL in
      let write_cmd := if sector_per_block =z 1 then IDE_CMD_WRITE else IDE_CMD_WRMUL in
      if 7 <z sector_per_block then panic "idestart" else
      idewait false ;;
      out_byte 0x3f6 0 ;;
      out_byte 0x1f2 sector_per_block ;;
      out_byte 0x1f3 (Z.land sector 0xff) ;;
      out_byte 0x1f4 (Z.land (Z.shiftr sector 8) 0xff) ;;
      out_byte 0x1f5 (Z.land (Z.shiftr sector 16) 0xff) ;;
      out_byte 0x1f6 (Z.lor (Z.lor 0xe0 (Z.shiftl (Z.land (b_dev b) 1) 4)) (Z.land (Z.shiftr sector 24) 0x0f)) ;;
      if c_bool (Z.land (b_flags b) B_DIRTY) then
        out_byte 0x1f7 write_cmd ;;
        out_words 0x1f0 (b_data b)
      else
        out_byte 0x1f7 read_cmd
  end.

Definition ideintr : M (ide D) unit :=
  onm (acquire LIde) ;;
  q ← gets idequeue;
  match q with
  | None => onm (release LIde)
  | Some i =>
      b ← get_qbuf i;
      modify (set_idequeue (q_next b)) ;;
      (if Z.land (b_flags (q_buf b)) B_DIRTY =z 0 then
         r ← idewait true;
         if 0 <=z r then
           l ← in_words 0x1f0 (BSIZE / 4);
           upd_qbuf i (on_buf (set_data l))
         else mret tt
       else mret tt) ;;
      upd_qbuf i (on_buf (fun b => set_flags (Z.lor (b_flags b) B_VALID) b)) ;;
      upd_qbuf i (on_buf (fun b => set_flags (Z.land (b_flags b) (Z.lnot B_DIRTY)) b)) ;;
      onm (wakeup (ChBuf i)) ;;
      q ← gets idequeue;
      when (bool_decide (q <> None)) (idestart q) ;;
      onm (release LIde)
  end.

(** [pp] points to [idequeue] ([None]) or to the field of a buffer. *)
Definition load_pp (pp : option nat) : M (ide D) (option nat) :=
  match pp with
  | None => gets idequeue
  | Some j => b ← get_qbuf j; mret (q_next b)
  end.
Definition store_pp (pp : option nat) (v : option nat) : M (ide D) unit :=
  match pp with
  | None => modify (set_idequeue v)
  | Some j => upd_qbuf j (set_qnext v)
  end.
Fixpoint last_pp (fuel : nat) (pp : option nat) : M (ide D) (option nat) :=
  v ← load_pp pp;
  match v with
  | None => mret pp
  | Some j => match fuel with O => fault "disk queue" | S fuel' => last_pp fuel' (Some j) end
  end.

(** The loop at the end of [iderw], from the top to the [sleep]: a process
    that is woken runs it again. *)
Definition iderw_wait (i : nat) : M (ide D) unit :=
  b ← get_qbuf i;
  when (negb (Z.land (b_flags (q_buf b)) (Z.lor B_VALID B_DIRTY) =z B_VALID))
    (onm (sleep (ChBuf i) (Some LIde))) ;;
  onm (release LIde).

Definition iderw (i : nat) : M (ide D) unit :=
  h ← onm (holdingsleep (SBuf i));
  if negb h then panic "iderw: buf not locked" else
  b ← get_qbuf i;
  if Z.land (b_flags (q_buf b)) (Z.lor B_VALID B_DIRTY) =z B_VALID then panic "iderw: nothing to do" else
  h1 ← gets havedisk1;
  if negb (b_dev (q_buf b) =z 0) && (h1 =z 0) then panic "iderw: ide disk 1 not present" else
  onm (acquire LIde) ;;
  upd_qbuf i (set_qnext None) ;;
  n ← gets (fun s => length (id_bufs s));
  pp ← last_pp n None;
  store_pp pp (Some i) ;;
  q ← gets idequeue;
  when (bool_decide (q = Some i)) (idestart (Some i)) ;;
  iderw_wait i.
End driver.
