(* ===== verification/IdeSpec.v ===== *)
(** * What the IDE driver promises

    The laws of the controller, the specifications of [iderw] and [ideintr],
    the refinement of a disk that serves one request after the other, and a
    simulated controller that satisfies the laws. *)

From S2P Require Import Prelude Bytes Params Machine BlockCache Bio BioSpec Journal Log LogSpec LogTx Crash CString Fs FsExample Kalloc Vm VmRep VmSpace VmCopy VmTheorems Pipe Kern FileC Proc ProcSpec Fork ProcTheorems Wait Sched Ide.
Local Open Scope Z_scope.

(** ** What the controller promises *)

Inductive ata_req := AtaRead (drive sector : Z) | AtaWrite (drive sector : Z) (data : list Z).

Definition write_sector (secs : Z -> Z -> list Z) (drive sector : Z) (data : list Z) : Z -> Z -> list Z :=
  fun a b => if decide (a = drive /\ b = sector) then data else secs a b.
(** The drives after a request.  [e] is how it ended: [None] without an error,
    otherwise with what the sector holds then, which after a write that failed
    can be anything. *)
Definition req_effect (r : ata_req) (e : option (list Z)) (secs : Z -> Z -> list Z) : Z -> Z -> list Z :=
  match r with
  | AtaRead _ _ => secs
  | AtaWrite drive sector data => write_sector secs drive sector (default data e)
  end.
Definition req_drive (r : ata_req) : Z := match r with AtaRead drive _ | AtaWrite drive _ _ => drive end.
Definition req_sector (r : ata_req) : Z := match r with AtaRead _ sector | AtaWrite _ sector _ => sector end.
Definition is_err (e : option (list Z)) : bool := match e with Some _ => true | None => false end.

(** The port operations that select a sector of a drive. *)
Definition select {D} `{Ata D} (drive sector : Z) (d : D) : D :=
  outb 0x1f6 (Z.lor (Z.lor 0xe0 (Z.shiftl drive 4)) (Z.land (Z.shiftr sector 24) 0x0f))
    (outb 0x1f5 (Z.land (Z.shiftr sector 16) 0xff)
      (outb 0x1f4 (Z.land (Z.shiftr sector 8) 0xff)
        (outb 0x1f3 (Z.land sector 0xff)
          (outb 0x1f2 1 (outb 0x3f6 0 d))))).

(** [sectors]: what is on the drives.  [pending]: the last command, until its
    data has been read.  [finished]: its interrupt has been raised.  [failed]:
    it ended with an error.  [polls]: how often a status is still read before
    the drive shows that it is ready. *)
Class AtaLaws (D : Type) `{Ata D} := {
  sectors : D -> Z -> Z -> list Z;
  pending : D -> option ata_req;
  finished : D -> bool;
  failed : D -> bool;
  polls : D -> nat;
  accepts (d : D) : Prop := pending d = None \/ finished d = true;
  poll_law : forall d, accepts d -> exists r d', inb 0x1f7 d = (r, d') /\
    sectors d' = sectors d /\ pending d' = pending d /\ finished d' = finished d /\ failed d' = failed d /\ polls d' = pred (polls d) /\
    (Z.land r (Z.lor IDE_BSY IDE_DRDY) = IDE_DRDY <-> polls d = 0%nat) /\
    (polls d = 0%nat -> Z.land r (Z.lor IDE_DF IDE_ERR) = 0 <-> failed d = false);
  read_law : forall d drive sector, accepts d -> polls d = 0%nat -> drive = 0 \/ drive = 1 -> 0 <= sector < 2 ^ 28 ->
    let d' := outb 0x1f7 IDE_CMD_READ (select drive sector d) in
    sectors d' = sectors d /\ pending d' = Some (AtaRead drive sector) /\ finished d' = false;
  write_law : forall d drive sector data, accepts d -> polls d = 0%nat -> drive = 0 \/ drive = 1 -> 0 <= sector < 2 ^ 28 ->
    length data = BSIZE ->
    let d' := outsl 0x1f0 data (outb 0x1f7 IDE_CMD_WRITE (select drive sector d)) in
    sectors d' = sectors d /\ pending d' = Some (AtaWrite drive sector data) /\ finished d' = false;
  data_law : forall d drive sector, pending d = Some (AtaRead drive sector) -> finished d = true -> failed d = false -> polls d = 0%nat ->
    exists d', insl 0x1f0 (BSIZE / 4) d = (sectors d drive sector, d') /\ sectors d' = sectors d /\ accepts d'
}.

(** How the request [r] ended. *)
Definition req_outcome {D} `{AtaLaws D} (d : D) (r : ata_req) : option (list Z) :=
  if failed d then Some (sectors d (req_drive r) (req_sector r)) else None.

(** The drive carries out the command, or fails to, and raises the interrupt. *)
Definition completes {D} `{AtaLaws D} (d d' : D) : Prop :=
  exists r, pending d = Some r /\ finished d = false /\
    sectors d' = req_effect r (req_outcome d' r) (sectors d) /\ pending d' = Some r /\ finished d' = true.

(** ** Specifications *)

(** The queue from [p] on. *)
Fixpoint qchain (l : list qbuf) (p : option nat) (q : list nat) : Prop :=
  match q with
  | [] => p = None
  | i :: q' => p = Some i /\ exists b, l !! i = Some b /\ qchain l (q_next b) q'
  end.

(** A buffer that can be handed to the driver. *)
Record wants (h1 : Z) (b : buf) : Prop := {
  wa_flags : Z.land (b_flags b) (Z.lor B_VALID B_DIRTY) <> B_VALID;
  wa_dev : b_dev b = 0 \/ h1 <> 0;
  wa_block : 0 <= b_blockno b < FSSIZE;
  wa_data : length (b_data b) = BSIZE
}.
Definition dirty (b : buf) : bool := c_bool (Z.land (b_flags b) B_DIRTY).
Definition request (b : buf) : ata_req :=
  if dirty b then AtaWrite (Z.land (b_dev b) 1) (b_blockno b) (b_data b) else AtaRead (Z.land (b_dev b) 1) (b_blockno b).

(** The driver and the controller, with [q] waiting. *)
Record ide_rep {D} `{AtaLaws D} (s : ide D) (q : list nat) : Prop := {
  ir_chain : qchain (id_bufs s) (idequeue s) q;
  ir_nodup : NoDup q;
  ir_wants : forall i, i ∈ q -> exists b, id_bufs s !! i = Some b /\ wants (havedisk1 s) (q_buf b);
  ir_dev : match q with
           | [] => accepts (id_dev s)
           | i :: _ => exists b, id_bufs s !! i = Some b /\ pending (id_dev s) = Some (request (q_buf b))
           end
}.

Section queue.
Implicit Types (l : list qbuf) (q : list nat).

Lemma qchain_ext l l' p q : qchain l p q -> (forall i, i ∈ q -> q_next <$> l' !! i = q_next <$> l !! i) -> qchain l' p q.
Proof.
  revert p. induction q as [|i q IH]; intros p; cbn; [done|]. intros (-> & b & Hb & Hq) He. split; [done|].
  pose proof (He i ltac:(set_solver)) as Ei. rewrite Hb in Ei. cbn in Ei. apply fmap_Some in Ei as (b' & Hb' & E).
  exists b'. split; [done|]. rewrite <- E. apply IH; [done|]. intros j Hj. apply He. set_solver.
Qed.

Lemma qchain_lookup l p q i : qchain l p q -> i ∈ q -> is_Some (l !! i).
Proof.
  revert p. induction q as [|j q IH]; intros p; cbn; [by intros _ ?%not_elem_of_nil|].
  intros (-> & b & Hb & Hq) [->|Hi]%elem_of_cons; [by eexists|by eapply IH].
Qed.

(** The last link of the queue. *)
Definition tail_pp (pp : option nat) (q : list nat) : option nat := default pp (Some <$> last q).

Lemma qchain_app l p q i b : qchain l p q -> NoDup (q ++ [i]) -> l !! i = Some b -> q_next b = None ->
  qchain (match last q with Some j => alter (set_qnext (Some i)) j l | None => l end)
    (match q with [] => Some i | _ => p end) (q ++ [i]).
Proof.
  revert p. induction q as [|j q IH]; intros p; cbn [app].
  - intros Hp _ Hi Hn. cbn. split; [done|]. by exists b.
  - intros (-> & c & Hc & Hq) [Hj Hnd]%NoDup_cons Hi Hn. cbn [qchain]. split; [done|].
    destruct q as [|k q].
    + cbn [last]. exists (set_qnext (Some i) c). rewrite list_lookup_alter_eq, Hc. split; [done|]. cbn. split; [done|].
      exists b. rewrite list_lookup_alter_ne; [done|]. intros ->. apply Hj. set_solver.
    + rewrite last_cons_cons. specialize (IH (q_next c) Hq Hnd Hi Hn). exists c. split; [|exact IH].
      destruct (last (k :: q)) as [e|] eqn:El; [|done]. rewrite list_lookup_alter_ne; [done|]. intros ->.
      apply Hj. apply elem_of_app. left. by apply last_Some_elem_of.
Qed.
End queue.

(** [holdingsleep] by the owner, with the depth of [pushcli]. *)
Lemma wp_holdingsleep_depth l m pid (Q : bool -> machine -> Prop) :
  quiet m -> curpid m = Some pid -> slock_of m l = Sleeplock 1 pid ->
  (forall m', quiet m' -> depth m' = depth m -> mrel m m' -> procs m' = procs m -> Q true m') -> wp (holdingsleep l) Q m.
Proof.
  intros [Hok Hf] Hpid Hown HQ. unfold holdingsleep. wp_step. wp_apply (acquire_spec m (LSleep l) Hok (Hf _)).
  intros [] m1 (Hr1 & Hok1 & Hd1 & Hm1 & Hl1 & Hs1 & Hp1). wp_steps.
  assert (slock_of m1 l = slock_of m l) as -> by (unfold slock_of; by rewrite Hs1).
  rewrite Hown. cbn [slocked spid]. rewrite c_bool_nz by done. wp_step.
  wp_apply (mypid_spec m1 pid Hok1); [by rewrite (mrel_curpid _ _ Hr1)|].
  intros r m2 (Hi2 & Hok2 & Hd2 & ->). pose proof (proj1 Hok). wp_steps.
  wp_apply (release_spec m2 (LSleep l) Hok2); [|lia|].
  { unfold lock_mine. by rewrite (irq_lock _ _ _ Hi2), (mrel_index _ _ (proj1 Hi2)). }
  intros [] m3 (Hr3 & Hok3 & Hd3 & Hl3 & Hl3' & Hs3 & Hp3). wp_steps. rewrite bool_decide_eq_true_2 by done.
  destruct Hi2 as (Hr2 & Hlk2 & _ & Hp2). apply HQ; [|lia|by do 2 (etrans; [eassumption|])|congruence].
  split; [done|]. intros l'. unfold lock_free. destruct (decide (l' = LSleep l)) as [->|Hne]; [by rewrite Hl3|].
  rewrite Hl3' by done. unfold lock_of. rewrite Hlk2. fold (lock_of m1 l'). rewrite Hl1 by done. apply Hf.
Qed.

Section specs.
Context {D : Type} `{AtaLaws D}.
Variable patience : nat.
Hypothesis patient : forall d : D, accepts d -> (polls d < patience)%nat.
Implicit Types (s : ide D) (d : D) (q : list nat).

(** The same state of the controller for its user. *)
Record dview d d' : Prop := {
  dv_sectors : sectors d' = sectors d;
  dv_pending : pending d' = pending d;
  dv_finished : finished d' = finished d;
  dv_failed : failed d' = failed d
}.
Lemma dview_accepts d d' : dview d d' -> accepts d -> accepts d'.
Proof. intros [_ Hp Hf _]. unfold accepts. by rewrite Hp, Hf. Qed.

Lemma wp_idewait_loop (Q : Z -> ide D -> Prop) s checkerr fuel : accepts (id_dev s) -> (polls (id_dev s) < fuel)%nat ->
  (forall d', dview (id_dev s) d' -> polls d' = 0%nat ->
     Q (if checkerr && failed (id_dev s) then -1 else 0) (set_dev d' s)) ->
  wp (idewait_loop fuel checkerr) Q s.
Proof.
  revert s. induction fuel as [|fuel IH]; intros s Ha Hp HQ; [lia|]. cbn [idewait_loop]. wp_step.
  destruct (poll_law (id_dev s) Ha) as (r & d' & E & E1 & E2 & E3 & E4 & E5 & Erdy & Eerr).
  assert (dview (id_dev s) d') as Hv by (by split). unfold in_byte, wp at 1. rewrite E.
  destruct (decide (polls (id_dev s) = 0%nat)) as [Hz|Hz].
  - rewrite (bool_decide_eq_true_2 (Z.land r _ = IDE_DRDY)) by (by apply Erdy). cbn [negb].
    specialize (HQ d' Hv ltac:(lia)). specialize (Eerr Hz). destruct checkerr; cbn [andb] in *; [|exact HQ].
    destruct (failed (id_dev s)) eqn:Ef.
    + rewrite bool_decide_eq_false_2 by (intros E0; by apply Eerr in E0). exact HQ.
    + rewrite bool_decide_eq_true_2 by (by apply Eerr). exact HQ.
  - rewrite (bool_decide_eq_false_2 (Z.land r _ = IDE_DRDY)) by (by rewrite Erdy). cbn [negb]. apply IH.
    + by eapply dview_accepts.
    + cbn. lia.
    + cbn [id_dev set_dev]. intros d'' [F1 F2 F3 F4] Hz'. rewrite E4. apply (HQ d''); [|done]. split; congruence.
Qed.

Lemma wp_idewait (Q : Z -> ide D -> Prop) s checkerr : accepts (id_dev s) ->
  (forall d', dview (id_dev s) d' -> polls d' = 0%nat ->
     Q (if checkerr && failed (id_dev s) then -1 else 0) (set_dev d' s)) ->
  wp (idewait patience checkerr) Q s.
Proof. intros Ha HQ. apply wp_idewait_loop; [done|by apply patient|done]. Qed.

Lemma drive_cases x : Z.land x 1 = 0 \/ Z.land x 1 = 1.
Proof. pose proof (Z.land_ones x 1 ltac:(lia)) as E. change (Z.ones 1) with 1 in E. change (2 ^ 1) with 2 in E. rewrite E. pose proof (Z.mod_pos_bound x 2 ltac:(done)). lia. Qed.

(** [idestart] sends the request of a buffer to the controller. *)
Lemma wp_idestart (Q : unit -> ide D -> Prop) s i b : id_bufs s !! i = Some b -> wants (havedisk1 s) (q_buf b) -> accepts (id_dev s) ->
  (forall d', sectors d' = sectors (id_dev s) -> pending d' = Some (request (q_buf b)) -> finished d' = false -> Q tt (set_dev d' s)) ->
  wp (idestart patience (Some i)) Q s.
Proof.
  intros Hb [Wf Wd [Wb Wb'] Wl] Ha HQ. unfold idestart, get_qbuf. wp_steps. eapply wp_of_option; [done|].
  change (BSIZEz / SECTOR_SIZE) with 1. cbv zeta. rewrite (bool_decide_eq_false_2 (FSSIZE <= _)) by lia.
  change (1 =z 1) with true. change (7 <z 1) with false. cbv iota. rewrite Z.mul_1_r. wp_step.
  apply wp_idewait; [done|]. intros d Hv Hz. pose proof (dview_accepts _ _ Hv Ha) as Ha'. unfold out_byte, out_words. wp_steps.
  assert (0 <= b_blockno (q_buf b) < 2 ^ 28) as Hsec by (unfold FSSIZE in *; lia).
  pose proof (drive_cases (b_dev (q_buf b))) as Hdr. unfold request, dirty in HQ.
  rewrite <- (dv_sectors _ _ Hv) in HQ. destruct (c_bool (Z.land (b_flags (q_buf b)) B_DIRTY)); wp_steps.
  - destruct (write_law d _ _ (b_data (q_buf b)) Ha' Hz Hdr Hsec Wl) as (E1 & E2 & E3). by apply HQ.
  - destruct (read_law d _ _ Ha' Hz Hdr Hsec) as (E1 & E2 & E3). by apply HQ.
Qed.

(** The loop of [iderw] ends at the last link. *)
Lemma wp_last_pp (Q : option nat -> ide D -> Prop) s fuel pp v q : (length q <= fuel)%nat ->
  (forall (K : option nat -> ide D -> Prop), K v s -> wp (load_pp pp) K s) ->
  qchain (id_bufs s) v q -> Q (tail_pp pp q) s -> wp (last_pp fuel pp) Q s.
Proof.
  revert pp v fuel. induction q as [|i q IH]; intros pp v fuel Hf Hl.
  - cbn. intros -> HQ. destruct fuel; cbn [last_pp]; wp_step; apply Hl; by wp_step.
  - cbn [qchain]. intros (-> & b & Hb & Hq) HQ. destruct fuel as [|fuel]; [cbn in Hf; lia|]. cbn [last_pp]. wp_step. apply Hl.
    eapply IH; [cbn in Hf; lia| |exact Hq|].
    + intros K HK. unfold load_pp, get_qbuf. wp_steps. eapply wp_of_option; [done|]. by wp_step.
    + unfold tail_pp in *. destruct q as [|k q]; [done|]. rewrite last_cons_cons in HQ.
      destruct (last (k :: q)) eqn:El; [done|]. by apply last_None in El.
Qed.

(** *** A request *)

(** Buffers keep their content; links may change. *)
Definition same_bufs (l l' : list qbuf) : Prop := forall j, q_buf <$> l' !! j = q_buf <$> l !! j.
Lemma same_bufs_alter l i n : same_bufs l (alter (set_qnext n) i l).
Proof.
  intros j. destruct (decide (i = j)) as [->|Hne]; [rewrite list_lookup_alter_eq|by rewrite list_lookup_alter_ne].
  by destruct (l !! j).
Qed.
Lemma same_bufs_trans l1 l2 l3 : same_bufs l1 l2 -> same_bufs l2 l3 -> same_bufs l1 l3.
Proof. intros H1 H2 j. by rewrite H2. Qed.
Lemma same_bufs_at l l' j b : same_bufs l l' -> l !! j = Some b -> exists b', l' !! j = Some b' /\ q_buf b' = q_buf b.
Proof. intros Hs Hb. specialize (Hs j). rewrite Hb in Hs. cbn in Hs. apply fmap_Some in Hs as (b' & ? & ?). eauto. Qed.

(** The links when [i] has been put at the end of the queue. *)
Definition linked (l : list qbuf) (q : list nat) (i : nat) : list qbuf :=
  let l1 := alter (set_qnext None) i l in
  match last q with Some j => alter (set_qnext (Some i)) j l1 | None => l1 end.
Lemma same_bufs_linked l q i : same_bufs l (linked l q i).
Proof.
  unfold linked. destruct (last q); [|apply same_bufs_alter]. eapply same_bufs_trans; apply same_bufs_alter.
Qed.
Lemma linked_at l q i b : l !! i = Some b -> i ∉ q -> linked l q i !! i = Some (set_qnext None b).
Proof.
  intros Hb Hi. unfold linked. destruct (last q) as [j|] eqn:El.
  - rewrite list_lookup_alter_ne, list_lookup_alter_eq, Hb; [done|]. intros ->. by apply Hi, last_Some_elem_of.
  - by rewrite list_lookup_alter_eq, Hb.
Qed.
Lemma qchain_linked l p q i b : qchain l p q -> NoDup q -> i ∉ q -> l !! i = Some b ->
  qchain (linked l q i) (match q with [] => Some i | _ => p end) (q ++ [i]).
Proof.
  intros Hq Hnd Hi Hb. eapply (qchain_app _ _ _ _ (set_qnext None b)).
  - eapply qchain_ext; [exact Hq|]. intros j Hj. rewrite list_lookup_alter_ne; [done|]. by intros ->.
  - apply NoDup_app. split_and!; [done| |apply NoDup_singleton]. set_solver.
  - by rewrite list_lookup_alter_eq, Hb.
  - done.
Qed.
Lemma qchain_length l p q : qchain l p q -> NoDup q -> (length q <= length l)%nat.
Proof.
  intros Hq Hnd. rewrite <- (length_seq (length l) 0). apply submseteq_length. apply NoDup_submseteq; [done|].
  intros i Hi. apply elem_of_seq. destruct (qchain_lookup _ _ _ _ Hq Hi) as [b Hb%lookup_lt_Some]. lia.
Qed.

(** The process [cur] has locked the buffer [i] and may sleep. *)
Record caller (m : machine) (i cur : nat) (pr : proc) : Prop := {
  cl_quiet : quiet m;
  cl_depth : depth m = 0;
  cl_cur : curp m = Some cur;
  cl_proc : procs m !! cur = Some pr;
  cl_lock : slock_of m (SBuf i) = Sleeplock 1 (p_pid pr)
}.

(** The part of [iderw] that makes the request, with [idelock] held. *)
Lemma wpb_enqueue {A} (K : M (ide D) A) Q B s q i b : ide_rep s q -> i ∉ q -> id_bufs s !! i = Some b ->
  wants (havedisk1 s) (q_buf b) ->
  (forall s', ide_rep s' (q ++ [i]) -> same_bufs (id_bufs s) (id_bufs s') -> sectors (id_dev s') = sectors (id_dev s) ->
     mach s' = mach s -> havedisk1 s' = havedisk1 s -> (q <> [] -> id_dev s' = id_dev s) ->
     (q = [] -> finished (id_dev s') = false) -> wpb K Q B s') ->
  wpb (upd_qbuf i (set_qnext None) ;;
      n ← gets (fun s => length (id_bufs s));
      pp ← last_pp n None;
      store_pp pp (Some i) ;;
      q ← gets idequeue;
      when (bool_decide (q = Some i)) (idestart patience (Some i)) ;;
      K) Q B s.
Proof.
  intros [R1 R2 R3 R4] Hi Hb Hw HQ. unfold upd_qbuf. do 2 (apply wpb_bind; wp_step). cbn [id_bufs set_idbufs]. rewrite length_alter.
  set (s1 := set_idbufs _ s). apply wpb_bind. eapply (wp_last_pp _ s1 _ _ (idequeue s) q).
  - by eapply qchain_length.
  - intros K0 HK. unfold load_pp. by wp_step.
  - eapply qchain_ext; [exact R1|]. intros j Hj. cbn [id_bufs s1 set_idbufs]. rewrite list_lookup_alter_ne; [done|]. by intros ->.
  - apply wpb_bind. set (s2 := set_idbufs (linked (id_bufs s) q i) (set_idequeue (match q with [] => Some i | _ => idequeue s end) s)).
    assert (forall (K0 : unit -> ide D -> Prop), K0 tt s2 -> wp (store_pp (tail_pp None q) (Some i)) K0 s1) as Hstore.
    { intros K0 HK. unfold s2, linked in HK. unfold tail_pp. destruct q as [|k q]; [exact HK|].
      destruct (last (k :: q)) as [j|] eqn:El; [exact HK|by apply last_None in El]. }
    apply Hstore. apply wpb_bind. wp_step. apply wpb_bind.
    pose proof (linked_at _ q i b Hb Hi) as Hb2. pose proof (same_bufs_linked (id_bufs s) q i) as Hsb.
    assert (forall j, j ∈ q ++ [i] -> exists b', id_bufs s2 !! j = Some b' /\ wants (havedisk1 s) (q_buf b')) as Hwants.
    { intros j [Hj|Hj]%elem_of_app.
      - destruct (R3 j Hj) as (c & Hc & Hwc). destruct (same_bufs_at _ _ _ _ Hsb Hc) as (c' & Hc' & E). exists c'. by rewrite E.
      - assert (j = i) as -> by set_solver. by exists (set_qnext None b). }
    assert (NoDup (q ++ [i])) as Hnd by (apply NoDup_app; split_and!; [done|set_solver|apply NoDup_singleton]).
    pose proof (qchain_linked _ _ _ _ _ R1 R2 Hi Hb) as Hch. destruct q as [|k q].
    + rewrite bool_decide_eq_true_2 by done. unfold when. eapply wp_idestart; [exact Hb2|done|exact R4|].
      intros d E1 E2 E3. apply HQ; try done. split; [exact Hch|done|done|]. by exists (set_qnext None b).
    + destruct R1 as (Hk & c & Hc & _). rewrite bool_decide_eq_false_2; [|cbn; rewrite Hk; intros [= ->]; set_solver].
      unfold when. wp_step. apply HQ; try done. split; [exact Hch|done|done|].
      destruct R4 as (c0 & Hc0 & E). destruct (same_bufs_at _ _ _ _ Hsb Hc0) as (c' & Hc' & Ec). exists c'. split; [done|]. by rewrite Ec.
Qed.

(** [iderw] puts the buffer at the end of the queue, starts the disk if it has
    nothing else to do, and sleeps. *)
Lemma wpb_iderw Q (B : ide D -> Prop) s q i b cur pr : ide_rep s q -> i ∉ q -> id_bufs s !! i = Some b ->
  wants (havedisk1 s) (q_buf b) -> caller (mach s) i cur pr ->
  (forall s', ide_rep s' (q ++ [i]) -> same_bufs (id_bufs s) (id_bufs s') -> sectors (id_dev s') = sectors (id_dev s) ->
     havedisk1 s' = havedisk1 s -> (q <> [] -> id_dev s' = id_dev s) -> (q = [] -> finished (id_dev s') = false) ->
     holds LPtable (mach s') -> procs (mach s') = <[cur := set_p_state SLEEPING (set_p_chan (Some (ChBuf i)) pr)]> (procs (mach s)) ->
     B s') ->
  wpb (iderw patience i) Q B s.
Proof.
  intros HR Hi Hb Hw [C1 C2 C3 C4 C5] HB. unfold iderw. apply wpb_bind. unfold onm at 1. wp_step.
  eapply wp_holdingsleep_depth; [done| |done|].
  { unfold curpid. rewrite C3. change (p_pid <$> procs (mach s) !! cur = Some (p_pid pr)). by rewrite C4. }
  intros m1 Hq1 Hd1 Hr1 Hp1. cbn [negb].
  apply wpb_bind. unfold get_qbuf. wp_steps. eapply wp_of_option; [done|]. rewrite (bool_decide_eq_false_2 _ (wa_flags _ _ Hw)).
  apply wpb_bind. wp_step. replace (_ && _) with false.
  2:{ symmetry. cbn [havedisk1]. destruct (wa_dev _ _ Hw) as [E|E]; [by rewrite E|].
      apply andb_false_iff. right. by apply bool_decide_eq_false. }
  apply wpb_bind. unfold onm at 1. wp_step. destruct Hq1 as [Hok1 Hf1]. wp_apply (acquire_spec m1 LIde Hok1 (Hf1 _)).
  intros [] m2 (Hr2 & Hok2 & Hd2 & Hm2 & Hl2 & _ & Hp2).
  assert (holds LIde m2) as Hh2.
  { split_and!; [done|lia|done|]. intros l' Hne. unfold lock_free. rewrite Hl2 by done. apply Hf1. }
  set (s2 := set_mach m2 (set_mach m1 s)). assert (ide_rep s2 q) as HR2 by (by destruct HR).
  eapply wpb_enqueue; [exact HR2|done|exact Hb|exact Hw|]. intros s3 HR3 Hs3 Es Em Eh Ed Ef. change (mach s3 = m2) in Em.
  unfold iderw_wait. apply wpb_bind. destruct (same_bufs_at _ _ _ _ Hs3 Hb) as (b' & Hb' & Eb). unfold get_qbuf. wp_steps.
  eapply wp_of_option; [done|]. rewrite Eb, (bool_decide_eq_false_2 _ (wa_flags _ _ Hw)). cbn [negb]. unfold when.
  apply wpb_sleeps, wpb_onm. rewrite Em. eapply wpb_sleep_lock; [done|done|lia| |by rewrite Hp2, Hp1|].
  - by rewrite (mrel_curp _ _ Hr2), (mrel_curp _ _ Hr1).
  - intros m4 Hh4 Hd4 Hc4 Hp4. apply HB; try done; [by destruct HR3|]. rewrite mach_set, Hp4, Hp2, Hp1. done.
Qed.

(** *** An interrupt *)

(** A buffer when the request has been served; after an error its content is
    what it was. *)
Definition served (secs : Z -> Z -> list Z) (err : bool) (b : buf) : buf :=
  set_flags (Z.land (Z.lor (b_flags b) B_VALID) (Z.lnot B_DIRTY))
    (if dirty b || err then b else set_data (secs (Z.land (b_dev b) 1) (b_blockno b)) b).

(** The data of a read. *)
Definition fetched (secs : Z -> Z -> list Z) (err : bool) (b : buf) : buf :=
  if dirty b || err then b else set_data (secs (Z.land (b_dev b) 1) (b_blockno b)) b.

Lemma wp_fetch (Q : unit -> ide D -> Prop) s i b : id_bufs s !! i = Some b ->
  pending (id_dev s) = Some (request (q_buf b)) -> finished (id_dev s) = true ->
  (forall d', sectors d' = sectors (id_dev s) -> accepts d' ->
     Q tt (set_dev d' (set_idbufs (<[i := on_buf (fetched (sectors (id_dev s)) (failed (id_dev s))) b]> (id_bufs s)) s))) ->
  wp (if Z.land (b_flags (q_buf b)) B_DIRTY =z 0 then
        r ← idewait patience true;
        if 0 <=z r then
          l ← in_words 0x1f0 (BSIZE / 4);
          upd_qbuf i (on_buf (set_data l))
        else mret tt
      else mret tt) Q s.
Proof.
  intros Hb Hpend Hfin HQ. assert (accepts (id_dev s)) as Hacc by (by right). unfold fetched, on_buf in HQ. unfold request in Hpend.
  destruct (dirty (q_buf b)) eqn:Ed; unfold dirty, c_bool in Ed; [apply negb_true_iff in Ed|apply negb_false_iff in Ed]; rewrite Ed.
  - specialize (HQ (id_dev s) eq_refl Hacc). wp_step. destruct b as [b n]. cbn in HQ. rewrite list_insert_id in HQ by done. by destruct s.
  - wp_step. apply wp_idewait; [done|]. intros d Hv Hz. cbn [andb orb] in *. destruct (failed (id_dev s)) eqn:Ef.
    + change (0 <=z -1) with false. cbv iota. wp_step. specialize (HQ d (dv_sectors _ _ Hv) (dview_accepts _ _ Hv Hacc)).
      destruct b as [b n]. cbn in HQ. rewrite list_insert_id in HQ by done. by destruct s.
    + change (0 <=z 0) with true. cbv iota. wp_step. destruct Hv as [V1 V2 V3 V4].
      destruct (data_law d (Z.land (b_dev (q_buf b)) 1) (b_blockno (q_buf b))) as (d' & E & E1 & Ha); [congruence..|done|].
      unfold in_words, wp at 1. cbn [id_dev set_dev]. rewrite E. unfold upd_qbuf. wp_step. cbn [id_bufs set_dev].
      rewrite (alter_at i b _ _ Hb), V1. apply (HQ d'); [congruence|done].
Qed.

Lemma wp_ideintr (Q : unit -> ide D -> Prop) s i q b : ide_rep s (i :: q) -> id_bufs s !! i = Some b -> quiet (mach s) ->
  finished (id_dev s) = true ->
  (forall s', ide_rep s' q ->
     id_bufs s' = <[i := on_buf (served (sectors (id_dev s)) (failed (id_dev s))) b]> (id_bufs s) ->
     sectors (id_dev s') = sectors (id_dev s) -> havedisk1 s' = havedisk1 s -> (q <> [] -> finished (id_dev s') = false) ->
     quiet (mach s') -> procs (mach s') = wakeup1_proc (ChBuf i) <$> procs (mach s) -> Q tt s') ->
  wp (ideintr patience) Q s.
Proof.
  intros [(R1 & b0 & Hb0 & Rq) R2 R3 (b1 & Hb1 & Epend)] Hb Hq Hfin HQ. assert (b0 = b) as -> by congruence. assert (b1 = b) as -> by congruence.
  clear Hb0 Hb1. apply NoDup_cons in R2 as [Hiq R2]. assert (i < length (id_bufs s))%nat as Hlt by (by eapply lookup_lt_Some).
  unfold ideintr. wp_step. unfold onm at 1. wp_step. apply wp_acquire; [done|].
  intros m1 Hh1 Hr1 _ Hp1. wp_steps. change (idequeue (set_mach m1 s)) with (idequeue s). rewrite R1. wp_step. unfold get_qbuf at 1. wp_steps.
  eapply wp_of_option; [done|]. wp_steps. eapply wp_fetch; [done|done|done|]. intros d Es Ha. unfold upd_qbuf. wp_steps.
  set (b' := on_buf (served (sectors (id_dev s)) (failed (id_dev s))) b).
  match goal with |- wp _ _ ?x => set (s2 := x) end.
  assert (id_bufs s2 = <[i := b']> (id_bufs s)) as Ebufs.
  { unfold s2. cbn [id_bufs set_idbufs set_dev]. rewrite list_alter_alter_eq, (alter_at i _ _ _ (list_lookup_insert_eq _ _ _ Hlt)), list_insert_insert_eq.
    unfold b', served, fetched, on_buf. cbn. by destruct (dirty (q_buf b) || failed (id_dev s)). }
  unfold onm at 1. wp_step. apply (wp_wakeup_holding LIde); [done|done|]. intros m3 Hh3 Hr3 _ Hp3. wp_steps. set (s3 := set_mach m3 s2).
  change (idequeue s3) with (q_next b).
  assert (forall j c, j ∈ q -> id_bufs s !! j = Some c -> id_bufs s3 !! j = Some c) as Hkeep.
  { intros j c Hj Hc. change (id_bufs s3) with (id_bufs s2). rewrite Ebufs, list_lookup_insert_ne; [done|]. by intros ->. }
  assert (qchain (id_bufs s3) (q_next b) q) as Hch.
  { eapply qchain_ext; [exact Rq|]. intros j Hj. destruct (qchain_lookup _ _ _ _ Rq Hj) as [c Hc]. by rewrite Hc, (Hkeep j c Hj Hc). }
  assert (forall j, j ∈ q -> exists c, id_bufs s3 !! j = Some c /\ wants (havedisk1 s) (q_buf c)) as Hwants.
  { intros j Hj. destruct (R3 j ltac:(set_solver)) as (c & Hc & Hw). exists c. split; [by apply Hkeep|done]. }
  assert (procs m3 = wakeup1_proc (ChBuf i) <$> procs (mach s)) as Hprocs by (rewrite Hp3; cbn; by rewrite Hp1).
  destruct q as [|k q].
  - cbn in Hch. rewrite Hch. unfold when. rewrite bool_decide_eq_false_2 by auto. wp_step. unfold onm. wp_step. apply wp_release; [done|].
    intros m4 [Hq4 _] _ Hp4. apply HQ; try done. by rewrite mach_set, Hp4.
  - destruct (Hwants k ltac:(set_solver)) as (c & Hc & Hw). pose proof Hch as (Ek & _). rewrite Ek. unfold when. rewrite bool_decide_eq_true_2 by done.
    eapply wp_idestart; [exact Hc|exact Hw|exact Ha|]. intros d' E1 E2 E3. unfold onm. wp_step. apply wp_release; [done|].
    intros m4 [Hq4 _] _ Hp4. apply HQ; try done.
    + split; [exact Hch|done|done|]. by exists c.
    + cbn. cbn in E1. by rewrite E1.
    + by rewrite mach_set, Hp4.
Qed.
End specs.

(** ** The disk as its users see it *)

(** The buffers, those that wait, the content of the drives, and whether there
    is a second drive. *)
Record spec := Spec {
  sp_bufs : list buf;
  sp_queue : list nat;
  sp_disk : Z -> Z -> list Z;
  sp_disk1 : Z
}.

(** What the users of the disk see happen: a process hands over a buffer; a
    buffer is served, with or without an error; the call of a process returns;
    the owner of a buffer changes it. *)
Inductive ide_event := ERequest (i : nat) | EServe (i : nat) (e : option (list Z)) | EReturn (i : nat) | EOwner (i : nat) (b : buf).

(** The disk: a buffer that is handed over waits behind the others; the one that
    has waited longest is served; a call returns when its buffer is valid and
    clean and does not wait; and only the owner changes a buffer otherwise. *)
Inductive spec_step : spec -> ide_event -> spec -> Prop :=
| sp_request bs q secs h i b : bs !! i = Some b -> i ∉ q -> wants h b ->
    spec_step (Spec bs q secs h) (ERequest i) (Spec bs (q ++ [i]) secs h)
| sp_serve bs q secs h i b e : bs !! i = Some b ->
    spec_step (Spec bs (i :: q) secs h) (EServe i e) (Spec (<[i := served secs (is_err e) b]> bs) q (req_effect (request b) e secs) h)
| sp_return bs q secs h i b : bs !! i = Some b -> i ∉ q -> Z.land (b_flags b) (Z.lor B_VALID B_DIRTY) = B_VALID ->
    spec_step (Spec bs q secs h) (EReturn i) (Spec bs q secs h)
| sp_owner bs q secs h i b' : i ∉ q ->
    spec_step (Spec bs q secs h) (EOwner i b') (Spec (<[i := b']> bs) q secs h).

Fixpoint spec_run (es : list ide_event) (a a' : spec) : Prop :=
  match es with
  | [] => a' = a
  | e :: es' => exists a1, spec_step a e a1 /\ spec_run es' a1 a'
  end.

Definition queued {D} (s : ide D) (i : nat) : Prop := exists q, qchain (id_bufs s) (idequeue s) q /\ i ∈ q.

(** What happens to the driver, and what of it is seen: a process calls
    [iderw]; the controller finishes a request; the interrupt for the buffer
    at the head of the queue; an interrupt that comes with nothing to do; a
    process that waited runs its loop again and returns; an owner changes a
    buffer; and whatever the rest of the kernel does. *)
Inductive ide_step {D} `{AtaLaws D} (patience : nat) : ide D -> option ide_event -> ide D -> Prop :=
| it_request s s' i b cur pr : id_bufs s !! i = Some b -> ~ queued s i -> wants (havedisk1 s) (q_buf b) -> caller (mach s) i cur pr ->
    iderw patience i s = Blocked s' -> ide_step patience s (Some (ERequest i)) s'
| it_complete s d' : completes (id_dev s) d' -> ide_step patience s None (set_dev d' s)
| it_interrupt s s' i b : quiet (mach s) -> finished (id_dev s) = true -> idequeue s = Some i -> id_bufs s !! i = Some b ->
    ideintr patience s = Ok tt s' -> ide_step patience s (Some (EServe i (req_outcome (id_dev s) (request (q_buf b))))) s'
| it_spurious s s' : quiet (mach s) -> idequeue s = None -> ideintr patience s = Ok tt s' -> ide_step patience s None s'
| it_resume s s' i : holds LIde (mach s) -> iderw_wait i s = Ok tt s' -> ide_step patience s (Some (EReturn i)) s'
| it_owner s i b b' : id_bufs s !! i = Some b -> ~ queued s i ->
    ide_step patience s (Some (EOwner i b')) (set_idbufs (<[i := Qbuf b' (q_next b)]> (id_bufs s)) s)
| it_machine s m : ide_step patience s None (set_mach m s).

(** A run of the driver, with the events that are seen. *)
Inductive ide_run {D} `{AtaLaws D} (patience : nat) : ide D -> list ide_event -> ide D -> Prop :=
| run_none s : ide_run patience s [] s
| run_silent s s1 s' es : ide_step patience s None s1 -> ide_run patience s1 es s' -> ide_run patience s es s'
| run_event s s1 s' e es : ide_step patience s (Some e) s1 -> ide_run patience s1 es s' -> ide_run patience s (e :: es) s'.

(** A driver that implements a disk: the controller is at the request of the
    head of the queue, and has carried it out when it is finished. *)
Record ide_sim {D} `{AtaLaws D} (s : ide D) (a : spec) : Prop := {
  si_rep : ide_rep s (sp_queue a);
  si_bufs : q_buf <$> id_bufs s = sp_bufs a;
  si_disk1 : havedisk1 s = sp_disk1 a;
  si_disk : sectors (id_dev s) =
    match sp_queue a with
    | i :: _ => match sp_bufs a !! i with
                | Some b => if finished (id_dev s) then req_effect (request b) (req_outcome (id_dev s) (request b)) (sp_disk a) else sp_disk a
                | None => sp_disk a
                end
    | [] => sp_disk a
    end
}.

(** Computations that do not return. *)
Definition never_ok {S A} (m : M S A) : Prop := forall s a s', m s <> Ok a s'.
Lemma never_ok_bind {S A C} (m : M S A) (k : A -> M S C) : (forall a, never_ok (k a)) -> never_ok (m ≫= k).
Proof. intros Hk s a s'. unfold mbind, M_bind. destruct (m s); [apply Hk|done..]. Qed.
Lemma never_ok_sleep c lk : never_ok (sleep c lk).
Proof.
  unfold sleep. apply never_ok_bind. intros [i|]; [|done]. destruct lk as [l|]; [|done]. do 3 (apply never_ok_bind; intros []).
  unfold sched. do 3 (apply never_ok_bind; intros ?). case_match; [done|]. apply never_ok_bind. intros [? ?]. case_match; [done|].
  apply never_ok_bind. intros ?. case_match; [done|]. apply never_ok_bind. intros []; done.
Qed.

Section refinement.
Context {D : Type} `{AtaLaws D}.
Variable patience : nat.
Hypothesis patient : forall d : D, accepts d -> (polls d < patience)%nat.
Implicit Types (s : ide D) (a : spec).

Lemma qchain_det l p q q' : qchain l p q -> qchain l p q' -> q = q'.
Proof.
  revert p q'. induction q as [|i q IH]; intros p [|j q']; cbn; [done|by intros -> (? & _)|by intros (-> & _)|].
  intros (-> & b & Hb & Hq) ([= ->] & b' & Hb' & Hq'). assert (b' = b) as -> by congruence. f_equal. by eapply IH.
Qed.
Lemma not_queued s q i : ide_rep s q -> ~ queued s i -> i ∉ q.
Proof. intros HR Hn Hi. apply Hn. exists q. split; [apply HR|done]. Qed.

Lemma sim_buf s a i b : ide_sim s a -> id_bufs s !! i = Some b -> sp_bufs a !! i = Some (q_buf b).
Proof. intros Hs Hb. rewrite <- (si_bufs _ _ Hs), list_lookup_fmap, Hb. done. Qed.

Lemma same_bufs_fmap l l' : same_bufs l l' -> q_buf <$> l' = q_buf <$> l.
Proof. intros Hs. apply list_eq. intros j. rewrite !list_lookup_fmap. apply Hs. Qed.

(** Changes that the driver and its users do not see. *)
Lemma sim_ext s s' a : ide_sim s a -> id_bufs s' = id_bufs s -> idequeue s' = idequeue s -> havedisk1 s' = havedisk1 s ->
  id_dev s' = id_dev s -> ide_sim s' a.
Proof.
  intros [[R1 R2 R3 R4] S2 S3 S5] E1 E2 E3 E4. split; [split|..]; by rewrite ?E1, ?E2, ?E3, ?E4.
Qed.

(** The disk with [i] waiting behind the others. *)
Definition with_request (i : nat) (a : spec) : spec := Spec (sp_bufs a) (sp_queue a ++ [i]) (sp_disk a) (sp_disk1 a).

(** A call of [iderw] puts its buffer in the queue and its process to sleep. *)
Lemma sim_request s a i b cur pr : ide_sim s a -> id_bufs s !! i = Some b -> i ∉ sp_queue a -> wants (havedisk1 s) (q_buf b) ->
  caller (mach s) i cur pr -> exists s', iderw patience i s = Blocked s' /\ ide_sim s' (with_request i a) /\
    procs (mach s') = <[cur := set_p_state SLEEPING (set_p_chan (Some (ChBuf i)) pr)]> (procs (mach s)).
Proof.
  intros Hs Hb Hi Hw Hc. pose proof (sim_buf _ _ _ _ Hs Hb) as Hab. apply (wpb_blocked (iderw patience i)).
  eapply wpb_iderw; [done|apply Hs|done|done|done|done|]. intros s1 HR Hsb Es Eh Ed Ef _ Hp. split; [|exact Hp]. destruct Hs as [_ S2 S3 S5].
  destruct a as [bs q secs h]. unfold with_request. cbn [sp_queue sp_bufs sp_disk sp_disk1] in *.
  split; cbn [sp_queue sp_bufs sp_disk sp_disk1]; [done| |congruence|].
  - by rewrite (same_bufs_fmap _ _ Hsb).
  - rewrite Es, S5. destruct q as [|k q]; cbn [app]; [|by rewrite Ed by done]. by rewrite Hab, (Ef eq_refl).
Qed.

Lemma sim_complete s a d' : ide_sim s a -> completes (id_dev s) d' -> ide_sim (set_dev d' s) a.
Proof.
  intros [[R1 R2 R3 R4] S2 S3 S5] (r & Hp & Hf & Es & Hp' & Hf'). destruct (sp_queue a) as [|i q] eqn:Eq.
  - exfalso. destruct R4 as [R4|R4]; congruence.
  - destruct R4 as (b & Hb & Hpb). assert (r = request (q_buf b)) as -> by congruence.
    assert (sp_bufs a !! i = Some (q_buf b)) as Hab by (by rewrite <- S2, list_lookup_fmap, Hb).
    rewrite Hf, Hab in S5. split; rewrite ?Eq; [split; [done|done|done|by exists b]|done|done|].
    cbn [id_dev set_dev]. rewrite Hab, Hf', <- S5. exact Es.
Qed.

Lemma is_err_outcome (d : D) r : is_err (req_outcome d r) = failed d.
Proof. unfold req_outcome. by destruct (failed d). Qed.

(** The interrupt serves the head of the queue and wakes its process up. *)
Lemma sim_interrupt s a i q b : ide_sim s a -> sp_queue a = i :: q -> id_bufs s !! i = Some b -> quiet (mach s) -> finished (id_dev s) = true ->
  exists s' a', ideintr patience s = Ok tt s' /\ spec_step a (EServe i (req_outcome (id_dev s) (request (q_buf b)))) a' /\ ide_sim s' a' /\
    procs (mach s') = wakeup1_proc (ChBuf i) <$> procs (mach s).
Proof.
  intros Hs Eq Hb Hq Hfin. destruct a as [bs qs secs h]. cbn [sp_queue] in Eq. subst qs. pose proof (si_rep _ _ Hs) as HR. cbn [sp_queue] in HR.
  pose proof (sim_buf _ _ _ _ Hs Hb) as Hab. destruct Hs as [_ S2 S3 S5]. cbn [sp_queue sp_bufs sp_disk sp_disk1] in *.
  rewrite Hab, Hfin in S5. assert (i < length (id_bufs s))%nat as Hlt by (by eapply lookup_lt_Some).
  set (e := req_outcome (id_dev s) (request (q_buf b))) in *.
  assert (wp (ideintr patience) (fun _ s' => ide_sim s' (Spec (<[i := served secs (is_err e) (q_buf b)]> bs) q (req_effect (request (q_buf b)) e secs) h) /\
    procs (mach s') = wakeup1_proc (ChBuf i) <$> procs (mach s)) s) as Hw.
  { eapply wp_ideintr; [done|exact HR|exact Hb|done|done|]. intros s1 HR1 Eb Es Eh Ef _ Hp. split; [|exact Hp].
    assert (served (sectors (id_dev s)) (failed (id_dev s)) (q_buf b) = served secs (is_err e) (q_buf b)) as Esv.
    { unfold e. rewrite is_err_outcome. unfold served. destruct (dirty (q_buf b)) eqn:Edty; [done|]. unfold request in S5. rewrite Edty in S5.
      cbn [req_effect] in S5. by rewrite S5. }
    split; cbn [sp_queue sp_bufs sp_disk sp_disk1]; [done| |congruence|].
    - rewrite Eb, list_fmap_insert, S2. cbn [q_buf on_buf]. by rewrite Esv.
    - rewrite Es, S5. destruct q as [|k q]; [done|]. rewrite Ef by done. by destruct (<[i := _]> bs !! k). }
  apply wp_ok in Hw as ([] & s' & Hrun & Hs' & Hp). eexists s', _. split_and!; [exact Hrun|by apply sp_serve|exact Hs'|exact Hp].
Qed.

Lemma wp_spurious s (Q : unit -> ide D -> Prop) : quiet (mach s) -> idequeue s = None ->
  (forall m, Q tt (set_mach m s)) -> wp (ideintr patience) Q s.
Proof.
  intros Hq Hn HQ. unfold ideintr. wp_step. unfold onm at 1. wp_step. apply wp_acquire; [done|]. intros m1 Hh1 _ _ _. wp_steps.
  change (idequeue (set_mach m1 s)) with (idequeue s). rewrite Hn. unfold onm. wp_step. apply wp_release; [done|]. intros m2 _ _ _. apply HQ.
Qed.
Lemma wp_iderw_wait s i b (Q : unit -> ide D -> Prop) : holds LIde (mach s) -> id_bufs s !! i = Some b ->
  Z.land (b_flags (q_buf b)) (Z.lor B_VALID B_DIRTY) = B_VALID -> (forall m, Q tt (set_mach m s)) -> wp (iderw_wait i) Q s.
Proof.
  intros Hh Hb Hv HQ. unfold iderw_wait, get_qbuf. wp_steps. eapply wp_of_option; [done|]. rewrite bool_decide_eq_true_2 by done.
  cbn [negb]. unfold when. wp_steps. unfold onm. wp_step. apply wp_release; [done|]. intros m _ _ _. apply HQ.
Qed.

(** A process whose buffer is valid returns from [iderw], and no other. *)
Lemma resume_valid s s' i : iderw_wait i s = Ok tt s' ->
  exists b, id_bufs s !! i = Some b /\ Z.land (b_flags (q_buf b)) (Z.lor B_VALID B_DIRTY) = B_VALID.
Proof.
  unfold iderw_wait, get_qbuf, mbind, M_bind, get, of_option, mret, M_ret. destruct (id_bufs s !! i) as [b|]; [|done]. cbv beta iota.
  intros E. exists b. split; [done|]. destruct (decide (Z.land (b_flags (q_buf b)) (Z.lor B_VALID B_DIRTY) = B_VALID)) as [|Hv]; [done|].
  exfalso. rewrite (bool_decide_eq_false_2 _ Hv) in E. cbn [negb when] in E. unfold onm, zoom, when in E.
  destruct (sleep (ChBuf i) (Some LIde) (mach s)) eqn:Es; [by apply never_ok_sleep in Es|done..].
Qed.

Lemma valid_not_queued s a i b : ide_sim s a -> id_bufs s !! i = Some b ->
  Z.land (b_flags (q_buf b)) (Z.lor B_VALID B_DIRTY) = B_VALID -> i ∉ sp_queue a.
Proof.
  intros Hs Hb Hv Hi. destruct (ir_wants _ _ (si_rep _ _ Hs) i Hi) as (b' & Hb' & Hw). assert (b' = b) as -> by congruence. by apply (wa_flags _ _ Hw).
Qed.

Lemma sim_owner s a i b b' : ide_sim s a -> id_bufs s !! i = Some b -> i ∉ sp_queue a ->
  ide_sim (set_idbufs (<[i := Qbuf b' (q_next b)]> (id_bufs s)) s) (Spec (<[i := b']> (sp_bufs a)) (sp_queue a) (sp_disk a) (sp_disk1 a)).
Proof.
  intros [[R1 R2 R3 R4] S2 S3 S5] Hb Hi. destruct a as [bs q secs h]. cbn [sp_queue sp_bufs sp_disk sp_disk1] in *.
  assert (forall j, j ∈ q -> <[i := Qbuf b' (q_next b)]> (id_bufs s) !! j = id_bufs s !! j) as Hk.
  { intros j Hj. rewrite list_lookup_insert_ne; [done|]. by intros ->. }
  split; cbn [sp_queue sp_bufs sp_disk sp_disk1]; [split|..]; cbn [id_bufs idequeue havedisk1 id_dev set_idbufs]; try done.
  - eapply qchain_ext; [exact R1|]. intros j Hj. by rewrite Hk.
  - intros j Hj. rewrite Hk by done. by apply R3.
  - destruct q as [|k q]; [done|]. by rewrite Hk by set_solver.
  - rewrite list_fmap_insert. by rewrite S2.
  - rewrite S5. destruct q as [|k q]; [done|]. rewrite list_lookup_insert_ne; [done|]. intros ->. set_solver.
Qed.

(** Each step is one of the disk with the same event, or none if nothing is
    seen of it. *)
Lemma sim_step s l s' a : ide_step patience s l s' -> ide_sim s a ->
  match l with
  | None => ide_sim s' a
  | Some e => exists a', spec_step a e a' /\ ide_sim s' a'
  end.
Proof.
  intros Hst Hs. destruct Hst as [s s' i b cur pr Hb Hq Hw Hc Hrun|s d' Hc|s s' i b Hq Hfin Hi Hb Hrun|s s' Hq Hn Hrun|s s' i Hh Hrun|s i b b' Hb Hq|s m].
  - pose proof (not_queued _ _ _ (si_rep _ _ Hs) Hq) as Hi. destruct (sim_request _ _ _ _ _ _ Hs Hb Hi Hw Hc) as (s1 & E & Hs1 & _).
    assert (s1 = s') as -> by congruence. exists (with_request i a). split; [|done]. pose proof (sim_buf _ _ _ _ Hs Hb) as Hab.
    rewrite (si_disk1 _ _ Hs) in Hw. destruct a. by eapply sp_request.
  - by apply sim_complete.
  - pose proof (ir_chain _ _ (si_rep _ _ Hs)) as Hch. destruct (sp_queue a) as [|j q] eqn:Eq; cbn in Hch; [congruence|].
    destruct Hch as (Ej & _). assert (j = i) as -> by congruence.
    destruct (sim_interrupt _ _ _ _ _ Hs Eq Hb Hq Hfin) as (s1 & a' & E & Ha & Hs1 & _). assert (s1 = s') as -> by congruence. eauto.
  - assert (wp (ideintr patience) (fun _ s' => ide_sim s' a) s) as Hw by (apply wp_spurious; [done|done|intros m; by eapply sim_ext]).
    unfold wp in Hw. by rewrite Hrun in Hw.
  - destruct (resume_valid _ _ _ Hrun) as (b & Hb & Hv). exists a. split.
    + pose proof (sim_buf _ _ _ _ Hs Hb). pose proof (valid_not_queued _ _ _ _ Hs Hb Hv). destruct a. by eapply sp_return.
    + assert (wp (iderw_wait i) (fun _ s' => ide_sim s' a) s) as Hw by (eapply wp_iderw_wait; [done|done|done|intros m; by eapply sim_ext]).
      unfold wp in Hw. by rewrite Hrun in Hw.
  - pose proof (not_queued _ _ _ (si_rep _ _ Hs) Hq) as Hi. eexists. split; [|by apply sim_owner]. destruct a. by apply sp_owner.
  - by eapply sim_ext.
Qed.

Lemma sim_run s es s' : ide_run patience s es s' -> forall a, ide_sim s a -> exists a', spec_run es a a' /\ ide_sim s' a'.
Proof.
  induction 1 as [s|s s1 s' es Hst _ IH|s s1 s' e es Hst _ IH]; intros a Hs.
  - by exists a.
  - apply IH. by apply (sim_step _ _ _ _ Hst).
  - destruct (sim_step _ _ _ _ Hst Hs) as (a1 & Ha1 & Hs1). destruct (IH a1 Hs1) as (a' & Ha' & Hs'). exists a'. split; [|done]. by exists a1.
Qed.
End refinement.

(** C14: the driver is a disk that serves one request after the other.  Each
    call of [iderw], each interrupt for a request, each return of a call and
    each change by an owner is one step of that disk, with the same buffer and
    the same outcome, and nothing else is a step of it: requests are served in
    the order of the calls; a written buffer is on the drive, a read buffer has
    what was on it; and a call returns only when its buffer is valid, clean and
    out of the queue.  After an error the sector of a write holds anything, and
    a buffer that was to be read is marked valid with what it had before.  From
    every such state a call of [iderw] ends with its process asleep on the
    buffer and the request in the queue, the interrupt for a finished request
    is handled to its end and wakes the process of that buffer, and a call
    whose buffer is valid returns. *)
Theorem ide_refines {D} `{AtaLaws D} patience (s s' : ide D) es a : (forall d : D, accepts d -> (polls d < patience)%nat) ->
  ide_sim s a -> ide_run patience s es s' ->
  exists a', spec_run es a a' /\ ide_sim s' a' /\
    (forall i b cur pr, id_bufs s' !! i = Some b -> i ∉ sp_queue a' -> wants (havedisk1 s') (q_buf b) -> caller (mach s') i cur pr ->
      exists s'' a'', iderw patience i s' = Blocked s'' /\ spec_step a' (ERequest i) a'' /\ ide_sim s'' a'' /\
        procs (mach s'') = <[cur := set_p_state SLEEPING (set_p_chan (Some (ChBuf i)) pr)]> (procs (mach s'))) /\
    (forall i q b, sp_queue a' = i :: q -> id_bufs s' !! i = Some b -> quiet (mach s') -> finished (id_dev s') = true ->
      exists s'' a'', ideintr patience s' = Ok tt s'' /\ spec_step a' (EServe i (req_outcome (id_dev s') (request (q_buf b)))) a'' /\ ide_sim s'' a'' /\
        procs (mach s'') = wakeup1_proc (ChBuf i) <$> procs (mach s')) /\
    (forall i b, id_bufs s' !! i = Some b -> Z.land (b_flags (q_buf b)) (Z.lor B_VALID B_DIRTY) = B_VALID -> holds LIde (mach s') ->
      exists s'', iderw_wait i s' = Ok tt s'').
Proof.
  intros Hpat Hs Hrun. destruct (sim_run patience Hpat s es s' Hrun a Hs) as (a' & Ha' & Hs'). exists a'. split_and!; [done|done| | |].
  - intros i b cur pr Hb Hi Hw Hc. destruct (sim_request patience Hpat _ _ _ _ _ _ Hs' Hb Hi Hw Hc) as (s'' & E & Hs'' & Hp).
    exists s'', (with_request i a'). split_and!; [done| |done|done]. pose proof (sim_buf _ _ _ _ Hs' Hb) as Hab.
    rewrite (si_disk1 _ _ Hs') in Hw. destruct a'. by eapply sp_request.
  - intros i q b Eq Hb Hq Hfin. by eapply sim_interrupt.
  - intros i b Hb Hv Hh. assert (wp (iderw_wait i) (fun _ _ => True) s') as Hw by (by eapply wp_iderw_wait).
    apply wp_ok in Hw as ([] & s'' & E & _). by exists s''.
Qed.

(** After an error of the drive a read ends as if it had succeeded: the buffer
    is marked valid with the content it had before. *)
Theorem ide_read_error {D} `{AtaLaws D} patience (s : ide D) i q b : (forall d : D, accepts d -> (polls d < patience)%nat) ->
  ide_rep s (i :: q) -> id_bufs s !! i = Some b -> quiet (mach s) -> finished (id_dev s) = true -> failed (id_dev s) = true ->
  dirty (q_buf b) = false ->
  wp (ideintr patience) (fun _ s' => exists b', id_bufs s' !! i = Some b' /\ b_data (q_buf b') = b_data (q_buf b) /\
    Z.land (b_flags (q_buf b')) (Z.lor B_VALID B_DIRTY) = B_VALID) s.
Proof.
  intros Hpat HR Hb Hq Hfin Hfail Hd. eapply wp_ideintr; [done|exact HR|exact Hb|done|done|]. intros s' _ Eb _ _ _ _ _.
  exists (on_buf (served (sectors (id_dev s)) (failed (id_dev s))) b). rewrite Eb, list_lookup_insert_eq by (by eapply lookup_lt_Some).
  unfold served, on_buf. rewrite Hfail, Hd. cbn. split_and!; [done|done|]. set (f := b_flags (q_buf b)).
  apply Z.bits_inj'. intros k Hk. rewrite !Z.land_spec, !Z.lor_spec, Z.lnot_spec by lia.
  destruct (decide (k = 1)) as [->|H1']; [by rewrite orb_true_r|]. destruct (decide (k = 2)) as [->|H2']; [by rewrite !andb_false_r|].
  assert (Z.testbit B_VALID k = false) as ->. { change B_VALID with (2 ^ 1). apply Z.pow2_bits_false. lia. }
  assert (Z.testbit B_DIRTY k = false) as ->. { change B_DIRTY with (2 ^ 2). apply Z.pow2_bits_false. lia. }
  by rewrite !andb_false_r.
Qed.

(** ** A controller *)

(** Registers, drives, the command, whether it is finished, whether it ended
    with an error, and whether the next status still shows that the controller
    is busy. *)
Record simctl := Sim {
  sc_regs : gmap Z Z;
  sc_disk : Z -> Z -> list Z;
  sc_cmd : option ata_req;
  sc_fin : bool;
  sc_fail : bool;
  sc_busy : bool
}.
Definition sc_reg (d : simctl) (p : Z) : Z := default 0 (sc_regs d !! p).
Definition sc_sector (d : simctl) : Z :=
  sc_reg d 0x1f3 + 2 ^ 8 * sc_reg d 0x1f4 + 2 ^ 16 * sc_reg d 0x1f5 + 2 ^ 24 * Z.land (sc_reg d 0x1f6) 15.
Definition sc_drive (d : simctl) : Z := Z.land (Z.shiftr (sc_reg d 0x1f6) 4) 1.

#[local] Instance sim_ata : Ata simctl := {|
  inb p d := (if sc_busy d then IDE_BSY else if sc_fail d then Z.lor IDE_DRDY IDE_ERR else IDE_DRDY,
            Sim (sc_regs d) (sc_disk d) (sc_cmd d) (sc_fin d) (sc_fail d) false);
  outb p v d :=
    if decide (p = 0x1f7) then
      Sim (sc_regs d) (sc_disk d)
        (Some (if decide (v = IDE_CMD_READ) then AtaRead (sc_drive d) (sc_sector d) else AtaWrite (sc_drive d) (sc_sector d) [])) false false true
    else Sim (<[p := v]> (sc_regs d)) (sc_disk d) (sc_cmd d) (sc_fin d) (sc_fail d) (sc_busy d);
  insl p n d :=
    (match sc_cmd d with Some (AtaRead a b) => sc_disk d a b | _ => [] end,
     Sim (sc_regs d) (sc_disk d) None (sc_fin d) (sc_fail d) (sc_busy d));
  outsl p l d :=
    Sim (sc_regs d) (sc_disk d) (match sc_cmd d with Some (AtaWrite a b _) => Some (AtaWrite a b l) | c => c end) (sc_fin d) (sc_fail d) (sc_busy d)
|}.

Lemma sc_reg_outb p v p' (d : simctl) : p <> 0x1f7 -> sc_reg (outb p v d) p' = if decide (p = p') then v else sc_reg d p'.
Proof.
  intros Hp. unfold outb, sim_ata. rewrite decide_False by done. unfold sc_reg. cbn [sc_regs]. rewrite lookup_insert. by case_decide.
Qed.

Lemma select_bits drive x : drive = 0 \/ drive = 1 -> 0 <= x < 16 ->
  Z.land (Z.shiftr (Z.lor (Z.lor 0xe0 (Z.shiftl drive 4)) x) 4) 1 = drive /\ Z.land (Z.lor (Z.lor 0xe0 (Z.shiftl drive 4)) x) 15 = x.
Proof.
  intros Hd Hx. assert (x ∈ seqZ 0 16) as Hin by (apply elem_of_seqZ; lia). clear Hx. revert x Hin. apply Forall_forall.
  destruct Hd as [-> | ->]; vm_compute; repeat constructor.
Qed.

Lemma sim_select drive sector (d : simctl) : drive = 0 \/ drive = 1 -> 0 <= sector < 2 ^ 28 ->
  sc_drive (select drive sector d) = drive /\ sc_sector (select drive sector d) = sector.
Proof.
  intros Hd Hs. unfold select, sc_drive, sc_sector. rewrite !sc_reg_outb by done.
  repeat (first [rewrite decide_True by done|rewrite decide_False by done]). set (x := Z.land (Z.shiftr sector 24) 15).
  change (2 ^ 28) with 268435456 in Hs. change (2 ^ 24) with 16777216. change (2 ^ 16) with 65536. change (2 ^ 8) with 256.
  assert (x = sector / 16777216 /\ 0 <= x < 16) as [Hx Hx16].
  { unfold x. change 15 with (Z.ones 4). rewrite Z.land_ones, Z.shiftr_div_pow2 by lia. change (2 ^ 4) with 16. change (2 ^ 24) with 16777216.
    Z.div_mod_to_equations. lia. }
  destruct (select_bits drive x Hd Hx16) as [E1 E2]. split; [exact E1|]. rewrite E2, Hx. clear E1 E2 Hx Hx16 x Hd.
  change 0xff with (Z.ones 8). rewrite !Z.land_ones, !Z.shiftr_div_pow2 by lia. change (2 ^ 16) with 65536. change (2 ^ 8) with 256.
  Z.div_mod_to_equations. lia.
Qed.

Lemma sim_outb_other p v (d : simctl) : p <> 0x1f7 -> sc_disk (outb p v d) = sc_disk d.
Proof. intros Hp. unfold outb, sim_ata. by rewrite decide_False. Qed.
Lemma sim_outb_cmd v (d : simctl) : outb 0x1f7 v d = Sim (sc_regs d) (sc_disk d)
  (Some (if decide (v = IDE_CMD_READ) then AtaRead (sc_drive d) (sc_sector d) else AtaWrite (sc_drive d) (sc_sector d) [])) false false true.
Proof. unfold outb, sim_ata. by rewrite decide_True. Qed.
Lemma sim_select_disk drive sector (d : simctl) : sc_disk (select drive sector d) = sc_disk d.
Proof. unfold select. by rewrite !sim_outb_other. Qed.

#[local] Instance sim_laws : AtaLaws simctl.
Proof.
  refine {| sectors := sc_disk; pending := sc_cmd; finished := sc_fin; failed := sc_fail; polls d := if sc_busy d then 1%nat else 0%nat |}.
  - intros d _. eexists _, _. split; [reflexivity|]. cbn [sc_disk sc_cmd sc_fin sc_fail sc_busy]. split_and!; [done|done|done|done|by destruct (sc_busy d)| |].
    + by destruct (sc_busy d), (sc_fail d).
    + intros Hb. destruct (sc_busy d), (sc_fail d); done.
  - intros d drive sector _ _ Hd Hs d'. destruct (sim_select drive sector d Hd Hs) as [E1 E2]. unfold d'.
    rewrite sim_outb_cmd, E1, E2. cbn [sc_disk sc_cmd sc_fin]. by rewrite sim_select_disk.
  - intros d drive sector data _ _ Hd Hs _ d'. destruct (sim_select drive sector d Hd Hs) as [E1 E2]. unfold d'.
    rewrite sim_outb_cmd, E1, E2. unfold outsl, sim_ata. cbn [sc_disk sc_cmd sc_fin]. by rewrite sim_select_disk.
  - intros d drive sector Hp _ _ _. eexists. unfold insl, sim_ata. rewrite Hp. split_and!; [done|done|by left].
Defined.

(** The drive finishes the command, without or with an error. *)
Definition sim_finish (e : option (list Z)) (d : simctl) : simctl :=
  Sim (sc_regs d) (match sc_cmd d with Some r => req_effect r e (sc_disk d) | None => sc_disk d end) (sc_cmd d) true (is_err e) (sc_busy d).

Definition ix_buf : buf := Buf B_DIRTY 0 5 1 None None (replicate 512 42).
Definition ix_mach (p : option nat) (l : list proc) : machine :=
  Machine true 0 [Cpu 0 0 false p] ∅ {[SBuf 0 := Sleeplock 1 7]} l.
(** Process 0 has locked a buffer for block 5 and written to it. *)
Definition ix : ide simctl := Ide (ix_mach (Some 0%nat) px_procs) [Qbuf ix_buf None] None 0 (Sim ∅ (fun _ _ => zero_block) None false false true).
Definition ix_spec : spec := Spec [ix_buf] [] (sectors (id_dev ix)) 0.
Definition ended {S A} (o : outcome S A) (s : S) : S := match o with Ok _ s' | Blocked s' => s' | _ => s end.
(** It has called [iderw]; the drive has finished and the processor is idle;
    the interrupt has been handled. *)
Definition ix1 : ide simctl := ended (iderw 2 0 ix) ix.
Definition ix2 (e : option (list Z)) : ide simctl := set_mach (ix_mach None (procs (mach ix1))) (set_dev (sim_finish e (id_dev ix1)) ix1).
Definition ix3 (e : option (list Z)) : ide simctl := ended (ideintr 2 (ix2 e)) (ix2 e).

Lemma ix_sim : ide_sim ix ix_spec.
Proof. split; [split; [done|constructor|by intros i ?%not_elem_of_nil|by left]|done|done|done]. Qed.
Lemma ix_wants : wants (havedisk1 ix) ix_buf.
Proof. split; [done|by left|done|done]. Qed.
Lemma ix_caller : caller (mach ix) 0 0 px_proc.
Proof. split; [split; [by split|done]|done|done|done|done]. Qed.
Lemma ix_request : iderw 2 0 ix = Blocked ix1.
Proof. vm_compute. reflexivity. Qed.
Lemma ix_served e : ideintr 2 (ix2 e) = Ok tt (ix3 e).
Proof. vm_compute. reflexivity. Qed.
Lemma ix_outcome e : req_outcome (sim_finish e (id_dev ix1)) (request ix_buf) = e.
Proof. destruct e as [l|]; vm_compute; reflexivity. Qed.
Lemma ix_completes e : completes (id_dev ix1) (sim_finish e (id_dev ix1)).
Proof.
  exists (request ix_buf). split_and!; [vm_compute; reflexivity|vm_compute; reflexivity| |vm_compute; reflexivity|done].
  rewrite ix_outcome. unfold sim_finish. replace (sc_cmd (id_dev ix1)) with (Some (request ix_buf)) by (vm_compute; reflexivity). done.
Qed.

(** The run of a request that the drive finishes as [e] says. *)
Lemma ix_run e : ide_run 2 ix [ERequest 0; EServe 0 e] (ix3 e).
Proof.
  eapply run_event; [eapply (it_request 2 ix ix1 0 (Qbuf ix_buf None) 0 px_proc); [done| |apply ix_wants|apply ix_caller|apply ix_request]|].
  { intros (q & Hq & Hi). destruct q as [|j q]; [by apply not_elem_of_nil in Hi|]. by destruct Hq. }
  eapply run_silent; [apply it_complete, (ix_completes e)|]. eapply run_silent; [apply (it_machine 2 _ (ix_mach None (procs (mach ix1))))|].
  eapply run_event; [|apply run_none]. fold (ix2 e). pose proof (ix_outcome e) as Ho.
  change (sim_finish e (id_dev ix1)) with (id_dev (ix2 e)) in Ho. change ix_buf with (q_buf (Qbuf ix_buf None)) in Ho. rewrite <- Ho at 2.
  apply (it_interrupt 2 (ix2 e) (ix3 e) 0 (Qbuf ix_buf None)); [by split|done|vm_compute; reflexivity|vm_compute; reflexivity|apply ix_served].
Qed.
Lemma ix_spec_run e a : spec_run [ERequest 0; EServe 0 e] ix_spec a -> sp_queue a = [] /\ sp_disk a 0 5 = default (replicate 512 42) e.
Proof.
  intros (a1 & H1 & a2 & H2 & ->). inversion H1; subst; clear H1. inversion H2; subst; clear H2.
  match goal with H : _ !! 0%nat = Some _ |- _ => injection H as <- end. split; [done|]. by destruct e.
Qed.

Lemma ide_refines_witness :
  (exists a, ide_sim (ix3 None) a /\ sp_queue a = [] /\ sp_disk a 0 5 = replicate 512 42) /\
  (exists a, ide_sim (ix3 (Some zero_block)) a /\ sp_queue a = [] /\ sp_disk a 0 5 = zero_block) /\
  p_state <$> procs (mach ix1) !! 0%nat = Some SLEEPING /\ p_state <$> procs (mach (ix3 None)) !! 0%nat = Some RUNNABLE.
Proof.
  assert (forall d : simctl, accepts d -> (polls d < 2)%nat) as Hpat by (intros d _; cbn; destruct (sc_busy d); lia).
  split_and!; [| |vm_compute; reflexivity|vm_compute; reflexivity].
  - destruct (ide_refines 2 ix (ix3 None) _ ix_spec Hpat ix_sim (ix_run None)) as (a & Ha & Hs & _).
    exists a. split; [exact Hs|exact (ix_spec_run None a Ha)].
  - destruct (ide_refines 2 ix (ix3 (Some zero_block)) _ ix_spec Hpat ix_sim (ix_run (Some zero_block))) as (a & Ha & Hs & _).
    exists a. split; [exact Hs|exact (ix_spec_run (Some zero_block) a Ha)].
Defined.
