(* ===== verification/Mp.v ===== *)
(** * The processors of the machine

    [mp.c]: the search for the tables of the firmware that list the processors
    and the interrupt controllers, their check sums, and the loop over the
    entries.  The memory of the firmware is a parameter: a byte, or nothing,
    at each virtual address. *)

From S2P Require Import Prelude Bytes Params CString.
Local Open Scope Z_scope.

(** ** [mp.h] *)

(** The sizes of [struct mp], [struct mpconf], [struct mpproc] and [struct mpioapic]. *)
Definition SZ_MP : Z := 16.
Definition SZ_MPCONF : Z := 44.
Definition SZ_MPPROC : Z := 20.
Definition SZ_MPIOAPIC : Z := 8.
Definition MPPROC : Z := 0.
Definition MPBUS : Z := 1.
Definition MPIOAPIC : Z := 2.
Definition MPIOINTR : Z := 3.
Definition MPLINTR : Z := 4.
(** The signatures [_MP_] and [PCMP]. *)
Definition sig_mp : list Z := [95; 77; 80; 95].
Definition sig_conf : list Z := [80; 67; 77; 80].

(** The variables that [mpinit] sets, [cpus] with the field it writes, and the
    bytes that went out to ports. *)
Record mpstate := Mpstate {
  mp_cpus : list Z;
  ncpu : Z;
  ioapicid : Z;
  lapic : Z;
  mp_out : list (Z * Z)
}.

Section mp.
Variable ram : Z -> option Z.
(** What port 0x23 delivers. *)
Variable imcr : Z.

(** [n] bytes from [p] on. *)
Fixpoint bytes_at (p : Z) (n : nat) : option (list Z) :=
  match n with
  | O => Some []
  | S n' => b ← ram (u32 p); l ← bytes_at (p + 1) n'; Some (b :: l)
  end.

Fixpoint sum_loop (n : nat) (p acc : Z) : option Z :=
  match n with
  | O => Some acc
  | S n' => b ← ram (u32 p); sum_loop n' (p + 1) (s32 (acc + b))
  end.
(** The result is a [uchar]. *)
Definition sum (addr len : Z) : option Z := s ← sum_loop (Z.to_nat len) addr 0; Some (s mod 256).

(** A null pointer is 0. *)
Fixpoint mpsearch1_loop (fuel : nat) (p e : Z) : option Z :=
  match fuel with
  | O => None
  | S fuel' =>
      if p <z e then
        l ← bytes_at p 4;
        c ← memcmp l sig_mp 4;
        if c =z 0 then
          s ← sum p SZ_MP;
          if s =z 0 then Some p else mpsearch1_loop fuel' (u32 (p + SZ_MP)) e
        else mpsearch1_loop fuel' (u32 (p + SZ_MP)) e
      else Some 0
  end.
Definition mpsearch1 (a len : Z) : option Z :=
  let addr := P2V a in
  let e := u32 (addr + len) in
  mpsearch1_loop (S (Z.to_nat (len / SZ_MP))) addr e.

Definition mpsearch : option Z :=
  let bda := P2V 0x400 in
  b0f ← ram (u32 (bda + 0x0F));
  b0e ← ram (u32 (bda + 0x0E));
  let p := Z.shiftl (Z.lor (Z.shiftl b0f 8) b0e) 4 in
  if c_bool p then
    mp ← mpsearch1 p 1024;
    if c_bool mp then Some mp else mpsearch1 0xF0000 0x10000
  else
    b14 ← ram (u32 (bda + 0x14));
    b13 ← ram (u32 (bda + 0x13));
    let p := Z.lor (Z.shiftl b14 8) b13 * 1024 in
    mp ← mpsearch1 (u32 (p - 1024)) 1024;
    if c_bool mp then Some mp else mpsearch1 0xF0000 0x10000.

(** The table and the structure that points to it, or nothing. *)
Definition mpconfig : option (option (Z * Z)) :=
  mp ← mpsearch;
  if mp =z 0 then Some None else
  physaddr ← le_val <$> bytes_at (mp + 4) 4;
  if physaddr =z 0 then Some None else
  let conf := P2V physaddr in
  l ← bytes_at conf 4;
  c ← memcmp l sig_conf 4;
  if negb (c =z 0) then Some None else
  version ← ram (u32 (conf + 6));
  if negb (version =z 1) && negb (version =z 4) then Some None else
  len ← le_val <$> bytes_at (conf + 4) 2;
  s ← sum conf len;
  if negb (s =z 0) then Some None else
  Some (Some (conf, mp)).

Definition set_ncpu (apicid : Z) (s : mpstate) : mpstate :=
  Mpstate (<[Z.to_nat (ncpu s) := apicid]> (mp_cpus s)) (ncpu s + 1) (ioapicid s) (lapic s) (mp_out s).
Definition set_ioapicid (id : Z) (s : mpstate) : mpstate := Mpstate (mp_cpus s) (ncpu s) id (lapic s) (mp_out s).
Definition set_lapic (a : Z) (s : mpstate) : mpstate := Mpstate (mp_cpus s) (ncpu s) (ioapicid s) a (mp_out s).
Definition mp_outb (port v : Z) : M mpstate unit :=
  modify (fun s => Mpstate (mp_cpus s) (ncpu s) (ioapicid s) (lapic s) (mp_out s ++ [(port, v)])).

(** The loop over the entries, with the value of [ismp] at its end.  The
    [break] of the default case leaves the [switch], not the loop. *)
Fixpoint mp_entries (fuel : nat) (p e : Z) (ismp : bool) : M mpstate bool :=
  match fuel with
  | O => fault "mpinit"
  | S fuel' =>
      if negb (p <z e) then mret ismp else
      t ← of_option "entry" (ram (u32 p));
      if t =z MPPROC then
        s ← get;
        when (ncpu s <z Z.of_nat NCPU)
          (id ← of_option "apicid" (ram (u32 (p + 1))); modify (set_ncpu id)) ;;
        mp_entries fuel' (u32 (p + SZ_MPPROC)) e ismp
      else if t =z MPIOAPIC then
        id ← of_option "apicno" (ram (u32 (p + 1)));
        modify (set_ioapicid id) ;;
        mp_entries fuel' (u32 (p + SZ_MPIOAPIC)) e ismp
      else if (t =z MPBUS) || (t =z MPIOINTR) || (t =z MPLINTR) then
        mp_entries fuel' (u32 (p + 8)) e ismp
      else mp_entries fuel' p e false
  end.

Definition mpinit (fuel : nat) : M mpstate unit :=
  c ← of_option "tables" mpconfig;
  match c with
  | None => panic "Expect to run on an SMP"
  | Some (conf, mp) =>
      a ← of_option "lapicaddr" (bytes_at (conf + 36) 4);
      modify (set_lapic (le_val a)) ;;
      len ← of_option "length" (bytes_at (conf + 4) 2);
      ismp ← mp_entries fuel (u32 (conf + SZ_MPCONF)) (u32 (conf + le_val len)) true;
      if negb ismp then panic "Didn't find a suitable machine" else
      imcrp ← of_option "imcrp" (ram (u32 (mp + 12)));
      when (c_bool imcrp) (mp_outb 0x22 0x70 ;; mp_outb 0x23 (Z.lor imcr 1))
  end.
End mp.

(** ** The tables as data *)

Inductive mp_entry :=
| EProc (apicid : Z) (rest : list Z)
| EIoapic (apicno : Z) (rest : list Z)
| EOther (t : Z) (rest : list Z).
Definition enc (x : mp_entry) : list Z :=
  match x with
  | EProc a rest => MPPROC :: a :: rest
  | EIoapic a rest => MPIOAPIC :: a :: rest
  | EOther t rest => t :: rest
  end.
Definition entry_ok (x : mp_entry) : Prop :=
  match x with
  | EProc _ rest => length rest = 18%nat
  | EIoapic _ rest => length rest = 6%nat
  | EOther t rest => (t = MPBUS \/ t = MPIOINTR \/ t = MPLINTR) /\ length rest = 7%nat
  end.
Definition encs (xs : list mp_entry) : list Z := concat (enc <$> xs).

(** What an entry is for. *)
Definition register (s : mpstate) (x : mp_entry) : mpstate :=
  match x with
  | EProc a _ => if ncpu s <z Z.of_nat NCPU then set_ncpu a s else s
  | EIoapic a _ => set_ioapicid a s
  | EOther _ _ => s
  end.
Definition apicids (xs : list mp_entry) : list Z := omap (fun x => match x with EProc a _ => Some a | _ => None end) xs.
Definition apicnos (xs : list mp_entry) : list Z := omap (fun x => match x with EIoapic a _ => Some a | _ => None end) xs.

Definition sum_list (l : list Z) : Z := foldr Z.add 0 l.

Section specs.
Variable ram : Z -> option Z.

(** The bytes [l] are in memory at [p]. *)
Definition mem_has (p : Z) (l : list Z) : Prop := bytes_at ram p (length l) = Some l.

Lemma mem_has_cons p b l : mem_has p (b :: l) <-> ram (u32 p) = Some b /\ mem_has (p + 1) l.
Proof.
  unfold mem_has. cbn [length bytes_at]. destruct (ram (u32 p)) as [c|]; cbn; [|naive_solver].
  destruct (bytes_at ram (p + 1) (length l)) as [l'|]; cbn; naive_solver.
Qed.
Lemma mem_has_app p l1 l2 : mem_has p (l1 ++ l2) <-> mem_has p l1 /\ mem_has (p + Z.of_nat (length l1)) l2.
Proof.
  revert p. induction l1 as [|b l1 IH]; intros p; cbn [app length].
  - rewrite Z.add_0_r. split; [by split|by intros [_ ?]].
  - rewrite !mem_has_cons, IH. replace (p + 1 + Z.of_nat (length l1)) with (p + Z.of_nat (S (length l1))) by lia. naive_solver.
Qed.
Lemma mem_has_slice p l off n : mem_has p l -> (off + n <= length l)%nat -> bytes_at ram (p + Z.of_nat off) n = Some (slice off n l).
Proof.
  intros Hm Hl. rewrite <- (take_drop off l), mem_has_app in Hm. destruct Hm as [_ Hm].
  rewrite <- (take_drop n (drop off l)), mem_has_app in Hm. destruct Hm as [Hm _]. unfold mem_has in Hm.
  rewrite !length_take, length_drop in Hm. unfold slice. replace (off `min` length l)%nat with off in Hm by lia.
  by replace (n `min` (length l - off))%nat with n in Hm by lia.
Qed.
Lemma mem_has_byte p l off b : mem_has p l -> l !! off = Some b -> ram (u32 (p + Z.of_nat off)) = Some b.
Proof.
  intros Hm Hb. rewrite <- (take_drop_middle l off b Hb), mem_has_app in Hm. destruct Hm as [_ Hm%mem_has_cons].
  rewrite length_take in Hm. replace (off `min` length l)%nat with off in Hm by (apply lookup_lt_Some in Hb; lia). apply Hm.
Qed.

Lemma sum_list_range l : bytes_ok l -> 0 <= sum_list l <= 255 * Z.of_nat (length l).
Proof. induction 1 as [|b l Hb _ IH]; cbn [sum_list foldr length]; [lia|]. unfold byte_ok in Hb. unfold sum_list in IH. lia. Qed.

Lemma sum_loop_ok l : forall p acc, bytes_ok l -> mem_has p l -> 0 <= acc -> acc + 255 * Z.of_nat (length l) < 2 ^ 31 ->
  sum_loop ram (length l) p acc = Some (acc + sum_list l).
Proof.
  induction l as [|b l IH]; intros p acc Hok Hm Ha Hl; cbn [sum_loop length sum_list foldr].
  - by rewrite Z.add_0_r.
  - apply Forall_cons in Hok as [Hb Hok]. apply mem_has_cons in Hm as [Hp Hm]. rewrite Hp. cbn [mbind option_bind].
    unfold byte_ok in Hb. cbn [length] in Hl. rewrite s32_small by lia. rewrite IH; [|done|done|lia|lia]. f_equal. unfold sum_list. lia.
Qed.
(** The check sum of bytes in memory. *)
Lemma sum_ok p l : bytes_ok l -> mem_has p l -> Z.of_nat (length l) < 2 ^ 16 -> sum ram p (Z.of_nat (length l)) = Some (sum_list l mod 256).
Proof. intros Hok Hm Hl. unfold sum. rewrite Nat2Z.id, sum_loop_ok by (done || lia). done. Qed.

(** ** The loop over the entries *)

Lemma length_enc x : entry_ok x -> 1 < Z.of_nat (length (enc x)).
Proof. destruct x; cbn; intros H; destruct_and?; rewrite ?H; lia. Qed.

(** One entry. *)
Lemma mp_entries_S fuel p e ismp x (s : mpstate) : entry_ok x -> mem_has p (enc x) -> 0 <= p -> p + Z.of_nat (length (enc x)) <= e -> e < 2 ^ 32 ->
  mp_entries ram (S fuel) p e ismp s = mp_entries ram fuel (p + Z.of_nat (length (enc x))) e ismp (register s x).
Proof.
  intros Hx Hm Hp He He'. cbn [mp_entries]. pose proof (length_enc x Hx). rewrite (bool_decide_eq_true_2 (p < e)) by lia. cbn [negb].
  destruct x as [a rest|a rest|t rest]; cbn [entry_ok] in Hx; cbn [enc] in *; rewrite !mem_has_cons in Hm; cbn [length] in *.
  - destruct Hm as (Ht & Ha & _). rewrite Hx in *. rewrite Ht, Ha.
    change SZ_MPPROC with 20. rewrite (u32_small (p + 20)) by lia. unfold register. unfold mbind, M_bind, of_option, get, when, mret, M_ret, modify.
    cbv beta iota. rewrite (bool_decide_eq_true_2 (MPPROC = MPPROC)) by done. by destruct (ncpu s <z Z.of_nat NCPU).
  - destruct Hm as (Ht & Ha & _). rewrite Hx in *. rewrite Ht, Ha. change SZ_MPIOAPIC with 8. by rewrite (u32_small (p + 8)) by lia.
  - destruct Hm as (Ht & _), Hx as [Hx Hr]. rewrite Hr in *. rewrite Ht. unfold mbind, M_bind, of_option.
    rewrite (u32_small (p + 8)) by lia. by destruct Hx as [-> | [-> | ->]].
Qed.

Lemma mp_entries_run xs : forall fuel p e ismp (s : mpstate), Forall entry_ok xs -> mem_has p (encs xs) -> 0 <= p ->
  p + Z.of_nat (length (encs xs)) <= e -> e < 2 ^ 32 ->
  mp_entries ram (length xs + fuel) p e ismp s = mp_entries ram fuel (p + Z.of_nat (length (encs xs))) e ismp (foldl register s xs).
Proof.
  induction xs as [|x xs IH]; intros fuel p e ismp s Hok Hm Hp He He'; cbn [foldl].
  - cbn. by rewrite Z.add_0_r.
  - apply Forall_cons in Hok as [Hx Hok]. change (encs (x :: xs)) with (enc x ++ encs xs) in *. apply mem_has_app in Hm as [Hmx Hm].
    rewrite length_app in *. change (length (x :: xs) + fuel)%nat with (S (length xs + fuel)). rewrite (mp_entries_S _ _ _ _ x) by (done || lia).
    rewrite IH by (done || lia). f_equal. lia.
Qed.

(** The entries are registered, and the loop ends at the end of the table. *)
Lemma mp_entries_ok xs fuel p ismp (s : mpstate) : Forall entry_ok xs -> mem_has p (encs xs) -> 0 <= p ->
  p + Z.of_nat (length (encs xs)) < 2 ^ 32 -> (length xs < fuel)%nat ->
  mp_entries ram fuel p (p + Z.of_nat (length (encs xs))) ismp s = Ok ismp (foldl register s xs).
Proof.
  intros Hok Hm Hp He Hf. replace fuel with (length xs + S (fuel - length xs - 1))%nat by lia. rewrite mp_entries_run by (done || lia).
  cbn [mp_entries]. rewrite (bool_decide_eq_false_2 (_ < _)) by lia. done.
Qed.

Lemma mp_entries_short xs : forall fuel p e ismp (s : mpstate), Forall entry_ok xs -> mem_has p (encs xs) -> 0 <= p ->
  p + Z.of_nat (length (encs xs)) <= e -> e < 2 ^ 32 -> (fuel <= length xs)%nat -> mp_entries ram fuel p e ismp s = Fault "mpinit".
Proof.
  intros fuel p e ismp s Hok Hm Hp He He' Hf. rewrite <- (take_drop fuel xs) in Hok, Hm, He. apply Forall_app in Hok as [Hok _].
  unfold encs in Hm, He. rewrite fmap_app, concat_app in Hm, He. rewrite length_app in He. apply mem_has_app in Hm as [Hm _].
  replace fuel with (length (take fuel xs) + 0)%nat at 1 by (rewrite length_take; lia). fold (encs (take fuel xs)) in *.
  by rewrite mp_entries_run by (done || lia).
Qed.

(** At an entry of another type the loop stays where it is. *)
Lemma mp_entries_stuck t fuel : forall p e ismp (s : mpstate), ram (u32 p) = Some t -> 4 < t -> p < e ->
  mp_entries ram fuel p e ismp s = Fault "mpinit".
Proof.
  induction fuel as [|fuel IH]; intros p e ismp s Ht H4 He; [done|]. cbn [mp_entries]. rewrite (bool_decide_eq_true_2 (p < e)) by lia. cbn [negb].
  rewrite Ht. unfold of_option, mbind, M_bind. cbn -[Z.lt].
  unfold MPPROC, MPIOAPIC, MPBUS, MPIOINTR, MPLINTR. rewrite !bool_decide_eq_false_2 by lia. cbn [orb]. by apply IH.
Qed.

(** ** What is registered *)

Lemma register_ids xs : forall s, 0 <= ncpu s <= Z.of_nat NCPU -> length (mp_cpus s) = NCPU ->
  let s' := foldl register s xs in
  ncpu s' = Z.min (Z.of_nat NCPU) (ncpu s + Z.of_nat (length (apicids xs))) /\ length (mp_cpus s') = NCPU /\
  take (Z.to_nat (ncpu s')) (mp_cpus s') = take NCPU (take (Z.to_nat (ncpu s)) (mp_cpus s) ++ apicids xs) /\
  ioapicid s' = default (ioapicid s) (last (apicnos xs)) /\ lapic s' = lapic s /\ mp_out s' = mp_out s.
Proof.
  induction xs as [|x xs IH]; intros s Hn Hl; cbn [foldl].
  - cbn [apicids apicnos omap list_omap length]. rewrite Z.add_0_r, app_nil_r. split_and!; [lia|done| |done|done|done].
    symmetry. apply take_ge. rewrite length_take. lia.
  - destruct x as [a rest|a rest|t rest]; cbn [register].
    + change (apicids (EProc a rest :: xs)) with (a :: apicids xs). change (apicnos (EProc a rest :: xs)) with (apicnos xs). cbn [length].
      destruct (decide (ncpu s < Z.of_nat NCPU)) as [Hlt|Hge].
      * rewrite (bool_decide_eq_true_2 (ncpu s < _)) by done. unfold set_ncpu.
        destruct (IH (Mpstate (<[Z.to_nat (ncpu s) := a]> (mp_cpus s)) (ncpu s + 1) (ioapicid s) (lapic s) (mp_out s))) as (E1 & E2 & E3 & E4 & E5 & E6);
          [cbn; lia|cbn; by rewrite length_insert|]. cbn [ncpu mp_cpus ioapicid lapic mp_out] in *.
        split_and!; [lia|done| |done|done|done]. rewrite E3. replace (Z.to_nat (ncpu s + 1)) with (S (Z.to_nat (ncpu s))) by lia.
        rewrite (take_S_r _ _ a) by (apply list_lookup_insert_eq; lia). rewrite take_insert_ge by lia. by rewrite <- app_assoc.
      * rewrite (bool_decide_eq_false_2 (ncpu s < _)) by done. destruct (IH s Hn Hl) as (E1 & E2 & E3 & E4 & E5 & E6).
        split_and!; [lia|done| |done|done|done]. rewrite E3. rewrite !take_app_le; [done|rewrite length_take; lia..].
    + change (apicids (EIoapic a rest :: xs)) with (apicids xs). change (apicnos (EIoapic a rest :: xs)) with (a :: apicnos xs).
      destruct (IH (set_ioapicid a s) Hn Hl) as (E1 & E2 & E3 & E4 & E5 & E6). cbn [ncpu mp_cpus ioapicid lapic mp_out set_ioapicid] in *.
      split_and!; try done. rewrite E4. destruct (apicnos xs) as [|b l]; [done|]. rewrite last_cons_cons.
      destruct (last (b :: l)) eqn:El; [done|by apply last_None in El].
    + by apply IH.
Qed.
End specs.

(** ** The search *)

(** A floating pointer structure: the signature, and a sum of 0. *)
Definition is_mp (l : list Z) : bool := bool_decide (take 4 l = sig_mp) && (sum_list l mod 256 =z 0).
(** The first of [n] slots that holds one. *)
Fixpoint first_mp (l : list Z) (n : nat) : option nat :=
  match n with
  | O => None
  | S n' => if is_mp (take 16 l) then Some O else S <$> first_mp (drop 16 l) n'
  end.

Lemma memcmp_eq l1 : forall l2 n, length l1 = n -> length l2 = n -> exists c, memcmp l1 l2 n = Some c /\ (c = 0 <-> l1 = l2).
Proof.
  induction l1 as [|a l1 IH]; intros [|b l2] n; cbn [length]; intros <- Hl; try done; cbn [memcmp].
  - by exists 0.
  - destruct (decide (a = b)) as [->|Hne].
    + rewrite (bool_decide_eq_true_2 (b = b)) by done. cbn [negb]. destruct (IH l2 (length l1)) as (c & -> & Hc); [done|lia|].
      exists c. split; [done|]. rewrite Hc. naive_solver.
    + rewrite (bool_decide_eq_false_2 (a = b)) by done. cbn [negb]. exists (a - b). split; [done|]. split; [lia|naive_solver].
Qed.

Section search.
Variable ram : Z -> option Z.

Lemma memcmp_at p l sig : mem_has ram p l -> (4 <= length l)%nat -> length sig = 4%nat ->
  exists c, (x ← bytes_at ram p 4; memcmp x sig 4) = Some c /\ (c = 0 <-> take 4 l = sig).
Proof.
  intros Hm Hl Hs. pose proof (mem_has_slice ram p l 0 4 Hm ltac:(lia)) as E. rewrite Z.add_0_r in E. rewrite E. cbn [mbind option_bind].
  apply memcmp_eq; [|done]. rewrite length_take. lia.
Qed.

Lemma mpsearch1_loop_ok n : forall p l fuel, mem_has ram p l -> length l = (16 * n)%nat -> bytes_ok l -> 0 <= p ->
  p + 16 * Z.of_nat n < 2 ^ 32 -> (n < fuel)%nat ->
  mpsearch1_loop ram fuel p (p + 16 * Z.of_nat n) = Some (from_option (fun k => p + 16 * Z.of_nat k) 0 (first_mp l n)).
Proof.
  induction n as [|n IH]; intros p l fuel Hm Hl Hok Hp He Hf; (destruct fuel as [|fuel]; [lia|]); cbn [mpsearch1_loop first_mp].
  - rewrite (bool_decide_eq_false_2 (p < _)) by lia. done.
  - rewrite (bool_decide_eq_true_2 (p < _)) by lia. destruct (memcmp_at p l sig_mp Hm) as (c & Hc & Ec); [lia|done|].
    rewrite <- (take_drop 16 l), mem_has_app in Hm. destruct Hm as [Hm1 Hm2]. rewrite <- (take_drop 16 l) in Hok. apply Forall_app in Hok as [Hok1 Hok2].
    assert (length (take 16 l) = 16%nat) as Hl1 by (rewrite length_take; lia). rewrite Hl1 in Hm2.
    specialize (IH (p + 16) (drop 16 l) fuel Hm2 ltac:(rewrite length_drop; lia) Hok2 ltac:(lia) ltac:(lia) ltac:(lia)).
    replace (p + 16 + 16 * Z.of_nat n) with (p + 16 * Z.of_nat (S n)) in IH by lia.
    assert (mpsearch1_loop ram fuel (u32 (p + SZ_MP)) (p + 16 * Z.of_nat (S n)) =
      Some (from_option (fun k => p + 16 * Z.of_nat k) 0 (S <$> first_mp (drop 16 l) n))) as Hnext.
    { change SZ_MP with 16. rewrite u32_small by lia. rewrite IH. f_equal. destruct (first_mp (drop 16 l) n); cbn; lia. }
    destruct (bytes_at ram p 4) as [x|]; [|done]. cbn [mbind option_bind] in *. rewrite Hc. cbn [mbind option_bind]. unfold is_mp at 1.
    rewrite take_take. change (4 `min` 16)%nat with 4%nat. destruct (decide (c = 0)) as [Hc0|Hc0].
    + rewrite (bool_decide_eq_true_2 (c = 0)), (bool_decide_eq_true_2 (take 4 l = _)) by (done || by apply Ec).
      pose proof (sum_ok ram p (take 16 l) Hok1 Hm1 ltac:(lia)) as Hs. rewrite Hl1 in Hs. change (Z.of_nat 16) with SZ_MP in Hs. rewrite Hs.
      cbn [mbind option_bind andb]. destruct (sum_list (take 16 l) mod 256 =z 0); [cbn; f_equal; lia|exact Hnext].
    + rewrite (bool_decide_eq_false_2 (c = 0)), (bool_decide_eq_false_2 (take 4 l = _)) by (done || by rewrite <- Ec). exact Hnext.
Qed.

(** [mpsearch1] finds the first structure of a range. *)
Theorem mpsearch1_correct a l n : mem_has ram (P2V a) l -> length l = (16 * n)%nat -> bytes_ok l -> P2V a + 16 * Z.of_nat n < 2 ^ 32 ->
  mpsearch1 ram a (16 * Z.of_nat n) = Some (from_option (fun k => P2V a + 16 * Z.of_nat k) 0 (first_mp l n)).
Proof.
  intros Hm Hl Hok He. unfold mpsearch1. change SZ_MP with 16. rewrite Z.mul_comm, Z.div_mul, Nat2Z.id by lia.
  pose proof (u32_range (a + KERNBASE)) as Hr. fold (P2V a) in Hr. rewrite Z.mul_comm, u32_small by lia. apply mpsearch1_loop_ok; try done; lia.
Qed.
End search.

(** ** mpinit *)

(** The tables of the firmware: the structure at [mp] points to a table of the
    header [hd] and the bytes [body]. *)
Record mp_tables (ram : Z -> option Z) (mp pa imcrp : Z) (hd body : list Z) : Prop := {
  mt_search : mpsearch ram = Some mp;
  mt_mp : mp <> 0;
  mt_phys : le_val <$> bytes_at ram (mp + 4) 4 = Some pa;
  mt_pa : pa <> 0;
  mt_imcrp : ram (u32 (mp + 12)) = Some imcrp;
  mt_mem : mem_has ram (P2V pa) (hd ++ body);
  mt_ok : bytes_ok (hd ++ body);
  mt_hd : length hd = 44%nat;
  mt_sig : take 4 hd = sig_conf;
  mt_len : get16 hd 4 = Z.of_nat (length (hd ++ body));
  mt_size : Z.of_nat (length (hd ++ body)) < 2 ^ 16;
  mt_version : hd !! 6%nat = Some 1 \/ hd !! 6%nat = Some 4;
  mt_sum : sum_list (hd ++ body) mod 256 = 0;
  mt_top : P2V pa + Z.of_nat (length (hd ++ body)) < 2 ^ 32
}.

Section init.
Variables (ram : Z -> option Z) (imcr mp pa imcrp : Z) (hd body : list Z).
Hypothesis tables : mp_tables ram mp pa imcrp hd body.

Lemma table_bytes off n : (off + n <= 44)%nat -> bytes_at ram (P2V pa + Z.of_nat off) n = Some (slice off n hd).
Proof.
  intros Hl. pose proof (mt_mem _ _ _ _ _ _ tables) as Hm. apply mem_has_app in Hm as [Hm _]. apply mem_has_slice; [done|].
  by rewrite (mt_hd _ _ _ _ _ _ tables).
Qed.

Lemma mpconfig_ok : mpconfig ram = Some (Some (P2V pa, mp)).
Proof.
  destruct tables as [T1 T2 T3 T4 T5 T6 T7 T8 T9 T10 T11 T12 T13 T14]. unfold mpconfig. rewrite T1. cbn [mbind option_bind].
  rewrite (bool_decide_eq_false_2 (mp = 0)) by done. rewrite T3. cbn [mbind option_bind]. rewrite (bool_decide_eq_false_2 (pa = 0)) by done. cbv zeta.
  destruct (memcmp_at ram (P2V pa) _ sig_conf T6) as (c & Hc & Ec); [rewrite length_app; lia|done|].
  destruct (bytes_at ram (P2V pa) 4) as [x|]; [|done]. cbn [mbind option_bind] in *. rewrite Hc. cbn [mbind option_bind].
  rewrite (bool_decide_eq_true_2 (c = 0)); [|apply Ec; rewrite take_app_le by lia; done]. cbn [negb].
  assert (exists v, ram (u32 (P2V pa + 6)) = Some v /\ (v = 1 \/ v = 4)) as (v & Hv & Ev).
  { change 6 with (Z.of_nat 6). destruct T12 as [E|E]; eexists; (split; [eapply mem_has_byte; [exact T6|by apply lookup_app_l_Some]|]); auto. }
  rewrite Hv. cbn [mbind option_bind]. replace (negb (v =z 1) && negb (v =z 4)) with false by (destruct Ev as [-> | ->]; done).
  pose proof (table_bytes 4 2 ltac:(lia)) as E4. change (Z.of_nat 4) with 4 in E4. rewrite E4. cbn [fmap option_fmap option_map mbind option_bind].
  change (le_val (slice 4 2 hd)) with (get16 hd 4). rewrite T10, sum_ok, T13 by done. done.
Qed.

(** [mpinit] up to the loop. *)
Lemma mpinit_loop fuel (s : mpstate) : mpinit ram imcr fuel s =
  (ismp ← mp_entries ram fuel (P2V pa + 44) (P2V pa + 44 + Z.of_nat (length body)) true;
   if negb ismp then panic "Didn't find a suitable machine" else
   when (c_bool imcrp) (mp_outb 0x22 0x70 ;; mp_outb 0x23 (Z.lor imcr 1))) (set_lapic (get32 hd 36) s).
Proof.
  unfold mpinit, of_option. rewrite mpconfig_ok. pose proof (table_bytes 36 4 ltac:(lia)) as E36. change (Z.of_nat 36) with 36 in E36.
  pose proof (table_bytes 4 2 ltac:(lia)) as E4. change (Z.of_nat 4) with 4 in E4. pose proof (mt_hd _ _ _ _ _ _ tables) as Hh.
  pose proof (mt_top _ _ _ _ _ _ tables) as Ht. pose proof (mt_len _ _ _ _ _ _ tables) as El. rewrite length_app, Hh in Ht, El.
  pose proof (u32_range (pa + KERNBASE)) as Hr. fold (P2V pa) in Hr.
  unfold mbind, M_bind, mret, M_ret, modify. cbv beta iota. rewrite E36, E4. cbv beta iota.
  change (le_val (slice 4 2 hd)) with (get16 hd 4). change (le_val (slice 36 4 hd)) with (get32 hd 36).
  rewrite El. change SZ_MPCONF with 44. rewrite (u32_small (P2V pa + 44)), (u32_small (P2V pa + Z.of_nat _)) by lia.
  rewrite (mt_imcrp _ _ _ _ _ _ tables).
  replace (P2V pa + Z.of_nat (44 + length body)) with (P2V pa + 44 + Z.of_nat (length body)) by lia. cbv beta iota.
  destruct (mp_entries _ _ _ _ _ _) as [[]| | |]; done.
Qed.
End init.

(** C30: [mpinit] on the tables of the firmware registers the processors in the
    order of the table, the first NCPU of them however many there are, the last
    interrupt controller and the address of the local one, and switches the
    interrupt mode when the tables ask for it. *)
Theorem mpinit_correct ram imcr mp pa imcrp hd xs fuel (s : mpstate) :
  mp_tables ram mp pa imcrp hd (encs xs) -> Forall entry_ok xs -> ncpu s = 0 -> length (mp_cpus s) = NCPU -> (length xs < fuel)%nat ->
  wp (mpinit ram imcr fuel) (fun _ s' =>
    ncpu s' = Z.min (Z.of_nat NCPU) (Z.of_nat (length (apicids xs))) /\ length (mp_cpus s') = NCPU /\
    take (Z.to_nat (ncpu s')) (mp_cpus s') = take NCPU (apicids xs) /\
    ioapicid s' = default (ioapicid s) (last (apicnos xs)) /\ lapic s' = get32 hd 36 /\
    mp_out s' = mp_out s ++ (if decide (imcrp = 0) then [] else [(0x22, 0x70); (0x23, Z.lor imcr 1)])) s.
Proof.
  intros HT Hok Hn Hl Hf. unfold wp. rewrite (mpinit_loop ram imcr mp pa imcrp hd _ HT). pose proof (mt_mem _ _ _ _ _ _ HT) as Hm.
  apply mem_has_app in Hm as [_ Hm]. pose proof (mt_top _ _ _ _ _ _ HT) as Ht. rewrite (mt_hd _ _ _ _ _ _ HT) in Hm. rewrite length_app, (mt_hd _ _ _ _ _ _ HT) in Ht.
  change (Z.of_nat 44) with 44 in Hm. pose proof (u32_range (pa + KERNBASE)) as Hr. fold (P2V pa) in Hr.
  unfold mbind at 1, M_bind at 1. rewrite mp_entries_ok by (done || lia). cbn [negb].
  destruct (register_ids xs (set_lapic (get32 hd 36) s)) as (E1 & E2 & E3 & E4 & E5 & E6); [cbn; lia|done|].
  set (s1 := foldl register _ xs) in *. cbn [ncpu ioapicid lapic mp_out set_lapic mp_cpus] in *. rewrite Hn in *.
  unfold when, mp_outb, c_bool. destruct (decide (imcrp = 0)) as [Hi|Hi].
  - rewrite (bool_decide_eq_true_2 (imcrp = 0)) by done. cbn [negb]. rewrite app_nil_r. split_and!; done.
  - rewrite (bool_decide_eq_false_2 (imcrp = 0)) by done. cbn [negb]. unfold mbind, M_bind, modify. cbn [ncpu ioapicid lapic mp_out mp_cpus].
    rewrite E6, <- app_assoc. split_and!; done.
Qed.

(** C31: an entry of a type that [mpinit] does not know makes it loop for
    ever: no amount of fuel is enough, and the panic it means to end in is
    never reached. *)
Theorem mpinit_unknown_entry ram imcr mp pa imcrp hd xs t rest fuel (s : mpstate) :
  mp_tables ram mp pa imcrp hd (encs xs ++ t :: rest) -> Forall entry_ok xs -> 4 < t -> mpinit ram imcr fuel s = Fault "mpinit".
Proof.
  intros HT Hok Ht. rewrite (mpinit_loop ram imcr mp pa imcrp hd _ HT). pose proof (mt_mem _ _ _ _ _ _ HT) as Hm.
  pose proof (mt_top _ _ _ _ _ _ HT) as Htop. pose proof (mt_hd _ _ _ _ _ _ HT) as Hh. apply mem_has_app in Hm as [_ Hm]. rewrite Hh in Hm.
  apply mem_has_app in Hm as [Hm [Hmt _]%mem_has_cons]. rewrite !length_app, Hh in Htop. rewrite length_app. cbn [length] in *.
  change (Z.of_nat 44) with 44 in *. pose proof (u32_range (pa + KERNBASE)) as Hr. fold (P2V pa) in Hr.
  assert (forall ismp s0, mp_entries ram fuel (P2V pa + 44) (P2V pa + 44 + Z.of_nat (length (encs xs) + S (length rest))) ismp s0 = Fault "mpinit") as E.
  { intros ismp s0. destruct (decide (fuel <= length xs)%nat) as [Hf|Hf]; [apply (mp_entries_short ram xs); done || lia|].
    replace fuel with (length xs + (fuel - length xs))%nat by lia. rewrite mp_entries_run by (done || lia).
    apply (mp_entries_stuck ram t); [done|done|lia]. }
  unfold mbind, M_bind. by rewrite E.
Qed.

(** *** A machine with two processors *)

Definition mx_entries : list mp_entry :=
  [EProc 0 (replicate 18 0); EProc 3 (replicate 18 0); EOther MPBUS (replicate 7 0); EIoapic 2 (replicate 6 0)].
(** A header for [n] bytes of entries, with the byte [c] to make the sum 0. *)
Definition mx_header (n c : Z) : list Z :=
  sig_conf ++ le_bytes 2 (44 + n) ++ [4; c] ++ replicate 28 0 ++ le_bytes 4 0xFEE00000 ++ replicate 4 0.
(** The areas of memory: the words of the BIOS, the extended area with the
    structure in its second slot, and the table at 0x9FC40. *)
Definition mx_areas (table : list Z) : list (Z * list Z) :=
  [(P2V 0x400, replicate 14 0 ++ [0xC0; 0x9F] ++ replicate 240 0);
   (P2V 0x9FC00, replicate 16 0 ++ sig_mp ++ le_bytes 4 0x9FC40 ++ [1; 4; 0x5B; 0; 0; 0; 0; 0] ++ replicate 32 0);
   (P2V 0x9FC40, table)].
Definition mx_ram (table : list Z) (a : Z) : option Z :=
  foldr (fun r o => if decide (fst r <= a) then match snd r !! Z.to_nat (a - fst r) with Some b => Some b | None => o end else o) None (mx_areas table).
Definition mx_start : mpstate := Mpstate (replicate NCPU 0) 0 0 0 [].

Definition mx_table : list Z := mx_header 56 130 ++ encs mx_entries.
(** The same with an entry of type 9 at the end. *)
Definition mx_bad : list Z := mx_header 57 120 ++ encs mx_entries ++ [9].

Ltac mx_field := first [vm_compute; reflexivity|vm_compute; discriminate|apply bytes_okb_ok; vm_compute; reflexivity].

Lemma mx_good_tables : mp_tables (mx_ram mx_table) (P2V 0x9FC10) 0x9FC40 0 (mx_header 56 130) (encs mx_entries).
Proof. split; [mx_field|mx_field|mx_field|mx_field|mx_field|mx_field|mx_field|mx_field|mx_field|mx_field|mx_field|right; mx_field|mx_field|mx_field]. Qed.
Lemma mx_bad_tables : mp_tables (mx_ram mx_bad) (P2V 0x9FC10) 0x9FC40 0 (mx_header 57 120) (encs mx_entries ++ [9]).
Proof. split; [mx_field|mx_field|mx_field|mx_field|mx_field|mx_field|mx_field|mx_field|mx_field|mx_field|mx_field|right; mx_field|mx_field|mx_field]. Qed.
Lemma mx_entries_ok : Forall entry_ok mx_entries.
Proof. repeat constructor. Qed.

Lemma mpinit_correct_witness : wp (mpinit (mx_ram mx_table) 0 5) (fun _ s' => ncpu s' = 2 /\ take 2 (mp_cpus s') = [0; 3] /\ ioapicid s' = 2) mx_start.
Proof.
  eapply wp_mono; [apply (mpinit_correct (mx_ram mx_table) 0 (P2V 0x9FC10) 0x9FC40 0 (mx_header 56 130) mx_entries 5 mx_start
    mx_good_tables mx_entries_ok eq_refl eq_refl ltac:(cbn; lia))|].
  intros [] s' (E1 & _ & E3 & E4 & _). rewrite E1 in E3. exact (conj E1 (conj E3 E4)).
Defined.

Lemma mpinit_unknown_entry_witness : mpinit (mx_ram mx_bad) 0 1000 mx_start = Fault "mpinit".
Proof.
  exact (mpinit_unknown_entry (mx_ram mx_bad) 0 (P2V 0x9FC10) 0x9FC40 0 (mx_header 57 120) mx_entries 9 [] 1000 mx_start
    mx_bad_tables mx_entries_ok eq_refl).
Defined.
