(* ===== verification/Mkfs.v ===== *)
(** * The builder of the disk image

    [mkfs.c], a program of the host that writes the disk with which the kernel
    starts: the superblock, an empty log, the inodes, the root directory with
    the files named on the command line, and the bitmap.  The image is a file
    of whole sectors.  The byte order of the host, the sectors it has room
    for, and what [open] and [read] deliver are parameters; a program that
    ends with [exit(1)] or at an assertion is [Panic].  The messages on the
    standard output are left out. *)

From S2P Require Import Prelude Bytes Params.
Local Open Scope Z_scope.

Definition NINODES : Z := 200.
Definition nbitmap : Z := FSSIZE / (BSIZEz * 8) + 1.
Definition ninodeblocks : Z := NINODES / IPB + 1.
Definition nlog : Z := Z.of_nat LOGSIZE.
Definition nmeta : Z := 2 + nlog + ninodeblocks + nbitmap.
Definition nblocks : Z := FSSIZE - nmeta.
(** [sizeof(struct dinode)], [sizeof(struct dirent)]. *)
Definition SZ_DINODE : nat := 64.
Definition SZ_DIRENT : nat := 16.

Inductive endian := Little | Big.

(** The image and the global variables. *)
Record mkfs := Mkfs { im : list (list Z); fsb : superblock; freeinode : Z; freeblock : Z }.
Definition set_im (l : list (list Z)) (s : mkfs) : mkfs := Mkfs l (fsb s) (freeinode s) (freeblock s).
Definition set_fsb (b : superblock) (s : mkfs) : mkfs := Mkfs (im s) b (freeinode s) (freeblock s).
Definition set_freeinode (i : Z) (s : mkfs) : mkfs := Mkfs (im s) (fsb s) i (freeblock s).
Definition set_freeblock (b : Z) (s : mkfs) : mkfs := Mkfs (im s) (fsb s) (freeinode s) b.
(** Before [main]; [open] empties the image. *)
Definition mkfs_start : mkfs := Mkfs [] (Superblock 0 0 0 0 0 0 0) 1 0.

Section mkfs.
Variable host : endian.
(** How many sectors the host can store. *)
Variable room : nat.
(** Whether the image can be opened; what the calls of [read] on a file
    deliver, if it can be opened. *)
Variable fsopen : list Z -> bool.
Variable files : list Z -> option (list (list Z)).

(** ** Integers in the memory of the host *)

Definition hbytes (n : nat) (x : Z) : list Z :=
  match host with Little => le_bytes n x | Big => rev (le_bytes n x) end.
Definition hval (l : list Z) : Z :=
  match host with Little => le_val l | Big => le_val (rev l) end.
Definition load (n : nat) (d : list Z) (off : nat) : Z := hval (slice off n d).
Definition store (n : nat) (d : list Z) (off : nat) (x : Z) : list Z := splice off (hbytes n x) d.

Definition xshort (x : Z) : Z := hval [u8 x; u8 (Z.shiftr x 8)].
Definition xint (x : Z) : Z := hval [u8 x; u8 (Z.shiftr x 8); u8 (Z.shiftr x 16); u8 (Z.shiftr x 24)].

(** ** Sectors *)

(** A write behind the end of a file fills the gap with zeros. *)
Definition put_sector (l : list (list Z)) (k : nat) (d : list Z) : list (list Z) :=
  if decide (k < length l)%nat then <[k := d]> l
  else l ++ replicate (k - length l) (replicate BSIZE 0) ++ [d].

(** The offset is a [uint]; [lseek] accepts all of them. *)
Definition sector_at (sec : Z) : nat := Z.to_nat (u32 (sec * BSIZEz) / BSIZEz).

Definition wsect (sec : Z) (buf : list Z) : M mkfs unit :=
  if decide (sector_at sec < room)%nat then modify (fun s => set_im (put_sector (im s) (sector_at sec) buf) s)
  else panic "write".

Definition rsect (sec : Z) : M mkfs (list Z) :=
  s ← get;
  match im s !! sector_at sec with
  | Some d => mret d
  | None => panic "read"
  end.

(** ** Inodes: 64 bytes as they are in memory and on disk *)

Definition din_off (inum : Z) : nat := Z.to_nat (inum mod IPB) * SZ_DINODE.

Definition winode (inum : Z) (ip : list Z) : M mkfs unit :=
  sb ← gets fsb;
  let bn := u32 (IBLOCK inum sb) in
  buf ← rsect bn;
  wsect bn (splice (din_off inum) ip buf).

Definition rinode (inum : Z) : M mkfs (list Z) :=
  sb ← gets fsb;
  let bn := u32 (IBLOCK inum sb) in
  buf ← rsect bn;
  mret (slice (din_off inum) SZ_DINODE buf).

Definition OFF_TYPE : nat := 0.
Definition OFF_NLINK : nat := 6.
Definition OFF_SIZE : nat := 8.
Definition OFF_ADDR (k : Z) : nat := (12 + 4 * Z.to_nat k)%nat.

Definition ialloc (type : Z) : M mkfs Z :=
  inum ← gets freeinode;
  modify (set_freeinode (u32 (inum + 1))) ;;
  let din := replicate SZ_DINODE 0 in
  let din := store 2 din OFF_TYPE (xshort type) in
  let din := store 2 din OFF_NLINK (xshort 1) in
  let din := store 4 din OFF_SIZE (xint 0) in
  winode inum din ;;
  mret inum.

(** [freeblock++] *)
Definition next_block : M mkfs Z :=
  b ← gets freeblock;
  modify (set_freeblock (u32 (b + 1))) ;;
  mret b.

(** The loop of [balloc], from bit [i] on. *)
Fixpoint mark_bits (n : nat) (i : Z) (buf : list Z) : list Z :=
  match n with
  | O => buf
  | S n' =>
      let k := Z.to_nat (Z.quot i 8) in
      mark_bits n' (i + 1) (<[k := u8 (Z.lor (nth k buf 0) (Z.shiftl 1 (Z.rem i 8)))]> buf)
  end.

Definition balloc (used : Z) : M mkfs unit :=
  if negb (used <z BSIZEz * 8) then panic "assert" else
  let buf := mark_bits (Z.to_nat used) 0 (replicate BSIZE 0) in
  sb ← gets fsb;
  wsect (sb_bmapstart sb) buf.

(** The block number [x] for block [fbn] of a file. *)
Definition iappend_block (din : list Z) (fbn : Z) : M mkfs (list Z * Z) :=
  if fbn <z Z.of_nat NDIRECT then
    din ← (if xint (load 4 din (OFF_ADDR fbn)) =z 0 then
             b ← next_block;
             mret (store 4 din (OFF_ADDR fbn) (xint b))
           else mret din);
    mret (din, xint (load 4 din (OFF_ADDR fbn)))
  else
    let ind := OFF_ADDR (Z.of_nat NDIRECT) in
    let slot := (4 * Z.to_nat (fbn - Z.of_nat NDIRECT))%nat in
    din ← (if xint (load 4 din ind) =z 0 then
             b ← next_block;
             mret (store 4 din ind (xint b))
           else mret din);
    indirect ← rsect (xint (load 4 din ind));
    indirect ← (if load 4 indirect slot =z 0 then
                  b ← next_block;
                  let indirect := store 4 indirect slot (xint b) in
                  wsect (xint (load 4 din ind)) indirect ;;
                  mret indirect
                else mret indirect);
    mret (din, xint (load 4 indirect slot)).

(** The loop of [iappend], with the bytes that are left; a turn stores at
    least one of them. *)
Fixpoint iappend_loop (fuel : nat) (din : list Z) (off : Z) (p : list Z) : M mkfs (list Z * Z) :=
  match p with
  | [] => mret (din, off)
  | _ =>
      match fuel with
      | O => fault "iappend"
      | S fuel' =>
          let fbn := off / BSIZEz in
          if negb (fbn <z MAXFILE) then panic "assert" else
          '(din, x) ← iappend_block din fbn;
          let n1 := Z.to_nat (Z.min (Z.of_nat (length p)) (u32 ((fbn + 1) * BSIZEz - off))) in
          buf ← rsect x;
          wsect x (splice (Z.to_nat (off - fbn * BSIZEz)) (take n1 p) buf) ;;
          iappend_loop fuel' din (u32 (off + Z.of_nat n1)) (drop n1 p)
      end
  end.

Definition iappend (inum : Z) (p : list Z) : M mkfs unit :=
  din ← rinode inum;
  let off := xint (load 4 din OFF_SIZE) in
  '(din, off) ← iappend_loop (length p) din off p;
  winode inum (store 4 din OFF_SIZE (xint off)).

(** ** [main] *)

Definition libc_strcpy (t : list Z) : list Z := t ++ [0].
Definition libc_strncpy (t : list Z) (n : nat) : list Z := take n (t ++ replicate n 0).

(** [bzero(&de, sizeof(de)); de.inum = xshort(inum);] and the copy of the name. *)
Definition fill_dirent (inum : Z) (name : list Z) : list Z :=
  splice 2 name (store 2 (replicate SZ_DIRENT 0) 0 (xshort (u16 inum))).

Fixpoint copy_file (inum : Z) (reads : list (list Z)) : M mkfs unit :=
  match reads with
  | [] | [] :: _ => mret tt
  | buf :: reads' => iappend inum buf ;; copy_file inum reads'
  end.

Definition dst_name (arg : list Z) : list Z :=
  match arg with
  | 95 :: rest => rest
  | _ => arg
  end.

Definition add_file (rootino : Z) (arg : list Z) : M mkfs unit :=
  if bool_decide (47 ∈ arg) then panic "assert" else
  match files arg with
  | None => panic "open"
  | Some reads =>
      inum ← ialloc T_FILE;
      iappend rootino (fill_dirent inum (libc_strncpy (dst_name arg) DIRSIZ)) ;;
      copy_file inum reads
  end.

Fixpoint add_files (rootino : Z) (args : list (list Z)) : M mkfs unit :=
  match args with
  | [] => mret tt
  | arg :: args' => add_file rootino arg ;; add_files rootino args'
  end.

Definition sb_bytes (sb : superblock) : list Z :=
  concat (hbytes 4 <$> [sb_size sb; sb_nblocks sb; sb_ninodes sb; sb_nlog sb; sb_logstart sb; sb_inodestart sb; sb_bmapstart sb]).

(** Up to the root directory with its two entries. *)
Definition mkfs_init : M mkfs Z :=
  modify (set_fsb (Superblock (xint FSSIZE) (xint nblocks) (xint NINODES) (xint nlog) (xint 2) (xint (2 + nlog))
                              (xint (2 + nlog + ninodeblocks)))) ;;
  modify (set_freeblock nmeta) ;;
  for_loop (Z.to_nat FSSIZE) 0 (fun i => wsect i (replicate BSIZE 0)) ;;
  sb ← gets fsb;
  wsect 1 (splice 0 (sb_bytes sb) (replicate BSIZE 0)) ;;
  rootino ← ialloc T_DIR;
  if negb (rootino =z ROOTINO) then panic "assert" else
  iappend rootino (fill_dirent rootino (libc_strcpy [46])) ;;
  iappend rootino (fill_dirent rootino (libc_strcpy [46; 46])) ;;
  mret rootino.

(** The size of the root directory, and the bitmap. *)
Definition mkfs_finish (rootino : Z) : M mkfs unit :=
  din ← rinode rootino;
  let off := xint (load 4 din OFF_SIZE) in
  let off := u32 ((off / BSIZEz + 1) * BSIZEz) in
  winode rootino (store 4 din OFF_SIZE (xint off)) ;;
  b ← gets freeblock;
  balloc (s32 b).

Definition mkfs_main (argv : list (list Z)) : M mkfs unit :=
  match argv with
  | _ :: image :: args =>
      if negb (Z.of_nat BSIZE mod Z.of_nat SZ_DINODE =z 0) then panic "assert" else
      if negb (Z.of_nat BSIZE mod Z.of_nat SZ_DIRENT =z 0) then panic "assert" else
      if negb (fsopen image) then panic "open" else
      rootino ← mkfs_init;
      add_files rootino args ;;
      mkfs_finish rootino
  | _ => panic "Usage: mkfs fs.img files..."
  end.
End mkfs.
