(* ===== verification/MkfsRep.v ===== *)
(** * The image that the builder writes

    The image of [mkfs.c] in the terms of the file system of the kernel: the
    tree of files that [FsPath] and [FsData] find on it is the root directory
    with the files of the command line, and it meets the conditions under
    which the theorems on the kernel hold. *)

From S2P Require Import Prelude Bytes Params Machine BlockCache Journal Log CString Fs FsRep FsBlocks FsInodes FsContent FsData FsDir FsPath Mkfs.
Local Open Scope Z_scope.

(** ** A host with the byte order of the x86 *)

Lemma xint_little x : 0 <= x < 2 ^ 32 -> xint Little x = x.
Proof.
  intros Hx. unfold xint, hval. rewrite !Z.shiftr_div_pow2 by lia.
  transitivity (le_val (le_bytes 4 x)); [|rewrite le_val_bytes; by apply Z.mod_small].
  f_equal. cbn [le_bytes]. unfold u8. rewrite !Z.div_div by lia. done.
Qed.

Lemma xshort_little x : 0 <= x < 2 ^ 16 -> xshort Little x = x.
Proof.
  intros Hx. unfold xshort, hval. rewrite Z.shiftr_div_pow2 by lia.
  transitivity (le_val (le_bytes 2 x)); [done|]. rewrite le_val_bytes. by apply Z.mod_small.
Qed.

Lemma load32_little d o : load Little 4 d o = get32 d o.
Proof. done. Qed.
Lemma store32_little d o x : store Little 4 d o x = set32 d o x.
Proof. done. Qed.
Lemma store16_little d o x : store Little 2 d o x = set16 d o x.
Proof. done. Qed.

(** ** The state *)

Definition mksb : superblock := Superblock FSSIZE nblocks NINODES nlog 2 (2 + nlog) (2 + nlog + ninodeblocks).

Definition vol (s : mkfs) (b : Z) : list Z :=
  if decide (0 <= b) then default zero_block (im s !! Z.to_nat b) else zero_block.

(** The content of blocks, the next inode and the next block. *)
Record mrep (s : mkfs) (v : Z -> list Z) (fi fb : Z) : Prop := {
  mr_len : length (im s) = Z.to_nat FSSIZE;
  mr_val : forall b, vol s b = v b;
  mr_sb : fsb s = mksb;
  mr_fi : freeinode s = fi;
  mr_fb : freeblock s = fb
}.

Lemma sector_at_small b : 0 <= b < FSSIZE -> sector_at b = Z.to_nat b.
Proof.
  unfold FSSIZE. intros Hb. unfold sector_at, BSIZEz. rewrite u32_small by lia. by rewrite Z.div_mul by lia.
Qed.

Section ops.
Implicit Types (s : mkfs) (v : Z -> list Z).

Lemma wp_rsect s v fi fb b (Q : list Z -> mkfs -> Prop) : mrep s v fi fb -> 0 <= b < FSSIZE ->
  Q (v b) s -> wp (rsect b) Q s.
Proof.
  intros [] Hb HQ. unfold rsect. wp_steps. rewrite sector_at_small by done.
  destruct (lookup_lt_is_Some_2 (im s) (Z.to_nat b)) as [d Hd]; [lia|]. rewrite Hd. wp_step.
  rewrite <- mr_val0 in HQ. unfold vol in HQ. rewrite decide_True, Hd in HQ by lia. exact HQ.
Qed.

Lemma wp_next_block s v fi fb (Q : Z -> mkfs -> Prop) : mrep s v fi fb -> 0 <= fb < FSSIZE ->
  (forall s', mrep s' v fi (fb + 1) -> Q fb s') -> wp next_block Q s.
Proof.
  intros [] Hb HQ. unfold next_block. wp_steps. rewrite mr_fb0. apply HQ.
  split; try done. cbn. apply u32_small. unfold FSSIZE in Hb. lia.
Qed.

Definition iblock (n : Z) : Z := n / IPB + 32.
Lemma iblock_sb n : IBLOCK n mksb = iblock n.
Proof. done. Qed.
Lemma iblock_range n : 0 <= n < NINODES -> 32 <= iblock n < 58.
Proof.
  unfold iblock, NINODES, IPB. intros Hn. pose proof (Z.div_pos n 8 ltac:(lia) ltac:(lia)).
  pose proof (Z.div_lt_upper_bound n 8 26 ltac:(lia) ltac:(lia)). lia.
Qed.
Lemma din_off_eq n : 0 <= n -> din_off n = dinode_off n.
Proof.
  intros Hn. unfold din_off, dinode_off, SZ_DINODE, IPB. pose proof (Z.mod_pos_bound n 8 ltac:(lia)). lia.
Qed.

(** The block of inode [n] with the 64 bytes [d] in its place. *)
Definition put_inode v (n : Z) (d : list Z) : Z -> list Z :=
  upd_blk v (iblock n) (splice (dinode_off n) d (v (iblock n))).

Lemma wp_rinode s v fi fb n (Q : list Z -> mkfs -> Prop) : mrep s v fi fb -> 0 <= n < NINODES ->
  Q (slice (dinode_off n) 64 (v (iblock n))) s -> wp (rinode n) Q s.
Proof.
  intros Hr Hn HQ. pose proof (iblock_range n Hn). unfold rinode. wp_steps. rewrite (mr_sb _ _ _ _ Hr), iblock_sb.
  rewrite u32_small by lia. eapply wp_rsect; [done|unfold FSSIZE; lia|]. wp_step.
  by rewrite din_off_eq by lia.
Qed.

Context (room : nat) (Hroom : (Z.to_nat FSSIZE <= room)%nat).
Lemma wp_wsect s v fi fb b d (Q : unit -> mkfs -> Prop) : mrep s v fi fb -> 0 <= b < FSSIZE ->
  (forall s', mrep s' (upd_blk v b d) fi fb -> Q tt s') -> wp (wsect room b d) Q s.
Proof using Hroom.
  intros [] Hb HQ. unfold wsect. rewrite sector_at_small by done. rewrite decide_True by lia.
  wp_step. apply HQ. unfold put_sector. rewrite decide_True by lia.
  split; cbn [set_im im fsb freeinode freeblock]; try done; [by rewrite length_insert|].
  intros b'. unfold upd_blk. rewrite <- mr_val0. unfold vol. cbn [set_im im]. destruct (decide (b' = b)) as [->|Hne].
  - rewrite decide_True by lia. by rewrite list_lookup_insert_eq by lia.
  - case_decide; [|done]. by rewrite list_lookup_insert_ne by lia.
Qed.

Lemma wp_winode s v fi fb n d (Q : unit -> mkfs -> Prop) : mrep s v fi fb -> 0 <= n < NINODES ->
  (forall s', mrep s' (put_inode v n d) fi fb -> Q tt s') -> wp (winode room n d) Q s.
Proof using Hroom.
  intros Hr Hn HQ. pose proof (iblock_range n Hn). unfold winode. wp_steps. rewrite (mr_sb _ _ _ _ Hr), iblock_sb.
  rewrite u32_small by lia. eapply wp_rsect; [done|unfold FSSIZE; lia|].
  rewrite din_off_eq by lia. eapply wp_wsect; [done|unfold FSSIZE; lia|done].
Qed.
End ops.

(** ** Arrays of words, and inodes *)

(** [l] with zeros behind it, [n] elements in all. *)
Definition padz (n : nat) (l : list Z) : list Z := take n (l ++ replicate n 0).
Definition words (l : list Z) : list Z := concat (le_bytes 4 <$> l).

Section words.
Local Open Scope nat_scope.

Lemma length_padz n l : length (padz n l) = n.
Proof. unfold padz. rewrite length_take, length_app, length_replicate. lia. Qed.

Lemma nth_replicate0 n k : nth k (replicate n 0%Z) 0%Z = 0%Z.
Proof. revert k. induction n as [|n IH]; intros [|k]; cbn; auto. Qed.

Lemma nth_app_zeros (l : list Z) n k : nth k (l ++ replicate n 0%Z) 0%Z = nth k l 0%Z.
Proof.
  destruct (decide (k < length l)); [by rewrite app_nth1|]. rewrite app_nth2, nth_replicate0 by lia.
  by rewrite nth_overflow by lia.
Qed.

Lemma nth_padz n l k : k < n -> nth k (padz n l) 0%Z = nth k l 0%Z.
Proof.
  intros Hk. rewrite <- (nth_app_zeros l n). unfold padz. set (x := l ++ replicate n 0%Z).
  rewrite <- (take_drop n x) at 2. rewrite app_nth1; [done|]. unfold x.
  rewrite length_take, length_app, length_replicate. lia.
Qed.

Lemma padz_snoc n l x : length l < n -> <[length l := x]> (padz n l) = padz n (l ++ [x]).
Proof.
  intros Hl. unfold padz. rewrite !take_app_ge by (rewrite ?length_app; cbn; lia).
  rewrite insert_app_r_alt by lia. rewrite Nat.sub_diag, !take_replicate, length_app. cbn [length].
  rewrite <- app_assoc. f_equal. rewrite !Nat.min_l by lia.
  replace (n - length l) with (S (n - (length l + 1))) by lia. done.
Qed.

Lemma splice_app_r (a b src : list Z) o : splice (length a + o) src (a ++ b) = a ++ splice o src b.
Proof.
  unfold splice. rewrite take_app_add, <- app_assoc, <- Nat.add_assoc, drop_app_add. done.
Qed.
Lemma splice_app_l (a b src : list Z) o : o + length src <= length a -> splice o src (a ++ b) = splice o src a ++ b.
Proof.
  intros Hl. unfold splice. rewrite take_app_le, drop_app_le by lia. by rewrite <- !app_assoc.
Qed.
Lemma slice_app_r (a b : list Z) o n : slice (length a + o) n (a ++ b) = slice o n b.
Proof. unfold slice. by rewrite drop_app_add. Qed.
Lemma slice_app_l (a b : list Z) o n : o + n <= length a -> slice o n (a ++ b) = slice o n a.
Proof. intros Hl. unfold slice. rewrite drop_app_le by lia. rewrite take_app_le; [done|]. rewrite length_drop. lia. Qed.

Lemma set32_words l k x : k < length l -> set32 (words l) (4 * k) x = words (<[k := x]> l).
Proof.
  revert k. induction l as [|y l IH]; intros [|k] Hk; cbn [length] in Hk; try lia.
  - unfold set32. cbn [words fmap list_fmap concat]. change (words (y :: l)) with (le_bytes 4 y ++ words l).
    unfold splice. rewrite drop_app_length' by done. done.
  - change (words (y :: l)) with (le_bytes 4 y ++ words l). cbn [insert list_insert].
    change (words (y :: <[k := x]> l)) with (le_bytes 4 y ++ words (<[k := x]> l)). rewrite <- IH by lia.
    unfold set32. replace (4 * S k) with (length (le_bytes 4 y) + 4 * k) by (rewrite length_le_bytes; lia).
    by rewrite splice_app_r.
Qed.

Lemma get32_words l k : Forall (fun a => (0 <= a < 2 ^ 32)%Z) l -> k < length l -> get32 (words l) (4 * k) = nth k l 0%Z.
Proof.
  intros Hl Hk. destruct (lookup_lt_is_Some_2 l k Hk) as [x Hx]. unfold get32, words.
  rewrite (slice_words l k x Hx), le_val_bytes, (nth_lookup_Some l k 0%Z x Hx).
  apply Z.mod_small. exact (proj1 (Forall_lookup _ _) Hl k x Hx).
Qed.

Lemma words_zero n : words (replicate n 0%Z) = replicate (4 * n) 0%Z.
Proof.
  induction n as [|n IH]; [done|]. replace (4 * S n) with (4 + 4 * n) by lia.
  rewrite replicate_add, <- IH. done.
Qed.

(** The fields in front of the addresses. *)
Definition dinode_head (i : inode) : list Z :=
  le_bytes 2 (i_type i) ++ le_bytes 2 (i_major i) ++ le_bytes 2 (i_minor i) ++
  le_bytes 2 (i_nlink i) ++ le_bytes 4 (i_size i).
Lemma dinode_bytes_split i : dinode_bytes i = dinode_head i ++ words (i_addrs i).
Proof. unfold dinode_bytes, dinode_head. by rewrite <- !app_assoc. Qed.
Lemma length_dinode_head i : length (dinode_head i) = 12.
Proof. done. Qed.

Lemma get_din_addr i k : inode_wf i -> k < 13 -> get32 (dinode_bytes i) (12 + 4 * k) = iaddr i k.
Proof.
  intros Hi Hk. rewrite dinode_bytes_split. unfold get32. rewrite <- (length_dinode_head i), slice_app_r.
  apply get32_words; [apply Hi|]. rewrite (iw_addrs _ Hi). exact Hk.
Qed.
Lemma set_din_addr i k a : length (i_addrs i) = 13 -> k < 13 ->
  set32 (dinode_bytes i) (12 + 4 * k) a = dinode_bytes (set_i_addr k a i).
Proof.
  intros Hi Hk. rewrite !dinode_bytes_split. unfold set32. rewrite <- (length_dinode_head i), splice_app_r.
  fold (set32 (words (i_addrs i)) (4 * k) a). by rewrite set32_words by lia.
Qed.
Lemma get_din_size i : inode_wf i -> get32 (dinode_bytes i) 8 = i_size i.
Proof.
  intros Hi. unfold get32. transitivity (le_val (le_bytes 4 (i_size i))); [done|].
  rewrite le_val_bytes. apply Z.mod_small, Hi.
Qed.
Lemma set_din_size i z : set32 (dinode_bytes i) 8 z = dinode_bytes (set_i_size z i).
Proof. done. Qed.
End words.

(** ** Files *)

(** A file of the image: the fields of its inode, the bytes that were
    appended, the data blocks in their order and the indirect block (or 0). *)
Record mfile := Mfile { mf_type : Z; mf_size : Z; mf_data : list Z; mf_blks : list Z; mf_ind : Z }.

Definition finode (n : Z) (f : mfile) : inode :=
  Inode ROOTDEV n 1 1 (mf_type f) 0 0 1 (mf_size f) (padz 12 (mf_blks f) ++ [mf_ind f]).

Definition fblocks (f : mfile) : list Z := (if decide (mf_ind f = 0) then [] else [mf_ind f]) ++ mf_blks f.

Record file_at (v : Z -> list Z) (f : mfile) : Prop := {
  fa_type : mf_type f = T_DIR \/ mf_type f = T_FILE;
  fa_size : 0 <= mf_size f < 2 ^ 32;
  fa_len : (length (mf_blks f) <= 140)%nat;
  fa_ind : mf_ind f = 0 <-> (length (mf_blks f) <= 12)%nat;
  fa_words : mf_ind f <> 0 -> v (mf_ind f) = words (padz NINDIRECT (drop 12 (mf_blks f)));
  fa_fit : (length (mf_data f) <= BSIZE * length (mf_blks f))%nat;
  fa_data : concat (v <$> mf_blks f) =
    mf_data f ++ replicate (BSIZE * length (mf_blks f) - length (mf_data f)) 0
}.

Definition allblocks (st : list mfile) : list Z := st ≫= fblocks.

(** All files, with [fb] as the next block. *)
Record data_ok (v : Z -> list Z) (fb : Z) (st : list mfile) : Prop := {
  da_vol : vol_ok v;
  da_file : Forall (file_at v) st;
  da_nodup : NoDup (allblocks st);
  da_range : Forall (fun b => nmeta <= b < fb) (allblocks st);
  da_count : fb = nmeta + Z.of_nat (length (allblocks st));
  da_zero : forall b, fb <= b < FSSIZE -> v b = zero_block
}.

Section files.
Implicit Types (v : Z -> list Z) (f g : mfile) (st l : list mfile).

Lemma file_frame v v' f : file_at v f -> (forall b, b ∈ fblocks f -> v' b = v b) -> file_at v' f.
Proof.
  intros [] Hv. split; try done.
  - intros Hi. rewrite Hv; [auto|]. unfold fblocks. rewrite decide_False by done. set_solver.
  - rewrite <- fa_data0. f_equal. apply list_fmap_ext. intros k b Hb%list_elem_of_lookup_2. apply Hv.
    unfold fblocks. set_solver.
Qed.

Lemma data_pos v fb st b : data_ok v fb st -> b ∈ allblocks st -> b <> 0 /\ nmeta <= b < fb.
Proof.
  intros Hd Hb. pose proof (proj1 (Forall_forall _ _) (da_range _ _ _ Hd) b Hb) as Hr. split; [|done].
  intros ->. change (59 <= 0 < fb) in Hr. lia.
Qed.

Lemma fblocks_split l1 f l2 : allblocks (l1 ++ f :: l2) ≡ₚ fblocks f ++ (allblocks l1) ++ (allblocks l2).
Proof. unfold allblocks. rewrite bind_app. cbn [mbind list_bind]. solve_Permutation. Qed.

(** One file gets the blocks from [fb] on and other content in its own. *)
Lemma data_change v fb l1 f l2 v' (m : Z) f' : 0 <= m ->
  data_ok v fb (l1 ++ f :: l2) -> fblocks f' ≡ₚ fblocks f ++ seqZ fb m ->
  (forall b, b ∉ fblocks f' -> v' b = v b) -> vol_ok v' -> file_at v' f' ->
  data_ok v' (fb + m) (l1 ++ f' :: l2).
Proof.
  intros Hm [Hv Hf Hnd Hr Hc Hz] Hb Hsame Hv' Hf'.
  assert (allblocks (l1 ++ f' :: l2) ≡ₚ seqZ fb m ++ (allblocks (l1 ++ f :: l2))) as Hp.
  { rewrite !fblocks_split, Hb. solve_Permutation. }
  assert (NoDup (allblocks (l1 ++ f' :: l2))) as Hnd'.
  { rewrite Hp. apply NoDup_app. split_and!; [apply NoDup_seqZ| |done]. intros b Hb1%elem_of_seqZ Hb2.
    pose proof (proj1 (Forall_forall _ _) Hr b Hb2) as Hx. cbv beta in Hx. lia. }
  split; [done| |done|..].
  - assert (forall g, g ∈ l1 ++ l2 -> file_at v' g) as Ho.
    { intros g Hg. eapply file_frame; [eapply (proj1 (Forall_forall _ _) Hf); set_solver|]. intros b Hbg. apply Hsame.
      intros Hbf. rewrite fblocks_split in Hnd'. apply NoDup_app in Hnd' as (_ & Hdis & _). apply (Hdis b Hbf).
      unfold allblocks. rewrite <- bind_app. apply list_elem_of_bind. eauto. }
    apply Forall_app. split; [|apply Forall_cons; split; [done|]]; apply Forall_forall; intros g Hg; apply Ho; set_solver.
  - rewrite Hp. apply Forall_app. split.
    + apply Forall_forall. intros b ?%elem_of_seqZ. lia.
    + eapply Forall_impl; [exact Hr|]. cbv beta. lia.
  - rewrite Hp, length_app, length_seqZ. lia.
  - intros b Hbr. rewrite Hsame; [apply Hz; lia|]. rewrite Hb. intros [Hb1|Hb1%elem_of_seqZ]%elem_of_app; [|lia].
    assert (b ∈ allblocks (l1 ++ f :: l2)) as Hin by (rewrite fblocks_split; set_solver).
    pose proof (proj1 (Forall_forall _ _) Hr b Hin) as Hx. cbv beta in Hx. lia.
Qed.

(** A file with one more block: the indirect block comes first. *)
Definition grow (fb : Z) f : mfile :=
  if decide (length (mf_blks f) = 12%nat) then Mfile (mf_type f) (mf_size f) (mf_data f) (mf_blks f ++ [fb + 1]) fb
  else Mfile (mf_type f) (mf_size f) (mf_data f) (mf_blks f ++ [fb]) (mf_ind f).
Definition cost f : Z := if decide (length (mf_blks f) = 12%nat) then 2 else 1.
Definition grow_vol v (f : mfile) : Z -> list Z :=
  if decide (length (mf_blks f) <= 12)%nat then v
  else upd_blk v (mf_ind f) (words (padz NINDIRECT (drop 12 (mf_blks f)))).

Lemma cost_range f : 1 <= cost f <= 2.
Proof. unfold cost. case_decide; lia. Qed.
Lemma mf_data_grow fb f : mf_data (grow fb f) = mf_data f.
Proof. unfold grow. by case_decide. Qed.
Lemma mf_type_grow fb f : mf_type (grow fb f) = mf_type f.
Proof. unfold grow. by case_decide. Qed.
Lemma mf_size_grow fb f : mf_size (grow fb f) = mf_size f.
Proof. unfold grow. by case_decide. Qed.
Lemma length_grow fb f : length (mf_blks (grow fb f)) = S (length (mf_blks f)).
Proof. unfold grow. case_decide; cbn [mf_blks]; rewrite length_app; cbn; lia. Qed.
Lemma mf_blks_grow fb f : mf_blks (grow fb f) = mf_blks f ++ [fb + cost f - 1].
Proof. unfold grow, cost. case_decide; cbn [mf_blks]; do 2 f_equal; lia. Qed.
Lemma mf_ind_grow v fb f : 0 < fb -> file_at v f -> mf_ind (grow fb f) = 0 <-> (length (mf_blks (grow fb f)) <= 12)%nat.
Proof.
  intros Hfb Hf. rewrite length_grow. unfold grow. case_decide; cbn [mf_ind]; [lia|]. rewrite (fa_ind _ _ Hf). lia.
Qed.

Lemma fblocks_grow v fb f : 0 < fb -> file_at v f -> fblocks (grow fb f) ≡ₚ fblocks f ++ seqZ fb (cost f).
Proof.
  intros Hfb Hf. unfold fblocks. pose proof (fa_ind _ _ Hf) as Hi. unfold grow, cost.
  destruct (decide (length (mf_blks f) = 12%nat)) as [Hl|Hl]; cbn [mf_blks mf_ind].
  - rewrite decide_False by lia. rewrite decide_True by (apply Hi; lia).
    change (seqZ fb 2) with [0 + fb; 1 + fb]. rewrite Z.add_0_l, (Z.add_comm 1). cbn [app]. solve_Permutation.
  - change (seqZ fb 1) with [0 + fb]. rewrite Z.add_0_l. case_decide; solve_Permutation.
Qed.

Lemma words_block (l : list Z) : block_ok (words (padz NINDIRECT l)).
Proof.
  split; [|apply bytes_ok_words]. unfold words. rewrite length_words, length_padz. done.
Qed.

Lemma vol_ok_grow v f : vol_ok v -> vol_ok (grow_vol v f).
Proof. intros Hv. unfold grow_vol. case_decide; [done|]. apply vol_ok_upd; [done|apply words_block]. Qed.

Lemma file_disjoint v fb l1 f l2 : data_ok v fb (l1 ++ f :: l2) -> NoDup (fblocks f) /\ forall b, b ∈ fblocks f -> nmeta <= b < fb.
Proof.
  intros Hd. split.
  - pose proof (da_nodup _ _ _ Hd) as Hn. rewrite fblocks_split in Hn. by apply NoDup_app in Hn as (? & _).
  - intros b Hb. apply (data_pos _ _ _ b Hd). rewrite fblocks_split. set_solver.
Qed.

Lemma data_grow v fb l1 f l2 : data_ok v fb (l1 ++ f :: l2) -> (length (mf_blks f) < 140)%nat -> fb + cost f <= FSSIZE ->
  data_ok (grow_vol v (grow fb f)) (fb + cost f) (l1 ++ grow fb f :: l2).
Proof.
  intros Hd Hl Hb. pose proof (cost_range f) as Hc. pose proof (da_count _ _ _ Hd) as Hfb. change nmeta with 59 in Hfb.
  assert (file_at v f) as Hf by (eapply (proj1 (Forall_forall _ _) (da_file _ _ _ Hd)); set_solver).
  pose proof (fblocks_grow v fb f ltac:(lia) Hf) as Hp.
  assert (NoDup (fblocks (grow fb f))) as Hnd.
  { rewrite Hp. destruct (file_disjoint _ _ _ _ _ Hd) as [Hn Hr]. apply NoDup_app. split_and!; [done| |apply NoDup_seqZ].
    intros b Hbf%Hr Hbs%elem_of_seqZ. lia. }
  pose proof (mf_ind_grow v fb f ltac:(lia) Hf) as Hi.
  assert (forall b, b ∈ mf_blks (grow fb f) -> grow_vol v (grow fb f) b = v b) as Hv.
  { intros b Hbb. unfold grow_vol. case_decide; [done|]. unfold upd_blk. rewrite decide_False; [done|]. intros ->.
    unfold fblocks in Hnd. rewrite decide_False in Hnd by (rewrite Hi; done). apply NoDup_cons in Hnd as [Hnd _]. done. }
  eapply data_change; [lia|exact Hd|exact Hp| |by apply vol_ok_grow, Hd|].
  - intros b Hbn. unfold grow_vol. case_decide; [done|]. unfold upd_blk. rewrite decide_False; [done|]. intros ->.
    apply Hbn. unfold fblocks. rewrite decide_False by (rewrite Hi; done). set_solver.
  - split; [rewrite mf_type_grow; apply Hf|rewrite mf_size_grow; apply Hf|rewrite length_grow; lia|done|..].
    + intros Hnz. unfold grow_vol. rewrite decide_False by (rewrite <- Hi; done). unfold upd_blk. by rewrite decide_True.
    + rewrite length_grow, mf_data_grow. pose proof (fa_fit _ _ Hf). lia.
    + rewrite (list_fmap_ext (grow_vol v (grow fb f)) v) by (intros k b Hk%list_elem_of_lookup_2; by apply Hv).
      rewrite length_grow, mf_data_grow, mf_blks_grow, fmap_app, concat_app, (fa_data _ _ Hf). cbn [fmap list_fmap concat].
      rewrite (da_zero _ _ _ Hd) by lia. rewrite app_nil_r, <- app_assoc. f_equal. unfold zero_block.
      rewrite <- replicate_add. f_equal. pose proof (fa_fit _ _ Hf). lia.
Qed.
End files.
