(* ===== verification/MkfsSpec.v ===== *)
(** * The image that the builder writes

    What each function of [mkfs.c] does to the files of the image
    ([MkfsRep]), and the tree that the kernel finds on the finished image. *)

From S2P Require Import Prelude Bytes Params Machine BlockCache Journal Log CString Fs FsRep FsBlocks FsInodes FsContent FsData FsDir FsPath Mkfs MkfsRep.
Local Open Scope Z_scope.

(** ** The block for an offset *)

Section blocks.
Context (room : nat).
Implicit Types (s : mkfs) (v : Z -> list Z) (f : mfile).

Lemma nth_range (P : Z -> Prop) (l : list Z) k : Forall P l -> P 0 -> P (nth k l 0).
Proof.
  intros Hl H0. destruct (nth_lookup_or_length l k 0) as [Hx|Hx].
  - exact (proj1 (Forall_lookup _ _) Hl k _ Hx).
  - by rewrite nth_overflow by lia.
Qed.

Lemma Forall_padz (P : Z -> Prop) n l : Forall P l -> P 0 -> Forall P (padz n l).
Proof. intros Hl H0. unfold padz. apply Forall_take, Forall_app. split; [done|]. by apply Forall_replicate. Qed.

Lemma iaddr_direct n f k : (k < 12)%nat -> iaddr (finode n f) k = nth k (mf_blks f) 0.
Proof.
  intros Hk. unfold iaddr, finode. cbn [i_addrs]. rewrite app_nth1 by (rewrite length_padz; lia). by apply nth_padz.
Qed.
Lemma iaddr_ind n f : iaddr (finode n f) NDIRECT = mf_ind f.
Proof. unfold iaddr, finode. cbn [i_addrs]. rewrite app_nth2 by (rewrite length_padz; unfold NDIRECT; lia). by rewrite length_padz. Qed.

Record in_image v fb l1 f l2 : Prop := {
  ii_data : data_ok v fb (l1 ++ f :: l2);
  ii_fb : fb <= FSSIZE
}.

Lemma image_file v fb l1 f l2 : in_image v fb l1 f l2 -> file_at v f.
Proof. intros []. eapply (proj1 (Forall_forall _ _) (da_file _ _ _ ii_data0)). set_solver. Qed.

Lemma image_blks v fb l1 f l2 : in_image v fb l1 f l2 -> Forall (fun b => 59 <= b < fb) (mf_blks f).
Proof.
  intros []. apply Forall_forall. intros b Hb. apply (file_disjoint _ _ _ _ _ ii_data0). unfold fblocks. set_solver.
Qed.
Lemma image_ind v fb l1 f l2 : in_image v fb l1 f l2 -> mf_ind f <> 0 -> 59 <= mf_ind f < fb.
Proof.
  intros [] Hn. apply (file_disjoint _ _ _ _ _ ii_data0). unfold fblocks. rewrite decide_False by done. set_solver.
Qed.
Lemma image_blk v fb l1 f l2 k : in_image v fb l1 f l2 -> (k < length (mf_blks f))%nat ->
  59 <= nth k (mf_blks f) 0 < FSSIZE /\ mf_blks f !! k = Some (nth k (mf_blks f) 0).
Proof.
  intros Hi Hk. destruct (lookup_lt_is_Some_2 _ _ Hk) as [b Hb]. rewrite (nth_lookup_Some _ _ _ _ Hb). split; [|done].
  pose proof (proj1 (Forall_lookup _ _) (image_blks _ _ _ _ _ Hi) k b Hb) as Hr. cbv beta in Hr.
  pose proof (ii_fb _ _ _ _ _ Hi). lia.
Qed.

Lemma finode_wf n v fb l1 f l2 : in_image v fb l1 f l2 -> inode_wf (finode n f).
Proof.
  intros Hi. pose proof (image_file _ _ _ _ _ Hi) as Hf. pose proof (image_blks _ _ _ _ _ Hi) as Hb.
  pose proof (image_ind _ _ _ _ _ Hi) as Hx. pose proof (ii_fb _ _ _ _ _ Hi) as Hfb. unfold FSSIZE in Hfb.
  split; cbn [finode i_type i_major i_minor i_nlink i_size i_addrs]; try lia; [|apply Hf| |].
  - destruct (fa_type _ _ Hf) as [-> | ->]; unfold T_DIR, T_FILE; lia.
  - rewrite length_app, length_padz. done.
  - apply Forall_app. split; [|apply Forall_singleton; destruct (decide (mf_ind f = 0)) as [->|]; lia].
    apply Forall_padz; [|lia]. eapply Forall_impl; [exact Hb|]. cbv beta. lia.
Qed.

Lemma fin_addr n v fb l1 f l2 k : in_image v fb l1 f l2 -> (k < 13)%nat ->
  xint Little (load Little 4 (dinode_bytes (finode n f)) (12 + 4 * k)) = iaddr (finode n f) k.
Proof.
  intros Hi Hk. pose proof (finode_wf n _ _ _ _ _ Hi) as Hw. rewrite load32_little, get_din_addr by done.
  apply xint_little. unfold iaddr. apply nth_range; [apply Hw|lia].
Qed.

Lemma wp_block_have s v fi fb l1 f l2 n k (Q : list Z * Z -> mkfs -> Prop) : mrep s v fi fb -> in_image v fb l1 f l2 ->
  (k < length (mf_blks f))%nat -> Q (dinode_bytes (finode n f), nth k (mf_blks f) 0) s ->
  wp (iappend_block Little room (dinode_bytes (finode n f)) (Z.of_nat k)) Q s.
Proof.
  intros Hr Hi Hk HQ. pose proof (image_file _ _ _ _ _ Hi) as Hf. pose proof (fa_len _ _ Hf).
  destruct (image_blk _ _ _ _ _ k Hi Hk) as [Hx _]. unfold iappend_block, OFF_ADDR. rewrite !Nat2Z.id.
  destruct (decide (k < 12)%nat) as [Hd|Hd].
  - rewrite bool_decide_eq_true_2 by (unfold NDIRECT; lia).
    rewrite (fin_addr n _ _ _ _ _ k Hi), iaddr_direct by lia. rewrite bool_decide_eq_false_2 by lia. wp_steps.
    rewrite (fin_addr n _ _ _ _ _ k Hi), iaddr_direct by lia. exact HQ.
  - rewrite bool_decide_eq_false_2 by (unfold NDIRECT; lia). cbv zeta.
    assert (mf_ind f <> 0) as Hnz by (rewrite (fa_ind _ _ Hf); lia).
    rewrite (fin_addr n _ _ _ _ _ NDIRECT Hi), iaddr_ind by (unfold NDIRECT; lia). rewrite bool_decide_eq_false_2 by done. wp_steps.
    rewrite (fin_addr n _ _ _ _ _ NDIRECT Hi), iaddr_ind by (unfold NDIRECT; lia).
    pose proof (image_ind _ _ _ _ _ Hi Hnz). pose proof (ii_fb _ _ _ _ _ Hi).
    eapply wp_rsect; [done|lia|]. rewrite (fa_words _ _ Hf Hnz).
    replace (Z.to_nat (Z.of_nat k - Z.of_nat NDIRECT)) with (k - 12)%nat by (unfold NDIRECT; lia).
    assert (get32 (words (padz NINDIRECT (drop 12 (mf_blks f)))) (4 * (k - 12)) = nth k (mf_blks f) 0) as Hg.
    { rewrite get32_words; [| |rewrite length_padz; unfold NINDIRECT; lia].
      - rewrite nth_padz by (unfold NINDIRECT; lia). rewrite nth_skipn. f_equal. lia.
      - apply Forall_padz; [|lia]. apply Forall_drop. eapply Forall_impl; [exact (image_blks _ _ _ _ _ Hi)|].
        cbv beta. unfold FSSIZE in *. lia. }
    rewrite load32_little, Hg. rewrite bool_decide_eq_false_2 by lia. wp_steps. rewrite load32_little, Hg.
    rewrite xint_little by (unfold FSSIZE in *; lia). exact HQ.
Qed.

(** The inode and the indirect block when a block is added. *)
Lemma finode_grow_direct n fb f : (length (mf_blks f) < 12)%nat ->
  set_i_addr (length (mf_blks f)) fb (finode n f) = finode n (grow fb f).
Proof.
  intros Hl. unfold grow. rewrite decide_False by lia. unfold finode, set_i_addr. cbn. f_equal.
  rewrite insert_app_l by (rewrite length_padz; lia). by rewrite padz_snoc.
Qed.
Lemma padz_full m l x : (m <= length l)%nat -> padz m (l ++ [x]) = padz m l.
Proof. intros Hl. unfold padz. rewrite <- app_assoc, !take_app_le by lia. done. Qed.
Lemma finode_grow_ind n fb f : length (mf_blks f) = 12%nat ->
  set_i_addr NDIRECT fb (finode n f) = finode n (grow fb f).
Proof.
  intros Hl. unfold grow. rewrite decide_True by lia. unfold finode, set_i_addr. cbn [i_addrs mf_blks mf_type mf_size mf_ind]. cbn. f_equal.
  rewrite padz_full by lia. rewrite insert_app_r_alt by (rewrite length_padz; unfold NDIRECT; lia). by rewrite length_padz.
Qed.
Lemma finode_grow_more n fb f : (12 < length (mf_blks f))%nat -> finode n (grow fb f) = finode n f.
Proof.
  intros Hl. unfold grow. rewrite decide_False by lia. unfold finode. cbn [mf_type mf_size mf_blks mf_ind]. by rewrite padz_full by lia.
Qed.
Lemma ind_grow_more fb f : (12 < length (mf_blks f) < 140)%nat ->
  set32 (words (padz NINDIRECT (drop 12 (mf_blks f)))) (4 * (length (mf_blks f) - 12)) fb =
  words (padz NINDIRECT (drop 12 (mf_blks (grow fb f)))) /\
  get32 (words (padz NINDIRECT (drop 12 (mf_blks f)))) (4 * (length (mf_blks f) - 12)) = 0.
Proof.
  intros Hl. assert (length (mf_blks f) - 12 = length (drop 12 (mf_blks f)))%nat as E by (rewrite length_drop; lia).
  assert (length (drop 12 (mf_blks f)) < NINDIRECT)%nat by (rewrite length_drop; unfold NINDIRECT; lia).
  rewrite E. split.
  - rewrite set32_words by (rewrite length_padz; done). rewrite padz_snoc by done. do 2 f_equal.
    rewrite mf_blks_grow. unfold cost. rewrite decide_False by lia. rewrite drop_app_le by lia. do 2 f_equal. lia.
  - unfold get32, words. set (d := drop 12 (mf_blks f)) in *.
    assert (padz NINDIRECT d !! length d = Some 0) as Hz.
    { unfold padz. rewrite lookup_take_lt by done. rewrite lookup_app_r by lia. rewrite Nat.sub_diag. done. }
    by rewrite (slice_words _ _ _ Hz).
Qed.

Lemma image_grow v fb l1 f l2 : in_image v fb l1 f l2 -> (length (mf_blks f) < 140)%nat -> fb + cost f <= FSSIZE ->
  in_image (grow_vol v (grow fb f)) (fb + cost f) l1 (grow fb f) l2.
Proof. intros [Hd _] Hl Hb. split; [by apply data_grow|done]. Qed.

Lemma image_fb v fb l1 f l2 : in_image v fb l1 f l2 -> 59 <= fb <= FSSIZE.
Proof. intros [Hd Hb]. pose proof (da_count _ _ _ Hd). change nmeta with 59 in *. lia. Qed.

Definition grown_block s v fi fb f n (Q : list Z * Z -> mkfs -> Prop) : Prop :=
  forall s', mrep s' (grow_vol v (grow fb f)) fi (fb + cost f) ->
    Q (dinode_bytes (finode n (grow fb f)), nth (length (mf_blks f)) (mf_blks (grow fb f)) 0) s'.

Lemma wp_block_direct s v fi fb l1 f l2 n Q : mrep s v fi fb -> in_image v fb l1 f l2 -> (length (mf_blks f) < 12)%nat ->
  fb + cost f <= FSSIZE -> grown_block s v fi fb f n Q ->
  wp (iappend_block Little room (dinode_bytes (finode n f)) (Z.of_nat (length (mf_blks f)))) Q s.
Proof.
  intros Hr Hi Hl Hb HQ. pose proof (image_grow _ _ _ _ _ Hi ltac:(lia) Hb) as Hi'. unfold grown_block in HQ.
  pose proof (image_fb _ _ _ _ _ Hi) as Hfb. unfold FSSIZE in *.
  assert (cost f = 1) as Ec by (unfold cost; by rewrite decide_False by lia).
  assert (grow_vol v (grow fb f) = v) as Ev by (unfold grow_vol; by rewrite length_grow, decide_True by lia).
  rewrite Ec, Ev in *.
  unfold iappend_block, OFF_ADDR. rewrite !Nat2Z.id, bool_decide_eq_true_2 by (unfold NDIRECT; lia).
  rewrite (fin_addr n _ _ _ _ _ _ Hi), iaddr_direct, nth_overflow by lia. rewrite bool_decide_eq_true_2 by done.
  wp_step. wp_step. eapply wp_next_block; [done|unfold FSSIZE; lia|]. intros s1 Hr1. wp_steps.
  rewrite (xint_little fb), store32_little, set_din_addr, finode_grow_direct by (done || lia || apply (finode_wf n _ _ _ _ _ Hi)).
  rewrite (fin_addr n _ _ _ _ _ _ Hi'), iaddr_direct by lia. by apply HQ.
Qed.

Context (Hroom : (Z.to_nat FSSIZE <= room)%nat).

Lemma wp_block_first s v fi fb l1 f l2 n Q : mrep s v fi fb -> in_image v fb l1 f l2 -> length (mf_blks f) = 12%nat ->
  fb + cost f <= FSSIZE -> grown_block s v fi fb f n Q ->
  wp (iappend_block Little room (dinode_bytes (finode n f)) 12) Q s.
Proof using Hroom.
  intros Hr Hi Hl Hb HQ. pose proof (image_grow _ _ _ _ _ Hi ltac:(lia) Hb) as Hi'. unfold grown_block in HQ.
  pose proof (image_fb _ _ _ _ _ Hi) as Hfb. rewrite mf_blks_grow in HQ. unfold FSSIZE in *.
  assert (mf_ind (grow fb f) = fb) as Eind by (unfold grow; by rewrite decide_True).
  assert (cost f = 2) as Ec by (unfold cost; by rewrite decide_True).
  assert (grow_vol v (grow fb f) = upd_blk v fb (words (padz NINDIRECT (drop 12 (mf_blks (grow fb f)))))) as Ev
    by (unfold grow_vol; rewrite length_grow, decide_False by lia; by rewrite Eind).
  rewrite Ec, Ev in *.
  unfold iappend_block, OFF_ADDR. rewrite bool_decide_eq_false_2 by done. change (Z.to_nat (Z.of_nat NDIRECT)) with NDIRECT.
  change (Z.to_nat (12 - Z.of_nat NDIRECT)) with 0%nat. cbv zeta. change (4 * 0)%nat with 0%nat.
  rewrite (fin_addr n _ _ _ _ _ NDIRECT Hi), iaddr_ind by (unfold NDIRECT; lia).
  rewrite (proj2 (fa_ind _ _ (image_file _ _ _ _ _ Hi))), bool_decide_eq_true_2 by (done || lia).
  wp_step. wp_step. eapply wp_next_block; [done|unfold FSSIZE; lia|]. intros s1 Hr1. wp_steps.
  rewrite (xint_little fb), store32_little, set_din_addr, finode_grow_ind by (done || lia || (unfold NDIRECT; lia) || apply (finode_wf n _ _ _ _ _ Hi)).
  rewrite (fin_addr n _ _ _ _ _ NDIRECT Hi'), iaddr_ind, Eind by (unfold NDIRECT; lia).
  eapply wp_rsect; [done|unfold FSSIZE; lia|]. rewrite (da_zero _ _ _ (ii_data _ _ _ _ _ Hi)) by (unfold FSSIZE; lia).
  rewrite bool_decide_eq_true_2 by done. wp_step. wp_step. eapply wp_next_block; [done|unfold FSSIZE; lia|]. intros s2 Hr2. wp_step.
  eapply (wp_wsect room Hroom); [done|unfold FSSIZE; lia|]. intros s3 Hr3. wp_steps.
  rewrite (xint_little (fb + 1)), store32_little in * by lia.
  assert (set32 zero_block 0 (fb + 1) = words (padz NINDIRECT (drop 12 (mf_blks (grow fb f))))) as Ew.
  { rewrite mf_blks_grow, drop_app_length', Ec by done.
    replace (fb + 2 - 1) with (fb + 1) by lia. done. }
  rewrite load32_little, get_set32, u32_small, xint_little by (done || lia || (unfold zero_block, BSIZE; rewrite length_replicate; lia)).
  rewrite Ew in Hr3. rewrite app_nth2, Hl in HQ by lia. cbn [nth Nat.sub] in HQ.
  replace (fb + 2 - 1) with (fb + 1) in HQ by lia. replace (fb + 1 + 1) with (fb + 2) in Hr3 by lia. by apply HQ.
Qed.

Lemma wp_block_more s v fi fb l1 f l2 n Q : mrep s v fi fb -> in_image v fb l1 f l2 -> (12 < length (mf_blks f) < 140)%nat ->
  fb + cost f <= FSSIZE -> grown_block s v fi fb f n Q ->
  wp (iappend_block Little room (dinode_bytes (finode n f)) (Z.of_nat (length (mf_blks f)))) Q s.
Proof using Hroom.
  intros Hr Hi Hl Hb HQ. pose proof (image_file _ _ _ _ _ Hi) as Hf. unfold grown_block in HQ.
  pose proof (image_fb _ _ _ _ _ Hi) as Hfb. rewrite mf_blks_grow in HQ.
  assert (mf_ind f <> 0) as Hnz by (rewrite (fa_ind _ _ Hf); lia).
  pose proof (image_ind _ _ _ _ _ Hi Hnz) as Hind.
  assert (mf_ind (grow fb f) = mf_ind f) as Eind by (unfold grow; by rewrite decide_False by lia).
  assert (cost f = 1) as Ec by (unfold cost; by rewrite decide_False by lia).
  destruct (ind_grow_more fb f Hl) as [Eset Eget]. unfold FSSIZE in *.
  assert (grow_vol v (grow fb f) = upd_blk v (mf_ind f) (words (padz NINDIRECT (drop 12 (mf_blks (grow fb f)))))) as Ev
    by (unfold grow_vol; rewrite length_grow, decide_False by lia; by rewrite Eind).
  rewrite Ec, Ev in *. unfold iappend_block, OFF_ADDR. rewrite bool_decide_eq_false_2 by (unfold NDIRECT; lia).
  change (Z.to_nat (Z.of_nat NDIRECT)) with NDIRECT. cbv zeta.
  replace (Z.to_nat (Z.of_nat (length (mf_blks f)) - Z.of_nat NDIRECT)) with (length (mf_blks f) - 12)%nat by (unfold NDIRECT; lia).
  pose proof (fin_addr n _ _ _ _ _ NDIRECT Hi ltac:(unfold NDIRECT; lia)) as Ea. rewrite iaddr_ind in Ea.
  rewrite Ea, bool_decide_eq_false_2 by done. wp_steps. rewrite Ea.
  eapply wp_rsect; [done|unfold FSSIZE; lia|]. rewrite (fa_words _ _ Hf Hnz), load32_little, Eget.
  rewrite bool_decide_eq_true_2 by done. wp_step. wp_step. eapply wp_next_block; [done|unfold FSSIZE; lia|]. intros s1 Hr1. wp_step.
  rewrite (xint_little fb), store32_little, Eset by lia.
  eapply (wp_wsect room Hroom); [done|unfold FSSIZE; lia|]. intros s2 Hr2. wp_steps.
  assert (get32 (words (padz NINDIRECT (drop 12 (mf_blks (grow fb f))))) (4 * (length (mf_blks f) - 12)) = fb) as Eg.
  { rewrite <- Eset, get_set32, u32_small by (lia || (rewrite (proj1 (words_block _)); unfold BSIZE; lia)). done. }
  rewrite load32_little, Eg, (xint_little fb) by lia. rewrite app_nth2, Nat.sub_diag in HQ by lia. cbn [nth] in HQ.
  replace (fb + 1 - 1) with fb in HQ by lia. rewrite (finode_grow_more n fb f) in HQ by lia. by apply HQ.
Qed.

(** The file and the state when block [k] is there. *)
Definition file_with (k : nat) fb f : mfile := if decide (k < length (mf_blks f))%nat then f else grow fb f.
Definition vol_with (k : nat) v fb f : Z -> list Z := if decide (k < length (mf_blks f))%nat then v else grow_vol v (grow fb f).
Definition cost_with (k : nat) f : Z := if decide (k < length (mf_blks f))%nat then 0 else cost f.

Lemma wp_block s v fi fb l1 f l2 n k (Q : list Z * Z -> mkfs -> Prop) : mrep s v fi fb -> in_image v fb l1 f l2 ->
  (k <= length (mf_blks f))%nat -> (k < 140)%nat -> fb + cost_with k f <= FSSIZE ->
  (forall s', mrep s' (vol_with k v fb f) fi (fb + cost_with k f) ->
    Q (dinode_bytes (finode n (file_with k fb f)), nth k (mf_blks (file_with k fb f)) 0) s') ->
  wp (iappend_block Little room (dinode_bytes (finode n f)) (Z.of_nat k)) Q s.
Proof using Hroom.
  intros Hr Hi Hk Hlt Hb HQ. unfold cost_with, file_with, vol_with in *. destruct (decide _) as [Hh|Hh].
  - rewrite Z.add_0_r in HQ. eapply wp_block_have; [done..|]. by apply HQ.
  - assert (k = length (mf_blks f)) as -> by lia. destruct (decide (length (mf_blks f) < 12)%nat).
    + by eapply wp_block_direct.
    + destruct (decide (length (mf_blks f) = 12%nat)) as [E|E].
      * rewrite E. by eapply wp_block_first.
      * eapply wp_block_more; [done|done|lia|done..].
Qed.

Lemma image_with v fb l1 f l2 k : in_image v fb l1 f l2 -> (k <= length (mf_blks f))%nat -> (k < 140)%nat ->
  fb + cost_with k f <= FSSIZE ->
  in_image (vol_with k v fb f) (fb + cost_with k f) l1 (file_with k fb f) l2 /\ (k < length (mf_blks (file_with k fb f)))%nat.
Proof.
  clear Hroom. intros Hi Hk Hlt Hb. unfold cost_with, file_with, vol_with in *. destruct (decide _) as [Hh|Hh].
  - by rewrite Z.add_0_r.
  - split; [apply image_grow; [done|lia|done]|rewrite length_grow; lia].
Qed.
End blocks.

(** ** Appending *)

Definition with_data (d : list Z) (f : mfile) : mfile := Mfile (mf_type f) (mf_size f) d (mf_blks f) (mf_ind f).

Lemma concat_splice (l : list (list Z)) k d o p : Forall (fun d => length d = BSIZE) l -> l !! k = Some d ->
  (o + length p <= BSIZE)%nat -> concat (<[k := splice o p d]> l) = splice (BSIZE * k + o) p (concat l).
Proof.
  revert k. induction l as [|x l IH]; intros k Hl Hk Ho; [done|]. apply Forall_cons in Hl as [Hx Hl].
  destruct k as [|k]; cbn [lookup list_lookup] in Hk.
  - injection Hk as ->. cbn [insert list_insert concat]. rewrite Nat.mul_0_r, splice_app_l by (rewrite Hx; lia). done.
  - change (<[S k := splice o p d]> (x :: l)) with (x :: <[k := splice o p d]> l). cbn [concat]. rewrite (IH k Hl Hk Ho).
    replace (BSIZE * S k + o)%nat with (length x + (BSIZE * k + o))%nat by lia. by rewrite splice_app_r.
Qed.

Lemma fmap_upd_blk v l k b d : NoDup l -> l !! k = Some b -> upd_blk v b d <$> l = <[k := d]> (v <$> l).
Proof.
  intros Hn Hk. apply list_eq. intros j. rewrite list_lookup_fmap. destruct (decide (j = k)) as [->|Hne].
  - rewrite Hk, list_lookup_insert_eq by (rewrite length_fmap; by eapply lookup_lt_Some). cbn. unfold upd_blk. by rewrite decide_True.
  - rewrite list_lookup_insert_ne, list_lookup_fmap by done. destruct (l !! j) as [c|] eqn:Hj; [|done]. cbn. unfold upd_blk.
    rewrite decide_False; [done|]. intros ->. apply Hne. by eapply NoDup_lookup.
Qed.

Lemma splice_zeros (d p : list Z) m : (length p <= m)%nat ->
  splice (length d) p (d ++ replicate m 0) = (d ++ p) ++ replicate (m - length p) 0.
Proof.
  intros Hm. replace (length d) with (length d + 0)%nat by lia. rewrite splice_app_r, <- app_assoc. f_equal.
  unfold splice. cbn [take app Nat.add]. by rewrite drop_replicate.
Qed.

Lemma image_fill v fb l1 f l2 k o p : in_image v fb l1 f l2 -> (k < length (mf_blks f))%nat ->
  length (mf_data f) = (BSIZE * k + o)%nat -> (o + length p <= BSIZE)%nat -> bytes_ok p ->
  let x := nth k (mf_blks f) 0 in
  in_image (upd_blk v x (splice o p (v x))) fb l1 (with_data (mf_data f ++ p) f) l2.
Proof.
  intros Hi Hk Hd Ho Hp x. pose proof (image_file _ _ _ _ _ Hi) as Hf. destruct Hi as [Hda Hfb]. split; [|done].
  pose proof (da_vol _ _ _ Hda) as Hv. destruct (file_disjoint _ _ _ _ _ Hda) as [Hn _].
  destruct (lookup_lt_is_Some_2 _ _ Hk) as [b Hb]. assert (x = b) as -> by (by apply nth_lookup_Some).
  assert (b ∈ mf_blks f) as Hin by (by eapply list_elem_of_lookup_2). unfold fblocks in Hn.
  apply NoDup_app in Hn as (_ & Hdis & Hn). assert (mf_ind f <> 0 -> mf_ind f <> b) as Hne.
  { intros Hnz E. rewrite decide_False in Hdis by done. apply (Hdis b); [rewrite E; set_solver|done]. }
  replace fb with (fb + 0) by lia. eapply data_change; [done|exact Hda| | | |].
  - by rewrite app_nil_r.
  - intros c Hc. unfold upd_blk. rewrite decide_False; [done|]. intros ->. apply Hc. unfold fblocks. cbn [mf_blks with_data]. set_solver.
  - apply vol_ok_upd; [done|]. destruct (Hv b). split; [rewrite length_splice; lia|by apply bytes_ok_splice].
  - destruct Hf. split; cbn [with_data mf_type mf_size mf_data mf_blks mf_ind]; try done.
    + intros Hnz. unfold upd_blk. rewrite decide_False by auto. auto.
    + rewrite length_app. unfold BSIZE in *. lia.
    + rewrite (fmap_upd_blk v _ k b) by done. rewrite (concat_splice _ k (v b)); [| |by rewrite list_lookup_fmap, Hb|done].
      * rewrite fa_data, <- Hd, splice_zeros, length_app by (unfold BSIZE in *; lia). do 2 f_equal. lia.
      * apply Forall_fmap, Forall_forall. intros c _. apply Hv.
Qed.

(** The blocks for [len] bytes: data, and the indirect block. *)
Definition dblocks (len : nat) : nat := ((len + 511) / 512)%nat.
Definition need (len : nat) : Z := Z.of_nat (dblocks len) + (if decide (12 < dblocks len)%nat then 1 else 0).
Definition tight (f : mfile) : Prop := length (mf_blks f) = dblocks (length (mf_data f)).

Section counts.
Local Open Scope nat_scope.

Lemma dblocks_spec len : len <= 512 * dblocks len < len + 512.
Proof.
  unfold dblocks. pose proof (Nat.div_mod_eq (len + 511) 512). pose proof (Nat.mod_upper_bound (len + 511) 512 ltac:(lia)). lia.
Qed.
Lemma dblocks_unique len n : len <= 512 * n < len + 512 -> dblocks len = n.
Proof. pose proof (dblocks_spec len). lia. Qed.
Lemma dblocks_mono a b : a <= b -> dblocks a <= dblocks b.
Proof. pose proof (dblocks_spec a). pose proof (dblocks_spec b). lia. Qed.
Lemma need_mono a b : a <= b -> (need a <= need b)%Z.
Proof. intros Hab%dblocks_mono. unfold need. repeat case_decide; lia. Qed.

(** One turn of the loop at offset [512 * k + o]. *)
Lemma turn_blocks f k o m : tight f -> length (mf_data f) = 512 * k + o -> o < 512 -> 1 <= m <= 512 - o ->
  k <= length (mf_blks f) /\ (need (length (mf_data f) + m) - need (length (mf_data f)) = cost_with k f)%Z /\
  (forall fb, length (mf_blks (file_with k fb f)) = dblocks (length (mf_data f) + m)).
Proof.
  intros Ht Hd Ho Hm. unfold tight in Ht. pose proof (dblocks_spec (length (mf_data f))).
  unfold cost_with, file_with, need, cost. rewrite <- Ht in *.
  destruct (decide (o = 0)) as [E|E].
  - assert (length (mf_blks f) = k) as El by lia. rewrite (dblocks_unique _ (S k)) by lia.
    split_and!; [lia| |intros fb]; rewrite (decide_False (P := (k < length (mf_blks f)))) by lia.
    + repeat case_decide; lia.
    + rewrite length_grow. lia.
  - assert (length (mf_blks f) = S k) as El by lia. rewrite (dblocks_unique _ (S k)) by lia.
    split_and!; [lia| |intros fb]; rewrite (decide_True (P := (k < length (mf_blks f)))) by lia; [|done].
    rewrite El. lia.
Qed.
End counts.

(** [p] has been appended to [f]. *)
Record appended v fb l1 (f : mfile) l2 p v' fb' (f' : mfile) : Prop := {
  ap_image : in_image v' fb' l1 f' l2;
  ap_type : mf_type f' = mf_type f;
  ap_size : mf_size f' = mf_size f;
  ap_data : mf_data f' = mf_data f ++ p;
  ap_tight : tight f';
  ap_fb : fb' = fb + need (length (mf_data f ++ p)) - need (length (mf_data f));
  ap_meta : forall b, b < nmeta -> v' b = v b
}.

Lemma vol_with_meta v fb l1 f l2 k b : in_image v fb l1 f l2 -> (k <= length (mf_blks f))%nat -> (k < 140)%nat ->
  fb + cost_with k f <= FSSIZE -> b < nmeta -> vol_with k v fb f b = v b.
Proof.
  intros Hi Hk Hlt Hb Hm. destruct (image_with _ _ _ _ _ k Hi Hk Hlt Hb) as [Hi' _]. unfold vol_with, file_with in *.
  destruct (decide _); [done|]. unfold grow_vol. case_decide as Hl; [done|]. unfold upd_blk. rewrite decide_False; [done|].
  intros ->. pose proof (image_ind _ _ _ _ _ Hi') as Hr. rewrite (fa_ind _ _ (image_file _ _ _ _ _ Hi')) in Hr.
  change nmeta with 59 in Hm. specialize (Hr Hl). lia.
Qed.

Lemma appended_nil v fb l1 f l2 : in_image v fb l1 f l2 -> tight f -> appended v fb l1 f l2 [] v fb f.
Proof. intros Hi Ht. split; try done; rewrite app_nil_r; [done|lia]. Qed.

Lemma appended_app v fb l1 f l2 p v1 fb1 f1 q v2 fb2 f2 : appended v fb l1 f l2 p v1 fb1 f1 ->
  appended v1 fb1 l1 f1 l2 q v2 fb2 f2 -> appended v fb l1 f l2 (p ++ q) v2 fb2 f2.
Proof.
  intros [] []. split; try done; try congruence.
  - rewrite ap_data1, ap_data0. by rewrite app_assoc.
  - rewrite ap_fb1, ap_fb0, ap_data0, <- app_assoc. lia.
  - intros b Hb. rewrite ap_meta1, ap_meta0; done.
Qed.

(** One turn of the loop of [iappend]. *)
Lemma appended_turn v fb l1 f l2 k o p : in_image v fb l1 f l2 -> tight f -> length (mf_data f) = (512 * k + o)%nat ->
  (k < 140)%nat -> (o < 512)%nat -> (1 <= length p <= 512 - o)%nat -> bytes_ok p ->
  fb + need (length (mf_data f ++ p)) - need (length (mf_data f)) <= FSSIZE ->
  let f' := file_with k fb f in let v' := vol_with k v fb f in let x := nth k (mf_blks f') 0 in
  appended v fb l1 f l2 p (upd_blk v' x (splice o p (v' x))) (fb + cost_with k f) (with_data (mf_data f ++ p) f') /\
  59 <= x < FSSIZE /\ (k <= length (mf_blks f))%nat /\ fb + cost_with k f <= FSSIZE.
Proof.
  intros Hi Ht Hd Hk Ho Hp Hok Hroom f' v' x. rewrite length_app in Hroom.
  destruct (turn_blocks f k o (length p) Ht Hd Ho Hp) as (Hkl & Hcost & Hlen).
  destruct (image_with _ _ _ _ _ k Hi Hkl Hk ltac:(lia)) as [Hi' Hk'].
  assert (mf_data f' = mf_data f /\ mf_type f' = mf_type f /\ mf_size f' = mf_size f) as (Ed & Et & Es).
  { unfold f', file_with. case_decide; [done|]. by rewrite mf_data_grow, mf_type_grow, mf_size_grow. }
  destruct (image_blk _ _ _ _ _ k Hi' Hk') as [Hx _]. split_and!; [|apply Hx|apply Hx|done|lia]. split.
  - rewrite <- Ed. eapply image_fill; [done..| |unfold BSIZE; lia|done]. change (file_with k fb f) with f'. by rewrite Ed.
  - done.
  - done.
  - done.
  - unfold tight. cbn [with_data mf_data mf_blks]. rewrite length_app. apply Hlen.
  - rewrite length_app. lia.
  - intros b Hb. unfold upd_blk. assert (59 <= x) by apply Hx. change nmeta with 59 in Hb.
    rewrite decide_False by lia. eapply vol_with_meta; (done || lia).
Qed.

Section append.
Context (room : nat) (Hroom : (Z.to_nat FSSIZE <= room)%nat).
Implicit Types (s : mkfs) (v : Z -> list Z) (f : mfile).

Lemma wp_iappend_loop n fuel : forall s v fi fb l1 f l2 p (Q : list Z * Z -> mkfs -> Prop), mrep s v fi fb -> in_image v fb l1 f l2 ->
  tight f -> (length p <= fuel)%nat -> Z.of_nat (length (mf_data f ++ p)) <= MAXBYTES -> bytes_ok p ->
  fb + need (length (mf_data f ++ p)) - need (length (mf_data f)) <= FSSIZE ->
  (forall s' v' fb' f', appended v fb l1 f l2 p v' fb' f' -> mrep s' v' fi fb' ->
    Q (dinode_bytes (finode n f'), Z.of_nat (length (mf_data f'))) s') ->
  wp (iappend_loop Little room fuel (dinode_bytes (finode n f)) (Z.of_nat (length (mf_data f))) p) Q s.
Proof using Hroom.
  induction fuel as [|fuel IH]; intros s v fi fb l1 f l2 p Q Hr Hi Ht Hfuel Hmax Hp Hb HQ.
  { destruct p; [|cbn in Hfuel; lia]. cbn. apply (HQ s v fb f); [by apply appended_nil|done]. }
  destruct p as [|c p0]; [cbn; apply (HQ s v fb f); [by apply appended_nil|done]|]. set (p := c :: p0) in *. cbn [iappend_loop].
  change (match p with [] => _ | _ :: _ => ?x end) with x. cbv zeta.
  assert (1 <= length p)%nat as Hp1 by (cbn; lia). clearbody p. clear c p0.
  set (len := length (mf_data f)) in *. rewrite length_app in Hmax, Hb. fold len in Hmax, Hb. unfold MAXBYTES, MAXFILE, BSIZEz in *.
  set (k := (len / 512)%nat). set (o := (len mod 512)%nat).
  assert (len = 512 * k + o)%nat as Hlen by apply Nat.div_mod_eq.
  assert (o < 512)%nat as Ho by (apply Nat.mod_upper_bound; lia).
  assert (Z.of_nat len / 512 = Z.of_nat k) as Ek by (unfold k; rewrite Nat2Z.inj_div; done).
  rewrite Ek, bool_decide_eq_true_2 by lia. cbn [negb].
  set (m := Nat.min (length p) (512 - o)).
  replace (Z.to_nat (Z.min (Z.of_nat (length p)) (u32 ((Z.of_nat k + 1) * 512 - Z.of_nat len)))) with m
    by (rewrite u32_small by lia; lia).
  replace (Z.to_nat (Z.of_nat len - Z.of_nat k * 512)) with o by lia.
  assert (length (take m p) = m) as Hm by (rewrite length_take; lia).
  pose proof (need_mono (len + m) (len + length p) ltac:(lia)) as Hmono.
  destruct (appended_turn v fb l1 f l2 k o (take m p) Hi Ht Hlen ltac:(lia) Ho ltac:(lia) ltac:(by apply Forall_take)
    ltac:(rewrite length_app, Hm; fold len; lia)) as (Hap & Hx & Hkl & Hc).
  wp_step. eapply (wp_block room Hroom); [done|done|done|lia|done|]. intros s1 Hr1. wp_step.
  eapply wp_rsect; [done|lia|]. wp_step. eapply (wp_wsect room Hroom); [done|lia|]. intros s2 Hr2.
  set (f1 := with_data (mf_data f ++ take m p) (file_with k fb f)) in *.
  assert (length (mf_data f1) = len + m)%nat as El1 by (cbn [f1 with_data mf_data]; rewrite length_app, Hm; done).
  replace (u32 (Z.of_nat len + Z.of_nat m)) with (Z.of_nat (length (mf_data f1))) by (rewrite u32_small; lia).
  change (finode n (file_with k fb f)) with (finode n f1).
  pose proof (ap_fb _ _ _ _ _ _ _ _ _ Hap) as Efb. rewrite length_app, Hm in Efb. fold len in Efb.
  eapply IH; [exact Hr2|apply Hap|apply Hap|rewrite length_drop; lia|..].
  - rewrite length_app, length_drop, El1. unfold MAXBYTES, MAXFILE, BSIZEz. lia.
  - by apply Forall_drop.
  - rewrite length_app, length_drop, El1. replace (len + m + (length p - m))%nat with (len + length p)%nat by lia. lia.
  - intros s' v' fb' f' Hap' Hr'. apply (HQ s' v' fb' f'); [|done]. rewrite <- (take_drop m p). by eapply appended_app.
Qed.
End append.

(** ** Inodes on the image *)

Definition din_at (v : Z -> list Z) (n : Z) : list Z := slice (dinode_off n) 64 (v (iblock n)).

(** Inode [n] is that of file [n - 1] of the list; the others are free. *)
Definition inodes_ok (v : Z -> list Z) (st : list mfile) : Prop := forall n, 0 <= n < NINODES ->
  din_at v n = match (if n =z 0 then None else st !! Z.to_nat (n - 1)) with
               | Some f => dinode_bytes (finode n f)
               | None => replicate 64 0
               end.

Definition sb_block : list Z := splice 0 (sb_bytes Little mksb) zero_block.

(** The boot block, the superblock, the log and the bitmap before [balloc]. *)
Definition meta_ok (v : Z -> list Z) : Prop :=
  v 1 = sb_block /\ forall b, b = 0 \/ 2 <= b < 32 \/ b = 58 -> v b = zero_block.

(** The inode has the size of the data, and there are no blocks behind it. *)
Definition sized (f : mfile) : Prop := tight f /\ mf_size f = Z.of_nat (length (mf_data f)).

Record image_ok (v : Z -> list Z) (fb : Z) (st : list mfile) : Prop := {
  io_data : data_ok v fb st;
  io_fb : fb <= FSSIZE;
  io_count : Z.of_nat (length st) < NINODES;
  io_inodes : inodes_ok v st;
  io_meta : meta_ok v;
  io_sized : Forall sized st
}.

Section inodes.
Implicit Types (v : Z -> list Z) (st : list mfile).

Lemma din_at_put v n d m : vol_ok v -> length d = 64%nat -> 0 <= n -> 0 <= m ->
  din_at (put_inode v n d) m = if decide (m = n) then d else din_at v m.
Proof.
  intros Hv Hd Hn Hm. unfold din_at, put_inode, upd_blk. pose proof (dinode_off_bound n Hn) as Hon. pose proof (dinode_off_bound m Hm) as Hom.
  destruct (decide (m = n)) as [->|Hne].
  - rewrite decide_True by done. apply slice_splice_same; [done|]. rewrite (proj1 (Hv _)). lia.
  - case_decide as Eb; [|done]. rewrite Eb. apply slice_splice_other. 1: rewrite Hd, (proj1 (Hv _)); done.
    unfold iblock, dinode_off, IPB in *. pose proof (Z.div_mod m 8 ltac:(lia)). pose proof (Z.div_mod n 8 ltac:(lia)).
    pose proof (Z.mod_pos_bound m 8 ltac:(lia)). pose proof (Z.mod_pos_bound n 8 ltac:(lia)).
    assert (m mod 8 <> n mod 8) by lia. lia.
Qed.

Lemma put_inode_other v n d b : 0 <= n < NINODES -> b < 32 \/ 58 <= b -> put_inode v n d b = v b.
Proof. intros Hn%iblock_range Hb. unfold put_inode, upd_blk. by rewrite decide_False by lia. Qed.

Lemma put_inode_vol v n d : vol_ok v -> length d = 64%nat -> bytes_ok d -> 0 <= n -> vol_ok (put_inode v n d).
Proof.
  intros Hv Hd Hb Hn. apply vol_ok_upd; [done|]. destruct (Hv (iblock n)) as [Hl Hbl]. pose proof (dinode_off_bound n Hn).
  split; [rewrite length_splice; lia|by apply bytes_ok_splice].
Qed.

Lemma data_frame v v' fb st : data_ok v fb st -> vol_ok v' -> (forall b, 59 <= b -> v' b = v b) -> data_ok v' fb st.
Proof.
  intros Hd Hv' Hs. pose proof (da_count _ _ _ Hd) as Hc. change nmeta with 59 in Hc. pose proof (data_pos v fb st) as Hpos.
  pose proof Hd as [Hv Hf Hn Hr _ Hz]. split; try done.
  - apply Forall_forall. intros f Hin0. eapply file_frame; [by eapply (proj1 (Forall_forall _ _) Hf)|]. intros b Hb.
    apply Hs. assert (b ∈ allblocks st) as Hin by (apply list_elem_of_bind; eauto).
    apply (Hpos b) in Hin as [_ Hin]; [change nmeta with 59 in Hin; lia|done].
  - intros b Hb. rewrite Hs by lia. apply Hz. lia.
Qed.

Lemma meta_frame v v' : meta_ok v -> (forall b, b < 32 \/ b = 58 -> v' b = v b) -> meta_ok v'.
Proof. intros [H1 H2] Hs. split; [rewrite Hs; [done|lia]|]. intros b Hb. rewrite Hs by lia. by apply H2. Qed.

Lemma dinode_bytes_ok i : bytes_ok (dinode_bytes i).
Proof. unfold dinode_bytes. repeat (apply Forall_app; split); try apply le_bytes_ok. apply bytes_ok_words. Qed.
Lemma length_finode n f : length (dinode_bytes (finode n f)) = 64%nat.
Proof. apply length_dinode_bytes. unfold finode. cbn [i_addrs]. rewrite length_app, length_padz. done. Qed.
End inodes.

Definition set_size (z : Z) (f : mfile) : mfile := Mfile (mf_type f) z (mf_data f) (mf_blks f) (mf_ind f).

Lemma data_size v fb l1 f l2 z : data_ok v fb (l1 ++ f :: l2) -> 0 <= z < 2 ^ 32 -> data_ok v fb (l1 ++ set_size z f :: l2).
Proof.
  intros Hd Hz. replace fb with (fb + 0) by lia. eapply data_change; [done|exact Hd| |done|apply Hd|].
  - by rewrite app_nil_r.
  - assert (file_at v f) as Hf by (eapply (proj1 (Forall_forall _ _) (da_file _ _ _ Hd)); set_solver). destruct Hf. by split.
Qed.

Lemma inodes_put v l1 f f' l2 : vol_ok v -> inodes_ok v (l1 ++ f :: l2) -> Z.of_nat (length (l1 ++ f :: l2)) < NINODES ->
  let n := Z.of_nat (length l1) + 1 in
  inodes_ok (put_inode v n (dinode_bytes (finode n f'))) (l1 ++ f' :: l2).
Proof.
  intros Hv Hin Hc n m Hm. rewrite length_app in Hc. cbn [length] in Hc.
  rewrite din_at_put by (done || lia || apply length_finode). case_decide as E.
  - subst m. rewrite bool_decide_eq_false_2 by lia. replace (Z.to_nat (n - 1)) with (length l1) by lia.
    by rewrite list_lookup_middle.
  - rewrite Hin by done. case_bool_decide; [done|]. replace ((l1 ++ f' :: l2) !! Z.to_nat (m - 1)) with ((l1 ++ f :: l2) !! Z.to_nat (m - 1)); [done|].
    destruct (decide (Z.to_nat (m - 1) < length l1)%nat); [by rewrite !lookup_app_l by done|].
    rewrite !lookup_app_r by lia. destruct (Z.to_nat (m - 1) - length l1)%nat eqn:Ek; [lia|done].
Qed.

Lemma inodes_frame v v' st : inodes_ok v st -> (forall b, b < 58 -> v' b = v b) -> inodes_ok v' st.
Proof. intros Hin Hs n Hn. rewrite <- Hin by done. unfold din_at. rewrite Hs; [done|]. pose proof (iblock_range n Hn). lia. Qed.

(** The inode of a file is stored with a new size. *)
Lemma image_store v fb l1 f0 f l2 z : data_ok v fb (l1 ++ f :: l2) -> inodes_ok v (l1 ++ f0 :: l2) -> meta_ok v ->
  Z.of_nat (length (l1 ++ f :: l2)) < NINODES -> 0 <= z < 2 ^ 32 ->
  let n := Z.of_nat (length l1) + 1 in let v' := put_inode v n (dinode_bytes (finode n (set_size z f))) in
  data_ok v' fb (l1 ++ set_size z f :: l2) /\ inodes_ok v' (l1 ++ set_size z f :: l2) /\ meta_ok v'.
Proof.
  intros Hd Hin Hm Hc Hz n v'. pose proof (da_vol _ _ _ Hd) as Hv.
  assert (0 <= n < NINODES) as Hn by (rewrite length_app in Hc; cbn [length] in Hc; lia). split_and!.
  - eapply data_frame; [by apply data_size|apply put_inode_vol; [done|apply length_finode|apply dinode_bytes_ok|lia]|].
    intros b Hb. apply put_inode_other; [done|lia].
  - eapply inodes_put; [done|exact Hin|]. rewrite length_app in *. exact Hc.
  - eapply meta_frame; [done|]. intros b Hb. apply put_inode_other; [done|lia].
Qed.

Section main.
Context (room : nat) (Hroom : (Z.to_nat FSSIZE <= room)%nat).
Implicit Types (s : mkfs) (v : Z -> list Z) (f : mfile) (st : list mfile).

Lemma wp_iappend s v fi fb l1 f l2 p (Q : unit -> mkfs -> Prop) : mrep s v fi fb -> image_ok v fb (l1 ++ f :: l2) ->
  bytes_ok p -> Z.of_nat (length (mf_data f ++ p)) <= MAXBYTES ->
  fb + need (length (mf_data f ++ p)) - need (length (mf_data f)) <= FSSIZE ->
  (forall s' v' f', let fb' := fb + need (length (mf_data f ++ p)) - need (length (mf_data f)) in
    mrep s' v' fi fb' -> image_ok v' fb' (l1 ++ f' :: l2) -> mf_type f' = mf_type f -> mf_data f' = mf_data f ++ p -> Q tt s') ->
  wp (iappend Little room (Z.of_nat (length l1) + 1) p) Q s.
Proof using Hroom.
  intros Hr [Hd Hfb Hc Hin Hm Hs] Hp Hmax Hb HQ. set (n := Z.of_nat (length l1) + 1).
  assert (0 <= n < NINODES) as Hn by (rewrite length_app in Hc; cbn [length] in Hc; lia).
  assert (forall g, Z.of_nat (length (l1 ++ g :: l2)) < NINODES) as Hcnt by (intros g; rewrite length_app in *; exact Hc).
  assert (sized f) as [Ht Hsz] by (eapply (proj1 (Forall_forall _ _) Hs); set_solver).
  assert (in_image v fb l1 f l2) as Hi by done. pose proof (finode_wf n _ _ _ _ _ Hi) as Hw.
  unfold iappend. wp_step. eapply wp_rinode; [done|done|]. fold (din_at v n). rewrite Hin by done.
  rewrite bool_decide_eq_false_2 by lia. replace (Z.to_nat (n - 1)) with (length l1) by lia. rewrite list_lookup_middle by done.
  unfold OFF_SIZE. rewrite load32_little, get_din_size, xint_little by (done || apply Hw). cbn [finode i_size]. rewrite Hsz.
  wp_step. eapply (wp_iappend_loop room Hroom); [done..|]. intros s1 v1 fb1 f1 Hap Hr1.
  pose proof Hap as [[Hd1 Hfb1] Hty _ Hda Htight Efb Hmeta]. unfold MAXBYTES, MAXFILE, BSIZEz in Hmax.
  rewrite xint_little, store32_little, set_din_size by (rewrite Hda; lia).
  change (set_i_size ?z (finode n f1)) with (finode n (set_size z f1)).
  eapply (wp_winode room Hroom); [done|done|]. intros s2 Hr2.
  destruct (image_store v1 fb1 l1 f f1 l2 (Z.of_nat (length (mf_data f1)))) as (Hd2 & Hin2 & Hm2).
  { done. } { eapply inodes_frame; [done|]. intros b Hb'. apply Hmeta. change nmeta with 59. lia. }
  { eapply meta_frame; [done|]. intros b Hb'. apply Hmeta. change nmeta with 59. lia. }
  { done. } { rewrite Hda. lia. }
  rewrite <- Efb in HQ. eapply (HQ s2 _ (set_size _ f1)); [exact Hr2| |done|done]. split; try done.
  apply Forall_app in Hs as [Hs1 Hs2]. apply Forall_cons in Hs2 as [_ Hs2]. apply Forall_app. split; [done|].
  apply Forall_cons. split; [|done]. by split.
Qed.

Lemma image_length v fb st : image_ok v fb st -> Z.of_nat (length st) + 1 <= NINODES.
Proof. clear Hroom. intros []. unfold NINODES in *. lia. Qed.

Definition new_file (ty : Z) : mfile := Mfile ty 0 [] [] 0.

Lemma wp_mkfs_ialloc s v fb st ty (Q : Z -> mkfs -> Prop) : mrep s v (Z.of_nat (length st) + 1) fb -> image_ok v fb st ->
  ty = T_DIR \/ ty = T_FILE -> Z.of_nat (length st) + 1 < NINODES ->
  (forall s' v', mrep s' v' (Z.of_nat (length st) + 2) fb -> image_ok v' fb (st ++ [new_file ty]) ->
    Q (Z.of_nat (length st) + 1) s') -> wp (ialloc Little room ty) Q s.
Proof using Hroom.
  intros Hr [Hd Hfb Hc Hin Hm Hs] Hty Hlt HQ. set (n := Z.of_nat (length st) + 1) in *. unfold ialloc. wp_steps.
  rewrite (mr_fi _ _ _ _ Hr).
  assert (store Little 4 (store Little 2 (store Little 2 (replicate SZ_DINODE 0) OFF_TYPE (xshort Little ty)) OFF_NLINK (xshort Little 1))
    OFF_SIZE (xint Little 0) = dinode_bytes (finode n (new_file ty))) as -> by (destruct Hty as [-> | ->]; reflexivity).
  unfold NINODES in *. eapply (wp_winode room Hroom); [split| |].
  { apply Hr. } { apply Hr. } { apply Hr. } { cbn. apply u32_small. lia. } { apply Hr. } { unfold NINODES. lia. }
  intros s1 Hr1. wp_step. replace (n + 1) with (Z.of_nat (length st) + 2) in Hr1 by lia.
  assert (vol_ok (put_inode v n (dinode_bytes (finode n (new_file ty))))) as Hv
    by (apply put_inode_vol; [apply Hd|apply length_finode|apply dinode_bytes_ok|lia]).
  eapply HQ; [exact Hr1|]. split; [|done|rewrite length_app; cbn; unfold NINODES; lia|..].
  - assert (allblocks (st ++ [new_file ty]) = allblocks st) as E.
    { unfold allblocks. rewrite bind_app. cbn. by rewrite app_nil_r. }
    assert (data_ok (put_inode v n (dinode_bytes (finode n (new_file ty)))) fb st) as Hd'.
    { eapply data_frame; [done|done|]. intros b Hb. apply put_inode_other; unfold NINODES; lia. }
    destruct Hd'. split; rewrite ?E; try done. apply Forall_app. split; [done|]. apply Forall_singleton.
    split; cbn; try done; lia.
  - intros m Hmr. rewrite din_at_put by (apply Hd || apply length_finode || lia). case_decide as E.
    + subst m. rewrite bool_decide_eq_false_2 by lia. replace (Z.to_nat (n - 1)) with (length st) by lia.
      by rewrite list_lookup_middle.
    + rewrite Hin by done. case_bool_decide; [done|]. destruct (decide (Z.to_nat (m - 1) < length st)%nat).
      * by rewrite lookup_app_l by done.
      * rewrite !lookup_ge_None_2; [done|..]; rewrite ?length_app; cbn [length]; lia.
  - eapply meta_frame; [done|]. intros b Hb. apply put_inode_other; unfold NINODES; lia.
  - apply Forall_app. split; [done|]. by apply Forall_singleton.
Qed.

(** ** The files of the command line *)

(** What the calls of [read] deliver before they report the end. *)
Fixpoint delivered (reads : list (list Z)) : list Z :=
  match reads with
  | [] | [] :: _ => []
  | buf :: reads' => buf ++ delivered reads'
  end.

(** A directory entry on disk. *)
Definition entry (inum : Z) (name : list Z) : list Z := le_bytes 2 inum ++ padz DIRSIZ name.

Lemma length_entry inum name : length (entry inum name) = 16%nat.
Proof. clear Hroom room. unfold entry. rewrite length_app, length_le_bytes, length_padz. done. Qed.
Lemma bytes_ok_entry inum name : bytes_ok name -> bytes_ok (entry inum name).
Proof.
  clear Hroom room. intros Hn. apply Forall_app. split; [apply le_bytes_ok|]. apply Forall_padz; [done|].
  unfold byte_ok. lia.
Qed.

Lemma fill_dirent_entry inum name : 0 <= inum < 2 ^ 16 -> fill_dirent Little inum (libc_strncpy name DIRSIZ) = entry inum name.
Proof.
  clear Hroom room. intros Hi. unfold fill_dirent. replace (u16 inum) with inum by (unfold u16; by rewrite Z.mod_small).
  rewrite xshort_little, store16_little by done. unfold set16, SZ_DIRENT. change (libc_strncpy name DIRSIZ) with (padz DIRSIZ name).
  unfold splice at 2. cbn [take app Nat.add]. rewrite drop_replicate, length_le_bytes. unfold splice.
  change (take 0 (replicate 16 0)) with (@nil Z). rewrite app_nil_l, take_app_length' by done. rewrite length_padz, drop_app_ge by (rewrite length_le_bytes; unfold DIRSIZ; lia).
  rewrite drop_ge by (rewrite length_le_bytes, length_replicate; unfold DIRSIZ; lia). by rewrite app_nil_r.
Qed.

Lemma wp_copy_file reads : forall s v fi fb l1 f (Q : unit -> mkfs -> Prop), mrep s v fi fb -> image_ok v fb (l1 ++ [f]) ->
  bytes_ok (delivered reads) -> Z.of_nat (length (mf_data f ++ delivered reads)) <= MAXBYTES ->
  fb + need (length (mf_data f ++ delivered reads)) - need (length (mf_data f)) <= FSSIZE ->
  (forall s' v' f', let fb' := fb + need (length (mf_data f ++ delivered reads)) - need (length (mf_data f)) in
    mrep s' v' fi fb' -> image_ok v' fb' (l1 ++ [f']) -> mf_type f' = mf_type f ->
    mf_data f' = mf_data f ++ delivered reads -> Q tt s') ->
  wp (copy_file Little room (Z.of_nat (length l1) + 1) reads) Q s.
Proof using Hroom.
  induction reads as [|c reads IH]; intros s v fi fb l1 f Q Hr Hi Hok Hmax Hb HQ; cbn [copy_file delivered] in *.
  { rewrite app_nil_r in *. cbv zeta in HQ. rewrite Z.add_simpl_r in HQ. wp_step. by apply (HQ s v f). }
  destruct c as [|x c]. { rewrite app_nil_r in *. cbv zeta in HQ. rewrite Z.add_simpl_r in HQ. wp_step. by apply (HQ s v f). }
  set (p := x :: c) in *. clearbody p. apply Forall_app in Hok as [Hp Hok]. rewrite app_assoc in *.
  pose proof (need_mono (length (mf_data f ++ p)) (length ((mf_data f ++ p) ++ delivered reads)) ltac:(rewrite (length_app (mf_data f ++ p)); lia)).
  wp_step. eapply wp_iappend; [done|done|done|rewrite (length_app (mf_data f ++ p)) in Hmax; lia|lia|].
  intros s1 v1 f1 fb1 Hr1 Hi1 Hty Hda. eapply IH; [done|done|done|by rewrite Hda|rewrite Hda; lia|].
  intros s2 v2 f2. rewrite Hda. replace (fb1 + _ - _) with
    (fb + need (length ((mf_data f ++ p) ++ delivered reads)) - need (length (mf_data f))) by lia.
  intros Hr2 Hi2 Hty2 Hda2. apply (HQ s2 v2 f2); [done|done|congruence|done].
Qed.

Definition dots : list Z := entry ROOTINO [46] ++ entry ROOTINO [46; 46].
(** The content of the root directory for files with these names. *)
Definition root_data (names : list (list Z)) : list Z :=
  dots ++ concat (imap (fun k nm => entry (Z.of_nat k + 2) nm) names).

(** The blocks that names and contents need. *)
Definition sum_need (fs : list (list Z * list Z)) : Z := foldr (fun x acc => need (length x.2) + acc) 0 fs.
Definition total (fs : list (list Z * list Z)) : Z := need (32 + 16 * length fs) + sum_need fs.

(** The list of files of the image for names and contents. *)
Record built (fb : Z) (fs : list (list Z * list Z)) (st : list mfile) : Prop := {
  bu_root : exists rt fl, st = rt :: fl /\ mf_type rt = T_DIR /\ mf_data rt = root_data fs.*1 /\
    Forall2 (fun f x => mf_type f = T_FILE /\ mf_data f = x.2) fl fs;
  bu_fb : fb = nmeta + total fs
}.

Section sums.
Implicit Types (fs : list (list Z * list Z)).

Lemma length_concat_imap (g : nat -> list Z -> list Z) l : (forall k x, length (g k x) = 16%nat) ->
  length (concat (imap g l)) = (16 * length l)%nat.
Proof.
  clear Hroom room. intros Hg. revert g Hg. induction l as [|x l IH]; intros g Hg; [done|].
  cbn [imap concat length]. rewrite length_app, Hg, IH by (intros; apply Hg). lia.
Qed.
Lemma length_root_data names : length (root_data names) = (32 + 16 * length names)%nat.
Proof.
  clear Hroom room. unfold root_data. rewrite length_app, length_concat_imap by (intros; apply length_entry). done.
Qed.
Lemma root_data_snoc names nm : root_data (names ++ [nm]) = root_data names ++ entry (Z.of_nat (length names) + 2) nm.
Proof.
  clear Hroom room. unfold root_data. rewrite imap_app, concat_app, app_assoc. f_equal. cbn. by rewrite app_nil_r, Nat.add_0_r.
Qed.

Lemma need_nonneg n : 0 <= need n.
Proof. clear Hroom room. unfold need. case_decide; lia. Qed.
Lemma sum_need_nonneg fs : 0 <= sum_need fs.
Proof. clear Hroom room. induction fs as [|x fs IH]; [done|]. pose proof (need_nonneg (length x.2)).
  change (sum_need (x :: fs)) with (need (length x.2) + sum_need fs). lia. Qed.
Lemma sum_need_app fs fs' : sum_need (fs ++ fs') = sum_need fs + sum_need fs'.
Proof. clear Hroom room. induction fs as [|x fs IH]; [done|]. cbn [app].
  change (sum_need (x :: ?l)) with (need (length x.2) + sum_need l). lia. Qed.
Lemma total_app fs fs' : total fs <= total (fs ++ fs').
Proof.
  clear Hroom room. unfold total. rewrite sum_need_app, length_app. pose proof (sum_need_nonneg fs').
  pose proof (need_mono (32 + 16 * length fs) (32 + 16 * (length fs + length fs')) ltac:(lia)). lia.
Qed.
End sums.

Variable files : list Z -> option (list (list Z)).

(** The name in the image and the content. *)
Definition src (arg : list Z) : list Z * list Z := (dst_name arg, delivered (default [] (files arg))).

(** A file name without a slash, of a file that can be read and is not too large. *)
Record good_arg (arg : list Z) : Prop := {
  ga_slash : 47 ∉ arg;
  ga_name : bytes_ok arg;
  ga_open : is_Some (files arg);
  ga_bytes : bytes_ok (src arg).2;
  ga_size : Z.of_nat (length (src arg).2) <= MAXBYTES
}.

Lemma bytes_ok_dst arg : bytes_ok arg -> bytes_ok (dst_name arg).
Proof.
  clear Hroom room. intros Ha. destruct arg as [|c arg]; [done|]. unfold dst_name. apply Forall_cons in Ha as [? ?].
  repeat case_match; try done; by apply Forall_cons.
Qed.

Lemma wp_add_file s v fb fs st arg (Q : unit -> mkfs -> Prop) : mrep s v (Z.of_nat (length st) + 1) fb -> image_ok v fb st ->
  built fb fs st -> good_arg arg -> (length fs < 198)%nat -> nmeta + total (fs ++ [src arg]) <= FSSIZE ->
  (forall s' v' fb' st', mrep s' v' (Z.of_nat (length st') + 1) fb' -> image_ok v' fb' st' ->
    built fb' (fs ++ [src arg]) st' -> Q tt s') ->
  wp (add_file Little room files ROOTINO arg) Q s.
Proof using Hroom.
  intros Hr Hi [(rt & fl & -> & Hty & Hda & Hfl) Hfb] [Hsl Hnm [reads Hrd] Hb Hsz] Hn Htot HQ.
  pose proof (Forall2_length _ _ _ Hfl) as Hlen. unfold add_file. rewrite bool_decide_eq_false_2, Hrd by done.
  unfold src in *. rewrite Hrd in *. change (default [] (Some reads)) with reads in *. cbn [snd] in *. set (d := delivered reads) in *.
  unfold total in *. rewrite sum_need_app, length_app in Htot. cbn [sum_need foldr length snd] in Htot.
  assert (length (mf_data rt) = 32 + 16 * length fs)%nat as Hlr by (by rewrite Hda, length_root_data, length_fmap).
  pose proof (sum_need_nonneg fs) as Hnn. pose proof (need_nonneg (length d)) as Hnd.
  wp_step. eapply wp_mkfs_ialloc; [done|done|by right|cbn [length]; unfold NINODES; lia|]. intros s1 v1 Hr1 Hi1. cbn [length] in *. wp_step.
  set (inum := Z.of_nat (S (length fl)) + 1) in *.
  rewrite fill_dirent_entry by lia. eapply (wp_iappend s1 v1 _ _ [] rt (fl ++ [new_file T_FILE])); [done|done|..].
  { by apply bytes_ok_entry, bytes_ok_dst. }
  { rewrite length_app, length_entry, Hlr. unfold MAXBYTES, MAXFILE, BSIZEz. lia. }
  { rewrite length_app, length_entry, Hlr. replace (32 + 16 * length fs + 16)%nat with (32 + 16 * (length fs + 1))%nat by lia. lia. }
  rewrite length_app, length_entry, Hlr. replace (32 + 16 * length fs + 16)%nat with (32 + 16 * (length fs + 1))%nat by lia.
  cbv zeta. set (fb2 := fb + _ - _). intros s2 v2 rt' Hr2 Hi2 Hty2 Hda2.
  replace inum with (Z.of_nat (length (rt' :: fl)) + 1) by done.
  eapply (wp_copy_file reads s2 v2 _ _ (rt' :: fl) (new_file T_FILE)); [done|done|done|done|cbn [new_file mf_data app]; fold d; change (need (length [])) with 0; lia|].
  intros s3 v3 f' fb3 Hr3 Hi3 Hty3 Hda3. eapply (HQ s3 v3 fb3 (rt' :: fl ++ [f'])); [|exact Hi3|].
  - cbn [length]. rewrite length_app. cbn [length]. replace (Z.of_nat (S (length fl + 1)) + 1) with (Z.of_nat (S (length fl)) + 2) by lia. done.
  - split.
    + exists rt', (fl ++ [f']). split_and!; [done|congruence| |].
      * rewrite Hda2, Hda, fmap_app. cbn [fmap list_fmap fst]. rewrite root_data_snoc, length_fmap. do 2 f_equal. lia.
      * apply Forall2_app; [done|]. apply Forall2_cons. split; [|done]. split; [done|]. exact Hda3.
    + unfold total. rewrite sum_need_app, length_app. cbn [sum_need foldr length snd].
      unfold fb3, fb2. cbn [new_file mf_data app]. fold d. change (need (length [])) with 0. lia.
Qed.

Lemma wp_add_files args : forall s v fb fs st (Q : unit -> mkfs -> Prop), mrep s v (Z.of_nat (length st) + 1) fb -> image_ok v fb st ->
  built fb fs st -> Forall good_arg args -> (length fs + length args <= 198)%nat -> nmeta + total (fs ++ (src <$> args)) <= FSSIZE ->
  (forall s' v' fb' st', mrep s' v' (Z.of_nat (length st') + 1) fb' -> image_ok v' fb' st' ->
    built fb' (fs ++ (src <$> args)) st' -> Q tt s') ->
  wp (add_files Little room files ROOTINO args) Q s.
Proof using Hroom.
  induction args as [|arg args IH]; intros s v fb fs st Q Hr Hi Hbu Hg Hn Ht HQ; cbn [add_files fmap list_fmap length] in *.
  { rewrite app_nil_r in *. wp_step. by eapply HQ. }
  apply Forall_cons in Hg as [Ha Hg]. rewrite cons_middle, app_assoc in Ht, HQ. pose proof (total_app (fs ++ [src arg]) (src <$> args)).
  wp_step. eapply wp_add_file; [done|done|done|done|lia|lia|]. intros s1 v1 fb1 st1 Hr1 Hi1 Hbu1.
  eapply IH; [done..| |done|done]. rewrite length_app. cbn [length]. lia.
Qed.

(** The image before the first inode. *)
Definition blank : Z -> list Z := upd_blk (fun _ => zero_block) 1 sb_block.

Lemma blank_ok : image_ok blank nmeta [].
Proof.
  clear Hroom. assert (vol_ok blank) as Hv.
  { apply vol_ok_upd; [intros b; apply zero_block_ok|]. split; [reflexivity|]. apply bytes_okb_ok. vm_compute. reflexivity. }
  split; try done.
  - split; try done; [constructor|]. intros b Hb. change nmeta with 59 in Hb. unfold blank, upd_blk. by rewrite decide_False by lia.
  - intros n Hn. pose proof (iblock_range n Hn). unfold din_at, blank, upd_blk. rewrite decide_False by lia.
    destruct (n =z 0); unfold slice, zero_block; rewrite drop_replicate, take_replicate; f_equal;
    pose proof (dinode_off_bound n ltac:(lia)); lia.
  - split; [done|]. intros b Hb. unfold blank, upd_blk. by rewrite decide_False by lia.
Qed.

Lemma wp_zero_sectors s (Q : unit -> mkfs -> Prop) : im s = [] ->
  Q tt (set_im (replicate (Z.to_nat FSSIZE) zero_block) s) ->
  wp (for_loop (Z.to_nat FSSIZE) 0 (fun i => wsect room i (replicate BSIZE 0))) Q s.
Proof using Hroom.
  intros Hs HQ. eapply wp_mono; [apply (wp_for_loop (fun i s' => 0 <= i /\ s' = set_im (replicate (Z.to_nat i) zero_block) s))|].
  - split; [done|]. destruct s. cbn in *. by subst.
  - intros i s' Hi [_ ->]. unfold wsect. rewrite sector_at_small by lia. rewrite decide_True by lia. wp_step.
    split; [lia|]. unfold set_im, put_sector. cbn [im fsb freeinode freeblock]. rewrite length_replicate, decide_False by lia.
    rewrite Nat.sub_diag. f_equal. replace (Z.to_nat (i + 1)) with (Z.to_nat i + 1)%nat by lia. by rewrite replicate_add.
  - intros [] s' [_ ->]. replace (Z.to_nat (0 + Z.of_nat (Z.to_nat FSSIZE))) with (Z.to_nat FSSIZE) by done. exact HQ.
Qed.

Lemma wp_mkfs_init s (Q : Z -> mkfs -> Prop) : im s = [] -> freeinode s = 1 ->
  (forall s' v' fb' st', mrep s' v' (Z.of_nat (length st') + 1) fb' -> image_ok v' fb' st' -> built fb' [] st' -> Q ROOTINO s') ->
  wp (mkfs_init Little room) Q s.
Proof using Hroom.
  intros Him Hfi HQ. unfold mkfs_init. wp_step. wp_step. wp_step. wp_step. wp_step. apply wp_zero_sectors; [done|]. wp_step. wp_step. wp_step.
  rewrite !xint_little by done. set (s0 := set_im _ _).
  assert (mrep s0 (fun _ => zero_block) 1 nmeta) as Hr0.
  { split; try done. intros b. unfold vol. case_decide; [|done]. cbn [s0 set_im im].
    destruct (replicate _ _ !! _) as [d|] eqn:Hd; [|done]. by apply lookup_replicate in Hd as [-> _]. }
  eapply (wp_wsect room Hroom); [exact Hr0|done|]. intros s1 Hr1. change (upd_blk _ 1 _) with blank in Hr1.
  wp_step. eapply (wp_mkfs_ialloc s1 blank _ []); [done|apply blank_ok|by left|done|]. intros s2 v2 Hr2 Hi2.
  change (Z.of_nat (length []) + 1) with ROOTINO. rewrite bool_decide_eq_true_2 by done. cbn [negb]. wp_step.
  eapply (wp_iappend s2 v2 _ _ [] (new_file T_DIR) []); [done|exact Hi2|apply bytes_okb_ok; reflexivity|done|done|].
  intros s3 v3 f3 fb3 Hr3 Hi3 Hty3 Hda3. change fb3 with 60 in *. wp_step.
  eapply (wp_iappend s3 v3 _ _ [] f3 []); [done|exact Hi3|apply bytes_okb_ok; reflexivity|rewrite Hda3; done|rewrite Hda3; done|].
  intros s4 v4 f4 fb4 Hr4 Hi4 Hty4 Hda4. wp_step. rewrite Hda3 in Hda4.
  assert (fb4 = 60) as Efb by (unfold fb4; rewrite Hda3; done). rewrite Efb in *.
  eapply (HQ s4 v4 60 [f4]); [exact Hr4|exact Hi4|]. split; [|done]. exists f4, []. split_and!; [done|by rewrite Hty4, Hty3| |done].
  rewrite Hda4. reflexivity.
Qed.

(** ** The bitmap *)

Lemma mark_bits_step n i d : mark_bits (S n) i d = mark_bits n (i + 1) (mark_used d i).
Proof. clear Hroom room files. done. Qed.

Lemma mark_bits_block n : forall i d, block_ok d -> block_ok (mark_bits n i d).
Proof. clear Hroom room files. induction n as [|n IH]; intros i d Hd; [done|]. rewrite mark_bits_step. by apply IH, put_byte_ok. Qed.

Lemma bit_set_mark n : forall i d j, block_ok d -> 0 <= i -> i + Z.of_nat n <= BPB -> 0 <= j < BPB ->
  bit_set (mark_bits n i d) j = bool_decide (i <= j < i + Z.of_nat n) || bit_set d j.
Proof.
  clear Hroom room files. induction n as [|n IH]; intros i d j Hd Hi Hn Hj.
  - by rewrite bool_decide_eq_false_2 by lia.
  - rewrite mark_bits_step, IH by (lia || by apply put_byte_ok).
    rewrite bit_set_used by (apply Hd || (unfold in_bits; lia)). rewrite orb_assoc. f_equal.
    destruct (decide (j = i)) as [->|].
    + rewrite (bool_decide_eq_true_2 (i = i)), orb_true_r, bool_decide_eq_true_2 by lia. done.
    + rewrite (bool_decide_eq_false_2 (j = i)), orb_false_r by done. apply bool_decide_ext. lia.
Qed.

(** ** The finished image *)

Record finished v fb st : Prop := {
  fn_data : data_ok v fb st;
  fn_fb : fb <= FSSIZE;
  fn_count : Z.of_nat (length st) < NINODES;
  fn_inodes : inodes_ok v st;
  fn_sb : v 1 = sb_block;
  fn_log : forall b, 2 <= b < 32 -> v b = zero_block;
  fn_bits : v 58 = mark_bits (Z.to_nat fb) 0 zero_block
}.

(** The size that [main] gives the root directory. *)
Definition root_size (fs : list (list Z * list Z)) : Z := (Z.of_nat (32 + 16 * length fs) / BSIZEz + 1) * BSIZEz.

Lemma wp_mkfs_finish s v fi fb fs rt fl (Q : unit -> mkfs -> Prop) : mrep s v fi fb -> image_ok v fb (rt :: fl) ->
  mf_data rt = root_data fs.*1 -> length fs = length fl ->
  (forall s' v', mrep s' v' fi fb -> finished v' fb (set_size (root_size fs) rt :: fl) -> Q tt s') ->
  wp (mkfs_finish Little room ROOTINO) Q s.
Proof using Hroom.
  intros Hr [Hd Hfb Hc Hin Hm Hs] Hda Hlen HQ. assert (in_image v fb [] rt fl) as Hi by done.
  pose proof (finode_wf ROOTINO _ _ _ _ _ Hi) as Hw. pose proof (image_fb _ _ _ _ _ Hi) as Hfbr.
  apply Forall_cons in Hs as [[Ht Hsz] _]. rewrite Hda, length_root_data, length_fmap in Hsz.
  cbn [length] in Hc. unfold NINODES in Hc. unfold mkfs_finish. wp_step. eapply wp_rinode; [done|done|]. fold (din_at v ROOTINO).
  rewrite (Hin ROOTINO) by done. change (if ROOTINO =z 0 then _ else ?x) with x. change (?l !! Z.to_nat (ROOTINO - 1)) with (head l).
  cbn [head]. unfold OFF_SIZE. rewrite load32_little, get_din_size by done. cbn [finode i_size]. rewrite Hsz, (xint_little (Z.of_nat (32 + 16 * length fs))) by lia.
  fold (root_size fs). assert (0 <= root_size fs < 2 ^ 31) as Hrs.
  { unfold root_size, BSIZEz. pose proof (Z.div_pos (Z.of_nat (32 + 16 * length fs)) 512 ltac:(lia) ltac:(lia)).
    pose proof (Z.div_le_upper_bound (Z.of_nat (32 + 16 * length fs)) 512 10000 ltac:(lia) ltac:(lia)). lia. }
  rewrite u32_small, (xint_little (root_size fs)), store32_little, set_din_size by lia.
  wp_step. eapply (wp_winode room Hroom); [done|done|]. intros s1 Hr1.
  destruct (image_store v fb [] rt rt fl (root_size fs) Hd Hin Hm ltac:(cbn; unfold NINODES; lia) ltac:(lia)) as (Hd1 & Hin1 & Hm1).
  cbn [app length Z.of_nat] in Hd1, Hin1, Hm1. set (v1 := put_inode _ _ _) in *.
  wp_steps. rewrite (mr_fb _ _ _ _ Hr1). unfold FSSIZE in *. rewrite s32_small by lia. unfold balloc, BSIZEz.
  rewrite bool_decide_eq_true_2 by lia. cbn [negb]. wp_steps. rewrite (mr_sb _ _ _ _ Hr1).
  eapply (wp_wsect room Hroom); [exact Hr1|done|]. intros s2 Hr2. apply (HQ s2 _ Hr2). change (sb_bmapstart mksb) with 58.
  split; [|done|cbn; unfold NINODES; lia|..].
  - eapply data_frame; [exact Hd1| |]; [apply vol_ok_upd; [apply Hd1|apply mark_bits_block, zero_block_ok]|].
    intros b Hb. unfold upd_blk. by rewrite decide_False by lia.
  - eapply inodes_frame; [done|]. intros b Hb. unfold upd_blk. by rewrite decide_False by lia.
  - unfold upd_blk. rewrite decide_False by lia. apply Hm1.
  - intros b Hb. unfold upd_blk. rewrite decide_False by lia. apply Hm1. lia.
  - unfold upd_blk. by rewrite decide_True.
Qed.
End main.
