(* ===== verification/MkfsTheorems.v ===== *)
(** * The finished image as the kernel sees it

    The image of [mkfs.c] in the terms of the file system of the kernel: the
    free map, inodes, contents and directories that the definitions of
    [FsContent], [FsData], [FsDir] and [FsPath] find on it. *)

From S2P Require Import Prelude Bytes Params Machine BlockCache Bio BioSpec Journal Log LogSpec LogTx Crash CString Fs FsRep FsBlocks FsInodes FsContent FsData FsDir FsPath FsExample Mkfs MkfsRep MkfsSpec.
Local Open Scope Z_scope.

(** The kernel's view of a disk with such an image. *)
Definition on_image (E : fenv) : Prop := e_sb E = mksb /\ e_geom E = Geometry 2 nlog FSSIZE.

Section image.
Context (E : fenv) (v : Z -> list Z) (fb : Z) (st : list mfile).
Context (HE : on_image E) (Hfin : finished v fb st).

Lemma image_range : 59 <= fb <= FSSIZE.
Proof using Hfin. destruct Hfin as [Hd Hb]. pose proof (da_count _ _ _ Hd). change nmeta with 59 in *. lia. Qed.

Lemma e_sb_image : e_sb E = mksb.
Proof using HE. apply HE. Qed.
Lemma e_dom_image b : 0 <= b < FSSIZE -> ~ (2 <= b < 32) -> e_dom E b.
Proof using HE. intros Hb Hn. unfold e_dom. rewrite (proj2 HE). split; [done|exact Hn]. Qed.

Lemma bblock_image b : 0 <= b < FSSIZE -> BBLOCK b mksb = 58.
Proof. unfold FSSIZE. intros Hb. unfold BBLOCK, BPB. rewrite Z.div_small by lia. done. Qed.

Lemma image_layout : fs_layout E.
Proof using HE.
  split.
  - split; rewrite e_sb_image; [done|done|]. intros b Hb. rewrite bblock_image by done. apply e_dom_image; [done|lia].
  - rewrite e_sb_image. intros n Hn. rewrite iblock_sb. pose proof (iblock_range n Hn) as Hr. change (sb_bmapstart mksb) with 58.
    split; [|lia]. split; rewrite ?e_sb_image, ?iblock_sb; [apply e_dom_image; unfold FSSIZE; lia|lia|lia].
  - rewrite e_sb_image. intros b Hb. change (59 <= b < FSSIZE) in Hb. apply e_dom_image; lia.
Qed.

Lemma image_used b : 0 <= b < FSSIZE -> used mksb v b = bool_decide (b < fb).
Proof using Hfin.
  intros Hb. pose proof image_range. unfold used. rewrite bblock_image, (fn_bits _ _ _ Hfin) by done. unfold FSSIZE in *.
  unfold BPB. rewrite Z.mod_small, bit_set_mark by (apply zero_block_ok || (unfold BPB; lia)).
  assert (bit_set zero_block b = false) as ->.
  { unfold bit_set, zero_block. rewrite nth_replicate0, Z.land_0_l. done. }
  rewrite orb_false_r. apply bool_decide_ext. lia.
Qed.

Lemma image_meta : meta_used E v.
Proof using HE Hfin.
  intros b. rewrite e_sb_image. intros Hb. rewrite image_used by done. intros Hu%bool_decide_eq_false.
  change (data_start mksb) with 59. pose proof image_range. lia.
Qed.

Lemma image_vol : vol_ok v.
Proof using Hfin. apply Hfin. Qed.

(** ** Inodes *)

Lemma image_at k f : st !! k = Some f -> exists l1 l2, in_image v fb l1 f l2.
Proof using Hfin.
  intros Hk. exists (take k st), (drop (S k) st). split; [|apply Hfin]. rewrite take_drop_middle by done. apply Hfin.
Qed.

Lemma dino_bytes n : 0 <= n < NINODES ->
  dino E v n = get_dinode (splice (dinode_off n) (din_at v n) (v (iblock n))) (dinode_off n) (Inode ROOTDEV n 1 1 0 0 0 0 0 []).
Proof using HE Hfin.
  intros Hn. unfold dino, disk_inode. rewrite e_sb_image, iblock_sb. unfold din_at. rewrite splice_slice; [done|].
  rewrite (proj1 (image_vol _)). apply dinode_off_bound. lia.
Qed.

Lemma dino_file n f : 0 < n < NINODES -> st !! Z.to_nat (n - 1) = Some f -> dino E v n = finode n f.
Proof using HE Hfin.
  intros Hn Hk. destruct (image_at _ _ Hk) as (l1 & l2 & Hi). pose proof (finode_wf n _ _ _ _ _ Hi) as Hw.
  rewrite dino_bytes, (fn_inodes _ _ _ Hfin n), bool_decide_eq_false_2, Hk by lia.
  assert (dinode_off n + 64 <= length (v (iblock n)))%nat as Hl by (rewrite (proj1 (image_vol _)); apply dinode_off_bound; lia).
  rewrite <- put_dinode_splice by (done || apply Hw). exact (get_put_dinode _ _ _ Hl Hw).
Qed.

Lemma dino_free n : 0 <= n < NINODES -> n = 0 \/ st !! Z.to_nat (n - 1) = None -> i_type (dino E v n) = 0.
Proof using HE Hfin.
  intros Hn Hk. rewrite dino_bytes, (fn_inodes _ _ _ Hfin n) by done.
  replace (if n =z 0 then None else st !! Z.to_nat (n - 1)) with (@None mfile).
  2:{ destruct Hk as [-> | Hk]; [done|]. by case_bool_decide. }
  cbn [get_dinode i_type]. unfold dip_type, get16.
  assert (dinode_off n + 64 <= length (v (iblock n)))%nat as Hl by (rewrite (proj1 (image_vol _)); apply dinode_off_bound; lia).
  rewrite <- (Nat.add_0_r (dinode_off n)) at 1. rewrite slice_splice_inner; [done|lia|]. rewrite length_replicate. lia.
Qed.

(** A type other than 0 means that there is a file. *)
Lemma dino_inv n : 0 <= n < NINODES -> i_type (dino E v n) <> 0 ->
  exists f, 0 < n /\ st !! Z.to_nat (n - 1) = Some f /\ dino E v n = finode n f.
Proof using HE Hfin.
  intros Hn Ht. destruct (decide (n = 0)) as [->|Hne]; [by rewrite dino_free in Ht by auto|].
  destruct (st !! Z.to_nat (n - 1)) as [f|] eqn:Hk; [|by rewrite dino_free in Ht by auto].
  exists f. split_and!; [lia|done|]. apply dino_file; [lia|done].
Qed.

(** ** Contents *)

Section file.
Context (n : Z) (f : mfile) (k : nat) (Hk : st !! k = Some f).

Lemma file_blkmap bn : 0 <= bn < MAXFILE -> blkmap v (finode n f) bn = nth (Z.to_nat bn) (mf_blks f) 0.
Proof using Hk Hfin.
  intros Hbn. destruct (image_at _ _ Hk) as (l1 & l2 & Hi). pose proof (image_file _ _ _ _ _ Hi) as Hf. unfold MAXFILE in Hbn.
  unfold blkmap. case_decide; [apply iaddr_direct; lia|]. rewrite iaddr_ind. case_decide as Hz.
  - apply (fa_ind _ _ Hf) in Hz. by rewrite nth_overflow by lia.
  - rewrite (fa_words _ _ Hf Hz), get32_words; [| |rewrite length_padz; unfold NINDIRECT; lia].
    + rewrite nth_padz, nth_skipn by (unfold NINDIRECT; lia). f_equal. lia.
    + apply Forall_padz; [|lia]. apply Forall_drop. eapply Forall_impl; [exact (image_blks _ _ _ _ _ Hi)|].
      pose proof (ii_fb _ _ _ _ _ Hi). cbv beta. unfold FSSIZE in *. lia.
Qed.

(** A block of the map is a block of the file. *)
Lemma file_blk_in bn : 0 <= bn < MAXFILE -> blkmap v (finode n f) bn <> 0 ->
  mf_blks f !! Z.to_nat bn = Some (blkmap v (finode n f) bn).
Proof using Hk Hfin.
  intros Hbn Hnz. rewrite file_blkmap in * by done. destruct (nth_lookup_or_length (mf_blks f) (Z.to_nat bn) 0) as [E0|E0]; [done|].
  by rewrite nth_overflow in Hnz by lia.
Qed.

Lemma file_is_ok : file_ok E v (finode n f).
Proof using Hk Hfin HE.
  destruct (image_at _ _ Hk) as (l1 & l2 & Hi). pose proof (image_file _ _ _ _ _ Hi) as Hf.
  destruct (file_disjoint _ _ _ _ _ (ii_data _ _ _ _ _ Hi)) as [Hn Hr]. pose proof image_range as Hfb.
  split; [by eapply finode_wf|done|..].
  - assert (forall b, b ∈ fblocks f -> data_used E v b) as Hu.
    { intros b Hb%Hr. change nmeta with 59 in Hb. unfold data_used. rewrite e_sb_image, image_used by lia.
      change (data_start mksb) with 59. change (sb_size mksb) with FSSIZE. split; [lia|]. apply bool_decide_eq_true_2. lia. }
    intros b [Hnz [->|(bn & Hbn & <-)]]; apply Hu; unfold fblocks.
    + rewrite iaddr_ind in *. rewrite decide_False by done. set_solver.
    + apply elem_of_app. right. by eapply list_elem_of_lookup_2, file_blk_in.
  - intros bn bn' Hbn Hbn' Hnz Em. apply file_blk_in in Hnz as H1; [|done]. rewrite Em in H1, Hnz.
    apply file_blk_in in Hnz as H2; [|done]. unfold fblocks in Hn. apply NoDup_app in Hn as (_ & _ & Hn).
    pose proof (NoDup_lookup _ _ _ _ Hn H1 H2). lia.
  - intros bn Hbn Hnz. rewrite iaddr_ind. intros Em. apply file_blk_in in Hnz as H1; [|done]. unfold fblocks in Hn.
    rewrite decide_False in Hn by congruence. apply NoDup_cons in Hn as [Hn _]. apply Hn. rewrite <- Em.
    by eapply list_elem_of_lookup_2.
Qed.

Lemma nth_concat (l : list (list Z)) j o : Forall (fun d => length d = BSIZE) l -> (j < length l)%nat -> (o < BSIZE)%nat ->
  nth (BSIZE * j + o) (concat l) 0 = nth o (nth j l []) 0.
Proof.
  revert j. induction l as [|d l IH]; intros j Hl Hj Ho; cbn [length] in Hj; [lia|]. apply Forall_cons in Hl as [Hd Hl].
  cbn [concat]. destruct j as [|j].
  - rewrite Nat.mul_0_r, app_nth1 by lia. done.
  - rewrite Nat.mul_succ_r, app_nth2 by lia. replace (BSIZE * j + BSIZE + o - length d)%nat with (BSIZE * j + o)%nat by lia.
    apply IH; [done|lia|done].
Qed.

Lemma file_byte o : 0 <= o < MAXBYTES -> fbyte v (finode n f) o = nth (Z.to_nat o) (mf_data f) 0.
Proof using Hk Hfin.
  intros Ho. destruct (image_at _ _ Hk) as (l1 & l2 & Hi). pose proof (image_file _ _ _ _ _ Hi) as Hf.
  rewrite <- (nth_app_zeros (mf_data f) (BSIZE * length (mf_blks f) - length (mf_data f))), <- (fa_data _ _ Hf).
  pose proof (block_index o Ho) as Hbn. unfold fbyte, fblock. rewrite file_blkmap by done.
  pose proof (Z.div_mod o 512 ltac:(lia)) as Hdm. pose proof (Z.mod_pos_bound o 512 ltac:(lia)) as Hm.
  change BSIZEz with 512 in *. set (j := Z.to_nat (o / 512)). set (r := Z.to_nat (o mod 512)).
  assert (Z.to_nat o = BSIZE * j + r)%nat as -> by (unfold BSIZE; lia).
  assert (Forall (fun d => length d = BSIZE) (v <$> mf_blks f)) as Hall by (apply Forall_fmap, Forall_forall; intros b _; apply image_vol).
  destruct (decide (j < length (mf_blks f))%nat) as [Hj|Hj].
  - destruct (image_blk _ _ _ _ _ j Hi Hj) as [Hx Hl]. rewrite decide_False by lia.
    rewrite nth_concat by (rewrite ?length_fmap; unfold BSIZE in *; done || lia).
    by rewrite (nth_lookup_Some (v <$> mf_blks f) j [] (v (nth j (mf_blks f) 0))) by (by rewrite list_lookup_fmap, Hl).
  - rewrite (nth_overflow (mf_blks f)), decide_True by (done || lia). unfold zero_block. rewrite nth_replicate0.
    rewrite nth_overflow; [done|]. rewrite (fa_data _ _ Hf), length_app, length_replicate. pose proof (fa_fit _ _ Hf). unfold BSIZE in *. lia.
Qed.

Lemma file_bytes off m : 0 <= off -> 0 <= m -> off + m <= MAXBYTES ->
  fbytes v (finode n f) off m = (fun o => nth (Z.to_nat o) (mf_data f) 0) <$> seqZ off m.
Proof using Hk Hfin.
  intros Ho Hm Hmax. apply list_fmap_ext. intros i o Hi%list_elem_of_lookup_2%elem_of_seqZ. apply file_byte. lia.
Qed.

Lemma file_slice off m : (off + m <= length (mf_data f))%nat -> Z.of_nat (off + m) <= MAXBYTES ->
  fbytes v (finode n f) (Z.of_nat off) (Z.of_nat m) = slice off m (mf_data f).
Proof using Hk Hfin.
  intros Hl Hmax. rewrite file_bytes by lia. apply list_eq. intros j. rewrite list_lookup_fmap, lookup_slice. case_decide as Hj.
  - rewrite lookup_seqZ_lt by lia. cbn. destruct (lookup_lt_is_Some_2 (mf_data f) (off + j)%nat) as [x Hx]; [lia|].
    rewrite Hx. f_equal. apply nth_lookup_Some. rewrite <- Hx. f_equal. lia.
  - by rewrite lookup_seqZ_ge by lia.
Qed.

(** Behind the data there are zeros. *)
Lemma file_zeros off m : Z.of_nat (length (mf_data f)) <= off -> 0 <= m -> off + m <= MAXBYTES ->
  fbytes v (finode n f) off m = replicate (Z.to_nat m) 0.
Proof using Hk Hfin.
  intros Hl Hm Hmax. rewrite file_bytes by lia. apply list_eq. intros j. rewrite list_lookup_fmap.
  destruct (decide (Z.of_nat j < m)).
  - rewrite lookup_seqZ_lt by lia. cbn. rewrite nth_overflow by lia. symmetry. apply lookup_replicate. lia.
  - rewrite lookup_seqZ_ge, lookup_ge_None_2 by (rewrite ?length_replicate; lia). done.
Qed.

(** The blocks up to the size are there. *)
Lemma file_has_blocks : mf_size f <= Z.of_nat (BSIZE * length (mf_blks f)) -> file_dense v (finode n f).
Proof using Hk Hfin.
  intros Hsz. destruct (image_at _ _ Hk) as (l1 & l2 & Hi). pose proof (image_file _ _ _ _ _ Hi) as Hf. pose proof (fa_len _ _ Hf).
  split; cbn [finode i_size].
  - unfold MAXBYTES, MAXFILE, BSIZEz, BSIZE in *. lia.
  - intros o Ho. assert (0 <= o < MAXBYTES) as Hmb by (unfold MAXBYTES, MAXFILE, BSIZEz, BSIZE in *; lia).
    rewrite file_blkmap by (by apply block_index). change BSIZEz with 512. unfold BSIZE in Hsz.
    pose proof (Z.div_lt_upper_bound o 512 (Z.of_nat (length (mf_blks f))) ltac:(lia) ltac:(lia)).
    pose proof (Z.div_pos o 512 ltac:(lia) ltac:(lia)).
    destruct (image_blk _ _ _ _ _ (Z.to_nat (o / 512)) Hi ltac:(lia)) as [Hx _]. lia.
Qed.
End file.
End image.

(** ** The root directory *)

Definition entries (names : list (list Z)) : list (list Z) :=
  entry ROOTINO [46] :: entry ROOTINO [46; 46] :: imap (fun k nm => entry (Z.of_nat k + 2) nm) names.
Lemma root_data_entries names : root_data names = concat (entries names).
Proof. unfold root_data, entries, dots. cbn [concat]. by rewrite <- app_assoc. Qed.

Lemma length_entries names : length (entries names) = (2 + length names)%nat.
Proof. unfold entries. cbn [length]. by rewrite length_imap. Qed.

Lemma slice_entries l k (d : list Z) : Forall (fun d => length d = 16%nat) l -> l !! k = Some d -> slice (16 * k) 16 (concat l) = d.
Proof.
  revert k. induction l as [|x l IH]; intros k Hl Hk; [done|]. apply Forall_cons in Hl as [Hx Hl]. cbn [concat]. destruct k as [|k].
  - injection Hk as ->. rewrite Nat.mul_0_r, slice_app_l by lia. unfold slice. by rewrite drop_0, take_ge by lia.
  - replace (16 * S k)%nat with (length x + 16 * k)%nat by lia. rewrite slice_app_r. by apply IH.
Qed.

Lemma entries_length names : Forall (fun d => length d = 16%nat) (entries names).
Proof.
  unfold entries. repeat (apply Forall_cons; split; [apply length_entry|]). apply Forall_lookup. intros k d Hd.
  rewrite list_lookup_imap in Hd. apply fmap_Some in Hd as (nm & _ & ->). apply length_entry.
Qed.

(** The inode and the name of entry [k]. *)
Definition ent_inum (k : nat) : Z := if decide (k < 2)%nat then ROOTINO else Z.of_nat k.
Definition ent_name (names : list (list Z)) (k : nat) : list Z := nth k ([46] :: [46; 46] :: names) [].

Lemma entries_lookup names k : (k < 2 + length names)%nat ->
  entries names !! k = Some (entry (ent_inum k) (ent_name names k)).
Proof.
  intros Hk. destruct k as [|[|k]]; [done|done|].
  change (entries names !! S (S k)) with (imap (fun k nm => entry (Z.of_nat k + 2) nm) names !! k). rewrite list_lookup_imap.
  destruct (lookup_lt_is_Some_2 names k) as [nm Hn]; [lia|]. rewrite Hn. cbn [fmap option_fmap option_map]. f_equal.
  unfold ent_inum, ent_name. rewrite decide_False by lia. cbn [nth]. rewrite (nth_lookup_Some _ _ _ _ Hn). f_equal. lia.
Qed.

Lemma de_inum_entry n nm : 0 <= n < 2 ^ 16 -> de_inum (entry n nm) = n.
Proof.
  intros Hn. unfold de_inum, get16, entry. rewrite slice_app_l by (rewrite length_le_bytes; lia).
  unfold slice. rewrite drop_0, take_ge by (rewrite length_le_bytes; lia). rewrite le_val_bytes. by apply Z.mod_small.
Qed.

Lemma upto0_zeros l m : upto0 (l ++ replicate m 0) = upto0 l.
Proof. induction l as [|c l IH]; cbn [app upto0]; [by destruct m|]. destruct (c_bool c); [by rewrite IH|done]. Qed.

Lemma de_name_entry n nm : cname DIRSIZ (de_name (entry n nm)) = cname DIRSIZ nm.
Proof.
  unfold de_name, entry. replace 2%nat with (length (le_bytes 2 n) + 0)%nat by done. rewrite slice_app_r.
  unfold slice. rewrite drop_0, take_ge by (rewrite length_padz; done). unfold cname, padz.
  by rewrite take_take, Nat.min_id, take_app, take_replicate, upto0_zeros.
Qed.

Section root.
Context (E : fenv) (v : Z -> list Z) (fb : Z) (fs : list (list Z * list Z)) (rt : mfile) (fl : list mfile).
Context (HE : on_image E) (Hfin : finished v fb (set_size (root_size fs) rt :: fl)).
Context (Hty : mf_type rt = T_DIR) (Hda : mf_data rt = root_data fs.*1) (Htight : tight rt).
Context (Hfl : Forall2 (fun f x => mf_type f = T_FILE /\ mf_data f = x.2) fl fs) (Hsz : Forall sized fl).
Local Notation root := (finode ROOTINO (set_size (root_size fs) rt)).
Local Notation names := fs.*1.

Lemma root_count : (length fs < 199)%nat.
Proof using Hfl Hfin. pose proof (Forall2_length _ _ _ Hfl). pose proof (fn_count _ _ _ Hfin) as Hc. cbn [length] in Hc. unfold NINODES in Hc. lia. Qed.

Lemma root_length : length (mf_data rt) = (32 + 16 * length fs)%nat.
Proof using Hda. by rewrite Hda, length_root_data, length_fmap. Qed.

Lemma root_size_spec : Z.of_nat (32 + 16 * length fs) < root_size fs <= Z.of_nat (32 + 16 * length fs) + 512 /\
  root_size fs = 16 * (root_size fs / 16) /\ root_size fs <= MAXBYTES.
Proof using Hfl Hfin.
  pose proof root_count. unfold root_size, BSIZEz, MAXBYTES, MAXFILE, BSIZEz. set (x := Z.of_nat (32 + 16 * length fs)) in *.
  pose proof (Z.div_mod x 512 ltac:(lia)). pose proof (Z.mod_pos_bound x 512 ltac:(lia)).
  split_and!; [lia|lia| |lia]. replace ((x / 512 + 1) * 512) with ((x / 512 + 1) * 32 * 16) by lia. rewrite Z.div_mul by lia. lia.
Qed.

Lemma root_dino : dino E v ROOTINO = root.
Proof using HE Hfin. eapply dino_file; [done|exact Hfin|done|done]. Qed.

Lemma root_ndent : ndent root = root_size fs / 16.
Proof. done. Qed.

Lemma root_dent k : (k < 2 + length fs)%nat -> dent v root (Z.of_nat k) = entry (ent_inum k) (ent_name names k).
Proof using Hfin Hda Hfl.
  intros Hk. pose proof root_length as Hl. destruct root_size_spec as (Hs1 & _ & Hs2). unfold dent.
  replace (Z.of_nat k * 16) with (Z.of_nat (16 * k)) by lia. change (fbytes v root ?o 16) with (fbytes v root o (Z.of_nat 16)).
  erewrite file_slice; [|exact Hfin|by apply (list_lookup_middle [])|cbn [set_size mf_data]; lia|lia].
  cbn [set_size mf_data]. rewrite Hda, root_data_entries. apply slice_entries; [apply entries_length|].
  apply entries_lookup. rewrite length_fmap. done.
Qed.

Lemma root_dent_free k : Z.of_nat (2 + length fs) <= k < ndent root -> de_inum (dent v root k) = 0.
Proof using Hfin Hda Hfl.
  intros Hk. pose proof root_length as Hl. destruct root_size_spec as (Hs1 & Hs2 & Hs3). rewrite root_ndent in Hk. unfold dent.
  erewrite file_zeros; [|exact Hfin|by apply (list_lookup_middle [])|cbn [set_size mf_data]; lia|lia|lia]. done.
Qed.

(** An entry of the directory is one of those that were written, or free. *)
Lemma root_ent k : 0 <= k < ndent root -> de_inum (dent v root k) <> 0 -> exists j, k = Z.of_nat j /\ (j < 2 + length fs)%nat.
Proof using Hfin Hda Hfl.
  intros Hk Hi. destruct (decide (k < Z.of_nat (2 + length fs))); [|by rewrite root_dent_free in Hi by lia].
  exists (Z.to_nat k). lia.
Qed.

Lemma ent_inum_range k : (k < 2 + length fs)%nat -> 0 < ent_inum k < NINODES.
Proof using Hfl Hfin. intros Hk. pose proof root_count. unfold ent_inum, ROOTINO, NINODES. case_decide; lia. Qed.

(** The inode that an entry names. *)
Lemma ent_file k : (k < 2 + length fs)%nat -> exists f, (set_size (root_size fs) rt :: fl) !! Z.to_nat (ent_inum k - 1) = Some f.
Proof using Hfl.
  intros Hk. apply lookup_lt_is_Some_2. pose proof (Forall2_length _ _ _ Hfl). unfold ent_inum, ROOTINO. cbn [length]. case_decide; lia.
Qed.

Lemma root_mod : Z.of_nat (32 + 16 * length fs) mod 512 = 16 * ((Z.of_nat (length fs) + 2) mod 32).
Proof.
  replace (Z.of_nat (32 + 16 * length fs)) with (16 * (Z.of_nat (length fs) + 2)) by lia.
  change 512 with (16 * 32). by rewrite Z.mul_mod_distr_l by lia.
Qed.

Lemma root_blocks : length (mf_blks rt) = dblocks (32 + 16 * length fs).
Proof using Htight Hda. rewrite <- root_length. exact Htight. Qed.

Lemma root_dense : (Z.of_nat (length fs) + 2) mod 32 <> 0 -> file_dense v root.
Proof using Hfin Htight Hda.
  intros Hm. eapply file_has_blocks; [exact Hfin|by apply (list_lookup_middle [])|]. cbn [set_size mf_size mf_blks].
  rewrite root_blocks. pose proof root_mod as Em. pose proof (dblocks_spec (32 + 16 * length fs)) as Hb.
  unfold root_size, BSIZEz, BSIZE. set (x := Z.of_nat (32 + 16 * length fs)) in *. set (d := dblocks _) in *.
  pose proof (Z.div_mod x 512 ltac:(lia)). pose proof (Z.mod_pos_bound x 512 ltac:(lia)). lia.
Qed.

(** With a multiple of 32 entries the last block is missing. *)
Lemma root_hole : (Z.of_nat (length fs) + 2) mod 32 = 0 -> blkmap v root (Z.of_nat (32 + 16 * length fs) / 512) = 0 /\ ~ file_dense v root.
Proof using Hfin Htight Hda Hfl.
  intros Hm. pose proof root_mod as Em. pose proof (dblocks_spec (32 + 16 * length fs)) as Hb. pose proof root_size_spec as (Hs & _ & Hs').
  set (x := Z.of_nat (32 + 16 * length fs)) in *. pose proof (Z.div_mod x 512 ltac:(lia)).
  assert (blkmap v root (x / 512) = 0) as Hz.
  { erewrite file_blkmap; [|exact Hfin|by apply (list_lookup_middle [])|apply (block_index x); lia]. cbn [set_size mf_blks].
    rewrite nth_overflow; [done|]. rewrite root_blocks. lia. }
  split; [done|]. intros [_ Hd]. apply (Hd x); [|exact Hz]. cbn [finode set_size mf_size i_size]. lia.
Qed.

Lemma file_at_index j f : fl !! j = Some f -> exists x, fs !! j = Some x /\ mf_type f = T_FILE /\ mf_data f = x.2 /\
  mf_size f = Z.of_nat (length x.2) /\ tight f.
Proof using Hfl Hsz.
  intros Hj. destruct (Forall2_lookup_l _ _ _ _ _ Hfl Hj) as (x & Hx & Ht & Hd). exists x.
  destruct (proj1 (Forall_lookup _ _) Hsz j f Hj) as [Htt Hss]. rewrite <- Hd. done.
Qed.

(** A directory of the image is the root. *)
Lemma dir_root n : 0 <= n < NINODES -> i_type (dino E v n) = T_DIR -> n = ROOTINO.
Proof using HE Hfin Hfl Hsz.
  intros Hn Ht. destruct (dino_inv E v _ _ HE Hfin n Hn ltac:(by rewrite Ht)) as (f & Hpos & Hk & Hd).
  destruct (Z.to_nat (n - 1)) as [|j] eqn:Ej; [unfold ROOTINO; lia|]. cbn [lookup list_lookup] in Hk.
  destruct (file_at_index j f Hk) as (x & _ & Htf & _). rewrite Hd in Ht. cbn [finode i_type] in Ht. by rewrite Htf in Ht.
Qed.

Lemma image_tree : (Z.of_nat (length fs) + 2) mod 32 <> 0 -> tree_ok E v.
Proof using HE Hfin Hfl Hsz Hda Hty Htight.
  intros Hm. pose proof root_size_spec as (_ & Hs & _).
  split; unfold inum_ok; rewrite ?(e_sb_image E HE); change (sb_ninodes mksb) with NINODES; intros n.
  - intros Hn Ht. destruct (dino_inv E v _ _ HE Hfin n Hn Ht) as (f & Hpos & Hk & ->). by eapply file_is_ok.
  - intros Hn Ht. by destruct (dino_inv E v _ _ HE Hfin n Hn Ht) as (f & Hpos & Hk & ->).
  - intros Hn Ht. rewrite (dir_root n Hn Ht), root_dino. split; [exact Hty|rewrite root_ndent; exact Hs|by apply root_dense].
  - intros k Hn Ht. rewrite (dir_root n Hn Ht), root_dino. intros Hk. cbv zeta. intros Hm'. destruct (root_ent k Hk Hm') as (j & -> & Hj).
    rewrite root_dent in * by done. pose proof (ent_inum_range j Hj) as Hr. unfold NINODES in Hr.
    rewrite de_inum_entry in * by lia. split; [unfold NINODES; lia|]. destruct (ent_file j Hj) as [f Hf].
    erewrite dino_file; [|done|exact Hfin|unfold NINODES; lia|exact Hf]. cbn [finode i_type].
    destruct (image_at v _ _ Hfin _ _ Hf) as (l1 & l2 & Hi). by destruct (fa_type _ _ (image_file _ _ _ _ _ Hi)) as [-> | ->].
Qed.

(** ** The files by their names *)

(** A name stands for the first entry with it. *)
Lemma root_find nm k : (k < 2 + length fs)%nat -> cname DIRSIZ nm = cname DIRSIZ (ent_name names k) ->
  (forall j, (j < k)%nat -> cname DIRSIZ nm <> cname DIRSIZ (ent_name names j)) -> dir_find v root nm = Some (Z.of_nat k).
Proof using Hfin Hda Hfl.
  intros Hk Hnm Hfirst. destruct root_size_spec as (Hs & Hs2 & _). unfold dir_find. apply find_from_first.
  - rewrite root_ndent. lia.
  - apply bool_decide_eq_true_2. unfold dmatch. rewrite root_dent by done. pose proof (ent_inum_range k Hk) as Hr. unfold NINODES in Hr.
    rewrite de_inum_entry, de_name_entry by lia. split; [lia|done].
  - intros j Hj. apply bool_decide_eq_false_2. unfold dmatch. replace j with (Z.of_nat (Z.to_nat j)) by lia.
    rewrite root_dent, de_name_entry by lia. intros [_ Hc]. by apply (Hfirst (Z.to_nat j)); [lia|].
Qed.

Definition fresh_name (k : nat) (nm : list Z) : Prop :=
  cname DIRSIZ nm <> [46] /\ cname DIRSIZ nm <> [46; 46] /\
  forall j nm' c, (j < k)%nat -> fs !! j = Some (nm', c) -> cname DIRSIZ nm <> cname DIRSIZ nm'.

(** File [k] of the command line is inode [k + 2] of the image. *)
Lemma image_file_found k nm c : fs !! k = Some (nm, c) -> fresh_name k nm ->
  walk E v false ROOTINO [nm] = Some (Z.of_nat k + 2).
Proof using HE Hfin Hfl Hda Hty.
  intros Hk (Hd1 & Hd2 & Hf). apply lookup_lt_Some in Hk as Hlt. cbn [walk]. rewrite root_dino.
  rewrite decide_True by exact Hty. cbn [andb]. rewrite (root_find nm (S (S k))); [|lia|..].
  - rewrite root_dent by lia. pose proof (ent_inum_range (S (S k)) ltac:(lia)) as Hr. unfold NINODES in Hr.
    rewrite de_inum_entry by lia. unfold ent_inum. rewrite decide_False by lia. f_equal. lia.
  - unfold ent_name. cbn [nth]. by rewrite (nth_lookup_Some names k [] nm) by (by rewrite list_lookup_fmap, Hk).
  - intros [|[|j]] Hj; [exact Hd1|exact Hd2|]. unfold ent_name. cbn [nth].
    destruct (lookup_lt_is_Some_2 fs j) as [[nm' c'] Hj']; [lia|].
    rewrite (nth_lookup_Some names j [] nm') by (by rewrite list_lookup_fmap, Hj'). apply (Hf j nm' c'); [lia|done].
Qed.

Lemma image_file_content k nm c : fs !! k = Some (nm, c) -> let i := dino E v (Z.of_nat k + 2) in
  i_type i = T_FILE /\ i_nlink i = 1 /\ i_size i = Z.of_nat (length c) /\ fbytes v i 0 (i_size i) = c.
Proof using HE Hfin Hfl Hsz.
  intros Hk i. destruct (Forall2_lookup_r _ _ _ _ _ Hfl Hk) as (f & Hf & _). destruct (file_at_index k f Hf) as (x & Hx & Ht & Hd & Hs & _).
  rewrite Hk in Hx. injection Hx as <-. apply lookup_lt_Some in Hk as Hlt. pose proof root_count.
  assert ((set_size (root_size fs) rt :: fl) !! S k = Some f) as Hsk by exact Hf.
  assert (i = finode (Z.of_nat k + 2) f) as ->.
  { unfold i. eapply dino_file; [done|exact Hfin|unfold NINODES; lia|]. by replace (Z.to_nat (Z.of_nat k + 2 - 1)) with (S k) by lia. }
  cbn [finode i_type i_nlink i_size snd] in *. split_and!; [done|done|done|]. rewrite Hs.
  destruct (image_at v _ _ Hfin _ _ Hsk) as (l1 & l2 & Hi). pose proof (image_file _ _ _ _ _ Hi) as Hfa.
  pose proof (fa_fit _ _ Hfa) as Hfit. pose proof (fa_len _ _ Hfa). rewrite Hd in Hfit. unfold BSIZE in Hfit.
  change 0 with (Z.of_nat 0). erewrite file_slice; [|exact Hfin|exact Hsk|rewrite Hd; lia|].
  - rewrite Hd. unfold slice. by rewrite drop_0, take_ge.
  - unfold MAXBYTES, MAXFILE, BSIZEz. lia.
Qed.
End root.

(** ** The whole program *)

Lemma finished_ext v v' fb st : finished v fb st -> (forall b, v' b = v b) -> finished v' fb st.
Proof.
  intros [Hd ? ? Hin Hsb Hlog Hbits] Hv. split; try done.
  - eapply data_frame; [done| |done]. intros b. rewrite Hv. apply Hd.
  - eapply inodes_frame; [done|done].
  - by rewrite Hv.
  - intros b Hb. rewrite Hv. by apply Hlog.
  - by rewrite Hv.
Qed.

Section program.
Context (room : nat) (fsopen : list Z -> bool) (files : list Z -> option (list (list Z))).

(** The command line can be served: the image and the files can be opened,
    there are inodes and blocks for all of them. *)
Record servable (image : list Z) (args : list (list Z)) : Prop := {
  sv_room : (Z.to_nat FSSIZE <= room)%nat;
  sv_open : fsopen image = true;
  sv_args : Forall (good_arg files) args;
  sv_inodes : (length args <= 198)%nat;
  sv_blocks : nmeta + total (src files <$> args) <= FSSIZE
}.

Lemma wp_mkfs_main argv0 image args (Q : unit -> mkfs -> Prop) : servable image args ->
  let fs := src files <$> args in
  (forall s' rt fl, length (im s') = Z.to_nat FSSIZE ->
    finished (vol s') (nmeta + total fs) (set_size (root_size fs) rt :: fl) -> mf_type rt = T_DIR -> mf_data rt = root_data fs.*1 ->
    tight rt -> Forall2 (fun f x => mf_type f = T_FILE /\ mf_data f = x.2) fl fs -> Forall sized fl -> Q tt s') ->
  wp (mkfs_main Little room fsopen files (argv0 :: image :: args)) Q mkfs_start.
Proof.
  intros [Hroom Hopen Hargs Hn Hb] fs HQ. unfold mkfs_main. rewrite Hopen.
  rewrite !bool_decide_eq_true_2 by done. cbn [negb]. wp_step. apply (wp_mkfs_init room Hroom); [done|done|].
  intros s1 v1 fb1 st1 Hr1 Hi1 Hb1. wp_step. eapply (wp_add_files room Hroom files); [exact Hr1|done|done|done|done|done|].
  cbn [app]. fold fs. intros s2 v2 fb2 st2 Hr2 Hi2 [(rt & fl & -> & Hty & Hda & Hfl) ->].
  pose proof (io_sized _ _ _ Hi2) as [[Ht _] Hs]%Forall_cons.
  eapply (wp_mkfs_finish room Hroom); [exact Hr2|done|exact Hda|by rewrite (Forall2_length _ _ _ Hfl)|].
  intros s3 v3 Hr3 Hfin. eapply (HQ s3 rt fl); try done; [apply Hr3|]. eapply finished_ext; [exact Hfin|apply Hr3].
Qed.

Lemma sb_of_block : sb_of sb_block = mksb.
Proof. vm_compute. reflexivity. Qed.

(** C11: the disk image.  On a host with the byte order of the x86, [mkfs]
    writes an image that the kernel can use: the superblock that [readsb]
    finds describes the layout, the log is empty, the free map marks exactly
    the blocks in use, the tree is well formed ([tree_ok], the condition of
    the theorems on paths), and each file of the command line is found under
    its name (without a leading underscore, and the first one if the name is
    given twice) with exactly the bytes that were read from the host.  The
    number of entries must not be a multiple of 32. *)
Theorem mkfs_correct E argv0 image args : servable image args -> (Z.of_nat (length args) + 2) mod 32 <> 0 -> on_image E ->
  let fs := src files <$> args in
  wp (mkfs_main Little room fsopen files (argv0 :: image :: args)) (fun _ s' =>
    length (im s') = Z.to_nat FSSIZE /\ sb_of (vol s' 1) = mksb /\ (forall b, 2 <= b < 2 + nlog -> vol s' b = zero_block) /\
    fs_layout E /\ vol_ok (vol s') /\ meta_used E (vol s') /\ tree_ok E (vol s') /\
    (forall b, 0 <= b < FSSIZE -> used mksb (vol s') b = bool_decide (b < nmeta + total fs)) /\
    (forall k nm c, fs !! k = Some (nm, c) ->
       (fresh_name fs k nm -> walk E (vol s') false ROOTINO [nm] = Some (Z.of_nat k + 2)) /\
       let i := dino E (vol s') (Z.of_nat k + 2) in
       i_type i = T_FILE /\ i_nlink i = 1 /\ i_size i = Z.of_nat (length c) /\ fbytes (vol s') i 0 (i_size i) = c)) mkfs_start.
Proof.
  intros Hsv Hm HE fs. eapply wp_mkfs_main; [done|]. intros s' rt fl Hl Hfin Hty Hda Ht Hfl Hs. fold fs in Hfin, Hda, Hfl.
  assert ((Z.of_nat (length fs) + 2) mod 32 <> 0) as Hm' by (unfold fs; by rewrite length_fmap).
  split_and!; [done| | |by apply image_layout|by eapply image_vol|by eapply image_meta|by eapply image_tree|intros b Hb; by eapply image_used|].
  - rewrite (fn_sb _ _ _ Hfin). apply sb_of_block.
  - apply (fn_log _ _ _ Hfin).
  - intros k nm c Hk. split; [intros Hf; by eapply image_file_found|by eapply image_file_content].
Qed.

(** C12: the size of the root directory.  [mkfs] rounds it up to the next
    multiple of the block size that is strictly larger.  With a multiple of 32
    entries the directory ends in a block that was never allocated: the tree
    is not well formed. *)
Theorem mkfs_root_hole E argv0 image args : servable image args -> (Z.of_nat (length args) + 2) mod 32 = 0 -> on_image E ->
  wp (mkfs_main Little room fsopen files (argv0 :: image :: args)) (fun _ s' =>
    let root := dino E (vol s') ROOTINO in
    i_type root = T_DIR /\ 512 <= i_size root /\ blkmap (vol s') root (i_size root / BSIZEz - 1) = 0 /\
    ~ tree_ok E (vol s')) mkfs_start.
Proof.
  intros Hsv Hm HE. eapply wp_mkfs_main; [done|]. intros s' rt fl Hl Hfin Hty Hda Ht Hfl Hs. set (fs := src files <$> args) in *.
  assert ((Z.of_nat (length fs) + 2) mod 32 = 0) as Hm' by (unfold fs; by rewrite length_fmap).
  assert (dino E (vol s') ROOTINO = finode ROOTINO (set_size (root_size fs) rt)) as Er by (by eapply root_dino).
  rewrite Er. cbv zeta. cbn [finode i_type i_size set_size mf_size mf_type].
  edestruct root_hole as [Hz Hnd]; [exact Hfin|exact Hda|exact Ht|exact Hfl|exact Hm'|].
  pose proof (Z.div_pos (Z.of_nat (32 + 16 * length fs)) 512 ltac:(lia) ltac:(lia)).
  split_and!; [done|unfold root_size, BSIZEz; lia| |].
  - unfold root_size, BSIZEz at 1. rewrite Z.div_mul by done. by rewrite Z.add_simpl_r.
  - intros HT. apply Hnd. rewrite <- Er. apply (to_dir _ _ HT); [|by rewrite Er].
    unfold inum_ok. rewrite (e_sb_image E HE). done.
Qed.
End program.

(** On a host with the other byte order the fields of the superblock are
    converted, and then used as they are: the inodes and the bitmap are written
    over block 0, and the image has the right superblock and no root. *)
Theorem mkfs_big_endian :
  match mkfs_main Big (Z.to_nat FSSIZE) (fun _ => true) (fun _ => None) [[]; []] mkfs_start with
  | Ok _ s' => sb_of (vol s' 1) = mksb /\ dip_type (vol s' (IBLOCK ROOTINO mksb)) (dinode_off ROOTINO) = 0 /\ vol s' 0 <> zero_block
  | _ => False
  end.
Proof. vm_compute. split_and!; [reflexivity|reflexivity|discriminate]. Qed.

(** ** Images of concrete command lines *)

Definition mx_env : fenv := Fenv (Geometry 2 30 1000) 29 (fun _ => zero_block) mksb xmach.
Lemma mx_on_image : on_image mx_env.
Proof. done. Qed.

(** A file of 600 bytes that arrives in two reads. *)
Definition mx_files (arg : list Z) : option (list (list Z)) := Some [replicate 512 7; replicate 88 9].

Lemma mx_good arg : bytes_okb arg = true -> bool_decide (47 ∈ arg) = false -> good_arg mx_files arg.
Proof.
  intros Hb Hs%bool_decide_eq_false. split; [done|by apply bytes_okb_ok|by eexists|apply bytes_okb_ok; vm_compute; reflexivity|].
  vm_compute. discriminate.
Qed.

Lemma mkfs_correct_witness : wp (mkfs_main Little (Z.to_nat FSSIZE) (fun _ => true) mx_files [[]; [105]; [95; 97]]) (fun _ s' =>
  tree_ok mx_env (vol s') /\ walk mx_env (vol s') false ROOTINO [[97]] = Some 2 /\
  fbytes (vol s') (dino mx_env (vol s') 2) 0 600 = replicate 512 7 ++ replicate 88 9) mkfs_start.
Proof.
  eapply wp_mono; [apply (mkfs_correct (Z.to_nat FSSIZE) (fun _ => true) mx_files mx_env [] [105] [[95; 97]])|].
  - split; [lia|reflexivity| |cbn; lia|vm_compute; discriminate]. apply Forall_singleton, mx_good; vm_compute; reflexivity.
  - vm_compute. discriminate.
  - apply mx_on_image.
  - intros [] s' (_ & _ & _ & _ & _ & _ & Ht & _ & Hf). split; [exact Ht|].
    destruct (Hf 0%nat [97] (replicate 512 7 ++ replicate 88 9) eq_refl) as [Hw (_ & _ & Hs & Hb)]. split.
    + apply Hw. split_and!; [vm_compute; discriminate|vm_compute; discriminate|]. intros j nm' c Hj. lia.
    + rewrite Hs in Hb. exact Hb.
Defined.

Lemma mkfs_root_hole_witness : wp (mkfs_main Little (Z.to_nat FSSIZE) (fun _ => true) mx_files ([] :: [105] :: replicate 30 [97])) (fun _ s' =>
  ~ tree_ok mx_env (vol s')) mkfs_start.
Proof.
  eapply wp_mono; [apply (mkfs_root_hole (Z.to_nat FSSIZE) (fun _ => true) mx_files mx_env [] [105] (replicate 30 [97]))|].
  - split; [lia|reflexivity| |cbn; lia|vm_compute; discriminate]. apply Forall_replicate, mx_good; vm_compute; reflexivity.
  - reflexivity.
  - apply mx_on_image.
  - intros [] s' (_ & _ & _ & Ht). exact Ht.
Defined.
