(* ===== verification/Bootmain.v ===== *)
(** * The boot loader

    [bootmain.c]: the loader of the kernel.  It reads the first page of the
    kernel from the disk, and then each segment that the ELF header in that
    page lists.  The controller is the parameter [Ata] of [Ide], with the
    sequence of port operations of the loader as laws; memory is a byte at
    each physical address. *)

From S2P Require Import Prelude Bytes Params Machine BlockCache Bio Ide.
Local Open Scope Z_scope.

Definition SECTSIZE : Z := 512.
Definition ELFHDR_AT : Z := 0x10000.
Definition ELF_MAGIC_NUMBER : Z := 0x464C457F.

Record boot (D : Type) := Boot { bmem : Z -> Z; bdev : D }.
Arguments Boot {D}. Arguments bmem {D}. Arguments bdev {D}.

Definition mem_write (a : Z) (l : list Z) (m : Z -> Z) : Z -> Z :=
  fun x => match l !! Z.to_nat (x - a) with
           | Some b => if decide (a <= x) then b else m x
           | None => m x
           end.
Definition mem_zero (a n : Z) (m : Z -> Z) : Z -> Z := fun x => if decide (a <= x < a + n) then 0 else m x.
Definition mem16 (m : Z -> Z) (a : Z) : Z := le_val (m <$> seqZ a 2).
Definition mem32 (m : Z -> Z) (a : Z) : Z := le_val (m <$> seqZ a 4).

(** Fields of [struct elfhdr] and [struct proghdr]. *)
Definition elf_magic (m : Z -> Z) (elf : Z) : Z := mem32 m elf.
Definition elf_entry (m : Z -> Z) (elf : Z) : Z := mem32 m (elf + 24).
Definition elf_phoff (m : Z -> Z) (elf : Z) : Z := mem32 m (elf + 28).
Definition elf_phnum (m : Z -> Z) (elf : Z) : Z := mem16 m (elf + 44).
Definition SZ_PROGHDR : Z := 32.
Definition ph_off (m : Z -> Z) (ph : Z) : Z := mem32 m (ph + 4).
Definition ph_paddr (m : Z -> Z) (ph : Z) : Z := mem32 m (ph + 12).
Definition ph_filesz (m : Z -> Z) (ph : Z) : Z := mem32 m (ph + 16).
Definition ph_memsz (m : Z -> Z) (ph : Z) : Z := mem32 m (ph + 20).

Section bootmain.
Context {D : Type} `{Ata D}.
(** How often the status is read before the model gives up. *)
Variable patience : nat.

Definition port_in (port : Z) : M (boot D) Z :=
  fun s => let '(r, d) := inb port (bdev s) in Ok r (Boot (bmem s) d).
Definition port_out (port v : Z) : M (boot D) unit := modify (fun s => Boot (bmem s) (outb port (u8 v) (bdev s))).
(** [insl] stores the words at [dst]. *)
Definition port_insl (port dst : Z) (n : nat) : M (boot D) unit :=
  fun s => let '(l, d) := insl port n (bdev s) in Ok tt (Boot (mem_write dst l (bmem s)) d).

Fixpoint waitdisk_loop (fuel : nat) : M (boot D) unit :=
  match fuel with
  | O => fault "waitdisk"
  | S fuel' =>
      r ← port_in 0x1F7;
      if negb (Z.land r 0xC0 =z 0x40) then waitdisk_loop fuel' else mret tt
  end.
Definition waitdisk : M (boot D) unit := waitdisk_loop patience.

Definition readsect (dst offset : Z) : M (boot D) unit :=
  waitdisk ;;
  port_out 0x1F2 1 ;;
  port_out 0x1F3 offset ;;
  port_out 0x1F4 (Z.shiftr offset 8) ;;
  port_out 0x1F5 (Z.shiftr offset 16) ;;
  port_out 0x1F6 (Z.lor (Z.shiftr offset 24) 0xE0) ;;
  port_out 0x1F7 0x20 ;;
  waitdisk ;;
  port_insl 0x1F0 dst (Z.to_nat (SECTSIZE / 4)).

Fixpoint readseg_loop (fuel : nat) (pa epa offset : Z) : M (boot D) unit :=
  match fuel with
  | O => fault "readseg"
  | S fuel' =>
      if pa <z epa then
        readsect pa offset ;;
        readseg_loop fuel' (u32 (pa + SECTSIZE)) epa (u32 (offset + 1))
      else mret tt
  end.
(** There are at most two sectors more than [count] fills. *)
Definition readseg (pa count offset : Z) : M (boot D) unit :=
  let epa := u32 (pa + count) in
  let pa := u32 (pa - offset mod SECTSIZE) in
  let offset := u32 (offset / SECTSIZE + 1) in
  readseg_loop (Z.to_nat (count / SECTSIZE) + 3) pa epa offset.

(** The body of the loop over the program headers, which are read from the
    scratch page. *)
Definition load_segment (ph : Z) : M (boot D) unit :=
  m ← gets bmem;
  let pa := ph_paddr m ph in
  readseg pa (ph_filesz m ph) (ph_off m ph) ;;
  m ← gets bmem;
  when (ph_filesz m ph <z ph_memsz m ph)
    (modify (fun s => Boot (mem_zero (u32 (pa + ph_filesz m ph)) (ph_memsz m ph - ph_filesz m ph) (bmem s)) (bdev s))).

Fixpoint load_segments (fuel : nat) (ph eph : Z) : M (boot D) unit :=
  match fuel with
  | O => fault "bootmain"
  | S fuel' =>
      if ph <z eph then
        load_segment ph ;;
        load_segments fuel' (u32 (ph + SZ_PROGHDR)) eph
      else mret tt
  end.

(** The entry point that is called, or nothing if there is no kernel. *)
Definition bootmain : M (boot D) (option Z) :=
  readseg ELFHDR_AT 4096 0 ;;
  m ← gets bmem;
  if negb (elf_magic m ELFHDR_AT =z ELF_MAGIC_NUMBER) then mret None else
  let ph := u32 (ELFHDR_AT + elf_phoff m ELFHDR_AT) in
  let phnum := elf_phnum m ELFHDR_AT in
  load_segments (S (Z.to_nat phnum)) ph (u32 (ph + SZ_PROGHDR * phnum)) ;;
  m ← gets bmem;
  mret (Some (elf_entry m ELFHDR_AT)).
End bootmain.

(** ** The disk *)

(** The commands of the loader for one sector. *)
Definition boot_select {D} `{Ata D} (sector : Z) (d : D) : D :=
  outb 0x1F6 (u8 (Z.lor (Z.shiftr sector 24) 0xE0))
    (outb 0x1F5 (u8 (Z.shiftr sector 16))
      (outb 0x1F4 (u8 (Z.shiftr sector 8))
        (outb 0x1F3 (u8 sector) (outb 0x1F2 (u8 1) d)))).

(** [sector_of]: what is on the disk.  [loading]: the sector of the last
    command, until its data has been read.  [waits]: how often a status is
    still read before the disk shows that it is ready. *)
Class BootLaws (D : Type) `{Ata D} := {
  sector_of : D -> Z -> list Z;
  loading : D -> option Z;
  waits : D -> nat;
  boot_poll : forall d, exists r d', inb 0x1F7 d = (r, d') /\ sector_of d' = sector_of d /\ loading d' = loading d /\
    waits d' = pred (waits d) /\ (Z.land r 0xC0 = 0x40 <-> waits d = 0%nat);
  boot_cmd : forall d sector, loading d = None -> waits d = 0%nat -> 0 <= sector < 2 ^ 28 ->
    let d' := outb 0x1F7 (u8 0x20) (boot_select sector d) in
    sector_of d' = sector_of d /\ loading d' = Some sector;
  boot_data : forall d sector, loading d = Some sector -> waits d = 0%nat ->
    exists d', insl 0x1F0 (Z.to_nat (SECTSIZE / 4)) d = (sector_of d sector, d') /\ sector_of d' = sector_of d /\ loading d' = None;
  sector_ok : forall d sector, block_ok (sector_of d sector)
}.

(** Byte [o] of the kernel file, which begins at sector 1. *)
Definition file_byte {D} `{BootLaws D} (d : D) (o : Z) : Z := nth (Z.to_nat (o mod 512)) (sector_of d (o / 512 + 1)) 0.

Section reading.
Context {D : Type} `{BootLaws D} (patience : nat) (Hpat : forall d : D, (waits d < patience)%nat).
Implicit Types (s : boot D) (d : D).

Lemma wp_waitdisk_loop fuel : forall s (Q : unit -> boot D -> Prop), (waits (bdev s) < fuel)%nat ->
  (forall d', sector_of d' = sector_of (bdev s) -> loading d' = loading (bdev s) -> waits d' = 0%nat -> Q tt (Boot (bmem s) d')) ->
  wp (waitdisk_loop fuel) Q s.
Proof.
  clear Hpat. induction fuel as [|fuel IH]; intros s Q Hf HQ; [lia|]. cbn [waitdisk_loop]. wp_step.
  destruct (boot_poll (bdev s)) as (r & d' & Ed & Hs & Hl & Hw & Hr). unfold port_in, wp at 1. rewrite Ed.
  case_bool_decide as Hc; cbn [negb].
  - apply HQ; [done|done|]. apply Hr in Hc. rewrite Hw, Hc. done.
  - apply IH; cbn [bdev bmem].
    + rewrite Hw. assert (waits (bdev s) <> 0)%nat by (by rewrite <- Hr). lia.
    + intros d2 Hs2 Hl2 Hw2. apply HQ; [congruence..|done].
Qed.

(** Sector [k] goes to [dst]. *)
Lemma wp_readsect s dst k (Q : unit -> boot D -> Prop) : loading (bdev s) = None -> 0 <= k < 2 ^ 28 ->
  (forall d', sector_of d' = sector_of (bdev s) -> loading d' = None ->
    Q tt (Boot (mem_write dst (sector_of (bdev s) k) (bmem s)) d')) ->
  wp (readsect patience dst k) Q s.
Proof using Hpat.
  intros Hl Hk HQ. unfold readsect, waitdisk. wp_step. apply wp_waitdisk_loop; [apply Hpat|]. intros d1 Hs1 Hl1 Hw1.
  unfold port_out. wp_steps. cbn [bmem bdev].
  assert (loading d1 = None) as Hn1 by congruence.
  destruct (boot_cmd d1 k Hn1 Hw1 Hk) as [Hs2 Hl2]. unfold boot_select in Hs2, Hl2.
  apply wp_waitdisk_loop; [apply Hpat|]. cbn [bmem bdev]. intros d3 Hs3 Hl3 Hw3.
  assert (loading d3 = Some k) as Hn3 by congruence.
  destruct (boot_data d3 k Hn3 Hw3) as (d4 & E4 & Hs4 & Hl4). unfold port_insl, wp. cbn [bdev bmem]. rewrite E4.
  replace (sector_of d3 k) with (sector_of (bdev s) k) by congruence. apply HQ; [congruence|done].
Qed.

(** Memory where the bytes [lo .. hi - 1] are those of the file from [o] on. *)
Definition filled (B : Z -> Z) (lo hi o : Z) (m m' : Z -> Z) : Prop :=
  forall x, m' x = if decide (lo <= x < hi) then B (o + (x - lo)) else m x.

Lemma mem_write_sector d dst k m : 0 <= k -> filled (file_byte d) dst (dst + 512) (512 * k) m (mem_write dst (sector_of d (k + 1)) m).
Proof.
  clear Hpat. intros Hk x. unfold mem_write. pose proof (proj1 (sector_ok d (k + 1))) as Hl. unfold BSIZE in Hl.
  destruct (decide (dst <= x < dst + 512)) as [Hx|Hx].
  - destruct (lookup_lt_is_Some_2 (sector_of d (k + 1)) (Z.to_nat (x - dst))) as [b Hb]; [lia|]. rewrite Hb, decide_True by lia.
    unfold file_byte. replace (512 * k + (x - dst)) with (x - dst + k * 512) by lia.
    rewrite Z.mod_add, Z.div_add, (Z.mod_small (x - dst)), (Z.div_small (x - dst)) by lia.
    rewrite Z.add_0_l. symmetry. by apply nth_lookup_Some.
  - case_match eqn:E; [|done]. rewrite decide_False; [done|]. intros Hge. apply lookup_lt_Some in E. lia.
Qed.

Lemma wp_readseg_loop fuel : forall s pa epa k (Q : unit -> boot D -> Prop), loading (bdev s) = None -> 0 <= pa -> 0 <= k ->
  epa + 512 < 2 ^ 32 -> pa <= epa + 511 -> (epa - pa + 511) / 512 < Z.of_nat fuel -> k + 1 + (epa - pa + 511) / 512 < 2 ^ 28 ->
  (forall d' m', sector_of d' = sector_of (bdev s) -> loading d' = None ->
    filled (file_byte (bdev s)) pa (pa + 512 * ((epa - pa + 511) / 512)) (512 * k) (bmem s) m' -> Q tt (Boot m' d')) ->
  wp (readseg_loop patience fuel pa epa (k + 1)) Q s.
Proof using Hpat.
  induction fuel as [|fuel IH]; intros s pa epa k Q Hl Hpa Hk He Hle Hf Hsec HQ.
  { pose proof (Z.div_pos (epa - pa + 511) 512 ltac:(lia) ltac:(lia)). lia. }
  cbn [readseg_loop]. case_bool_decide as Hc.
  - assert ((epa - pa + 511) / 512 = (epa - (pa + 512) + 511) / 512 + 1) as Ediv.
    { replace (epa - pa + 511) with (epa - (pa + 512) + 511 + 1 * 512) by lia. by rewrite Z.div_add by lia. }
    pose proof (Z.div_pos (epa - (pa + 512) + 511) 512 ltac:(lia) ltac:(lia)).
    wp_step. apply wp_readsect; [done|lia|]. intros d1 Hs1 Hl1. unfold SECTSIZE. rewrite (u32_small (pa + 512)), (u32_small (k + 1 + 1)) by lia.
    apply IH; cbn [bmem bdev]; [done|lia|lia|done|lia|lia|lia|]. intros d2 m2 Hs2 Hl2 Hm2.
    apply HQ; [congruence|done|]. intros x.
    assert (forall o, file_byte d1 o = file_byte (bdev s) o) as Hfb by (intros o; unfold file_byte; by rewrite Hs1).
    rewrite Hm2, (mem_write_sector _ _ _ _ Hk), Hfb, Ediv. repeat case_decide; try lia; try done; f_equal; lia.
  - wp_step. replace s with (Boot (bmem s) (bdev s)) by (by destruct s). apply HQ; [done|done|]. intros x.
    assert ((epa - pa + 511) / 512 = 0) as -> by (apply Z.div_small; lia). by rewrite decide_False by lia.
Qed.

Lemma wp_readseg s pa count offset (Q : unit -> boot D -> Prop) : loading (bdev s) = None -> 0 <= offset < 2 ^ 32 -> 0 <= count ->
  offset mod 512 <= pa -> pa + count + 512 < 2 ^ 32 ->
  (forall d' m' hi, sector_of d' = sector_of (bdev s) -> loading d' = None -> pa + count <= hi < pa + count + 512 ->
    filled (file_byte (bdev s)) (pa - offset mod 512) hi (offset - offset mod 512) (bmem s) m' -> Q tt (Boot m' d')) ->
  wp (readseg patience pa count offset) Q s.
Proof using Hpat.
  intros Hl Ho Hc Hpa He HQ. unfold readseg, SECTSIZE. cbv zeta. set (r := offset mod 512) in *.
  pose proof (Z.mod_pos_bound offset 512 ltac:(lia)) as Hr. pose proof (Z.div_mod offset 512 ltac:(lia)) as Hdm. fold r in Hr, Hdm.
  pose proof (Z.div_pos offset 512 ltac:(lia) ltac:(lia)).
  pose proof (Z.div_mod count 512 ltac:(lia)). pose proof (Z.mod_pos_bound count 512 ltac:(lia)).
  pose proof (Z.div_mod (pa + count - (pa - r) + 511) 512 ltac:(lia)). pose proof (Z.mod_pos_bound (pa + count - (pa - r) + 511) 512 ltac:(lia)).
  rewrite !u32_small by lia. apply wp_readseg_loop; [done|lia|lia|lia|lia|lia|lia|].
  intros d' m' Hs' Hl' Hm'. apply (HQ d' m' (pa - r + 512 * ((pa + count - (pa - r) + 511) / 512))); [done|done|lia|].
  replace (offset - r) with (512 * (offset / 512)) by lia. exact Hm'.
Qed.
End reading.

(** ** The segments of the kernel *)

(** The segment of the program header at [ph] is in memory: the bytes of the
    file, and zeros behind them. *)
Definition loaded (B : Z -> Z) (ph : Z) (m : Z -> Z) : Prop :=
  (forall j, 0 <= j < ph_filesz B ph -> m (ph_paddr B ph + j) = B (ph_off B ph + j)) /\
  (forall j, ph_filesz B ph <= j < ph_memsz B ph -> m (ph_paddr B ph + j) = 0).

(** Where the loader starts to write for a segment, and its end. *)
Definition seg_start (B : Z -> Z) (ph : Z) : Z := ph_paddr B ph - ph_off B ph mod 512.
Definition seg_end (B : Z -> Z) (ph : Z) : Z := ph_paddr B ph + Z.max (ph_filesz B ph) (ph_memsz B ph).

Definition SCRATCH_END : Z := ELFHDR_AT + 4096.

(** The header is in the first page of the file; the segments are above the
    scratch page, in increasing order, and the sector in which one begins
    does not reach back into the one before. *)
Record kernel_ok (B : Z -> Z) (phoff : Z) (n : nat) : Prop := {
  ko_page : 0 <= phoff /\ phoff + SZ_PROGHDR * Z.of_nat n <= 4096;
  ko_above : forall k, (k < n)%nat -> SCRATCH_END <= seg_start B (phoff + SZ_PROGHDR * Z.of_nat k);
  ko_top : forall k, (k < n)%nat -> seg_end B (phoff + SZ_PROGHDR * Z.of_nat k) + 512 < 2 ^ 32;
  ko_order : forall j k, (j < k < n)%nat -> seg_end B (phoff + SZ_PROGHDR * Z.of_nat j) <= seg_start B (phoff + SZ_PROGHDR * Z.of_nat k)
}.

(** The scratch page holds the first page of the file. *)
Definition scratch (B m : Z -> Z) : Prop := forall o, 0 <= o < 4096 -> m (ELFHDR_AT + o) = B o.

Lemma mem_fields (B m : Z -> Z) o n : scratch B m -> 0 <= o -> o + n <= 4096 -> m <$> seqZ (ELFHDR_AT + o) n = B <$> seqZ o n.
Proof.
  intros Hm Ho Hn. apply list_eq. intros i. rewrite !list_lookup_fmap. destruct (decide (Z.of_nat i < n)).
  - rewrite !lookup_seqZ_lt by lia. cbn. f_equal. rewrite <- Hm by lia. f_equal. lia.
  - by rewrite !lookup_seqZ_ge by lia.
Qed.
Lemma mem32_scratch B m o : scratch B m -> 0 <= o -> o + 4 <= 4096 -> mem32 m (ELFHDR_AT + o) = mem32 B o.
Proof. intros. unfold mem32. by rewrite (mem_fields B). Qed.

Lemma ph_scratch B m ph : scratch B m -> 0 <= ph -> ph + 32 <= 4096 ->
  ph_off m (ELFHDR_AT + ph) = ph_off B ph /\ ph_paddr m (ELFHDR_AT + ph) = ph_paddr B ph /\
  ph_filesz m (ELFHDR_AT + ph) = ph_filesz B ph /\ ph_memsz m (ELFHDR_AT + ph) = ph_memsz B ph.
Proof.
  intros Hm H1 H2. unfold ph_off, ph_paddr, ph_filesz, ph_memsz. rewrite <- !Z.add_assoc.
  rewrite !(mem32_scratch B m) by (done || lia). done.
Qed.

Lemma mem32_range B a : (forall o, byte_ok (B o)) -> 0 <= mem32 B a < 2 ^ 32.
Proof.
  intros HB. unfold mem32. assert (bytes_ok (B <$> seqZ a 4)) as Hb by (apply Forall_fmap, Forall_forall; intros; apply HB).
  pose proof (le_val_range _ Hb) as Hr. rewrite length_fmap, length_seqZ in Hr. exact Hr.
Qed.

Section segments.
Context {D : Type} `{BootLaws D} (patience : nat) (Hpat : forall d : D, (waits d < patience)%nat).
Implicit Types (s : boot D) (d : D) (B m : Z -> Z).

Lemma file_byte_ok d o : byte_ok (file_byte d o).
Proof.
  clear Hpat. unfold file_byte. destruct (sector_ok d (o / 512 + 1)) as [_ Hb].
  destruct (nth_lookup_or_length (sector_of d (o / 512 + 1)) (Z.to_nat (o mod 512)) 0) as [E|E].
  - exact (proj1 (Forall_lookup _ _) Hb _ _ E).
  - rewrite nth_overflow by lia. unfold byte_ok. lia.
Qed.

Lemma file_byte_ext d d' : sector_of d' = sector_of d -> file_byte d' = file_byte d.
Proof. clear Hpat. intros Hs. unfold file_byte. by rewrite Hs. Qed.

Lemma wp_load_segment s ph (Q : unit -> boot D -> Prop) : let B := file_byte (bdev s) in
  loading (bdev s) = None -> scratch B (bmem s) -> 0 <= ph -> ph + 32 <= 4096 ->
  SCRATCH_END <= seg_start B ph -> seg_end B ph + 512 < 2 ^ 32 ->
  (forall d' m', sector_of d' = sector_of (bdev s) -> loading d' = None ->
    (forall x, x < seg_start B ph -> m' x = bmem s x) -> loaded B ph m' -> Q tt (Boot m' d')) ->
  wp (load_segment patience (ELFHDR_AT + ph)) Q s.
Proof using Hpat.
  intros B Hl Hsc Hp0 Hp1 Hst Hen HQ. unfold load_segment. wp_step. wp_step. destruct (ph_scratch B _ ph Hsc Hp0 Hp1) as (-> & -> & -> & _).
  unfold seg_start, seg_end, SCRATCH_END, ELFHDR_AT in *.
  assert (forall a, 0 <= mem32 B a < 2 ^ 32) as Hrg by (intros a; apply mem32_range; intros o; apply file_byte_ok).
  pose proof (Hrg (ph + 4)) as R1. pose proof (Hrg (ph + 12)) as R2. pose proof (Hrg (ph + 16)) as R3. pose proof (Hrg (ph + 20)) as R4.
  fold (ph_off B ph) in R1. fold (ph_paddr B ph) in R2. fold (ph_filesz B ph) in R3. fold (ph_memsz B ph) in R4.
  set (off := ph_off B ph) in *. set (pa := ph_paddr B ph) in *. set (fsz := ph_filesz B ph) in *. set (msz := ph_memsz B ph) in *.
  wp_step. apply (wp_readseg patience Hpat); [done|done|lia|lia|lia|]. intros d1 m1 hi Hs1 Hl1 Hhi Hm1. fold B in Hm1. wp_step. wp_step. cbn [bmem].
  pose proof (Z.mod_pos_bound off 512 ltac:(lia)) as Hmod.
  assert (scratch B m1) as Hsc1.
  { intros o Ho. rewrite Hm1, decide_False by (unfold ELFHDR_AT; lia). by apply Hsc. }
  destruct (ph_scratch B m1 ph Hsc1 Hp0 Hp1) as (_ & _ & E1 & E2). unfold ELFHDR_AT in E1, E2. rewrite E1, E2. fold fsz msz. apply wp_when; intros Hc.
  - apply bool_decide_eq_true in Hc. wp_step. rewrite u32_small by lia. cbn [bmem bdev]. apply HQ; [done|done|..].
    + intros x Hx. unfold mem_zero. rewrite decide_False, Hm1, decide_False by lia. done.
    + split; fold pa fsz msz off; intros j Hj; unfold mem_zero.
      * rewrite decide_False, Hm1, decide_True by lia. f_equal. lia.
      * by rewrite decide_True by lia.
  - apply bool_decide_eq_false in Hc. apply HQ; [done|done|..].
    + intros x Hx. by rewrite Hm1, decide_False by lia.
    + split; fold pa fsz msz off; intros j Hj; [|lia]. rewrite Hm1, decide_True by lia. f_equal. lia.
Qed.

Lemma loaded_keep B ph m m' x : loaded B ph m -> seg_end B ph <= x -> (forall y, y < x -> m' y = m y) -> loaded B ph m'.
Proof. clear Hpat. unfold seg_end. intros [H1 H2] Hx Hs. split; intros j Hj; rewrite Hs by lia; auto. Qed.

Lemma wp_load_segments phoff n fuel : forall k s (Q : unit -> boot D -> Prop), let B := file_byte (bdev s) in
  kernel_ok B phoff n -> loading (bdev s) = None -> scratch B (bmem s) -> (k <= n)%nat -> (n - k < fuel)%nat ->
  (forall j, (j < k)%nat -> loaded B (phoff + SZ_PROGHDR * Z.of_nat j) (bmem s)) ->
  (forall d' m', scratch B m' -> (forall j, (j < n)%nat -> loaded B (phoff + SZ_PROGHDR * Z.of_nat j) m') -> Q tt (Boot m' d')) ->
  wp (load_segments patience fuel (ELFHDR_AT + phoff + SZ_PROGHDR * Z.of_nat k) (ELFHDR_AT + phoff + SZ_PROGHDR * Z.of_nat n)) Q s.
Proof using Hpat.
  induction fuel as [|fuel IH]; intros k s Q B Hk Hl Hsc Hkn Hf Hld HQ; [lia|]. pose proof Hk as [[Hp0 Hp1] Habove Htop Hord]. cbn [load_segments].
  unfold SZ_PROGHDR in *. case_bool_decide as Hc.
  - assert (k < n)%nat as Hkn' by lia. wp_step. rewrite <- Z.add_assoc. apply wp_load_segment; [done|done|lia|lia|by apply Habove|by apply Htop|].
    intros d1 m1 Hs1 Hl1 Hsame Hnew. pose proof (file_byte_ext _ _ Hs1) as EB. fold B in EB, Hsame, Hnew.
    replace (u32 (ELFHDR_AT + (phoff + 32 * Z.of_nat k) + 32)) with (ELFHDR_AT + phoff + 32 * Z.of_nat (S k))
      by (rewrite u32_small; unfold ELFHDR_AT; lia).
    apply IH; cbn [bdev bmem]; rewrite ?EB; [done|done| |lia|lia| |].
    + intros o Ho. rewrite Hsame; [by apply Hsc|]. specialize (Habove k Hkn'). unfold SCRATCH_END in Habove. lia.
    + intros j Hj. destruct (decide (j = k)) as [->|]; [done|]. eapply loaded_keep; [apply Hld; lia|apply (Hord j k); lia|exact Hsame].
    + exact HQ.
  - wp_step. replace s with (Boot (bmem s) (bdev s)) by (by destruct s). assert (k = n) as -> by lia. by apply HQ.
Qed.
End segments.

(** C15: the boot loader.  If the first page of the kernel file has the magic
    number and its program headers describe segments in increasing order above
    the scratch page, [bootmain] ends at the entry point of the header, and
    memory then holds each segment: the bytes of the file, and zeros up to its
    size in memory.  Sectors are read whole, so the loader writes in front of
    and behind a segment; no segment is damaged as long as the sector in which
    one begins does not reach back into the one before. *)
Theorem bootmain_loads {D} `{BootLaws D} (patience : nat) (s : boot D) (n : nat) :
  (forall d : D, (waits d < patience)%nat) -> loading (bdev s) = None ->
  let B := file_byte (bdev s) in
  elf_magic B 0 = ELF_MAGIC_NUMBER -> elf_phnum B 0 = Z.of_nat n -> kernel_ok B (elf_phoff B 0) n ->
  wp (bootmain patience) (fun r s' => r = Some (elf_entry B 0) /\
    forall k, (k < n)%nat -> loaded B (elf_phoff B 0 + SZ_PROGHDR * Z.of_nat k) (bmem s')) s.
Proof.
  intros Hpat Hl B Hmag Hnum Hk. unfold bootmain. wp_step. apply (wp_readseg patience Hpat); [done|done|done|done|done|].
  intros d1 m1 hi Hs1 Hl1 Hhi Hm1. pose proof (file_byte_ext _ _ Hs1) as EB. fold B in EB, Hm1. change (0 mod 512) with 0 in Hm1.
  assert (scratch B m1) as Hsc.
  { intros o Ho. rewrite Hm1, decide_True by (unfold ELFHDR_AT in *; lia). f_equal. lia. }
  assert (forall o, 0 <= o -> o + 4 <= 4096 -> mem32 m1 (ELFHDR_AT + o) = mem32 B o) as Hf by (intros; by apply mem32_scratch).
  wp_step. wp_step. cbn [bmem]. unfold elf_magic, elf_phoff, elf_phnum in *.
  replace (mem32 m1 ELFHDR_AT) with (mem32 B 0) by (symmetry; apply (Hf 0); lia). rewrite !Hf, Hmag by lia.
  rewrite bool_decide_eq_true_2 by done. cbn [negb].
  assert (mem16 m1 (ELFHDR_AT + 44) = Z.of_nat n) as -> by (rewrite <- Hnum; unfold mem16; by rewrite (mem_fields B) by (done || lia)).
  change (0 + 28) with 28 in *. destruct (ko_page _ _ _ Hk) as [Hp0 Hp1]. unfold SZ_PROGHDR in Hp1.
  rewrite (u32_small (ELFHDR_AT + _)) by (unfold ELFHDR_AT; lia). rewrite u32_small by (unfold ELFHDR_AT, SZ_PROGHDR; lia).
  rewrite Nat2Z.id. replace (ELFHDR_AT + mem32 B 28) with (ELFHDR_AT + mem32 B 28 + SZ_PROGHDR * Z.of_nat 0) at 1 by lia.
  wp_step. apply (wp_load_segments patience Hpat (mem32 B 28) n); cbn [bdev bmem]; rewrite ?EB; [done|done|done|lia|lia|lia|].
  intros d2 m2 Hsc2 Hld. wp_steps. cbn [bmem]. split; [|exact Hld]. f_equal. unfold elf_entry. by rewrite (mem32_scratch B).
Qed.

(** ** A kernel on a disk *)

(** One segment of 600 bytes, 1000 in memory, at 1 MB; it begins in the second
    sector of the file. *)
Definition bx_header : list Z :=
  le_bytes 4 ELF_MAGIC_NUMBER ++ replicate 20 0 ++ le_bytes 4 0x10000C ++ le_bytes 4 52 ++ replicate 12 0 ++ le_bytes 2 1 ++
  replicate 6 0 ++ le_bytes 4 1 ++ le_bytes 4 512 ++ le_bytes 4 0 ++ le_bytes 4 0x100000 ++ le_bytes 4 600 ++ le_bytes 4 1000 ++ replicate 436 0.
Definition bx_sector (k : Z) : list Z :=
  if decide (k = 1) then bx_header else if decide (k = 2) then replicate 512 7 else if decide (k = 3) then replicate 512 9 else replicate 512 0.

(** Registers, the sector that is being read, and whether the next status
    still shows that the disk is busy. *)
Record bsim := Bsim { bs_regs : gmap Z Z; bs_load : option Z; bs_busy : bool }.
Definition bs_reg (d : bsim) (p : Z) : Z := default 0 (bs_regs d !! p).
Definition bs_sector (d : bsim) : Z :=
  bs_reg d 0x1F3 + 2 ^ 8 * bs_reg d 0x1F4 + 2 ^ 16 * bs_reg d 0x1F5 + 2 ^ 24 * Z.land (bs_reg d 0x1F6) 15.

#[local] Instance bsim_ata : Ata bsim := {|
  inb p d := (if bs_busy d then 0x80 else 0x40, Bsim (bs_regs d) (bs_load d) false);
  outb p v d := if decide (p = 0x1F7) then Bsim (bs_regs d) (Some (bs_sector d)) true else Bsim (<[p := v]> (bs_regs d)) (bs_load d) (bs_busy d);
  insl p n d := (match bs_load d with Some k => bx_sector k | None => [] end, Bsim (bs_regs d) None (bs_busy d));
  outsl p l d := d
|}.

Lemma bs_reg_outb p v p' (d : bsim) : p <> 0x1F7 -> bs_reg (outb p v d) p' = if decide (p = p') then v else bs_reg d p'.
Proof. intros Hp. unfold outb, bsim_ata. rewrite decide_False by done. unfold bs_reg. cbn [bs_regs]. rewrite lookup_insert. by case_decide. Qed.

Lemma boot_bits x : 0 <= x < 16 -> Z.land (u8 (Z.lor x 0xE0)) 15 = x.
Proof.
  intros Hx. assert (x ∈ seqZ 0 16) as Hin by (apply elem_of_seqZ; lia). clear Hx. revert x Hin. apply Forall_forall.
  vm_compute. repeat constructor.
Qed.

Lemma bs_select k (d : bsim) : 0 <= k < 2 ^ 28 -> bs_sector (boot_select k d) = k.
Proof.
  intros Hk. unfold boot_select, bs_sector. rewrite !bs_reg_outb by done.
  repeat (first [rewrite decide_True by done|rewrite decide_False by done]).
  rewrite boot_bits; rewrite !Z.shiftr_div_pow2 by lia.
  - unfold u8. change (2 ^ 28) with 268435456 in Hk. change (2 ^ 24) with 16777216. change (2 ^ 16) with 65536. change (2 ^ 8) with 256.
    Z.div_mod_to_equations. lia.
  - change (2 ^ 28) with 268435456 in Hk. change (2 ^ 24) with 16777216. Z.div_mod_to_equations. lia.
Qed.

#[local] Instance bsim_laws : BootLaws bsim.
Proof.
  refine {| sector_of _ := bx_sector; loading := bs_load; waits d := if bs_busy d then 1%nat else 0%nat |}.
  - intros d. eexists _, _. split; [reflexivity|]. cbn [bs_load bs_busy]. split_and!; [done|done|by destruct (bs_busy d)|by destruct (bs_busy d)].
  - intros d k _ _ Hk d'. split; [done|]. unfold d'. change (Some (bs_sector (boot_select k d)) = Some k). by rewrite bs_select.
  - intros d k Hl _. eexists. unfold insl, bsim_ata. rewrite Hl. done.
  - intros d k. unfold bx_sector. repeat case_decide; (split; [reflexivity|apply bytes_okb_ok; vm_compute; reflexivity]).
Defined.

Definition bx : boot bsim := Boot (fun _ => 0xCC) (Bsim ∅ None true).

Lemma bootmain_loads_witness : wp (bootmain 2) (fun r s' => r = Some 0x10000C /\
  (forall j, 0 <= j < 600 -> bmem s' (0x100000 + j) = file_byte (bdev bx) (512 + j)) /\
  (forall j, 600 <= j < 1000 -> bmem s' (0x100000 + j) = 0)) bx.
Proof.
  eapply wp_mono; [apply (bootmain_loads 2 bx 1)|].
  - intros d. cbn. destruct (bs_busy d); lia.
  - reflexivity.
  - vm_compute. reflexivity.
  - vm_compute. reflexivity.
  - split; [vm_compute; split; discriminate|..].
    + intros k Hk. assert (k = 0)%nat as -> by lia. vm_compute. discriminate.
    + intros k Hk. assert (k = 0)%nat as -> by lia. vm_compute. reflexivity.
    + intros j k Hjk. lia.
  - intros r s' [Hr Hl]. split; [exact Hr|]. exact (Hl 0%nat ltac:(lia)).
Defined.
