(* ===== verification/Lapic.v ===== *)
(** * Interrupt controllers and the clock

    [lapic.c], [ioapic.c] and [picirq.c]: the registers of the local and of
    the I/O interrupt controller, which are in memory, the ports of the old
    controller, and the clock chip behind two ports.  The devices are a
    parameter, with what their documentation says of the sequences of
    operations that the code uses as laws. *)

From S2P Require Import Prelude Bytes Params.
Local Open Scope Z_scope.

(** ** Devices *)

Class Board (D : Type) := {
  mm_read : Z -> D -> Z * D;
  mm_write : Z -> Z -> D -> D;
  io_in : Z -> D -> Z * D;
  io_out : Z -> Z -> D -> D
}.

(** The pointer to the local controller (set in [mp.c]), the number of the I/O
    controller in the tables, the warm reset vector, messages, the devices. *)
Record board (D : Type) := Brd {
  lapic_ptr : Z;
  ioapic_num : Z;
  wrv : list Z;
  bd_msgs : list string;
  bd_dev : D
}.
Arguments Brd {D}. Arguments lapic_ptr {D}. Arguments ioapic_num {D}. Arguments wrv {D}. Arguments bd_msgs {D}. Arguments bd_dev {D}.
Definition set_bd {D} (d : D) (s : board D) : board D := Brd (lapic_ptr s) (ioapic_num s) (wrv s) (bd_msgs s) d.
Definition set_wrv {D} (l : list Z) (s : board D) : board D := Brd (lapic_ptr s) (ioapic_num s) l (bd_msgs s) (bd_dev s).
Definition add_msg {D} (m : string) (s : board D) : board D := Brd (lapic_ptr s) (ioapic_num s) (wrv s) (bd_msgs s ++ [m]) (bd_dev s).

(** ** [traps.h], [lapic.c]: vectors and registers *)

Definition VEC_IRQ0 : Z := 32.
Definition VEC_TIMER : Z := 0.
Definition VEC_ERROR : Z := 19.
Definition VEC_SPURIOUS : Z := 31.

Definition LAPIC_ID : Z := 0x0020 / 4.
Definition VER : Z := 0x0030 / 4.
Definition TPR : Z := 0x0080 / 4.
Definition EOI : Z := 0x00B0 / 4.
Definition SVR : Z := 0x00F0 / 4.
Definition ENABLE : Z := 0x00000100.
Definition ESR : Z := 0x0280 / 4.
Definition ICRLO : Z := 0x0300 / 4.
Definition INIT : Z := 0x00000500.
Definition STARTUP : Z := 0x00000600.
Definition DELIVS : Z := 0x00001000.
Definition ASSERT : Z := 0x00004000.
Definition LEVEL : Z := 0x00008000.
Definition BCAST : Z := 0x00080000.
Definition ICRHI : Z := 0x0310 / 4.
Definition TIMER : Z := 0x0320 / 4.
Definition X1 : Z := 0x0000000B.
Definition PERIODIC : Z := 0x00020000.
Definition PCINT : Z := 0x0340 / 4.
Definition LINT0 : Z := 0x0350 / 4.
Definition LINT1 : Z := 0x0360 / 4.
Definition ERROR : Z := 0x0370 / 4.
Definition MASKED : Z := 0x00010000.
Definition TICR : Z := 0x0380 / 4.
Definition TDCR : Z := 0x03E0 / 4.

Definition CMOS_PORT : Z := 0x70.
Definition CMOS_RETURN : Z := 0x71.
Definition CMOS_STATA : Z := 0x0a.
Definition CMOS_STATB : Z := 0x0b.
Definition CMOS_UIP : Z := Z.shiftl 1 7.
Definition SECS : Z := 0x00.
Definition MINS : Z := 0x02.
Definition HOURS : Z := 0x04.
Definition DAY : Z := 0x07.
Definition MONTH : Z := 0x08.
Definition YEAR : Z := 0x09.

(** [date.h] *)
Record rtcdate := Rtcdate { second : Z; minute : Z; hour : Z; day : Z; month : Z; year : Z }.
#[export] Instance rtcdate_eq_dec : EqDecision rtcdate.
Proof. solve_decision. Defined.

Section lapic.
Context {D : Type} `{Board D}.
(** How often the delivery status is read before the model gives up. *)
Variable patience : nat.

Definition mm_get (a : Z) : M (board D) Z := fun s => let '(v, d) := mm_read a (bd_dev s) in Ok v (set_bd d s).
Definition mm_put (a v : Z) : M (board D) unit := modify (fun s => set_bd (mm_write a (u32 v) (bd_dev s)) s).
Definition inb8 (p : Z) : M (board D) Z := fun s => let '(v, d) := io_in p (bd_dev s) in Ok v (set_bd d s).
Definition outb8 (p v : Z) : M (board D) unit := modify (fun s => set_bd (io_out p (u8 v) (bd_dev s)) s).

Definition lapic_get (index : Z) : M (board D) Z := b ← gets lapic_ptr; mm_get (b + 4 * index).
Definition lapicw (index value : Z) : M (board D) unit :=
  b ← gets lapic_ptr;
  mm_put (b + 4 * index) value ;;
  lapic_get LAPIC_ID ;;
  mret tt.

Fixpoint delivs_loop (fuel : nat) : M (board D) unit :=
  match fuel with
  | O => fault "lapicinit"
  | S fuel' => v ← lapic_get ICRLO; if c_bool (Z.land v DELIVS) then delivs_loop fuel' else mret tt
  end.

Definition lapicinit : M (board D) unit :=
  b ← gets lapic_ptr;
  if b =z 0 then mret tt else
  lapicw SVR (Z.lor ENABLE (VEC_IRQ0 + VEC_SPURIOUS)) ;;
  lapicw TDCR X1 ;;
  lapicw TIMER (Z.lor PERIODIC (VEC_IRQ0 + VEC_TIMER)) ;;
  lapicw TICR 10000000 ;;
  lapicw LINT0 MASKED ;;
  lapicw LINT1 MASKED ;;
  v ← lapic_get VER;
  when (4 <=z Z.land (Z.shiftr v 16) 0xFF) (lapicw PCINT MASKED) ;;
  lapicw ERROR (VEC_IRQ0 + VEC_ERROR) ;;
  lapicw ESR 0 ;;
  lapicw ESR 0 ;;
  lapicw EOI 0 ;;
  lapicw ICRHI 0 ;;
  lapicw ICRLO (Z.lor (Z.lor BCAST INIT) LEVEL) ;;
  delivs_loop patience ;;
  lapicw TPR 0.

Definition lapicid : M (board D) Z :=
  b ← gets lapic_ptr;
  if b =z 0 then mret 0 else
  v ← lapic_get LAPIC_ID;
  mret (Z.shiftr v 24).

Definition lapiceoi : M (board D) unit :=
  b ← gets lapic_ptr;
  when (negb (b =z 0)) (lapicw EOI 0).

Definition microdelay (us : Z) : M (board D) unit := mret tt.

Definition lapicstartap (apicid addr : Z) : M (board D) unit :=
  outb8 CMOS_PORT 0xF ;;
  outb8 (CMOS_PORT + 1) 0x0A ;;
  modify (set_wrv [0; u16 (Z.shiftr addr 4)]) ;;
  lapicw ICRHI (Z.shiftl apicid 24) ;;
  lapicw ICRLO (Z.lor (Z.lor INIT LEVEL) ASSERT) ;;
  microdelay 200 ;;
  lapicw ICRLO (Z.lor INIT LEVEL) ;;
  microdelay 100 ;;
  for_loop 2 0 (fun _ =>
    lapicw ICRHI (Z.shiftl apicid 24) ;;
    lapicw ICRLO (Z.lor STARTUP (Z.shiftr addr 12)) ;;
    microdelay 200).

Definition cmos_read (reg : Z) : M (board D) Z :=
  outb8 CMOS_PORT reg ;;
  microdelay 200 ;;
  inb8 CMOS_RETURN.

Definition fill_rtcdate : M (board D) rtcdate :=
  s ← cmos_read SECS;
  m ← cmos_read MINS;
  h ← cmos_read HOURS;
  d ← cmos_read DAY;
  mo ← cmos_read MONTH;
  y ← cmos_read YEAR;
  mret (Rtcdate s m h d mo y).

Fixpoint cmos_loop (fuel : nat) : M (board D) rtcdate :=
  match fuel with
  | O => fault "cmostime"
  | S fuel' =>
      t1 ← fill_rtcdate;
      a ← cmos_read CMOS_STATA;
      if c_bool (Z.land a CMOS_UIP) then cmos_loop fuel' else
      t2 ← fill_rtcdate;
      if bool_decide (t1 = t2) then mret t1 else cmos_loop fuel'
  end.

Definition CONV (x : Z) : Z := u32 (Z.shiftr x 4 * 10 + Z.land x 0xf).

Definition cmostime (fuel : nat) : M (board D) rtcdate :=
  sb ← cmos_read CMOS_STATB;
  let bcd := Z.land sb (Z.shiftl 1 2) =z 0 in
  t1 ← cmos_loop fuel;
  let t1 := if bcd then Rtcdate (CONV (second t1)) (CONV (minute t1)) (CONV (hour t1)) (CONV (day t1)) (CONV (month t1)) (CONV (year t1))
            else t1 in
  mret (Rtcdate (second t1) (minute t1) (hour t1) (day t1) (month t1) (u32 (year t1 + 2000))).

(** ** [ioapic.c] *)

Definition IOAPIC : Z := 0xFEC00000.
Definition REG_ID : Z := 0x00.
Definition REG_VER : Z := 0x01.
Definition REG_TABLE : Z := 0x10.
Definition INT_DISABLED : Z := 0x00010000.

(** The two registers of [struct ioapic]. *)
Definition ioapicread (reg : Z) : M (board D) Z :=
  mm_put IOAPIC reg ;;
  mm_get (IOAPIC + 16).
Definition ioapicwrite (reg data : Z) : M (board D) unit :=
  mm_put IOAPIC reg ;;
  mm_put (IOAPIC + 16) data.

Definition ioapicinit : M (board D) unit :=
  ver ← ioapicread REG_VER;
  let maxintr := Z.land (Z.shiftr ver 16) 0xFF in
  id ← ioapicread REG_ID;
  n ← gets ioapic_num;
  when (negb (Z.shiftr id 24 =z n)) (modify (add_msg "ioapicinit: id isn't equal to ioapicid; not a MP")) ;;
  for_loop (Z.to_nat (maxintr + 1)) 0 (fun i =>
    ioapicwrite (REG_TABLE + 2 * i) (Z.lor INT_DISABLED (VEC_IRQ0 + i)) ;;
    ioapicwrite (REG_TABLE + 2 * i + 1) 0).

Definition ioapicenable (irq cpunum : Z) : M (board D) unit :=
  ioapicwrite (REG_TABLE + 2 * irq) (VEC_IRQ0 + irq) ;;
  ioapicwrite (REG_TABLE + 2 * irq + 1) (Z.shiftl cpunum 24).

(** ** [picirq.c] *)

Definition IO_PIC1 : Z := 0x20.
Definition IO_PIC2 : Z := 0xA0.
Definition picinit : M (board D) unit :=
  outb8 (IO_PIC1 + 1) 0xFF ;;
  outb8 (IO_PIC2 + 1) 0xFF.
End lapic.

(** ** Routing of interrupts *)

(** The I/O controller: a selected register and the values of the registers. *)
Class IoapicLaws (D : Type) `{Board D} := {
  io_sel : D -> Z;
  io_reg : D -> Z -> Z;
  io_select : forall d r, 0 <= r < 256 -> io_sel (mm_write IOAPIC r d) = r /\ io_reg (mm_write IOAPIC r d) = io_reg d;
  io_store : forall d v, REG_TABLE <= io_sel d -> let d' := mm_write (IOAPIC + 16) v d in
    io_sel d' = io_sel d /\ forall r, io_reg d' r = if decide (r = io_sel d) then v else io_reg d r;
  io_fetch : forall d, exists d', mm_read (IOAPIC + 16) d = (io_reg d (io_sel d), d') /\ io_reg d' = io_reg d
}.

Section routing.
Context {D : Type} `{IoapicLaws D}.
Implicit Types (s : board D) (d : D).

(** Entry [i] of the redirection table: the vector with its flags, and the
    destination. *)
Definition redir d (i : Z) : Z * Z := (io_reg d (REG_TABLE + 2 * i), io_reg d (REG_TABLE + 2 * i + 1)).
Definition max_intr d : Z := Z.land (Z.shiftr (io_reg d REG_VER) 16) 0xFF.

Lemma wp_ioapicread s r (Q : Z -> board D -> Prop) : 0 <= r < 256 ->
  (forall d', io_reg d' = io_reg (bd_dev s) -> Q (io_reg (bd_dev s) r) (set_bd d' s)) -> wp (ioapicread r) Q s.
Proof.
  intros Hr HQ. unfold ioapicread, mm_put. wp_steps. rewrite u32_small by lia. destruct (io_select (bd_dev s) r Hr) as [E1 E2].
  set (d1 := mm_write IOAPIC r (bd_dev s)) in *. destruct (io_fetch d1) as (d2 & Ed & Hd2). unfold mm_get, wp. cbn [bd_dev set_bd].
  rewrite Ed, E1, E2. apply (HQ d2). congruence.
Qed.

Lemma wp_ioapicwrite s r v (Q : unit -> board D -> Prop) : REG_TABLE <= r < 256 -> 0 <= v < 2 ^ 32 ->
  (forall d', (forall r', io_reg d' r' = if decide (r' = r) then v else io_reg (bd_dev s) r') -> Q tt (set_bd d' s)) ->
  wp (ioapicwrite r v) Q s.
Proof.
  intros Hr Hv HQ. unfold REG_TABLE in Hr. unfold ioapicwrite, mm_put. wp_steps. rewrite !u32_small by lia. cbn [bd_dev set_bd].
  destruct (io_select (bd_dev s) r ltac:(lia)) as [E1 E2]. set (d1 := mm_write IOAPIC r (bd_dev s)) in *.
  destruct (io_store d1 v ltac:(rewrite E1; unfold REG_TABLE; lia)) as [_ Hst].
  apply (HQ (mm_write (IOAPIC + 16) v d1)). intros r'. rewrite Hst, E1, E2. done.
Qed.

(** The two writes for one entry. *)
Lemma wp_redir s i lo hi (Q : unit -> board D -> Prop) : 0 <= i < 120 -> 0 <= lo < 2 ^ 32 -> 0 <= hi < 2 ^ 32 ->
  (forall d', redir d' i = (lo, hi) -> (forall j, j <> i -> redir d' j = redir (bd_dev s) j) ->
    (forall r, r < REG_TABLE -> io_reg d' r = io_reg (bd_dev s) r) -> Q tt (set_bd d' s)) ->
  wp (ioapicwrite (REG_TABLE + 2 * i) lo ;; ioapicwrite (REG_TABLE + 2 * i + 1) hi) Q s.
Proof.
  intros Hi Hlo Hhi HQ. unfold REG_TABLE in *. wp_step. apply wp_ioapicwrite; [unfold REG_TABLE; lia|done|]. intros d1 E1.
  apply wp_ioapicwrite; [unfold REG_TABLE; lia|done|]. cbn [bd_dev set_bd]. intros d2 E2. apply (HQ d2).
  - unfold redir, REG_TABLE. rewrite !E2, !E1. repeat case_decide; lia || done.
  - intros j Hj. unfold redir, REG_TABLE. rewrite !E2, !E1. by rewrite !decide_False by lia.
  - intros r Hr. rewrite E2, E1. by rewrite !decide_False by lia.
Qed.

Definition disabled (i : Z) : Z * Z := (Z.lor INT_DISABLED (VEC_IRQ0 + i), 0).

Lemma max_intr_range d : 0 <= max_intr d < 256.
Proof. unfold max_intr. change 0xFF with (Z.ones 8). rewrite Z.land_ones by lia. apply Z.mod_pos_bound. lia. Qed.

Lemma lor_disabled i : 0 <= i < 120 -> 0 <= Z.lor INT_DISABLED (VEC_IRQ0 + i) < 2 ^ 32 /\ Z.land (Z.lor INT_DISABLED (VEC_IRQ0 + i)) INT_DISABLED = INT_DISABLED.
Proof.
  intros Hi. assert (forallb (fun i => let x := Z.lor INT_DISABLED (VEC_IRQ0 + i) in (0 <=? x) && (x <? 2 ^ 32) && (Z.land x INT_DISABLED =? INT_DISABLED))
    (seqZ 0 120) = true) as Hall by (vm_compute; reflexivity).
  rewrite forallb_forall in Hall. specialize (Hall i ltac:(apply list_elem_of_In, elem_of_seqZ; lia)). cbv zeta beta in Hall.
  rewrite !andb_true_iff in Hall. destruct Hall as [[H1%Z.leb_le H2%Z.ltb_lt] H3%Z.eqb_eq]. done.
Qed.

Lemma wp_disable_all s n (Q : unit -> board D -> Prop) : 0 <= n <= 120 ->
  (forall s', (forall i, 0 <= i < n -> redir (bd_dev s') i = disabled i) -> Q tt s') ->
  wp (for_loop (Z.to_nat n) 0 (fun i => ioapicwrite (REG_TABLE + 2 * i) (Z.lor INT_DISABLED (VEC_IRQ0 + i)) ;;
    ioapicwrite (REG_TABLE + 2 * i + 1) 0)) Q s.
Proof.
  intros Hn HQ. eapply wp_mono; [apply (wp_for_loop (fun i s' => forall j, 0 <= j < i -> redir (bd_dev s') j = disabled j)); [lia|]|].
  - intros j s' Hj HI. apply wp_redir; [lia|apply lor_disabled; lia|done|]. intros d' Ed Ho _ j' Hj'. cbn [bd_dev set_bd].
    destruct (decide (j' = j)) as [->|]; [exact Ed|]. rewrite Ho by done. apply HI. lia.
  - intros [] s' HI. apply HQ. intros i Hi. apply HI. lia.
Qed.

Lemma wp_ioapicinit s (Q : unit -> board D -> Prop) : max_intr (bd_dev s) < 120 ->
  (forall s', (forall i, 0 <= i <= max_intr (bd_dev s) -> redir (bd_dev s') i = disabled i) -> Q tt s') -> wp ioapicinit Q s.
Proof.
  intros Hmax HQ. pose proof (max_intr_range (bd_dev s)) as Hr. unfold ioapicinit. wp_step. apply wp_ioapicread; [done|]. intros d1 E1.
  wp_step. apply wp_ioapicread; [done|]. intros d2 E2. cbn [bd_dev set_bd] in *. fold (max_intr (bd_dev s)). wp_steps.
  apply wp_when; intros _; [wp_step|]; (apply wp_disable_all; [lia|]; intros s' HI; apply HQ; intros i Hi; apply HI; lia).
Qed.
End routing.

(** Interrupt routing.  After [ioapicinit] every line of the controller
    is disabled and routed nowhere; [ioapicenable] then enables exactly the
    line it is given, with its vector and processor, and leaves the others
    disabled. *)
Theorem ioapic_routes {D} `{IoapicLaws D} (s : board D) irq cpunum : max_intr (bd_dev s) < 120 -> 0 <= irq <= max_intr (bd_dev s) ->
  0 <= cpunum < 256 ->
  wp (ioapicinit ;; ioapicenable irq cpunum) (fun _ s' =>
    redir (bd_dev s') irq = (VEC_IRQ0 + irq, Z.shiftl cpunum 24) /\
    forall i, 0 <= i <= max_intr (bd_dev s) -> i <> irq ->
      Z.land (fst (redir (bd_dev s') i)) INT_DISABLED = INT_DISABLED /\ snd (redir (bd_dev s') i) = 0) s.
Proof.
  intros Hmax Hirq Hcpu. wp_step. apply wp_ioapicinit; [done|]. intros s1 H1. unfold ioapicenable.
  apply wp_redir; [lia|unfold VEC_IRQ0; lia|rewrite Z.shiftl_mul_pow2 by lia; change (2 ^ 24) with 16777216; lia|].
  intros d' Ed Ho _. cbn [bd_dev set_bd]. split; [exact Ed|]. intros i Hi Hne. rewrite Ho, H1 by done. split; [|done]. apply lor_disabled. lia.
Qed.

(** ** The clock *)

(** The chip: the time it shows, in seconds ([rtc_now]), and how its state
    changes while its registers are read.  Once a second it updates the date
    registers, and as long as it does so they read as anything.  [rtc_calm]
    counts the reads before the next update begins (0 during an update) and
    [rtc_left] those until it is over and the next second is shown.  Register A
    has the flag [CMOS_UIP]: when it is down no update begins during the next
    six reads (the data sheet has 244 microseconds for them), and it goes up
    [rtc_window] reads at most before the end of the update.  [rtc_field reg t]
    is what the calendar has in a register at time [t]; the registers hold it
    in binary or in two decimal digits ([rtc_bcd], shown in register B). *)
Class RtcLaws (D : Type) `{Board D} := {
  rtc_now : D -> Z;
  rtc_calm : D -> nat;
  rtc_left : D -> nat;
  rtc_window : nat;
  rtc_bcd : bool;
  rtc_field : Z -> Z -> Z;
  rtc_range : forall reg t, 0 <= rtc_field reg t < 100;
  rtc_code (x : Z) : Z := if rtc_bcd then 16 * (x / 10) + x mod 10 else x;
  rtc_before : forall d, (rtc_calm d <= rtc_left d)%nat;
  rtc_tick (d d' : D) : Prop :=
    (rtc_now d' = rtc_now d /\ rtc_left d = S (rtc_left d') /\ rtc_calm d' = pred (rtc_calm d)) \/
    (rtc_left d = 0%nat /\ rtc_now d' = rtc_now d + 1 /\ (rtc_window + 20 <= rtc_left d')%nat);
  rtc_read : forall d reg, 0 <= reg < 256 -> exists v d', io_in CMOS_RETURN (io_out CMOS_PORT reg d) = (v, d') /\ rtc_tick d d' /\
    (reg ∈ [SECS; MINS; HOURS; DAY; MONTH; YEAR] -> (0 < rtc_calm d')%nat -> v = rtc_code (rtc_field reg (rtc_now d'))) /\
    (reg = CMOS_STATA -> if decide (Z.land v CMOS_UIP = 0) then (6 < rtc_calm d')%nat else (rtc_left d' <= rtc_window)%nat) /\
    (reg = CMOS_STATB -> Z.land v (Z.shiftl 1 2) = 0 <-> rtc_bcd = true)
}.

Section clock.
Context {D : Type} `{RtcLaws D}.
Implicit Types (s : board D) (d : D).

(** What the registers show at time [t]. *)
Definition shown (t : Z) : rtcdate :=
  let f reg := rtc_code (rtc_field reg t) in Rtcdate (f SECS) (f MINS) (f HOURS) (f DAY) (f MONTH) (f YEAR).
(** The date of time [t]. *)
Definition date_of (t : Z) : rtcdate :=
  Rtcdate (rtc_field SECS t) (rtc_field MINS t) (rtc_field HOURS t) (rtc_field DAY t) (rtc_field MONTH t) (rtc_field YEAR t + 2000).

Lemma wp_cmos_read s reg (Q : Z -> board D -> Prop) : 0 <= reg < 256 ->
  (forall v d', rtc_tick (bd_dev s) d' ->
    (reg ∈ [SECS; MINS; HOURS; DAY; MONTH; YEAR] -> (0 < rtc_calm d')%nat -> v = rtc_code (rtc_field reg (rtc_now d'))) ->
    (reg = CMOS_STATA -> if decide (Z.land v CMOS_UIP = 0) then (6 < rtc_calm d')%nat else (rtc_left d' <= rtc_window)%nat) ->
    (reg = CMOS_STATB -> Z.land v (Z.shiftl 1 2) = 0 <-> rtc_bcd = true) -> Q v (set_bd d' s)) -> wp (cmos_read reg) Q s.
Proof.
  intros Hr HQ. unfold cmos_read, outb8, microdelay. wp_steps. unfold inb8, wp. cbn [bd_dev set_bd].
  replace (u8 reg) with reg by (unfold u8; by rewrite Z.mod_small). destruct (rtc_read (bd_dev s) reg Hr) as (v & d' & E & ?&?&?&?).
  rewrite E. by apply (HQ v d').
Qed.

(** [k] reads of registers. *)
Definition passed (k : nat) (d d' : D) : Prop :=
  (rtc_now d' = rtc_now d /\ rtc_left d = (k + rtc_left d')%nat /\ rtc_calm d' = (rtc_calm d - k)%nat) \/
  ((rtc_left d < k)%nat /\ rtc_now d' = rtc_now d + 1 /\ (rtc_window + 20 - (k - 1) <= rtc_left d')%nat).
Lemma passed_tick d d' : rtc_tick d d' -> passed 1 d d'.
Proof. unfold rtc_tick, passed. destruct 1; lia. Qed.
Lemma passed_app j k d d1 d2 : (j + k <= 20)%nat -> passed j d d1 -> passed k d1 d2 -> passed (j + k) d d2.
Proof.
  unfold passed. intros Hjk [(N1 & L1 & C1)|(L1 & N1 & W1)] [(N2 & L2 & C2)|(L2 & N2 & W2)].
  - left. lia.
  - right. lia.
  - right. lia.
  - lia.
Qed.

(** Six reads: the date, if no update begins before they are done. *)
Lemma wp_fill_rtcdate s (Q : rtcdate -> board D -> Prop) :
  (forall r d', passed 6 (bd_dev s) d' -> ((6 < rtc_calm (bd_dev s))%nat -> r = shown (rtc_now (bd_dev s))) -> Q r (set_bd d' s)) ->
  wp fill_rtcdate Q s.
Proof.
  intros HQ. unfold fill_rtcdate.
  wp_step. apply wp_cmos_read; [done|]. intros v1 d1 T1 E1 _ _. wp_step. apply wp_cmos_read; [done|]. cbn [bd_dev set_bd]. intros v2 d2 T2 E2 _ _.
  wp_step. apply wp_cmos_read; [done|]. cbn [bd_dev set_bd]. intros v3 d3 T3 E3 _ _. wp_step. apply wp_cmos_read; [done|]. cbn [bd_dev set_bd]. intros v4 d4 T4 E4 _ _.
  wp_step. apply wp_cmos_read; [done|]. cbn [bd_dev set_bd]. intros v5 d5 T5 E5 _ _. wp_step. apply wp_cmos_read; [done|]. cbn [bd_dev set_bd]. intros v6 d6 T6 E6 _ _.
  wp_step. set (d := bd_dev s) in *. apply passed_tick in T1, T2, T3, T4, T5, T6.
  pose proof (passed_app 1 1 _ _ _ ltac:(lia) T1 T2) as P2. pose proof (passed_app 2 1 _ _ _ ltac:(lia) P2 T3) as P3.
  pose proof (passed_app 3 1 _ _ _ ltac:(lia) P3 T4) as P4. pose proof (passed_app 4 1 _ _ _ ltac:(lia) P4 T5) as P5.
  pose proof (passed_app 5 1 _ _ _ ltac:(lia) P5 T6) as P6. apply HQ; [exact P6|]. intros Hc. pose proof (rtc_before d) as Hb.
  assert (forall k dk, (k <= 6)%nat -> passed k d dk -> rtc_now dk = rtc_now d /\ (0 < rtc_calm dk)%nat) as Hk by (unfold passed; lia).
  destruct (Hk 1%nat d1 ltac:(lia) T1) as [N1 C1]. destruct (Hk 2%nat d2 ltac:(lia) P2) as [N2 C2]. destruct (Hk 3%nat d3 ltac:(lia) P3) as [N3 C3].
  destruct (Hk 4%nat d4 ltac:(lia) P4) as [N4 C4]. destruct (Hk 5%nat d5 ltac:(lia) P5) as [N5 C5]. destruct (Hk 6%nat d6 ltac:(lia) P6) as [N6 C6].
  rewrite E1, E2, E3, E4, E5, E6 by (done || (apply list_elem_of_In; cbn; tauto)). by rewrite N1, N2, N3, N4, N5, N6.
Qed.

(** Turns that the loop can still take: while the flag is up seven reads pass
    in each; then there is one in which the second changes, and a last one. *)
Definition turns (left : nat) : nat := if decide (rtc_window + 8 <= left)%nat then 1%nat else (2 + left / 7)%nat.

Lemma wp_cmos_loop fuel : forall s (Q : rtcdate -> board D -> Prop), (turns (rtc_left (bd_dev s)) <= fuel)%nat ->
  (forall t d', rtc_now (bd_dev s) <= t <= rtc_now d' -> Q (shown t) (set_bd d' s)) -> wp (cmos_loop fuel) Q s.
Proof.
  induction fuel as [|fuel IH]; intros s Q Hf HQ.
  { unfold turns in Hf. case_decide; lia. }
  cbn [cmos_loop]. wp_step. apply wp_fill_rtcdate. intros t1 d1 P1 F1. wp_step. apply wp_cmos_read; [done|]. cbn [bd_dev set_bd].
  intros a d2 T2 _ Hu _. specialize (Hu eq_refl). set (d := bd_dev s) in *. apply passed_tick in T2.
  pose proof (passed_app 6 1 _ _ _ ltac:(lia) P1 T2) as P2. cbn [Nat.add] in P2. pose proof (rtc_before d) as Hb. pose proof (rtc_before d2) as Hb2.
  assert (forall d3, rtc_now d <= rtc_now d3 -> (turns (rtc_left d3) < turns (rtc_left d))%nat -> wp (cmos_loop fuel) Q (set_bd d3 s)) as Hagain.
  { intros d3 Hn Ht. apply IH; cbn [bd_dev set_bd]; [lia|]. intros t d' Ht'. apply (HQ t d'). lia. }
  destruct (decide (Z.land a CMOS_UIP = 0)) as [Eu|Eu].
  - rewrite Eu. change (c_bool 0) with false. cbv iota. wp_step. apply wp_fill_rtcdate. cbn [bd_dev set_bd]. intros t2 d3 P3 F2.
    change (set_bd d3 (set_bd d2 (set_bd d1 s))) with (set_bd d3 s). rewrite F2 by done.
    assert (rtc_now d3 = rtc_now d2) as N3 by (unfold passed in P3; lia). case_bool_decide as Eq.
    + wp_step. rewrite Eq. apply HQ. unfold passed in P2. lia.
    + destruct P2 as [(N2 & L2 & C2)|(L2 & N2 & W2)]; [destruct Eq; rewrite N2; apply F1; lia|].
      apply Hagain; [lia|]. unfold turns. rewrite decide_True by (unfold passed in P3; lia). case_decide; lia.
  - rewrite c_bool_nz by done. change (set_bd d2 (set_bd d1 s)) with (set_bd d2 s).
    destruct P2 as [(N2 & L2 & C2)|(L2 & N2 & W2)]; [|lia]. apply Hagain; [lia|]. unfold turns. rewrite !decide_False by lia.
    rewrite L2. replace (7 + rtc_left d2)%nat with (rtc_left d2 + 1 * 7)%nat by lia. rewrite Nat.div_add by lia. lia.
Qed.

Lemma CONV_code x : 0 <= x < 100 -> CONV (16 * (x / 10) + x mod 10) = x.
Proof.
  intros Hx. unfold CONV. change 0xf with (Z.ones 4). rewrite Z.land_ones, Z.shiftr_div_pow2 by lia. change (2 ^ 4) with 16.
  rewrite u32_small; Z.div_mod_to_equations; lia.
Qed.
End clock.

(** C29: the time of day.  [cmostime] returns, after at most three turns of its
    loop more than fit into an update of the clock, with seven reads or more in
    each, and what it returns is the date at one moment between the call and the return, whatever the
    encoding of the registers: no mixture of two moments, and nothing that was
    read during an update, when the registers read as anything. *)
Theorem cmostime_correct {D} `{RtcLaws D} (s : board D) fuel : (rtc_window / 7 + 3 <= fuel)%nat ->
  wp (cmostime fuel) (fun r s' => exists t, rtc_now (bd_dev s) <= t <= rtc_now (bd_dev s') /\ r = date_of t) s.
Proof.
  intros Hf. unfold cmostime. wp_step. apply wp_cmos_read; [done|]. intros v d1 T1 _ _ Hb. specialize (Hb eq_refl). wp_step.
  apply wp_cmos_loop.
  { cbn [bd_dev set_bd]. unfold turns. case_decide as Hw; [lia|]. assert (rtc_left d1 / 7 <= rtc_window / 7 + 1)%nat; [|lia].
    rewrite <- Nat.div_add by lia. apply Nat.Div0.div_le_mono. lia. }
  cbn [bd_dev set_bd]. intros t d' Ht. wp_step. exists t. cbn [bd_dev set_bd]. split; [unfold rtc_tick in T1; lia|].
  assert (forall reg, 0 <= rtc_field reg t < 100) as Hr by (intros; apply rtc_range). pose proof (Hr YEAR). unfold date_of.
  case_bool_decide as E.
  - apply Hb in E. cbn [second minute hour day month year shown]. unfold rtc_code. rewrite E, !CONV_code by apply Hr. f_equal. apply u32_small. lia.
  - assert (rtc_bcd = false) as E' by (destruct rtc_bcd; [by destruct E; apply Hb|done]).
    cbn [second minute hour day month year shown]. unfold rtc_code. rewrite E'. f_equal. apply u32_small. lia.
Qed.

(** ** Simulated devices *)

(** The clock updates its registers during the last three reads of a second, and
    they read as 0xff then; the flag is up for the last ten. *)
Record lsim := Lsim { ls_sel : Z; ls_reg : gmap Z Z; ls_time : Z; ls_left : nat; ls_cmos : Z }.
Definition ls_get (d : lsim) (r : Z) : Z := default 0 (ls_reg d !! r).
Definition ls_field (reg t : Z) : Z :=
  if decide (reg = SECS) then t mod 60 else if decide (reg = MINS) then t / 60 mod 60 else if decide (reg = HOURS) then t / 3600 mod 24
  else if decide (reg = YEAR) then 21 else 1.
Definition ls_step (d : lsim) : lsim :=
  match ls_left d with
  | O => Lsim (ls_sel d) (ls_reg d) (ls_time d + 1) 100 (ls_cmos d)
  | S c => Lsim (ls_sel d) (ls_reg d) (ls_time d) c (ls_cmos d)
  end.
Definition ls_cmos_value (reg : Z) (d : lsim) : Z :=
  if decide (reg = CMOS_STATA) then (if decide (ls_left d <= 10)%nat then 0x80 else 0) else if decide (reg = CMOS_STATB) then 0
  else if decide (ls_left d <= 3)%nat then 0xff
  else let x := ls_field reg (ls_time d) in 16 * (x / 10) + x mod 10.

#[local] Instance lsim_board : Board lsim := {|
  mm_read a d := (ls_get d (ls_sel d), d);
  mm_write a v d := if decide (a = IOAPIC) then Lsim v (ls_reg d) (ls_time d) (ls_left d) (ls_cmos d)
                    else Lsim (ls_sel d) (<[ls_sel d := v]> (ls_reg d)) (ls_time d) (ls_left d) (ls_cmos d);
  io_in p d := (ls_cmos_value (ls_cmos d) (ls_step d), ls_step d);
  io_out p v d := Lsim (ls_sel d) (ls_reg d) (ls_time d) (ls_left d) v
|}.

#[local] Instance lsim_ioapic : IoapicLaws lsim.
Proof.
  refine {| io_sel := ls_sel; io_reg := ls_get |}.
  - intros d r _. done.
  - intros d v _ d'. split; [done|]. intros r. unfold d', mm_write, lsim_board. rewrite decide_False by done. unfold ls_get. cbn [ls_reg].
    rewrite lookup_insert. destruct (decide (ls_sel d = r)), (decide (r = ls_sel d)); congruence || done.
  - intros d. by exists d.
Defined.

Lemma ls_field_range reg t : 0 <= ls_field reg t < 100.
Proof.
  unfold ls_field. pose proof (Z.mod_pos_bound t 60 ltac:(lia)). pose proof (Z.mod_pos_bound (t / 60) 60 ltac:(lia)).
  pose proof (Z.mod_pos_bound (t / 3600) 24 ltac:(lia)). repeat case_decide; lia.
Qed.

#[local] Instance lsim_rtc : RtcLaws lsim.
Proof.
  refine {| rtc_now := ls_time; rtc_calm d := (ls_left d - 3)%nat; rtc_left := ls_left; rtc_window := 10; rtc_bcd := true; rtc_field := ls_field |}.
  - apply ls_field_range.
  - intros d. lia.
  - intros d reg Hr. eexists _, _. split; [reflexivity|]. cbn [ls_cmos io_out lsim_board]. set (d1 := Lsim _ _ _ _ _). split_and!.
    + unfold ls_step. change (ls_left d1) with (ls_left d). destruct (ls_left d); [right|left]; cbn; split_and!; done || lia.
    + intros Hin Hc. unfold ls_cmos_value.
      assert (reg <> CMOS_STATA /\ reg <> CMOS_STATB) as [H1 H2] by (split; intros ->; pose proof (bool_decide_eq_true_2 _ Hin) as E0; vm_compute in E0; discriminate).
      by rewrite !decide_False by (done || lia).
    + intros ->. unfold ls_cmos_value. rewrite (decide_True (P := CMOS_STATA = CMOS_STATA)) by done.
      destruct (decide (ls_left (ls_step d1) <= 10)%nat); [rewrite decide_False by done; lia|rewrite decide_True by done; lia].
    + intros ->. done.
Defined.

(** Called shortly before an update: the second changes while the loop runs. *)
Definition lx : board lsim := Brd 0 0 [] [] (Lsim 0 {[REG_VER := Z.shiftl 23 16]} 59 9 0).

Lemma lx_eval : match cmostime 4 lx with Ok r _ => r = Rtcdate 0 1 0 1 1 2021 | _ => False end.
Proof. vm_compute. reflexivity. Qed.
Lemma lx_result r s' : cmostime 4 lx = Ok r s' -> r = Rtcdate 0 1 0 1 1 2021.
Proof. pose proof lx_eval as Hr. revert Hr. generalize (cmostime 4 lx). intros o Hr ->. exact Hr. Qed.

Lemma cmostime_correct_witness : exists s', cmostime 4 lx = Ok (Rtcdate 0 1 0 1 1 2021) s' /\
  exists t, 59 <= t <= rtc_now (bd_dev s') /\ Rtcdate 0 1 0 1 1 2021 = date_of t.
Proof.
  assert (rtc_window / 7 + 3 <= 4)%nat as Hf by (vm_compute; constructor).
  pose proof (proj1 (wp_ok _ _ _) (cmostime_correct lx 4 Hf)) as (r & s' & E & Ht). exists s'.
  pose proof (lx_result r s' E) as Er. subst r. exact (conj E Ht).
Defined.
