(* ===== verification/Uprogs.v ===== *)
(** * Small user programs

    [cat.c], [wc.c], [echo.c], [ls.c], [kill.c], [ln.c], [mkdir.c] and [rm.c].
    A program is a function from what its system calls deliver to what it
    writes and the calls it makes.  Strings are memory areas as in [CString];
    [None] is an access outside of one. *)

From S2P Require Import Prelude Bytes Params Machine CString Console Ulib Printf Fs Grep.
Local Open Scope Z_scope.

(** What one call of [read] delivers: bytes, or an error. *)
Definition rd : Type := option (list Z).

Definition line (s : string) : list Z := chars s ++ [newline; 0].

(** ** [cat.c] *)

Section cat.
(** How many bytes a call of [write] takes, or -1. *)
Variable write : list Z -> Z.
Variable files : list Z -> option (list rd).

(** What is written, and whether the program has ended. *)
Fixpoint cat (reads : list rd) : option (list Z * bool) :=
  match reads with
  | [] | Some [] :: _ => Some ([], false)
  | None :: _ => msg ← printf (line "cat: read error") []; Some (msg, true)
  | Some buf :: reads' =>
      let n := write buf in
      if negb (n =z Z.of_nat (length buf)) then
        msg ← printf (line "cat: write error") []; Some (take (Z.to_nat n) buf ++ msg, true)
      else '(out, ended) ← cat reads'; Some (buf ++ out, ended)
  end.

Fixpoint cat_files (names : list (list Z)) : option (list Z) :=
  match names with
  | [] => Some []
  | name :: names' =>
      match files name with
      | None => printf (line "cat: cannot open %s") [CStr (Some name)]
      | Some reads =>
          '(out, ended) ← cat reads;
          if ended : bool then Some out else app out <$> cat_files names'
      end
  end.

Definition cat_main (stdin : list rd) (argv : list (list Z)) : option (list Z) :=
  match argv with
  | [] | [_] => fst <$> cat stdin
  | _ :: names => cat_files names
  end.
End cat.

(** ** [wc.c] *)

Definition wc_spaces : list Z := [32; 13; 9; 10; 11; 0].

(** The inner loop: lines, words, characters, and whether a word is open. *)
Fixpoint wc_buf (buf : list Z) (l w c : Z) (inword : bool) : option (Z * Z * Z * bool) :=
  match buf with
  | [] => Some (l, w, c, inword)
  | x :: buf' =>
      let c := s32 (c + 1) in
      let l := if x =z newline then s32 (l + 1) else l in
      r ← strchr wc_spaces x;
      match r with
      | Some _ => wc_buf buf' l w c false
      | None => if negb inword then wc_buf buf' l (s32 (w + 1)) c true else wc_buf buf' l w c inword
      end
  end.

Fixpoint wc_loop (reads : list rd) (l w c : Z) (inword : bool) : option (option (Z * Z * Z)) :=
  match reads with
  | [] | Some [] :: _ => Some (Some (l, w, c))
  | None :: _ => Some None
  | Some buf :: reads' => '(l, w, c, inword) ← wc_buf buf l w c inword; wc_loop reads' l w c inword
  end.

Definition wc (reads : list rd) (name : list Z) : option (list Z * bool) :=
  r ← wc_loop reads 0 0 0 false;
  match r with
  | None => msg ← printf (line "wc: read error") []; Some (msg, true)
  | Some (l, w, c) => out ← printf (line "%d %d %d %s") [CInt l; CInt w; CInt c; CStr (Some name)]; Some (out, false)
  end.

Fixpoint wc_files (files : list Z -> option (list rd)) (names : list (list Z)) : option (list Z) :=
  match names with
  | [] => Some []
  | name :: names' =>
      match files name with
      | None => printf (line "wc: cannot open %s") [CStr (Some name)]
      | Some reads =>
          '(out, ended) ← wc reads name;
          if ended : bool then Some out else app out <$> wc_files files names'
      end
  end.

Definition wc_main (files : list Z -> option (list rd)) (stdin : list rd) (argv : list (list Z)) : option (list Z) :=
  match argv with
  | [] | [_] => fst <$> wc stdin [0]
  | _ :: names => wc_files files names
  end.

(** ** [echo.c] *)

Fixpoint echo_args (args : list (list Z)) : option (list Z) :=
  match args with
  | [] => Some []
  | a :: args' =>
      out ← printf (chars "%s%s" ++ [0]) [CStr (Some a); CStr (Some (match args' with [] => [newline; 0] | _ => [32; 0] end))];
      app out <$> echo_args args'
  end.
Definition echo_main (argv : list (list Z)) : option (list Z) := echo_args (drop 1 argv).

(** ** [kill.c], [ln.c], [mkdir.c], [rm.c] *)

(** The processes that are killed, and what goes to the standard error. *)
Fixpoint kill_args (args : list (list Z)) : option (list Z) :=
  match args with
  | [] => Some []
  | a :: args' => pid ← atoi a; cons pid <$> kill_args args'
  end.
Definition kill_main (argv : list (list Z)) : option (list Z * list Z) :=
  if decide (length argv < 2)%nat then err ← printf (line "usage: kill pid...") []; Some ([], err)
  else pids ← kill_args (drop 1 argv); Some (pids, []).

Definition ln_main (link : list Z -> list Z -> Z) (argv : list (list Z)) : option (list (list Z * list Z) * list Z) :=
  match argv with
  | [_; old; new] =>
      err ← (if link old new <z 0 then printf (line "link %s %s: failed") [CStr (Some old); CStr (Some new)] else Some []);
      Some ([(old, new)], err)
  | _ => err ← printf (line "Usage: ln old new") []; Some ([], err)
  end.

(** The loop of [mkdir.c] and of [rm.c]: the names for which the call is made,
    and the message for the one it fails for. *)
Fixpoint each_arg (call : list Z -> Z) (fmt : list Z) (args : list (list Z)) : option (list (list Z) * list Z) :=
  match args with
  | [] => Some ([], [])
  | a :: args' =>
      if call a <z 0 then err ← printf fmt [CStr (Some a)]; Some ([a], err)
      else '(made, err) ← each_arg call fmt args'; Some (a :: made, err)
  end.
Definition mkdir_main (mkdir : list Z -> Z) (argv : list (list Z)) : option (list (list Z) * list Z) :=
  if decide (length argv < 2)%nat then err ← printf (line "Usage: mkdir files...") []; Some ([], err)
  else each_arg mkdir (line "mkdir: %s failed to create") (drop 1 argv).
Definition rm_main (unlink : list Z -> Z) (argv : list (list Z)) : option (list (list Z) * list Z) :=
  if decide (length argv < 2)%nat then err ← printf (line "Usage: rm files...") []; Some ([], err)
  else each_arg unlink (line "rm: %s failed to delete") (drop 1 argv).

(** ** [ls.c] *)

Section ls.
(** What [open], [fstat] on it, and [read] deliver for a path; what [stat]
    delivers. *)
Variable opens : list Z -> option (option stat * list (list Z)).
Variable stats : list Z -> option stat.

(** From offset [p] back to the last slash; [None] is in front of the path. *)
Fixpoint last_slash (path : list Z) (p : nat) : option nat :=
  if decide (nth p path 0 = 47) then Some p else match p with O => None | S p' => last_slash path p' end.

(** The static buffer of [DIRSIZ + 1] bytes, and what the pointer that is
    returned points to. *)
Definition fmtname (sbuf path : list Z) : option (list Z * list Z) :=
  n ← strlen path;
  let p := match last_slash path (Z.to_nat n) with Some k => drop (S k) path | None => path end in
  n ← strlen p;
  if Z.of_nat DIRSIZ <=z n then Some (sbuf, p) else
  let sbuf := splice 0 (take (Z.to_nat n) p) sbuf in
  let sbuf := splice (Z.to_nat n) (replicate (DIRSIZ - Z.to_nat n) 32) sbuf in
  Some (sbuf, sbuf).

Definition ls_line (sbuf path : list Z) (st : stat) : option (list Z * list Z) :=
  '(sbuf, name) ← fmtname sbuf path;
  out ← printf (line "%s %d %d %d") [CStr (Some name); CInt (st_type st); CInt (st_ino st); CInt (st_size st)];
  Some (sbuf, out).

(** The loop over the entries; the name goes to offset [p] of the buffer. *)
Fixpoint ls_entries (sbuf buf : list Z) (p : nat) (reads : list (list Z)) : option (list Z * list Z) :=
  match reads with
  | [] => Some (sbuf, [])
  | de :: reads' =>
      if negb (Nat.eqb (length de) 16) then Some (sbuf, []) else
      if de_inum de =z 0 then ls_entries sbuf buf p reads' else
      if decide (length buf < p + DIRSIZ + 1)%nat then None else
      let buf := splice p (de_name de) buf in
      let buf := <[(p + DIRSIZ)%nat := 0]> buf in
      match stats buf with
      | None =>
          msg ← printf (line "ls: cannot stat %s") [CStr (Some buf)];
          '(sbuf, out) ← ls_entries sbuf buf p reads'; Some (sbuf, msg ++ out)
      | Some st =>
          '(sbuf, l) ← ls_line sbuf buf st;
          '(sbuf, out) ← ls_entries sbuf buf p reads'; Some (sbuf, l ++ out)
      end
  end.

(** [junk]: what the array has before; the output and the error output are
    one list here. *)
Definition ls (sbuf junk path : list Z) : option (list Z * list Z) :=
  match opens path with
  | None => msg ← printf (line "ls: cannot open %s") [CStr (Some path)]; Some (sbuf, msg)
  | Some (None, _) => msg ← printf (line "ls: cannot stat %s") [CStr (Some path)]; Some (sbuf, msg)
  | Some (Some st, reads) =>
      if st_type st =z T_FILE then ls_line sbuf path st
      else if st_type st =z T_DIR then
        n ← strlen path;
        if 512 <z n + 1 + Z.of_nat DIRSIZ + 1 then msg ← printf (line "ls: path too long") []; Some (sbuf, msg) else
        buf ← strcpy junk path;
        p ← strlen buf;
        ls_entries sbuf (<[Z.to_nat p := 47]> buf) (S (Z.to_nat p)) reads
      else Some (sbuf, [])
  end.

Fixpoint ls_args (sbuf junk : list Z) (args : list (list Z)) : option (list Z) :=
  match args with
  | [] => Some []
  | a :: args' => '(sbuf, out) ← ls sbuf junk a; app out <$> ls_args sbuf junk args'
  end.
Definition ls_main (junk : list Z) (argv : list (list Z)) : option (list Z) :=
  let sbuf := replicate (DIRSIZ + 1) 0 in
  if decide (length argv < 2)%nat then snd <$> ls sbuf junk [46; 0] else ls_args sbuf junk (drop 1 argv).
End ls.

(** ** Copying *)

(** All the bytes before the end of the file. *)
Fixpoint all_bytes (reads : list rd) : option (list Z) :=
  match reads with
  | [] | Some [] :: _ => Some []
  | None :: _ => None
  | Some buf :: reads' => app buf <$> all_bytes reads'
  end.

Lemma cat_copies_file write reads d : (forall buf, write buf = Z.of_nat (length buf)) -> all_bytes reads = Some d -> cat write reads = Some (d, false).
Proof.
  intros Hw. revert d. induction reads as [|[[|x buf]|] reads IH]; intros d Hd; cbn [all_bytes cat] in *; [by simplify_eq|by simplify_eq| |done].
  apply fmap_Some in Hd as (d' & Hd & ->). rewrite Hw, bool_decide_eq_true_2 by done. cbn [negb]. by rewrite (IH d' Hd).
Qed.

(** [cat] writes the files one after the other. *)
Theorem cat_copies write files stdin argv0 names ds : (forall buf, write buf = Z.of_nat (length buf)) -> names <> [] ->
  Forall2 (fun name d => exists reads, files name = Some reads /\ all_bytes reads = Some d) names ds ->
  cat_main write files stdin (argv0 :: names) = Some (concat ds).
Proof.
  intros Hw Hne Hall. unfold cat_main. destruct names as [|name names]; [done|]. clear Hne. revert Hall. generalize (name :: names). clear name names.
  intros names Hall. induction Hall as [|name d names ds (reads & Hf & Hd) Hall IH]; [done|]. cbn [cat_files concat].
  rewrite Hf, (cat_copies_file _ _ d Hw Hd). cbn. by rewrite IH.
Qed.

(** ** Counting *)

Definition is_space (x : Z) : bool := bool_decide (x ∈ [32; 13; 9; 10; 11]).

(** What is between the spaces; the words are those parts that are not empty. *)
Fixpoint parts (l : list Z) : list (list Z) :=
  match l with
  | [] => [[]]
  | x :: l' =>
      match parts l' with
      | r :: rs => if is_space x then [] :: r :: rs else (x :: r) :: rs
      | [] => [[]]
      end
  end.
Definition words_of (l : list Z) : list (list Z) := filter (.≠ []) (parts l).
Definition lines_of (l : list Z) : list Z := filter (.= newline) l.

Lemma parts_cons l : exists r rs, parts l = r :: rs.
Proof. destruct l as [|x l]; cbn [parts]; [eauto|]. destruct (parts l); [eauto|]. destruct (is_space x); eauto. Qed.

(** The words from [l] on when a word is open, or not. *)
Definition more_words (inword : bool) (l : list Z) : nat := length (filter (.≠ []) (if inword then drop 1 (parts l) else parts l)).

Lemma more_words_cons inword x l : more_words inword (x :: l) =
  if is_space x then more_words false l else if inword then more_words true l else S (more_words true l).
Proof.
  unfold more_words. cbn [parts]. destruct (parts_cons l) as (r & rs & ->).
  destruct (is_space x), inword; cbn [drop]; rewrite ?filter_cons; repeat case_decide; done.
Qed.

Lemma strchr_space x : exists r, strchr wc_spaces x = Some r /\ (is_Some r <-> is_space x = true).
Proof.
  unfold is_space. destruct (decide (x ∈ [32; 13; 9; 10; 11])) as [Hin|Hin].
  - assert (forallb (fun x => match strchr wc_spaces x with Some (Some _) => true | _ => false end) [32; 13; 9; 10; 11] = true) as Hall
      by reflexivity. rewrite forallb_forall in Hall. specialize (Hall x ltac:(by apply list_elem_of_In)).
    destruct (strchr wc_spaces x) as [[k|]|]; try done. eexists. split; [done|]. by rewrite bool_decide_eq_true_2.
  - exists None. rewrite bool_decide_eq_false_2 by done. split; [|split; [by intros [? ?]|done]]. unfold wc_spaces.
    rewrite !not_elem_of_cons in Hin. destruct Hin as (?&?&?&?&?&_). cbn [strchr]. by rewrite !bool_decide_eq_false_2 by congruence.
Qed.

Lemma more_words_nil inword : more_words inword [] = 0%nat.
Proof. by destruct inword. Qed.

Lemma more_words_le inword l : (more_words inword l <= length l)%nat.
Proof.
  revert inword. induction l as [|x l IH]; intros inword; [by destruct inword|]. rewrite more_words_cons. cbn [length].
  pose proof (IH false). pose proof (IH true). destruct (is_space x), inword; lia.
Qed.

Lemma wc_eq (l w c l' w' c' : Z) (i : bool) : l = l' -> w = w' -> c = c' -> Some (l, w, c, i) = Some (l', w', c', i).
Proof. congruence. Qed.

Lemma wc_buf_spec buf : forall l w c inword, 0 <= l <= c -> 0 <= w <= c -> c + Z.of_nat (length buf) < 2 ^ 31 ->
  exists inword', wc_buf buf l w c inword = Some (l + Z.of_nat (length (lines_of buf)), w + Z.of_nat (more_words inword buf),
    c + Z.of_nat (length buf), inword') /\
    forall rest, more_words inword (buf ++ rest) = (more_words inword buf + more_words inword' rest)%nat.
Proof.
  induction buf as [|x buf IH]; intros l w c inword Hl Hw Hc.
  - exists inword. cbn [wc_buf lines_of length app]. split; [|intros rest; by rewrite more_words_nil].
    rewrite more_words_nil. change (length (filter _ [])) with 0%nat. cbn [length Z.of_nat]. by rewrite !Z.add_0_r.
  - cbn [wc_buf length] in *. destruct (strchr_space x) as (r & Er & Hr). rewrite Er. cbn [mbind option_bind].
    rewrite (s32_small (c + 1)) by lia.
    set (l' := if x =z newline then _ else l). assert (l' = l + Z.of_nat (length (lines_of [x])) /\ l <= l' <= l + 1) as [El Hl'].
    { unfold l', lines_of. rewrite filter_cons, filter_nil. case_bool_decide; [rewrite decide_True by done|rewrite decide_False by done]; cbn [length];
        rewrite ?s32_small by lia; lia. }
    assert (length (lines_of (x :: buf)) = length (lines_of [x]) + length (lines_of buf))%nat as Eln
      by (unfold lines_of; rewrite <- length_app, <- filter_app; done).
    pose proof (more_words_cons inword x buf) as Em. pose proof (fun rest => more_words_cons inword x (buf ++ rest)) as Emr.
    destruct (is_space x) eqn:Esp.
    + destruct r as [k|]; [|by destruct (proj2 Hr eq_refl)]. destruct (IH l' w (c + 1) false) as (i' & E' & Hrest); [lia..|].
      exists i'. rewrite E', Em, Eln. split; [apply wc_eq; lia|]. intros rest. cbn [app]. by rewrite Emr, Hrest.
    + destruct r as [k|]; [by pose proof (proj1 Hr (mk_is_Some _ k eq_refl))|]. destruct inword; cbn [negb].
      * destruct (IH l' w (c + 1) true) as (i' & E' & Hrest); [lia..|].
        exists i'. rewrite E', Em, Eln. split; [apply wc_eq; lia|]. intros rest. cbn [app]. by rewrite Emr, Hrest.
      * rewrite s32_small by lia. destruct (IH l' (w + 1) (c + 1) true) as (i' & E' & Hrest); [lia..|].
        exists i'. rewrite E', Em, Eln. split; [apply wc_eq; lia|]. intros rest. cbn [app]. rewrite Emr, Hrest. lia.
Qed.

Lemma wc_loop_spec reads : forall d l w c inword, all_bytes reads = Some d -> 0 <= l <= c -> 0 <= w <= c -> c + Z.of_nat (length d) < 2 ^ 31 ->
  wc_loop reads l w c inword = Some (Some (l + Z.of_nat (length (lines_of d)), w + Z.of_nat (more_words inword d), c + Z.of_nat (length d))).
Proof.
  induction reads as [|[[|x buf]|] reads IH]; intros d l w c inword Hd Hl Hw Hc; cbn [all_bytes wc_loop] in *; [| | |done].
  1,2: injection Hd as <-; rewrite more_words_nil; change (length (lines_of [])) with 0%nat; cbn [length Z.of_nat]; by rewrite !Z.add_0_r.
  apply fmap_Some in Hd as (d' & Hd & ->). set (b := x :: buf) in *. clearbody b. rewrite length_app in Hc.
  destruct (wc_buf_spec b l w c inword) as (i' & -> & Hrest); [lia..|]. cbn [mbind option_bind].
  pose proof (more_words_le inword b). pose proof (length_filter (.= newline) b) as Hlf. fold (lines_of b) in Hlf.
  rewrite (IH d') by (done || lia). rewrite Hrest, length_app. unfold lines_of. rewrite filter_app, length_app.
  do 2 f_equal. apply pair_eq. split; [apply pair_eq; split|]; lia.
Qed.

(** Counting.  [wc] prints the number of lines, of words (the parts
    between spaces that are not empty) and of bytes of its input, however the
    input is cut into reads. *)
Theorem wc_correct reads name d : all_bytes reads = Some d -> Z.of_nat (length d) < 2 ^ 31 ->
  wc reads name = (fun out => (out, false)) <$> printf (line "%d %d %d %s")
    [CInt (Z.of_nat (length (lines_of d))); CInt (Z.of_nat (length (words_of d))); CInt (Z.of_nat (length d)); CStr (Some name)].
Proof.
  intros Hd Hl. unfold wc. rewrite (wc_loop_spec reads d) by (done || lia). cbn [mbind option_bind]. rewrite !Z.add_0_l.
  change (more_words false d) with (length (words_of d)). by destruct (printf _ _).
Qed.

(** ** Arguments *)

(** [echo] writes its arguments with single spaces between them and a newline
    at the end. *)
Fixpoint joined (args : list (list Z)) : list Z :=
  match args with
  | [] => []
  | [a] => upto0 a ++ [newline]
  | a :: args' => upto0 a ++ 32 :: joined args'
  end.

Lemma printf_ss a b : printf (chars "%s%s" ++ [0]) [CStr (Some a); CStr (Some b)] = Some (upto0 a ++ upto0 b ++ []).
Proof. reflexivity. Qed.

Theorem echo_correct argv0 args : echo_main (argv0 :: args) = Some (joined args).
Proof.
  unfold echo_main. change (drop 1 (argv0 :: args)) with args. induction args as [|a args IH]; [done|]. cbn [echo_args].
  rewrite printf_ss, app_nil_r. destruct args as [|b args]; [cbn; by rewrite app_nil_r|].
  change (upto0 [32; 0]) with [32]. cbn [mbind option_bind]. rewrite IH. cbn [fmap option_fmap option_map joined]. by rewrite <- app_assoc.
Qed.

(** [mkdir] and [rm] make their call for the arguments in order, up to the
    first one for which it fails, and report that one. *)
Theorem each_arg_correct call fmt args : (forall a, is_Some (printf fmt [CStr (Some a)])) ->
  exists made err, each_arg call fmt args = Some (made, err) /\
    ((Forall (fun a => 0 <= call a) args /\ made = args /\ err = []) \/
     exists pre a post, args = pre ++ a :: post /\ Forall (fun a => 0 <= call a) pre /\ call a < 0 /\ made = pre ++ [a] /\
       printf fmt [CStr (Some a)] = Some err).
Proof.
  intros Hp. induction args as [|a args (made & err & E & IH)]; [exists [], []; split; [done|left; done]|]. cbn [each_arg].
  case_bool_decide as Hc.
  - destruct (Hp a) as [msg Hm]. rewrite Hm. exists [a], msg. split; [done|]. right. by exists [], a, args.
  - rewrite E. exists (a :: made), err. split; [done|]. destruct IH as [(Ha & -> & ->)|(pre & b & post & -> & Hpre & Hb & -> & Hm)].
    + left. split; [constructor; [lia|done]|done].
    + right. exists (a :: pre), b, post. split_and!; [done|constructor; [lia|done]|done|done|done].
Qed.

(** ** Listing *)

(** The characters behind the last slash. *)
Fixpoint base_name (l : list Z) : list Z :=
  match l with
  | [] => []
  | c :: l' => if decide (47 ∈ l) then base_name l' else l
  end.

Lemma base_name_no_slash l : 47 ∉ l -> base_name l = l.
Proof. destruct l; [done|]. cbn. by case_decide. Qed.

Lemma base_name_slash l l' : 47 ∉ l' -> base_name (l ++ 47 :: l') = l'.
Proof.
  intros Hl. induction l as [|c l IH]; cbn [app base_name].
  - rewrite decide_True by set_solver. by apply base_name_no_slash.
  - rewrite decide_True by set_solver. exact IH.
Qed.

Lemma last_slash_none path p : (forall k, (k <= p)%nat -> nth k path 0 <> 47) -> last_slash path p = None.
Proof. induction p as [|p IH]; intros H; cbn [last_slash]; rewrite decide_False by (apply H; lia); [done|]. apply IH. intros k Hk. apply H. lia. Qed.
Lemma last_slash_some path p k : nth k path 0 = 47 -> (k <= p)%nat -> (forall j, (k < j <= p)%nat -> nth j path 0 <> 47) -> last_slash path p = Some k.
Proof.
  intros Hk. induction p as [|p IH]; intros Hle H; cbn [last_slash].
  - assert (k = 0)%nat as -> by lia. by rewrite decide_True.
  - destruct (decide (k = S p)) as [->|]; [by rewrite decide_True|]. rewrite decide_False by (apply H; lia).
    apply IH; [lia|]. intros j Hj. apply H. lia.
Qed.

Lemma split_string path : 0 ∈ path -> exists rest, path = upto0 path ++ 0 :: rest /\ 0 ∉ upto0 path.
Proof.
  induction path as [|c path IH]; intros H0; [by apply not_elem_of_nil in H0|]. cbn [upto0]. unfold c_bool. case_bool_decide as Hc; cbn [negb].
  - subst c. exists path. split; [done|]. apply not_elem_of_nil.
  - apply elem_of_cons in H0 as [H0|H0]; [done|]. destruct (IH H0) as (rest & E & Hn). exists rest. split; [cbn; by rewrite <- E|].
    rewrite not_elem_of_cons. auto.
Qed.

Lemma upto0_app l rest : 0 ∉ l -> upto0 (l ++ 0 :: rest) = l.
Proof.
  induction l as [|c l IH]; intros Hl; [done|]. apply not_elem_of_cons in Hl as [Hc Hl]. cbn [app upto0].
  rewrite c_bool_nz by done. by rewrite IH.
Qed.

Lemma last_part (u : list Z) : 47 ∉ u \/ exists a b, u = a ++ 47 :: b /\ 47 ∉ b.
Proof.
  induction u as [|c u [IH|(a & b & -> & Hb)]].
  - left. apply not_elem_of_nil.
  - destruct (decide (c = 47)) as [->|]; [right; by exists [], u|left; rewrite not_elem_of_cons; auto].
  - right. by exists (c :: a), b.
Qed.

(** The pointer that the first loop of [fmtname] leaves. *)
Lemma fmtname_start path : 0 ∈ path ->
  exists rest, match last_slash path (length (upto0 path)) with Some k => drop (S k) path | None => path end =
    base_name (upto0 path) ++ 0 :: rest /\ 0 ∉ base_name (upto0 path).
Proof.
  intros H0. destruct (split_string path H0) as (rest & E & Hn). set (u := upto0 path) in *. clearbody u. subst path. exists rest.
  assert (nth (length u) (u ++ 0 :: rest) 0 = 0) as Hend by (rewrite app_nth2 by lia; by rewrite Nat.sub_diag).
  destruct (last_part u) as [Hu|(a & b & -> & Hb)].
  - rewrite last_slash_none, base_name_no_slash by done || (intros k Hk; destruct (decide (k = length u)) as [->|]; [by rewrite Hend|];
      rewrite app_nth1 by lia; intros Ek; apply Hu; rewrite <- Ek; apply list_elem_of_In, nth_In; lia). done.
  - rewrite base_name_slash by done. rewrite length_app. cbn [length].
    rewrite (last_slash_some _ _ (length a)).
    + replace (S (length a)) with (length (a ++ [47])) by (rewrite length_app; cbn; lia).
      replace ((a ++ 47 :: b) ++ 0 :: rest) with ((a ++ [47]) ++ b ++ 0 :: rest) by (by rewrite <- !app_assoc).
      rewrite drop_app_length. split; [done|]. set_solver.
    + rewrite <- app_assoc, app_nth2 by lia. by rewrite Nat.sub_diag.
    + lia.
    + intros j Hj. rewrite <- app_assoc, app_nth2 by lia. replace (j - length a)%nat with (S (j - length a - 1)) by lia. cbn [app nth].
      destruct (decide (j - length a - 1 < length b)%nat) as [Hlt|Hge].
      * rewrite app_nth1 by done. intros Ek. apply Hb. rewrite <- Ek. apply list_elem_of_In, nth_In. done.
      * assert (j - length a - 1 = length b)%nat as -> by lia. rewrite app_nth2, Nat.sub_diag by lia. done.
Qed.

(** [fmtname] gives the last part of a path, padded with blanks to the length
    of a name in a directory, whatever is in its static buffer from earlier
    calls. *)
Theorem fmtname_correct sbuf path : 0 ∈ path -> length sbuf = S DIRSIZ -> sbuf !! DIRSIZ = Some 0 ->
  let b := base_name (upto0 path) in
  exists sbuf' p, fmtname sbuf path = Some (sbuf', p) /\ upto0 p = b ++ replicate (DIRSIZ - length b) 32 /\
    0 ∈ p /\ length sbuf' = S DIRSIZ /\ sbuf' !! DIRSIZ = Some 0.
Proof.
  intros H0 Hl Hz b. unfold fmtname. change (strlen path) with (CString.strlen path). rewrite strlen_spec by done. cbn [mbind option_bind].
  rewrite Nat2Z.id. destruct (fmtname_start path H0) as (rest & -> & Hb). fold b in Hb |- *.
  change (strlen (b ++ 0 :: rest)) with (CString.strlen (b ++ 0 :: rest)). rewrite strlen_spec by set_solver. rewrite upto0_app by done.
  cbn [mbind option_bind]. rewrite Nat2Z.id. unfold DIRSIZ in *. case_bool_decide as Hc.
  - exists sbuf, (b ++ 0 :: rest). rewrite upto0_app by done. replace (14 - length b)%nat with 0%nat by lia. cbn [replicate]. rewrite app_nil_r.
    split_and!; [done|done|set_solver|done|done].
  - rewrite take_app_length. set (s1 := splice 0 b sbuf). set (s2 := splice (length b) _ s1). exists s2, s2.
    assert (s1 = b ++ drop (length b) sbuf) as E1 by done.
    assert (drop 14 sbuf = [0]) as Ed.
    { destruct (drop 14 sbuf) as [|x [|y t]] eqn:Ed; pose proof (length_drop sbuf 14) as Hld; rewrite Ed in Hld; cbn in Hld; try lia.
      f_equal. pose proof (lookup_drop sbuf 14 0) as Hlk. rewrite Ed, Nat.add_0_r, Hz in Hlk. by injection Hlk. }
    assert (s2 = b ++ replicate (14 - length b) 32 ++ [0]) as E2.
    { unfold s2. rewrite E1. unfold splice. rewrite take_app_length, length_replicate, drop_app_ge by lia. rewrite drop_drop.
      replace (length b + (length b + (14 - length b) - length b))%nat with 14%nat by lia. by rewrite Ed. }
    rewrite E2, (app_assoc b). split_and!; [done|rewrite upto0_app; [done|]|set_solver| |].
    + rewrite not_elem_of_app, elem_of_replicate. split; [done|]. by intros [? _].
    + rewrite !length_app, length_replicate. cbn. lia.
    + rewrite lookup_app_r by (rewrite length_app, length_replicate; lia). rewrite length_app, length_replicate.
      by replace (14 - (length b + (14 - length b)))%nat with 0%nat by lia.
Qed.

Definition sbuf_ok (sbuf : list Z) : Prop := length sbuf = S DIRSIZ /\ sbuf !! DIRSIZ = Some 0.

Lemma ls_line_safe sbuf path st : sbuf_ok sbuf -> 0 ∈ path -> exists sbuf' out, ls_line sbuf path st = Some (sbuf', out) /\ sbuf_ok sbuf'.
Proof.
  intros [Hl Hz] H0. destruct (fmtname_correct sbuf path H0 Hl Hz) as (sbuf' & p & E & _ & _ & Hl' & Hz'). unfold ls_line. rewrite E. cbn [mbind option_bind].
  eexists sbuf', _. split; [reflexivity|done].
Qed.

Lemma ls_entries_safe stats reads : forall sbuf buf p, sbuf_ok sbuf -> length buf = 512%nat -> (p + DIRSIZ + 1 <= 512)%nat ->
  exists sbuf' out, ls_entries stats sbuf buf p reads = Some (sbuf', out) /\ sbuf_ok sbuf'.
Proof.
  induction reads as [|de reads IH]; intros sbuf buf p Hs Hb Hp; cbn [ls_entries]; [eauto|].
  destruct (Nat.eqb (length de) 16) eqn:Ed; cbn [negb]; [|eauto]. apply Nat.eqb_eq in Ed. case_bool_decide; [by apply IH|].
  rewrite decide_False by lia. set (b := <[(p + DIRSIZ)%nat := 0]> (splice p (de_name de) buf)).
  assert (length (de_name de) = DIRSIZ) as Hn by (unfold de_name; apply length_slice; rewrite Ed; unfold DIRSIZ; lia).
  assert (length b = 512%nat) as Hlb by (unfold b; rewrite length_insert, length_splice; lia).
  assert (0 ∈ b) as H0.
  { apply list_elem_of_lookup_2 with (p + DIRSIZ)%nat. apply list_lookup_insert_eq. rewrite length_splice; lia. }
  destruct (stats b) as [st|].
  - destruct (ls_line_safe sbuf b st Hs H0) as (s1 & o1 & -> & Hs1). cbn [mbind option_bind].
    destruct (IH s1 b p Hs1 Hlb Hp) as (s2 & o2 & -> & Hs2). cbn [mbind option_bind]. eauto.
  - destruct (IH sbuf b p Hs Hlb Hp) as (s2 & o2 & E2 & Hs2). eexists s2, _. rewrite E2. split; [reflexivity|done].
Qed.

Lemma strcpy_string s t : 0 ∈ t -> (length (upto0 t) < length s)%nat ->
  strcpy s t = Some (upto0 t ++ 0 :: drop (S (length (upto0 t))) s).
Proof.
  revert s. induction t as [|c t IH]; intros s H0 Hl; [by apply not_elem_of_nil in H0|].
  destruct s as [|x s]; [cbn in Hl; lia|]. cbn [upto0 strcpy] in *. unfold c_bool in *. case_bool_decide as Hc; cbn [negb] in *.
  - subst c. done.
  - apply elem_of_cons in H0 as [H0|H0]; [done|]. cbn [length] in Hl. rewrite IH by (done || lia). done.
Qed.

(** [ls] stays inside its buffers on every path and every directory. *)
Theorem ls_safe opens stats sbuf junk path : sbuf_ok sbuf -> length junk = 512%nat -> 0 ∈ path ->
  exists sbuf' out, ls opens stats sbuf junk path = Some (sbuf', out) /\ sbuf_ok sbuf'.
Proof.
  intros Hs Hj H0. unfold ls. destruct (opens path) as [[[st|] reads]|]; [|eexists sbuf, _; split; [reflexivity|done]..].
  case_bool_decide; [by apply ls_line_safe|]. case_bool_decide; [|eauto].
  change (strlen path) with (CString.strlen path). rewrite strlen_spec by done. cbn [mbind option_bind].
  case_bool_decide as Hc; [eexists sbuf, _; split; [reflexivity|done]|]. unfold DIRSIZ in Hc.
  rewrite strcpy_string by (done || lia). cbn [mbind option_bind]. destruct (split_string path H0) as (rest & _ & Hn).
  change (strlen ?l) with (CString.strlen l). rewrite strlen_spec by set_solver. rewrite upto0_app by done. cbn [mbind option_bind]. rewrite Nat2Z.id.
  apply ls_entries_safe; [done| |unfold DIRSIZ; lia]. rewrite length_insert, length_app. cbn [length]. rewrite length_drop. lia.
Qed.
