(* ===== verification/Examples.v ===== *)
(** * Examples of the discussions: lines

    [w1/simple-cat.c], which repeats the first line of a file, and
    [w4/simplesh.c], which runs the program that each line of its input names.
    Both read with [fgets], which is part of the C library: it stores bytes up
    to a newline, to the end of the file or to the room in the array, and a
    NUL byte behind them. *)

From S2P Require Import Prelude Bytes CString Ulib.
Local Open Scope Z_scope.

Definition NL : Z := 10.

(** The bytes that are stored and the rest of the file; [room] is the size of
    the array without the NUL byte. *)
Fixpoint fgets_loop (room : nat) (input : list Z) : list Z * list Z :=
  match room, input with
  | S room', c :: input' =>
      if c =z NL then ([c], input') else let '(l, rest) := fgets_loop room' input' in (c :: l, rest)
  | _, _ => ([], input)
  end.
Definition fgets (size : nat) (input : list Z) : option (list Z * list Z) :=
  match input with
  | [] => None
  | _ => let '(l, rest) := fgets_loop (size - 1) input in Some (l ++ [0], rest)
  end.

(** ** [w1/simple-cat.c] *)

Definition BUF_SIZE : nat := 128.

(** The output, or nothing when the assertion fails. *)
Definition cat_first_line (input : list Z) : option (list Z) :=
  match fgets BUF_SIZE input with
  | None => Some []
  | Some (buf, _) =>
      len ← strlen buf;
      if negb (0 <z len) then None else
      if nth (Z.to_nat (len - 1)) buf 0 =z NL then Some (upto0 buf) else Some (upto0 buf ++ [NL])
  end.

(** ** [w4/simplesh.c] *)

(** The loop that removes newlines, from index [i - 1] down. *)
Fixpoint strip_newlines (i : nat) (line : list Z) : list Z :=
  match i with
  | O => line
  | S i' => strip_newlines i' (if nth i' line 0 =z NL then <[i' := 0]> line else line)
  end.

(** What is seen of a session: the prompt, the program that a child becomes,
    the parent's wait for the child, and text on the standard output. *)
Inductive event := Prompt | Exec (prog : list Z) | Waited | Text (msg : string).

(** The output so far, the text in the buffer of the standard output, and the
    number of forks so far. *)
Record session := Session { seen : list event; held : list string; forks : nat }.
Definition see (e : event) (s : session) : session := Session (seen s ++ [e]) (held s) (forks s).

Section simplesh.
(** Whether the standard output is a terminal (then a line is written at its
    newline, otherwise when the process returns from [main]), whether the n-th
    [fork] succeeds, and whether there is a program of a name. *)
Context (tty : bool) (fork_ok : nat -> bool) (exec_ok : list Z -> bool).

(** [printf] of a line. *)
Definition print_msg (msg : string) (s : session) : session :=
  if tty then see (Text msg) s else Session (seen s) (held s ++ [msg]) (forks s).

(** The child has a copy of the buffer, and [_exit] does not write it out:
    only what the child has made seen is kept. *)
Definition run_child (prog : list Z) (s : session) : session :=
  if exec_ok prog then see (Exec prog) s
  else let child := print_msg "simplesh: exec failed" s in Session (seen child) (held s) (forks s).

Definition handle_line (userline : list Z) (s : session) : option session :=
  n ← strlen userline;
  if n <=z 0 then Some s else
  let line := strip_newlines (Z.to_nat n) userline in
  m ← strlen line;
  if 0 <z m then
    let s1 := Session (seen s) (held s) (S (forks s)) in
    if fork_ok (forks s) then Some (see Waited (run_child (upto0 line) s1))
    else Some (print_msg "simplesh: fork failed" s1)
  else Some s.

(** The [write] of the prompt is taken to succeed. *)
Fixpoint simplesh (fuel : nat) (input : list Z) (s : session) : option session :=
  let s := see Prompt s in
  match fgets 512 input with
  | None => Some s
  | Some (userline, rest) =>
      match fuel with
      | O => None
      | S fuel' => s' ← handle_line userline s; simplesh fuel' rest s'
      end
  end.

(** The buffer is written when [main] returns. *)
Definition simplesh_main (input : list Z) : option (list event) :=
  s ← simplesh (length input) input (Session [] [] 0);
  Some (seen s ++ (Text <$> held s)).
End simplesh.

(** ** First lines *)

Lemma fgets_loop_line room l rest : NL ∉ l -> (length l < room)%nat -> fgets_loop room (l ++ NL :: rest) = (l ++ [NL], rest).
Proof.
  revert room. induction l as [|c l IH]; intros room Hl Hr; (destruct room as [|room]; [cbn in Hr; lia|]); cbn [app fgets_loop].
  - by rewrite bool_decide_eq_true_2.
  - apply not_elem_of_cons in Hl as [Hc Hl]. cbn [length] in Hr. rewrite bool_decide_eq_false_2, IH by (done || lia). done.
Qed.

Lemma fgets_loop_long room l : NL ∉ l -> fgets_loop room l = (take room l, drop room l).
Proof.
  revert room. induction l as [|c l IH]; intros [|room] Hl; cbn [fgets_loop take drop]; try done.
  apply not_elem_of_cons in Hl as [Hc Hl]. by rewrite bool_decide_eq_false_2, IH by done.
Qed.

Lemma upto0_string l : 0 ∉ l -> upto0 (l ++ [0]) = l.
Proof.
  induction l as [|c l IH]; intros Hl; [done|]. apply not_elem_of_cons in Hl as [Hc Hl]. cbn [app upto0]. rewrite c_bool_nz by done.
  by rewrite IH.
Qed.

Lemma strlen_string l : 0 ∉ l -> strlen (l ++ [0]) = Some (Z.of_nat (length l)).
Proof. intros Hl. change (strlen ?x) with (CString.strlen x). rewrite strlen_spec by set_solver. by rewrite upto0_string. Qed.

(** What [cat_first_line] prints for the bytes that [fgets] stores. *)
Lemma print_line l c : 0 ∉ l ++ [c] ->
  (len ← strlen ((l ++ [c]) ++ [0]); if negb (0 <z len) then None else
   if nth (Z.to_nat (len - 1)) ((l ++ [c]) ++ [0]) 0 =z NL then Some (upto0 ((l ++ [c]) ++ [0])) else Some (upto0 ((l ++ [c]) ++ [0]) ++ [NL])) =
  Some (if decide (c = NL) then l ++ [c] else l ++ [c] ++ [NL]).
Proof.
  intros H0. rewrite strlen_string, upto0_string by done. cbn [mbind option_bind]. rewrite length_app. cbn [length].
  rewrite bool_decide_eq_true_2 by lia. cbn [negb]. replace (Z.to_nat (Z.of_nat (length l + 1) - 1)) with (length l) by lia.
  rewrite <- app_assoc, app_nth2, Nat.sub_diag by lia. cbn [app nth]. case_decide as E.
  - by rewrite bool_decide_eq_true_2.
  - rewrite bool_decide_eq_false_2 by done. by rewrite <- app_assoc.
Qed.

(** A first line that fits in the array is repeated, with one newline. *)
Theorem first_line_correct l rest : NL ∉ l -> 0 ∉ l -> (length l < 127)%nat -> cat_first_line (l ++ NL :: rest) = Some (l ++ [NL]).
Proof.
  intros Hn H0 Hl. unfold cat_first_line, fgets. destruct (l ++ NL :: rest) eqn:E; [by destruct l|]. rewrite <- E. clear E.
  rewrite fgets_loop_line by (done || (unfold BUF_SIZE; lia)). rewrite print_line by (rewrite not_elem_of_app, list_elem_of_singleton; by split).
  by rewrite decide_True.
Qed.

(** A longer one is cut after 127 bytes, and a newline is put there. *)
Theorem first_line_cut l rest : NL ∉ l -> 0 ∉ l -> length l = 127%nat -> NL ∉ rest -> cat_first_line (l ++ rest) = Some (l ++ [NL]).
Proof.
  intros Hn H0 Hl Hr. unfold cat_first_line, fgets. destruct (l ++ rest) eqn:E; [by destruct l|]. rewrite <- E. clear E.
  rewrite fgets_loop_long by set_solver. rewrite take_app_length' by done.
  destruct (exists_last (l := l)) as (l' & c & ->); [by intros ->|]. rewrite print_line by done.
  rewrite decide_False; [by rewrite <- app_assoc|]. intros ->. apply Hn. set_solver.
Qed.

(** A file that begins with a NUL byte fails the assertion. *)
Theorem first_line_nul rest : NL ∉ rest -> cat_first_line (0 :: rest) = None.
Proof. intros Hr. unfold cat_first_line, fgets. rewrite fgets_loop_long by set_solver. done. Qed.

(** ** The shell *)

Lemma strip_newlines_string l : NL ∉ l -> forall i rest, (i <= length l)%nat -> strip_newlines i (l ++ rest) = l ++ rest.
Proof.
  intros Hl i. induction i as [|i IH]; intros rest Hi; [done|]. cbn [strip_newlines]. rewrite bool_decide_eq_false_2; [apply IH; lia|].
  rewrite app_nth1 by lia. intros E. apply Hl. rewrite <- E. apply list_elem_of_In, nth_In. lia.
Qed.

Section sessions.
Context (tty : bool) (fork_ok : nat -> bool) (exec_ok : list Z -> bool).
Notation handle_line := (handle_line tty fork_ok exec_ok).
Notation simplesh := (simplesh tty fork_ok exec_ok).

(** What one line does to the session, by the outcome of [fork] and [execv]. *)
Definition line_step (s : session) (l : list Z) : session :=
  if decide (l = []) then s else
  let s1 := Session (seen s) (held s) (S (forks s)) in
  if fork_ok (forks s) then
    if exec_ok l then Session (seen s ++ [Exec l; Waited]) (held s) (S (forks s))
    else Session (seen s ++ (if tty then [Text "simplesh: exec failed"] else []) ++ [Waited]) (held s) (S (forks s))
  else print_msg tty "simplesh: fork failed" s1.

(** A line without its newline is the program; empty lines run nothing. *)
Lemma handle_line_spec l s : NL ∉ l -> 0 ∉ l -> handle_line ((l ++ [NL]) ++ [0]) s = Some (line_step s l).
Proof.
  intros Hn H0. unfold Examples.handle_line. rewrite strlen_string by (rewrite not_elem_of_app, list_elem_of_singleton; by split).
  cbn [mbind option_bind]. rewrite length_app. cbn [length]. rewrite bool_decide_eq_false_2 by lia.
  replace (Z.to_nat (Z.of_nat (length l + 1))) with (S (length l)) by lia. cbn [strip_newlines]. rewrite <- app_assoc.
  rewrite app_nth2, Nat.sub_diag by lia. cbn [app nth]. rewrite bool_decide_eq_true_2 by done.
  rewrite insert_app_r_alt, Nat.sub_diag by lia. cbn [insert list_insert]. rewrite strip_newlines_string by done.
  change (l ++ [0; 0]) with (l ++ [0] ++ [0]). change (strlen ?x) with (CString.strlen x). rewrite strlen_spec by set_solver.
  assert (upto0 (l ++ [0] ++ [0]) = l) as ->.
  { clear Hn. induction l as [|c l IH]; [done|]. apply not_elem_of_cons in H0 as [Hc H0]. cbn [app upto0]. rewrite c_bool_nz by done. f_equal. by apply IH. }
  cbn [mbind option_bind]. unfold line_step. case_decide as E; [by subst|].
  rewrite bool_decide_eq_true_2 by (destruct l; [done|cbn [length]; lia]).
  unfold run_child, print_msg, see. cbn [forks]. destruct (fork_ok _), (exec_ok l), tty; cbn [seen held forks]; by rewrite <- ?app_assoc.
Qed.

Definition session_step (s : session) (l : list Z) : session := line_step (see Prompt s) l.

Lemma simplesh_lines ls : Forall (fun l => NL ∉ l /\ 0 ∉ l /\ (length l < 511)%nat) ls -> forall fuel s,
  (length (concat ((fun l => l ++ [NL]) <$> ls)) <= fuel)%nat ->
  simplesh fuel (concat ((fun l => l ++ [NL]) <$> ls)) s = Some (see Prompt (foldl session_step s ls)).
Proof.
  induction 1 as [|l ls (Hn & H0 & Hl) Hls IH]; intros fuel s Hf; [by destruct fuel|]. cbn [fmap list_fmap concat foldl] in *. rewrite <- app_assoc in *.
  cbn [app] in *. rewrite length_app in Hf. cbn [length] in Hf. destruct fuel as [|fuel]; [lia|]. cbn [Examples.simplesh]. unfold fgets.
  destruct (l ++ NL :: concat _) eqn:E; [by destruct l|]. rewrite <- E. clear E. rewrite fgets_loop_line by (done || lia).
  rewrite handle_line_spec by done. cbn [mbind option_bind]. apply IH. lia.
Qed.

(** The shell handles the lines in order, whatever [fork] and [execv] do, and
    ends at the end of its input. *)
Theorem simplesh_correct ls : Forall (fun l => NL ∉ l /\ 0 ∉ l /\ (length l < 511)%nat) ls ->
  simplesh_main tty fork_ok exec_ok (concat ((fun l => l ++ [NL]) <$> ls)) =
  let s := foldl session_step (Session [] [] 0) ls in Some (seen s ++ Prompt :: (Text <$> held s)).
Proof. intros Hls. unfold simplesh_main. rewrite simplesh_lines by done. cbn. by rewrite <- app_assoc. Qed.
End sessions.

(** If the standard output is not a terminal, the message of a failed [execv]
    is lost: it is in the buffer of the child, and [_exit] drops it. *)
Theorem exec_message_lost fork_ok exec_ok ls :
  Forall (fun l => NL ∉ l /\ 0 ∉ l /\ (length l < 511)%nat) ls ->
  exists out, simplesh_main false fork_ok exec_ok (concat ((fun l => l ++ [NL]) <$> ls)) = Some out /\
    Text "simplesh: exec failed" ∉ out.
Proof.
  intros Hls. rewrite simplesh_correct by done. eexists. split; [done|].
  assert (forall s, Text "simplesh: exec failed" ∉ seen s -> "simplesh: exec failed"%string ∉ held s ->
    let s' := foldl (session_step false fork_ok exec_ok) s ls in
    Text "simplesh: exec failed" ∉ seen s' /\ "simplesh: exec failed"%string ∉ held s') as Hall.
  { clear Hls. induction ls as [|l ls IH]; intros s Hs Hh; [done|]. cbn [foldl]. apply IH; unfold session_step, line_step, print_msg, see;
      repeat case_match; cbn [seen held forks app]; rewrite ?not_elem_of_app, ?not_elem_of_cons; repeat split; try done; apply not_elem_of_nil. }
  destruct (Hall (Session [] [] 0)) as [Hs Hh]; [apply not_elem_of_nil..|]. apply not_elem_of_app. split; [done|].
  apply not_elem_of_cons. split; [done|]. intros (m & E & Hm)%list_elem_of_fmap. by injection E as <-.
Qed.
