(* ===== verification/Syscall.v ===== *)
(** * System calls: arguments and processes

    The user memory as the kernel sees it through the page table of the
    current process, the functions of [syscall.c] that fetch the arguments of
    a system call, and the calls of [sysproc.c]. *)

From S2P Require Import Prelude Bytes Params Machine BlockCache Journal CString Fs Kalloc Vm Pipe Kern FileC Proc.
Local Open Scope Z_scope.

(** ** User memory *)

(** The paging hardware reads the directory and the table from memory; the
    kernel may read every page that is present and, as [entry.S] sets the bit
    [WP] of [cr0], write those that are writable.  An access the page table
    does not allow is a trap in the kernel. *)
Section user_memory.
Context {T : Type} `{HasMem T}.

Definition translate (pgdir va : Z) (wr : bool) : M T Z :=
  pde ← load32 (pgdir + 4 * PDX va);
  if Z.land pde PTE_P =z 0 then fault "page fault" else
  pte ← load32 (P2V (PTE_ADDR pde) + 4 * PTX va);
  if (Z.land pte PTE_P =z 0) || (wr && (Z.land pte PTE_W =z 0)) then fault "page fault" else
  mret (P2V (PTE_ADDR pte) + va mod PGSIZE).
Definition load8 (pgdir va : Z) : M T Z :=
  a ← translate pgdir va false;
  d ← load_page (page_of a);
  of_option "memory" (d !! Z.to_nat (a mod PGSIZE)).
Definition store8 (pgdir va v : Z) : M T unit :=
  a ← translate pgdir va true;
  d ← load_page (page_of a);
  store_page (page_of a) (<[Z.to_nat (a mod PGSIZE) := v]> d).

Fixpoint user_bytes (pgdir va : Z) (n : nat) : M T (list Z) :=
  match n with
  | O => mret []
  | S n' => b ← load8 pgdir va; l ← user_bytes pgdir (va + 1) n'; mret (b :: l)
  end.
Fixpoint user_store (pgdir va : Z) (l : list Z) : M T unit :=
  match l with
  | [] => mret tt
  | b :: l' => store8 pgdir va b ;; user_store pgdir (va + 1) l'
  end.
End user_memory.

(** ** syscall.c *)

Section syscall.
Context {T : Type} `{Journal T}.

(** [None] for the result -1, otherwise what is stored at [ip]. *)
Definition fetchint (addr : Z) : M (kernel T) (option Z) :=
  '(_, pr) ← curproc;
  if (p_sz pr <=z addr) || (p_sz pr <z u32 (addr + 4)) then mret None else
  l ← user_bytes (p_pgdir pr) addr 4;
  mret (Some (s32 (le_val l))).

(** The loop of [fetchstr]: [n] bytes are left before the end of the process. *)
Fixpoint fetchstr_loop (pgdir : Z) (n : nat) (s pp : Z) : M (kernel T) (option Z) :=
  match n with
  | O => mret None
  | S n' =>
      c ← load8 pgdir s;
      if c =z 0 then mret (Some (s - pp)) else fetchstr_loop pgdir n' (s + 1) pp
  end.
(** The pointer and the length of the string, or [None] for -1. *)
Definition fetchstr (addr : Z) : M (kernel T) (option (Z * Z)) :=
  '(_, pr) ← curproc;
  if p_sz pr <=z addr then mret None else
  r ← fetchstr_loop (p_pgdir pr) (Z.to_nat (p_sz pr - addr)) addr addr;
  mret ((fun n => (addr, n)) <$> r).

Definition argint (n : Z) : M (kernel T) (option Z) :=
  '(_, pr) ← curproc;
  fetchint (u32 (tf_esp (p_tf pr) + 4 + 4 * n)).

Definition argptr (n size : Z) : M (kernel T) (option Z) :=
  '(_, pr) ← curproc;
  r ← argint n;
  match r with
  | None => mret None
  | Some i =>
      if (size <z 0) || (p_sz pr <=z u32 i) || (p_sz pr <z u32 (u32 i + size)) then mret None
      else mret (Some (u32 i))
  end.

Definition argstr (n : Z) : M (kernel T) (option (Z * Z)) :=
  r ← argint n;
  match r with
  | None => mret None
  | Some addr => fetchstr (u32 addr)
  end.

(** The kernel reads a string or a buffer it was given a pointer to. *)
Definition user_read (p n : Z) : M (kernel T) (list Z) :=
  '(_, pr) ← curproc;
  user_bytes (p_pgdir pr) p (Z.to_nat n).
Definition user_write (p : Z) (l : list Z) : M (kernel T) unit :=
  '(_, pr) ← curproc;
  user_store (p_pgdir pr) p l.
(** [argstr] and the string, with its null byte. *)
Definition argpath (n : Z) : M (kernel T) (option (list Z)) :=
  r ← argstr n;
  match r with
  | None => mret None
  | Some (p, len) => l ← user_read p (len + 1); mret (Some l)
  end.

(** ** sysproc.c *)

Variables kend kdata forkret_addr trapret_addr : Z.

Definition sys_fork : M (kernel T) Z := fork kend kdata forkret_addr trapret_addr.
Definition sys_exit : M (kernel T) Z := exit kend ;; mret 0.
Definition sys_wait : M (kernel T) Z := wait kend.

Definition sys_kill : M (kernel T) Z :=
  r ← argint 0;
  match r with
  | None => mret (-1)
  | Some pid => onm (kill pid)
  end.

Definition sys_getpid : M (kernel T) Z := '(_, pr) ← curproc; mret (p_pid pr).

Definition sys_sbrk : M (kernel T) Z :=
  r ← argint 0;
  match r with
  | None => mret (-1)
  | Some n =>
      '(_, pr) ← curproc;
      let addr := s32 (p_sz pr) in
      g ← growproc kend n;
      if g <z 0 then mret (-1) else mret addr
  end.

(** The loop of [sys_sleep], where it starts and where it goes on after
    [sleep]: the comparison is one of unsigned integers. *)
Definition sleep_loop (ticks0 n : Z) : M (kernel T) Z :=
  ticks ← gets k_ticks;
  if u32 (ticks - ticks0) <z u32 n then
    '(_, pr) ← curproc;
    if c_bool (p_killed pr) then onm (release LTicks) ;; mret (-1) else
    onm (sleep ChTicks (Some LTicks)) ;;
    fault "sleep returned"
  else onm (release LTicks) ;; mret 0.
Definition sys_sleep : M (kernel T) Z :=
  r ← argint 0;
  match r with
  | None => mret (-1)
  | Some n =>
      onm (acquire LTicks) ;;
      ticks0 ← gets k_ticks;
      sleep_loop ticks0 n
  end.

Definition sys_uptime : M (kernel T) Z :=
  onm (acquire LTicks) ;;
  xticks ← gets k_ticks;
  onm (release LTicks) ;;
  mret (s32 xticks).

Definition sys_getpidplusone : M (kernel T) Z := '(_, pr) ← curproc; mret (s32 (p_pid pr + 1)).
End syscall.
