(* ===== verification/SyscallSpec.v ===== *)
(** * The arguments of system calls

    What the kernel reads through the page table of a process whose memory is
    complete, and that the checks of [argptr] and [argstr] keep it inside the
    process. *)

From S2P Require Import Prelude Bytes Word32 Params Machine BlockCache Bio BioSpec Journal Log LogSpec LogTx Crash CString Fs FsExample Kalloc Vm VmRep VmSpace VmCopy VmTheorems Pipe Kern FileC Proc ProcSpec Fork ProcTheorems Syscall.
Local Open Scope Z_scope.

Lemma PDX_va va : 0 <= va < 2 ^ 32 -> PDX va = va / PGSIZE / 1024.
Proof.
  intros Hv. unfold PDX, PDXSHIFT, PGSIZE. rewrite u32_small by lia. change 0x3FF with (Z.ones 10).
  rewrite Z.land_ones, Z.shiftr_div_pow2 by lia. rewrite Z.div_div by lia. change (4096 * 1024) with (2 ^ 22).
  apply Z.mod_small. split; [by apply Z.div_pos; lia|apply Z.div_lt_upper_bound; lia].
Qed.
Lemma PTX_va va : 0 <= va < 2 ^ 32 -> PTX va = va / PGSIZE mod 1024.
Proof.
  intros Hv. unfold PTX, PTXSHIFT, PGSIZE. rewrite u32_small by lia. change 0x3FF with (Z.ones 10).
  by rewrite Z.land_ones, Z.shiftr_div_pow2 by lia.
Qed.

(** ** User memory *)

(** The byte at a user address, and [n] of them. *)
Definition ubyte (r : gmap Z (list Z)) (ents : gmap Z Z) (va : Z) : Z :=
  match ents !! (va / PGSIZE) with
  | Some w => nth (Z.to_nat (va mod PGSIZE)) (default [] (r !! pframe w)) 0
  | None => 0
  end.
Fixpoint umem (r : gmap Z (list Z)) (ents : gmap Z Z) (va : Z) (n : nat) : list Z :=
  match n with
  | O => []
  | S n' => ubyte r ents va :: umem r ents (va + 1) n'
  end.

Lemma lookup_umem r ents n : forall va k, (k < n)%nat -> umem r ents va n !! k = Some (ubyte r ents (va + Z.of_nat k)).
Proof.
  induction n as [|n IH]; intros va k Hk; [lia|]. destruct k as [|k]; cbn [umem].
  - by rewrite Z.add_0_r.
  - cbn. rewrite IH by lia. do 2 f_equal. lia.
Qed.

(** A process of [sz] bytes: every page is there and writable. *)
Record uspace {T} `{HasMem T} (kend : Z) (s : T) (pgdir : Z) (tabs ents : gmap Z Z) (sz : Z) : Prop := {
  us_space : parent kend [] s pgdir tabs ents;
  us_size : 0 <= sz <= KERNBASE;
  us_pages : forall j, 0 <= j < npages sz -> exists w, ents !! j = Some w /\ Z.land w PTE_W <> 0
}.

Section user_memory.
Context {T : Type} `{HasMem T}.
Variable kend : Z.
Hypothesis kend_ok : KERNBASE < kend.
Implicit Types s : T.

Lemma us_page s pgdir tabs ents sz va : uspace kend s pgdir tabs ents sz -> 0 <= va < sz ->
  exists w t d, ents !! (va / PGSIZE) = Some w /\ Z.land w PTE_W <> 0 /\ Z.land w PTE_P = 1 /\ tabs !! (va / PGSIZE / 1024) = Some t /\
    frame_ok kend t /\ frame_ok kend (pframe w) /\ ram (mem s) !! pframe w = Some d /\ length d = Z.to_nat PGSIZE.
Proof.
  intros [HP Hsz Hpg] Hva. pose proof (npages_bounds sz) as Hb. pose proof (Z.div_mod va PGSIZE ltac:(done)) as Hdm.
  pose proof (Z.mod_pos_bound va PGSIZE ltac:(done)) as Hm. unfold PGSIZE, KERNBASE in *.
  assert (0 <= va / 4096 < npages sz) as Hj by lia. destruct (Hpg _ Hj) as (w & Hw & Hww).
  destruct (pt_ent _ _ _ _ (pa_table _ _ _ _ _ _ HP) _ w Hw) as (Hn & [t Ht] & Hwr & Hwp).
  assert (pframe w ∈ uframes ents) as Hin by (apply elem_of_uframes; eexists _, _; split_and!; [done|lia|done]).
  assert (t ∈ vals tabs) as Hint by (apply elem_of_vals; eauto).
  destruct (pa_pages _ _ _ _ _ _ HP (pframe w) ltac:(set_solver)) as [[Hfw (d & Hd & Hl)] _].
  destruct (pa_pages _ _ _ _ _ _ HP t ltac:(set_solver)) as [[Hft _] _]. exists w, t, d. done.
Qed.

(** The hardware finds the frame of every byte of the process. *)
Lemma wp_translate (Q : Z -> T -> Prop) s pgdir tabs ents sz va wr : uspace kend s pgdir tabs ents sz -> 0 <= va < sz ->
  (forall w d, ents !! (va / PGSIZE) = Some w -> frame_ok kend (pframe w) -> ram (mem s) !! pframe w = Some d ->
     length d = Z.to_nat PGSIZE -> Q (pframe w + va mod PGSIZE) s) ->
  wp (translate pgdir va wr) Q s.
Proof using kend_ok.
  intros Hu Hva HQ. destruct (us_page s pgdir tabs ents sz va Hu Hva) as (w & t & d & Hw & Hww & Hwp & Ht & Hft & Hfw & Hd & Hl).
  pose proof (us_size _ _ _ _ _ _ Hu) as Hsz. pose proof (us_space _ _ _ _ _ _ Hu) as HP.
  pose proof (pa_table _ _ _ _ _ _ HP) as [(dd & Hdd & Hdw) Htab Hent]. unfold translate.
  assert (0 <= va / PGSIZE < 2 ^ 20) as Hn by (by eapply Hent).
  assert (0 <= va / PGSIZE / 1024 < 1024) as Hi by (split; [apply Z.div_pos|apply Z.div_lt_upper_bound]; lia).
  assert (0 <= va / PGSIZE mod 1024 < 1024) as Hj by (apply Z.mod_pos_bound; lia).
  assert (0 <= va < 2 ^ 32) as Hva' by (unfold KERNBASE in *; lia). wp_step. rewrite PDX_va, PTX_va by done.
  eapply wp_load32; [done| |done|].
  { apply (pa_pages _ _ _ _ _ _ HP pgdir). set_solver. }
  rewrite Hdw, Ht by done. cbn [pde_word from_option]. destruct (pframe_entry kend kend_ok t 7 Hft) as (Ef & Ea & _); [done|].
  rewrite present_add by (apply (frame_range kend kend_ok); done). rewrite bool_decide_eq_false_2 by done. wp_step.
  unfold pframe in Ef. rewrite Ef. destruct (Htab _ _ Ht) as (_ & dt & Hdt & Hwt). eapply wp_load32; [done|apply Hft|done|].
  rewrite Hwt by done. replace (va / PGSIZE / 1024 * 1024 + va / PGSIZE mod 1024) with (va / PGSIZE)
    by (pose proof (Z.div_mod (va / PGSIZE) 1024 ltac:(lia)); lia).
  rewrite Hw. change (default 0 (Some w)) with w. rewrite Hwp, bool_decide_eq_false_2 by done.
  rewrite (bool_decide_eq_false_2 (Z.land w PTE_W = 0)) by done. rewrite andb_false_r. cbn [orb]. wp_step. by eapply HQ.
Qed.

Lemma frame_byte a k : a mod PGSIZE = 0 -> 0 <= k < PGSIZE -> page_of (a + k) = a /\ (a + k) mod PGSIZE = k.
Proof. intros Ha Hk. unfold page_of. rewrite page_mod_add by done. split; [lia|done]. Qed.

Lemma wp_load8 (Q : Z -> T -> Prop) s pgdir tabs ents sz va : uspace kend s pgdir tabs ents sz -> 0 <= va < sz ->
  Q (ubyte (ram (mem s)) ents va) s -> wp (load8 pgdir va) Q s.
Proof using kend_ok.
  intros Hu Hva HQ. unfold load8. wp_step. eapply wp_translate; [done|done|]. intros w d Hw Hf Hd Hl. wp_step.
  pose proof (Z.mod_pos_bound va PGSIZE ltac:(done)) as Hm. destruct (frame_byte (pframe w) (va mod PGSIZE)) as [-> ->]; [apply Hf|done|].
  eapply wp_load_page; [done|]. unfold ubyte in HQ. rewrite Hw, Hd in HQ. cbn in HQ.
  destruct (lookup_lt_is_Some_2 d (Z.to_nat (va mod PGSIZE))) as [b Hb]; [rewrite Hl; unfold PGSIZE in *; lia|].
  eapply wp_of_option; [done|]. by rewrite (nth_lookup_Some _ _ _ _ Hb) in HQ.
Qed.

Lemma wp_user_bytes (Q : list Z -> T -> Prop) s pgdir tabs ents sz n : forall va, uspace kend s pgdir tabs ents sz ->
  0 <= va -> va + Z.of_nat n <= sz -> Q (umem (ram (mem s)) ents va n) s -> wp (user_bytes pgdir va n) Q s.
Proof using kend_ok.
  revert Q. induction n as [|n IH]; intros Q va Hu Hva Hn HQ; cbn [user_bytes umem] in *; [by wp_step|].
  wp_step. eapply wp_load8; [done|lia|]. wp_step. eapply IH; [done|lia|lia|]. by wp_step.
Qed.
End user_memory.

(** ** Fetching arguments *)

Lemma u32_s32 x : u32 (s32 x) = u32 x.
Proof.
  unfold s32. pose proof (u32_range x). case_bool_decide; [by apply u32_small|].
  unfold u32 at 1. rewrite <- (Z.mod_add _ 1) by done. replace (u32 x - 2 ^ 32 + 1 * 2 ^ 32) with (u32 x) by lia.
  by apply u32_small.
Qed.

Section syscall.
Context {T : Type} `{Journal T}.
Variable kend : Z.
Hypothesis kend_ok : KERNBASE < kend.
Implicit Types (s : kernel T) (v : kview) (pr : proc).

(** A process in a system call. *)
Record uready s cur v pr tabs ents : Prop := {
  ur_calm : calm s cur v;
  ur_proc : v_procs v !! cur = Some pr;
  ur_space : uspace kend s (p_pgdir pr) tabs ents (p_sz pr)
}.

Lemma uspace_mem s s' pgdir tabs ents sz : uspace kend s pgdir tabs ents sz -> mem s' = mem s -> uspace kend s' pgdir tabs ents sz.
Proof using kend_ok.
  intros [HP Hs Hp] E. split; [|done|done]. eapply (parent_step kend kend_ok); [done|]. intros a _. by rewrite E.
Qed.

(** [myproc()] keeps everything. *)
Lemma wp_curproc_u (Q : nat * proc -> kernel T -> Prop) s cur v pr tabs ents : uready s cur v pr tabs ents ->
  (forall s', uready s' cur v pr tabs ents -> mem s' = mem s -> Q (cur, pr) s') -> wp curproc Q s.
Proof using kend_ok.
  intros [Hc Hp Hu] HQ. eapply wp_curproc; [done|done|]. intros s' Hc' _.
  assert (mem s' = mem s) as E by (etrans; [apply (ca_mem _ _ _ Hc')|symmetry; apply (ca_mem _ _ _ Hc)]).
  apply HQ; [|done]. split; [done|done|by eapply uspace_mem].
Qed.

Lemma wp_fetchint (Q : option Z -> kernel T -> Prop) s cur v pr tabs ents addr : uready s cur v pr tabs ents -> 0 <= addr < 2 ^ 32 ->
  (forall s', uready s' cur v pr tabs ents -> mem s' = mem s ->
     Q (if decide (addr + 4 <= p_sz pr) then Some (s32 (le_val (umem (ram (mem s)) ents addr 4))) else None) s') ->
  wp (fetchint addr) Q s.
Proof using kend_ok.
  intros Hu Ha HQ. unfold fetchint. wp_step. eapply wp_curproc_u; [done|]. intros s' Hu' E.
  pose proof (ur_space _ _ _ _ _ _ Hu') as Hs. pose proof (us_size _ _ _ _ _ _ Hs) as Hsz. specialize (HQ s' Hu' E).
  destruct (decide (addr + 4 <= p_sz pr)) as [Hf|Hf].
  - rewrite !bool_decide_eq_false_2 by (rewrite ?u32_small by (unfold KERNBASE in *; lia); lia). cbn [orb]. wp_step.
    eapply (wp_user_bytes kend kend_ok); [done|lia|lia|]. wp_step. by rewrite E.
  - destruct (decide (p_sz pr <= addr)).
    + rewrite bool_decide_eq_true_2 by done. cbn [orb]. by wp_step.
    + rewrite (bool_decide_eq_true_2 (p_sz pr < _)) by (rewrite u32_small by (unfold KERNBASE in *; lia); lia).
      rewrite orb_true_r. by wp_step.
Qed.

(** The address and the value of argument [n]. *)
Definition arg_addr pr (n : Z) : Z := u32 (tf_esp (p_tf pr) + 4 + 4 * n).
Definition arg_word s ents pr (n : Z) : Z := u32 (le_val (umem (ram (mem s)) ents (arg_addr pr n) 4)).

Lemma wp_argint (Q : option Z -> kernel T -> Prop) s cur v pr tabs ents n : uready s cur v pr tabs ents ->
  (forall s', uready s' cur v pr tabs ents -> mem s' = mem s ->
     Q (if decide (arg_addr pr n + 4 <= p_sz pr) then Some (s32 (le_val (umem (ram (mem s)) ents (arg_addr pr n) 4))) else None) s') ->
  wp (argint n) Q s.
Proof using kend_ok.
  intros Hu HQ. unfold argint. wp_step. eapply wp_curproc_u; [done|]. intros s' Hu' E.
  eapply wp_fetchint; [done|apply u32_range|]. intros s'' Hu'' E'. rewrite E in E'. rewrite E. by apply HQ.
Qed.

Lemma wp_argptr (Q : option Z -> kernel T -> Prop) s cur v pr tabs ents n size : uready s cur v pr tabs ents -> size < 2 ^ 31 ->
  (forall s', uready s' cur v pr tabs ents -> mem s' = mem s ->
     Q (if decide (arg_addr pr n + 4 <= p_sz pr /\ 0 <= size /\ arg_word s ents pr n < p_sz pr /\ arg_word s ents pr n + size <= p_sz pr)
        then Some (arg_word s ents pr n) else None) s') ->
  wp (argptr n size) Q s.
Proof using kend_ok.
  intros Hu Hsize HQ. unfold argptr. wp_step. eapply wp_curproc_u; [done|]. intros s0 Hu0 E0. wp_step.
  eapply wp_argint; [done|]. intros s1 Hu1 E1. rewrite E0 in *. specialize (HQ s1 Hu1 E1).
  pose proof (us_size _ _ _ _ _ _ (ur_space _ _ _ _ _ _ Hu)) as Hsz.
  destruct (decide (arg_addr pr n + 4 <= p_sz pr)) as [Ha|Ha].
  2:{ rewrite decide_False in HQ by tauto. by wp_step. }
  rewrite u32_s32. fold (arg_word s ents pr n). set (p := arg_word s ents pr n) in *.
  assert (0 <= p < 2 ^ 32) as Hp by apply u32_range. destruct (decide (_ /\ _)) as [(_ & H1 & H2 & H3)|Hno].
  - rewrite !bool_decide_eq_false_2 by (rewrite ?u32_small by (unfold KERNBASE in *; lia); lia). cbn [orb]. by wp_step.
  - destruct (_ || _ || _) eqn:E; [by wp_step|]. exfalso. apply Hno.
    apply orb_false_iff in E as [[E2 E3]%orb_false_iff E4]. apply bool_decide_eq_false in E2, E3, E4.
    rewrite u32_small in E4 by (unfold KERNBASE in *; lia). lia.
Qed.

Lemma wp_user_read (Q : list Z -> kernel T -> Prop) s cur v pr tabs ents p n : uready s cur v pr tabs ents -> 0 <= p ->
  0 <= n -> p + n <= p_sz pr ->
  (forall s', uready s' cur v pr tabs ents -> mem s' = mem s -> Q (umem (ram (mem s)) ents p (Z.to_nat n)) s') -> wp (user_read p n) Q s.
Proof using kend_ok.
  intros Hu Hp Hn Hf HQ. unfold user_read. wp_step. eapply wp_curproc_u; [done|]. intros s' Hu' E.
  eapply (wp_user_bytes kend kend_ok); [apply Hu'|done|lia|]. rewrite E. by apply HQ.
Qed.

(** The length of the string at [p], if it ends before [n] bytes. *)
Fixpoint ustrlen (r : gmap Z (list Z)) (ents : gmap Z Z) (p : Z) (n : nat) : option Z :=
  match n with
  | O => None
  | S n' => if ubyte r ents p =z 0 then Some 0 else Z.succ <$> ustrlen r ents (p + 1) n'
  end.

Lemma ustrlen_spec r ents n : forall p, match ustrlen r ents p n with
  | Some k => 0 <= k < Z.of_nat n /\ ubyte r ents (p + k) = 0 /\ forall j, 0 <= j < k -> ubyte r ents (p + j) <> 0
  | None => forall j, 0 <= j < Z.of_nat n -> ubyte r ents (p + j) <> 0 end.
Proof.
  induction n as [|n IH]; intros p; cbn [ustrlen]; [lia|]. case_bool_decide as Hb.
  - rewrite Z.add_0_r. split_and!; [lia|lia|done|lia].
  - specialize (IH (p + 1)). assert (forall j, 0 < j -> p + 1 + (j - 1) = p + j) as Hs by lia.
    destruct (ustrlen r ents (p + 1) n) as [k|]; cbn [fmap option_fmap option_map].
    + destruct IH as (Hk & Hz & Hj). split_and!; [lia|lia| |].
      * by replace (p + Z.succ k) with (p + 1 + k) by lia.
      * intros j Hr. destruct (decide (j = 0)) as [->|]; [by rewrite Z.add_0_r|]. rewrite <- Hs by lia. apply Hj. lia.
    + intros j Hr. destruct (decide (j = 0)) as [->|]; [by rewrite Z.add_0_r|]. rewrite <- Hs by lia. apply IH. lia.
Qed.

Lemma wp_fetchstr_loop (Q : option Z -> kernel T -> Prop) s cur v pr tabs ents pp n : uready s cur v pr tabs ents ->
  forall p, 0 <= p -> p + Z.of_nat n = p_sz pr -> Q ((fun k => p - pp + k) <$> ustrlen (ram (mem s)) ents p n) s ->
  wp (fetchstr_loop (p_pgdir pr) n p pp) Q s.
Proof using kend_ok.
  intros Hu. revert Q. induction n as [|n IH]; intros Q p Hp Hn HQ; cbn [fetchstr_loop ustrlen] in *; [by wp_step|]. wp_step.
  eapply (wp_load8 kend kend_ok); [apply Hu|lia|]. case_bool_decide as Hb.
  - wp_step. cbn in HQ. by rewrite Z.add_0_r in HQ.
  - apply IH; [lia|lia|]. destruct (ustrlen _ _ (p + 1) n); cbn in *; [|done].
    by replace (p + 1 - pp + z) with (p - pp + Z.succ z) by lia.
Qed.
End syscall.

(** C27: [argptr] gives the kernel a pointer exactly when the argument lies
    inside the process and the whole block does, for every stack pointer, every
    argument and every size, also where the sums wrap; the kernel can then read
    the block through the page table, and finds the bytes of the process. *)
Theorem argptr_safe {T} `{Journal T} kend (s : kernel T) cur v pr tabs ents n size : KERNBASE < kend ->
  uready kend s cur v pr tabs ents -> size < 2 ^ 31 ->
  wp (argptr n size) (fun r s' => calm s' cur v /\
    r = (if decide (arg_addr pr n + 4 <= p_sz pr /\ 0 <= size /\ arg_word s ents pr n < p_sz pr /\
                    arg_word s ents pr n + size <= p_sz pr) then Some (arg_word s ents pr n) else None) /\
    forall p, r = Some p -> wp (user_read p size) (fun l s'' => l = umem (ram (mem s)) ents p (Z.to_nat size)) s') s.
Proof.
  intros He Hu Hs. eapply wp_argptr; [done|done|done|]. intros s' Hu' E. split_and!; [apply Hu'|done|].
  intros p Hp. destruct (decide _) as [(_ & Hs0 & Hp1 & Hp2)|]; [|done]. injection Hp as <-.
  eapply (wp_user_read kend He); [exact Hu'|apply u32_range|done|done|]. intros s'' _ _. by rewrite E.
Qed.

(** [argstr] finds the string an argument points to: the null byte is
    inside the process and no byte before it is null; it returns -1 exactly
    when the argument or its target is not in the process or no null byte
    follows before the end of the process. *)
Theorem argstr_correct {T} `{Journal T} kend (s : kernel T) cur v pr tabs ents n : KERNBASE < kend ->
  uready kend s cur v pr tabs ents ->
  wp (argstr n) (fun r s' => calm s' cur v /\ let p := arg_word s ents pr n in let b := ubyte (ram (mem s)) ents in
    match r with
    | Some (q, len) => arg_addr pr n + 4 <= p_sz pr /\ q = p /\ 0 <= len /\ p + len < p_sz pr /\ b (p + len) = 0 /\
        forall j, 0 <= j < len -> b (p + j) <> 0
    | None => p_sz pr < arg_addr pr n + 4 \/ forall a, p <= a < p_sz pr -> b a <> 0
    end) s.
Proof.
  intros He Hu. unfold argstr. wp_step. eapply (wp_argint kend He); [exact Hu|]. intros s1 Hu1 E1.
  destruct (decide (arg_addr pr n + 4 <= p_sz pr)) as [Ha|Ha].
  2:{ wp_step. split; [apply Hu1|]. left. lia. }
  rewrite u32_s32. fold (arg_word s ents pr n). set (p := arg_word s ents pr n). cbv zeta.
  assert (0 <= p < 2 ^ 32) as Hp by apply u32_range. unfold fetchstr. wp_step.
  eapply (wp_curproc_u kend He); [exact Hu1|]. intros s2 Hu2 E2. case_bool_decide as Hin.
  { wp_step. split; [apply Hu2|]. right. lia. }
  wp_step. eapply (wp_fetchstr_loop kend He); [exact Hu2|lia|lia|]. wp_step. split; [apply Hu2|]. rewrite E2, E1.
  pose proof (ustrlen_spec (ram (mem s)) ents (Z.to_nat (p_sz pr - p)) p) as Hk.
  destruct (ustrlen _ _ _ _) as [k|]; cbn [fmap option_fmap option_map].
  - destruct Hk as (Hk & Hz & Hj). replace (p - p + k) with k by lia. split_and!; try done; lia.
  - right. intros a Hr. replace a with (p + (a - p)) by lia. apply Hk. lia.
Qed.

(** ** A call *)

(** The process of [px] with its stack at address 0: its first argument is a
    pointer to a string at address 100. *)
Definition ux_page : list Z := splice 100 [104; 105; 0] (set32 (replicate 4096 42) 4 100).
Definition ux : kernel kstate := put_page vx_user ux_page px.

Lemma calm_put {T} `{HasMachine T} (s : kernel T) cur v a d : calm s cur v ->
  calm (put_page a d s) cur (set_v_mem (k_mem (put_page a d s)) v).
Proof. intros [C1 C2 C3 C4 C5 C6 C7 C8 C9]. by split. Qed.

Lemma ux_ready : uready vx_end ux 0 (set_v_mem (k_mem ux) px_view) px_proc vx_tabs vx_ents.
Proof.
  split; [|done|split; [split|done|]].
  - apply calm_put, px_calm.
  - unfold ux. rewrite ram_put_page. eapply ptable_ext; [apply px_parent|by apply lookup_insert_ne|].
    rewrite vx_vals. intros t ->%list_elem_of_singleton. by apply lookup_insert_ne.
  - intros a Ha. split; [|set_solver]. apply is_page_put; [|done]. by apply (pa_pages _ _ _ _ _ _ px_parent).
  - intros j Hj. change (npages (p_sz px_proc)) with 1 in Hj. replace j with 0 by lia. eexists. split; [done|]. vm_compute. congruence.
Qed.

Lemma argptr_safe_witness : wp (argptr 0 8) (fun r s' => r = Some 100 /\
  wp (user_read 100 8) (fun l _ => l = [104; 105; 0; 42; 42; 42; 42; 42]) s') ux.
Proof.
  eapply wp_mono; [apply (argptr_safe vx_end ux 0 _ px_proc vx_tabs vx_ents 0 8 ltac:(done) ux_ready ltac:(lia))|].
  intros r s' (_ & -> & Hr). rewrite decide_True by (vm_compute; split_and!; congruence).
  assert (arg_word ux vx_ents px_proc 0 = 100) as E by (vm_compute; reflexivity). rewrite E. split; [done|].
  eapply wp_mono; [apply Hr; rewrite decide_True by (vm_compute; split_and!; congruence); by rewrite E|].
  intros l s'' ->. vm_compute. reflexivity.
Defined.

