(* ===== verification/Sysfile.v ===== *)
(** * System calls on files

    [sysfile.c]: descriptors, and the calls that work on the directory tree.
    A buffer in user memory is read before the call that uses it and written
    after the call that fills it. *)

From S2P Require Import Prelude Bytes Params Machine BlockCache Journal CString Fs Kalloc Vm Pipe Kern FileC Proc Syscall.
Local Open Scope Z_scope.

Definition set_i_dev (major minor : Z) (i : inode) : inode :=
  Inode (i_dev i) (i_inum i) (i_ref i) (i_valid i) (i_type i) major minor (i_nlink i) (i_size i) (i_addrs i).

Section sysfile.
Context {T : Type} `{Journal T}.
Variable devsw_read : Z -> option (nat -> Z -> M (fstate T) (Z * list Z)).
Variable devsw_write : Z -> option (nat -> list Z -> Z -> M (fstate T) Z).
Variable kend : Z.
(** What the buffer [name] of a frame holds before it is filled. *)
Variable frame_name : list Z.

(** ** Descriptors *)

(** The descriptor and the file, or [None] for -1. *)
Definition argfd (n : Z) : M (kernel T) (option (nat * nat)) :=
  r ← argint n;
  match r with
  | None => mret None
  | Some fd =>
      if (fd <z 0) || (Z.of_nat NOFILE <=z fd) then mret None else
      '(_, pr) ← curproc;
      o ← of_option "ofile" (p_ofile pr !! Z.to_nat fd);
      mret ((fun f => (Z.to_nat fd, f)) <$> o)
  end.

(** The loop of [fdalloc] over the descriptors from [fd] on. *)
Fixpoint fdalloc_loop (n fd : nat) (f cur : nat) : M (kernel T) Z :=
  match n with
  | O => mret (-1)
  | S n' =>
      pr ← onm (get_proc cur);
      o ← of_option "ofile" (p_ofile pr !! fd);
      match o with
      | None => upd cur (fun p => set_p_ofile (<[fd := Some f]> (p_ofile p)) p) ;; mret (Z.of_nat fd)
      | Some _ => fdalloc_loop n' (S fd) f cur
      end
  end.
Definition fdalloc (f : nat) : M (kernel T) Z :=
  '(cur, _) ← curproc;
  fdalloc_loop NOFILE 0 f cur.

(** [myproc()->ofile[fd] = 0]. *)
Definition fdclear (fd : nat) : M (kernel T) unit :=
  '(cur, _) ← curproc;
  upd cur (fun p => set_p_ofile (<[fd := None]> (p_ofile p)) p).

Definition sys_dup : M (kernel T) Z :=
  r ← argfd 0;
  match r with
  | None => mret (-1)
  | Some (_, f) =>
      fd ← fdalloc f;
      if fd <z 0 then mret (-1) else
      filedup f ;;
      mret fd
  end.

(** The arguments of [read] and [write]. *)
Definition rw_args : M (kernel T) (option (nat * Z * Z)) :=
  r ← argfd 0;
  match r with
  | None => mret None
  | Some (_, f) =>
      r ← argint 2;
      match r with
      | None => mret None
      | Some n =>
          r ← argptr 1 n;
          mret ((fun p => (f, p, n)) <$> r)
      end
  end.

Definition sys_read : M (kernel T) Z :=
  r ← rw_args;
  match r with
  | None => mret (-1)
  | Some (f, p, n) =>
      '(r, l) ← fileread devsw_read f n;
      user_write p l ;;
      mret r
  end.

Definition sys_write : M (kernel T) Z :=
  r ← rw_args;
  match r with
  | None => mret (-1)
  | Some (f, p, n) =>
      l ← user_read p n;
      filewrite devsw_write f l n
  end.

Definition sys_close : M (kernel T) Z :=
  r ← argfd 0;
  match r with
  | None => mret (-1)
  | Some (fd, f) =>
      fdclear fd ;;
      fileclose kend f ;;
      mret 0
  end.

(** The fields of [struct stat] where the compiler puts them. *)
Definition STATSIZE : Z := 20.
Definition store_stat (p : Z) (st : stat) : M (kernel T) unit :=
  user_write p (le_bytes 2 (st_type st)) ;;
  user_write (p + 4) (le_bytes 4 (st_dev st)) ;;
  user_write (p + 8) (le_bytes 4 (st_ino st)) ;;
  user_write (p + 12) (le_bytes 2 (st_nlink st)) ;;
  user_write (p + 16) (le_bytes 4 (st_size st)).

Definition sys_fstat : M (kernel T) Z :=
  r ← argfd 0;
  match r with
  | None => mret (-1)
  | Some (_, f) =>
      r ← argptr 1 STATSIZE;
      match r with
      | None => mret (-1)
      | Some p =>
          '(r, st) ← filestat f;
          match st with Some st => store_stat p st | None => mret tt end ;;
          mret r
      end
  end.

(** ** Links *)

(** The label [bad] of [sys_link]. *)
Definition link_bad (ip : nat) : M (kernel T) Z :=
  onfs (ilock (Some ip)) ;;
  onfs (upd_inode ip (fun i => set_i_nlink (s16 (i_nlink i - 1)) i)) ;;
  onfs (iupdate ip) ;;
  onfs (iunlockput ip) ;;
  end_op_k ;;
  mret (-1).

Definition sys_link : M (kernel T) Z :=
  old ← argpath 0;
  match old with None => mret (-1) | Some old =>
  new ← argpath 1;
  match new with None => mret (-1) | Some new =>
  begin_op_k ;;
  r ← onfs (namei devsw_read old frame_name);
  match r with
  | None => end_op_k ;; mret (-1)
  | Some ip =>
      onfs (ilock (Some ip)) ;;
      i ← onfs (get_inode ip);
      if i_type i =z T_DIR then
        onfs (iunlockput ip) ;;
        end_op_k ;;
        mret (-1)
      else
      onfs (upd_inode ip (fun i => set_i_nlink (s16 (i_nlink i + 1)) i)) ;;
      onfs (iupdate ip) ;;
      onfs (iunlock (Some ip)) ;;
      '(r, name) ← onfs (nameiparent devsw_read new frame_name);
      match r with
      | None => link_bad ip
      | Some dp =>
          onfs (ilock (Some dp)) ;;
          d ← onfs (get_inode dp);
          i ← onfs (get_inode ip);
          b ← (if negb (i_dev d =z i_dev i) then mret true
               else r ← onfs (dirlink devsw_read devsw_write dp name (i_inum i)); mret (r <z 0));
          if (b : bool) then onfs (iunlockput dp) ;; link_bad ip else
          onfs (iunlockput dp) ;;
          onfs (iput ip) ;;
          end_op_k ;;
          mret 0
      end
  end end end.

Definition isdirempty (dp : nat) : M (fstate T) bool :=
  i ← get_inode dp;
  r ← for_find (Z.to_nat ((i_size i + 15) / 16 - 2)) 2 (fun k =>
    de ← read_dirent devsw_read "isdirempty: readi" dp (k * 16);
    mret (if de_inum de =z 0 then None else Some tt));
  mret (match r with Some _ => false | None => true end).

Definition DOT : list Z := [46; 0].
Definition DOTDOT : list Z := [46; 46; 0].

(** The label [bad] of [sys_unlink]. *)
Definition unlink_bad (dp : nat) : M (kernel T) Z :=
  onfs (iunlockput dp) ;;
  end_op_k ;;
  mret (-1).

Definition sys_unlink : M (kernel T) Z :=
  path ← argpath 0;
  match path with None => mret (-1) | Some path =>
  begin_op_k ;;
  '(r, name) ← onfs (nameiparent devsw_read path frame_name);
  match r with
  | None => end_op_k ;; mret (-1)
  | Some dp =>
      onfs (ilock (Some dp)) ;;
      c1 ← onfs (namecmp name DOT);
      c2 ← (if c1 =z 0 then mret 0 else onfs (namecmp name DOTDOT));
      if c2 =z 0 then unlink_bad dp else
      r ← onfs (dirlookup devsw_read dp name);
      match r with
      | None => unlink_bad dp
      | Some (ip, off) =>
          onfs (ilock (Some ip)) ;;
          i ← onfs (get_inode ip);
          if i_nlink i <z 1 then panic "unlink: nlink < 1" else
          e ← (if i_type i =z T_DIR then onfs (isdirempty ip) else mret true);
          if negb e then onfs (iunlockput ip) ;; unlink_bad dp else
          n ← onfs (writei devsw_write dp (replicate 16 0) off 16);
          if negb (n =z 16) then panic "unlink: writei" else
          when (i_type i =z T_DIR)
            (onfs (upd_inode dp (fun d => set_i_nlink (s16 (i_nlink d - 1)) d)) ;;
             onfs (iupdate dp)) ;;
          onfs (iunlockput dp) ;;
          onfs (upd_inode ip (fun i => set_i_nlink (s16 (i_nlink i - 1)) i)) ;;
          onfs (iupdate ip) ;;
          onfs (iunlockput ip) ;;
          end_op_k ;;
          mret 0
      end
  end end.

(** ** Creation *)

Definition create (path : list Z) (type major minor : Z) : M (fstate T) (option nat) :=
  '(r, name) ← nameiparent devsw_read path frame_name;
  match r with
  | None => mret None
  | Some dp =>
      ilock (Some dp) ;;
      r ← dirlookup devsw_read dp name;
      match r with
      | Some (ip, _) =>
          iunlockput dp ;;
          ilock (Some ip) ;;
          i ← get_inode ip;
          if (type =z T_FILE) && (i_type i =z T_FILE) then mret (Some ip) else
          iunlockput ip ;;
          mret None
      | None =>
          d ← get_inode dp;
          ip ← ialloc (i_dev d) type;
          ilock (Some ip) ;;
          upd_inode ip (fun i => set_i_nlink 1 (set_i_dev (s16 major) (s16 minor) i)) ;;
          iupdate ip ;;
          i ← get_inode ip;
          when (type =z T_DIR)
            (upd_inode dp (fun d => set_i_nlink (s16 (i_nlink d + 1)) d) ;;
             iupdate dp ;;
             r ← dirlink devsw_read devsw_write ip DOT (i_inum i);
             b ← (if r <z 0 then mret true
                  else d ← get_inode dp;
                       r ← dirlink devsw_read devsw_write ip DOTDOT (i_inum d); mret (r <z 0));
             if (b : bool) then panic "create dots" else mret tt) ;;
          r ← dirlink devsw_read devsw_write dp name (i_inum i);
          if r <z 0 then panic "create: dirlink" else
          iunlockput dp ;;
          mret (Some ip)
      end
  end.

(** The inode [sys_open] opens, locked; on [None] the transaction is closed. *)
Definition open_inode (path : list Z) (omode : Z) : M (kernel T) (option nat) :=
  if c_bool (Z.land (u32 omode) O_CREATE) then
    r ← onfs (create path T_FILE 0 0);
    match r with
    | None => end_op_k ;; mret None
    | Some ip => mret (Some ip)
    end
  else
    r ← onfs (namei devsw_read path frame_name);
    match r with
    | None => end_op_k ;; mret None
    | Some ip =>
        onfs (ilock (Some ip)) ;;
        i ← onfs (get_inode ip);
        if (i_type i =z T_DIR) && negb (omode =z O_RDONLY) then
          onfs (iunlockput ip) ;;
          end_op_k ;;
          mret None
        else mret (Some ip)
    end.

Definition sys_open : M (kernel T) Z :=
  path ← argpath 0;
  match path with None => mret (-1) | Some path =>
  omode ← argint 1;
  match omode with None => mret (-1) | Some omode =>
  begin_op_k ;;
  r ← open_inode path omode;
  match r with
  | None => mret (-1)
  | Some ip =>
      f ← filealloc;
      fd ← (match f with Some f => fdalloc f | None => mret (-1) end);
      match f, fd <z 0 with
      | Some f, false =>
          onfs (iunlock (Some ip)) ;;
          end_op_k ;;
          let w := c_bool (Z.land (u32 omode) O_WRONLY) in
          let rw := c_bool (Z.land (u32 omode) O_RDWR) in
          upd_file f (fun x => File FD_INODE (fl_ref x) (if w then 0 else 1) (if w || rw then 1 else 0)
                                 (fl_pipe x) (Some ip) 0) ;;
          mret fd
      | f, _ =>
          match f with Some f => fileclose kend f | None => mret tt end ;;
          onfs (iunlockput ip) ;;
          end_op_k ;;
          mret (-1)
      end
  end end end.

(** The end of [sys_mkdir] and [sys_mknod]. *)
Definition made (r : option nat) : M (kernel T) Z :=
  match r with
  | None => end_op_k ;; mret (-1)
  | Some ip => onfs (iunlockput ip) ;; end_op_k ;; mret 0
  end.

Definition sys_mkdir : M (kernel T) Z :=
  begin_op_k ;;
  path ← argpath 0;
  r ← (match path with Some path => onfs (create path T_DIR 0 0) | None => mret None end);
  made r.

Definition sys_mknod : M (kernel T) Z :=
  begin_op_k ;;
  path ← argpath 0;
  match path with None => made None | Some path =>
  major ← argint 1;
  match major with None => made None | Some major =>
  minor ← argint 2;
  match minor with None => made None | Some minor =>
  r ← onfs (create path T_DEV major minor);
  made r
  end end end.

Definition sys_chdir : M (kernel T) Z :=
  '(cur, _) ← curproc;
  begin_op_k ;;
  path ← argpath 0;
  r ← (match path with Some path => onfs (namei devsw_read path frame_name) | None => mret None end);
  match r with
  | None => end_op_k ;; mret (-1)
  | Some ip =>
      onfs (ilock (Some ip)) ;;
      i ← onfs (get_inode ip);
      if negb (i_type i =z T_DIR) then
        onfs (iunlockput ip) ;;
        end_op_k ;;
        mret (-1)
      else
      onfs (iunlock (Some ip)) ;;
      pr ← onm (get_proc cur);
      cwd ← of_option "cwd" (p_cwd pr);
      onfs (iput cwd) ;;
      end_op_k ;;
      upd cur (set_p_cwd (Some ip)) ;;
      mret 0
  end.

Definition sys_pipe : M (kernel T) Z :=
  r ← argptr 0 8;
  match r with
  | None => mret (-1)
  | Some fd =>
      '(r, fs) ← pipealloc kend;
      match fs with
      | (Some rf, Some wf) =>
          if r <z 0 then mret (-1) else
          fd0 ← fdalloc rf;
          fd1 ← (if fd0 <z 0 then mret (-1) else fdalloc wf);
          if (fd0 <z 0) || (fd1 <z 0) then
            when (0 <=z fd0) (fdclear (Z.to_nat fd0)) ;;
            fileclose kend rf ;;
            fileclose kend wf ;;
            mret (-1)
          else
          user_write fd (le_bytes 4 fd0) ;;
          user_write (fd + 4) (le_bytes 4 fd1) ;;
          mret 0
      | _ => mret (-1)
      end
  end.
End sysfile.
