(* ===== verification/Exec.v ===== *)
(** * exec

    [exec.c], [loaduvm] of [vm.c] and [sys_exec]: a program is read from a
    file into a new address space, which replaces the one of the caller when
    nothing can fail any more. *)

From S2P Require Import Prelude Bytes Params Machine BlockCache Journal CString Fs Console Kalloc Vm Pipe Kern FileC Proc Syscall.
Local Open Scope Z_scope.

(** ** elf.h *)

Definition ELF_MAGIC : Z := 0x464C457F.
Definition ELF_PROG_LOAD : Z := 1.

(** The fields [exec] uses, from the bytes of the header. *)
Record elfhdr := Elfhdr { elf_magic : Z; elf_entry : Z; elf_phoff : Z; elf_phnum : Z }.
Definition ELFSIZE : Z := 52.
Definition elf_of (d : list Z) : elfhdr := Elfhdr (get32 d 0) (get32 d 24) (get32 d 28) (get16 d 44).

Record proghdr := Proghdr { ph_type : Z; ph_off : Z; ph_vaddr : Z; ph_filesz : Z; ph_memsz : Z }.
Definition PHSIZE : Z := 32.
Definition ph_of (d : list Z) : proghdr := Proghdr (get32 d 0) (get32 d 4) (get32 d 8) (get32 d 16) (get32 d 20).

Section exec.
Context {T : Type} `{HJ : Journal T} `{HC : !HasCons T}.
Variable devsw_read : Z -> option (nat -> Z -> M (fstate T) (Z * list Z)).
Variables kend kdata : Z.
Variable frame_name : list Z.

(** A function of [console.c], on the whole state. *)
Definition onconsole {A} (m : M T A) : M (kernel T) A := onfs (lower m).

(** ** loaduvm *)

(** The loop of [loaduvm] from byte [i] on, one page in each round. *)
Fixpoint loaduvm_loop (fuel : nat) (pgdir addr : Z) (ip : nat) (offset i sz : Z) : M (kernel T) Z :=
  if i <z sz then
    match fuel with
    | O => fault "loaduvm"
    | S fuel' =>
        pte ← walkpgdir pgdir (u32 (addr + i)) false;
        if pte =z 0 then panic "loaduvm: address should exist" else
        w ← load32 pte;
        let pa := PTE_ADDR w in
        let n := if sz - i <z PGSIZE then sz - i else PGSIZE in
        '(r, l) ← onfs (readi devsw_read ip (u32 (offset + i)) n);
        memmove_to (P2V pa) l (Z.of_nat (length l)) ;;
        if negb (r =z n) then mret (-1)
        else loaduvm_loop fuel' pgdir addr ip offset (i + PGSIZE) sz
    end
  else mret 0.
Definition loaduvm (pgdir addr : Z) (ip : nat) (offset sz : Z) : M (kernel T) Z :=
  if negb (addr mod PGSIZE =z 0) then panic "loaduvm: addr must be page aligned" else
  loaduvm_loop (Z.to_nat ((sz + PGSIZE - 1) / PGSIZE)) pgdir addr ip offset 0 sz.

(** ** exec *)

(** The label [bad]. *)
Definition exec_bad (pgdir : Z) (ip : option nat) : M (kernel T) Z :=
  when (negb (pgdir =z 0)) (freevm kend pgdir) ;;
  match ip with
  | Some i => onfs (iunlockput i) ;; end_op_k
  | None => mret tt
  end ;;
  mret (-1).

(** The loop over the program headers: the size of the image, or [None] where
    the code goes to [bad]. *)
Fixpoint exec_load (n : nat) (pgdir : Z) (ip : nat) (off sz : Z) : M (kernel T) (option Z) :=
  match n with
  | O => mret (Some sz)
  | S n' =>
      '(r, d) ← onfs (readi devsw_read ip (u32 off) PHSIZE);
      if negb (r =z PHSIZE) then mret None else
      let ph := ph_of d in
      if negb (ph_type ph =z ELF_PROG_LOAD) then exec_load n' pgdir ip (off + PHSIZE) sz else
      if ph_memsz ph <z ph_filesz ph then mret None else
      if u32 (ph_vaddr ph + ph_memsz ph) <z ph_vaddr ph then mret None else
      sz ← allocuvm kend pgdir sz (u32 (ph_vaddr ph + ph_memsz ph));
      if sz =z 0 then mret None else
      if negb (ph_vaddr ph mod PGSIZE =z 0) then mret None else
      r ← loaduvm pgdir (ph_vaddr ph) ip (ph_off ph) (ph_filesz ph);
      if r <z 0 then mret None else
      exec_load n' pgdir ip (off + PHSIZE) sz
  end.

(** The loop over [argv]: the stack pointer and the addresses of the strings. *)
Fixpoint exec_args (argv : list (list Z)) (argc : Z) (pgdir sp : Z) (ustack : list Z) : M (kernel T) (option (Z * list Z)) :=
  match argv with
  | [] => mret (Some (sp, ustack))
  | a :: argv' =>
      if Z.of_nat MAXARG <=z argc then mret None else
      len ← of_option "strlen" (strlen a);
      let sp := Z.land (u32 (sp - (len + 1))) (u32 (Z.lnot 3)) in
      r ← copyout pgdir sp a (len + 1);
      if r <z 0 then mret None else
      exec_args argv' (argc + 1) pgdir sp (ustack ++ [sp])
  end.

(** The frame of [main]: a return address, [argc], [argv] and the array. *)
Definition exec_ustack (sp : Z) (strs : list Z) : list Z :=
  let argc := Z.of_nat (length strs) in
  concat (le_bytes 4 <$> [0xffffffff; argc; u32 (sp - (argc + 1) * 4)] ++ strs ++ [0]).

(** The part of the path after its last slash. *)
Fixpoint exec_last (last s : list Z) : list Z :=
  match s with
  | c :: s' => if c =z 0 then last else exec_last (if c =z SLASH then s' else last) s'
  | [] => last
  end.

(** The image is complete: it replaces the one of the process. *)
Definition exec_commit (cur : nat) (path : list Z) (pgdir sz entry sp : Z) : M (kernel T) Z :=
  pr ← onm (get_proc cur);
  nm ← of_option "safestrcpy" (safestrcpy (p_name pr) (exec_last path path) PNAME);
  upd cur (set_p_name nm) ;;
  let oldpgdir := p_pgdir pr in
  upd cur (set_p_pgdir pgdir) ;;
  upd cur (set_p_sz sz) ;;
  upd cur (fun p => set_p_tf (let t := p_tf p in
    Trapframe (tf_edi t) (tf_esi t) (tf_ebp t) (tf_oesp t) (tf_ebx t) (tf_edx t) (tf_ecx t) (tf_eax t)
      (tf_gs t) (tf_fs t) (tf_es t) (tf_ds t) (tf_trapno t) (tf_err t) entry (tf_cs t) (tf_eflags t) sp (tf_ss t)) p) ;;
  switchuvm (Some cur) ;;
  freevm kend oldpgdir ;;
  mret 0.

(** "exec: fail\n" *)
Definition EXEC_FMT : list Z := [101; 120; 101; 99; 58; 32; 102; 97; 105; 108; 10; 0].

Definition exec (path : list Z) (argv : list (list Z)) : M (kernel T) Z :=
  '(cur, _) ← curproc;
  begin_op_k ;;
  r ← onfs (namei devsw_read path frame_name);
  match r with
  | None => end_op_k ;; onconsole (cprintf (Some EXEC_FMT) []) ;; mret (-1)
  | Some ip =>
      onfs (ilock (Some ip)) ;;
      '(r, d) ← onfs (readi devsw_read ip 0 ELFSIZE);
      if negb (r =z ELFSIZE) then exec_bad 0 (Some ip) else
      let elf := elf_of d in
      if negb (elf_magic elf =z ELF_MAGIC) then exec_bad 0 (Some ip) else
      pgdir ← setupkvm kend kdata;
      if pgdir =z 0 then exec_bad 0 (Some ip) else
      r ← exec_load (Z.to_nat (elf_phnum elf)) pgdir ip (s32 (elf_phoff elf)) 0;
      match r with
      | None => exec_bad pgdir (Some ip)
      | Some sz =>
          onfs (iunlockput ip) ;;
          end_op_k ;;
          let sz := PGROUNDUP sz in
          sz ← allocuvm kend pgdir sz (u32 (sz + 2 * PGSIZE));
          if sz =z 0 then exec_bad pgdir None else
          clearpteu pgdir (u32 (sz - 2 * PGSIZE)) ;;
          r ← exec_args argv 0 pgdir sz [];
          match r with
          | None => exec_bad pgdir None
          | Some (sp, strs) =>
              let argc := Z.of_nat (length strs) in
              let sp' := u32 (sp - (3 + argc + 1) * 4) in
              r ← copyout pgdir sp' (exec_ustack sp strs) ((3 + argc + 1) * 4);
              if r <z 0 then exec_bad pgdir None else
              exec_commit cur path pgdir sz (elf_entry elf) sp'
          end
      end
  end.

(** ** sys_exec *)

(** The strings of the array [argv] in user memory; [None] for the result -1.
    At most [MAXARG] rounds. *)
Fixpoint fetch_argv (n : nat) (uargv i : Z) : M (kernel T) (option (list (list Z))) :=
  match n with
  | O => mret None
  | S n' =>
      r ← fetchint (u32 (uargv + 4 * i));
      match r with
      | None => mret None
      | Some uarg =>
          if uarg =z 0 then mret (Some []) else
          r ← fetchstr (u32 uarg);
          match r with
          | None => mret None
          | Some (p, len) =>
              a ← user_read p (len + 1);
              r ← fetch_argv n' uargv (i + 1);
              mret (cons a <$> r)
          end
      end
  end.

Definition sys_exec : M (kernel T) Z :=
  path ← argpath 0;
  match path with None => mret (-1) | Some path =>
  uargv ← argint 1;
  match uargv with None => mret (-1) | Some uargv =>
  argv ← fetch_argv MAXARG (u32 uargv) 0;
  match argv with None => mret (-1) | Some argv => exec path argv end
  end end.
End exec.
