(* ===== verification/Trap.v ===== *)
(** * System call dispatch and traps

    The table of [syscall.c] and [trap] of [trap.c], over the functions that
    handle the calls and the interrupts.  The disk is the one of [memide.c],
    whose interrupt handler does nothing. *)

From S2P Require Import Prelude Bytes Params Machine BlockCache Journal CString Fs Console Kalloc Vm Pipe Kern FileC Proc Syscall Sysfile Exec.
Local Open Scope Z_scope.

Definition T_SYSCALL : Z := 64.
Definition T_IRQ0 : Z := 32.
Definition IRQ_TIMER : Z := 0.
Definition IRQ_KBD : Z := 1.
Definition IRQ_COM1 : Z := 4.
Definition IRQ_IDE : Z := 14.
Definition IRQ_SPURIOUS : Z := 31.

Section trap.
Context {T : Type} `{HJ : Journal T} `{HC : !HasCons T}.
Variables kend kdata forkret_addr trapret_addr : Z.
Variable frame_name : list Z.
(** What [getcallerpcs] finds on the stack of a process, and the address the
    processor puts in [cr2]. *)
Variable callerpcs : nat -> list Z.

Definition NSYSCALLS : Z := 23.
Definition syscalls (num : Z) : option (M (kernel T) Z) :=
  let rd := cons_devsw_read in
  let wr := cons_devsw_write in
  nth (Z.to_nat num) [
    None;
    Some (sys_fork kend kdata forkret_addr trapret_addr);
    Some (sys_exit kend);
    Some (sys_wait kend);
    Some (sys_pipe kend);
    Some (sys_read rd);
    Some sys_kill;
    Some (sys_exec rd kend kdata frame_name);
    Some sys_fstat;
    Some (sys_chdir rd frame_name);
    Some sys_dup;
    Some sys_getpid;
    Some (sys_sbrk kend);
    Some sys_sleep;
    Some sys_uptime;
    Some (sys_open rd wr kend frame_name);
    Some (sys_write wr);
    Some (sys_mknod rd wr frame_name);
    Some (sys_unlink rd wr frame_name);
    Some (sys_link rd wr frame_name);
    Some (sys_mkdir rd wr frame_name);
    Some (sys_close kend);
    Some sys_getpidplusone] None.

(** "%d %s: unknown sys call %d\n" *)
Definition UNKNOWN_FMT : list Z :=
  [37; 100; 32; 37; 115; 58; 32; 117; 110; 107; 110; 111; 119; 110; 32; 115; 121; 115; 32; 99; 97; 108; 108; 32; 37; 100; 10; 0].

Definition set_eax (cur : nat) (r : Z) : M (kernel T) unit :=
  upd cur (fun p => set_p_tf (set_tf_eax (u32 r) (p_tf p)) p).

Definition syscall : M (kernel T) unit :=
  '(cur, pr) ← curproc;
  let num := s32 (tf_eax (p_tf pr)) in
  match (if (0 <z num) && (num <z NSYSCALLS) then syscalls num else None) with
  | Some f => r ← f; set_eax cur r
  | None =>
      onconsole (cprintf (Some UNKNOWN_FMT) [CInt (p_pid pr); CStr (Some (p_name pr)); CInt num]) ;;
      set_eax cur (-1)
  end.

(** [myproc() && myproc()->killed && (tf->cs&3) == DPL_USER] *)
Definition exit_if_killed (tf : trapframe) : M (kernel T) unit :=
  p ← onm myproc;
  match p with
  | None => mret tt
  | Some i =>
      pr ← onm (get_proc i);
      when (c_bool (p_killed pr) && (Z.land (tf_cs tf) 3 =z DPL_USER)) (exit kend)
  end.

(** The tick of the clock: the first processor counts it. *)
Definition timer_tick : M (kernel T) unit :=
  c ← onm mycpu;
  when (Nat.eqb c 0)
    (onm (acquire LTicks) ;;
     modify (fun s => set_k_ticks (u32 (k_ticks s + 1)) s) ;;
     onm (wakeup ChTicks) ;;
     onm (release LTicks)).

Definition SPURIOUS_FMT : list Z :=
  [99; 112; 117; 37; 100; 58; 32; 115; 112; 117; 114; 105; 111; 117; 115; 32; 105; 110; 116; 101; 114; 114; 117; 112; 116;
   32; 97; 116; 32; 37; 120; 58; 37; 120; 10; 0].
Definition TRAP_FMT : list Z :=
  [117; 110; 101; 120; 112; 101; 99; 116; 101; 100; 32; 116; 114; 97; 112; 32; 37; 100; 32; 102; 114; 111; 109; 32; 99; 112;
   117; 32; 37; 100; 32; 101; 105; 112; 32; 37; 120; 32; 40; 99; 114; 50; 61; 48; 120; 37; 120; 41; 10; 0].
Definition KILL_FMT : list Z :=
  [112; 105; 100; 32; 37; 100; 32; 37; 115; 58; 32; 116; 114; 97; 112; 32; 37; 100; 32; 101; 114; 114; 32; 37; 100; 32; 111;
   110; 32; 99; 112; 117; 32; 37; 100; 32; 101; 105; 112; 32; 48; 120; 37; 120; 32; 97; 100; 100; 114; 32; 48; 120; 37; 120;
   45; 45; 107; 105; 108; 108; 32; 112; 114; 111; 99; 10; 0].

(** The default case: a trap the kernel does not expect. *)
Definition bad_trap (tf : trapframe) (cr2 : Z) : M (kernel T) unit :=
  p ← onm myproc;
  c ← onm mycpu;
  match p with
  | Some i =>
      if Z.land (tf_cs tf) 3 =z 0 then
        onconsole (cprintf (Some TRAP_FMT) [CInt (tf_trapno tf); CInt (Z.of_nat c); CInt (tf_eip tf); CInt cr2]) ;;
        panic "trap"
      else
        pr ← onm (get_proc i);
        onconsole (cprintf (Some KILL_FMT) [CInt (p_pid pr); CStr (Some (p_name pr)); CInt (tf_trapno tf); CInt (tf_err tf);
                                   CInt (Z.of_nat c); CInt (tf_eip tf); CInt cr2]) ;;
        upd i (set_p_killed 1)
  | None =>
      onconsole (cprintf (Some TRAP_FMT) [CInt (tf_trapno tf); CInt (Z.of_nat c); CInt (tf_eip tf); CInt cr2]) ;;
      panic "trap"
  end.

Definition trap_syscall (tf : trapframe) : M (kernel T) unit :=
  '(i, pr) ← curproc;
  when (c_bool (p_killed pr)) (exit kend) ;;
  upd i (set_p_tf tf) ;;
  syscall ;;
  '(_, pr) ← curproc;
  when (c_bool (p_killed pr)) (exit kend).

Definition trap (tf : trapframe) (cr2 : Z) : M (kernel T) unit :=
  let no := tf_trapno tf in
  if no =z T_SYSCALL then trap_syscall tf else
  (if no =z T_IRQ0 + IRQ_TIMER then timer_tick
   else if no =z T_IRQ0 + IRQ_IDE then mret tt
   else if no =z T_IRQ0 + IRQ_IDE + 1 then mret tt
   else if no =z T_IRQ0 + IRQ_KBD then onconsole (kbdintr callerpcs)
   else if no =z T_IRQ0 + IRQ_COM1 then onconsole (uartintr callerpcs)
   else if (no =z T_IRQ0 + 7) || (no =z T_IRQ0 + IRQ_SPURIOUS) then
     c ← onm mycpu;
     onconsole (cprintf (Some SPURIOUS_FMT) [CInt (Z.of_nat c); CInt (tf_cs tf); CInt (tf_eip tf)])
   else bad_trap tf cr2) ;;
  exit_if_killed tf ;;
  p ← onm myproc;
  match p with
  | Some i =>
      pr ← onm (get_proc i);
      when (bool_decide (p_state pr = RUNNING) && (no =z T_IRQ0 + IRQ_TIMER)) (onm yield)
  | None => mret tt
  end ;;
  exit_if_killed tf.
End trap.
